(* ===== verification/_CoqProject ===== *)
-Q . S2P
Prelude.v
PyStr.v
PyFloat.v
Json.v
Regex.v
StrFacts.v
JsonParse.v
PyTime.v
Sha256.v
Effects.v
Decimal.v
FuguCredit.v
FuguLedger.v
FuguPolicy.v
FuguNames.v
FuguRouter.v
FuguRouting.v
FuguDemo.v
FuguFacts.v
OrchEnv.v
OrchEnvFacts.v
OrchJobs.v
OrchFacts.v
Precommit.v
PrecommitFacts.v
BudgetConfig.v
BudgetState.v
BudgetTools.v
BudgetServer.v
BudgetSafety.v
BudgetTheorems.v
BudgetRules.v
Recovery.v
RecoveryAudit.v
RecoveryOps.v
RecoveryAuth.v
RecoveryGuard.v
RecoveryFacts.v
RecoveryRules.v
Canary.v
CanaryRetain.v
CanaryFacts.v
CanaryGate.v
Eval.v
EvalFacts.v
CanaryRules.v
EvalCollect.v
CanaryText.v
CanaryLedger.v
CanaryCards.v
CanaryQuestions.v
CanarySpend.v
CanaryQuestionFacts.v
CanaryCorpus.v
Compare.v
AdminFormat.v
AdminCore.v
TgAgent.v
TgBot.v
TgFacts.v
TgSafety.v
PgAgent.v
PgBot.v
PgSqlFacts.v
PgFacts.v
PgDemo.v
PgHaCommand.v
PgHaFacts.v
PgBackup.v
NodeBox.v
NodeScripts.v
NodeRecreate.v
NodeSandboxd.v
NodeFacts.v
NodeRules.v
NodeJournal.v
NodeDemo.v
CanaryProxy.v
FuguFallback.v
FuguDashboard.v
