(* ===== verification/Prelude.v ===== *)
(** * AttestMesh control plane: a verification library

    AttestMesh runs services in confidential virtual machines.  Its control plane is a
    set of Python programs under src/deploy and src/services.  This library models the
    ones that hold decisions and state, and proves what they promise.

    ** The programs

    - The budget proxy (deploy/hindsight-budget-proxy) stands between a memory service
      and two model providers and must never let their cost exceed a limit.  It keeps
      a ledger and a circuit state in two files, and two operator tools repair them
      while it is stopped.
    - The Fugu router (deploy/fugu-router) spreads chat sessions over subscriptions.
      [fugu_session_router.py] chooses an account, fails over, cools accounts down and
      answers a content-policy block with a fallback model; [fugu_credit.py] records
      every call in a ledger, from which the router computes how much of a window an
      account has used.
    - The cluster orchestrator (deploy/cluster-orchestrator.py) turns HTTP requests into
      deployment jobs, runs a shell script for each and keeps a file per job.
    - The pre-commit guard (deploy/precommit_security.py) reads Git's index, looks for
      credentials and backups, and asks a panel of reviewers.
    - The recovery tool (deploy/hindsight-recovery/recovery.py) repairs the queue of the
      memory service: audits, a canary document, requeues, a guard that watches the
      provider's spend, and the release that closes the circuit of the outbox.
    - The canary (deploy/hindsight-canary) retains a small corpus in the memory service
      under a hard budget, has cards and questions written by models it pays through a
      ledger and a proxy of its own, evaluates what is found, and passes a gate or not.
      deploy/hindsight-frontier-canary/compare.py chooses a model among candidates.
    - The admin agents of Telegram and of Postgres (deploy/telegram-admin-agent,
      deploy/postgres-admin-agent) take commands from a Matrix room, some of which need
      a confirmation, and let a model answer the rest.
    - The PG-HA command service (services/pg-ha-command-mcp) drafts, validates and sends
      commands to the members of a database cluster, and acts on them at a member.
    - The backup worker (deploy/pg-ha/pgha-logical-backups.py) of a member of that cluster
      dumps the database into an object store and deletes there what has become old.
    - The node boxes (deploy/*-node-box.py), twenty-one scripts, deploy and update the
      machines: what a machine runs is measured, its secrets are sealed, and the monitor
      of the host is asked to create, stop, upgrade, start or resize it.

    They meet in data: the proxy's ledger and circuit are what the recovery tool's guard
    reads, the canary's gate reads the metrics that the evaluation writes, the ledger of
    the router holds what the fallback recorded.  Where two programs share a format, one
    theorem is about both.

    ** The library

    - [Prelude]: results and exceptions, ordered dictionaries, automation.
    - [PyStr], [StrFacts]: Python strings; [PyTime]: instants and the calendar;
      [PyFloat]: the interface of floats, with binary64 and exact rationals as
      instances; [Decimal]: the [decimal] module; [Json], [JsonParse]: JSON values, their
      printing and reading; [Sha256]; [Regex]: Python's [re], with a proof that the
      matcher finds a match exactly when the pattern describes one.
    - [Effects]: programs as trees of actions, the weakest precondition [wp] over every
      action a run performs and every answer it may get, and tasks that run side by side
      on a shared memory, with reachability and the invariants of all interleavings.
    - Budget proxy: [BudgetConfig] (settings and payload guards), [BudgetState] (class
      [BudgetState], one definition per method), [BudgetServer] (class [ProxyHandler]
      and the life of the process as a step relation), [BudgetTools] (the operator
      tools), [BudgetSafety] (invariants), [BudgetTheorems] and [BudgetRules].
    - Fugu: [FuguCredit] and [FuguLedger] (fugu_credit.py), [FuguPolicy] (the functions
      of the router that keep no state), [FuguRouter] (the router on its database, a
      record of tables by primary key), [FuguFallback] (the answer after a block),
      [FuguDashboard] (the summary page, its names and filters, and retries), [FuguRouting],
      [FuguNames] and [FuguFacts] (theorems), [FuguDemo] (seeding, and a concrete
      installation).
    - Orchestrator: [OrchEnv] (names, environments, compose files, commands), [OrchJobs]
      (jobs, handlers, threads and restarts as a step relation), [OrchEnvFacts] and
      [OrchFacts] (theorems and a concrete deployment).
    - Pre-commit guard: [Precommit] and [PrecommitFacts].
    - Recovery: [Recovery] (settings, decisions), [RecoveryAudit], [RecoveryOps],
      [RecoveryAuth], [RecoveryGuard] (the commands, the guard and the watchdog), and
      [RecoveryFacts], [RecoveryRules] (theorems and a concrete installation).
    - Canary: [Canary], [CanaryRetain] (the retain run and its state file), [CanaryGate],
      [CanaryText], [CanaryLedger], [CanaryCards], [CanaryQuestions] (prompts, the paid
      client, the generators), [CanaryProxy] (budget_proxy.py of the canary),
      [CanaryCorpus] (the choice of the corpus, the commands); theorems in [CanaryFacts],
      [CanaryRules], [CanarySpend], [CanaryQuestionFacts].
      Evaluation: [Eval], [EvalCollect], [EvalFacts]; comparison: [Compare].
    - Admin agents: [AdminFormat] (Markdown to HTML), [AdminCore] (the settings and tools
      they share); [TgAgent], [TgBot], [TgFacts], [TgSafety]; [PgAgent], [PgBot],
      [PgSqlFacts], [PgFacts], [PgDemo] (concrete runs).
    - PG-HA commands: [PgHaCommand] and [PgHaFacts].
    - Logical backups of the database: [PgBackup].
    - Node boxes: [NodeBox] (what the scripts share), [NodeScripts] (settings, sealed
      names and [main] of each), [NodeRecreate] (a replacement and its journal),
      [NodeSandboxd] (the sandbox daemon), [NodeFacts], [NodeRules], [NodeJournal]
      (theorems), [NodeDemo] (concrete runs).

    A definition has the name of the function it models, where Rocq allows it.  A
    function that raises returns a [result]; a method that changes an object takes the
    old state and returns the new one; a program that calls the outside is a tree of
    actions.  Where the order of writes matters, as for the files of the budget proxy, a
    method returns the list of its writes, so that a crash can fall between two of them.
    Where threads interleave, a handler is cut at the points where other threads run: at
    its critical sections in the budget proxy, at its saves in the orchestrator, whose
    threads write back whole copies of a job, at every awaited or outside call elsewhere.

    ** What is proved

    - Budget proxy: over all interleavings, crashes, restarts and repairs, no reservation
      that was sent is forgotten, spend is the sum of the recorded calls, the ledger only
      grows, and an open circuit stays open until an operator tool closes it; and what
      each operation does on every branch.  The recorded and reserved cost stays within
      the ceiling in the same runs as long as the provider charges no more than was
      reserved and no process stops between the ledger write and the state write of one
      operation: after that a call is charged twice.  The theorems on sums of money are about exact arithmetic
      (the class [ExactFloat]), the others about every float arithmetic.
    - Fugu: routing offers exactly the eligible accounts in order of use, a session
      keeps its account, a proxied request tries all accounts that may serve, ends, and
      cools down exactly those at their limit, also when a request raises; the row of a
      call sums up the reports of it in a fixed way, holds no credential under a
      sensitive name, and is written once; a blocked caller gets the answer of the
      fallback model, the status of the block, or 500 when the fallback raises.  The
      summary page counts every call once and shows the scores that routing uses, for
      accounts whose calls are all of their subscription; seeding never disables one.
    - Orchestrator: no job is left without a final status, jobs keep their identity, the
      shell reads the intended commands, the environment survives its encoding.
    - Pre-commit guard: what passes was reviewed, unless nothing is staged or no line is
      added; everything a pattern describes in a path or in a line that is read is
      refused; and the reader of a patch is exact on patches without separators inside a
      line, and only on these.
    - Recovery: changes are made under the lock, the circuit is closed only after ten
      clean snapshots of which the first and the last are followed by a clean audit, only
      the release closes it, a healthy heartbeat is a true one.
    - Canary: a document is posted at most once and after the state file says so; what is
      paid fits the budget by the ledger file, at the prices of the 20b models, by which
      the larger model is priced too, and without the schema, the tools and the further
      answers of a request; the questions that are written cite the corpus, a printed
      object is read back, the gate agrees with the evaluation,
      and the corpus is chosen evenly among its strata.
    - Admin agents: a logout, a switchover and a changing statement were confirmed by
      an administrator with the token of this very proposal; secrets without brackets are
      not said; the model hears no command; messages are well-formed HTML; what passes for
      a query is exactly what the test of words lets through, and some of that writes.
    - PG-HA commands: a member acts on a command of the owner, in its window, once.
    - Node boxes: everything a script measures, registers and prints is of one text, that
      of the first reading of its run; an
      update touches one machine; a size never shrinks; the machine that is replaced is
      gone before another is created, over all interrupted and repeated runs.
    - Backups: only what is older than its tier allows is deleted, and only after a dump
      of the same hour was written without an error and stored.
    - Several theorems state behaviour that is likely not meant; the manifest lists them
      as findings.  Among them: a limit of NaN disables the ceiling, a crash between two
      writes charges a call twice, a 400 that says "generate" cools down every account,
      machine names collide, a deleted job comes back, a failed cleanup looks like a good
      one, a form feed hides staged lines, a login typed in capitals ends in an error, two
      confirmations at once execute a statement twice, a command without identifier is
      acted on at each delivery, an interrupted replacement creates two machines, a worker
      that starts at three o'clock never makes a daily dump.

    ** Bounds and fuel

    Recursion is structural wherever the code loops over data.  Fuel is the length of
    the text in [Regex], [PyStr.replace], the JSON, patch and stream readers, where every
    turn takes a character; the number of fields in [Precommit.changed_index_paths]; the
    number of turns given to loops that wait, such as [BudgetState.reserve_loop], for
    which a theorem says that it returns, and the number of turns of services that never
    end, where the theorems hold for every number.  Loops of the code that try a fixed
    number of times have that number.  Integers are unbounded in Python; the widths of
    the columns of the ledger are checked by [FuguLedger.insert_row].

    ** What is assumed

    Text is ASCII where case, white space or lengths in characters matter.  Calls of
    databases, HTTP services, processes, clocks and files are actions, whose answers are
    arbitrary unless a theorem says what it needs; a task may be cancelled where it
    awaits, and what lies between two such points is one step.  The database of the
    router runs one statement sequence at a time for a request, compares text bytewise,
    and its month is thirty days long, as its driver returns it; windows are whole
    seconds.  The exponents of decimals are not bounded.  Temporary files are replaced
    atomically.  The readers of the validation library, the completion of headers by the
    web framework and full-text matching are parameters.  Texts of exceptions that the
    standard library makes are shortened.  What the theorems about replaced machines
    need of the monitor is the relation [NodeJournal.tell].

    ** What is not modelled

    Sockets and HTTP framing, and SQL text except where a definition says what a
    statement selects; the HTML of the page of the router; the search service of the
    Telegram archive, whose tools are SQL statements; the
    shell programs that three node boxes embed in what they measure, which are
    parameters; the probes and the scripts that register accounts, which only print what
    services answer; the provider plugin and the telemetry callback of Fugu, which hand
    values to libraries; the tests; and the programs in Rust, TypeScript, Solidity and
    shell. *)

From stdpp Require Import base option list strings gmap.
From Stdlib Require Import ZArith Lia.

(** ** Python exceptions and fallible computations *)

Inductive exn :=
  | GuardViolation (msg : string)
  | BudgetViolation (msg : string)
  | ValueError (msg : string)
  | TypeError (msg : string)
  | KeyError (msg : string)
  | OverflowError (msg : string)
  | RuntimeError (msg : string)
  | SystemExit (msg : string)
  | OtherError (cls msg : string).

#[export] Instance exn_eq_dec : EqDecision exn.
Proof. solve_decision. Defined.

(** [str(exc)] *)
Definition exn_msg (e : exn) : string :=
  match e with
  | GuardViolation m | BudgetViolation m | ValueError m | TypeError m | KeyError m
  | OverflowError m | RuntimeError m | SystemExit m | OtherError _ m => m
  end.

(** [type(exc).__name__] *)
Definition exn_name (e : exn) : string :=
  match e with
  | GuardViolation _ => "GuardViolation"
  | BudgetViolation _ => "BudgetViolation"
  | ValueError _ => "ValueError"
  | TypeError _ => "TypeError"
  | KeyError _ => "KeyError"
  | OverflowError _ => "OverflowError"
  | RuntimeError _ => "RuntimeError"
  | SystemExit _ => "SystemExit"
  | OtherError c _ => c
  end.

Inductive result (A : Type) :=
  | Ok (a : A)
  | Raise (e : exn).
Arguments Ok {A} a.
Arguments Raise {A} e.

#[export] Instance result_ret : MRet result := fun A a => Ok a.
#[export] Instance result_bind : MBind result := fun A B f m =>
  match m with Ok a => f a | Raise e => Raise e end.
#[export] Instance result_fmap : FMap result := fun A B f m =>
  match m with Ok a => Ok (f a) | Raise e => Raise e end.
#[export] Instance result_eq_dec {A} `{EqDecision A} : EqDecision (result A).
Proof. solve_decision. Defined.

Definition is_ok {A} (m : result A) : bool :=
  match m with Ok _ => true | Raise _ => false end.

(** The value of a computation known to succeed. *)
Definition get_ok {A} (m : result A) : is_ok m = true -> A :=
  match m with
  | Ok a => fun _ => a
  | Raise e => fun H => match Bool.diff_false_true H with end
  end.
Lemma get_ok_eq {A} (m : result A) H : m = Ok (get_ok m H).
Proof. destruct m; [done|]. discriminate H. Qed.

(** [if b: raise e], and the [try: m except ...: h] of the sources. *)
Definition raise_if (b : bool) (e : exn) : result unit :=
  if b then Raise e else Ok tt.
Definition try_except {A} (m : result A) (h : exn -> result A) : result A :=
  match m with Ok a => Ok a | Raise e => h e end.

Declare Scope py_scope.
Delimit Scope py_scope with py.
Notation "'raise!' e 'when' b ; k" := (mbind (fun _ : unit => k) (raise_if b e))
  (at level 100, b at level 99, k at level 200, right associativity) : py_scope.

Lemma bind_Ok {A B} (f : A -> result B) m b :
  (x ← m; f x) = Ok b <-> exists a, m = Ok a /\ f a = Ok b.
Proof. destruct m; simpl; split; naive_solver. Qed.

Lemma bind_Raise {A B} (f : A -> result B) m e :
  (x ← m; f x) = Raise e <-> m = Raise e \/ exists a, m = Ok a /\ f a = Raise e.
Proof. destruct m; simpl; split; naive_solver. Qed.

Lemma raise_if_Ok b e u : raise_if b e = Ok u <-> b = false.
Proof. destruct b, u; simpl; naive_solver. Qed.

(** ** Ordered dictionaries

    A Python [dict] keeps insertion order: an assignment to a present key keeps
    its position, a new key goes to the end. *)

Abbreviation odict V := (list (string * V)).

Section odict.
Context {V : Type}.
Implicit Types d : odict V.

Fixpoint dget (k : string) d : option V :=
  match d with
  | [] => None
  | (k', v) :: d => if bool_decide (k = k') then Some v else dget k d
  end.

Fixpoint dset (k : string) (v : V) d : odict V :=
  match d with
  | [] => [(k, v)]
  | (k', v') :: d => if bool_decide (k = k') then (k', v) :: d else (k', v') :: dset k v d
  end.

(** [d.pop(k, None)] *)
Fixpoint dpop (k : string) d : odict V :=
  match d with
  | [] => []
  | (k', v') :: d => if bool_decide (k = k') then d else (k', v') :: dpop k d
  end.

Definition dkeys d : list string := d.*1.
Definition dvalues d : list V := d.*2.
Definition dmem (k : string) d : bool := if dget k d is Some _ then true else false.

(** [d.update(d2)] *)
Definition dupdate d (d2 : odict V) : odict V :=
  foldl (fun acc kv => dset kv.1 kv.2 acc) d d2.

(** [sorted(d.items())], keys being distinct *)
Fixpoint dinsert (k : string) (v : V) d : odict V :=
  match d with
  | [] => [(k, v)]
  | (k', v') :: d' => if String.leb k k' then (k, v) :: d else (k', v') :: dinsert k v d'
  end.
Definition dsort d : odict V := foldr (fun kv => dinsert kv.1 kv.2) [] d.

Lemma dget_dset k k' v d :
  dget k' (dset k v d) = if bool_decide (k' = k) then Some v else dget k' d.
Proof.
  induction d as [|[a x] d IH]; simpl; [done|].
  repeat case_bool_decide; simplify_eq/=; repeat case_bool_decide; naive_solver.
Qed.
Lemma dget_dset_eq k v d : dget k (dset k v d) = Some v.
Proof. rewrite dget_dset. by case_bool_decide. Qed.
Lemma dget_dset_ne k k' v d : k' <> k -> dget k' (dset k v d) = dget k' d.
Proof. intros. rewrite dget_dset. by case_bool_decide. Qed.

Lemma dset_fresh k v d : dget k d = None -> dset k v d = d ++ [(k, v)].
Proof.
  induction d as [|[a x] d IH]; simpl; [done|].
  case_bool_decide; [done|]. intros. by rewrite IH.
Qed.

Lemma dget_None k d : dget k d = None <-> k ∉ dkeys d.
Proof.
  unfold dkeys. induction d as [|[a x] d IH]; simpl.
  - split; [intros _; apply not_elem_of_nil | done].
  - rewrite not_elem_of_cons. case_bool_decide; naive_solver.
Qed.
Lemma dget_Some_elem k v d : dget k d = Some v -> (k, v) ∈ d.
Proof.
  induction d as [|[a x] d IH]; simpl; [done|].
  case_bool_decide; [intros [= ->]; subst; left | right; auto].
Qed.
Lemma dget_elem k v d : NoDup (dkeys d) -> (k, v) ∈ d -> dget k d = Some v.
Proof.
  unfold dkeys. induction d as [|[a x] d IH]; simpl; intros Hnd Hin.
  - by apply elem_of_nil in Hin.
  - apply NoDup_cons in Hnd as [Ha Hnd].
    apply elem_of_cons in Hin as [[= -> ->]|Hin]; [by case_bool_decide|].
    case_bool_decide; [|auto]. subst. exfalso. apply Ha.
    apply list_elem_of_fmap. by exists (a, v).
Qed.

Lemma dkeys_dpop_subset k k' d : k' ∈ dkeys (dpop k d) -> k' ∈ dkeys d.
Proof.
  unfold dkeys. induction d as [|[a x] d IH]; simpl; [done|].
  case_bool_decide; rewrite ?elem_of_cons; simpl; rewrite ?elem_of_cons; naive_solver.
Qed.
Lemma dpop_NoDup k d : NoDup (dkeys d) -> NoDup (dkeys (dpop k d)).
Proof.
  unfold dkeys. induction d as [|[a x] d IH]; simpl; [done|].
  intros [Ha Hd]%NoDup_cons. case_bool_decide; [done|]. simpl.
  apply NoDup_cons; split; [|auto]. by intros ?%(dkeys_dpop_subset k).
Qed.
Lemma dget_dpop k k' d : NoDup (dkeys d) ->
  dget k' (dpop k d) = if bool_decide (k' = k) then None else dget k' d.
Proof.
  unfold dkeys. induction d as [|[a x] d IH]; simpl; [by case_bool_decide|].
  intros [Ha Hd]%NoDup_cons. destruct (decide (k = a)) as [->|Hka].
  - rewrite bool_decide_eq_true_2 by done.
    case_bool_decide; [subst; by apply dget_None | done].
  - rewrite (bool_decide_eq_false_2 (k = a)) by done. simpl. rewrite IH by done.
    repeat case_bool_decide; congruence.
Qed.
Lemma dget_dpop_ne k k' d : k' <> k -> dget k' (dpop k d) = dget k' d.
Proof.
  intros Hk. induction d as [|[a x] d IH]; simpl; [done|]. destruct (decide (k = a)) as [->|Hka].
  - by rewrite bool_decide_eq_true_2, bool_decide_eq_false_2.
  - rewrite (bool_decide_eq_false_2 (k = a)) by done. simpl. by rewrite IH.
Qed.
Lemma dpop_absent k d : dget k d = None -> dpop k d = d.
Proof.
  induction d as [|[a x] d IH]; simpl; [done|].
  case_bool_decide; [done|]. intros. by rewrite IH.
Qed.
Lemma dset_NoDup k v d : NoDup (dkeys d) -> NoDup (dkeys (dset k v d)).
Proof.
  intros Hd. destruct (dget k d) eqn:E.
  - assert (dkeys (dset k v d) = dkeys d) as ->; [|done].
    unfold dkeys. clear Hd. induction d as [|[a x] d IH]; simpl in *; [done|].
    case_bool_decide; simpl; [done|]. f_equal. by apply IH.
  - rewrite dset_fresh by done. unfold dkeys in *. rewrite fmap_app. simpl.
    apply NoDup_app. split_and!; [done| |apply NoDup_singleton].
    intros x Hx ->%list_elem_of_singleton. by apply dget_None in E.
Qed.

Lemma dkeys_dset k k' v d : k' ∈ dkeys (dset k v d) <-> k' = k \/ k' ∈ dkeys d.
Proof.
  unfold dkeys. induction d as [|[a x] d IH]; simpl; [by rewrite list_elem_of_singleton, elem_of_nil; naive_solver|].
  case_bool_decide; simpl; rewrite !elem_of_cons; [naive_solver|]. rewrite IH. naive_solver.
Qed.
Lemma dkeys_dpop_ne k k' d : k' <> k -> k' ∈ dkeys d -> k' ∈ dkeys (dpop k d).
Proof.
  intros Hne. unfold dkeys. induction d as [|[a x] d IH]; simpl; [done|].
  rewrite elem_of_cons. case_bool_decide; [naive_solver|]. simpl. rewrite elem_of_cons. naive_solver.
Qed.


(** Popping a present key removes exactly one occurrence. *)
Lemma dpop_Permutation k v d : dget k d = Some v -> d ≡ₚ (k, v) :: dpop k d.
Proof.
  induction d as [|[a x] d IH]; simpl; [done|].
  case_bool_decide; [intros [= ->]; by subst|].
  intros Hp%IH. etrans; [apply Permutation_skip, Hp | apply Permutation_swap].
Qed.

Lemma dinsert_Permutation k v d : dinsert k v d ≡ₚ (k, v) :: d.
Proof.
  induction d as [|[a x] d IH]; simpl; [done|].
  destruct (String.leb k a); [done|]. rewrite IH. apply Permutation_swap.
Qed.
Lemma dsort_Permutation d : dsort d ≡ₚ d.
Proof.
  induction d as [|[a x] d IH]; simpl; [done|].
  rewrite dinsert_Permutation. simpl. by rewrite IH.
Qed.
Lemma dsort_NoDup d : NoDup (dkeys d) -> NoDup (dkeys (dsort d)).
Proof. unfold dkeys. intros. by rewrite dsort_Permutation. Qed.
Lemma dget_Permutation k d d' :
  NoDup (dkeys d) -> d ≡ₚ d' -> dget k d = dget k d'.
Proof.
  intros Hd Hp. assert (NoDup (dkeys d')) as Hd' by (unfold dkeys in *; by rewrite <- Hp).
  destruct (dget k d) as [v|] eqn:E.
  - symmetry. apply dget_elem; [done|]. rewrite <- Hp. by apply dget_Some_elem.
  - symmetry. apply dget_None. apply dget_None in E. unfold dkeys in *. by rewrite <- Hp.
Qed.
Lemma dkeys_dsort k d : k ∈ dkeys (dsort d) <-> k ∈ dkeys d.
Proof. unfold dkeys. by rewrite dsort_Permutation. Qed.
Lemma dget_dsort k d : NoDup (dkeys d) -> dget k (dsort d) = dget k d.
Proof. intros. symmetry. apply dget_Permutation; [done|]. by rewrite dsort_Permutation. Qed.
Lemma dset_Forall (P : string * V -> Prop) k v d :
  (forall k', P (k', v)) -> Forall P d -> Forall P (dset k v d).
Proof.
  intros Hv. induction 1 as [|[a y] q Hy Hq IH]; simpl; [by repeat constructor|].
  case_bool_decide; constructor; auto.
Qed.
Lemma dset_Forall_key (P : string * V -> Prop) k v d : P (k, v) -> Forall P d -> Forall P (dset k v d).
Proof.
  intros Hv. induction 1 as [|[a y] q Hy Hq IH]; simpl; [by repeat constructor|].
  case_bool_decide; subst; by constructor.
Qed.
Lemma dsort_nil d : dsort d = [] <-> d = [].
Proof.
  split; [|by intros ->]. intros Hs. pose proof (dsort_Permutation d) as Hp.
  rewrite Hs in Hp. by apply Permutation_nil_l in Hp.
Qed.
End odict.

(** [sorted(set(l))] of strings *)
Fixpoint sinsert (s : string) (l : list string) : list string :=
  match l with
  | [] => [s]
  | x :: l' => if String.leb s x then s :: l else x :: sinsert s l'
  end.
Definition ssort (l : list string) : list string := foldr sinsert [] l.
Definition sorted_set (l : list string) : list string := ssort (remove_dups l).

Lemma sinsert_Permutation s l : sinsert s l ≡ₚ s :: l.
Proof.
  induction l as [|x l IH]; simpl; [done|]. destruct (String.leb s x); [done|].
  rewrite IH. apply Permutation_swap.
Qed.
Lemma ssort_Permutation l : ssort l ≡ₚ l.
Proof. induction l as [|x l IH]; simpl; [done|]. by rewrite sinsert_Permutation, IH. Qed.
Lemma elem_of_sorted_set s l : s ∈ sorted_set l <-> s ∈ l.
Proof. unfold sorted_set. rewrite ssort_Permutation. apply elem_of_remove_dups. Qed.

(** ** Lists cut into parts *)

Section parts.
Context {A : Type}.
Implicit Types (l : list A) (f g : A -> bool).
Lemma filter_or_disjoint f g l :
  (forall x, f x = true -> g x = true -> False) ->
  List.filter f l ++ List.filter g l ≡ₚ List.filter (fun x => f x || g x) l.
Proof.
  intros Hd. induction l as [|x l IH]; [done|]. cbn [List.filter]. specialize (Hd x).
  destruct (f x), (g x); cbn [orb app]; [by destruct Hd|by rewrite IH| |exact IH].
  by rewrite <- Permutation_middle, IH.
Qed.
Lemma filter_all f l : (forall x, x ∈ l -> f x = true) -> List.filter f l = l.
Proof.
  intros Hf. induction l as [|x l IH]; [done|]. cbn [List.filter]. rewrite Hf by left. by rewrite IH by (intros; apply Hf; by right).
Qed.
(** What is cut by tests of which at most one holds is what passes some of them. *)
Lemma disjoint_filters {B} (P : B -> A -> bool) (bs : list B) l :
  NoDup bs -> (forall x b b', b ∈ bs -> b' ∈ bs -> P b x = true -> P b' x = true -> b = b') ->
  concat (map (fun b => List.filter (P b) l) bs) ≡ₚ List.filter (fun x => existsb (fun b => P b x) bs) l.
Proof.
  intros Hn Hd. induction Hn as [|b bs Hb Hn IH]; cbn [map concat existsb]; [by induction l|].
  rewrite IH by (intros x b1 b2 H1 H2; apply Hd; by right). apply filter_or_disjoint.
  intros x Hx (b' & Hb' & Hx')%existsb_exists. rewrite <- list_elem_of_In in Hb'. apply Hb.
  by rewrite (Hd x b b' ltac:(left) ltac:(by right) Hx Hx').
Qed.
(** A list cut by a key is whole. *)
Lemma partition_by_key {K} `{EqDecision K} (key : A -> K) (keys : list K) l :
  NoDup keys -> (forall x, x ∈ l -> key x ∈ keys) ->
  concat (map (fun k => List.filter (fun x => bool_decide (key x = k)) l) keys) ≡ₚ l.
Proof.
  intros Hn Hk. rewrite (disjoint_filters (fun k x => bool_decide (key x = k))) by (done || by intros x k k' _ _ <-%bool_decide_eq_true <-%bool_decide_eq_true).
  rewrite filter_all; [done|]. intros x Hx. apply existsb_exists. exists (key x).
  split; [by apply list_elem_of_In, Hk|by apply bool_decide_eq_true].
Qed.
End parts.

(** ** Automation *)

Create HintDb py discriminated.
Create Rewrite HintDb py_inv.
#[export] Hint Resolve dget_dset_eq dset_NoDup dpop_NoDup dsort_NoDup : py.
#[export] Hint Rewrite @bind_Ok @raise_if_Ok : py_inv.

(** Invert a successful monadic computation into its successful parts. *)
Ltac inv_ok :=
  repeat match goal with
  | H : Ok _ = Ok _ |- _ => injection H as H; subst
  | H : Raise _ = Ok _ |- _ => discriminate H
  | H : Ok _ = Raise _ |- _ => discriminate H
  | H : mret _ = Ok _ |- _ => injection H as H; subst
  | H : mbind _ _ = Ok _ |- _ => apply bind_Ok in H; destruct H as (? & ? & ?)
  | H : raise_if _ _ = Ok _ |- _ => apply raise_if_Ok in H
  | u : unit |- _ => destruct u
  end.

(** Split on the scrutinee of a match in the goal or in a hypothesis. *)
Ltac dmatch_in H :=
  match type of H with context [match ?x with _ => _ end] => destruct x eqn:? end.
Ltac dmatch :=
  match goal with |- context [match ?x with _ => _ end] => destruct x eqn:? end.
