(* ===== verification/PyStr.v ===== *)
(** * Python strings

    The operations of [str] the sources use, on Rocq's [string].  A value stands
    for the UTF-8 encoding of the Python string; case mapping and white space are
    those of the ASCII range, so statements about [lower], [strip] and the like
    speak of ASCII text. *)

From stdpp Require Import base option list strings pretty.
From Stdlib Require Import ZArith Lia Ascii.
From S2P Require Import Prelude.

Definition code (c : ascii) : N := N_of_ascii c.

(** [str.isspace] on ASCII: TAB..CR, FS..US and SPACE. *)
Definition is_space (c : ascii) : bool :=
  let n := code c in
  (((9 <=? n) && (n <=? 13)) || ((28 <=? n) && (n <=? 32)))%N.

Definition is_digit (c : ascii) : bool := ((48 <=? code c) && (code c <=? 57))%N.
Definition is_lower (c : ascii) : bool := ((97 <=? code c) && (code c <=? 122))%N.
Definition is_upper (c : ascii) : bool := ((65 <=? code c) && (code c <=? 90))%N.

Definition lower_char (c : ascii) : ascii :=
  if is_upper c then ascii_of_N (code c + 32) else c.

Fixpoint smap (f : ascii -> ascii) (s : string) : string :=
  match s with EmptyString => EmptyString | String c s => String (f c) (smap f s) end.
Fixpoint sall (p : ascii -> bool) (s : string) : bool :=
  match s with EmptyString => true | String c s => p c && sall p s end.
Fixpoint sany (p : ascii -> bool) (s : string) : bool :=
  match s with EmptyString => false | String c s => p c || sany p s end.

Definition lower : string -> string := smap lower_char.

Fixpoint dropwhile (p : ascii -> bool) (s : string) : string :=
  match s with
  | EmptyString => EmptyString
  | String c s' => if p c then dropwhile p s' else s
  end.
(** Drop the longest suffix whose characters satisfy [p]. *)
Fixpoint rdropwhile (p : ascii -> bool) (s : string) : string :=
  match s with
  | EmptyString => EmptyString
  | String c s' =>
      match rdropwhile p s' with
      | EmptyString => if p c then EmptyString else String c EmptyString
      | r => String c r
      end
  end.
Definition strip_by (p : ascii -> bool) (s : string) : string := rdropwhile p (dropwhile p s).
Definition strip : string -> string := strip_by is_space.
Definition eqc (a b : ascii) : bool := bool_decide (a = b).
(** [s.strip(c)], [s.rstrip(c)] for a one-character argument *)
Definition strip_char (c : ascii) : string -> string := strip_by (eqc c).
Definition rstrip_char (c : ascii) : string -> string := rdropwhile (eqc c).

Fixpoint startswith (p s : string) : bool :=
  match p, s with
  | EmptyString, _ => true
  | String a p, String b s => eqc a b && startswith p s
  | _, _ => false
  end.
Fixpoint sdrop (n : nat) (s : string) : string :=
  match n, s with
  | 0, _ => s
  | S n, String _ s => sdrop n s
  | _, EmptyString => EmptyString
  end.
(** [s[:n]] *)
Fixpoint stake (n : nat) (s : string) : string :=
  match n, s with
  | S n, String c s => String c (stake n s)
  | _, _ => EmptyString
  end.
Definition endswith (p s : string) : bool :=
  (String.length p <=? String.length s)%nat &&
  bool_decide (sdrop (String.length s - String.length p) s = p).
(** [sub in s] *)
Fixpoint contains (sub s : string) : bool :=
  startswith sub s || match s with EmptyString => false | String _ s => contains sub s end.
Definition removeprefix (p s : string) : string :=
  if startswith p s then sdrop (String.length p) s else s.

(** [s.split(sep, 1)] as [partition]: the text before and after the first [sep]. *)
Fixpoint partition (sep s : string) : option (string * string) :=
  if startswith sep s then Some (EmptyString, sdrop (String.length sep) s)
  else match s with
       | EmptyString => None
       | String c s => '(a, b) ← partition sep s; Some (String c a, b)
       end.

(** [s.split(c)] for a one-character separator *)
Fixpoint split_char (c : ascii) (s : string) : list string :=
  match s with
  | EmptyString => [EmptyString]
  | String a s =>
      if eqc a c then EmptyString :: split_char c s
      else match split_char c s with
           | [] => [String a EmptyString]
           | w :: ws => String a w :: ws
           end
  end.

Fixpoint join (sep : string) (l : list string) : string :=
  match l with
  | [] => EmptyString
  | [x] => x
  | x :: l => (x +:+ sep +:+ join sep l)%string
  end.

(** [s.replace(c, r)] for a one-character [c] *)
Fixpoint replace_char (c : ascii) (r : string) (s : string) : string :=
  match s with
  | EmptyString => EmptyString
  | String a s => if eqc a c then r +:+ replace_char c r s else String a (replace_char c r s)
  end.

(** [s.replace(old, new)], [old] non-empty; the fuel is the length of [s], and
    every step consumes at least one character. *)
Fixpoint replace_fuel (fuel : nat) (old new s : string) : string :=
  match fuel, s with
  | S fuel, String a s' =>
      if startswith old s then new +:+ replace_fuel fuel old new (sdrop (String.length old) s)
      else String a (replace_fuel fuel old new s')
  | _, _ => s
  end.
Definition replace (old new s : string) : string := replace_fuel (String.length s) old new s.

(** [s.splitlines()] on ASCII: LF, CR, CRLF, VT, FF and FS..RS end a line. *)
Definition is_linebreak (c : ascii) : bool :=
  let n := code c in (((10 <=? n) && (n <=? 13)) || ((28 <=? n) && (n <=? 30)))%N.
Definition CR : ascii := "013".
Definition LF : ascii := "010".
Fixpoint splitlines_go (cur : option string) (s : string) : list string :=
  match s with
  | EmptyString => option_list cur
  | String c s =>
      if is_linebreak c then
        default EmptyString cur ::
          match s with
          | String d s' => if eqc c CR && eqc d LF then splitlines_go None s' else splitlines_go None s
          | EmptyString => []
          end
      else splitlines_go (Some (default EmptyString cur +:+ String c EmptyString)) s
  end.
Definition splitlines (s : string) : list string := splitlines_go None s.

(** ** Numbers in text *)

Definition str_of_Z (z : Z) : string := pretty z.
Definition digit_val (c : ascii) : Z := Z.of_N (code c) - 48.

(** A run of digits, with single underscores allowed between two digits: the
    number it denotes and how many digits it has, then the rest of the text. *)
Fixpoint digits_go (acc : Z) (n : nat) (s : string) : Z * nat * string :=
  match s with
  | String c s' =>
      if is_digit c then digits_go (acc * 10 + digit_val c) (S n) s'
      else match s' with
           | String d s'' =>
               if eqc c "_" && (0 <? n)%nat && is_digit d
               then digits_go (acc * 10 + digit_val d) (S n) s''
               else (acc, n, s)
           | EmptyString => (acc, n, s)
           end
  | EmptyString => (acc, n, s)
  end.

Definition sign_of (s : string) : bool * string :=
  match s with
  | String "-" s => (true, s)
  | String "+" s => (false, s)
  | _ => (false, s)
  end.

(** [int(s)] in base ten; [None] is [ValueError]. *)
Definition parse_int (s : string) : option Z :=
  let '(neg, s) := sign_of (strip s) in
  match digits_go 0 0 s with
  | (z, S _, EmptyString) => Some (if neg then - z else z)%Z
  | _ => None
  end.

(** A literal of [float(s)] or [Decimal(s)]: [m * 10^e], an infinity or a NaN. *)
Inductive numlit :=
  | NumDec (neg : bool) (m e : Z)
  | NumInf (neg : bool)
  | NumNan.

Definition parse_exponent (s : string) : option (Z * string) :=
  match s with
  | String c s' =>
      if eqc c "e" || eqc c "E" then
        let '(neg, s'') := sign_of s' in
        match digits_go 0 0 s'' with
        | (z, S _, r) => Some ((if neg then - z else z)%Z, r)
        | _ => None
        end
      else Some (0%Z, s)
  | EmptyString => Some (0%Z, s)
  end.

Definition parse_number (s : string) : option numlit :=
  let '(neg, s) := sign_of (strip s) in
  if bool_decide (lower s = "inf") || bool_decide (lower s = "infinity") then Some (NumInf neg)
  else if bool_decide (lower s = "nan") then Some NumNan
  else
    let '(m, n, s) := digits_go 0 0 s in
    let '(m, k, s) :=
      match s with
      | String "." s =>
          match digits_go m 0 s with (m', k, s') => (m', k, s') end
      | _ => (m, 0, s)
      end in
    if (n + k =? 0)%nat then None
    else match parse_exponent s with
         | Some (e, EmptyString) => Some (NumDec neg m (e - Z.of_nat k))
         | _ => None
         end.

(** ** Lemmas *)

Lemma sdrop_app p s : sdrop (String.length p) (p +:+ s) = s.
Proof. induction p; simpl; [by destruct s | done]. Qed.

Lemma startswith_app p s : startswith p (p +:+ s) = true.
Proof. induction p as [|a p IH]; simpl; [done|]. unfold eqc. by rewrite bool_decide_eq_true_2. Qed.

Lemma startswith_spec p s : startswith p s = true <-> exists r, s = p +:+ r.
Proof.
  split; [|intros [r ->]; apply startswith_app].
  revert s. induction p as [|a p IH]; intros s; simpl; [by exists s|].
  destruct s as [|b s]; [done|]. unfold eqc.
  case_bool_decide; simpl; [|done]. intros [r ->]%IH. subst. by exists r.
Qed.

Lemma string_app_assoc (a b c : string) : (a +:+ b) +:+ c = a +:+ b +:+ c.
Proof. induction a as [|x a IH]; simpl; [done|]. change (String x ((a +:+ b) +:+ c) = String x (a +:+ b +:+ c)). by rewrite IH. Qed.
Lemma string_app_nil_r (a : string) : a +:+ EmptyString = a.
Proof. induction a as [|x a IH]; [done|]. change (String x (a +:+ EmptyString) = String x a). by rewrite IH. Qed.
Lemma string_length_app (a b : string) : String.length (a +:+ b) = String.length a + String.length b.
Proof. induction a as [|x a IH]; [done|]. change (S (String.length (a +:+ b)) = S (String.length a) + String.length b). by rewrite IH. Qed.

Lemma stake_length n s : String.length (stake n s) <= n.
Proof. revert s. induction n; intros [|c s]; simpl; try lia. specialize (IHn s). lia. Qed.

Lemma sall_app p a b : sall p (a +:+ b) = sall p a && sall p b.
Proof. induction a as [|x a IH]; [done|]. change (p x && sall p (a +:+ b) = p x && sall p a && sall p b). rewrite IH. by rewrite andb_assoc. Qed.
Lemma sall_stake p n s : sall p s = true -> sall p (stake n s) = true.
Proof. revert s. induction n; intros [|c s]; simpl; try done. intros [-> ?]%andb_prop. by apply IHn. Qed.
