(* ===== verification/PyFloat.v ===== *)
(** * Python floats

    The sources keep money in Python [float]s.  Their definitions are written
    against the interface [PyFloat]; there are two implementations:

    - [binary64]: IEEE 754 double precision, round to nearest even, computed by
      the standard library's [SpecFloat] - what CPython executes;
    - [exact]: canonical rationals, the arithmetic the limits are meant in.

    A statement about every [PyFloat] holds of the running code.  A statement
    that needs the laws of [ExactFloat] (associativity, monotonicity) is about
    the arithmetic without rounding, and says so in its hypotheses. *)

From stdpp Require Import base option list strings pretty numbers.
From Stdlib Require Import ZArith Lia Ascii SpecFloat QArith Qcanon.
From S2P Require Import Prelude PyStr.

Local Open Scope Z_scope.

Class PyFloat (F : Type) := {
  f_of_Z : Z -> F;              (* a small int as a float *)
  f_int : Z -> result F;        (* int to float, as float(n) and n * x convert *)
  f_add : F -> F -> F;
  f_sub : F -> F -> F;
  f_mul : F -> F -> F;
  f_div : F -> F -> F;
  f_sum : list F -> F;          (* the builtin sum() of floats *)
  f_ltb : F -> F -> bool;
  f_leb : F -> F -> bool;
  f_eqb : F -> F -> bool;
  f_trunc : F -> result Z;      (* int(x) *)
  f_of_lit : numlit -> F;       (* float("...") *)
  f_repr : F -> string;         (* repr(x) *)
  f_fixed : Z -> F -> string;   (* f"{x:.kf}" *)
}.

(** The builtin [max(a, b)]: [b] only when it is greater. *)
Definition f_max {F} `{PyFloat F} (a b : F) : F := if f_ltb a b then b else a.
(** [bool(x)] *)
Definition f_truthy {F} `{PyFloat F} (a : F) : bool := negb (f_eqb a (f_of_Z 0)).
(** [-x], [abs(x)] *)
Definition f_opp {F} `{PyFloat F} (a : F) : F := f_sub (f_of_Z 0) a.
Definition f_abs {F} `{PyFloat F} (a : F) : F := if f_ltb a (f_of_Z 0) then f_opp a else a.
(** A literal of the source, [m * 10^e]. *)
Definition f_lit {F} `{PyFloat F} (m e : Z) : F := f_of_lit (NumDec false m e).

(** ** IEEE 754 binary64 *)
Module B64.
Definition prec : Z := 53.
Definition emax : Z := 1024.

Definition of_Z (z : Z) : spec_float := binary_normalize prec emax z 0 false.
(** [float(n)] raises when [n] is beyond the largest double. *)
Definition int (z : Z) : result spec_float :=
  match of_Z z with
  | S754_infinity _ => Raise (OverflowError "int too large to convert to float")
  | x => Ok x
  end.
(** The correctly rounded quotient of two positive integers. *)
Definition of_ratio (neg : bool) (n d : Z) : spec_float :=
  if n =? 0 then S754_zero neg
  else let '(m, e, l) := SFdiv_core_binary prec emax n 0 d 0 in
       binary_round_aux prec emax neg m e l.
Definition of_lit (l : numlit) : spec_float :=
  match l with
  | NumNan => S754_nan
  | NumInf neg => S754_infinity neg
  | NumDec neg m e =>
      if 0 <=? e then of_ratio neg (m * 10 ^ e) 1 else of_ratio neg m (10 ^ (- e))
  end.

Definition trunc (x : spec_float) : result Z :=
  match x with
  | S754_zero _ => Ok 0
  | S754_infinity _ => Raise (OverflowError "cannot convert float infinity to integer")
  | S754_nan => Raise (ValueError "cannot convert float NaN to integer")
  | S754_finite s m e =>
      let z := if 0 <=? e then Z.pos m * 2 ^ e else Z.pos m / 2 ^ (- e) in
      Ok (if s then - z else z)
  end.

(** Shortest decimal that reads back as the same number, as [repr] prints it. *)
Definition ge_pow10 (n d k : Z) : bool :=
  if 0 <=? k then 10 ^ k * d <=? n else d <=? n * 10 ^ (- k).
Fixpoint exp10 (fuel : nat) (n d k : Z) : Z :=
  match fuel with
  | O => k
  | S fuel => if ge_pow10 n d (k + 1) then exp10 fuel n d (k + 1) else k
  end.
Definition round_div (n d : Z) : Z :=
  let q := n / d in let r := n mod d in
  if 2 * r <? d then q else if d <? 2 * r then q + 1 else if Z.even q then q else q + 1.
Fixpoint shortest (fuel : nat) (k : Z) (n d c : Z) (x : spec_float) : Z * Z :=
  let e := k - c + 1 in
  let m := if 0 <=? e then round_div n (d * 10 ^ e) else round_div (n * 10 ^ (- e)) d in
  match fuel with
  | O => (m, e)
  | S fuel =>
      if SFeqb (of_lit (NumDec false m e)) x then (m, e) else shortest fuel k n d (c + 1) x
  end.
Fixpoint strip_zeros (fuel : nat) (m e : Z) : Z * Z :=
  match fuel with
  | O => (m, e)
  | S fuel => if (m mod 10 =? 0) && negb (m =? 0) then strip_zeros fuel (m / 10) (e + 1) else (m, e)
  end.
Definition zeros (n : Z) : string := String.concat "" (replicate (Z.to_nat n) "0"%string).
Definition pad2 (z : Z) : string := if z <? 10 then ("0" +:+ str_of_Z z)%string else str_of_Z z.
Definition format_digits (m e : Z) : string :=
  let ds := str_of_Z m in
  let len := Z.of_nat (String.length ds) in
  let k := e + len - 1 in
  (if ((-4 <=? k) && (k <? 16))%Z then
    if (0 <=? e)%Z then ds +:+ zeros e +:+ ".0"
    else if (0 <=? k)%Z then stake (Z.to_nat (k + 1)%Z) ds +:+ "." +:+ sdrop (Z.to_nat (k + 1)%Z) ds
    else "0." +:+ zeros (- k - 1)%Z +:+ ds
  else
    stake 1 ds +:+ (if (1 <? len)%Z then "." +:+ sdrop 1 ds else "") +:+
    "e" +:+ (if (k <? 0)%Z then "-" else "+") +:+ pad2 (Z.abs k))%string.
Definition repr (x : spec_float) : string :=
  match x with
  | S754_zero s => if s then "-0.0"%string else "0.0"%string
  | S754_infinity s => if s then "-inf"%string else "inf"%string
  | S754_nan => "nan"%string
  | S754_finite s m e =>
      let n := if 0 <=? e then Z.pos m * 2 ^ e else Z.pos m in
      let d := if 0 <=? e then 1 else 2 ^ (- e) in
      let k0 := (Z.log2 n - Z.log2 d - 1) * 30103 / 100000 - 1 in
      let k := exp10 8 n d k0 in
      let '(m', e') := shortest 16 k n d 1 (S754_finite false m e) in
      let '(m', e') := strip_zeros 20 m' e' in
      ((if s then "-" else "") +:+ format_digits m' e')%string
  end.

(** [k] digits after the point, of a quotient of two integers, rounded half to even *)
Definition fixed_ratio (k : Z) (neg : bool) (n d : Z) : string :=
  let q := round_div (n * 10 ^ k) d in
  let digits := str_of_Z (q mod 10 ^ k) in
  ((if neg then "-" else "") +:+ str_of_Z (q / 10 ^ k) +:+
   (if (k =? 0)%Z then "" else "." +:+ zeros (k - Z.of_nat (String.length digits)) +:+ digits))%string.
Definition fixed (k : Z) (x : spec_float) : string :=
  match x with
  | S754_zero s => fixed_ratio k s 0 1
  | S754_infinity s => if s then "-inf"%string else "inf"%string
  | S754_nan => "nan"%string
  | S754_finite s m e => fixed_ratio k s (if 0 <=? e then Z.pos m * 2 ^ e else Z.pos m) (if 0 <=? e then 1 else 2 ^ (- e))
  end.
Example fixed_half_even : map (fixed 1) [of_lit (NumDec false 25 (-2)); of_lit (NumDec true 9996 (-2))] = ["0.2"; "-100.0"]%string.
Proof. vm_compute. reflexivity. Qed.

Definition add := SFadd prec emax.

#[global] Instance binary64 : PyFloat spec_float := {|
  f_of_Z := of_Z;
  f_int := int;
  f_add := add;
  f_sub := SFsub prec emax;
  f_mul := SFmul prec emax;
  f_div := SFdiv prec emax;
  f_sum := foldl add (S754_zero false);
  f_ltb := SFltb;
  f_leb := SFleb;
  f_eqb := SFeqb;
  f_trunc := trunc;
  f_of_lit := of_lit;
  f_repr := repr;
  f_fixed := fixed
|}.
End B64.

(** ** Exact arithmetic *)
Module Exact.
Definition of_lit (l : numlit) : Qc :=
  match l with
  | NumDec neg m e =>
      let m := if neg then - m else m in
      Q2Qc (if 0 <=? e then inject_Z (m * 10 ^ e) else Qmake m (Z.to_pos (10 ^ (- e))))
  | _ => 0%Qc
  end.
Definition leb (a b : Qc) : bool := bool_decide (a <= b)%Qc.
Definition trunc (a : Qc) : Z := Z.quot (Qnum a) (Z.pos (Qden a)).
Fixpoint repr_go (fuel : nat) (e : Z) (a : Qc) : string :=
  if Pos.eqb (Qden a) 1 then B64.format_digits (Z.abs (Qnum a)) e
  else match fuel with
       | O => (str_of_Z (Qnum a) +:+ "/" +:+ str_of_Z (Z.pos (Qden a)))%string
       | S fuel => repr_go fuel (e - 1) (a * Q2Qc (inject_Z 10))%Qc
       end.
Definition repr (a : Qc) : string :=
  ((if (Qnum a <? 0)%Z then "-" else "") +:+ repr_go 40 0 (if (Qnum a <? 0)%Z then (- a)%Qc else a))%string.

#[global] Instance exact : PyFloat Qc := {|
  f_of_Z := fun z => Q2Qc (inject_Z z);
  f_int := fun z => Ok (Q2Qc (inject_Z z));
  f_add := Qcplus;
  f_sub := Qcminus;
  f_mul := Qcmult;
  f_div := Qcdiv;
  f_sum := fun l => foldr Qcplus 0%Qc l;
  f_ltb := fun a b => negb (leb b a);
  f_leb := leb;
  f_eqb := fun a b => bool_decide (a = b);
  f_trunc := fun a => Ok (trunc a);
  f_of_lit := of_lit;
  f_repr := repr;
  f_fixed := fun k a => B64.fixed_ratio k (Qnum a <? 0)%Z (Z.abs (Qnum a)) (Z.pos (Qden a))
|}.
End Exact.

(** ** The laws of arithmetic without rounding *)

Class ExactFloat (F : Type) `{PyFloat F} := {
  fadd_assoc : forall a b c : F, f_add (f_add a b) c = f_add a (f_add b c);
  fadd_comm : forall a b : F, f_add a b = f_add b a;
  fadd_0_l : forall a : F, f_add (f_of_Z 0) a = a;
  fsum_nil : f_sum [] = f_of_Z 0;
  fsum_cons : forall (a : F) l, f_sum (a :: l) = f_add a (f_sum l);
  fleb_refl : forall a : F, f_leb a a = true;
  fleb_trans : forall a b c : F, f_leb a b = true -> f_leb b c = true -> f_leb a c = true;
  fltb_negb : forall a b : F, f_ltb a b = negb (f_leb b a);
  fleb_total : forall a b : F, f_leb a b = true \/ f_leb b a = true;
  fadd_leb : forall a b c : F, f_leb (f_add a c) (f_add b c) = f_leb a b;
  fint_Ok : forall z : Z, f_int z = Ok (f_of_Z z);
  ftrunc_Ok : forall a : F, exists z, f_trunc a = Ok z;
  fof_Z_leb : forall z z' : Z, f_leb (f_of_Z z) (f_of_Z z') = (z <=? z')%Z;
  fmul_leb : forall a b c : F,
    f_leb (f_of_Z 0) c = true -> f_leb a b = true -> f_leb (f_mul a c) (f_mul b c) = true;
  fdiv_leb : forall (a b : F) (n : Z),
    (0 < n)%Z -> f_leb a b = true -> f_leb (f_div a (f_of_Z n)) (f_div b (f_of_Z n)) = true;
  fsub_add : forall a b : F, f_add (f_sub a b) b = a;
  feqb_true : forall a b : F, f_eqb a b = true -> a = b;
  fmul_0_l : forall a : F, f_mul (f_of_Z 0) a = f_of_Z 0;
  fdiv_0_l : forall a : F, f_div (f_of_Z 0) a = f_of_Z 0;
  flit_pos : forall m e : Z, (0 < m)%Z -> f_leb (f_lit m e) (f_of_Z 0) = false;
  fquot_sub_leb : forall a b k n : Z, (0 < n)%Z ->
    f_leb (f_of_Z k) (f_sub (f_div (f_of_Z a) (f_of_Z n)) (f_div (f_of_Z b) (f_of_Z n))) =
    (k * n <=? a - b)%Z;
}.

#[global] Instance exact_laws : ExactFloat Qc.
Proof.
  split; simpl; unfold Exact.leb; intros.
  - symmetry. apply Qcplus_assoc.
  - apply Qcplus_comm.
  - replace (Q2Qc (inject_Z 0)) with 0%Qc by (by apply Qc_is_canon). apply Qcplus_0_l.
  - by apply Qc_is_canon.
  - done.
  - apply bool_decide_eq_true_2. apply Qcle_refl.
  - apply bool_decide_eq_true in H, H0. apply bool_decide_eq_true_2. by eapply Qcle_trans.
  - done.
  - rewrite !bool_decide_eq_true. destruct (Qclt_le_dec a b) as [Hl|]; [left|by right].
    by apply Qclt_le_weak.
  - apply bool_decide_ext. symmetry. apply Qcplus_le_mono_r.
  - done.
  - by eexists.
  - apply eq_true_iff_eq. rewrite bool_decide_eq_true, Z.leb_le.
    unfold Qcle. simpl. rewrite !Qred_correct. rewrite <- Zle_Qle. done.
  - apply bool_decide_eq_true in H, H0. apply bool_decide_eq_true_2.
    apply Qcmult_le_compat_r; [done|].
    by replace (Q2Qc (inject_Z 0)) with 0%Qc in H by (by apply Qc_is_canon).
  - apply bool_decide_eq_true in H0. apply bool_decide_eq_true_2.
    unfold Qcdiv. apply Qcmult_le_compat_r; [done|].
    unfold Qcle. simpl. rewrite !Qred_correct. apply Qinv_le_0_compat.
    change 0%Q with (inject_Z 0). rewrite <- Zle_Qle. lia.
  - unfold Qcminus. rewrite <- Qcplus_assoc, (Qcplus_comm (- b)), Qcplus_opp_r. apply Qcplus_0_r.
  - by apply bool_decide_eq_true in H.
  - replace (Q2Qc (inject_Z 0)) with 0%Qc by (by apply Qc_is_canon). apply Qcmult_0_l.
  - replace (Q2Qc (inject_Z 0)) with 0%Qc by (by apply Qc_is_canon).
    unfold Qcdiv. apply Qcmult_0_l.
  - apply bool_decide_eq_false_2. unfold f_lit. simpl. unfold Exact.of_lit.
    intros Hle. unfold Qcle, Qcle in Hle. simpl in Hle. rewrite !Qred_correct in Hle.
    destruct (0 <=? e)%Z eqn:Ee.
    + rewrite <- Zle_Qle in Hle. pose proof (Z.pow_pos_nonneg 10 e ltac:(lia) ltac:(lia)). nia.
    + unfold Qle in Hle. simpl in Hle. lia.
  - apply eq_true_iff_eq. rewrite bool_decide_eq_true, Z.leb_le.
    unfold Qcle, Qcminus, Qcdiv. simpl. rewrite !Qred_correct.
    assert (0 < inject_Z n)%Q as Hn by (change 0%Q with (inject_Z 0); by rewrite <- Zlt_Qlt).
    assert (inject_Z a * / inject_Z n + - (inject_Z b * / inject_Z n) == inject_Z (a - b) / inject_Z n)%Q as ->.
    { unfold Z.sub. rewrite inject_Z_plus, inject_Z_opp. field. intros E. rewrite E in Hn. by apply Qlt_irrefl in Hn. }
    rewrite <- (Qmult_le_r _ _ _ Hn).
    assert (inject_Z (a - b) / inject_Z n * inject_Z n == inject_Z (a - b))%Q as ->.
    { field. intros E. rewrite E in Hn. by apply Qlt_irrefl in Hn. }
    rewrite <- inject_Z_mult, <- Zle_Qle. done.
Qed.

Section exact.
Context {F} `{ExactFloat F}.
Implicit Types a b c : F.

Lemma fltb_false_leb a b : f_ltb a b = false <-> f_leb b a = true.
Proof. rewrite fltb_negb. by rewrite negb_false_iff. Qed.
Lemma fltb_true_leb a b : f_ltb a b = true -> f_leb a b = true.
Proof. rewrite fltb_negb, negb_true_iff. destruct (fleb_total a b); congruence. Qed.
Lemma fadd_0_r a : f_add a (f_of_Z 0) = a.
Proof. rewrite fadd_comm. apply fadd_0_l. Qed.
Lemma fadd_leb_l a b c : f_leb (f_add c a) (f_add c b) = f_leb a b.
Proof. rewrite !(fadd_comm c). apply fadd_leb. Qed.
Lemma fadd_leb_compat a b c d :
  f_leb a b = true -> f_leb c d = true -> f_leb (f_add a c) (f_add b d) = true.
Proof.
  intros Hab Hcd. eapply fleb_trans; [by rewrite fadd_leb | by rewrite fadd_leb_l].
Qed.
Lemma fsum_app (l k : list F) : f_sum (l ++ k) = f_add (f_sum l) (f_sum k).
Proof.
  induction l as [|x l IH]; simpl; [by rewrite fsum_nil, fadd_0_l|].
  by rewrite !fsum_cons, IH, fadd_assoc.
Qed.
Lemma fsum_singleton a : f_sum [a] = a.
Proof. rewrite fsum_cons, fsum_nil. apply fadd_0_r. Qed.
Lemma fsum_perm (l k : list F) : l ≡ₚ k -> f_sum l = f_sum k.
Proof.
  induction 1; rewrite ?fsum_cons; [done|congruence| |congruence].
  by rewrite <- !fadd_assoc, (fadd_comm y).
Qed.
Lemma fsum_nonneg (l : list F) :
  Forall (fun a => f_leb (f_of_Z 0) a = true) l -> f_leb (f_of_Z 0) (f_sum l) = true.
Proof.
  induction 1 as [|x l Hx _ IH]; [rewrite fsum_nil; apply fleb_refl|].
  rewrite fsum_cons, <- (fadd_0_l (f_of_Z 0)). by apply fadd_leb_compat.
Qed.
Lemma fleb_add_nonneg a b : f_leb (f_of_Z 0) b = true -> f_leb a (f_add a b) = true.
Proof. intros Hb. rewrite <- (fadd_0_r a) at 1. by rewrite fadd_leb_l. Qed.
Lemma fmax_l a b : f_leb a (f_max a b) = true.
Proof. unfold f_max. destruct (f_ltb a b) eqn:E; [by apply fltb_true_leb | apply fleb_refl]. Qed.
Lemma fmax_r a b : f_leb b (f_max a b) = true.
Proof. unfold f_max. destruct (f_ltb a b) eqn:E; [apply fleb_refl | by apply fltb_false_leb]. Qed.
Lemma fmul_nonneg a b :
  f_leb (f_of_Z 0) a = true -> f_leb (f_of_Z 0) b = true -> f_leb (f_of_Z 0) (f_mul a b) = true.
Proof. intros. rewrite <- (fmul_0_l b). by apply fmul_leb. Qed.
Lemma fdiv_nonneg a (n : Z) :
  (0 < n)%Z -> f_leb (f_of_Z 0) a = true -> f_leb (f_of_Z 0) (f_div a (f_of_Z n)) = true.
Proof. intros. rewrite <- (fdiv_0_l (f_of_Z n)). by apply fdiv_leb. Qed.
Lemma fadd_nonneg a b :
  f_leb (f_of_Z 0) a = true -> f_leb (f_of_Z 0) b = true -> f_leb (f_of_Z 0) (f_add a b) = true.
Proof. intros. rewrite <- (fadd_0_l (f_of_Z 0)). by apply fadd_leb_compat. Qed.
Lemma fmax_lub a b c : f_leb a c = true -> f_leb b c = true -> f_leb (f_max a b) c = true.
Proof. unfold f_max. by destruct (f_ltb a b). Qed.
End exact.

#[export] Hint Resolve fleb_refl fmax_l fmax_r : py.

(** The binary64 instance prints and reads the prices of the sources. *)
Example repr_tenth : f_repr (f_lit 15 (-2) : spec_float) = "0.15"%string.
Proof. vm_compute. reflexivity. Qed.
Example repr_small : f_repr (f_lit 6 (-8) : spec_float) = "6e-08"%string.
Proof. vm_compute. reflexivity. Qed.
Example repr_int : f_repr (f_lit 50 0 : spec_float) = "50.0"%string.
Proof. vm_compute. reflexivity. Qed.
(** Rounding is modelled: one tenth plus two tenths is not three tenths. *)
Example b64_rounds :
  f_repr (f_add (f_lit 1 (-1)) (f_lit 2 (-1)) : spec_float) = "0.30000000000000004"%string.
Proof. vm_compute. reflexivity. Qed.
