(* ===== verification/Json.v ===== *)
(** * JSON values

    The values [json.loads] returns and the operations the sources apply to them:
    truth value, [dict.get], [isinstance], [int], [float], [str], and [json.dumps]. *)

From stdpp Require Import base option list strings.
From Stdlib Require Import ZArith Lia Ascii.
From S2P Require Import Prelude PyStr PyFloat.

Local Open Scope Z_scope.

Inductive json (F : Type) :=
  | JNull
  | JBool (b : bool)
  | JInt (z : Z)
  | JFloat (f : F)
  | JStr (s : string)
  | JArr (l : list (json F))
  | JObj (d : odict (json F)).
Arguments JNull {F}.
Arguments JBool {F} b.
Arguments JInt {F} z.
Arguments JFloat {F} f.
Arguments JStr {F} s.
Arguments JArr {F} l.
Arguments JObj {F} d.

(** Induction through the elements of arrays and objects. *)
Lemma json_nested_ind (F : Type) (P : json F -> Prop) :
  P JNull -> (forall b, P (JBool b)) -> (forall z, P (JInt z)) -> (forall f, P (JFloat f)) ->
  (forall s, P (JStr s)) -> (forall l, Forall P l -> P (JArr l)) ->
  (forall d, Forall (fun kv => P kv.2) d -> P (JObj d)) -> forall j, P j.
Proof.
  intros Hn Hb Hz Hf Hs Ha Ho. fix rec 1. intros [|b|z|f|s|l|d].
  - exact Hn.
  - apply Hb.
  - apply Hz.
  - apply Hf.
  - apply Hs.
  - apply Ha. induction l as [|x l IH]; constructor; [apply rec|exact IH].
  - apply Ho. induction d as [|[k x] d IH]; constructor; [exact (rec x)|exact IH].
Qed.

Section json.
Context {F : Type} `{PyFloat F}.
Implicit Types j : json F.

(** [bool(j)] *)
Definition truthy j : bool :=
  match j with
  | JNull => false
  | JBool b => b
  | JInt z => negb (z =? 0)
  | JFloat f => f_truthy f
  | JStr s => negb (bool_decide (s = ""%string))
  | JArr l => negb (bool_decide (length l = 0%nat))
  | JObj d => negb (bool_decide (length d = 0%nat))
  end.
Definition otruthy (o : option (json F)) : bool :=
  match o with Some j => truthy j | None => false end.

(** [a or b] for optional values, [None] being Python's [None]. *)
Definition oor (a b : option (json F)) : option (json F) := if otruthy a then a else b.

(** [d.get(k)], with JSON [null] as Python's [None]. *)
Definition jget (k : string) (d : odict (json F)) : option (json F) :=
  match dget k d with Some JNull | None => None | Some j => Some j end.

Definition as_obj j : option (odict (json F)) := match j with JObj d => Some d | _ => None end.
Definition as_str j : option string := match j with JStr s => Some s | _ => None end.
Definition is_obj j : bool := match j with JObj _ => true | _ => false end.
(** [j == s] for a string [s] *)
Definition eq_str (s : string) j : bool :=
  match j with JStr t => bool_decide (t = s) | _ => false end.
(** [j == False]: zero of either numeric type is equal to [False]. *)
Definition eq_false j : bool :=
  match j with
  | JBool b => negb b
  | JInt z => z =? 0
  | JFloat f => f_eqb f (f_of_Z 0)
  | _ => false
  end.

(** [int(j)] *)
Definition json_int j : result Z :=
  match j with
  | JInt z => Ok z
  | JBool b => Ok (if b then 1 else 0)
  | JFloat f => f_trunc f
  | JStr s =>
      match parse_int s with
      | Some z => Ok z
      | None => Raise (ValueError "invalid literal for int() with base 10")
      end
  | _ => Raise (TypeError "int() argument must be a string, a bytes-like object or a real number")
  end.

(** [float(j)] *)
Definition json_float j : result F :=
  match j with
  | JInt z => f_int z
  | JBool b => f_int (if b then 1 else 0)
  | JFloat f => Ok f
  | JStr s =>
      match parse_number s with
      | Some l => Ok (f_of_lit l)
      | None => Raise (ValueError "could not convert string to float")
      end
  | _ => Raise (TypeError "float() argument must be a string or a real number")
  end.

(** [json.dumps(j, ensure_ascii=False)]: the escapes of the C encoder. *)
Definition hexdigit (n : N) : ascii := ascii_of_N (if (n <? 10)%N then 48 + n else 87 + n).
Definition escape_char (c : ascii) : string :=
  if eqc c "034" then "\" +:+ String "034" ""
  else if eqc c "\" then "\\"
  else if eqc c "010" then "\n"
  else if eqc c "013" then "\r"
  else if eqc c "009" then "\t"
  else if eqc c "012" then "\f"
  else if eqc c "008" then "\b"
  else if (code c <? 32)%N then
    "\u00" +:+ String (hexdigit (code c / 16)) (String (hexdigit (code c mod 16)) "")
  else String c "".
Fixpoint escape (s : string) : string :=
  match s with EmptyString => ""%string | String c s => (escape_char c +:+ escape s)%string end.
Definition quote (s : string) : string := String "034" (escape s +:+ String "034" "").

(** A float as [json.dumps] prints it. *)
Definition json_float_text (f : F) : string :=
  let r := f_repr f in
  if bool_decide (r = "nan") then "NaN"
  else if bool_decide (r = "inf") then "Infinity"
  else if bool_decide (r = "-inf") then "-Infinity"
  else r.

Fixpoint dumps_with (isep ksep : string) j : string :=
  match j with
  | JNull => "null"
  | JBool b => if b then "true" else "false"
  | JInt z => str_of_Z z
  | JFloat f => json_float_text f
  | JStr s => quote s
  | JArr l => "[" +:+ join isep (map (dumps_with isep ksep) l) +:+ "]"
  | JObj d =>
      "{" +:+ join isep (map (fun kv => quote kv.1 +:+ ksep +:+ dumps_with isep ksep kv.2) d) +:+ "}"
  end%string.
Definition dumps : json F -> string := dumps_with ", " ": ".

(** [repr(j)] and [str(j)]: containers print the [repr] of their items. *)
Definition repr_char (q c : ascii) : string :=
  if eqc c q || eqc c "\" then String "\" (String c "")
  else if eqc c "010" then "\n"
  else if eqc c "013" then "\r"
  else if eqc c "009" then "\t"
  else if ((code c <? 32) || (code c =? 127))%N then
    "\x" +:+ String (hexdigit (code c / 16)) (String (hexdigit (code c mod 16)) "")
  else String c "".
Definition repr_str (s : string) : string :=
  let q : ascii := if sany (eqc "'") s && negb (sany (eqc "034") s) then "034"%char else "'"%char in
  String q (String.concat "" (map (repr_char q) (String.list_ascii_of_string s)) +:+ String q "").

Fixpoint py_repr j : string :=
  match j with
  | JNull => "None"
  | JBool b => if b then "True" else "False"
  | JInt z => str_of_Z z
  | JFloat f => f_repr f
  | JStr s => repr_str s
  | JArr l => "[" +:+ join ", " (map py_repr l) +:+ "]"
  | JObj d => "{" +:+ join ", " (map (fun kv => repr_str kv.1 +:+ ": " +:+ py_repr kv.2) d) +:+ "}"
  end%string.
Definition json_str j : string := match j with JStr s => s | j => py_repr j end.

(** [json.dumps(j, sort_keys=True, ...)] prints the keys of every object in order. *)
Fixpoint jsort j : json F :=
  match j with
  | JArr l => JArr (map jsort l)
  | JObj d => JObj (dsort (map (fun kv => (kv.1, jsort kv.2)) d))
  | j => j
  end.
Definition dumps_sorted j : string := dumps (jsort j).
(** [json.dumps(j, sort_keys=True, separators=(",", ":"), ensure_ascii=False)] *)
Definition dumps_canonical j : string := dumps_with "," ":" (jsort j).

(** [a == b]: numbers by value, objects regardless of the order of their keys. *)
Definition num_of j : option (Z + F) :=
  match j with
  | JBool b => Some (inl (if b then 1 else 0))
  | JInt z => Some (inl z)
  | JFloat f => Some (inr f)
  | _ => None
  end.
Definition num_eqb (a b : Z + F) : bool :=
  match a, b with
  | inl x, inl y => x =? y
  | inl x, inr y | inr y, inl x => f_eqb (f_of_Z x) y
  | inr x, inr y => f_eqb x y
  end.
Fixpoint py_eq (a b : json F) {struct a} : bool :=
  match a, b with
  | JNull, JNull => true
  | JStr s, JStr t => bool_decide (s = t)
  | JArr l, JArr k =>
      (fix go (l k : list (json F)) : bool :=
         match l, k with
         | [], [] => true
         | x :: l, y :: k => py_eq x y && go l k
         | _, _ => false
         end) l k
  | JObj d, JObj e =>
      (length d =? length e)%nat &&
      (fix go (d : odict (json F)) : bool :=
         match d with
         | [] => true
         | (k, x) :: d => match dget k e with Some y => py_eq x y && go d | None => false end
         end) d
  | _, _ =>
      match num_of a, num_of b with
      | Some x, Some y => num_eqb x y
      | _, _ => false
      end
  end.

(** [j.get(k)], [j.get(k, d)] of a value that should be an object *)
Definition obj j : result (odict (json F)) :=
  match j with JObj d => Ok d | _ => Raise (OtherError "AttributeError" "object has no attribute 'get'") end.
(** [int(d.get(k) or 0)] *)
Definition int_or0 (k : string) (d : odict (json F)) : result Z :=
  match dget k d with
  | Some j => if truthy j then json_int j else Ok 0
  | None => Ok 0
  end.
(** [x in {...}]: lists and objects are not hashable. *)
Definition in_strs (l : list string) (o : option (json F)) : result bool :=
  match o with
  | Some (JArr _) | Some (JObj _) => Raise (TypeError "unhashable type")
  | Some (JStr s) => Ok (bool_decide (s ∈ l))
  | _ => Ok false
  end.
Definition is_str (s : string) (o : option (json F)) : bool :=
  match o with Some j => eq_str s j | None => false end.
(** [d[k]] *)
Definition item (k : string) (d : odict (json F)) : result (json F) :=
  match dget k d with Some j => Ok j | None => Raise (KeyError k) end.
(** [list(j)]: strings and objects are iterable too. *)
Definition py_list j : result (list (json F)) :=
  match j with
  | JArr l => Ok l
  | JObj d => Ok (map JStr (dkeys d))
  | JStr s => Ok (map (fun c => JStr (String c EmptyString)) (String.list_ascii_of_string s))
  | _ => Raise (TypeError "object is not iterable")
  end.

Lemma eq_str_true s j : eq_str s j = true <-> j = JStr s.
Proof. destruct j; simpl; try done. rewrite bool_decide_eq_true. naive_solver. Qed.
End json.

Example dumps_messages :
  String.length (dumps (F := SpecFloat.spec_float)
    (JArr [JObj [("role"%string, JStr "user"); ("content"%string, JStr "hi")]])) = 35%nat.
Proof. vm_compute. reflexivity. Qed.
Example repr_quotes :
  py_repr (F := SpecFloat.spec_float) (JObj [("it's", JArr [JStr "a\b"; JNull])]%string)
  = ("{" +:+ String "034" ("it's" +:+ String "034" ": ['a\\b', None]}"))%string.
Proof. vm_compute. reflexivity. Qed.
