(* ===== verification/StrFacts.v ===== *)
(** * Lemmas on Python strings

    Stripping, splitting into lines and at a separator, and repetition in regular
    expressions, as the components need them. *)

From stdpp Require Import base option list strings sorting.
From Stdlib Require Import ZArith Lia Ascii OrderedTypeEx Sorted.
From S2P Require Import Prelude PyStr Regex.

Lemma eqc_refl c : eqc c c = true.
Proof. by apply bool_decide_true. Qed.
Lemma eqc_ne a b : a <> b -> eqc a b = false.
Proof. intros. by apply bool_decide_false. Qed.

Lemma app_cons c (a b : string) : (String c a +:+ b)%string = String c (a +:+ b).
Proof. reflexivity. Qed.
Lemma app_nil (a : string) : (EmptyString +:+ a)%string = a.
Proof. reflexivity. Qed.

Lemma concat_cons (a : string) l : String.concat "" (a :: l) = (a +:+ String.concat "" l)%string.
Proof. destruct l; [by rewrite <- (string_app_nil_r a) at 1|reflexivity]. Qed.

Lemma sall_impl (p q : ascii -> bool) s : (forall c, p c = true -> q c = true) -> sall p s = true -> sall q s = true.
Proof.
  intros Hpq. induction s as [|c s IH]; [done|]. simpl. intros [Hc Hs]%andb_true_iff. by rewrite Hpq, IH.
Qed.

(** ** Stripping *)

Lemma rdropwhile_suffix p s : exists t, s = (rdropwhile p s +:+ t)%string /\ sall p t = true.
Proof.
  induction s as [|c s (t & E & Ht)]; [by exists EmptyString|]. simpl.
  destruct (rdropwhile p s) as [|d r] eqn:Er.
  - change (s = t) in E. subst t. destruct (p c) eqn:Ec.
    + exists (String c s). simpl. by rewrite Ec, Ht.
    + exists s. done.
  - exists t. split; [|done]. by rewrite E.
Qed.
Lemma dropwhile_prefix p s : exists t, s = (t +:+ dropwhile p s)%string /\ sall p t = true.
Proof.
  induction s as [|c s (t & E & Ht)]; [by exists EmptyString|]. simpl. destruct (p c) eqn:Ec.
  - exists (String c t). simpl. rewrite Ec, Ht. split; [|done]. rewrite app_cons. f_equal. exact E.
  - by exists EmptyString.
Qed.

Lemma rdropwhile_idem p s : rdropwhile p (rdropwhile p s) = rdropwhile p s.
Proof.
  induction s as [|c s IH]; [done|]. simpl. destruct (rdropwhile p s) as [|d r] eqn:E.
  - destruct (p c) eqn:Ec; [done|]. simpl. by rewrite Ec.
  - change (rdropwhile p (String c (String d r))) with
      (match rdropwhile p (String d r) with EmptyString => if p c then EmptyString else String c EmptyString | r => String c r end).
    by rewrite IH.
Qed.
Lemma rdropwhile_app_keep p a b : rdropwhile p b = b -> b <> EmptyString ->
  rdropwhile p (a +:+ b) = (a +:+ b)%string.
Proof.
  intros Hb Hn. induction a as [|c a IH]; [done|]. rewrite app_cons. simpl. rewrite IH.
  destruct a; [by destruct b|done].
Qed.
Lemma rdropwhile_app_inv p a b : rdropwhile p (a +:+ b) = (a +:+ b)%string -> rdropwhile p b = b.
Proof.
  induction a as [|c a IH]; [done|]. rewrite app_cons. simpl. destruct (rdropwhile p (a +:+ b)) as [|d r] eqn:E.
  - destruct (p c); [done|]. intros [= E2]. by apply IH.
  - intros [= E2]. apply IH. congruence.
Qed.
Lemma rdropwhile_all p s : sall p s = true -> rdropwhile p s = EmptyString.
Proof.
  induction s as [|c s IH]; [done|]. simpl. intros [Hc Hs]%andb_true_iff. by rewrite IH, Hc.
Qed.

Lemma strip_by_sall p q s : sall q s = true -> sall q (strip_by p s) = true.
Proof.
  unfold strip_by. intros Hs. destruct (dropwhile_prefix p s) as (t & E & _).
  destruct (rdropwhile_suffix p (dropwhile p s)) as (u & E2 & _).
  rewrite E, sall_app in Hs. apply andb_true_iff in Hs as [_ Hs].
  rewrite E2, sall_app in Hs. by apply andb_true_iff in Hs as [Hs _].
Qed.
Lemma strip_by_end p s : rdropwhile p (strip_by p s) = strip_by p s.
Proof. apply rdropwhile_idem. Qed.
Lemma strip_by_keep p c s : p c = false -> rdropwhile p (String c s) = String c s ->
  strip_by p (String c s) = String c s.
Proof. intros Hc Hs. unfold strip_by. simpl dropwhile. by rewrite Hc. Qed.
Lemma strip_by_start p s : match strip_by p s with String c _ => p c = false | EmptyString => True end.
Proof.
  unfold strip_by. induction s as [|c s IH]; [done|]. simpl. destruct (p c) eqn:Ec; [done|].
  simpl. destruct (rdropwhile p s); [by rewrite Ec|done].
Qed.

(** ** Lines *)

Definition no_break (s : string) : bool := sall (fun c => negb (is_linebreak c)) s.

Lemma splitlines_go_line cur l s : no_break l = true ->
  splitlines_go cur (l +:+ String LF s) = (default EmptyString cur +:+ l)%string :: splitlines s.
Proof.
  revert cur. induction l as [|c l IH]; intros cur Hl.
  - simpl. rewrite string_app_nil_r. f_equal. by destruct s.
  - simpl in Hl. apply andb_true_iff in Hl as [Hc Hl]. simpl. apply negb_true_iff in Hc. rewrite Hc.
    rewrite IH by done. simpl. by rewrite string_app_assoc.
Qed.
Lemma splitlines_line l s : no_break l = true -> splitlines (l +:+ String LF s) = l :: splitlines s.
Proof. intros. unfold splitlines at 1. by rewrite splitlines_go_line. Qed.

Lemma splitlines_no_break s : Forall (fun l => no_break l = true) (splitlines s).
Proof.
  unfold splitlines.
  assert (forall n s cur, (String.length s <= n)%nat -> match cur with Some l => no_break l = true | None => True end ->
    Forall (fun l => no_break l = true) (splitlines_go cur s)) as Hgo; [|by apply (Hgo (String.length s))].
  induction n as [|n IH]; intros t cur Hn Hc.
  - destruct t; [|simpl in Hn; lia]. destruct cur; simpl; auto.
  - destruct t as [|c t]; [destruct cur; simpl; auto|]. simpl in *. destruct (is_linebreak c) eqn:Eb.
    + constructor; [by destruct cur|]. destruct t as [|d t]; [constructor|].
      destruct (_ && _); apply IH; simpl in *; try done; lia.
    + apply IH; [lia|]. unfold no_break. rewrite sall_app. simpl. rewrite Eb. simpl. rewrite andb_true_r.
      by destruct cur.
Qed.

(** ** Splitting at a character *)

Lemma partition_char c k v : sall (fun a => negb (eqc c a)) k = true ->
  partition (String c EmptyString) (k +:+ String c v) = Some (k, v).
Proof.
  induction k as [|a k IH]; simpl.
  - intros _. by rewrite eqc_refl.
  - intros [Ha Hk]%andb_true_iff. apply negb_true_iff in Ha. rewrite Ha. simpl. by rewrite IH.
Qed.

(** ** Repetition of a character set *)

Lemma matches_set_star p x y : matches (RStar (RSet p)) x y ->
  exists w, sall p w = true /\ after x = (w +:+ after y)%string.
Proof.
  intros Hm. remember (RStar (RSet p)) as r eqn:Er. induction Hm; try discriminate Er.
  - by exists EmptyString.
  - injection Er as ->. destruct (IHHm2 eq_refl) as (w & Hw & E). inversion Hm1; subst. simpl in *.
    exists (String c w). simpl. by rewrite H0, E.
Qed.
Fixpoint end_of (b : option ascii) (w : string) : option ascii :=
  match w with EmptyString => b | String c w => end_of (Some c) w end.
Lemma set_star_matches p b w s : sall p w = true ->
  matches (RStar (RSet p)) (Pos b (w +:+ s)) (Pos (end_of b w) s).
Proof.
  revert b. induction w as [|c w IH]; intros b; simpl; [constructor|].
  intros [Hc Hw]%andb_true_iff. eapply m_star_cons; [by apply m_set|by apply IH].
Qed.

(** ** Sorted sets of strings

    Two lists with the same elements give the same sorted set. *)

Definition str_le (a b : string) : Prop := String.leb a b = true.
Lemma str_le_cases a b : str_le a b <-> a = b \/ String_as_OT.lt a b.
Proof.
  unfold str_le, String.leb. rewrite <- String_as_OT.cmp_lt, <- String_as_OT.cmp_eq.
  change (String_as_OT.cmp a b) with (String.compare a b). destruct (String.compare a b); naive_solver.
Qed.
#[export] Instance str_le_trans : Transitive str_le.
Proof.
  intros a b c. rewrite !str_le_cases. intros [->|Hab]; [done|]. intros [<-|Hbc]; [by right|].
  right. by eapply String_as_OT.lt_trans.
Qed.
#[export] Instance str_le_antisymm : AntiSymm (=) str_le.
Proof. intros a b. apply String.leb_antisym. Qed.
Lemma sinsert_sorted s l : Sorted str_le l -> Sorted str_le (sinsert s l).
Proof.
  induction l as [|x l IH]; simpl; [by repeat constructor|]. intros Hl. destruct (String.leb s x) eqn:Es.
  - constructor; [done|]. by constructor.
  - apply Sorted_inv in Hl as [Hl Hx]. constructor; [by apply IH|].
    assert (str_le x s) as Hs by (destruct (String.leb_total s x) as [Hs|Hs]; [by rewrite Hs in Es|done]).
    destruct l as [|y l]; simpl; [by constructor|]. destruct (String.leb s y); constructor; [done|].
    by apply HdRel_inv in Hx.
Qed.
Lemma ssort_sorted l : Sorted str_le (ssort l).
Proof. induction l as [|x l IH]; simpl; [constructor|]. by apply sinsert_sorted. Qed.
Lemma sorted_set_ext l l' : (forall s, s ∈ l <-> s ∈ l') -> sorted_set l = sorted_set l'.
Proof.
  intros He. apply (Sorted_unique str_le); [apply ssort_sorted..|]. unfold sorted_set. rewrite !ssort_Permutation.
  apply NoDup_Permutation; [apply NoDup_remove_dups..|]. intros s. by rewrite !elem_of_remove_dups.
Qed.
