(* ===== verification/JsonParse.v ===== *)
(** * JSON text

    [json.JSONDecoder().raw_decode]: the value at the start of a text and what follows it.
    Text is UTF-8; an integer of any length is read. *)

From stdpp Require Import base option list strings pretty.
From Stdlib Require Import ZArith Lia Ascii.
From S2P Require Import Prelude PyStr PyFloat Json StrFacts.

Local Open Scope Z_scope.

Definition is_json_space (c : ascii) : bool := sany (eqc c) (String " " (String "009" (String "010" (String "013" "")))).
Definition ws : string -> string := dropwhile is_json_space.
Definition QUOTE : ascii := "034".

(** ** Strings *)

Definition hex_value (c : ascii) : option N :=
  if is_digit c then Some (code c - 48)%N
  else if ((97 <=? code c) && (code c <=? 102))%N then Some (code c - 87)%N
  else if ((65 <=? code c) && (code c <=? 70))%N then Some (code c - 55)%N
  else None.
Definition hex4 (a b c d : ascii) : option N :=
  match hex_value a, hex_value b, hex_value c, hex_value d with
  | Some a, Some b, Some c, Some d => Some (a * 4096 + b * 256 + c * 16 + d)%N
  | _, _, _, _ => None
  end.
Definition byte (n : N) : ascii := ascii_of_N n.
(** The encoding of a code point *)
Definition utf8 (n : N) : string :=
  if (n <? 128)%N then String (byte n) ""
  else if (n <? 2048)%N then String (byte (192 + n / 64)) (String (byte (128 + n mod 64)) "")
  else if (n <? 65536)%N then
    String (byte (224 + n / 4096)) (String (byte (128 + n / 64 mod 64)) (String (byte (128 + n mod 64)) ""))
  else String (byte (240 + n / 262144)) (String (byte (128 + n / 4096 mod 64))
         (String (byte (128 + n / 64 mod 64)) (String (byte (128 + n mod 64)) ""))).
Definition high_surrogate (n : N) : bool := ((55296 <=? n) && (n <=? 56319))%N.
Definition low_surrogate (n : N) : bool := ((56320 <=? n) && (n <=? 57343))%N.
Definition simple_escape (c : ascii) : option ascii :=
  if eqc c QUOTE then Some QUOTE
  else if eqc c "\" then Some "\"%char
  else if eqc c "/" then Some "/"%char
  else if eqc c "b" then Some "008"%char
  else if eqc c "f" then Some "012"%char
  else if eqc c "n" then Some "010"%char
  else if eqc c "r" then Some "013"%char
  else if eqc c "t" then Some "009"%char
  else None.
Definition prepend (p : string) (r : option (string * string)) : option (string * string) :=
  match r with Some (t, s) => Some (p +:+ t, s)%string | None => None end.
(** What follows an opening quote, up to the closing one; control characters are refused. *)
Fixpoint string_body (s : string) : option (string * string) :=
  match s with
  | EmptyString => None
  | String c s =>
      if eqc c QUOTE then Some (EmptyString, s)
      else if eqc c "\" then
        match s with
        | String e s1 =>
            match simple_escape e with
            | Some x => prepend (String x "") (string_body s1)
            | None =>
                match s1 with
                | String h1 (String h2 (String h3 (String h4 s2))) =>
                    match (if eqc e "u" then hex4 h1 h2 h3 h4 else None) with
                    | None => None
                    | Some n =>
                        match s2 with
                        | String b (String u (String l1 (String l2 (String l3 (String l4 s3))))) =>
                            match (if high_surrogate n && eqc b "\" && eqc u "u" then hex4 l1 l2 l3 l4 else None) with
                            | Some m =>
                                if low_surrogate m
                                then prepend (utf8 (65536 + (n - 55296) * 1024 + (m - 56320))%N) (string_body s3)
                                else prepend (utf8 n) (string_body s2)
                            | None => prepend (utf8 n) (string_body s2)
                            end
                        | _ => prepend (utf8 n) (string_body s2)
                        end
                    end
                | _ => None
                end
            end
        | EmptyString => None
        end
      else if (code c <? 32)%N then None
      else prepend (String c "") (string_body s)
  end.

(** ** Numbers *)

(** The value of a run of digits, their number, and the rest *)
Fixpoint run_of_digits (acc : Z) (n : nat) (s : string) : Z * nat * string :=
  match s with
  | String c s' => if is_digit c then run_of_digits (acc * 10 + digit_val c) (S n) s' else (acc, n, s)
  | EmptyString => (acc, n, s)
  end.
Definition whole (s : string) : option (Z * string) :=
  match s with
  | String "0" s => Some (0, s)
  | _ => match run_of_digits 0 0 s with (z, S _, s) => Some (z, s) | _ => None end
  end.
Definition fraction (m : Z) (s : string) : option (Z * nat * string) :=
  match s with
  | String "." s' => match run_of_digits m 0 s' with (m', S k, s'') => Some (m', S k, s'') | _ => None end
  | _ => None
  end.
Definition exponent (s : string) : option (Z * string) :=
  match s with
  | String e s' =>
      if eqc e "e" || eqc e "E" then
        let '(neg, s'') := sign_of s' in
        match run_of_digits 0 0 s'' with
        | (z, S _, r) => Some ((if neg then - z else z), r)
        | _ => None
        end
      else None
  | EmptyString => None
  end.

Section decode.
Context {F : Type} `{PyFloat F}.

Definition number (neg : bool) (s : string) : option (json F * string) :=
  match whole s with
  | None => None
  | Some (z, s) =>
      match fraction z s, exponent s with
      | Some (m, k, s), _ =>
          match exponent s with
          | Some (e, s) => Some (JFloat (f_of_lit (NumDec neg m (e - Z.of_nat k))), s)
          | None => Some (JFloat (f_of_lit (NumDec neg m (- Z.of_nat k))), s)
          end
      | None, Some (e, s) => Some (JFloat (f_of_lit (NumDec neg z e)), s)
      | None, None => Some (JInt (if neg then - z else z), s)
      end
  end.
Definition after (word : string) (j : json F) (s : string) : option (json F * string) :=
  if startswith word s then Some (j, sdrop (String.length word) s) else None.
Definition first_of (l : list (option (json F * string))) : option (json F * string) :=
  foldr (fun o r => match o with Some _ => o | None => r end) None l.
Definition constant (s : string) : option (json F * string) :=
  first_of [after "null" JNull s; after "true" (JBool true) s; after "false" (JBool false) s;
            after "NaN" (JFloat (f_of_lit NumNan)) s; after "Infinity" (JFloat (f_of_lit (NumInf false))) s;
            after "-Infinity" (JFloat (f_of_lit (NumInf true))) s]%string.

(** ** Containers, given the decoder of their values *)

Section containers.
Variable scan : string -> option (json F * string).
Fixpoint members (n : nat) (acc : odict (json F)) (s : string) : option (json F * string) :=
  match n, s with
  | S n, String q s =>
      if eqc q QUOTE then
        match string_body s with
        | None => None
        | Some (k, s) =>
            match ws s with
            | String ":" s =>
                match scan (ws s) with
                | None => None
                | Some (v, s) =>
                    match ws s with
                    | String "," s => members n (dset k v acc) (ws s)
                    | String "}" s => Some (JObj (dset k v acc), s)
                    | _ => None
                    end
                end
            | _ => None
            end
        end
      else None
  | _, _ => None
  end.
Fixpoint elements (n : nat) (acc : list (json F)) (s : string) : option (json F * string) :=
  match n with
  | O => None
  | S n =>
      match scan s with
      | None => None
      | Some (v, s) =>
          match ws s with
          | String "," s => elements n (v :: acc) (ws s)
          | String "]" s => Some (JArr (rev (v :: acc)), s)
          | _ => None
          end
      end
  end.
End containers.

Fixpoint scan (fuel : nat) (s : string) : option (json F * string) :=
  match fuel, s with
  | S fuel, String c s' =>
      if eqc c QUOTE then match string_body s' with Some (t, s) => Some (JStr t, s) | None => None end
      else if eqc c "{" then
        match ws s' with
        | String "}" s => Some (JObj [], s)
        | s => members (scan fuel) fuel [] s
        end
      else if eqc c "[" then
        match ws s' with
        | String "]" s => Some (JArr [], s)
        | s => elements (scan fuel) fuel [] s
        end
      else
        match constant s with
        | Some r => Some r
        | None => if eqc c "-" then number true s' else number false s
        end
  | _, _ => None
  end.
(** [JSONDecoder().raw_decode(s)]; [None] is [JSONDecodeError]. *)
Definition raw_decode (s : string) : option (json F * string) := scan (String.length s) s.
End decode.

(** ** JSON text: what is printed is read back

    [raw_decode] reads a value that [json.dumps] printed, whatever follows it. *)

(** ** Strings *)

Lemma below_N (P : N -> bool) k : forallb (fun i => P (N.of_nat i)) (seq 0 k) = true -> forall n, (n < N.of_nat k)%N -> P n = true.
Proof.
  rewrite forallb_forall. intros Hall n Hn. rewrite <- (N2Nat.id n). apply Hall, in_seq. lia.
Qed.
Lemma hex_value_digit (n : N) : (n < 16)%N -> hex_value (hexdigit n) = Some n.
Proof.
  intros Hn. set (P := fun n => bool_decide (hex_value (hexdigit n) = Some n)).
  assert (P n = true) as Hp by by apply (below_N P 16). by apply bool_decide_eq_true in Hp.
Qed.
Lemma byte_code c : byte (code c) = c.
Proof. apply ascii_N_embedding. Qed.
Lemma code_bound c : (code c < 256)%N.
Proof. apply N_ascii_bounded. Qed.
Lemma string_body_unicode h1 h2 h3 h4 n s :
  hex4 h1 h2 h3 h4 = Some n -> high_surrogate n = false ->
  string_body (String "\" (String "u" (String h1 (String h2 (String h3 (String h4 s)))))) = prepend (utf8 n) (string_body s).
Proof.
  intros Hh Hs. cbn [string_body]. change (eqc "\" QUOTE) with false. change (eqc "\" "\") with true. cbn iota.
  change (simple_escape "u") with (@None ascii). cbn iota. change (eqc "u" "u") with true. cbn iota. rewrite Hh, Hs. cbn [andb].
  destruct s as [|? [|? [|? [|? [|? [|? ?]]]]]]; reflexivity.
Qed.
Lemma string_body_simple e x t :
  simple_escape e = Some x -> string_body (String "\" (String e t)) = prepend (String x "") (string_body t).
Proof.
  intros He. cbn [string_body]. change (eqc "\" QUOTE) with false. change (eqc "\" "\") with true. cbn iota. by rewrite He.
Qed.
Lemma string_body_escaped p e x t s rest :
  (p +:+ t)%string = String "\" (String e t) -> simple_escape e = Some x -> string_body t = Some (s, rest) ->
  string_body (p +:+ t) = Some (String x s, rest).
Proof. intros -> He Ht. by rewrite (string_body_simple _ _ _ He), Ht. Qed.
Lemma string_body_plain c t :
  eqc c "034" = false -> eqc c "\" = false -> (code c <? 32)%N = false ->
  string_body (String c t) = prepend (String c "") (string_body t).
Proof. intros Hq Hb Hc. cbn [string_body]. unfold QUOTE. by rewrite Hq, Hb, Hc. Qed.
Ltac escaped c x IH :=
  let E := fresh "E" in
  destruct (eqc c x) eqn:E;
    [apply bool_decide_eq_true in E as ->; eapply string_body_escaped; [reflexivity|reflexivity|exact IH]|].
Lemma string_body_escape s rest : string_body (escape s +:+ String QUOTE rest) = Some (s, rest).
Proof.
  induction s as [|c s IH]; [done|]. cbn [escape]. rewrite string_app_assoc. revert IH. generalize (escape s +:+ String QUOTE rest).
  intros t IH. unfold escape_char.
  escaped c "034"%char IH. escaped c "\"%char IH. escaped c "010"%char IH. escaped c "013"%char IH.
  escaped c "009"%char IH. escaped c "012"%char IH. escaped c "008"%char IH.
  destruct (code c <? 32)%N eqn:El.
  - apply N.ltb_lt in El. change (("\u00" +:+ String (hexdigit (code c / 16)) (String (hexdigit (code c mod 16)) "")) +:+ t)%string
      with (String "\" (String "u" (String "0" (String "0" (String (hexdigit (code c / 16)) (String (hexdigit (code c mod 16)) t)))))).
    rewrite (string_body_unicode _ _ _ _ (code c)).
    + rewrite IH. unfold utf8. rewrite (proj2 (N.ltb_lt _ _)) by lia. cbn [prepend]. by rewrite byte_code.
    + unfold hex4. change (hex_value "0") with (Some 0%N). rewrite !hex_value_digit by (apply N.mod_lt || apply N.Div0.div_lt_upper_bound; lia).
      f_equal. rewrite (N.div_mod' (code c) 16) at 3. lia.
    + unfold high_surrogate. apply andb_false_iff. left. apply N.leb_gt. lia.
  - change (String c EmptyString +:+ t)%string with (String c t). by rewrite string_body_plain, IH.
Qed.

(** ** Whole numbers *)

(** A text that does not carry a number on *)
Definition stops (s : string) : bool :=
  match s with String c _ => negb (is_digit c || eqc c "." || eqc c "e" || eqc c "E") | EmptyString => true end.
Lemma run_stops z n s : stops s = true -> run_of_digits z n s = (z, n, s).
Proof. destruct s as [|c s]; [done|]. simpl. by destruct (is_digit c). Qed.
Lemma digit_char (x : N) : (x < 10)%N -> is_digit (pretty_N_char x) = true /\ digit_val (pretty_N_char x) = Z.of_N x /\
  ((0 < x)%N -> eqc (pretty_N_char x) "0" = false).
Proof.
  intros Hx. set (P := fun x => is_digit (pretty_N_char x) && (digit_val (pretty_N_char x) =? Z.of_N x) &&
                     ((x =? 0)%N || negb (eqc (pretty_N_char x) "0"))).
  assert (P x = true) as Hp by by apply (below_N P 10).
  unfold P in Hp. apply andb_true_iff in Hp as [[Hd Hv%Z.eqb_eq]%andb_true_iff Hp]. split; [done|]. split; [done|].
  intros H0. apply orb_true_iff in Hp as [Hp%N.eqb_eq|Hp%negb_true_iff]; [lia|done].
Qed.
Lemma run_pretty (x : N) : forall n s, exists k,
  run_of_digits 0 n (pretty_N_go x s) = run_of_digits (Z.of_N x) (n + k) s /\ ((0 < x)%N -> (0 < k)%nat).
Proof.
  induction x as [x IH] using (well_founded_induction N.lt_wf_0). intros n s. destruct (decide (0 < x)%N) as [Hx|Hx].
  - rewrite pretty_N_go_step by done. destruct (IH (x / 10)%N ltac:(apply N.div_lt; lia) n (String (pretty_N_char (x mod 10)) s)) as (k & -> & _).
    destruct (digit_char (x mod 10)%N) as (Hd & Hv & _); [by apply N.mod_lt|].
    exists (S k). cbn [run_of_digits]. rewrite Hd, Hv. split; [|lia].
    replace (Z.of_N (x / 10) * 10 + Z.of_N (x mod 10)) with (Z.of_N x) by (pose proof (N.div_mod x 10 ltac:(done)); lia).
    by replace (n + S k)%nat with (S (n + k)) by lia.
  - exists 0%nat. replace x with 0%N by lia. rewrite pretty_N_go_0. by rewrite Nat.add_0_r.
Qed.
Lemma pretty_head (x : N) : (0 < x)%N -> forall s, exists c t, pretty_N_go x s = String c t /\ is_digit c = true /\ eqc c "0" = false.
Proof.
  induction x as [x IH] using (well_founded_induction N.lt_wf_0). intros Hx s. rewrite pretty_N_go_step by done.
  destruct (decide (0 < x / 10)%N) as [Hq|Hq]; [apply IH; [apply N.div_lt; lia|done]|].
  apply N.nlt_ge, N.le_0_r in Hq. rewrite Hq, pretty_N_go_0. apply N.div_small_iff in Hq; [|done].
  rewrite N.mod_small by done. destruct (digit_char x Hq) as (Hd & _ & H0). eexists _, _. split; [done|]. split; [done|]. by apply H0.
Qed.

Lemma pretty_N_pos (x : N) : (0 < x)%N -> pretty x = pretty_N_go x EmptyString.
Proof. intros Hx. unfold pretty, pretty_N. by rewrite decide_False by lia. Qed.
Lemma pretty_append (x : N) : forall s t, (pretty_N_go x s +:+ t)%string = pretty_N_go x (s +:+ t).
Proof.
  induction x as [x IH] using (well_founded_induction N.lt_wf_0). intros s t. destruct (decide (0 < x)%N) as [Hx|Hx].
  - rewrite (pretty_N_go_step x s), (pretty_N_go_step x (s +:+ t)%string) by done.
    exact (IH (x / 10)%N ltac:(apply N.div_lt; lia) (String (pretty_N_char (x mod 10)) s) t).
  - replace x with 0%N by lia. by rewrite !pretty_N_go_0.
Qed.
Lemma whole_pretty (x : N) rest : stops rest = true -> whole (pretty x +:+ rest) = Some (Z.of_N x, rest).
Proof.
  intros Hr. destruct (decide (0 < x)%N) as [Hx|Hx].
  - rewrite pretty_N_pos, pretty_append by done.
    destruct (pretty_head x Hx (EmptyString +:+ rest)) as (c & t & Hc & Hd & H0).
    destruct (run_pretty x 0 (EmptyString +:+ rest)) as (k & Hk & Hpos). specialize (Hpos Hx).
    unfold whole. rewrite Hc in *. rewrite app_nil, (run_stops _ _ _ Hr) in Hk. rewrite Hk.
    destruct k; [lia|]. destruct c as [[] [] [] [] [] [] [] []]; try done; discriminate H0.
  - replace x with 0%N by lia. reflexivity.
Qed.
Lemma stops_no_tail z s : stops s = true -> fraction z s = None /\ exponent s = None.
Proof.
  destruct s as [|c s]; [done|]. cbn [stops]. rewrite negb_true_iff, !orb_false_iff. intros [[[_ Hd] He] HE]. split.
  - unfold fraction. destruct c as [[] [] [] [] [] [] [] []]; try done; discriminate Hd.
  - unfold exponent. by rewrite He, HE.
Qed.

Section roundtrip.
Context {F : Type} `{PyFloat F}.
Implicit Types j : json F.

(** ** The values that are printed without loss: no floats, no key twice *)

Fixpoint plain j : Prop :=
  match j with
  | JFloat _ => False
  | JArr l => (fix go l := match l with [] => True | x :: l => plain x /\ go l end) l
  | JObj d => NoDup (dkeys d) /\
              (fix go d := match d with [] => True | kv :: d => plain kv.2 /\ go d end) d
  | _ => True
  end.
Lemma plain_arr l : plain (JArr l) <-> Forall plain l.
Proof. simpl. induction l as [|x l IH]; [by split|]. rewrite Forall_cons. naive_solver. Qed.
Lemma plain_obj d : plain (JObj d) <-> NoDup (dkeys d) /\ Forall (fun kv => plain kv.2) d.
Proof.
  simpl. apply and_iff_compat_l. induction d as [|x d IH]; [by split|]. rewrite Forall_cons. naive_solver.
Qed.
(** Enough fuel *)
Fixpoint jsize j : nat :=
  match j with
  | JArr l => S (list_sum (map (fun x => S (jsize x)) l))
  | JObj d => S (list_sum (map (fun kv => S (jsize kv.2)) d))
  | _ => 1
  end.

Lemma number_pretty neg (x : N) rest : stops rest = true ->
  number (F := F) neg (pretty x +:+ rest) = Some (JInt (if neg then - Z.of_N x else Z.of_N x), rest).
Proof.
  intros Hr. unfold number. rewrite whole_pretty by done. by destruct (stops_no_tail (Z.of_N x) rest Hr) as [-> ->].
Qed.
Lemma pretty_first (x : N) : exists c t, pretty x = String c t /\ is_digit c = true.
Proof.
  destruct (decide (0 < x)%N) as [Hx|Hx].
  - rewrite pretty_N_pos by done. destruct (pretty_head x Hx EmptyString) as (c & t & -> & Hd & _). by exists c, t.
  - replace x with 0%N by lia. by exists "0"%char, EmptyString.
Qed.
Lemma constant_digit c s : is_digit c = true -> constant (F := F) (String c s) = None.
Proof. intros Hd. destruct c as [[] [] [] [] [] [] [] []]; try done; discriminate Hd. Qed.
Lemma constant_negative c s : is_digit c = true -> constant (F := F) (String "-" (String c s)) = None.
Proof. intros Hd. destruct c as [[] [] [] [] [] [] [] []]; try done; discriminate Hd. Qed.
Lemma digit_marks c : is_digit c = true ->
  eqc c QUOTE = false /\ eqc c "{" = false /\ eqc c "[" = false /\ eqc c "-" = false /\ is_json_space c = false /\
  eqc c "]" = false /\ eqc c "}" = false.
Proof. intros Hd. destruct c as [[] [] [] [] [] [] [] []]; try discriminate Hd; done. Qed.
Lemma scan_int fuel z rest : (0 < fuel)%nat -> stops rest = true ->
  scan (F := F) fuel (str_of_Z z +:+ rest) = Some (JInt z, rest).
Proof.
  intros Hf Hr. destruct fuel as [|fuel]; [lia|]. unfold str_of_Z.
  destruct z as [|p|p].
  - pose proof (number_pretty false 0 rest Hr) as Hn. change (pretty 0%Z) with "0"%string. cbn -[number]. exact Hn.
  - change (pretty (Zpos p)) with (pretty (Npos p)). destruct (pretty_first (Npos p)) as (c & t & Hc & Hd).
    pose proof (number_pretty false (Npos p) rest Hr) as Hn. rewrite Hc, app_cons in *. cbn [scan].
    destruct (digit_marks c Hd) as (-> & -> & -> & -> & _). by rewrite constant_digit, Hn.
  - change (pretty (Zneg p)) with (String "-" (pretty (Npos p))). destruct (pretty_first (Npos p)) as (c & t & Hc & Hd).
    pose proof (number_pretty true (Npos p) rest Hr) as Hn. rewrite Hc, !app_cons in *. cbn [scan].
    change (eqc "-" QUOTE) with false. change (eqc "-" "{") with false. change (eqc "-" "[") with false. change (eqc "-" "-") with true.
    cbn iota. by rewrite constant_negative, Hn.
Qed.

(** ** Containers *)

Lemma dumps_first j : plain j -> exists c t, dumps j = String c t /\ is_json_space c = false /\ eqc c "]" = false /\ eqc c "}" = false.
Proof.
  unfold dumps. destruct j as [|b|z|f|s|l|d]; intros Hp; try done; simpl.
  - eexists _, _. by split.
  - destruct b; eexists _, _; by split.
  - unfold str_of_Z. destruct z as [|p|p].
    + exists "0"%char, EmptyString. by split.
    + change (pretty (Zpos p)) with (pretty (Npos p)). destruct (pretty_first (Npos p)) as (c & t & Hc & Hd).
      exists c, t. destruct (digit_marks c Hd) as (_ & _ & _ & _ & ? & ? & ?). by split.
    + eexists _, _. by split.
  - eexists _, _. by split.
  - eexists _, _. by split.
  - eexists _, _. by split.
Qed.
Lemma ws_none c s : is_json_space c = false -> ws (String c s) = String c s.
Proof. intros Hc. unfold ws. cbn [dropwhile]. by rewrite Hc. Qed.
Lemma ws_dumps j s : plain j -> ws (dumps j +:+ s) = (dumps j +:+ s)%string.
Proof. intros Hp. destruct (dumps_first j Hp) as (c & t & -> & Hc & _). by apply ws_none. Qed.
Lemma ws_space s : ws (String " " s) = ws s.
Proof. done. Qed.
(** Only a number can run on into what follows it. *)
Definition ends j (rest : string) : Prop := match j with JInt _ => stops rest = true | _ => True end.
Lemma stops_ends j rest : stops rest = true -> ends j rest.
Proof. by destruct j. Qed.
Definition reads (fuel : nat) j : Prop :=
  forall rest, ends j rest -> scan fuel (dumps j +:+ rest) = Some (j, rest).

Lemma elements_dumps fuel l : forall x acc n rest,
  Forall plain (x :: l) -> Forall (reads fuel) (x :: l) -> (length l < n)%nat ->
  elements (scan fuel) n acc (join ", " (map dumps (x :: l)) +:+ String "]" rest) = Some (JArr (rev acc ++ x :: l), rest).
Proof.
  induction l as [|y l IH]; intros x acc n rest Hp Hr Hn; destruct n as [|n]; try lia.
  - apply Forall_cons_1 in Hr as [Hx _]. cbn [map join elements]. rewrite Hx by by apply stops_ends. cbn [ws dropwhile]. simpl. by rewrite <- ?app_assoc.
  - apply Forall_cons_1 in Hr as [Hx Hr]. apply Forall_cons_1 in Hp as [_ Hp].
    change (join ", " (map dumps (x :: y :: l))) with (dumps x +:+ ", " +:+ join ", " (map dumps (y :: l)))%string.
    rewrite !string_app_assoc. cbn [elements]. rewrite Hx by by apply stops_ends.
    change (", " +:+ ?s)%string with (String "," (String " " s)).
    rewrite ws_none by done. rewrite ws_space.
    assert (forall s, ws (join ", " (map dumps (y :: l)) +:+ s) = (join ", " (map dumps (y :: l)) +:+ s)%string) as Hws.
    { intros s. apply Forall_cons_1 in Hp as [Hy _]. destruct l as [|z l]; [by apply ws_dumps|].
      change (join ", " (map dumps (y :: z :: l))) with (dumps y +:+ ", " +:+ join ", " (map dumps (z :: l)))%string.
      rewrite !string_app_assoc. by apply ws_dumps. }
    rewrite Hws, IH; [|done|done|simpl in Hn; lia]. simpl. by rewrite <- app_assoc.
Qed.
Definition member_text (kv : string * json F) : string := (quote kv.1 +:+ ": " +:+ dumps kv.2)%string.
Lemma members_dumps fuel d : forall kv acc n rest,
  Forall (fun kv => plain kv.2) (kv :: d) -> Forall (fun kv => reads fuel kv.2) (kv :: d) ->
  NoDup (dkeys (acc ++ kv :: d)) -> (length d < n)%nat ->
  members (scan fuel) n acc (join ", " (map member_text (kv :: d)) +:+ String "}" rest) = Some (JObj (acc ++ kv :: d), rest).
Proof.
  induction d as [|kv' d IH]; intros [k v] acc n rest Hp Hr Hk Hn; destruct n as [|n]; try lia;
    apply Forall_cons_1 in Hr as [Hx Hr]; apply Forall_cons_1 in Hp as [Hv Hp]; cbn [snd] in *;
    assert (dset k v acc = acc ++ [(k, v)]) as Hset by
      (apply dset_fresh, dget_None; unfold dkeys in *; rewrite fmap_app in Hk; apply NoDup_app in Hk as (_ & Hk & _);
       intros Hin; apply (Hk k Hin); by left).
  - cbn [map join]. unfold member_text at 1, quote. cbn [fst snd]. rewrite !app_cons, !string_app_assoc. cbn [members].
    change (eqc "034" QUOTE) with true. cbn iota. rewrite app_cons, app_nil, string_body_escape.
    rewrite (app_cons ":"), ws_none by done. rewrite (app_cons " "), ws_space, app_nil, ws_dumps by done.
    rewrite Hx by by apply stops_ends. rewrite ws_none by done. by rewrite Hset.
  - change (join ", " (map member_text ((k, v) :: kv' :: d))) with
      (member_text (k, v) +:+ ", " +:+ join ", " (map member_text (kv' :: d)))%string.
    rewrite !string_app_assoc. unfold member_text at 1, quote. cbn [fst snd]. rewrite !app_cons, !string_app_assoc. cbn [members].
    change (eqc "034" QUOTE) with true. cbn iota. rewrite app_cons, app_nil, string_body_escape.
    rewrite (app_cons ":"), ws_none by done. rewrite (app_cons " "), ws_space, app_nil, ws_dumps by done.
    rewrite Hx by by apply stops_ends. change (", " +:+ ?s)%string with (String "," (String " " s)).
    rewrite ws_none by done. rewrite ws_space.
    assert (forall s, ws (join ", " (map member_text (kv' :: d)) +:+ s) = (join ", " (map member_text (kv' :: d)) +:+ s)%string) as Hws.
    { intros s. destruct d; [by apply ws_none|by apply ws_none]. }
    cbn [map] in Hws |- *.
    rewrite app_nil, Hws, Hset. change (member_text kv' :: map member_text d) with (map member_text (kv' :: d)). rewrite IH; [by rewrite <- app_assoc|done|done|by rewrite <- app_assoc|simpl in Hn; lia].
Qed.
Lemma list_sum_bound {A} (f : A -> nat) l x : x ∈ l -> (f x < list_sum (map (fun x => S (f x)) l))%nat.
Proof. induction l as [|y l IH]; [by intros ?%elem_of_nil|]. intros [->|Hx]%elem_of_cons; simpl; [lia|]. specialize (IH Hx). lia. Qed.
Lemma list_sum_length {A} (f : A -> nat) l : (length l <= list_sum (map (fun x => S (f x)) l))%nat.
Proof. induction l; simpl; lia. Qed.
Lemma scan_dumps j : forall fuel, plain j -> (jsize j <= fuel)%nat -> reads fuel j.
Proof.
  induction j as [|b|z|f|s|l IH|d IH] using json_nested_ind; intros fuel Hp Hf rest Hr; try done;
    try (destruct fuel as [|fuel]; [simpl in Hf; lia|]).
  - reflexivity.
  - by destruct b.
  - by apply scan_int.
  - unfold dumps. cbn [dumps_with]. unfold quote. rewrite app_cons, string_app_assoc, app_cons, app_nil. cbn [scan].
    change (eqc "034" QUOTE) with true. cbn iota. by rewrite string_body_escape.
  - apply plain_arr in Hp. change (dumps (JArr l)) with ("[" +:+ join ", " (map dumps l) +:+ "]")%string.
    rewrite !app_cons, app_nil, string_app_assoc. cbn [scan].
    change (eqc "[" QUOTE) with false. change (eqc "[" "{") with false. change (eqc "[" "[") with true. cbn iota.
    destruct l as [|x l]; [done|].
    assert (Forall (reads fuel) (x :: l)) as Hreads.
    { rewrite Forall_forall in IH, Hp |- *. intros y Hy. apply IH; [done|by apply Hp|].
      pose proof (list_sum_bound jsize _ _ Hy). cbn [jsize] in Hf. lia. }
    pose proof (list_sum_length jsize (x :: l)) as Hlen. cbn [length] in Hlen. cbn [jsize] in Hf.
    pose proof (elements_dumps fuel l x [] fuel rest Hp Hreads ltac:(lia)) as He. cbn [rev app] in He.
    change ("]" +:+ rest)%string with (String "]" rest).
    assert (exists c t, (join ", " (map dumps (x :: l)) +:+ String "]" rest)%string = String c t /\ is_json_space c = false /\ eqc c "]" = false) as (c & t & Hc & Hs & Hb).
    { apply Forall_cons_1 in Hp as [Hx _]. destruct (dumps_first x Hx) as (c & t & Hc & Hs & Hb & _).
      destruct l; cbn [map join]; rewrite Hc; by eexists _, _. }
    rewrite Hc in He |- *. rewrite ws_none by done.
    destruct c as [[] [] [] [] [] [] [] []]; try exact He; discriminate Hb.
  - apply plain_obj in Hp as [Hk Hp]. change (dumps (JObj d)) with ("{" +:+ join ", " (map member_text d) +:+ "}")%string.
    rewrite !app_cons, app_nil, string_app_assoc. cbn [scan].
    change (eqc "{" QUOTE) with false. change (eqc "{" "{") with true. cbn iota.
    destruct d as [|kv d]; [done|].
    assert (Forall (fun kv => reads fuel kv.2) (kv :: d)) as Hreads.
    { rewrite Forall_forall in IH, Hp |- *. intros y Hy. apply IH; [done|by apply Hp|].
      pose proof (list_sum_bound (fun kv => jsize kv.2) _ _ Hy). cbn [jsize] in Hf. lia. }
    pose proof (list_sum_length (fun kv : string * json F => jsize kv.2) (kv :: d)) as Hlen. cbn [length] in Hlen. cbn [jsize] in Hf.
    pose proof (members_dumps fuel d kv [] fuel rest Hp Hreads Hk ltac:(lia)) as He. cbn [app] in He.
    change ("}" +:+ rest)%string with (String "}" rest).
    assert (exists t, (join ", " (map member_text (kv :: d)) +:+ String "}" rest)%string = String "034" t) as (t & Hc).
    { destruct d; cbn [map join]; eexists; reflexivity. }
    rewrite Hc in He |- *. rewrite ws_none by done. exact He.
Qed.
End roundtrip.
