(* ===== verification/PyTime.v ===== *)
(** * Instants and the UTC calendar

    An aware [datetime] is the number of microseconds since the epoch.  The civil
    calendar is computed from the day number, as the standard library does for
    the proleptic Gregorian calendar. *)

From stdpp Require Import base option list strings pretty.
From Stdlib Require Import ZArith Lia.
From S2P Require Import Prelude PyStr PyFloat.

Local Open Scope Z_scope.

Abbreviation instant := Z (only parsing).

Definition usec_per_second : Z := 1000000.
Definition usec_per_hour : Z := 3600 * usec_per_second.
Definition usec_per_day : Z := 86400 * usec_per_second.

Definition seconds (n : Z) : Z := n * usec_per_second.
Definition hours (n : Z) : Z := n * usec_per_hour.
Definition days (n : Z) : Z := n * usec_per_day.

(** [t.timestamp()]: seconds since the epoch, as a float *)
Definition timestamp {F} `{PyFloat F} (t : instant) : F :=
  f_div (f_of_Z t) (f_of_Z usec_per_second).

Definition day_number (t : instant) : Z := t / usec_per_day.
Definition day_start (t : instant) : instant := day_number t * usec_per_day.

(** Year, month and day of a day number, counting years from March in eras of
    400 years. *)
Record civil := Civil { c_year : Z; c_month : Z; c_day : Z }.
Definition civil_of_days (d : Z) : civil :=
  let z := d + 719468 in
  let era := z / 146097 in
  let doe := z mod 146097 in
  let yoe := (doe - doe / 1460 + doe / 36524 - doe / 146096) / 365 in
  let doy := doe - (365 * yoe + yoe / 4 - yoe / 100) in
  let mp := (5 * doy + 2) / 153 in
  let day := doy - (153 * mp + 2) / 5 + 1 in
  let month := if mp <? 10 then mp + 3 else mp - 9 in
  Civil (yoe + era * 400 + (if month <=? 2 then 1 else 0)) month day.
Definition civil_of (t : instant) : civil := civil_of_days (day_number t).

Definition hour_of (t : instant) : Z := (t mod usec_per_day) / usec_per_hour.
(** [t.weekday()]: Monday is 0; the epoch was a Thursday. *)
Definition weekday (t : instant) : Z := (day_number t + 3) mod 7.

Definition pad (n : nat) (z : Z) : string :=
  let s := str_of_Z z in
  (String.concat "" (replicate (n - String.length s) "0") +:+ s)%string.

(** [strftime("%Y-%m")] *)
Definition year_month (t : instant) : string :=
  let c := civil_of t in (pad 4 (c_year c) +:+ "-" +:+ pad 2 (c_month c))%string.

Example year_month_epoch : year_month 0 = "1970-01"%string.
Proof. vm_compute. reflexivity. Qed.
(** 2026-07-14T05:08:06.566399+00:00 *)
Example year_month_2026 : year_month 1784005686566399 = "2026-07"%string.
Proof. vm_compute. reflexivity. Qed.
Example civil_leap : civil_of (days 19782) = Civil 2024 2 29.
Proof. vm_compute. reflexivity. Qed.

Lemma day_start_le (t : instant) : day_start t <= t < day_start t + usec_per_day.
Proof.
  unfold day_start, day_number.
  pose proof (Z.div_mod t usec_per_day ltac:(done)).
  pose proof (Z.mod_pos_bound t usec_per_day ltac:(done)). lia.
Qed.

Lemma hour_of_bounds (t : instant) : 0 <= hour_of t < 24.
Proof.
  unfold hour_of. pose proof (Z.mod_pos_bound t usec_per_day ltac:(done)).
  split; [apply Z.div_pos; [lia|done] | apply Z.div_lt_upper_bound; [done|]].
  unfold usec_per_day, usec_per_hour, usec_per_second in *. lia.
Qed.

Lemma weekday_bounds (t : instant) : 0 <= weekday t < 7.
Proof. by apply Z.mod_pos_bound. Qed.
