(* ===== verification/Sha256.v ===== *)
(** * SHA-256

    [hashlib.sha256(...).hexdigest()] (FIPS 180-4), on the bytes of a string.
    Words are 32-bit, as [Z] with the wrap-around written out. *)

From stdpp Require Import base option list strings.
From Stdlib Require Import ZArith Lia Ascii.
From S2P Require Import Prelude PyStr.

Local Open Scope Z_scope.

Definition w32 (x : Z) : Z := Z.land x 0xffffffff.
Definition add32 (x y : Z) : Z := w32 (x + y).
Definition rotr (n x : Z) : Z := Z.lor (Z.shiftr x n) (w32 (Z.shiftl x (32 - n))).
Definition ch (x y z : Z) : Z := Z.lxor (Z.land x y) (Z.land (Z.lxor x 0xffffffff) z).
Definition maj (x y z : Z) : Z := Z.lxor (Z.lxor (Z.land x y) (Z.land x z)) (Z.land y z).
Definition bsig0 (x : Z) : Z := Z.lxor (Z.lxor (rotr 2 x) (rotr 13 x)) (rotr 22 x).
Definition bsig1 (x : Z) : Z := Z.lxor (Z.lxor (rotr 6 x) (rotr 11 x)) (rotr 25 x).
Definition ssig0 (x : Z) : Z := Z.lxor (Z.lxor (rotr 7 x) (rotr 18 x)) (Z.shiftr x 3).
Definition ssig1 (x : Z) : Z := Z.lxor (Z.lxor (rotr 17 x) (rotr 19 x)) (Z.shiftr x 10).

(** The constants: the first 32 bits of the fractional parts of the cube roots
    and of the square roots of the first primes. *)
Definition is_prime (n : nat) : bool :=
  (1 <? n)%nat && forallb (fun d => negb (Nat.eqb (n mod d) 0)) (seq 2 (n - 2)).
Definition primes : list Z := map Z.of_nat (List.filter is_prime (seq 2 310)).

(** The largest [r] below [2^bits] with [r^3 <= n], one bit at a time. *)
Fixpoint cube_root (bits : nat) (r n : Z) : Z :=
  match bits with
  | O => r
  | S bits =>
      let r' := r + Z.shiftl 1 (Z.of_nat bits) in
      cube_root bits (if r' * r' * r' <=? n then r' else r) n
  end.
Definition K256 : list Z := map (fun p => w32 (cube_root 36 0 (Z.shiftl p 96))) (take 64 primes).
Definition H256 : list Z := map (fun p => w32 (Z.sqrt (Z.shiftl p 64))) (take 8 primes).

(** The message schedule, newest word first. *)
Fixpoint schedule (n : nat) (w : list Z) : list Z :=
  match n with
  | O => w
  | S n =>
      let t := add32 (add32 (ssig1 (nth 1 w 0)) (nth 6 w 0)) (add32 (ssig0 (nth 14 w 0)) (nth 15 w 0)) in
      schedule n (t :: w)
  end.

Fixpoint rounds (kw : list (Z * Z)) (st : list Z) : list Z :=
  match kw, st with
  | (k, w) :: kw, [a; b; c; d; e; f; g; h] =>
      let t1 := add32 (add32 (add32 h (bsig1 e)) (add32 (ch e f g) k)) w in
      let t2 := add32 (bsig0 a) (maj a b c) in
      rounds kw [add32 t1 t2; a; b; c; add32 d t1; e; f; g]
  | _, _ => st
  end.

Fixpoint words_of (bs : list Z) : list Z :=
  match bs with
  | a :: b :: c :: d :: bs => (a * 16777216 + b * 65536 + c * 256 + d) :: words_of bs
  | _ => []
  end.

Definition compress (k : list Z) (st : list Z) (block : list Z) : list Z :=
  let w := rev (schedule 48 (rev (words_of block))) in
  zip_with add32 st (rounds (zip k w) st).

Definition bytes_of (s : string) : list Z := map (fun c => Z.of_N (code c)) (String.list_ascii_of_string s).

Definition padding (len : nat) : list Z :=
  let bits := Z.of_nat len * 8 in
  let zeros := ((64 - (len + 9) mod 64) mod 64)%nat in
  (128 :: replicate zeros 0) ++
  map (fun i => Z.land (Z.shiftr bits (8 * i)) 255) [7; 6; 5; 4; 3; 2; 1; 0].

Fixpoint blocks (fuel : nat) (k : list Z) (bs : list Z) (st : list Z) : list Z :=
  match fuel, bs with
  | S fuel, _ :: _ => blocks fuel k (drop 64 bs) (compress k st (take 64 bs))
  | _, _ => st
  end.

Definition hex_digit (n : Z) : ascii := ascii_of_N (Z.to_N (if n <? 10 then 48 + n else 87 + n)).
Fixpoint hex (digits : nat) (w : Z) (acc : string) : string :=
  match digits with
  | O => acc
  | S n => hex n (Z.shiftr w 4) (String (hex_digit (Z.land w 15)) acc)
  end.

(** Every block consumes 64 bytes of a padded message of length a multiple of
    64, so the message length bounds the number of blocks. *)
Definition sha256_hex (s : string) : string :=
  let bs := bytes_of s in
  let msg := bs ++ padding (length bs) in
  String.concat EmptyString (map (fun w => hex 8 w EmptyString) (blocks (length msg) K256 msg H256)).

Example sha256_abc :
  sha256_hex "abc" = "ba7816bf8f01cfea414140de5dae2223b00361a396177a9cb410ff61f20015ad"%string.
Proof. vm_compute. reflexivity. Qed.
Example sha256_two_blocks :
  sha256_hex "abcdbcdecdefdefgefghfghighijhijkijkljklmklmnlmnomnopnopq"
  = "248d6a61d20638b8e5c026930c3e6039a33ce45964ff2167f6ecedd419db06c1"%string.
Proof. vm_compute. reflexivity. Qed.

(** A digest is never empty. *)
Lemma rounds_length kw st : length st = 8%nat -> length (rounds kw st) = 8%nat.
Proof.
  revert st. induction kw as [|[k w] kw IH]; intros st Hs; [done|].
  do 9 (destruct st as [|? st]; try discriminate Hs). apply IH. done.
Qed.
Lemma blocks_length fuel k bs st : length st = 8%nat -> length (blocks fuel k bs st) = 8%nat.
Proof.
  revert bs st. induction fuel as [|fuel IH]; intros [|b bs] st Hs; try done. apply IH.
  unfold compress. rewrite length_zip_with, rounds_length by done. lia.
Qed.
Lemma hex_cons n w acc : acc <> EmptyString -> hex n w acc <> EmptyString.
Proof. revert w acc. induction n as [|n IH]; intros w acc Ha; [done|]. by apply IH. Qed.
Lemma sha256_hex_nonempty s : sha256_hex s <> EmptyString.
Proof.
  unfold sha256_hex.
  match goal with |- context [blocks ?f ?k ?m ?st] => assert (length (blocks f k m st) = 8%nat) as Hl
    by (apply blocks_length; vm_compute; reflexivity); destruct (blocks f k m st) as [|w ws]; [discriminate Hl|] end.
  change (map (fun w => hex 8 w EmptyString) (w :: ws)) with (hex 8 w EmptyString :: map (fun w => hex 8 w EmptyString) ws).
  assert (hex 8 w EmptyString <> EmptyString) as Hh by (apply (hex_cons 7); done).
  destruct (hex 8 w EmptyString); [done|]. by destruct (map _ ws).
Qed.
