(* ===== verification/Effects.v ===== *)
(** * Programs with effects

    The controllers of the memory service talk to databases, services, files and the
    clock, and what they may do next depends on what they were told.  Such a function is
    a tree of actions: [POp a k] performs [a] and goes on with [k] applied to the answer,
    which is a value or an exception.  A loop is unrolled as often as its fuel says and then
    is [PHalt], a run cut off there: what holds for every fuel holds of the loop.  Nothing is assumed of the answers, so a theorem
    about all runs holds whatever the outside does, and a process that dies is a run that
    stops at an inner node.

    [wp] is the weakest precondition: every action the program performs satisfies the
    guard [G] in the history of that moment, and a run that ends satisfies [Q]. *)

From stdpp Require Import base option list strings.
From Stdlib Require Import Lia.
From S2P Require Import Prelude.

Class Effect := { action : Type; answer : action -> Type }.

Section effects.
Context {E : Effect}.

Inductive prog (A : Type) : Type :=
  | PRet (r : result A)
  | POp (a : action) (k : result (answer a) -> prog A)
  | PHalt.
Arguments PRet {A} r.
Arguments POp {A} a k.
Arguments PHalt {A}.

(** Go on with the value or the exception of a program. *)
Fixpoint pbind {A B} (p : prog A) (f : result A -> prog B) : prog B :=
  match p with
  | PRet r => f r
  | POp a k => POp a (fun r => pbind (k r) f)
  | PHalt => PHalt
  end.

#[global] Instance prog_ret : MRet prog := fun A a => PRet (Ok a).
#[global] Instance prog_bind : MBind prog := fun A B f p =>
  pbind p (fun r => match r with Ok a => f a | Raise e => PRet (Raise e) end).

Definition act (a : action) : prog (answer a) := POp a PRet.
Definition raise {A} (e : exn) : prog A := PRet (Raise e).

(** [except Exception] does not catch what derives from [BaseException] only. *)
Definition is_exception (e : exn) : bool :=
  match e with
  | SystemExit _ => false
  | OtherError c _ => negb (bool_decide (c = "CancelledError"%string))
  | _ => true
  end.

(** [try: p except Exception as e: h(e)] *)
Definition try_ {A} (p : prog A) (h : exn -> prog A) : prog A :=
  pbind p (fun r => match r with
                    | Raise e => if is_exception e then h e else PRet r
                    | Ok _ => PRet r
                    end).
(** [with contextlib.suppress(Exception): p] *)
Definition suppress (p : prog unit) : prog unit := try_ p (fun _ => mret tt).
(** The result of a program as a value, exceptions included. *)
Definition attempt {A} (p : prog A) : prog (result A) :=
  pbind p (fun r => match r with
                    | Raise e => if is_exception e then mret (Raise e) else PRet (Raise e)
                    | Ok a => mret (Ok a)
                    end).
(** [try: p finally: c] *)
Definition finally {A} (p : prog A) (c : prog unit) : prog A :=
  pbind p (fun r => pbind c (fun r' => match r' with Ok _ => PRet r | Raise e => PRet (Raise e) end)).

(** [for x in l: body(x)] *)
Fixpoint each {A} (l : list A) (body : A -> prog unit) : prog unit :=
  match l with
  | [] => mret tt
  | x :: l => body x;; each l body
  end.

(** ** Runs *)

Record event := Ev { ev_action : action; ev_answer : result (answer ev_action) }.
(** Newest event first. *)
Definition hist := list event.

(** [steps p h p' h']: what is left of [p] after some actions is [p']. *)
Inductive steps {A} : prog A -> hist -> prog A -> hist -> Prop :=
  | steps_refl p h : steps p h p h
  | steps_op a k r h p' h' :
      steps (k r) (Ev a r :: h) p' h' -> steps (POp a k) h p' h'.
Definition runs {A} (p : prog A) (h h' : hist) (r : result A) : Prop := steps p h (PRet r) h'.

Lemma runs_ret {A} (r r' : result A) h h' : runs (PRet r) h h' r' <-> r' = r /\ h' = h.
Proof.
  unfold runs. split; [inversion 1; naive_solver|]. intros [-> ->]. constructor.
Qed.
Lemma runs_op {A} a (k : result (answer a) -> prog A) r h h' r' :
  runs (k r) (Ev a r :: h) h' r' -> runs (POp a k) h h' r'.
Proof. intros. by eapply steps_op. Qed.

Lemma runs_pbind {A B} (p : prog A) (f : result A -> prog B) h h1 h2 r r' :
  runs p h h1 r -> runs (f r) h1 h2 r' -> runs (pbind p f) h h2 r'.
Proof.
  unfold runs. intros Hp. remember (PRet r) as q eqn:Eq. induction Hp; intros Hf; subst; simpl.
  - done.
  - eapply steps_op. by apply IHHp.
Qed.

(** A handler answers the actions from a state of the outside world. *)
Fixpoint exec {S A} (handler : forall a, S -> result (answer a) * S) (p : prog A) (s : S) (h : hist)
    : option (result A) * S * hist :=
  match p with
  | PRet r => (Some r, s, h)
  | POp a k => let '(r, s) := handler a s in exec handler (k r) s (Ev a r :: h)
  | PHalt => (None, s, h)
  end.

Lemma exec_runs {S A} (handler : forall a, S -> result (answer a) * S) (p : prog A) s h r :
  (exec handler p s h).1.1 = Some r -> runs p h (exec handler p s h).2 r.
Proof.
  revert s h. induction p as [r'|a k IH|]; intros s h; simpl; [intros [= ->]; constructor| |done].
  destruct (handler a s) as [r' s'] eqn:Eh. intros Hr. by eapply runs_op, IH.
Qed.

(** What is left of a program when its next action is one that [stop] names. *)
Fixpoint reach {S A} (stop : action -> bool) (handler : forall a, S -> result (answer a) * S)
    (p : prog A) (s : S) (h : hist) : prog A * hist :=
  match p with
  | POp a k =>
      if stop a then (p, h)
      else let '(r, s) := handler a s in reach stop handler (k r) s (Ev a r :: h)
  | _ => (p, h)
  end.
Definition next_action {A} (p : prog A) : option action :=
  match p with POp a _ => Some a | _ => None end.

Lemma reach_steps {S A} stop (handler : forall a, S -> result (answer a) * S) (p : prog A) s h :
  steps p h (reach stop handler p s h).1 (reach stop handler p s h).2.
Proof.
  revert s h. induction p as [r|a k IH|]; intros s h; simpl; try constructor.
  destruct (stop a); [constructor|]. destruct (handler a s) as [r s']. eapply steps_op, IH.
Qed.
Lemma reach_performs {S A} stop (handler : forall a, S -> result (answer a) * S) (p : prog A) s h a :
  next_action (reach stop handler p s h).1 = Some a ->
  exists k, steps p h (POp a k) (reach stop handler p s h).2.
Proof.
  intros Ha. pose proof (reach_steps stop handler p s h) as Hs.
  destruct (reach stop handler p s h).1 as [r|b k|]; try discriminate Ha.
  injection Ha as <-. by exists k.
Qed.

(** ** Weakest preconditions *)

Fixpoint wp {A} (G : hist -> action -> Prop) (p : prog A) (h : hist)
    (Q : hist -> result A -> Prop) : Prop :=
  match p with
  | PRet r => Q h r
  | POp a k => G h a /\ forall r, wp G (k r) (Ev a r :: h) Q
  | PHalt => True
  end.

Lemma wp_pbind {A B} G (p : prog A) (f : result A -> prog B) h Q :
  wp G (pbind p f) h Q <-> wp G p h (fun h r => wp G (f r) h Q).
Proof.
  revert h. induction p as [r|a k IH|]; intros h; simpl; [done| |done].
  split; intros [Hg Hk]; (split; [done|]); intros r; by apply IH.
Qed.
Lemma wp_mono {A} (G G' : hist -> action -> Prop) (p : prog A) h (Q Q' : hist -> result A -> Prop) :
  (forall h a, G h a -> G' h a) -> (forall h r, Q h r -> Q' h r) -> wp G p h Q -> wp G' p h Q'.
Proof.
  intros HG HQ. revert h. induction p as [r|a k IH|]; intros h; simpl; [by apply HQ| |done].
  intros [Hg Hk]. split; [by apply HG|]. intros r. by apply IH.
Qed.
Lemma wp_post {A} G (p : prog A) h (Q Q' : hist -> result A -> Prop) :
  wp G p h Q -> (forall h r, Q h r -> Q' h r) -> wp G p h Q'.
Proof. intros. by eapply wp_mono. Qed.
Lemma wp_and {A} G (p : prog A) h (Q Q' : hist -> result A -> Prop) :
  wp G p h Q -> wp G p h Q' -> wp G p h (fun h r => Q h r /\ Q' h r).
Proof.
  revert h. induction p as [r|a k IH|]; intros h; simpl; [done| |done].
  intros [Hg Hk] [_ Hk']. split; [done|]. intros r. by apply IH.
Qed.

(** The rules of the composed forms. *)
Lemma wp_bind {A B} G (p : prog A) (f : A -> prog B) h Q :
  wp G p h (fun h r => match r with Ok a => wp G (f a) h Q | Raise e => Q h (Raise e) end) ->
  wp G (x ← p; f x) h Q.
Proof. intros Hp. apply wp_pbind. eapply wp_post; [exact Hp|]. by intros h' [a|e]. Qed.
Lemma wp_try {A} G (p : prog A) c h Q :
  wp G p h (fun h r => match r with
                       | Raise e => if is_exception e then wp G (c e) h Q else Q h r
                       | Ok _ => Q h r
                       end) ->
  wp G (try_ p c) h Q.
Proof.
  intros Hp. apply wp_pbind. eapply wp_post; [exact Hp|]. intros h' [a|e]; [done|].
  by destruct (is_exception e).
Qed.
Lemma wp_finally {A} G (p : prog A) c h Q :
  wp G p h (fun h r => wp G c h (fun h r' => match r' with Ok _ => Q h r | Raise e => Q h (Raise e) end)) ->
  wp G (finally p c) h Q.
Proof.
  intros Hp. apply wp_pbind. eapply wp_post; [exact Hp|]. intros h' r Hc. apply wp_pbind.
  eapply wp_post; [exact Hc|]. by intros h'' [u|e].
Qed.
Lemma wp_attempt {A} G (p : prog A) h Q :
  wp G p h (fun h r => match r with
                       | Raise e => if is_exception e then Q h (Ok (Raise e)) else Q h (Raise e)
                       | Ok a => Q h (Ok (Ok a))
                       end) ->
  wp G (attempt p) h Q.
Proof.
  intros Hp. apply wp_pbind. eapply wp_post; [exact Hp|]. intros h' [a|e]; [done|].
  by destruct (is_exception e).
Qed.
Lemma wp_act G a h (Q : hist -> result (answer a) -> Prop) :
  G h a -> (forall r, Q (Ev a r :: h) r) -> wp G (act a) h Q.
Proof. by split. Qed.

(** Every action of a run is guarded, and its end is as promised. *)
Lemma wp_steps {A} G (p p' : prog A) h h' Q : wp G p h Q -> steps p h p' h' -> wp G p' h' Q.
Proof.
  intros Hw Hs. induction Hs as [|a k r h p' h' Hs IH]; [done|]. apply IH, Hw.
Qed.
Lemma wp_guard {A} G (p : prog A) h Q a k h' : wp G p h Q -> steps p h (POp a k) h' -> G h' a.
Proof. intros Hw Hs. by apply (wp_steps _ _ _ _ _ _ Hw Hs). Qed.
Lemma wp_runs {A} G (p : prog A) h Q h' r : wp G p h Q -> runs p h h' r -> Q h' r.
Proof. intros Hw Hs. by apply (wp_steps _ _ _ _ _ _ Hw Hs). Qed.

(** ** Programs whose actions are all of one kind *)

Definition only {A} (P : action -> Prop) (p : prog A) : Prop :=
  forall h, wp (fun _ a => P a) p h (fun _ _ => True).

Lemma only_ret {A} P (r : result A) : only P (PRet r).
Proof. by intros h. Qed.
Lemma only_halt {A} P : only P (PHalt : prog A).
Proof. by intros h. Qed.
Lemma only_act P a : P a -> only P (act a).
Proof. by intros Ha h. Qed.
Lemma only_op {A} P a (k : result (answer a) -> prog A) : P a -> (forall r, only P (k r)) -> only P (POp a k).
Proof. intros Ha Hk h. split; [done|]. intros r. apply Hk. Qed.
Lemma only_pbind {A B} P (p : prog A) (f : result A -> prog B) :
  only P p -> (forall r, only P (f r)) -> only P (pbind p f).
Proof.
  intros Hp Hf h. apply wp_pbind. eapply wp_post; [apply Hp|]. intros h' r _. apply Hf.
Qed.
Lemma only_bind {A B} P (p : prog A) (f : A -> prog B) :
  only P p -> (forall a, only P (f a)) -> only P (x ← p; f x).
Proof. intros Hp Hf. apply only_pbind; [done|]. intros [a|e]; [apply Hf|apply only_ret]. Qed.
Lemma only_try {A} P (p : prog A) c : only P p -> (forall e, only P (c e)) -> only P (try_ p c).
Proof.
  intros Hp Hc. apply only_pbind; [done|]. intros [a|e]; [apply only_ret|].
  destruct (is_exception e); [apply Hc|apply only_ret].
Qed.
Lemma only_suppress P (p : prog unit) : only P p -> only P (suppress p).
Proof. intros. apply only_try; [done|]. intros. apply only_ret. Qed.
Lemma only_finally {A} P (p : prog A) c : only P p -> only P c -> only P (finally p c).
Proof.
  intros Hp Hc. apply only_pbind; [done|]. intros r. apply only_pbind; [done|].
  intros [u|e]; apply only_ret.
Qed.
Lemma only_attempt {A} P (p : prog A) : only P p -> only P (attempt p).
Proof.
  intros Hp. apply only_pbind; [done|]. intros [a|e]; [apply only_ret|].
  destruct (is_exception e); apply only_ret.
Qed.
Lemma only_each {A} P (l : list A) body : (forall x, only P (body x)) -> only P (each l body).
Proof.
  intros Hb. induction l as [|x l IH]; [apply only_ret|]. apply only_bind; [done|]. by intros [].
Qed.
Lemma only_mono {A} (P P' : action -> Prop) (p : prog A) : (forall a, P a -> P' a) -> only P p -> only P' p.
Proof. intros HP Hp h. eapply wp_mono; [|done|apply Hp]. eauto. Qed.

(** What such a program leaves behind: a run of itself, all events of that kind. *)
Lemma wp_only_gen {A} P G (p : prog A) h0 h (Q : hist -> result A -> Prop) :
  wp (fun _ a => P a) p h0 (fun _ _ => True) ->
  (forall h a, P a -> G h a) ->
  (forall evs r, Forall (fun e => P (ev_action e)) evs -> runs p h (evs ++ h) r -> Q (evs ++ h) r) ->
  wp G p h Q.
Proof.
  intros Hp HG HQ. revert h0 h Hp HQ. induction p as [r|a k IH|]; intros h0 h Hp HQ; simpl in *.
  - apply (HQ []); [done|constructor].
  - destruct Hp as [Ha Hk]. split; [by apply HG|]. intros r. apply (IH r (Ev a r :: h0)); [done|].
    intros evs r' Hf Hr. replace (evs ++ Ev a r :: h) with ((evs ++ [Ev a r]) ++ h) in * by (by rewrite <- app_assoc).
    apply HQ; [|by eapply runs_op]. apply Forall_app. by split; [|repeat constructor].
  - done.
Qed.
Lemma wp_only {A} P G (p : prog A) h (Q : hist -> result A -> Prop) :
  only P p -> (forall h a, P a -> G h a) ->
  (forall evs r, Forall (fun e => P (ev_action e)) evs -> runs p h (evs ++ h) r -> Q (evs ++ h) r) ->
  wp G p h Q.
Proof. intros Hp. apply wp_only_gen with (h0 := h), Hp. Qed.

(** What is stable under longer histories stays true. *)
Lemma wp_stable {A} (K : hist -> Prop) (p : prog A) h :
  (forall e h, K h -> K (e :: h)) -> K h -> wp (fun _ _ => True) p h (fun h' _ => K h').
Proof.
  intros HK. revert h. induction p as [r|a k IH|]; intros h Hh; simpl; [done| |done].
  split; [done|]. intros r. apply IH, HK, Hh.
Qed.
(** What follows is harmless: only the first part matters for the guard. *)
Lemma wp_then {A B} P G (p : prog A) (f : result A -> prog B) h :
  (forall h a, P a -> G h a) -> (forall r, only P (f r)) ->
  wp G p h (fun _ _ => True) -> wp G (pbind p f) h (fun _ _ => True).
Proof.
  intros HG Hf Hp. apply wp_pbind. eapply wp_post; [exact Hp|]. intros h' r _.
  eapply wp_mono; [|done|apply Hf]. auto.
Qed.

Lemma only_steps {A} P (p p' : prog A) h h' : only P p -> steps p h p' h' ->
  exists evs, h' = evs ++ h /\ Forall (fun e => P (ev_action e)) evs.
Proof.
  intros Hp Hs. assert (wp (fun _ a => P a) p h (fun _ _ => True)) as Hw by apply Hp. clear Hp.
  induction Hs as [p h|a k r h p' h' Hs IH]; [by exists []|].
  destruct Hw as [Ha Hk]. destruct (IH (Hk r)) as (evs & -> & Hf).
  exists (evs ++ [Ev a r]). rewrite <- app_assoc. split; [done|].
  apply Forall_app. by split; [|repeat constructor].
Qed.
Lemma only_performs {A} P (p : prog A) h h' a k : only P p -> steps p h (POp a k) h' -> P a.
Proof. intros Hp Hs. apply (wp_guard _ _ _ _ _ _ _ (Hp h) Hs). Qed.

(** ** Invariants of the history

    Every action is guarded where [I] holds, and [I] holds again at the end. *)

Definition keeps {A} (G : hist -> action -> Prop) (I : hist -> Prop) (p : prog A) : Prop :=
  forall h, I h -> wp G p h (fun h' _ => I h').

Section keeps.
Context (G : hist -> action -> Prop) (I : hist -> Prop).

Lemma keeps_ret {A} (r : result A) : keeps G I (PRet r).
Proof. by intros h. Qed.
Lemma keeps_halt {A} : keeps G I (PHalt : prog A).
Proof. by intros h. Qed.
Lemma keeps_act a : (forall h, I h -> G h a) -> (forall h r, I h -> I (Ev a r :: h)) -> keeps G I (act a).
Proof. intros Hg Hi h Hh. split; [by apply Hg|]. intros r. by apply Hi. Qed.
Lemma keeps_pbind {A B} (p : prog A) (f : result A -> prog B) :
  keeps G I p -> (forall r, keeps G I (f r)) -> keeps G I (pbind p f).
Proof.
  intros Hp Hf h Hh. apply wp_pbind. eapply wp_post; [by apply Hp|]. intros h' r Hh'. by apply Hf.
Qed.
Lemma keeps_bind {A B} (p : prog A) (f : A -> prog B) :
  keeps G I p -> (forall a, keeps G I (f a)) -> keeps G I (x ← p; f x).
Proof. intros Hp Hf. apply keeps_pbind; [done|]. intros [a|e]; [apply Hf|apply keeps_ret]. Qed.
Lemma keeps_try {A} (p : prog A) c : keeps G I p -> (forall e, keeps G I (c e)) -> keeps G I (try_ p c).
Proof.
  intros Hp Hc. apply keeps_pbind; [done|]. intros [a|e]; [apply keeps_ret|].
  destruct (is_exception e); [apply Hc|apply keeps_ret].
Qed.
Lemma keeps_suppress (p : prog unit) : keeps G I p -> keeps G I (suppress p).
Proof. intros. apply keeps_try; [done|]. intros. apply keeps_ret. Qed.
Lemma keeps_attempt {A} (p : prog A) : keeps G I p -> keeps G I (attempt p).
Proof.
  intros Hp. apply keeps_pbind; [done|]. intros [a|e]; [apply keeps_ret|].
  destruct (is_exception e); apply keeps_ret.
Qed.
Lemma keeps_each {A} (l : list A) body : (forall x, keeps G I (body x)) -> keeps G I (each l body).
Proof.
  intros Hb. induction l as [|x l IH]; [apply keeps_ret|]. apply keeps_bind; [done|]. by intros [].
Qed.
Lemma keeps_finally {A} (p : prog A) c : keeps G I p -> keeps G I c -> keeps G I (finally p c).
Proof.
  intros Hp Hc. apply keeps_pbind; [done|]. intros r. apply keeps_pbind; [done|].
  intros [u|e]; apply keeps_ret.
Qed.
Lemma keeps_only {A} P (p : prog A) :
  only P p -> (forall h a, I h -> P a -> G h a) -> (forall h a r, I h -> P a -> I (Ev a r :: h)) ->
  keeps G I p.
Proof.
  intros Hp Hg Hi h Hh. specialize (Hp h). revert h Hh Hp.
  induction p as [r|a k IH|]; intros h Hh Hp; simpl in *; [done| |done].
  destruct Hp as [Ha Hk]. split; [by apply Hg|]. intros r. apply IH; [by apply Hi|apply Hk].
Qed.
End keeps.

(** ** Runs that are cut off

    [halts X p h Q]: a run that is cut off satisfies [X], one that ends satisfies [Q]. *)

Fixpoint halts {A} (X : hist -> Prop) (p : prog A) (h : hist) (Q : hist -> result A -> Prop) : Prop :=
  match p with
  | PRet r => Q h r
  | POp a k => forall r, halts X (k r) (Ev a r :: h) Q
  | PHalt => X h
  end.
Lemma halts_pbind {A B} X (p : prog A) (f : result A -> prog B) h Q :
  halts X (pbind p f) h Q <-> halts X p h (fun h r => halts X (f r) h Q).
Proof.
  revert h. induction p as [r|a k IH|]; intros h; simpl; [done| |done].
  split; intros Hk r; by apply IH.
Qed.
Lemma halts_mono {A} (X X' : hist -> Prop) (p : prog A) h (Q Q' : hist -> result A -> Prop) :
  (forall h, X h -> X' h) -> (forall h r, Q h r -> Q' h r) -> halts X p h Q -> halts X' p h Q'.
Proof.
  intros HX HQ. revert h. induction p as [r|a k IH|]; intros h; simpl; [by apply HQ| |by apply HX].
  intros Hk r. by apply IH.
Qed.
Lemma halts_post {A} X (p : prog A) h (Q Q' : hist -> result A -> Prop) :
  halts X p h Q -> (forall h r, Q h r -> Q' h r) -> halts X p h Q'.
Proof. intros Hp HQ. by eapply halts_mono; [|exact HQ|exact Hp]. Qed.
Lemma halts_bind {A B} X (p : prog A) (f : A -> prog B) h Q :
  halts X p h (fun h r => match r with Ok a => halts X (f a) h Q | Raise e => Q h (Raise e) end) ->
  halts X (x ← p; f x) h Q.
Proof. intros Hp. apply halts_pbind. eapply halts_post; [exact Hp|]. by intros h' [a|e]. Qed.
Lemma halts_steps {A} X (p : prog A) h Q h' : halts X p h Q -> steps p h PHalt h' -> X h'.
Proof.
  intros Hh Hs. remember PHalt as q eqn:Eq. induction Hs as [p h|a k r h p' h' Hs IH]; subst; [done|].
  apply IH; [apply Hh|done].
Qed.

(** Programs without a loop that can be cut off, whose actions are all of one kind *)
Definition sure {A} (P : action -> Prop) (p : prog A) : Prop :=
  only P p /\ forall h, halts (fun _ => False) p h (fun _ _ => True).
Lemma sure_ret {A} P (r : result A) : sure P (PRet r).
Proof. by split. Qed.
Lemma sure_act P a : P a -> sure P (act a).
Proof. intros Ha. split; [by apply only_act|done]. Qed.
Lemma sure_pbind {A B} P (p : prog A) (f : result A -> prog B) :
  sure P p -> (forall r, sure P (f r)) -> sure P (pbind p f).
Proof.
  intros [Hp Hp'] Hf. split; [apply only_pbind; [done|]; intros r; apply Hf|].
  intros h. apply halts_pbind. eapply halts_post; [apply Hp'|]. intros h' r _. apply Hf.
Qed.
Lemma sure_bind {A B} P (p : prog A) (f : A -> prog B) :
  sure P p -> (forall a, sure P (f a)) -> sure P (x ← p; f x).
Proof. intros Hp Hf. apply sure_pbind; [done|]. intros [a|e]; [apply Hf|apply sure_ret]. Qed.
Lemma sure_finally {A} P (p : prog A) c : sure P p -> sure P c -> sure P (finally p c).
Proof.
  intros Hp Hc. apply sure_pbind; [done|]. intros r. apply sure_pbind; [done|].
  intros [u|e]; apply sure_ret.
Qed.
Lemma sure_suppress P (p : prog unit) : sure P p -> sure P (suppress p).
Proof.
  intros Hp. apply sure_pbind; [done|]. intros [u|e]; [apply sure_ret|].
  destruct (is_exception e); apply sure_ret.
Qed.
Lemma halts_sure {A} P X (p : prog A) h (Q : hist -> result A -> Prop) :
  sure P p -> (forall evs r, Forall (fun e => P (ev_action e)) evs -> Q (evs ++ h) r) -> halts X p h Q.
Proof.
  intros [Hp Hh] HQ. specialize (Hp h). specialize (Hh h). revert h Hp Hh HQ.
  induction p as [r|a k IH|]; intros h Hp Hh HQ; simpl in *; [by apply (HQ [])| |done].
  destruct Hp as [Ha Hk]. intros r. apply IH; [done..|]. intros evs r' Hf.
  replace (evs ++ Ev a r :: h) with ((evs ++ [Ev a r]) ++ h) by (by rewrite <- app_assoc).
  apply HQ, Forall_app. by split; [|repeat constructor].
Qed.

(** What the answers so far say may be assumed, when later histories say no less. *)
Lemma wp_given {A} (C : hist -> Prop) G (p : prog A) h (Q : hist -> result A -> Prop) :
  (forall e h, C (e :: h) -> C h) -> (C h -> wp G p h Q) ->
  wp (fun h a => C h -> G h a) p h (fun h r => C h -> Q h r).
Proof.
  intros HC. revert h. induction p as [r|a k IH|]; intros h Hw; simpl in *; [done| |done].
  split; [intros Hh; apply Hw, Hh|]. intros r. apply IH. intros Hh. apply Hw, (HC (Ev a r)), Hh.
Qed.
(** Guarded actions keep an invariant of the history. *)
Lemma wp_invariant {A} (I : hist -> Prop) G (p p' : prog A) h h' Q :
  (forall h a r, I h -> G h a -> I (Ev a r :: h)) ->
  wp G p h Q -> steps p h p' h' -> I h -> I h'.
Proof.
  intros HI Hw Hs. induction Hs as [|a k r h p' h' Hs IH]; [done|]. intros Hh.
  apply IH; [apply Hw|]. apply HI; [done|apply Hw].
Qed.

(** Runs that end well *)
Definition wpo {A} (G : hist -> action -> Prop) (p : prog A) (h : hist) (Q : hist -> A -> Prop) : Prop :=
  wp G p h (fun h r => match r with Ok a => Q h a | Raise _ => True end).
Lemma wpo_ret {A} G (r : result A) h Q : (forall a, r = Ok a -> Q h a) -> wpo G (PRet r) h Q.
Proof. intros HQ. unfold wpo. simpl. destruct r; auto. Qed.
Lemma wpo_mret {A} G (a : A) h (Q : hist -> A -> Prop) : Q h a -> wpo G (mret a) h Q.
Proof. done. Qed.
Lemma wpo_bind {A B} G (p : prog A) (f : A -> prog B) h Q :
  wpo G p h (fun h a => wpo G (f a) h Q) -> wpo G (x ← p; f x) h Q.
Proof. intros Hp. apply wp_bind. eapply wp_post; [exact Hp|]. by intros h' [a|e]. Qed.
Lemma wpo_act G a h (Q : hist -> answer a -> Prop) :
  G h a -> (forall v, Q (Ev a (Ok v) :: h) v) -> wpo G (act a) h Q.
Proof. intros HG HQ. split; [done|]. intros [v|e]; [apply HQ|done]. Qed.
Lemma wpo_post {A} G (p : prog A) h (Q Q' : hist -> A -> Prop) :
  wpo G p h Q -> (forall h a, Q h a -> Q' h a) -> wpo G p h Q'.
Proof. intros Hp HQ. eapply wp_post; [exact Hp|]. intros h' [a|e]; auto. Qed.
Lemma wpo_only {A} P G (p : prog A) h (Q : hist -> A -> Prop) :
  only P p -> (forall h a, P a -> G h a) ->
  (forall evs a, Forall (fun e => P (ev_action e)) evs -> runs p h (evs ++ h) (Ok a) -> Q (evs ++ h) a) ->
  wpo G p h Q.
Proof. intros Hp HG HQ. eapply wp_only; [exact Hp|exact HG|]. intros evs [a|e]; auto. Qed.

(** What a program returns, whatever the answers *)
Definition yields {A} (p : prog A) (P : A -> Prop) : Prop :=
  forall h, wpo (fun _ _ => True) p h (fun _ a => P a).
Lemma yields_ret {A} (r : result A) (P : A -> Prop) : (forall a, r = Ok a -> P a) -> yields (PRet r) P.
Proof. intros HP h. apply wpo_ret, HP. Qed.
Lemma yields_mret {A} (a : A) (P : A -> Prop) : P a -> yields (mret a) P.
Proof. by intros HP h. Qed.
Lemma yields_raise {A} e (P : A -> Prop) : yields (raise e) P.
Proof. by intros h. Qed.
Lemma yields_any {A} (p : prog A) : yields p (fun _ => True).
Proof. intros h. eapply wp_post; [by apply (wp_stable (fun _ => True))|]. by intros h' [a|e]. Qed.
Lemma yields_bind {A B} (p : prog A) (f : A -> prog B) (P : A -> Prop) (Q : B -> Prop) :
  yields p P -> (forall a, P a -> yields (f a) Q) -> yields (x ← p; f x) Q.
Proof. intros Hp Hf h. apply wpo_bind. eapply wpo_post; [apply Hp|]. intros h' a Ha. by apply Hf. Qed.
Lemma yields_then {A B} (p : prog A) (f : A -> prog B) (Q : B -> Prop) :
  (forall a, yields (f a) Q) -> yields (x ← p; f x) Q.
Proof. intros Hf. eapply yields_bind; [apply yields_any|]. intros a _. apply Hf. Qed.
Lemma yields_pure {A B} (r : result A) (f : A -> prog B) (Q : B -> Prop) :
  (forall a, r = Ok a -> yields (f a) Q) -> yields (x ← PRet r; f x) Q.
Proof. intros Hf. eapply yields_bind; [by apply (yields_ret r (fun a => r = Ok a))|exact Hf]. Qed.
Lemma wp_guard_post {A} G G' (p : prog A) h (Q Q' : hist -> result A -> Prop) :
  wp G p h Q -> wp G' p h Q' -> wp G p h Q'.
Proof.
  revert h. induction p as [r|a k IH|]; intros h; simpl; [done| |done].
  intros [Hg Hk] [_ Hk']. split; [done|]. intros r. by apply IH.
Qed.
Lemma only_yields {A B} P (p : prog A) (f : A -> prog B) (Q : A -> Prop) :
  only P p -> yields p Q -> (forall a, Q a -> only P (f a)) -> only P (x ← p; f x).
Proof.
  intros Hp Hq Hf h. apply wp_bind. eapply wp_post; [eapply wp_guard_post; [apply Hp|apply Hq]|].
  intros h' [a|e] Ha; [by apply Hf|done].
Qed.
Lemma yields_mono {A} (p : prog A) (P Q : A -> Prop) : (forall a, P a -> Q a) -> yields p P -> yields p Q.
Proof. intros HPQ Hp h. eapply wpo_post; [apply Hp|]. auto. Qed.
Lemma wpo_only_yields {A} P R G (p : prog A) h (Q : hist -> A -> Prop) :
  only P p -> yields p R -> (forall h a, P a -> G h a) ->
  (forall evs a, Forall (fun e => P (ev_action e)) evs -> runs p h (evs ++ h) (Ok a) -> R a -> Q (evs ++ h) a) ->
  wpo G p h Q.
Proof.
  intros Hp HR HG HQ. eapply wpo_only; [exact Hp|exact HG|]. intros evs a He Hr. apply HQ; [done|done|].
  exact (wp_runs _ _ _ _ _ _ (HR h) Hr).
Qed.

(** [happened P h]: some event of the history satisfies [P]. *)
Definition happened (P : event -> Prop) (h : hist) : Prop := Exists P h.
Lemma happened_here P e h : P e -> happened P (e :: h).
Proof. by left. Qed.
Lemma happened_later P e h : happened P h -> happened P (e :: h).
Proof. by right. Qed.
Lemma happened_app P evs h : happened P h -> happened P (evs ++ h).
Proof. intros. apply Exists_app. by right. Qed.
End effects.
Arguments PRet {E A} r.
Arguments POp {E A} a k.
Arguments PHalt {E A}.

Create HintDb effects discriminated.
#[export] Hint Resolve only_ret only_halt only_act only_bind only_try only_suppress only_finally only_each only_op : effects.
#[export] Hint Resolve happened_here happened_later happened_app : effects.

(** Split the actions of a program that is a nest of binds, tests and matches. *)
Ltac only_step :=
  match goal with
  | |- only _ (PRet _) => apply only_ret
  | |- only _ (raise _) => apply only_ret
  | |- only _ PHalt => apply only_halt
  | |- only _ (mret _) => apply only_ret
  | |- only _ (act _) => apply only_act
  | |- only _ (mbind _ _) => apply only_bind; [|intros ?; cbv beta]
  | |- only _ (try_ _ _) => apply only_try; [|intros ?; cbv beta]
  | |- only _ (suppress _) => apply only_suppress
  | |- only _ (finally _ _) => apply only_finally
  | |- only _ (attempt _) => apply only_attempt
  | |- only _ (each _ _) => apply only_each; intros ?; cbv beta
  | |- only _ (if ?b then _ else _) => destruct b
  | |- only _ (match ?x with _ => _ end) => destruct x
  end.
Ltac sure_step :=
  match goal with
  | |- sure _ (PRet _) => apply sure_ret
  | |- sure _ (raise _) => apply sure_ret
  | |- sure _ (mret _) => apply sure_ret
  | |- sure _ (act _) => apply sure_act
  | |- sure _ (mbind _ _) => apply sure_bind; [|intros ?; cbv beta]
  | |- sure _ (suppress _) => apply sure_suppress
  | |- sure _ (finally _ _) => apply sure_finally
  | |- sure _ (pbind _ _) => apply sure_pbind; [|intros ?; cbv beta]
  | |- sure _ (if ?b then _ else _) => destruct b
  | |- sure _ (match ?x with _ => _ end) => destruct x
  end.
Ltac sure_auto := repeat sure_step; try done; auto with effects.
Ltac keeps_step :=
  match goal with
  | |- keeps _ _ (PRet _) => apply keeps_ret
  | |- keeps _ _ (raise _) => apply keeps_ret
  | |- keeps _ _ PHalt => apply keeps_halt
  | |- keeps _ _ (mret _) => apply keeps_ret
  | |- keeps _ _ (act _) => apply keeps_act; intros
  | |- keeps _ _ (mbind _ _) => apply keeps_bind; [|intros ?; cbv beta]
  | |- keeps _ _ (try_ _ _) => apply keeps_try; [|intros ?; cbv beta]
  | |- keeps _ _ (suppress _) => apply keeps_suppress
  | |- keeps _ _ (finally _ _) => apply keeps_finally
  | |- keeps _ _ (attempt _) => apply keeps_attempt
  | |- keeps _ _ (each _ _) => apply keeps_each; intros ?; cbv beta
  | |- keeps _ _ (if ?b then _ else _) => destruct b
  | |- keeps _ _ (match ?x with _ => _ end) => destruct x
  end.
Ltac keeps_auto := repeat first [progress auto with effects | keeps_step]; try done.
Ltac only_auto := repeat only_step; try done; auto with effects.

(** ** Tasks that share a memory

    Programs with effects that run side by side: a task is a program, and a step performs
    one action of one task.  What an action may answer, and what it does to the shared
    memory, is said by [allowed]; tasks are spawned at any time.  Every task runs its own
    program, so what [wp] proves of a program holds of each task, and what a task has seen
    is its part of the log. *)

Section tasks.
Context {E : Effect} {M J : Type}.
(** The effect of an action on the memory, the jobs that may be spawned, and their programs *)
Variable allowed : M -> forall a : action, result (answer a) -> M -> Prop.
Variable spawned : J -> Prop.
Variable body : J -> prog unit.

Record task := Task { tk_job : J; tk_rest : prog unit; tk_hist : hist }.
(** The log, newest first, says which task performed what. *)
Record sys := Sys { sy_mem : M; sy_tasks : list task; sy_log : list (nat * event) }.

Inductive step : sys -> sys -> Prop :=
  | step_spawn m ts l j :
      spawned j -> step (Sys m ts l) (Sys m (ts ++ [Task j (body j) []]) l)
  | step_act m m' ts l i j a k h r :
      ts !! i = Some (Task j (POp a k) h) -> allowed m a r m' ->
      step (Sys m ts l) (Sys m' (<[i := Task j (k r) (Ev a r :: h)]> ts) ((i, Ev a r) :: l)).
Inductive reachable (m : M) : sys -> Prop :=
  | reach_start : reachable m (Sys m [] [])
  | reach_step s s' : reachable m s -> step s s' -> reachable m s'.

(** What the log says of one task *)
Definition seen_by (i : nat) (l : list (nat * event)) : hist :=
  omap (fun e => if bool_decide (e.1 = i) then Some e.2 else None) l.
Lemma seen_by_app i l l' : seen_by i (l ++ l') = seen_by i l ++ seen_by i l'.
Proof. apply omap_app. Qed.
Lemma seen_by_elem i l (e : event) : e ∈ seen_by i l <-> (i, e) ∈ l.
Proof.
  unfold seen_by. rewrite list_elem_of_omap. split.
  - intros ([i' e'] & Hin & He). simpl in He. case_bool_decide; [|done]. by simplify_eq.
  - intros Hin. exists (i, e). split; [done|]. simpl. by rewrite bool_decide_true.
Qed.

Definition well_run (s : sys) : Prop :=
  (forall i t, sy_tasks s !! i = Some t ->
     spawned (tk_job t) /\ steps (body (tk_job t)) [] (tk_rest t) (tk_hist t) /\ tk_hist t = seen_by i (sy_log s)) /\
  (forall i e, (i, e) ∈ sy_log s -> (i < length (sy_tasks s))%nat).
Lemma steps_act {A} (p : prog A) h a k r h' : steps p h (POp a k) h' -> steps p h (k r) (Ev a r :: h').
Proof.
  intros Hs. remember (POp a k) as q eqn:Eq. induction Hs; subst; [by eapply steps_op, steps_refl|].
  by eapply steps_op, IHHs.
Qed.
Lemma reachable_well_run m s : reachable m s -> well_run s.
Proof.
  induction 1 as [|s s' _ [IH Hlog] Hs]; [split; [done|by intros i e Hin%not_elem_of_nil]|].
  destruct Hs as [m' ts l j Hj|m' m2 ts l i j a k h r Hi Ha]; simpl in *.
  - split; simpl; [|intros i e Hin; rewrite length_app; specialize (Hlog i e Hin); simpl; lia].
    intros i t Ht. apply lookup_app_Some in Ht as [Ht|[Hl Ht]]; [by apply IH|].
    apply list_lookup_singleton_Some in Ht as [Hi <-]. simpl. split; [done|]. split; [apply steps_refl|].
    assert (length ts = i) as <- by lia. symmetry. destruct (seen_by (length ts) l) as [|e es] eqn:Ee; [done|].
    assert ((length ts, e) ∈ l) as Hin by (apply seen_by_elem; rewrite Ee; left). apply Hlog in Hin. lia.
  - assert (i < length ts)%nat as Hlt by (by eapply lookup_lt_Some). split; simpl.
    + intros i' t Ht. apply list_lookup_insert_Some in Ht as [(<- & <- & _)|[Hne Ht]].
      * destruct (IH i _ Hi) as (Hsp & Hst & Hh). simpl in *. split; [done|]. split; [by apply steps_act|].
        unfold seen_by. simpl. rewrite bool_decide_true by done. by f_equal.
      * destruct (IH i' t Ht) as (Hsp & Hst & Hh). split; [done|]. split; [done|].
        unfold seen_by. simpl. by rewrite bool_decide_false.
    + intros i' e Hin. rewrite length_insert. apply elem_of_cons in Hin as [[= -> _]|Hin]; [done|by eapply Hlog].
Qed.

(** Every action a task performs satisfies what [wp] guarantees of its program. *)
Lemma reachable_guard m s i t a k (G : hist -> action -> Prop) Q :
  reachable m s -> sy_tasks s !! i = Some t -> tk_rest t = POp a k ->
  wp G (body (tk_job t)) [] Q -> G (tk_hist t) a.
Proof.
  intros Hr Ht Ha Hw. destruct (proj1 (reachable_well_run m s Hr) i t Ht) as (_ & Hs & _). rewrite Ha in Hs.
  by apply (wp_guard _ _ _ _ _ _ _ Hw Hs).
Qed.

(** An invariant that every spawn and every action keeps *)
Lemma reachable_invariant m (I : sys -> Prop) s :
  I (Sys m [] []) -> (forall s s', reachable m s -> I s -> step s s' -> I s') -> reachable m s -> I s.
Proof. intros H0 Hs. induction 1; [done|]. eauto. Qed.

(** A task runs alone until an action that [stop] names, its actions answered by a handler. *)
Fixpoint run_task (fuel : nat) (stop : action -> bool) (handler : forall a, M -> result (answer a) * M) (i : nat) (s : sys)
    : sys :=
  match fuel, sy_tasks s !! i with
  | S fuel, Some (Task j (POp a k) h) =>
      if stop a then s
      else
        let '(r, m) := handler a (sy_mem s) in
        run_task fuel stop handler i (Sys m (<[i := Task j (k r) (Ev a r :: h)]> (sy_tasks s)) ((i, Ev a r) :: sy_log s))
  | _, _ => s
  end.
Definition spawn (j : J) (s : sys) : sys := Sys (sy_mem s) (sy_tasks s ++ [Task j (body j) []]) (sy_log s).
Lemma spawn_reachable m s j : spawned j -> reachable m s -> reachable m (spawn j s).
Proof. intros Hj Hs. destruct s as [m' ts l]. eapply reach_step; [exact Hs|]. by apply step_spawn. Qed.
Lemma run_task_reachable m fuel stop handler i s :
  (forall m a, stop a = false -> allowed m a (handler a m).1 (handler a m).2) ->
  reachable m s -> reachable m (run_task fuel stop handler i s).
Proof.
  intros Hok. revert s. induction fuel as [|fuel IH]; intros s Hs; [done|]. cbn [run_task].
  destruct (sy_tasks s !! i) as [[j [r|a k|] h]|] eqn:Hi; [done| |done..].
  destruct (stop a) eqn:Es; [done|]. pose proof (Hok (sy_mem s) a Es) as Ha. destruct (handler a (sy_mem s)) as [r m'].
  apply IH. eapply reach_step; [exact Hs|]. destruct s as [m0 ts l]. simpl in *. by eapply step_act.
Qed.
Definition next_of (i : nat) (s : sys) : option (option action) := (fun t => next_action (tk_rest t)) <$> sy_tasks s !! i.
Lemma next_of_performs i s a :
  next_of i s = Some (Some a) -> exists t k, sy_tasks s !! i = Some t /\ tk_rest t = POp a k.
Proof.
  unfold next_of. destruct (sy_tasks s !! i) as [[j p h]|]; [|done]. simpl. intros [= Hp]. exists (Task j p h).
  destruct p as [r|b k|]; try discriminate Hp. injection Hp as ->. by exists k.
Qed.
End tasks.
Arguments Task {E J} tk_job tk_rest tk_hist.
Arguments Sys {E M J} sy_mem sy_tasks sy_log.
