(* ===== verification/Decimal.v ===== *)
(** * Decimal arithmetic

    Python's [decimal.Decimal] under the default context: 28 digits, rounding half
    to even.  A finite value is [m * 10^e]; the exponent is not bounded here (the
    context bounds it by 999999), zeros carry no sign and NaNs no payload. *)

From stdpp Require Import base option list strings.
From Stdlib Require Import ZArith Lia.
From S2P Require Import Prelude PyStr.

Local Open Scope Z_scope.

Inductive dec :=
  | DFin (m e : Z)
  | DInf (neg : bool)
  | DNan.

#[export] Instance dec_eq_dec : EqDecision dec.
Proof. solve_decision. Defined.

Definition dec_prec : Z := 28.

(** Number of decimal digits of [z >= 0]; a number has at most as many decimal
    digits as bits, which is the fuel. *)
Fixpoint digits_go (fuel : nat) (z : Z) : Z :=
  match fuel with
  | O => 0
  | S fuel => if z =? 0 then 0 else 1 + digits_go fuel (z / 10)
  end.
Definition digits (z : Z) : Z := digits_go (Z.to_nat (Z.log2 z + 1)) z.

(** Drop the last [k] digits of [z >= 0], half to even. *)
Definition drop_digits (z k : Z) : Z :=
  let p := 10 ^ k in
  let q := z / p in
  let r := z mod p in
  if (p <? 2 * r) || ((2 * r =? p) && Z.odd q) then q + 1 else q.

(** A finite decimal: coefficient and exponent. *)
Definition fdec : Type := (Z * Z)%type.
Definition DF (x : fdec) : dec := DFin x.1 x.2.

(** [_fix]: round a coefficient to the precision of the context. *)
Definition dround (m e : Z) : fdec :=
  let a := Z.abs m in
  let k := digits a - dec_prec in
  if k <=? 0 then (m, e)
  else
    let q := drop_digits a k in
    let '(q, k) := if digits q <=? dec_prec then (q, k) else (q / 10, k + 1) in
    (Z.sgn m * q, e + k).

Definition dneg (m : Z) : bool := m <? 0.

Definition align (m e e' : Z) : Z := m * 10 ^ (e - e').

(** [x + y] and [x * y] of finite decimals *)
Definition dadd (x y : fdec) : fdec :=
  let c := Z.min x.2 y.2 in dround (align x.1 x.2 c + align y.1 y.2 c) c.
Definition dmul (x y : fdec) : fdec := dround (x.1 * y.1) (x.2 + y.2).

Fixpoint strip_exact (fuel : nat) (m e ideal : Z) : Z * Z :=
  match fuel with
  | O => (m, e)
  | S fuel => if (e <? ideal) && (m mod 10 =? 0) then strip_exact fuel (m / 10) (e + 1) ideal else (m, e)
  end.

(** [x / y]; a zero divisor raises, and so do the invalid operations. *)
Definition ddiv (x y : dec) : result dec :=
  match x, y with
  | DNan, _ | _, DNan => Ok DNan
  | DInf _, DInf _ => Raise (OtherError "InvalidOperation" "Infinity / Infinity")
  | DInf a, DFin n _ => Ok (DInf (xorb a (dneg n)))
  | DFin m e, DInf _ => Ok (DFin 0 (e - dec_prec))
  | DFin m e, DFin n f =>
      if n =? 0 then
        if m =? 0 then Raise (OtherError "InvalidOperation" "0 / 0")
        else Raise (OtherError "DivisionByZero" "x / 0")
      else if m =? 0 then Ok (DFin 0 (e - f))
      else
        let a := Z.abs m in
        let b := Z.abs n in
        let shift := digits b - digits a + dec_prec + 1 in
        let a' := if 0 <=? shift then a * 10 ^ shift else a in
        let b' := if 0 <=? shift then b else b * 10 ^ (- shift) in
        let q := a' / b' in
        let '(q, ex) :=
          if a' mod b' =? 0 then strip_exact (Z.to_nat (shift + 1)) q (e - f - shift) (e - f)
          else (if q mod 5 =? 0 then q + 1 else q, e - f - shift) in
        Ok (DF (dround (Z.sgn m * Z.sgn n * q) ex))
  end.

(** [x < y] and [x == y]; ordering a NaN raises. *)
Definition fin_compare (m e n f : Z) : comparison :=
  let c := Z.min e f in Z.compare (align m e c) (align n f c).
Definition dltb (x y : dec) : result bool :=
  match x, y with
  | DNan, _ | _, DNan => Raise (OtherError "InvalidOperation" "comparison involving NaN")
  | DFin m e, DFin n f => Ok (match fin_compare m e n f with Lt => true | _ => false end)
  | DInf a, DInf b => Ok (a && negb b)
  | DInf a, _ => Ok a
  | _, DInf b => Ok (negb b)
  end.
Definition deqb (x y : dec) : bool :=
  match x, y with
  | DFin m e, DFin n f => match fin_compare m e n f with Eq => true | _ => false end
  | DInf a, DInf b => Bool.eqb a b
  | _, _ => false
  end.

Definition dtruthy (x : dec) : bool := match x with DFin m _ => negb (m =? 0) | _ => true end.

Definition dec_of_Z (z : Z) : fdec := (z, 0).
Definition dec_of_lit (l : numlit) : dec :=
  match l with
  | NumDec neg m e => DFin (if neg then - m else m) e
  | NumInf neg => DInf neg
  | NumNan => DNan
  end.

(** [x + y] and [x * y]; the invalid operations raise. *)
Definition dec_invalid {A} (msg : string) : result A := Raise (OtherError "InvalidOperation" msg).
Definition dec_add (x y : dec) : result dec :=
  match x, y with
  | DNan, _ | _, DNan => Ok DNan
  | DInf a, DInf b => if Bool.eqb a b then Ok x else dec_invalid "-INF + INF"
  | DInf _, DFin _ _ => Ok x
  | DFin _ _, DInf _ => Ok y
  | DFin m e, DFin n f => Ok (DF (dadd (m, e) (n, f)))
  end.
Definition dec_mul (x y : dec) : result dec :=
  match x, y with
  | DNan, _ | _, DNan => Ok DNan
  | DInf a, DInf b => Ok (DInf (xorb a b))
  | DInf a, DFin n _ | DFin n _, DInf a =>
      if n =? 0 then dec_invalid "0 * INF" else Ok (DInf (xorb a (dneg n)))
  | DFin m e, DFin n f => Ok (DF (dmul (m, e) (n, f)))
  end.

(** [Decimal(s)] for a string *)
Definition dec_of_str (s : string) : result dec :=
  match parse_number s with
  | Some l => Ok (dec_of_lit l)
  | None => dec_invalid "[<class 'decimal.ConversionSyntax'>]"
  end.

(** [str(x)]: positional unless the exponent is positive or the number tiny. *)
Definition dec_str (x : dec) : string :=
  match x with
  | DNan => "NaN"
  | DInf neg => if neg then "-Infinity" else "Infinity"
  | DFin m e =>
      let ds := str_of_Z (Z.abs m) in
      let len := Z.of_nat (String.length ds) in
      let left := e + len in
      let dot := if (e <=? 0) && (-6 <? left) then left else 1 in
      let zeros n := String.concat "" (replicate (Z.to_nat n) "0"%string) in
      ((if (m <? 0)%Z then "-" else "") +:+
       (if (dot <=? 0)%Z then "0." +:+ zeros (- dot)%Z +:+ ds
        else if (len <=? dot)%Z then ds +:+ zeros (dot - len)%Z
        else stake (Z.to_nat dot) ds +:+ "." +:+ sdrop (Z.to_nat dot) ds) +:+
       (if (left =? dot)%Z then ""
        else "E" +:+ (if (left <? dot)%Z then "-" else "+") +:+ str_of_Z (Z.abs (left - dot))))%string
  end.

(** ** Exactness below the precision *)

Lemma digits_go_bound fuel z : 0 <= z -> z < 10 ^ dec_prec -> digits_go fuel z <= dec_prec.
Proof.
  intros Hz Hlt.
  assert (forall fuel n z, 0 <= n -> 0 <= z < 10 ^ n -> digits_go fuel z <= n) as Hgo.
  { clear. induction fuel as [|fuel IH]; intros n z Hn Hz; simpl; [done|].
    destruct (z =? 0) eqn:E; [done|]. apply Z.eqb_neq in E.
    assert (0 < n) as Hn' by (destruct (Z.eq_dec n 0); [subst; simpl in *; lia|lia]).
    specialize (IH (n - 1) (z / 10) ltac:(lia)).
    assert (10 ^ n = 10 * 10 ^ (n - 1)) as E10.
    { rewrite <- Z.pow_succ_r by lia. f_equal. lia. }
    assert (0 <= z / 10 < 10 ^ (n - 1)).
    { split; [apply Z.div_pos; lia|]. apply Z.div_lt_upper_bound; lia. }
    lia. }
  apply Hgo; unfold dec_prec in *; lia.
Qed.

Lemma dround_small m e : Z.abs m < 10 ^ dec_prec -> dround m e = (m, e).
Proof.
  intros Hm. unfold dround, digits.
  pose proof (digits_go_bound (Z.to_nat (Z.log2 (Z.abs m) + 1)) (Z.abs m) ltac:(lia) Hm).
  destruct (_ <=? 0) eqn:E; [done|]. apply Z.leb_gt in E. lia.
Qed.

Example div_third : ddiv (DFin 1 0) (DFin 3 0) = Ok (DFin 3333333333333333333333333333 (-28)).
Proof. vm_compute. reflexivity. Qed.
Example div_ticks : ddiv (DFin 200000000 0) (DFin 10000000000 0) = Ok (DFin 2 (-2)).
Proof. vm_compute. reflexivity. Qed.
Example add_rounds : dadd (10 ^ 28, 0) (15, -1) = (10 ^ 27, 1).
Proof. vm_compute. reflexivity. Qed.
Example dec_str_plain : dec_str (DFin 26470775999999982 (-15)) = "26.470775999999982"%string.
Proof. vm_compute. reflexivity. Qed.
Example dec_str_small : dec_str (DFin (-12) (-9)) = "-1.2E-8"%string.
Proof. vm_compute. reflexivity. Qed.
