(* ===== verification/FuguCredit.v ===== *)
(** * Fugu credit ledger

    [deploy/fugu-router/fugu_credit.py]: names of accounts and models, extraction of
    usage from a provider response, and the row a call writes to the
    [fugu_credit_ledger] table.  A Python value that came from JSON is a [json] with
    [JNull] for [None]. *)

From stdpp Require Import base option list strings.
From Stdlib Require Import ZArith Lia Ascii.
From S2P Require Import Prelude PyStr PyFloat PyTime Json Regex Decimal.

Local Open Scope Z_scope.
Local Open Scope py_scope.

(** ** Names *)

Definition MODEL_PUBLIC_NAMES : list string := ["fugu-ultra"; "fugu"]%string.

Definition DIRECT_MODEL_ALIASES : odict string :=
  [("glm-5.2", "glm-5.2");
   ("z-ai/glm-5.2", "glm-5.2");
   ("openai/z-ai/glm-5.2", "glm-5.2");
   ("qwen/qwen3-embedding-8b", "qwen/qwen3-embedding-8b");
   ("openai/qwen/qwen3-embedding-8b", "qwen/qwen3-embedding-8b");
   ("openai/gpt-oss-120b", "openai/gpt-oss-120b");
   ("openai/openai/gpt-oss-120b", "openai/gpt-oss-120b");
   ("grok-4.5", "grok-4.5");
   ("xai/grok-4.5", "grok-4.5");
   ("grok-4.3", "grok-4.3");
   ("xai/grok-4.3", "grok-4.3");
   ("grok-imagine-image-quality", "grok-imagine-image-quality");
   ("xai/grok-imagine-image-quality", "grok-imagine-image-quality");
   ("grok-imagine-image", "grok-imagine-image");
   ("xai/grok-imagine-image", "grok-imagine-image")]%string.

Record price := { pr_input : fdec; pr_output : fdec; pr_cache_read : fdec }.
Definition DIRECT_MODEL_PRICES : odict price :=
  [("glm-5.2"%string, {| pr_input := (14, -7); pr_output := (44, -7); pr_cache_read := (7, -7) |});
   ("qwen/qwen3-embedding-8b"%string, {| pr_input := (1, -8); pr_output := (0, 0); pr_cache_read := (0, 0) |});
   ("openai/gpt-oss-120b"%string, {| pr_input := (15, -8); pr_output := (6, -7); pr_cache_read := (15, -8) |});
   ("grok-4.5"%string, {| pr_input := (2, -6); pr_output := (6, -6); pr_cache_read := (5, -7) |});
   ("grok-4.3"%string, {| pr_input := (125, -8); pr_output := (25, -7); pr_cache_read := (2, -7) |})].

Definition sub_re : re := literal false "(?:^|-)sub-?(\d+)$".
Definition payg_re : re := literal false "(?:^|-)payg$".

Definition account_from_model (model : string) : option string :=
  if bool_decide (model = EmptyString) then None
  else match re_search sub_re model with
       | Some m => n ← dget "1" (mt_groups m); Some ("sub" +:+ n)
       | None => if found (re_search payg_re model) then Some "payg"%string else None
       end.

(** The direct provider model a name stands for. *)
Definition direct_alias (model : string) : option string :=
  match dget model DIRECT_MODEL_ALIASES with
  | Some a => Some a
  | None => if startswith "openai/" model then dget (sdrop 7 model) DIRECT_MODEL_ALIASES else None
  end.

Definition requested_model_from_upstream (model : string) : option string :=
  if bool_decide (model = EmptyString) then None
  else match direct_alias model with
       | Some a => Some a
       | None =>
           if startswith "fugu-ultra" model then Some "fugu-ultra"%string
           else if startswith "fugu" model then Some "fugu"%string
           else Some model
       end.

(** [None] and the empty string are skipped, and no alias has an empty name. *)
Fixpoint _direct_model_name (models : list string) : option string :=
  match models with
  | [] => None
  | m :: models =>
      if bool_decide (m = EmptyString) then _direct_model_name models
      else match direct_alias m with Some a => Some a | None => _direct_model_name models end
  end.

Definition upstream_model (requested_model account_id : string) : string :=
  requested_model +:+ "-" +:+ replace "sub" "sub-" account_id.

Section credit.
Context {F : Type} `{PyFloat F}.

(** ** Values *)

Definition _REDACT_KEYS : list string :=
  ["authorization"; "api_key"; "user_api_key"; "secret"; "password"; "cookie"; "bearer"]%string.
Definition sensitive (key : string) : bool :=
  existsb (fun marker => contains marker (lower key)) _REDACT_KEYS.

(** [_jsonable] with [redact=True], on JSON values. *)
Fixpoint _jsonable (j : json F) : json F :=
  match j with
  | JArr l => JArr (map _jsonable l)
  | JObj d => JObj (map (fun kv => (kv.1, if sensitive kv.1 then JStr "[redacted]" else _jsonable kv.2)) d)
  | j => j
  end.

Definition _as_dict (j : json F) : odict (json F) :=
  match _jsonable j with JObj d => d | _ => [] end.

(** [d.get(k)], and [a or b] *)
Definition pget (k : string) (d : odict (json F)) : json F := default JNull (dget k d).
Definition ostr (o : option string) : json F := match o with Some s => JStr s | None => JNull end.
Definition por (a b : json F) : json F := if truthy a then a else b.

(** [str(v)] of a truthy value, else the empty string *)
Definition str_or_empty (j : json F) : string := if truthy j then json_str j else EmptyString.

(** The first value that is a finite number; a string counts when [float] reads it. *)
Fixpoint _number (values : list (json F)) : result (option Z) :=
  match values with
  | [] => Ok None
  | v :: values =>
      match v with
      | JInt z => _ ← f_int (F := F) z; Ok (Some z)
      | JFloat f => match f_trunc f with Ok z => Ok (Some z) | Raise _ => _number values end
      | JStr s =>
          match parse_number s with
          | None => _number values
          | Some l =>
              match f_trunc (f_of_lit (F := F) l) with
              | Ok z => Ok (Some z)
              | Raise (ValueError _) => _number values
              | Raise e => Raise e
              end
          end
      | _ => _number values
      end
  end.

Definition _decimal (j : json F) : option dec :=
  match j with
  | JInt z => Some (DFin z 0)
  | JFloat f => dec_of_lit <$> parse_number (f_repr f)
  | JStr s => dec_of_lit <$> parse_number s
  | _ => None
  end.

(** ** Usage *)

Record usage := {
  u_raw_usage : odict (json F);
  u_prompt_details : odict (json F);
  u_completion_details : odict (json F);
  u_input_tokens : option Z;
  u_output_tokens : option Z;
  u_cached_input_tokens : option Z;
  u_orchestration_input_tokens : option Z;
  u_orchestration_output_tokens : option Z;
  u_orchestration_input_cached_tokens : option Z;
  u_orchestration_tokens_total : option Z;
  u_visible_tokens : option Z;
  u_usage_units : fdec;
  u_estimated_cost_usd : dec;
  u_prompt_tokens : option Z;
  u_completion_tokens : option Z;
  u_total_tokens : option Z;
}.

(** [v or 0] of a count *)
Definition or0 (v : option Z) : Z := default 0 v.
Definition nonzero (z : Z) : option Z := if z =? 0 then None else Some z.

(** Input-token-equivalent units: input 1, cached input 0.1, output 6. *)
Definition units (noncached cached out noncached_orch orch_cached orch_out : Z) : fdec :=
  dadd (dadd (dadd (dadd (dadd (dec_of_Z noncached) (dmul (dec_of_Z cached) (1, -1)))
    (dmul (dec_of_Z out) (6, 0))) (dec_of_Z noncached_orch))
    (dmul (dec_of_Z orch_cached) (1, -1))) (dmul (dec_of_Z orch_out) (6, 0)).

(** [None] stands for the empty dictionary returned when there is no usage. *)
Definition extract_usage (response_obj : json F) : result (option usage) :=
  let response := _as_dict response_obj in
  let usage := _as_dict (pget "usage" response) in
  if bool_decide (length usage = 0%nat) then Ok None
  else
    let prompt_details :=
      _as_dict (por (pget "prompt_tokens_details" usage)
                 (por (pget "input_tokens_details" usage) (pget "input_token_details" usage))) in
    let completion_details :=
      _as_dict (por (pget "completion_tokens_details" usage)
                 (por (pget "output_tokens_details" usage) (pget "output_token_details" usage))) in
    let cost_in_usd_ticks := _decimal (pget "cost_in_usd_ticks" usage) in
    input_tokens ← _number [pget "input_tokens" usage; pget "prompt_tokens" usage];
    output_tokens ← _number [pget "output_tokens" usage; pget "completion_tokens" usage];
    total_tokens ← _number [pget "total_tokens" usage];
    cached_input_tokens ← _number
      [pget "cached_input_tokens" usage; pget "cache_read_input_tokens" usage;
       pget "cached_tokens" prompt_details; pget "cache_read_input_tokens" prompt_details;
       pget "input_cached_tokens" prompt_details];
    orch_input ← _number
      [pget "orchestration_input_tokens" usage; pget "orchestration_input_tokens" prompt_details];
    orch_output ← _number
      [pget "orchestration_output_tokens" usage; pget "orchestration_output_tokens" completion_details];
    orch_cached ← _number
      [pget "orchestration_input_cached_tokens" usage;
       pget "orchestration_input_cached_tokens" prompt_details;
       pget "orchestration_cached_input_tokens" prompt_details];
    let orchestration_total := or0 orch_input + or0 orch_output in
    let visible_tokens :=
      match total_tokens with
      | Some t => if orchestration_total =? 0 then None else Some (Z.max (t - orchestration_total) 0)
      | None => None
      end in
    let noncached_input := Z.max (or0 input_tokens - or0 cached_input_tokens) 0 in
    let noncached_orch_input := Z.max (or0 orch_input - or0 orch_cached) 0 in
    let usage_units :=
      units noncached_input (or0 cached_input_tokens) (or0 output_tokens)
        noncached_orch_input (or0 orch_cached) (or0 orch_output) in
    estimated ← match cost_in_usd_ticks with
                | Some ticks => ddiv ticks (DFin 10000000000 0)
                | None => Ok (DF (dmul usage_units (5, -6)))
                end;
    prompt_tokens ← _number [pget "prompt_tokens" usage; pget "input_tokens" usage];
    completion_tokens ← _number [pget "completion_tokens" usage; pget "output_tokens" usage];
    Ok (Some {|
      u_raw_usage := usage;
      u_prompt_details := prompt_details;
      u_completion_details := completion_details;
      u_input_tokens := input_tokens;
      u_output_tokens := output_tokens;
      u_cached_input_tokens := cached_input_tokens;
      u_orchestration_input_tokens := orch_input;
      u_orchestration_output_tokens := orch_output;
      u_orchestration_input_cached_tokens := orch_cached;
      u_orchestration_tokens_total := nonzero orchestration_total;
      u_visible_tokens := visible_tokens;
      u_usage_units := usage_units;
      u_estimated_cost_usd := estimated;
      u_prompt_tokens := prompt_tokens;
      u_completion_tokens := completion_tokens;
      u_total_tokens := total_tokens |}).

(** [input or prompt or 0] of two optional counts *)
Definition count_or (a b : option Z) : Z := if or0 a =? 0 then or0 b else or0 a.

Definition _direct_estimated_cost (model : option string) (u : option usage) : option fdec :=
  p ← (m ← model; dget m DIRECT_MODEL_PRICES);
  let get f : option Z := match u with Some u => f u | None => None end in
  let input_tokens := count_or (get u_input_tokens) (get u_prompt_tokens) in
  let output_tokens := count_or (get u_output_tokens) (get u_completion_tokens) in
  let cached := or0 (get u_cached_input_tokens) in
  let noncached := Z.max (input_tokens - cached) 0 in
  Some (dadd (dadd (dmul (dec_of_Z noncached) (pr_input p)) (dmul (dec_of_Z cached) (pr_cache_read p)))
          (dmul (dec_of_Z output_tokens) (pr_output p))).
End credit.
Arguments usage F : clear implicits.
