(* ===== verification/FuguLedger.v ===== *)
(** * Fugu credit ledger: the rows

    [deploy/fugu-router/fugu_credit.py], from [_annotate_metadata] to [write_ledger]:
    the row a call is recorded as, and what the insert does to a row that is already
    there.  PostgreSQL's part is the semantics of the statement: [COALESCE], the
    foreign key on the account, and the width of the integer columns. *)

From stdpp Require Import base option list strings.
From Stdlib Require Import ZArith Lia Ascii.
From S2P Require Import Prelude PyStr PyFloat PyTime Json Regex Decimal FuguCredit.

Local Open Scope Z_scope.
Local Open Scope py_scope.

Section ledger.
Context {F : Type} `{PyFloat F}.

(** ** Cells *)

Inductive cell :=
  | CNull
  | CText (j : json F)          (* a value bound to a text column *)
  | CJson (j : json F)          (* the text bound to a jsonb column *)
  | CInt (z : Z)
  | CNum (d : dec)
  | CTime (t : instant).

Abbreviation row := (odict cell).

Definition text (j : json F) : cell := match j with JNull => CNull | j => CText j end.
Definition ocell {A} (f : A -> cell) (o : option A) : cell := match o with Some a => f a | None => CNull end.
Definition coalesce (a b : cell) : cell := match a with CNull => b | a => a end.
Definition cell_of (c : string) (r : row) : cell := default CNull (dget c r).

(** The three ways [ON CONFLICT (request_id) DO UPDATE] treats a column. *)
Definition kept_columns : list string := ["request_id"; "start_time"]%string.
Definition replaced_columns : list string :=
  ["end_time"; "status"; "http_status"; "error_message"; "raw_usage"; "raw_token_metadata";
   "request_metadata"; "response_metadata"; "standard_logging_object"; "proxy_server_request"]%string.
Definition coalesced_columns : list string :=
  ["call_type"; "requested_model"; "upstream_model"; "model"; "model_group"; "model_id";
   "custom_llm_provider"; "account_id"; "session_id"; "agent_id"; "agent_role"; "user_id";
   "input_tokens"; "output_tokens"; "cached_input_tokens"; "orchestration_input_tokens";
   "orchestration_output_tokens"; "orchestration_input_cached_tokens"; "orchestration_tokens_total";
   "visible_tokens"; "prompt_tokens"; "completion_tokens"; "total_tokens"; "usage_units";
   "estimated_cost_usd"; "litellm_spend"]%string.

Definition merge_cell (c : string) (excluded old : cell) : cell :=
  if bool_decide (c ∈ replaced_columns) then excluded
  else if bool_decide (c ∈ coalesced_columns) then coalesce excluded old
  else old.
Definition merge (excluded old : row) : row :=
  map (fun cv => (cv.1, merge_cell cv.1 (cell_of cv.1 excluded) cv.2)) old.

Definition smallint_columns : list string := ["http_status"]%string.
Definition fits (cv : string * cell) : bool :=
  match cv.2 with
  | CInt z =>
      if bool_decide (cv.1 ∈ smallint_columns) then (-2 ^ 31 <=? z) && (z <? 2 ^ 31)
      else (-2 ^ 63 <=? z) && (z <? 2 ^ 63)
  | _ => true
  end.

(** The table, by request id. *)
Abbreviation table := (odict row).

Definition insert_row (accounts : list string) (rid : string) (r : row) (t : table) : result table :=
  raise! (OtherError "NumericValueOutOfRange" "integer out of range") when negb (forallb fits r);
  raise! (OtherError "ForeignKeyViolation" "account_id is not present in fugu_accounts")
    when (match cell_of "account_id" r with
          | CText (JStr a) => negb (bool_decide (a ∈ accounts))
          | _ => false
          end);
  Ok (dset rid (match dget rid t with Some old => merge r old | None => r end) t).

(** ** The row of a call *)

Definition obj_or_empty (j : json F) : result (odict (json F)) :=
  if truthy j then
    match j with
    | JObj d => Ok d
    | _ => Raise (OtherError "AttributeError" "object has no attribute 'get'")
    end
  else Ok [].

Definition _standard (kwargs : odict (json F)) : odict (json F) :=
  _as_dict (pget "standard_logging_object" kwargs).
Definition _request_headers (kwargs : odict (json F)) : odict (json F) :=
  _as_dict (pget "headers" (_as_dict (pget "proxy_server_request" kwargs))).

Definition token_metadata (u : usage F) : json F :=
  JObj [("usage", JObj (u_raw_usage u)); ("prompt_tokens_details", JObj (u_prompt_details u));
        ("completion_tokens_details", JObj (u_completion_details u))]%string.

Definition header_keys : list (string * string) :=
  [("x-agent-id", "agent_id"); ("x-agent-role", "agent_role"); ("x-session-id", "session_id")]%string.

(** The metadata dictionary after [_annotate_metadata] has updated it. *)
Definition _annotate_metadata (kwargs : odict (json F)) (response_obj : json F)
    : result (odict (json F)) :=
  params ← obj_or_empty (pget "litellm_params" kwargs);
  meta ← obj_or_empty (pget "metadata" params);
  usage ← extract_usage response_obj;
  let meta := match usage with
              | Some u => dset "fugu_token_metadata" (_jsonable (token_metadata u)) meta
              | None => meta
              end in
  let std := _standard kwargs in
  let model := por (pget "model" kwargs) (por (pget "model" std) (pget "model_group" std)) in
  let account_id :=
    por (pget "fugu_account_id" meta)
      (por (ostr (account_from_model (json_str model)))
        (let group := pget "model_group" std in
         ostr (account_from_model (if truthy group then json_str group else EmptyString)))) in
  let meta := if truthy account_id then dset "fugu_account_id" account_id meta else meta in
  let meta := if dmem "fugu_requested_model" meta then meta
              else dset "fugu_requested_model" (ostr (requested_model_from_upstream (json_str model))) meta in
  let headers := _request_headers kwargs in
  Ok (foldl (fun meta hk =>
        let val := por (pget hk.1 headers) (pget (replace_char "-" "_" hk.1) headers) in
        if truthy val then dset hk.2 val meta else meta) meta header_keys).

(** [missing] is the identifier built from the clock when the call carries none. *)
Definition _request_id (kwargs : odict (json F)) (response_obj : json F) (missing : string) : string :=
  let v := por (pget "request_id" (_standard kwargs))
             (por (pget "litellm_call_id" kwargs)
               (por (pget "call_id" kwargs) (pget "id" (_as_dict response_obj)))) in
  if truthy v then json_str v else missing.

Record written := { w_request_id : string; w_row : row }.

Definition oint (o : option Z) : cell := ocell CInt o.

(** The row [write_ledger] builds; [error] is [JNull] for a success. *)
Definition ledger_row (kwargs : odict (json F)) (response_obj : json F)
    (start_time end_time : option instant) (status : string) (error : json F) (missing : string)
    : result written :=
  meta ← _annotate_metadata kwargs response_obj;
  let std := _standard kwargs in
  usage ← extract_usage response_obj;
  let request_id := _request_id kwargs response_obj missing in
  let upstream := str_or_empty (por (pget "model" kwargs) (por (pget "model_group" std) (pget "fugu_upstream_model" meta))) in
  let requested_model :=
    str_or_empty (por (pget "fugu_requested_model" meta) (ostr (requested_model_from_upstream upstream))) in
  let direct_model :=
    _direct_model_name [upstream; str_or_empty (pget "model_group" std); str_or_empty (pget "model" std); requested_model] in
  let direct_cost := _direct_estimated_cost direct_model usage in
  let account_id := str_or_empty (por (pget "fugu_account_id" meta) (ostr (account_from_model upstream))) in
  let headers := _request_headers kwargs in
  let response_metadata := _as_dict (pget "metadata" (_as_dict response_obj)) in
  let error_message := stake 2000 (str_or_empty (por error (pget "exception" kwargs))) in
  http_status ← _number [pget "status_code" std; pget "status_code" kwargs];
  let count (f : FuguCredit.usage F -> option Z) : cell := oint (u ← usage; f u) in
  let raw (f : FuguCredit.usage F -> json F) : cell := CJson (_jsonable (match usage with Some u => f u | None => JObj [] end)) in
  Ok {| w_request_id := request_id;
        w_row :=
    [("request_id", CText (JStr request_id));
     ("start_time", ocell CTime start_time);
     ("end_time", ocell CTime end_time);
     ("status", CText (JStr status));
     ("http_status", oint http_status);
     ("error_message", if bool_decide (error_message = EmptyString) then CNull else CText (JStr error_message));
     ("call_type", text (por (pget "call_type" std) (pget "call_type" kwargs)));
     ("requested_model", CText (JStr requested_model));
     ("upstream_model", CText (JStr upstream));
     ("model", text (por (pget "model" std) (JStr upstream)));
     ("model_group", text (pget "model_group" std));
     ("model_id", text (pget "model_id" std));
     ("custom_llm_provider", text (pget "custom_llm_provider" std));
     ("account_id", if bool_decide (account_id = EmptyString) then CNull else CText (JStr account_id));
     ("session_id", text (por (pget "session_id" meta) (por (pget "fugu_session_id" meta) (pget "x-session-id" headers))));
     ("agent_id", text (pget "agent_id" meta));
     ("agent_role", text (pget "agent_role" meta));
     ("user_id", text (por (pget "user" std) (pget "user" kwargs)));
     ("input_tokens", count u_input_tokens);
     ("output_tokens", count u_output_tokens);
     ("cached_input_tokens", count u_cached_input_tokens);
     ("orchestration_input_tokens", count u_orchestration_input_tokens);
     ("orchestration_output_tokens", count u_orchestration_output_tokens);
     ("orchestration_input_cached_tokens", count u_orchestration_input_cached_tokens);
     ("orchestration_tokens_total", count u_orchestration_tokens_total);
     ("visible_tokens", count u_visible_tokens);
     ("prompt_tokens", count u_prompt_tokens);
     ("completion_tokens", count u_completion_tokens);
     ("total_tokens", count u_total_tokens);
     ("usage_units", ocell (fun u => CNum (DF (u_usage_units u))) usage);
     ("estimated_cost_usd", match direct_cost with
                            | Some c => CNum (DF c)
                            | None => ocell (fun u => CNum (u_estimated_cost_usd u)) usage
                            end);
     ("litellm_spend", ocell CNum (_decimal (por (pget "response_cost" std) (por (pget "spend" std) (pget "response_cost" kwargs)))));
     ("raw_usage", raw (fun u => JObj (u_raw_usage u)));
     ("raw_token_metadata", raw token_metadata);
     ("request_metadata", CJson (_jsonable (JObj meta)));
     ("response_metadata", CJson (_jsonable (JObj response_metadata)));
     ("standard_logging_object", CJson (_jsonable (JObj std)));
     ("proxy_server_request", CJson (_jsonable (pget "proxy_server_request" kwargs)))]%string |}.

Definition write_ledger (accounts : list string) (kwargs : odict (json F)) (response_obj : json F)
    (start_time end_time : option instant) (status : string) (error : json F) (missing : string)
    (t : table) : result table :=
  w ← ledger_row kwargs response_obj start_time end_time status error missing;
  insert_row accounts (w_request_id w) (w_row w) t.

(** [log_success_event] and [log_failure_event]: an exception is swallowed. *)
Definition log_success_event (accounts : list string) (kwargs : odict (json F)) (response_obj : json F)
    (start_time end_time : option instant) (missing : string) (t : table) : table :=
  match write_ledger accounts kwargs response_obj start_time end_time "success" JNull missing t with
  | Ok t' => t'
  | Raise _ => t
  end.
Definition log_failure_event (accounts : list string) (kwargs : odict (json F)) (response_obj : json F)
    (start_time end_time : option instant) (missing : string) (t : table) : table :=
  match write_ledger accounts kwargs response_obj start_time end_time "failure" (pget "exception" kwargs) missing t with
  | Ok t' => t'
  | Raise _ => t
  end.
End ledger.
Arguments cell F : clear implicits.
Arguments written F : clear implicits.
