(* ===== verification/FuguPolicy.v ===== *)
(** * Fugu router: requests, errors and streams

    [deploy/fugu-router/fugu_session_router.py], the functions that keep no state:
    window arithmetic, session keys, model names, error classification, the bodies
    sent upstream, the content-policy fallback and the server-sent-event reader. *)

From stdpp Require Import base option list strings.
From Stdlib Require Import ZArith Lia Ascii.
From S2P Require Import Prelude PyStr PyFloat PyTime Json Regex Decimal FuguCredit.

Local Open Scope Z_scope.
Local Open Scope py_scope.

(** ** Windows *)

(** [_window_start], in microseconds.  The source divides float seconds, which
    gives the same number of periods for an interval of whole seconds. *)
Definition _window_start (anchor : instant) (interval : Z) (now : instant) : instant :=
  if interval <=? 0 then anchor
  else anchor + (Z.max (now - anchor) 0 / interval) * interval.

Definition _dashboard_window_start (window : string) (now : instant) : instant :=
  if bool_decide (window = "5h")%string then now - hours 5
  else if bool_decide (window = "week")%string then now - days 7
  else now - days (if bool_decide (window = "30d")%string then 30 else 31).

(** [_default_anchor] of fugu_credit.py *)
Definition _default_anchor (kind : string) (now : instant) : instant :=
  if bool_decide (kind = "5h")%string then day_start now + hours (hour_of now / 5 * 5)
  else if bool_decide (kind = "week")%string then day_start (now - days (weekday now))
  else day_start (now - days (c_day (civil_of now) - 1)).

(** ** Model names *)

Record public_model := { pm_id : string; pm_label : string; pm_owned_by : string; pm_kind : string }.
Definition PUBLIC_MODELS : list public_model :=
  let m i l o k := {| pm_id := i; pm_label := l; pm_owned_by := o; pm_kind := k |} in
  [m "fugu-ultra" "Fugu Ultra" "fugu-router" "fugu";
   m "fugu" "Fugu" "fugu-router" "fugu";
   m "glm-5.2" "GLM 5.2" "redpill" "chat";
   m "qwen/qwen3-embedding-8b" "Qwen3 Embedding 8B" "redpill" "embedding";
   m "openai/gpt-oss-120b" "GPT-OSS 120B" "redpill" "chat";
   m "grok-4.5" "Grok 4.5" "xai" "chat";
   m "grok-4.3" "Grok 4.3" "xai" "chat";
   m "grok-imagine-image-quality" "Grok Imagine Image Quality" "xai" "image_generation";
   m "grok-imagine-image" "Grok Imagine Image" "xai" "image_generation"]%string.
Definition DIRECT_PUBLIC_NAMES : list string :=
  map pm_id (List.filter (fun m => negb (bool_decide (pm_kind m = "fugu")%string)) PUBLIC_MODELS).

Definition public_aliases : odict string :=
  [("openai/z-ai/glm-5.2", "glm-5.2");
   ("z-ai/glm-5.2", "glm-5.2");
   ("openai/qwen/qwen3-embedding-8b", "qwen/qwen3-embedding-8b");
   ("openai/openai/gpt-oss-120b", "openai/gpt-oss-120b");
   ("xai/grok-4.5", "grok-4.5");
   ("xai/grok-4.3", "grok-4.3");
   ("xai/grok-imagine-image-quality", "grok-imagine-image-quality");
   ("xai/grok-imagine-image", "grok-imagine-image")]%string.

Definition ultra_re : re := literal false "^fugu-ultra-sub-\d+$".
Definition fugu_re : re := literal false "^fugu-sub-\d+$".

(** [None] is the empty string here: both are falsy. *)
Definition _normalize_public_model (model : string) : string :=
  if bool_decide (model = EmptyString) then "unknown"
  else if found (re_match ultra_re model) then "fugu-ultra"
  else if found (re_match fugu_re model) then "fugu"
  else default model (dget model public_aliases).

Definition _model_label (model : string) : string :=
  let model := _normalize_public_model model in
  match List.find (fun m => bool_decide (pm_id m = model)) PUBLIC_MODELS with
  | Some m => pm_label m
  | None => model
  end.

Definition _direct_route_id (requested_model upstream_model : string) : string :=
  let requested := _normalize_public_model requested_model in
  let upstream := _normalize_public_model
    (if bool_decide (upstream_model = EmptyString) then requested else upstream_model) in
  if bool_decide (requested ∈ MODEL_PUBLIC_NAMES) && negb (bool_decide (upstream = requested))
  then "fallback:" +:+ upstream else "direct:" +:+ upstream.

(** ** Errors *)

Definition limit_words : list string :=
  ["quota"; "rate"; "limit"; "credit"; "billing"; "exhaust"; "capacity"]%string.

Definition _limit_error (status_code : Z) (text : string) : bool :=
  if bool_decide (status_code ∈ [402; 408; 409; 425; 429; 529]) then true
  else if bool_decide (status_code ∈ [400; 403; 500; 502; 503; 504]) then
    existsb (fun word => contains word (lower text)) limit_words
  else false.

Definition _content_policy_error (status_code : Z) (text : string) : bool :=
  (status_code =? 451) || (contains "content policy" (lower text) && contains "blocked" (lower text)).

Definition _chat_completion_path (path : string) : bool :=
  bool_decide (strip_char "/"%char path ∈ ["v1/chat/completions"; "chat/completions"]%string).

Section policy.
Context {F : Type} `{PyFloat F}.

(** ** Requests *)

Definition dict_or_empty (j : json F) : odict (json F) := match j with JObj d => d | _ => [] end.

(** [headers] has lower-case names; [clock] is the time stamp of a request that
    names no session. *)
Definition _session_key (headers : odict string) (body : odict (json F)) (clock : string) : string :=
  let meta := dict_or_empty (pget "metadata" body) in
  let header k := ostr (dget k headers) in
  let v := por (header "x-session-id") (por (header "x-conversation-id")
             (por (pget "session_id" meta) (por (pget "fugu_session_id" meta)
               (por (pget "conversation_id" meta) (pget "user" body))))) in
  if truthy v then json_str v else "request:" +:+ clock.

Definition has_key (k : string) (d : odict (json F)) : bool := dmem k d.

(** The body [_apply_glm_plain_text_defaults] leaves behind. *)
Definition _apply_glm_plain_text_defaults (body : odict (json F)) (path : string) : odict (json F) :=
  let model := match pget "model" body with JStr s => s | _ => EmptyString end in
  if negb (_chat_completion_path path) || negb (bool_decide (_normalize_public_model model = "glm-5.2")%string)
  then body
  else
    let extra_body := dict_or_empty (pget "extra_body" body) in
    if existsb (fun k => has_key k body) ["thinking"; "reasoning_effort"]%string then body
    else if existsb (fun k => has_key k extra_body) ["thinking"; "reasoning_effort"]%string then body
    else
      let updated := dset "thinking" (JObj [("type", JStr "disabled")]%string) extra_body in
      let updated := dset "reasoning_effort" (JStr "none") updated in
      dset "extra_body" (JObj updated) body.

(** An element of the sequence that [dict] is given *)
Definition pair_of (j : json F) : result (json F * json F) :=
  match j with
  | JArr [k; v] => Ok (k, v)
  | JStr (String a (String b EmptyString)) => Ok (JStr (String a EmptyString), JStr (String b EmptyString))
  | JObj [(a, _); (b, _)] => Ok (JStr a, JStr b)
  | JArr _ | JStr _ | JObj _ => Raise (ValueError "dictionary update sequence element has the wrong length; 2 is required")
  | _ => Raise (TypeError "cannot convert dictionary update sequence element to a sequence")
  end.
(** A key, as [json.dumps] prints it *)
Definition key_text (j : json F) : result string :=
  match j with
  | JStr s => Ok s
  | JArr _ | JObj _ => Raise (TypeError "unhashable type")
  | j => Ok (dumps j)
  end.
Fixpoint dict_of_pairs (l : list (json F)) (d : odict (json F)) : result (odict (json F)) :=
  match l with
  | [] => Ok d
  | j :: l => '(k, v) ← pair_of j; k ← key_text k; dict_of_pairs l (dset k v d)
  end.
(** [dict(v or {})] of a dictionary or of a list of pairs; anything else raises. *)
Definition dict_copy (j : json F) : result (odict (json F)) :=
  if truthy j then
    match j with
    | JObj d => Ok d
    | JArr l => dict_of_pairs l []
    | JStr _ => Raise (ValueError "dictionary update sequence element has the wrong length; 2 is required")
    | _ => Raise (TypeError "object is not iterable")
    end
  else Ok [].

(** Ask for the usage of a stream. *)
Definition include_usage (routed : odict (json F)) : result (odict (json F)) :=
  opts ← dict_copy (pget "stream_options" routed);
  Ok (dset "stream_options" (JObj (dset "include_usage" (JBool true) opts)) routed).

Definition is_stream (routed : odict (json F)) : bool := truthy (pget "stream" routed).

(** The body sent to one candidate, and its metadata. *)
Definition route_body (body : odict (json F)) (session_key requested_model account upstream reason : string)
    : result (odict (json F) * odict (json F)) :=
  let routed := dset "model" (JStr upstream) body in
  routed ← (if is_stream routed then include_usage routed else Ok routed);
  meta ← dict_copy (pget "metadata" routed);
  let meta := dset "fugu_session_id" (JStr session_key) meta in
  let meta := dset "fugu_requested_model" (JStr requested_model) meta in
  let meta := dset "fugu_account_id" (JStr account) meta in
  let meta := dset "fugu_upstream_model" (JStr upstream) meta in
  let meta := dset "fugu_routing_reason" (JStr reason) meta in
  Ok (dset "metadata" (JObj meta) routed, meta).

(** [_direct_model_proxy]: the body sent, and the metadata recorded. *)
Definition direct_body (body : odict (json F)) (path : string)
    : result (odict (json F) * odict (json F)) :=
  let requested_model := str_or_empty (pget "model" body) in
  routed ← (if is_stream body && _chat_completion_path path then include_usage body else Ok body);
  let routed := _apply_glm_plain_text_defaults routed path in
  let has_request_metadata := is_obj (pget "metadata" routed) in
  meta ← dict_copy (pget "metadata" routed);
  let meta := dset "fugu_requested_model" (JStr requested_model) meta in
  let meta := dset "fugu_direct_model" (JStr requested_model) meta in
  let meta := dset "fugu_routing_reason" (JStr "direct-provider") meta in
  Ok (if has_request_metadata then dset "metadata" (JObj meta) routed else routed, meta).

(** ** Content-policy fallback *)

(** What is remembered of the answer that was blocked. *)
Record policy_detail := {
  pd_status : Z;
  pd_message : json F;
  pd_requested_model : string;
  pd_upstream_model : string;
  pd_account_id : string;
}.

(** The ["message"] of [_error_summary]; [obj] is what [_load_json] makes of the text. *)
Definition error_message (status_code : Z) (text : string) (obj : json F) : json F :=
  let fallback := JStr (if bool_decide (strip text = EmptyString)
                        then "HTTP " +:+ str_of_Z status_code else stake 1000 (strip text)) in
  match obj with
  | JObj d =>
      match pget "error" d with
      | JObj e => match pget "message" e with JNull => fallback | m => m end
      | JNull => match pget "message" d with JNull => fallback | m => JStr (json_str m) end
      | e => JStr (json_str e)
      end
  | _ => fallback
  end.

Definition _visible_notice_allowed (body : odict (json F)) : bool :=
  match pget "response_format" body with
  | JObj f =>
      match pget "type" f with
      | JStr t => if bool_decide (t ∈ ["json_object"; "json_schema"]%string) then false
                  else negb (existsb (fun k => truthy (pget k body)) ["tools"; "tool_choice"; "functions"; "function_call"]%string)
      | _ => negb (existsb (fun k => truthy (pget k body)) ["tools"; "tool_choice"; "functions"; "function_call"]%string)
      end
  | _ => negb (existsb (fun k => truthy (pget k body)) ["tools"; "tool_choice"; "functions"; "function_call"]%string)
  end.

Definition fallback_body (body : odict (json F)) (path session_key requested_model fallback_model : string)
    (d : policy_detail) : result (odict (json F) * odict (json F)) :=
  let routed := dset "model" (JStr fallback_model) body in
  routed ← (if is_stream routed then include_usage routed else Ok routed);
  let routed := _apply_glm_plain_text_defaults routed path in
  meta ← dict_copy (pget "metadata" routed);
  let meta := dset "fugu_session_id" (JStr session_key) meta in
  let meta := dset "fugu_requested_model" (JStr requested_model) meta in
  let meta := dset "fugu_routing_reason" (JStr "content-policy-fallback") meta in
  let meta := dset "fugu_fallback_model" (JStr fallback_model) meta in
  let meta := dset "fugu_fallback_from_model" (JStr (pd_upstream_model d)) meta in
  let meta := dset "fugu_fallback_from_account" (JStr (pd_account_id d)) meta in
  let meta := dset "fugu_fallback_original_status" (JInt (pd_status d)) meta in
  let meta := dset "fugu_fallback_original_message"
                (JStr (stake 500 (str_or_empty (pd_message d)))) meta in
  Ok (dset "metadata" (JObj meta) routed, meta).

(** ** Streams *)

(** The reader of [_forward_once]: bytes not yet ended by a line feed, and the
    payloads of the [data:] lines seen so far. *)
Record sse := { ss_pending : string; ss_payloads : list string }.

(** [bytes.strip]: ASCII white space only. *)
Definition is_bspace (c : ascii) : bool := (((9 <=? code c) && (code c <=? 13)) || (code c =? 32))%N.
Definition bstrip : string -> string := strip_by is_bspace.

(** The payload of one line, when it is a [data:] line that carries one. *)
Definition sse_line (line : string) : list string :=
  let line := bstrip line in
  if startswith "data:" line then
    let payload := bstrip (sdrop 5 line) in
    if bool_decide (payload = EmptyString) || bool_decide (payload = "[DONE]")%string then [] else [payload]
  else [].

(** The loop of [consume_sse]: split at line feeds as long as there is one; every
    turn removes a character, so the length of the text bounds the turns. *)
Fixpoint sse_lines (fuel : nat) (pending : string) (acc : list string) : sse :=
  match fuel, partition (String LF EmptyString) pending with
  | S fuel, Some (line, rest) => sse_lines fuel rest (acc ++ sse_line line)
  | _, _ => {| ss_pending := pending; ss_payloads := acc |}
  end.
Definition consume_sse (data : string) (s : sse) : sse :=
  let pending := ss_pending s +:+ data in
  sse_lines (S (String.length pending)) pending (ss_payloads s).

Definition sse_start : sse := {| ss_pending := EmptyString; ss_payloads := [] |}.
(** A whole stream: its chunks, then the [finally] clause. *)
Definition sse_stream (chunks : list string) : list string :=
  let s := foldl (fun s c => consume_sse c s) sse_start chunks in
  ss_payloads (if bool_decide (bstrip (ss_pending s) = EmptyString) then s
               else consume_sse (String LF EmptyString) s).

(** [_stream_event_metadata] of a decoded event *)
Definition _stream_event_metadata (obj : json F) : odict (json F) :=
  match obj with
  | JObj d =>
      let out := foldl (fun out k => match pget k d with JNull => out | v => dset k v out end) []
                   ["id"; "object"; "created"; "model"]%string in
      let out := match pget "usage" d with
                 | JObj ((_ :: _) as u) => dset "usage" (JObj u) out
                 | _ => out
                 end in
      match pget "choices" d with
      | JArr choices =>
          let out := dset "choice_count" (JInt (Z.of_nat (length choices))) out in
          let reasons := flat_map (fun c =>
            match c with
            | JObj c => match pget "finish_reason" c with JNull => [] | r => [r] end
            | _ => []
            end) choices in
          match reasons with [] => out | _ => dset "finish_reasons" (JArr reasons) out end
      | _ => out
      end
  | _ => []
  end.

(** [_stream_response_obj]: the first identity and the last usage of a stream. *)
Definition stream_usage (event : odict (json F)) : option (odict (json F)) :=
  match pget "usage" event with JObj ((_ :: _) as u) => Some u | _ => None end.
Definition setdefault (k : string) (v : json F) (d : odict (json F)) : odict (json F) :=
  if dmem k d then d else dset k v d.
Definition _stream_response_obj (events : list (odict (json F))) : odict (json F) :=
  let response :=
    foldl (fun response event =>
      let response := foldl (fun r k => match pget k event with JNull => r | v => setdefault k v r end)
                        response ["id"; "created"; "model"]%string in
      match stream_usage event with Some u => dset "usage" (JObj u) response | None => response end)
      [("object", JStr "chat.completion.stream")]%string events in
  let usage_events := flat_map (fun event =>
    match stream_usage event with
    | Some u => [JObj [("id", pget "id" event); ("model", pget "model" event); ("usage", JObj u)]%string]
    | None => []
    end) events in
  dset "metadata" (JObj [("stream", JBool true);
    ("stream_chunk_count", JInt (Z.of_nat (length events)));
    ("stream_usage_seen", JBool (negb (bool_decide (length usage_events = 0%nat))));
    ("stream_usage_events", JArr usage_events)]%string) response.
End policy.
Arguments policy_detail F : clear implicits.
