(* ===== verification/FuguNames.v ===== *)
(** * Fugu router: names of accounts and models

    The name the router sends upstream is read back by regular expressions, in the
    ledger and in the dashboard; this file proves that the round trip is exact, with
    the matcher of the file Regex. *)

From stdpp Require Import base option list strings.
From Stdlib Require Import ZArith Lia Ascii.
From S2P Require Import Prelude PyStr PyFloat Json Regex Decimal FuguCredit FuguPolicy.

Local Open Scope py_scope.

(** ** Digits *)

Lemma digit_not (c : ascii) (d : ascii) : is_digit d = false -> is_digit c = true -> eqc d c = false.
Proof. intros Hd Hc. apply bool_decide_false. congruence. Qed.

Lemma startswith_digit p n : sall is_digit n = true ->
  match p with String a _ => is_digit a = false | EmptyString => False end -> startswith p n = false.
Proof.
  destruct p as [|a p]; [done|]. intros Hn Ha. destruct n as [|c n]; [done|]. simpl in *.
  apply andb_true_iff in Hn as [Hc _]. rewrite (digit_not c a) by done. done.
Qed.

Lemma replace_digits fuel old new n : sall is_digit n = true ->
  match old with String a _ => is_digit a = false | EmptyString => False end ->
  replace_fuel fuel old new n = n.
Proof.
  intros Hn Ha. revert n Hn. induction fuel as [|fuel IH]; intros n Hn; [done|].
  destruct n as [|c n]; [done|]. simpl replace_fuel. rewrite startswith_digit by done.
  simpl in Hn. apply andb_true_iff in Hn as [_ Hn]. by rewrite IH.
Qed.

Lemma upstream_model_sub m n : sall is_digit n = true ->
  upstream_model m ("sub" +:+ n) = (m +:+ "-sub-" +:+ n)%string.
Proof.
  intros Hn. unfold upstream_model, replace.
  transitivity (m +:+ "-" +:+ ("sub-" +:+ replace_fuel (S (S (String.length n))) "sub" "sub-" n))%string; [done|].
  rewrite replace_digits by done. done.
Qed.

(** ** The account in a model name *)

Definition L (c : ascii) : re := RSet (fold_case false (eqc c)).
Definition D : re := RSet (fold_case false is_digit).
Definition opt (r : re) : re := RAlt r REps.

Lemma sub_re_shape : sub_re =
  RCat (RAlt (RCat RBol REps) (RCat (L "-") REps))
    (RCat (L "s") (RCat (L "u") (RCat (L "b") (RCat (opt (L "-"))
      (RCat (RGroup "1" (RCat (RCat D (RStar D)) REps)) (RCat REol REps)))))).
Proof. reflexivity. Qed.

(** What can stand between the start and the end of a match of [sub_re]. *)
Lemma matches_L c x y : matches (L c) x y -> after x = String c (after y).
Proof.
  intros Hm. inversion Hm; subst. simpl. unfold fold_case in *. simpl in *. rewrite orb_false_r in *.
  match goal with E : eqc c _ = true |- _ => apply bool_decide_eq_true in E; by subst end.
Qed.
Lemma matches_D x y : matches D x y -> exists c, is_digit c = true /\ after x = String c (after y).
Proof.
  intros Hm. inversion Hm; subst. simpl. unfold fold_case in *. simpl in *. rewrite orb_false_r in *. by eexists.
Qed.
Lemma matches_digits x y : matches (RStar D) x y ->
  exists w, sall is_digit w = true /\ after x = (w +:+ after y)%string.
Proof.
  intros Hm. remember (RStar D) as r eqn:Er. induction Hm; try discriminate Er.
  - by exists EmptyString.
  - injection Er as ->. destruct (IHHm2 eq_refl) as (w & Hw & E).
    apply matches_D in Hm1 as (c & Hc & E1). exists (String c w). simpl. rewrite Hc, E1, E. done.
Qed.

(** Take a match of a concrete pattern apart. *)
Ltac invert_matches :=
  repeat match goal with
  | H : matches (RCat _ _) _ _ |- _ => inversion H; clear H; subst
  | H : matches REps _ _ |- _ => inversion H; clear H; subst
  | H : matches RBol _ _ |- _ => inversion H; clear H; subst
  | H : matches REol _ _ |- _ => inversion H; clear H; subst
  | H : matches (RGroup _ _) _ _ |- _ => inversion H; clear H; subst
  | H : matches (L _) _ _ |- _ => apply matches_L in H
  | H : matches D _ _ |- _ => apply matches_D in H as (? & ? & ?)
  | H : matches (RStar D) _ _ |- _ => apply matches_digits in H as (? & ? & ?)
  end.

Lemma matches_dash a x y : (forall x y, matches a x y -> after x = after y) ->
  matches (RAlt (L "-") a) x y \/ matches (RAlt a (RCat (L "-") REps)) x y ->
  exists w, after x = (w +:+ after y)%string /\ (w = EmptyString \/ w = "-"%string).
Proof.
  intros Ha [Hm|Hm]; inversion Hm as [| | |? ? ? ? Hl|? ? ? ? Hr| | | | | | |]; subst.
  - exists "-"%string. apply matches_L in Hl. by auto.
  - exists EmptyString. apply Ha in Hr. by auto.
  - exists EmptyString. apply Ha in Hl. by auto.
  - exists "-"%string. invert_matches. by auto.
Qed.

Lemma matches_sub x y : matches sub_re x y ->
  exists w n, after x = (w +:+ n +:+ after y)%string /\ sall is_digit n = true /\ at_end (after y) = true /\
    w ∈ ["sub"; "sub-"; "-sub"; "-sub-"]%string.
Proof.
  rewrite sub_re_shape. intros Hm.
  invert_matches.
  match goal with H1 : matches (RAlt (RCat RBol REps) _) _ _, H2 : matches (opt _) _ _ |- _ =>
    destruct (matches_dash (RCat RBol REps) _ _ ltac:(intros ? ? Hb; invert_matches; done) (or_intror H1)) as (w1 & E1 & W1);
    destruct (matches_dash REps _ _ ltac:(intros ? ? Hb; invert_matches; done) (or_introl H2)) as (w2 & E2 & W2);
    clear H1 H2 end.
  match goal with Hc : is_digit ?c = true, Hn : sall is_digit ?n = true |- _ =>
    exists (w1 +:+ "sub" +:+ w2)%string, (String c n); split_and!; [|by simpl; rewrite Hc, Hn|done|] end.
  - rewrite E1, !string_app_assoc. f_equal. simpl.
    repeat match goal with E : after _ = _ |- _ => rewrite E; clear E end. by rewrite ?string_app_assoc.
  - destruct W1 as [-> | ->], W2 as [-> | ->]; by apply (bool_decide_unpack _).
Qed.

(** Text without an [s]. *)
Definition no_s (c : ascii) : bool := negb (eqc "s" c).
Lemma digits_no_s n : sall is_digit n = true -> sall no_s n = true.
Proof.
  induction n as [|c n IH]; [done|]. simpl. intros [Hc Hn]%andb_true_iff. rewrite IH by done.
  unfold no_s. by rewrite (digit_not c "s").
Qed.
Lemma at_end_no_s e : at_end e = true -> sall no_s e = true.
Proof.
  destruct e as [|c [|d e]]; [done| |done]. simpl. intros Hc. apply bool_decide_eq_true in Hc. by subst c.
Qed.

Lemma sub_re_late x c u v : after x = String c (u +:+ "-s" +:+ v) -> match_at sub_re x = None.
Proof.
  intros Hx. destruct (match_at sub_re x) as [m|] eqn:E; [|done]. exfalso.
  apply match_at_sound in E as [_ Hm]. apply matches_sub in Hm as (w & n & Ew & Hn & He & Hw).
  apply digits_no_s in Hn. apply at_end_no_s in He.
  assert (sall no_s (sdrop 2 (after x)) = true) as Hs.
  { rewrite Ew. assert (sall no_s (n +:+ after (mt_end m)) = true) as Ht by (by rewrite sall_app, Hn, He).
    rewrite !elem_of_cons, elem_of_nil in Hw. destruct Hw as [->|[->|[->|[->|[]]]]]; simpl; by rewrite ?Ht. }
  rewrite Hx in Hs. destruct u as [|d u]; simpl in Hs; [done|].
  rewrite sall_app in Hs. simpl in Hs. by rewrite andb_false_r in Hs.
Qed.

(** ** The greedy match *)

Section greedy.
Context {R : Type}.
Implicit Types (g : captures) (k : pos -> captures -> option R).

Fixpoint last_of (b : option ascii) (s : string) : option ascii :=
  match s with EmptyString => b | String c s => last_of (Some c) s end.

Lemma star_digits m n b g k v fuel :
  (forall b g k, m (Pos b EmptyString) g k = None) ->
  (forall b c s g k, is_digit c = true -> m (Pos b (String c s)) g k = k (Pos (Some c) s) g) ->
  sall is_digit n = true -> (String.length n <= fuel)%nat ->
  k (Pos (last_of b n) EmptyString) g = Some v -> star (R := R) m fuel (Pos b n) g k = Some v.
Proof.
  intros M0 M1. revert b fuel. induction n as [|c n IH]; intros b fuel Hn Hf Hk.
  - destruct fuel; simpl in *; by rewrite ?M0, Hk.
  - simpl in *. apply andb_true_iff in Hn as [Hc Hn]. destruct fuel as [|fuel]; [simpl in *; lia|].
    simpl. rewrite M1 by done. simpl.
    assert ((String.length n <? S (String.length n))%nat = true) as -> by (apply Nat.ltb_lt; lia).
    rewrite (IH (Some c) fuel); [done|done|lia|done].
Qed.

Lemma stake_all s n : (String.length s <= n)%nat -> stake n s = s.
Proof. revert n. induction s as [|c s IH]; intros [|n] Hn; simpl in *; try done; [lia|]. rewrite IH by lia. done. Qed.

Lemma group_digits c n b g k v : is_digit c = true -> sall is_digit n = true ->
  k (Pos (last_of (Some c) n) EmptyString) (dset "1" (String c n) g) = Some v ->
  run (RGroup "1" (RCat (RCat D (RStar D)) REps)) (Pos b (String c n)) g k = Some v.
Proof.
  intros Hc Hn Hk. simpl. unfold fold_case. rewrite Hc. simpl.
  apply star_digits; [done| |done|done|].
  { intros ? ? ? ? ? Hd. simpl. by rewrite Hd. }
  unfold between. simpl. by rewrite stake_all by lia.
Qed.
End greedy.

Lemma sub_re_found b c n : is_digit c = true -> sall is_digit n = true ->
  match_at sub_re (Pos b ("-sub-" +:+ String c n)) =
  Some (Mtch (Pos b ("-sub-" +:+ String c n)) (Pos (last_of (Some c) n) EmptyString) [("1"%string, String c n)]).
Proof.
  intros Hc Hn. rewrite sub_re_shape. unfold match_at. remember (RGroup "1" (RCat (RCat D (RStar D)) REps)) as G eqn:EG.
  assert (forall b x, run G (Pos b (String c n)) []
     (fun y g => run (RCat REol REps) y g (fun y g => Some (Mtch x y g))) =
     Some (Mtch x (Pos (last_of (Some c) n) EmptyString) [("1"%string, String c n)])) as Hr.
  { intros b' x. subst G. by apply group_digits. }
  destruct b; simpl in *; by rewrite Hr.
Qed.

Lemma search_here r b s m : match_at r (Pos b s) = Some m -> search_from r b s = Some m.
Proof. intros Hm. destruct s; simpl; by rewrite Hm. Qed.
Lemma search_skip r b c s : match_at r (Pos b (String c s)) = None ->
  search_from r b (String c s) = search_from r (Some c) s.
Proof. intros Hm. simpl. by rewrite Hm. Qed.

Lemma search_suffix p b c n : is_digit c = true -> sall is_digit n = true ->
  exists m, search_from sub_re b (p +:+ "-sub-" +:+ String c n) = Some m /\
    mt_groups m = [("1"%string, String c n)].
Proof.
  intros Hc Hn. revert b. induction p as [|a p IH]; intros b.
  - eexists. split; [by apply search_here, sub_re_found|done].
  - destruct (IH (Some a)) as (m & Em & Gm). exists m. split; [|done].
    change (String a p +:+ ?s) with (String a (p +:+ s)). rewrite search_skip; [done|].
    by apply (sub_re_late _ a p ("ub-" +:+ String c n)).
Qed.

Lemma account_from_model_sub p c n : is_digit c = true -> sall is_digit n = true ->
  account_from_model (p +:+ "-sub-" +:+ String c n) = Some ("sub" +:+ String c n)%string.
Proof.
  intros Hc Hn. unfold account_from_model, re_search. rewrite bool_decide_false by (by destruct p).
  destruct (search_suffix p None c n Hc Hn) as (m & -> & ->). done.
Qed.

(** ** The public name *)

(** A pattern that starts with plain characters. *)
Fixpoint word (w : string) (r : re) : re :=
  match w with EmptyString => r | String c w => RCat (L c) (word w r) end.
Definition digits_end : re := RCat (RCat D (RStar D)) (RCat REol REps).

Lemma ultra_re_shape : ultra_re = RCat RBol (word "fugu-ultra-sub-" digits_end).
Proof. reflexivity. Qed.
Lemma fugu_re_shape : fugu_re = RCat RBol (word "fugu-sub-" digits_end).
Proof. reflexivity. Qed.

Lemma run_word {R} w r b t g (k : pos -> captures -> option R) :
  run (word w r) (Pos b t) g k =
  if startswith w t then run r (Pos (last_of b w) (sdrop (String.length w) t)) g k else None.
Proof.
  revert b t. induction w as [|c w IH]; intros b t; simpl; [done|].
  destruct t as [|d t]; [done|]. unfold fold_case. simpl. rewrite orb_false_r.
  unfold eqc. case_bool_decide; [|done]. simpl. subst d. apply IH.
Qed.

Lemma re_match_digits w c n : is_digit c = true -> sall is_digit n = true ->
  found (re_match (RCat RBol (word w digits_end)) (w +:+ String c n)) = true.
Proof.
  intros Hc Hn. unfold re_match, match_at. cbn [run before]. rewrite run_word, startswith_app, sdrop_app.
  unfold digits_end. cbn [run after D]. unfold fold_case. rewrite Hc. simpl orb. cbv iota.
  match goal with |- found ?o = true => destruct o eqn:E; [done|exfalso] end.
  revert E. erewrite star_digits; [done|done| |done|done|done].
  intros ? ? ? ? ? Hd. simpl. by rewrite Hd.
Qed.
Lemma re_match_other w s : startswith w s = false -> re_match (RCat RBol (word w digits_end)) s = None.
Proof. intros Hs. unfold re_match, match_at. cbn [run before]. by rewrite run_word, Hs. Qed.

Lemma normalize_sub m c n : m ∈ MODEL_PUBLIC_NAMES -> is_digit c = true -> sall is_digit n = true ->
  _normalize_public_model (m +:+ "-sub-" +:+ String c n) = m.
Proof.
  intros Hm Hc Hn. unfold _normalize_public_model. rewrite ultra_re_shape, fugu_re_shape.
  rewrite bool_decide_false by (by destruct m). unfold MODEL_PUBLIC_NAMES in Hm.
  rewrite !elem_of_cons, elem_of_nil in Hm. destruct Hm as [->|[->|[]]].
  - change ("fugu-ultra" +:+ "-sub-" +:+ String c n)%string with ("fugu-ultra-sub-" +:+ String c n)%string.
    by rewrite re_match_digits.
  - rewrite (re_match_other "fugu-ultra-sub-") by done. cbn [found].
    change ("fugu" +:+ "-sub-" +:+ String c n)%string with ("fugu-sub-" +:+ String c n)%string.
    by rewrite re_match_digits.
Qed.

Lemma direct_alias_fugu s : direct_alias ("fugu" +:+ s) = None.
Proof. reflexivity. Qed.

Lemma requested_model_sub m c n : m ∈ MODEL_PUBLIC_NAMES ->
  requested_model_from_upstream (m +:+ "-sub-" +:+ String c n) = Some m.
Proof.
  intros Hm. unfold MODEL_PUBLIC_NAMES in Hm.
  rewrite !elem_of_cons, elem_of_nil in Hm. destruct Hm as [->|[->|[]]]; reflexivity.
Qed.

(** The name sent upstream identifies the subscription and the model: for a model
    and a subscription number, the ledger reads back exactly that account and that
    model, and the dashboard that model; and the account is read back from any other
    name that ends like that. *)
Theorem names_read_back m c n : m ∈ MODEL_PUBLIC_NAMES -> sall is_digit (String c n) = true ->
  let up := upstream_model m ("sub" +:+ String c n)%string in
  account_from_model up = Some ("sub" +:+ String c n)%string /\
  requested_model_from_upstream up = Some m /\ _normalize_public_model up = m /\
  forall p, account_from_model (p +:+ "-sub-" +:+ String c n) = Some ("sub" +:+ String c n)%string.
Proof.
  intros Hm Hs up. subst up. rewrite upstream_model_sub by done.
  simpl in Hs. apply andb_true_iff in Hs as [Hc Hn].
  split_and!; [by apply account_from_model_sub|by apply requested_model_sub|by apply normalize_sub|].
  intros p. by apply account_from_model_sub.
Qed.

Lemma names_read_back_witness :
  let up := upstream_model "fugu-ultra" "sub12" in
  account_from_model up = Some "sub12"%string /\
  requested_model_from_upstream up = Some "fugu-ultra"%string /\ _normalize_public_model up = "fugu-ultra"%string /\
  forall p, account_from_model (p +:+ "-sub-" +:+ "12") = Some "sub12"%string.
Proof. exact (names_read_back "fugu-ultra" "1" "2" (list_elem_of_here _ _) eq_refl). Defined.
