(* ===== verification/FuguRouter.v ===== *)
(** * Fugu router: assignments, cooldowns and failover

    [deploy/fugu-router/fugu_session_router.py], the part that keeps state in the
    database, and the rows [seed_accounts] of fugu_credit.py maintains.  Clocks are
    arguments: [now] is the process clock, [db_now] the clock of PostgreSQL. *)

From stdpp Require Import base option list strings gmap.
From Stdlib Require Import ZArith Lia Ascii.
From S2P Require Import Prelude PyStr PyFloat PyTime Json Regex Decimal FuguCredit FuguLedger FuguPolicy.

Local Open Scope Z_scope.
Local Open Scope py_scope.

(** ** Tables *)

Record account := {
  ac_display_name : string;
  ac_billing_plan : option string;
  ac_enabled : bool;
  ac_priority : Z;
}.
Record deployment := { dp_upstream : string; dp_enabled : bool }.
Record window := {
  wi_anchor : instant;
  wi_interval : Z;
  wi_allowance : option dec;
  wi_source : string;
}.
Record assignment := {
  as_account : string;
  as_upstream : string;
  as_last_used : instant;
  as_failover_count : Z;
  as_active : bool;
  as_reason : string;
}.
Record decision := {
  de_session : string;
  de_model : string;
  de_account : string;
  de_upstream : string;
  de_reason : string;
}.

(** Primary keys: the account; the model and the account; the account and the
    window kind; the account and the model; the session and the model. *)
Record db (F : Type) := {
  db_accounts : gmap string account;
  db_deployments : gmap (string * string) deployment;
  db_windows : gmap (string * string) window;
  db_cooldowns : gmap (string * string) instant;
  db_assignments : gmap (string * string) assignment;
  db_decisions : list decision;
  db_ledger : odict (odict (cell F));
}.
Arguments db_accounts {F}.
Arguments db_deployments {F}.
Arguments db_windows {F}.
Arguments db_cooldowns {F}.
Arguments db_assignments {F}.
Arguments db_decisions {F}.
Arguments db_ledger {F}.

Section router.
Context {F : Type} `{PyFloat F}.

Definition with_accounts (x : gmap string account) (d : db F) : db F := {|
  db_accounts := x; db_deployments := db_deployments d; db_windows := db_windows d;
  db_cooldowns := db_cooldowns d; db_assignments := db_assignments d;
  db_decisions := db_decisions d; db_ledger := db_ledger d |}.
Definition with_deployments (x : gmap (string * string) deployment) (d : db F) : db F := {|
  db_accounts := db_accounts d; db_deployments := x; db_windows := db_windows d;
  db_cooldowns := db_cooldowns d; db_assignments := db_assignments d;
  db_decisions := db_decisions d; db_ledger := db_ledger d |}.
Definition with_windows (x : gmap (string * string) window) (d : db F) : db F := {|
  db_accounts := db_accounts d; db_deployments := db_deployments d; db_windows := x;
  db_cooldowns := db_cooldowns d; db_assignments := db_assignments d;
  db_decisions := db_decisions d; db_ledger := db_ledger d |}.
Definition with_cooldowns (x : gmap (string * string) instant) (d : db F) : db F := {|
  db_accounts := db_accounts d; db_deployments := db_deployments d; db_windows := db_windows d;
  db_cooldowns := x; db_assignments := db_assignments d;
  db_decisions := db_decisions d; db_ledger := db_ledger d |}.
Definition with_assignments (x : gmap (string * string) assignment) (d : db F) : db F := {|
  db_accounts := db_accounts d; db_deployments := db_deployments d; db_windows := db_windows d;
  db_cooldowns := db_cooldowns d; db_assignments := x;
  db_decisions := db_decisions d; db_ledger := db_ledger d |}.
Definition with_decisions (x : list decision) (d : db F) : db F := {|
  db_accounts := db_accounts d; db_deployments := db_deployments d; db_windows := db_windows d;
  db_cooldowns := db_cooldowns d; db_assignments := db_assignments d;
  db_decisions := x; db_ledger := db_ledger d |}.
Definition with_ledger (x : odict (odict (cell F))) (d : db F) : db F := {|
  db_accounts := db_accounts d; db_deployments := db_deployments d; db_windows := db_windows d;
  db_cooldowns := db_cooldowns d; db_assignments := db_assignments d;
  db_decisions := db_decisions d; db_ledger := x |}.

(** ** [seed_accounts]: the statements for one subscription *)

Definition seed_account (id display : string) (billing : option string) (index : Z) (d : db F) : db F :=
  let old := db_accounts d !! id in
  with_accounts (<[id := {|
    ac_display_name := display;
    ac_billing_plan := match billing with Some b => Some b | None => a ← old; ac_billing_plan a end;
    ac_enabled := true; ac_priority := index |}]> (db_accounts d)) d.

Definition seed_deployment (id model : string) (d : db F) : db F :=
  with_deployments (<[(model, id) := {| dp_upstream := upstream_model model id; dp_enabled := true |}]>
    (db_deployments d)) d.

(** The interval text of an existing row is not updated. *)
Definition seed_window (id kind : string) (interval : Z) (env_anchor : option instant)
    (allowance : option dec) (now : instant) (d : db F) : db F :=
  let anchor := default (_default_anchor kind now) env_anchor in
  let w := match db_windows d !! (id, kind) with
           | None => {| wi_anchor := anchor; wi_interval := interval; wi_allowance := allowance;
                        wi_source := if env_anchor is Some _ then "env" else "default" |}
           | Some old => {|
               wi_anchor := if env_anchor is Some _ then anchor else wi_anchor old;
               wi_interval := wi_interval old;
               wi_allowance := match allowance with Some a => Some a | None => wi_allowance old end;
               wi_source := if env_anchor is Some _ then "env" else wi_source old |}
           end in
  with_windows (<[(id, kind) := w]> (db_windows d)) d.

(** [WINDOWS], with PostgreSQL's month of thirty days as psycopg returns it. *)
Definition WINDOWS : list (string * Z) :=
  [("5h", hours 5); ("week", days 7); ("month", days 30)]%string.

(** One turn of the loop of [seed_accounts]; [anchors] and [allowances] are what
    [_env_time] and [_env_decimal] read for each window. *)
Definition seed_subscription (index : Z) (has_key enabled_flag : bool) (label : option string)
    (billing : option string) (anchors : string -> option instant) (allowances : string -> option dec)
    (now : instant) (d : db F) : db F :=
  if negb has_key && negb enabled_flag then d
  else
    let id := "sub" +:+ str_of_Z index in
    let d := seed_account id (default ("Subscription " +:+ str_of_Z index) label) billing index d in
    let d := foldl (fun d m => seed_deployment id m d) d MODEL_PUBLIC_NAMES in
    foldl (fun d w => seed_window id w.1 w.2 (anchors w.1) (allowances w.1) now d) d WINDOWS.

(** ** Routing *)

Definition cooling (d : db F) (db_now : instant) (id model : string) : bool :=
  match db_cooldowns d !! (id, model) with Some until => db_now <? until | None => false end.

(** A row of the first query: an account that is enabled, deployed for the model
    and not cooling down. *)
Record choice := { ch_account : string; ch_priority : Z; ch_upstream : string }.
Definition eligible (d : db F) (db_now : instant) (model : string) (kv : string * account) : option choice :=
  match db_deployments d !! (model, kv.1) with
  | Some dp =>
      if ac_enabled kv.2 && dp_enabled dp && negb (cooling d db_now kv.1 model)
      then Some {| ch_account := kv.1; ch_priority := ac_priority kv.2; ch_upstream := dp_upstream dp |}
      else None
  | None => None
  end.

(** A stable sort; CPython's [list.sort] only uses [<] and is stable, so for a
    weak order it returns the same list. *)
Fixpoint insert_by {A} (lt : A -> A -> result bool) (x : A) (l : list A) : result (list A) :=
  match l with
  | [] => Ok [x]
  | y :: l =>
      match lt x y with
      | Ok true => Ok (x :: y :: l)
      | Ok false => r ← insert_by lt x l; Ok (y :: r)
      | Raise e => Raise e
      end
  end.
Fixpoint sort_by {A} (lt : A -> A -> result bool) (acc l : list A) : result (list A) :=
  match l with
  | [] => Ok acc
  | x :: l => acc ← insert_by lt x acc; sort_by lt acc l
  end.

(** [ORDER BY a.priority, a.account_id] *)
Definition choice_ltb (a b : choice) : result bool :=
  Ok ((ch_priority a <? ch_priority b) ||
      ((ch_priority a =? ch_priority b) && String.ltb (ch_account a) (ch_account b))).
Definition eligible_accounts (d : db F) (db_now : instant) (model : string) : result (list choice) :=
  sort_by choice_ltb [] (omap (eligible d db_now model) (map_to_list (db_accounts d))).

Definition is_text (s : string) (c : cell F) : bool :=
  match c with CText (JStr t) => bool_decide (t = s) | _ => false end.
(** A row the window of an account counts. *)
Definition counted (id model : string) (start : instant) (r : odict (cell F)) : bool :=
  is_text id (cell_of "account_id" r) && is_text model (cell_of "requested_model" r) &&
  is_text "success" (cell_of "status" r) &&
  match cell_of "start_time" r with CTime t => start <=? t | _ => false end.
(** PostgreSQL adds [numeric]s exactly. *)
Definition nadd (x y : fdec) : fdec :=
  let c := Z.min x.2 y.2 in (align x.1 x.2 c + align y.1 y.2 c, c).
Definition row_units (r : odict (cell F)) : fdec :=
  match cell_of "usage_units" r with CNum (DFin m e) => (m, e) | _ => (0, 0) end.
Definition used_units (d : db F) (id model : string) (start : instant) : fdec :=
  foldr (fun r acc => nadd (row_units r) acc) (0, 0)
    (List.filter (counted id model start) (dvalues (db_ledger d))).

Definition window_score (d : db F) (now : instant) (model id kind : string) : result dec :=
  match db_windows d !! (id, kind) with
  | None => Ok (DFin 0 0)
  | Some w =>
      let used := used_units d id model (_window_start (wi_anchor w) (wi_interval w) now) in
      match wi_allowance w with
      | Some a => if dtruthy a then ddiv (DF used) a else Ok (DF used)
      | None => Ok (DF used)
      end
  end.

Record candidate := { ca_account : string; ca_upstream : string; ca_key : list dec }.

Definition candidate_of (d : db F) (now : instant) (model : string) (a : choice) : result candidate :=
  s5 ← window_score d now model (ch_account a) "5h";
  sw ← window_score d now model (ch_account a) "week";
  sm ← window_score d now model (ch_account a) "month";
  Ok {| ca_account := ch_account a; ca_upstream := ch_upstream a;
        ca_key := [s5; sw; sm; DFin (ch_priority a) 0] |}.

(** Tuple [<]: the first components that are not equal decide. *)
Fixpoint key_ltb (a b : list dec) : result bool :=
  match a, b with
  | x :: a, y :: b => if deqb x y then key_ltb a b else dltb x y
  | [], _ :: _ => Ok true
  | _, [] => Ok false
  end.
Fixpoint mapM_r {A B} (f : A -> result B) (l : list A) : result (list B) :=
  match l with [] => Ok [] | x :: l => y ← f x; r ← mapM_r f l; Ok (y :: r) end.

Definition _routing_candidates (d : db F) (now db_now : instant) (model : string) : result (list candidate) :=
  accounts ← eligible_accounts d db_now model;
  candidates ← mapM_r (candidate_of d now model) accounts;
  sort_by (fun a b => key_ltb (ca_key a) (ca_key b)) [] candidates.

(** ** Assignments *)

(** The assignment row of a session whose account may still be used. *)
Definition existing_assignment (d : db F) (db_now : instant) (session model : string) : option assignment :=
  a ← db_assignments d !! (session, model);
  ac ← db_accounts d !! as_account a;
  dp ← db_deployments d !! (model, as_account a);
  if as_active a && ac_enabled ac && dp_enabled dp && negb (cooling d db_now (as_account a) model)
  then Some a else None.

Definition touch (session model : string) (db_now : instant) (d : db F) : db F :=
  match db_assignments d !! (session, model) with
  | None => d
  | Some a => with_assignments (<[(session, model) := {|
      as_account := as_account a; as_upstream := as_upstream a; as_last_used := db_now;
      as_failover_count := as_failover_count a; as_active := as_active a; as_reason := as_reason a |}]>
      (db_assignments d)) d
  end.

Definition _upsert_assignment (session model account upstream reason : string) (db_now : instant)
    (d : db F) : db F :=
  let failovers := match db_assignments d !! (session, model) with
                   | Some a => as_failover_count a | None => 0 end in
  with_assignments (<[(session, model) := {|
    as_account := account; as_upstream := upstream; as_last_used := db_now;
    as_failover_count := failovers; as_active := true; as_reason := reason |}]> (db_assignments d)) d.

Definition _mark_failover_assignment (session model account upstream : string) (db_now : instant)
    (d : db F) : db F :=
  let d := _upsert_assignment session model account upstream "limit-failover" db_now d in
  match db_assignments d !! (session, model) with
  | None => d
  | Some a => with_assignments (<[(session, model) := {|
      as_account := as_account a; as_upstream := as_upstream a; as_last_used := as_last_used a;
      as_failover_count := as_failover_count a + 1; as_active := as_active a; as_reason := as_reason a |}]>
      (db_assignments d)) d
  end.

Definition _record_decision (session model account upstream reason : string) (d : db F) : db F :=
  with_decisions (db_decisions d ++ [{| de_session := session; de_model := model;
    de_account := account; de_upstream := upstream; de_reason := reason |}]) d.

Definition _cooldown (account model : string) (cooldown_seconds : Z) (db_now : instant) (d : db F) : db F :=
  with_cooldowns (<[(account, model) := db_now + seconds cooldown_seconds]> (db_cooldowns d)) d.

(** The first candidate of the account moves to the front. *)
Fixpoint pull (account : string) (l : list candidate) : option (candidate * list candidate) :=
  match l with
  | [] => None
  | c :: l => if bool_decide (ca_account c = account) then Some (c, l)
              else '(x, r) ← pull account l; Some (x, c :: r)
  end.
Definition to_front (account : string) (l : list candidate) : list candidate :=
  match pull account l with Some (c, r) => c :: r | None => l end.

Record assigned := {
  sg_account : string;
  sg_upstream : string;
  sg_candidates : list candidate;
  sg_reason : string;
}.

Definition _assignment (session model : string) (now db_now : instant) (d : db F) : result (assigned * db F) :=
  candidates ← _routing_candidates d now db_now model;
  match existing_assignment d db_now session model with
  | Some a =>
      Ok ({| sg_account := as_account a; sg_upstream := as_upstream a;
             sg_candidates := to_front (as_account a) candidates; sg_reason := "sticky" |},
          touch session model db_now d)
  | None =>
      match candidates with
      | [] => Ok ({| sg_account := "sub1"; sg_upstream := upstream_model model "sub1";
                     sg_candidates := []; sg_reason := "fallback-no-db-candidates" |}, d)
      | c :: _ =>
          let d := _upsert_assignment session model (ca_account c) (ca_upstream c) "new" db_now d in
          let d := _record_decision session model (ca_account c) (ca_upstream c) "new" d in
          Ok ({| sg_account := ca_account c; sg_upstream := ca_upstream c;
                 sg_candidates := candidates; sg_reason := "new" |}, d)
      end
  end.

(** ** The proxy *)

(** What the upstream answers; [rs_json] is the decoded body, when it is JSON, and a
    streaming answer has no body to look at. *)
Record response := {
  rs_status : Z;
  rs_text : string;
  rs_json : option (json F);
  rs_streaming : bool;
  rs_headers : odict string;
}.

Definition _decimal_header (headers : odict string) (name : string) : json F :=
  match dget name headers with
  | Some v => match parse_number v with Some _ => JStr v | None => JNull end
  | None => JNull
  end.

Definition lower_keys (h : odict string) : odict string :=
  foldl (fun acc kv => dset (lower kv.1) kv.2 acc) [] h.
Definition strings (h : odict string) : odict (json F) := map (fun kv => (kv.1, JStr kv.2)) h.

(** The call that [_write_proxy_ledger] hands to [write_ledger], and the response
    object with the upstream's headers in its metadata. *)
Definition proxy_response_obj (obj : json F) (response_headers : odict string) : json F :=
  match obj with
  | JObj d => JObj (dset "metadata"
      (JObj (dset "fugu_response_headers" (JObj (strings response_headers)) (dict_or_empty (pget "metadata" d)))) d)
  | j => j
  end.
Definition proxy_kwargs (request_headers : odict string) (path requested_model upstream : string)
    (metadata : odict (json F)) (status_code : Z) (response_headers : odict string) (obj : json F)
    : odict (json F) :=
  [("model", JStr upstream);
   ("call_type", JStr path);
   ("litellm_params", JObj [("metadata", JObj metadata)]);
   ("proxy_server_request", JObj [("headers", JObj (strings request_headers))]);
   ("standard_logging_object", JObj
     [("request_id", match obj with JObj d => pget "id" d | _ => JNull end);
      ("model", JStr requested_model);
      ("model_group", JStr upstream);
      ("status_code", JInt status_code);
      ("call_type", JStr path);
      ("response_cost", _decimal_header response_headers "x-litellm-response-cost");
      ("response_cost_original", _decimal_header response_headers "x-litellm-response-cost-original");
      ("response_duration_ms", _decimal_header response_headers "x-litellm-response-duration-ms");
      ("response_headers", JObj (strings response_headers))])]%string.

Definition _write_proxy_ledger (request_headers : odict string) (path requested_model upstream : string)
    (metadata : odict (json F)) (status_code : Z) (response_headers : odict string) (obj : json F)
    (started_at ended_at : instant) (missing : string) (d : db F) : result (db F) :=
  let request_headers := lower_keys request_headers in
  let response_headers := lower_keys response_headers in
  let obj := proxy_response_obj obj response_headers in
  let kwargs := proxy_kwargs request_headers path requested_model upstream metadata status_code response_headers obj in
  let ok := status_code <? 400 in
  t ← write_ledger (elements (dom (db_accounts d))) kwargs obj (Some started_at) (Some ended_at)
        (if ok then "success" else "failure")%string (if ok then JNull else obj) missing (db_ledger d);
  Ok (with_ledger t d).

(** A streaming answer is recorded when the stream ends, with the events seen. *)
Definition _record_proxy_ledger (request_headers : odict string) (path requested_model upstream : string)
    (metadata : odict (json F)) (r : response) (started_at ended_at : instant) (missing : string)
    (d : db F) : result (db F) :=
  if rs_streaming r then Ok d
  else
    let obj := default (JObj [("raw_body", JStr (stake 2000 (rs_text r)))]%string) (rs_json r) in
    _write_proxy_ledger request_headers path requested_model upstream metadata (rs_status r)
      (rs_headers r) obj started_at ended_at missing d.

(** The candidates to try: the assigned one, then the others, each pair once. *)
Fixpoint dedupe (seen : list (string * string)) (l : list (string * string)) : list (string * string) :=
  match l with
  | [] => []
  | k :: l => if bool_decide (k ∈ seen) then dedupe seen l else k :: dedupe (k :: seen) l
  end.
Definition attempts_of (a : assigned) : list (string * string) :=
  dedupe [] ((sg_account a, sg_upstream a) :: map (fun c => (ca_account c, ca_upstream c)) (sg_candidates a)).

(** A request being proxied, with what the outside provides for it: the clocks of
    attempt [i], the upstream's answer to it or the error of the request, and the
    identifier of a call that carries none. *)
Record exchange := {
  ex_path : string;
  ex_headers : odict string;
  ex_body : odict (json F);
  ex_session : string;
  ex_model : string;
  ex_clock : nat -> instant * instant * instant;      (* start, end, database *)
  ex_missing : nat -> string;
  ex_upstream : nat -> string * string -> result response;
}.

(** Where the request ends. *)
Inductive ending :=
  | Served (i : nat) (k : string * string) (r : response)         (* status below 400 *)
  | PolicyBlocked (i : nat) (k : string * string) (r : response)  (* goes to the fallback *)
  | Refused (i : nat) (k : string * string) (r : response)        (* any other error *)
  | Broken (i : nat) (k : string * string) (e : exn)              (* the request raised; a server error *)
  | Exhausted (last : option response).                           (* every candidate at its limit *)

(** The loop over the attempts, from attempt [i]. *)
Fixpoint try_attempts (cooldown_seconds : Z) (x : exchange) (assigned_account reason : string)
    (i : nat) (ks : list (string * string)) (last : option response) (d : db F)
    : result (ending * db F) :=
  match ks with
  | [] => Ok (Exhausted last, d)
  | k :: ks =>
      '(routed, meta) ← route_body (ex_body x) (ex_session x) (ex_model x) k.1 k.2
                          (if (i =? 0)%nat then reason else "limit-failover"%string);
      let '(started_at, ended_at, db_now) := ex_clock x i in
      match ex_upstream x i k with
      | Raise e => Ok (Broken i k e, d)
      | Ok r =>
          let d := match _record_proxy_ledger (ex_headers x) (ex_path x) (ex_model x) k.2 meta r
                           started_at ended_at (ex_missing x i) d with
                   | Ok d' => d'
                   | Raise _ => d
                   end in
          if rs_status r <? 400 then
            let d := if (0 <? i)%nat || negb (bool_decide (k.1 = assigned_account))
                     then _mark_failover_assignment (ex_session x) (ex_model x) k.1 k.2 db_now d else d in
            Ok (Served i k r, d)
          else if _content_policy_error (rs_status r) (rs_text r) then Ok (PolicyBlocked i k r, d)
          else if negb (_limit_error (rs_status r) (rs_text r)) then Ok (Refused i k r, d)
          else try_attempts cooldown_seconds x assigned_account reason (S i) ks (Some r)
                 (_cooldown k.1 (ex_model x) cooldown_seconds db_now d)
      end
  end.

(** [proxy], for a model of the subscriptions. *)
Definition proxy (cooldown_seconds : Z) (x : exchange) (now db_now : instant) (d : db F)
    : result (assigned * ending * db F) :=
  '(a, d) ← _assignment (ex_session x) (ex_model x) now db_now d;
  '(e, d) ← try_attempts cooldown_seconds x (sg_account a) (sg_reason a) 0 (attempts_of a) None d;
  Ok (a, e, d).

(** When a streaming answer has ended, the events seen on it are recorded. *)
Definition stream_complete (x : exchange) (upstream : string) (metadata : odict (json F)) (status_code : Z)
    (response_headers : odict string) (events : list (odict (json F))) (started_at ended_at : instant)
    (missing : string) (d : db F) : result (db F) :=
  _write_proxy_ledger (ex_headers x) (ex_path x) (ex_model x) upstream metadata status_code response_headers
    (JObj (_stream_response_obj events)) started_at ended_at missing d.

(** [_direct_model_proxy]: one request to the model itself; an error of the ledger is printed.
    What was sent, the answer, and the database. *)
Definition _direct_model_proxy (x : exchange) (d : db F) : result (odict (json F) * response * db F) :=
  let requested_model := str_or_empty (pget "model" (ex_body x)) in
  '(routed, meta) ← direct_body (ex_body x) (ex_path x);
  let '(started_at, ended_at, _) := ex_clock x 0%nat in
  r ← ex_upstream x 0%nat ("direct"%string, requested_model);
  let d := match _record_proxy_ledger (ex_headers x) (ex_path x) requested_model requested_model meta r
                   started_at ended_at (ex_missing x 0%nat) d with
           | Ok d' => d'
           | Raise _ => d
           end in
  Ok (routed, r, d).

(** Which of the three ways a JSON request goes. *)
Inductive route := ToSubscription (model : string) | ToDirect (model : string) | Forwarded.
Definition route_of (body : odict (json F)) : route :=
  match pget "model" body with
  | JStr m => if bool_decide (m ∈ MODEL_PUBLIC_NAMES) then ToSubscription m
              else if bool_decide (m ∈ DIRECT_PUBLIC_NAMES) then ToDirect m else Forwarded
  | _ => Forwarded
  end.

(** [_content_policy_fallback]: no fallback, or one request to the fallback model. *)
Inductive fallback :=
  | NoFallback                                                    (* the block is reported *)
  | Retry (routed : odict (json F)) (meta : odict (json F)) (notice : bool).
Definition _content_policy_fallback (enabled : bool) (fallback_model : string) (x : exchange)
    (k : string * string) (r : response) : result fallback :=
  if negb enabled || bool_decide (fallback_model = EmptyString) || negb (_chat_completion_path (ex_path x))
  then Ok NoFallback
  else
    let detail := {|
      pd_status := rs_status r;
      pd_message := error_message (rs_status r) (rs_text r) (default JNull (rs_json r));
      pd_requested_model := ex_model x; pd_upstream_model := k.2; pd_account_id := k.1 |} in
    '(routed, meta) ← fallback_body (ex_body x) (ex_path x) (ex_session x) (ex_model x) fallback_model detail;
    Ok (Retry routed meta (is_stream routed && _visible_notice_allowed (ex_body x))).
End router.
Arguments response F : clear implicits.
Arguments exchange F : clear implicits.
Arguments ending F : clear implicits.
