(* ===== verification/FuguRouting.v ===== *)
(** * Fugu router: theorems

    Order of the candidates, stickiness, failover and cooldowns, and the windows the
    usage is counted in. *)

From stdpp Require Import base option list strings gmap sorting.
From Stdlib Require Import ZArith Lia Ascii.
From S2P Require Import Prelude PyStr PyFloat PyTime Json Regex Decimal FuguCredit FuguLedger FuguPolicy FuguRouter.

Local Open Scope Z_scope.
Local Open Scope py_scope.

(** ** Decimals without NaN are totally ordered *)

Definition dcmp (x y : dec) : comparison :=
  match x, y with
  | DFin m e, DFin n f => fin_compare m e n f
  | DInf a, DInf b => if Bool.eqb a b then Eq else if a then Lt else Gt
  | DInf a, _ => if a then Lt else Gt
  | _, DInf b => if b then Gt else Lt
  | _, _ => Eq
  end.

Lemma align_split m e c c' : c' <= c -> c <= e -> align m e c' = align m e c * 10 ^ (c - c').
Proof.
  intros Hc He. unfold align. rewrite <- Z.mul_assoc, <- Z.pow_add_r by lia. do 2 f_equal. lia.
Qed.

(** The comparison does not depend on the common exponent. *)
Lemma fin_compare_at m e n f c :
  c <= e -> c <= f -> fin_compare m e n f = Z.compare (align m e c) (align n f c).
Proof.
  intros He Hf. unfold fin_compare.
  rewrite (align_split m e (Z.min e f) c), (align_split n f (Z.min e f) c) by lia.
  assert (0 < 10 ^ (Z.min e f - c)) as Hp by (apply Z.pow_pos_nonneg; lia).
  set (p := 10 ^ (Z.min e f - c)) in *.
  destruct (Z.compare_spec (align m e (Z.min e f)) (align n f (Z.min e f))) as [->|Hl|Hg].
  - symmetry. apply Z.compare_refl.
  - symmetry. apply Z.compare_lt_iff. nia.
  - symmetry. apply Z.compare_gt_iff. nia.
Qed.

Lemma dcmp_antisym x y : dcmp y x = CompOpp (dcmp x y).
Proof.
  destruct x as [m e|a|], y as [n f|b|]; simpl; try done; try (by destruct a); try (by destruct b).
  - rewrite (fin_compare_at n f m e (Z.min e f)), (fin_compare_at m e n f (Z.min e f)) by lia.
    apply Z.compare_antisym.
  - by destruct a, b.
Qed.

Definition is_nan (x : dec) : bool := match x with DNan => true | _ => false end.

Lemma dltb_cmp x y : is_nan x = false -> is_nan y = false ->
  dltb x y = Ok (match dcmp x y with Lt => true | _ => false end).
Proof. destruct x as [m e|a|], y as [n f|b|]; simpl; try done; try (by destruct a); try (by destruct b). by destruct a, b. Qed.
Lemma deqb_cmp x y : is_nan x = false -> is_nan y = false ->
  deqb x y = match dcmp x y with Eq => true | _ => false end.
Proof. destruct x as [m e|a|], y as [n f|b|]; simpl; try done; try (by destruct a); try (by destruct b). by destruct a, b. Qed.

(** One common exponent for three numbers. *)
Ltac common_exponent e f g :=
  let c := constr:(Z.min e (Z.min f g)) in
  rewrite ?(fin_compare_at _ e _ f c), ?(fin_compare_at _ f _ g c), ?(fin_compare_at _ e _ g c) by lia.

Lemma dcmp_trans x y z c : is_nan x = false -> is_nan y = false -> is_nan z = false ->
  dcmp x y = c -> dcmp y z = c -> dcmp x z = c.
Proof.
  destruct x as [m e|a|], y as [n f|b|], z as [o g|d|]; try done; intros _ _ _; simpl.
  { common_exponent e f g. destruct c.
    + rewrite !Z.compare_eq_iff. congruence.
    + rewrite !Z.compare_lt_iff. lia.
    + rewrite !Z.compare_gt_iff. lia. }
  all: repeat match goal with b : bool |- _ => destruct b end; simpl; congruence.
Qed.

Lemma dcmp_eq_l x y z : is_nan x = false -> is_nan y = false -> is_nan z = false ->
  dcmp x y = Eq -> dcmp x z = dcmp y z.
Proof.
  intros Hx Hy Hz E. destruct (dcmp y z) eqn:Eyz.
  - by apply (dcmp_trans x y z).
  - destruct (dcmp x z) eqn:Exz; [|done|].
    + assert (dcmp y x = Eq) as Eyx by (rewrite dcmp_antisym, E; done).
      pose proof (dcmp_trans y x z Eq Hy Hx Hz Eyx Exz). congruence.
    + assert (dcmp y x = Eq) as Eyx by (rewrite dcmp_antisym, E; done).
      assert (dcmp z x = Lt) as Ezx by (rewrite dcmp_antisym, Exz; done).
      pose proof (dcmp_trans y z x Lt Hy Hz Hx Eyz Ezx). congruence.
  - destruct (dcmp x z) eqn:Exz; [| |done].
    + assert (dcmp y x = Eq) as Eyx by (rewrite dcmp_antisym, E; done).
      pose proof (dcmp_trans y x z Eq Hy Hx Hz Eyx Exz). congruence.
    + assert (dcmp z y = Lt) as Ezy by (rewrite dcmp_antisym, Eyz; done).
      pose proof (dcmp_trans x z y Lt Hx Hz Hy Exz Ezy). congruence.
Qed.

(** ** Keys *)

Fixpoint kcmp (a b : list dec) : comparison :=
  match a, b with
  | [], [] => Eq
  | [], _ => Lt
  | _, [] => Gt
  | x :: a, y :: b => match dcmp x y with Eq => kcmp a b | c => c end
  end.
Definition nan_free (k : list dec) : Prop := Forall (fun x => is_nan x = false) k.

Lemma kcmp_antisym a b : kcmp b a = CompOpp (kcmp a b).
Proof.
  revert b. induction a as [|x a IH]; intros [|y b]; simpl; try done.
  rewrite (dcmp_antisym x y). destruct (dcmp x y); simpl; auto.
Qed.

Lemma key_ltb_cmp a b : nan_free a -> nan_free b ->
  key_ltb a b = Ok (match kcmp a b with Lt => true | _ => false end).
Proof.
  unfold nan_free. revert b. induction a as [|x a IH]; intros [|y b]; simpl; try done.
  rewrite !Forall_cons. intros [Hx Ha] [Hy Hb].
  rewrite deqb_cmp, dltb_cmp by done. destruct (dcmp x y); [by apply IH|done|done].
Qed.

Lemma kcmp_trans a b c : nan_free a -> nan_free b -> nan_free c ->
  kcmp a b <> Gt -> kcmp b c <> Gt -> kcmp a c <> Gt.
Proof.
  unfold nan_free. revert b c. induction a as [|x a IH]; intros [|y b] [|z c]; simpl; try done.
  rewrite !Forall_cons. intros [Hx Ha] [Hy Hb] [Hz Hc].
  destruct (dcmp x y) eqn:Exy; intros H1; try done.
  - rewrite (dcmp_eq_l x y z) by done. destruct (dcmp y z); [by apply IH|done|done].
  - destruct (dcmp y z) eqn:Eyz; intros H2; try done.
    + assert (dcmp z y = Eq) as Ezy by (rewrite dcmp_antisym, Eyz; done).
      rewrite dcmp_antisym, (dcmp_eq_l z y x) by done. rewrite dcmp_antisym, Exy. done.
    + by rewrite (dcmp_trans x y z Lt).
Qed.

(** ** The sort *)

Section sort.
Context {A : Type} (lt : A -> A -> result bool) (P : A -> Prop) (le : A -> A -> Prop).
Context (lt_ok : forall x y, P x -> P y -> exists b, lt x y = Ok b /\ (if b then le x y else le y x)).
Context (le_trans : forall x y z, P x -> P y -> P z -> le x y -> le y z -> le x z).

Lemma insert_by_ok x l : P x -> Forall P l -> StronglySorted le l ->
  exists l', insert_by lt x l = Ok l' /\ l' ≡ₚ x :: l /\ StronglySorted le l'.
Proof.
  intros Hx. induction l as [|y l IH]; intros Hl Hs; simpl.
  { exists [x]. split_and!; [done|done|]. by repeat constructor. }
  apply Forall_cons in Hl as [Hy Hl]. apply StronglySorted_inv in Hs as [Hs Hle].
  destruct (lt_ok x y Hx Hy) as ([] & -> & Hxy).
  - exists (x :: y :: l). split_and!; [done|done|]. constructor; [by constructor|].
    constructor; [done|]. rewrite Forall_forall in *. intros z Hz.
    apply (le_trans x y z); auto.
  - destruct (IH Hl Hs) as (l' & -> & Hp & Hs'). simpl.
    exists (y :: l'). split_and!; [done| |].
    + rewrite Hp. apply Permutation_swap.
    + constructor; [done|]. rewrite Hp. by constructor.
Qed.

Lemma sort_by_ok acc l : Forall P acc -> Forall P l -> StronglySorted le acc ->
  exists l', sort_by lt acc l = Ok l' /\ l' ≡ₚ acc ++ l /\ StronglySorted le l'.
Proof.
  revert acc. induction l as [|x l IH]; intros acc Ha Hl Hs; simpl.
  { exists acc. by rewrite app_nil_r. }
  apply Forall_cons in Hl as [Hx Hl].
  destruct (insert_by_ok x acc Hx Ha Hs) as (acc' & -> & Hp & Hs'). simpl.
  destruct (IH acc') as (l' & -> & Hp' & Hs2); [|done|done|].
  { rewrite Hp. by constructor. }
  exists l'. split_and!; [done| |done]. rewrite Hp', Hp. simpl. apply Permutation_middle.
Qed.
End sort.

(** ** Candidates *)

Section candidates.
Context {F : Type} `{PyFloat F}.
Implicit Types (d : db F) (c : candidate).

(** No allowance in the database is a NaN. *)
Definition allowances_ok d : Prop :=
  forall k w, db_windows d !! k = Some w -> wi_allowance w <> Some DNan.

Definition best_first (a b : candidate) : Prop := kcmp (ca_key a) (ca_key b) <> Gt.

Lemma ddiv_ok x a : dtruthy a = true -> a <> DNan ->
  exists r, ddiv (DF x) a = Ok r /\ is_nan r = false.
Proof.
  destruct a as [n f|b|]; simpl; [|by eexists|done]. intros Hn _. apply negb_true_iff in Hn. rewrite Hn.
  destruct (x.1 =? 0); [by eexists|]. destruct (if _ =? 0 then _ else _) as [q ex]. by eexists.
Qed.

Lemma window_score_ok d now model id kind : allowances_ok d ->
  exists s, window_score d now model id kind = Ok s /\ is_nan s = false.
Proof.
  intros Ha. unfold window_score. destruct (db_windows d !! (id, kind)) as [w|] eqn:E; [|by eexists].
  destruct (wi_allowance w) as [a|] eqn:Ea; [|by eexists].
  destruct (dtruthy a) eqn:Et; [|by eexists]. apply ddiv_ok; [done|].
  intros ->. by apply (Ha _ _ E).
Qed.

Lemma candidate_of_ok d now model a : allowances_ok d ->
  exists c, candidate_of d now model a = Ok c /\ nan_free (ca_key c) /\
    ca_account c = ch_account a /\ ca_upstream c = ch_upstream a.
Proof.
  intros Ha. unfold candidate_of.
  destruct (window_score_ok d now model (ch_account a) "5h" Ha) as (s5 & -> & H5).
  destruct (window_score_ok d now model (ch_account a) "week" Ha) as (sw & -> & Hw).
  destruct (window_score_ok d now model (ch_account a) "month" Ha) as (sm & -> & Hm). simpl.
  eexists. split; [done|]. split_and!; [|done|done]. by repeat (constructor; [done|]).
Qed.

Lemma mapM_candidates d now model l : allowances_ok d ->
  exists cs, mapM_r (candidate_of d now model) l = Ok cs /\ Forall (fun c => nan_free (ca_key c)) cs /\
    map (fun c => (ca_account c, ca_upstream c)) cs = map (fun a => (ch_account a, ch_upstream a)) l.
Proof.
  intros Ha. induction l as [|a l (cs & IH & Hn & Hm)]; simpl; [by exists []|].
  destruct (candidate_of_ok d now model a Ha) as (c & -> & Hc & E1 & E2). simpl. rewrite IH. simpl.
  exists (c :: cs). split_and!; [done|by constructor|]. simpl. by rewrite E1, E2, Hm.
Qed.

Lemma eligible_accounts_ok d db_now model :
  exists l, eligible_accounts d db_now model = Ok l /\
    l ≡ₚ omap (eligible d db_now model) (map_to_list (db_accounts d)).
Proof.
  unfold eligible_accounts. generalize (omap (eligible d db_now model) (map_to_list (db_accounts d))) as l. intros l.
  destruct (sort_by_ok choice_ltb (fun _ => True) (fun _ _ => True)) with (acc := @nil choice) (l := l)
    as (l' & E & Hp & _).
  - intros x y _ _. eexists. split; [done|]. by destruct (_ || _).
  - done.
  - constructor.
  - by apply Forall_true.
  - constructor.
  - by exists l'.
Qed.

Lemma routing_candidates_ok d now db_now model : allowances_ok d ->
  exists l, _routing_candidates d now db_now model = Ok l /\ StronglySorted best_first l /\
    map (fun c => (ca_account c, ca_upstream c)) l ≡ₚ
      map (fun a => (ch_account a, ch_upstream a))
        (omap (eligible d db_now model) (map_to_list (db_accounts d))).
Proof.
  intros Ha. unfold _routing_candidates.
  destruct (eligible_accounts_ok d db_now model) as (el & -> & Hel). simpl.
  destruct (mapM_candidates d now model el Ha) as (cs & -> & Hn & Hm). simpl.
  destruct (sort_by_ok (fun a b => key_ltb (ca_key a) (ca_key b)) (fun c => nan_free (ca_key c)) best_first)
    with (acc := @nil candidate) (l := cs) as (l & E & Hp & Hs).
  - intros x y Hx Hy. rewrite key_ltb_cmp by done. eexists. split; [done|].
    unfold best_first. destruct (kcmp (ca_key x) (ca_key y)) eqn:E; rewrite ?(kcmp_antisym (ca_key x)), ?E; done.
  - intros x y z Hx Hy Hz. apply kcmp_trans; done.
  - constructor.
  - done.
  - constructor.
  - exists l. split_and!; [done|done|]. rewrite Hp. simpl. rewrite Hm, Hel. done.
Qed.

(** The accounts that may serve a model now. *)
Definition may_serve d db_now model id up : Prop :=
  exists a dp, db_accounts d !! id = Some a /\ ac_enabled a = true /\
    db_deployments d !! (model, id) = Some dp /\ dp_enabled dp = true /\ dp_upstream dp = up /\
    cooling d db_now id model = false.

Lemma eligible_spec d db_now model id up :
  (id, up) ∈ map (fun a => (ch_account a, ch_upstream a))
    (omap (eligible d db_now model) (map_to_list (db_accounts d))) <->
  may_serve d db_now model id up.
Proof.
  rewrite list_elem_of_fmap. setoid_rewrite list_elem_of_omap. unfold may_serve. split.
  - intros (ch & [= -> ->] & ([id' a] & Hin & He)). apply elem_of_map_to_list in Hin.
    unfold eligible in He. simpl in He.
    destruct (db_deployments d !! (model, id')) as [dp|] eqn:Ed; [|done].
    destruct (_ && _) eqn:Eb; [|done]. injection He as <-. simpl.
    apply andb_true_iff in Eb as [[Ea Ep]%andb_true_iff Ec%negb_true_iff]. eauto 10.
  - intros (a & dp & Ea & Hae & Ed & Hde & Hu & Hc).
    exists {| ch_account := id; ch_priority := ac_priority a; ch_upstream := up |}. split; [done|].
    exists (id, a). rewrite elem_of_map_to_list. split; [done|].
    unfold eligible. simpl. by rewrite Ed, Hae, Hde, Hc, Hu.
Qed.

Lemma eligible_NoDup d db_now model :
  NoDup (map ch_account (omap (eligible d db_now model) (map_to_list (db_accounts d)))).
Proof.
  pose proof (NoDup_fst_map_to_list (db_accounts d)) as Hnd.
  induction (map_to_list (db_accounts d)) as [|[id a] l IH]; simpl; [apply NoDup_nil_2|].
  apply NoDup_cons in Hnd as [Hid Hnd]. specialize (IH Hnd).
  assert (forall ch, ch ∈ omap (eligible d db_now model) l -> ch_account ch ∈ l.*1) as Hsub.
  { intros ch ([id' a'] & Hin & He)%list_elem_of_omap. unfold eligible in He. simpl in He.
    destruct (db_deployments d !! (model, id')); [|done]. destruct (_ && _); [|done].
    injection He as <-. simpl. apply list_elem_of_fmap. by exists (id', a'). }
  destruct (eligible d db_now model (id, a)) as [ch|] eqn:E; simpl; [|done].
  apply NoDup_cons. split; [|done]. intros (ch' & Ech & Hin)%list_elem_of_fmap.
  apply Hsub in Hin. assert (ch_account ch = id) as Eid.
  { unfold eligible in E. simpl in E. destruct (db_deployments d !! (model, id)); [|done].
    destruct (_ && _); [|done]. by injection E as <-. }
  apply Hid. by rewrite <- Eid, Ech.
Qed.

(** Routing offers exactly the accounts that are enabled, deployed for the model
    and not cooling down, each once, ordered by how much of the five-hour window is
    used, then the week, then the month, then the priority. *)
Theorem candidates_are_the_eligible_accounts d now db_now model : allowances_ok d ->
  exists l, _routing_candidates d now db_now model = Ok l /\
    StronglySorted best_first l /\ NoDup (map ca_account l) /\
    forall id up, (exists c, c ∈ l /\ ca_account c = id /\ ca_upstream c = up) <->
      may_serve d db_now model id up.
Proof.
  intros Ha. destruct (routing_candidates_ok d now db_now model Ha) as (l & E & Hs & Hp).
  exists l. split_and!; [done|done| |].
  - assert (map ca_account l ≡ₚ map ch_account (omap (eligible d db_now model) (map_to_list (db_accounts d)))) as ->.
    { apply (fmap_Permutation fst) in Hp. unfold fmap in Hp. simpl in Hp.
      change list_fmap with (fun A B => @map A B) in Hp. rewrite !map_map in Hp. exact Hp. }
    apply eligible_NoDup.
  - intros id up. rewrite <- eligible_spec, <- Hp, list_elem_of_fmap. naive_solver.
Qed.
End candidates.

(** ** Windows *)

(** A window is aligned to its anchor and contains the present: it starts a
    whole number of intervals after the anchor, not later than now, and less than an
    interval ago; before the anchor it starts at the anchor. *)
Theorem window_contains_now anchor interval now : 0 < interval ->
  let start := _window_start anchor interval now in
  (exists k, 0 <= k /\ start = anchor + k * interval) /\
  (anchor <= now -> start <= now < start + interval) /\
  (now < anchor -> start = anchor).
Proof.
  intros Hi. unfold _window_start. assert ((interval <=? 0) = false) as -> by lia. simpl.
  pose proof (Z.div_mod (Z.max (now - anchor) 0) interval ltac:(lia)).
  pose proof (Z.mod_pos_bound (Z.max (now - anchor) 0) interval Hi).
  split_and!.
  - exists (Z.max (now - anchor) 0 / interval). split; [apply Z.div_pos; lia|done].
  - lia.
  - intros Hlt. replace (Z.max (now - anchor) 0) with 0 by lia. rewrite Z.div_0_l by lia. lia.
Qed.

Lemma civil_day_bounds d : 1 <= c_day (civil_of_days d) <= 31.
Proof.
  unfold civil_of_days. simpl.
  set (z := d + 719468). set (doe := z mod 146097).
  assert (0 <= doe < 146097) by (apply Z.mod_pos_bound; lia).
  set (yoe := (doe - doe / 1460 + doe / 36524 - doe / 146096) / 365).
  set (doy := doe - (365 * yoe + yoe / 4 - yoe / 100)).
  assert (0 <= doy <= 366 -> 1 <= doy - (153 * ((5 * doy + 2) / 153) + 2) / 5 + 1 <= 31) as Hd.
  { intros Hdoy. Z.to_euclidean_division_equations. lia. }
  apply Hd. subst doy yoe. Z.to_euclidean_division_equations. lia.
Qed.

Lemma day_start_sub t k : day_start (t - days k) = day_start t - days k.
Proof.
  unfold day_start, day_number, days, usec_per_day.
  replace (t - k * (86400 * usec_per_second)) with (t + (- k) * (86400 * usec_per_second)) by lia.
  rewrite Z.div_add by done. lia.
Qed.

(** The window a fresh installation starts with contains the present: five hours,
    a week from Monday, a month from the first. *)
Theorem default_anchor_is_current kind len now :
  (kind, len) ∈ [("5h", hours 5); ("week", days 7); ("month", days 31)]%string ->
  _default_anchor kind now <= now < _default_anchor kind now + len.
Proof.
  intros Hk. pose proof (day_start_le now) as Hd. pose proof (hour_of_bounds now) as Hh.
  pose proof (weekday_bounds now) as Hw. pose proof (civil_day_bounds (day_number now)) as Hc.
  fold (civil_of now) in Hc. unfold _default_anchor.
  generalize dependent (c_day (civil_of now)). generalize dependent (weekday now). intros wd Hw cd Hc.
  rewrite !elem_of_cons, elem_of_nil in Hk. destruct Hk as [[= -> ->]|[[= -> ->]|[[= -> ->]|[]]]];
    simpl; rewrite ?day_start_sub.
  - assert (hours (hour_of now) <= now - day_start now < hours (hour_of now + 1)) as Ho.
    { unfold hour_of, day_start, day_number, hours.
      pose proof (Z.div_mod now usec_per_day ltac:(done)).
      pose proof (Z.div_mod (now mod usec_per_day) usec_per_hour ltac:(done)).
      pose proof (Z.mod_pos_bound (now mod usec_per_day) usec_per_hour ltac:(done)). lia. }
    pose proof (Z.div_mod (hour_of now) 5 ltac:(lia)).
    pose proof (Z.mod_pos_bound (hour_of now) 5 ltac:(lia)).
    unfold hours, usec_per_hour, usec_per_second in *. lia.
  - unfold days, usec_per_day, usec_per_second in *. lia.
  - unfold days, usec_per_day, usec_per_second in *. lia.
Qed.

(** ** Stickiness *)

Section sticky.
Context {F : Type} `{PyFloat F}.
Implicit Types (d : db F).

Lemma pull_perm account l c r : pull account l = Some (c, r) -> l ≡ₚ c :: r /\ ca_account c = account.
Proof.
  revert c r. induction l as [|x l IH]; intros c r; simpl; [done|].
  case_bool_decide; [intros [= <- <-]; done|].
  destruct (pull account l) as [[x' r']|]; simpl; [|done]. intros [= <- <-].
  destruct (IH x' r' eq_refl) as [Hp Ha]. split; [|done]. rewrite Hp. apply Permutation_swap.
Qed.
Lemma to_front_perm account l : to_front account l ≡ₚ l.
Proof.
  unfold to_front. destruct (pull account l) as [[c r]|] eqn:E; [|done].
  apply pull_perm in E as [-> _]. done.
Qed.

Lemma dedupe_spec seen l :
  NoDup (dedupe seen l) /\ (forall k, k ∈ dedupe seen l <-> k ∈ l /\ k ∉ seen).
Proof.
  revert seen. induction l as [|x l IH]; intros seen; simpl.
  { split; [apply NoDup_nil_2|]. intros k. rewrite elem_of_nil. naive_solver. }
  case_bool_decide as Hx.
  - destruct (IH seen) as [Hn Hk]. split; [done|]. intros k. rewrite Hk, elem_of_cons. naive_solver.
  - destruct (IH (x :: seen)) as [Hn Hk]. split.
    + apply NoDup_cons. split; [|done]. rewrite Hk, !elem_of_cons. naive_solver.
    + intros k. rewrite elem_of_cons, Hk, !elem_of_cons. destruct (decide (k = x)); naive_solver.
Qed.

(** A session sticks to its account: while its assignment is active, the account
    enabled and deployed and not cooling down, every request of the session goes to it
    first and only the time of last use changes; otherwise the session is given the
    best candidate, and that is recorded; with no candidate at all the first
    subscription is tried without recording anything. *)
Theorem session_sticks d session model now db_now : allowances_ok d ->
  exists l, _routing_candidates d now db_now model = Ok l /\
  exists a d', _assignment session model now db_now d = Ok (a, d') /\
  match existing_assignment d db_now session model with
  | Some s =>
      sg_account a = as_account s /\ sg_upstream a = as_upstream s /\ sg_candidates a ≡ₚ l /\
      db_decisions d' = db_decisions d /\
      exists s', db_assignments d' = <[(session, model) := s']> (db_assignments d) /\
        as_account s' = as_account s /\ as_upstream s' = as_upstream s /\
        as_failover_count s' = as_failover_count s /\ as_last_used s' = db_now
  | None =>
      match l with
      | [] => sg_account a = "sub1"%string /\ sg_candidates a = [] /\ d' = d
      | best :: _ =>
          sg_account a = ca_account best /\ sg_upstream a = ca_upstream best /\ sg_candidates a = l /\
          Forall (best_first best) l /\
          existing_assignment d' db_now session model = db_assignments d' !! (session, model) /\
          (as_account <$> db_assignments d' !! (session, model)) = Some (ca_account best) /\
          length (db_decisions d') = S (length (db_decisions d))
      end
  end.
Proof.
  intros Ha. destruct (routing_candidates_ok d now db_now model Ha) as (l & E & Hs & Hp).
  exists l. split; [done|]. unfold _assignment. rewrite E. simpl.
  destruct (existing_assignment d db_now session model) as [s|] eqn:Ee.
  - do 2 eexists. split; [done|]. simpl.
    assert (db_assignments d !! (session, model) = Some s) as Es.
    { unfold existing_assignment in Ee. destruct (db_assignments d !! (session, model)) as [s0|]; [|done].
      simpl in Ee. destruct (db_accounts d !! _); [|done]. simpl in Ee.
      destruct (db_deployments d !! _); [|done]. simpl in Ee. by destruct (_ && _); simplify_eq. }
    unfold touch. rewrite Es. split_and!; [done|done|apply to_front_perm|done|]. by eexists.
  - destruct l as [|best l]; (do 2 eexists; split; [done|]); simpl; [done|].
    apply StronglySorted_inv in Hs as [_ Hb].
    assert (may_serve d db_now model (ca_account best) (ca_upstream best)) as (ac & dp & Eac & Hen & Edp & Hde & _ & Hc).
    { apply eligible_spec. rewrite <- Hp. simpl. by left. }
    split_and!; [done|done|done| | | |].
    + constructor; [|done]. unfold best_first.
      pose proof (kcmp_antisym (ca_key best) (ca_key best)). by destruct (kcmp _ _).
    + unfold existing_assignment. simpl. rewrite lookup_insert_eq. simpl. rewrite Eac. simpl.
      rewrite Edp. simpl. unfold cooling in *. simpl. by rewrite Hen, Hde, Hc.
    + by rewrite lookup_insert_eq.
    + rewrite length_app. simpl. lia.
Qed.
End sticky.

(** ** Failover *)

Section failover.
Context {F : Type} `{PyFloat F}.
Implicit Types (d : db F) (x : exchange F).

Definition limited (r : response F) : Prop :=
  400 <= rs_status r /\ _content_policy_error (rs_status r) (rs_text r) = false /\
  _limit_error (rs_status r) (rs_text r) = true.

(** The cooldowns after the attempts [ks], the first of them numbered [i]. *)
Fixpoint cooled (seconds' : Z) x (i : nat) (ks : list (string * string)) (c : gmap (string * string) instant)
    : gmap (string * string) instant :=
  match ks with
  | [] => c
  | k :: ks => cooled seconds' x (S i) ks
                 (<[(k.1, ex_model x) := (ex_clock x i).2 + seconds seconds']> c)
  end.

(** Same accounts, deployments, windows and decisions. *)
Definition same_setup d d' : Prop :=
  db_accounts d' = db_accounts d /\ db_deployments d' = db_deployments d /\
  db_windows d' = db_windows d /\ db_decisions d' = db_decisions d.

Lemma recorded_same hs p m up meta r st en ms d d' :
  _record_proxy_ledger hs p m up meta r st en ms d = Ok d' ->
  same_setup d d' /\ db_cooldowns d' = db_cooldowns d /\ db_assignments d' = db_assignments d.
Proof.
  unfold _record_proxy_ledger, _write_proxy_ledger. destruct (rs_streaming r); [by intros [= <-]|].
  intros Hr. apply bind_Ok in Hr as (t & _ & [= <-]). done.
Qed.

(** What the loop has done when it ends after [n] attempts. *)
Definition outcome_ok (cs : Z) x (assigned_account : string) (i : nat) (ks : list (string * string))
    d (e : ending F) d' : Prop :=
  exists n, (n <= length ks)%nat /\ same_setup d d' /\
    (forall j k, (j < n)%nat -> ks !! j = Some k -> exists r, ex_upstream x (i + j) k = Ok r /\ limited r) /\
    db_cooldowns d' = cooled cs x i (take n ks) (db_cooldowns d) /\
    match e with
    | Served j k r =>
        j = (i + n)%nat /\ ks !! n = Some k /\ ex_upstream x j k = Ok r /\ rs_status r < 400 /\
        if (0 <? j)%nat || negb (bool_decide (k.1 = assigned_account))
        then exists a, db_assignments d' = <[(ex_session x, ex_model x) := a]> (db_assignments d) /\
               as_account a = k.1 /\ as_upstream a = k.2 /\ as_active a = true /\
               as_failover_count a = default 0 (as_failover_count <$> db_assignments d !! (ex_session x, ex_model x)) + 1
        else db_assignments d' = db_assignments d
    | PolicyBlocked j k r =>
        j = (i + n)%nat /\ ks !! n = Some k /\ ex_upstream x j k = Ok r /\ 400 <= rs_status r /\
        _content_policy_error (rs_status r) (rs_text r) = true /\ db_assignments d' = db_assignments d
    | Refused j k r =>
        j = (i + n)%nat /\ ks !! n = Some k /\ ex_upstream x j k = Ok r /\ 400 <= rs_status r /\
        ~ limited r /\ db_assignments d' = db_assignments d
    | Broken j k err =>
        j = (i + n)%nat /\ ks !! n = Some k /\ ex_upstream x j k = Raise err /\ db_assignments d' = db_assignments d
    | Exhausted _ => n = length ks /\ db_assignments d' = db_assignments d
    end.

Lemma mark_failover_assignments s m a u t d :
  exists r, db_assignments (_mark_failover_assignment s m a u t d) = <[(s, m) := r]> (db_assignments d) /\
    as_account r = a /\ as_upstream r = u /\ as_active r = true /\
    as_failover_count r = default 0 (as_failover_count <$> db_assignments d !! (s, m)) + 1.
Proof.
  unfold _mark_failover_assignment, _upsert_assignment. simpl. rewrite lookup_insert_eq. simpl.
  rewrite insert_insert_eq. eexists. split; [done|]. simpl.
  split_and!; [done..|]. by destruct (db_assignments d !! (s, m)).
Qed.
Lemma mark_failover_other s m a u t d :
  same_setup d (_mark_failover_assignment s m a u t d) /\
  db_cooldowns (_mark_failover_assignment s m a u t d) = db_cooldowns d.
Proof. unfold _mark_failover_assignment, _upsert_assignment. simpl. by rewrite lookup_insert_eq. Qed.

Lemma try_attempts_ok cs x acc reason i ks last d e d' :
  try_attempts cs x acc reason i ks last d = Ok (e, d') -> outcome_ok cs x acc i ks d e d'.
Proof.
  revert i last d. induction ks as [|k ks IH]; intros i last d Ht.
  { injection Ht as <- <-. exists 0%nat. split_and!; simpl; try done; try lia. }
  simpl in Ht. apply bind_Ok in Ht as ([routed meta] & _ & Ht).
  destruct (ex_clock x i) as [[st en] dbn] eqn:Eck. destruct (ex_upstream x i k) as [r|err] eqn:Er.
  2: { injection Ht as <- <-. exists 0%nat. rewrite Nat.add_0_r. split_and!; simpl; try done; lia. }
  set (d1 := match _record_proxy_ledger _ _ _ _ _ _ _ _ _ _ with Ok d' => d' | Raise _ => d end) in Ht.
  assert (same_setup d d1 /\ db_cooldowns d1 = db_cooldowns d /\ db_assignments d1 = db_assignments d) as (Hs1 & Hc1 & Ha1).
  { subst d1. destruct (_record_proxy_ledger _ _ _ _ _ _ _ _ _ _) eqn:E; [by apply recorded_same in E|done]. }
  clearbody d1.
  destruct (rs_status r <? 400) eqn:E4; [apply Z.ltb_lt in E4|apply Z.ltb_ge in E4].
  { injection Ht as <- <-. exists 0%nat. rewrite Nat.add_0_r.
    destruct ((0 <? i)%nat || negb (bool_decide (k.1 = acc))) eqn:Eb.
    - destruct (mark_failover_other (ex_session x) (ex_model x) k.1 k.2 dbn d1) as [(Q1 & Q2 & Q3 & Q4) Q5].
      destruct Hs1 as (P1 & P2 & P3 & P4).
      split_and!; simpl; [lia|split_and!; congruence|lia|congruence|done|done|done|done|].
      destruct (mark_failover_assignments (ex_session x) (ex_model x) k.1 k.2 dbn d1) as (a & Hm & Hr).
      exists a. by rewrite Hm, <- Ha1.
    - split_and!; simpl; done || lia. }
  destruct (_content_policy_error _ _) eqn:Ep.
  { injection Ht as <- <-. exists 0%nat. rewrite Nat.add_0_r. split_and!; simpl; try done; lia. }
  destruct (_limit_error _ _) eqn:El; simpl in Ht.
  2: { injection Ht as <- <-. exists 0%nat. rewrite Nat.add_0_r.
       split_and!; simpl; try done; try lia. intros (_ & _ & Hl). congruence. }
  apply IH in Ht as (n & Hn & Hs & Hlim & Hcool & Hend). exists (S n). simpl in *.
  split_and!; [lia| | | |].
  - destruct Hs as (Q1 & Q2 & Q3 & Q4), Hs1 as (P1 & P2 & P3 & P4). simpl in *.
    split_and!; congruence.
  - intros [|j] k' Hj Hk; [rewrite Nat.add_0_r; injection Hk as <-; by exists r|].
    replace (i + S j)%nat with (S i + j)%nat by lia. apply Hlim; [lia|done].
  - rewrite Hcool. f_equal. rewrite Eck. simpl. by rewrite Hc1.
  - replace (i + S n)%nat with (S i + n)%nat by lia. destruct e as [j k' r'| | | |]; simpl in *; rewrite <- ?Ha1.
    + exact Hend.
    + exact Hend.
    + exact Hend.
    + exact Hend.
    + destruct Hend as [-> ?]. done.
Qed.

(** A value [dict(v or {})] accepts. *)
Definition dict_like (j : json F) : bool := match dict_copy j with Ok _ => true | Raise _ => false end.

Lemma dict_copy_ok j : dict_like j = true -> exists o : odict (json F), dict_copy j = Ok o.
Proof. unfold dict_like. destruct (dict_copy j) as [o|e]; [by exists o|done]. Qed.

Lemma pget_dset_ne (k k' : string) (v : json F) (d : odict (json F)) : k <> k' -> pget k (dset k' v d) = pget k d.
Proof. intros. unfold pget. by rewrite dget_dset_ne. Qed.

Lemma route_body_ok body sk m acc up reason :
  dict_like (pget "metadata" body) = true -> dict_like (pget "stream_options" body) = true ->
  exists p, route_body body sk m acc up reason = Ok p.
Proof.
  intros Hm Hs. unfold route_body.
  assert (exists routed, (if is_stream (dset "model" (JStr up) body) then include_usage (dset "model" (JStr up) body)
            else Ok (dset "model" (JStr up) body)) = Ok routed /\ dict_like (pget "metadata" routed) = true) as (routed & -> & Hr).
  { destruct (is_stream _).
    - unfold include_usage. rewrite pget_dset_ne by done. destruct (dict_copy_ok _ Hs) as (o & ->). simpl.
      eexists. split; [done|]. by rewrite !pget_dset_ne by done.
    - eexists. split; [done|]. by rewrite pget_dset_ne by done. }
  simpl. destruct (dict_copy_ok _ Hr) as (meta & ->). simpl. by eexists.
Qed.

Lemma try_attempts_total cs x acc reason i ks last d :
  dict_like (pget "metadata" (ex_body x)) = true -> dict_like (pget "stream_options" (ex_body x)) = true ->
  exists e d', try_attempts cs x acc reason i ks last d = Ok (e, d').
Proof.
  intros Hm Hs. revert i last d. induction ks as [|k ks IH]; intros i last d; simpl; [by do 2 eexists|].
  destruct (route_body_ok (ex_body x) (ex_session x) (ex_model x) k.1 k.2
    (if (i =? 0)%nat then reason else "limit-failover"%string) Hm Hs) as ([routed meta] & ->). simpl.
  destruct (ex_clock x i) as [[st en] dbn]. destruct (ex_upstream x i k) as [r|err]; [|by do 2 eexists].
  destruct (rs_status _ <? 400); [by do 2 eexists|].
  destruct (_content_policy_error _ _); [by do 2 eexists|].
  destruct (_limit_error _ _); simpl; [apply IH|by do 2 eexists].
Qed.

Lemma attempts_of_spec a :
  NoDup (attempts_of a) /\ attempts_of a !! 0%nat = Some (sg_account a, sg_upstream a) /\
  forall k, k ∈ attempts_of a <-> k = (sg_account a, sg_upstream a) \/
    exists c, c ∈ sg_candidates a /\ k = (ca_account c, ca_upstream c).
Proof.
  unfold attempts_of.
  destruct (dedupe_spec [] ((sg_account a, sg_upstream a) :: map (fun c => (ca_account c, ca_upstream c)) (sg_candidates a))) as [Hn Hk].
  split_and!; [done|by simpl|].
  intros k. rewrite Hk, elem_of_cons, list_elem_of_fmap. split.
  - intros [[->|(c & -> & Hc)] _]; [by left|right]. by exists c.
  - intros Hin. split; [|apply not_elem_of_nil]. destruct Hin as [->|(c & Hc & ->)]; [by left|right]. by exists c.
Qed.

Lemma assignment_total d session model now db_now : allowances_ok d ->
  exists a d1, _assignment session model now db_now d = Ok (a, d1) /\ 
    db_cooldowns d1 = db_cooldowns d /\
    forall id up, (exists c, c ∈ sg_candidates a /\ ca_account c = id /\ ca_upstream c = up) <-> may_serve d db_now model id up.
Proof.
  intros Ha. destruct (routing_candidates_ok d now db_now model Ha) as (l & E & _ & Hp).
  assert (forall id up, (exists c, c ∈ l /\ ca_account c = id /\ ca_upstream c = up) <-> may_serve d db_now model id up) as Hl.
  { intros id up. rewrite <- eligible_spec, <- Hp, list_elem_of_fmap. naive_solver. }
  unfold _assignment. rewrite E. simpl. destruct (existing_assignment _ _ _ _) as [s|].
  - do 2 eexists. split_and!; [done| |].
    + unfold touch. by destruct (db_assignments d !! _).
    + simpl. intros id up. rewrite <- Hl. by setoid_rewrite to_front_perm.
  - destruct l as [|b l].
    + do 2 eexists. split_and!; [done|done|exact Hl].
    + do 2 eexists. split_and!; [done|done|]. exact Hl.
Qed.


Lemma cooled_last cs x i ks c k : k ∈ ks -> exists t, cooled cs x i ks c !! (k.1, ex_model x) = Some t.
Proof.
  assert (forall ks i c key t, c !! key = Some t -> exists t', cooled cs x i ks c !! key = Some t') as Hmono.
  { clear. induction ks as [|k ks IH]; intros i c key t Hc; simpl; [by eexists|].
    destruct (decide (key = (k.1, ex_model x))) as [->|Hne].
    - eapply IH. by rewrite lookup_insert_eq.
    - eapply IH. by rewrite lookup_insert_ne. }
  revert i c. induction ks as [|k' ks IH]; intros i c Hin; [by apply elem_of_nil in Hin|].
  simpl. apply elem_of_cons in Hin as [->|Hin]; [|by apply IH].
  eapply Hmono. by rewrite lookup_insert_eq.
Qed.

(** One malformed request takes every subscription out of service: the word "rate"
    in [_limit_error] also occurs in "generate", so a 400 about the request itself is
    taken for a limit; when every account gives that answer, every account it was sent
    to is in cooldown for the model afterwards. *)
Theorem client_error_cools_every_account cs x now db_now d a e d' :
  (forall i k, exists r, ex_upstream x i k = Ok r /\ rs_status r = 400 /\
     rs_text r = "could not generate a completion for this request"%string) ->
  proxy cs x now db_now d = Ok (a, e, d') ->
  (exists last, e = Exhausted last) /\
  forall k, k ∈ attempts_of a -> exists until, db_cooldowns d' !! (k.1, ex_model x) = Some until.
Proof.
  intros Hup Hp. unfold proxy in Hp. apply bind_Ok in Hp as ([a0 d1] & Ha & Hp).
  apply bind_Ok in Hp as ([e0 d2] & Ht & [= -> -> ->]).
  apply try_attempts_ok in Ht as (n & Hn & _ & _ & Hcool & Hend).
  assert (forall i k r, ex_upstream x i k = Ok r -> limited r) as Hl.
  { intros i k r Hr. destruct (Hup i k) as (r' & E & E1 & E2). rewrite Hr in E. injection E as <-. unfold limited. rewrite E1, E2. by vm_compute. }
  destruct e as [j k r|j k r|j k r|j k err|last].
  - destruct Hend as (_ & _ & Er & Hlt & _). destruct (Hl j k r Er). lia.
  - destruct Hend as (_ & _ & Er & _ & Hpol & _). destruct (Hl j k r Er) as (_ & E & _). congruence.
  - destruct Hend as (_ & _ & Er & _ & Hnl & _). by destruct (Hnl (Hl j k r Er)).
  - destruct Hend as (_ & _ & Er & _). destruct (Hup j k) as (r & E & _). congruence.
  - destruct Hend as [-> _]. split; [by eexists|]. intros k Hk. rewrite Hcool, firstn_all. by apply cooled_last.
Qed.
End failover.
