(* ===== verification/FuguDemo.v ===== *)
(** * Fugu router: a concrete installation

    Two subscriptions seeded into an empty database, three requests against it, and
    the theorems of the file FuguRouting applied to them.  Floats are binary64.  Then
    [seed_accounts] of fugu_credit.py, and what seeding keeps. *)

From stdpp Require Import base option list strings gmap.
From Stdlib Require Import ZArith Lia Ascii SpecFloat Sorted.
From S2P Require Import Prelude PyStr PyFloat Json PyTime Regex Decimal FuguCredit FuguLedger FuguPolicy.
From S2P Require Import FuguRouter FuguRouting.

Local Open Scope Z_scope.
Local Open Scope py_scope.

Definition noon : instant := days 20640 + hours 12.

Definition empty_db : db spec_float := {|
  db_accounts := ∅; db_deployments := ∅; db_windows := ∅; db_cooldowns := ∅;
  db_assignments := ∅; db_decisions := []; db_ledger := [] |}.

Definition installation : db spec_float :=
  let allowance kind := if bool_decide (kind = "5h")%string then Some (DFin 500 0) else None in
  let seed i := seed_subscription i true false None (Some "pro"%string) (fun _ => None) allowance noon in
  seed 2 (seed 1 empty_db).

(** A request of one session, answered by [upstream]. *)
Definition request (upstream : nat -> string * string -> result (response spec_float)) : exchange spec_float := {|
  ex_path := "/v1/chat/completions"; ex_headers := [("Authorization", "Bearer k")]%string;
  ex_body := [("model", JStr "fugu"); ("stream", JBool true)]%string;
  ex_session := "session-1"; ex_model := "fugu";
  ex_clock := fun i => (noon, noon + 5, noon + 10 + Z.of_nat i);
  ex_missing := fun _ => "m"%string; ex_upstream := upstream |}.

Definition answer (status : Z) (text : string) : response spec_float := {|
  rs_status := status; rs_text := text; rs_json := None; rs_streaming := false; rs_headers := [] |}.

(** The first subscription is at its limit, the second one answers. *)
Definition one_limited : exchange spec_float :=
  request (fun _ k => Ok (if bool_decide (k.1 = "sub1")%string
                          then answer 429 "too many requests" else answer 200 "ok")).
(** Every subscription rejects the request itself. *)
Definition all_reject : exchange spec_float :=
  request (fun _ _ => Ok (answer 400 "could not generate a completion for this request")).

Lemma allowances_check {F} (d : db F) :
  forallb (fun kv => match wi_allowance kv.2 with Some DNan => false | _ => true end)
    (map_to_list (db_windows d)) = true -> allowances_ok d.
Proof.
  rewrite forallb_forall. intros Hall k w Hk Hn.
  apply elem_of_map_to_list in Hk. apply list_elem_of_In in Hk. specialize (Hall _ Hk). simpl in Hall.
  by rewrite Hn in Hall.
Qed.
Lemma installation_ok : allowances_ok installation.
Proof. apply allowances_check. by vm_compute. Qed.

Lemma candidates_are_the_eligible_accounts_witness :
  exists l, _routing_candidates installation noon noon "fugu" = Ok l /\
    StronglySorted best_first l /\ NoDup (map ca_account l) /\
    forall id up, (exists c, c ∈ l /\ ca_account c = id /\ ca_upstream c = up) <->
      may_serve installation noon "fugu" id up.
Proof. exact (candidates_are_the_eligible_accounts installation noon noon "fugu" installation_ok). Defined.

(** Both subscriptions are offered. *)
Example candidates_demo :
  (map ca_account <$> match _routing_candidates installation noon noon "fugu" with Ok l => Some l | _ => None end)
  = Some ["sub1"; "sub2"]%string.
Proof. by vm_compute. Qed.

Lemma window_contains_now_witness :
  let start := _window_start 0 (hours 5) noon in
  (exists k, 0 <= k /\ start = 0 + k * hours 5) /\
  (0 <= noon -> start <= noon < start + hours 5) /\ (noon < 0 -> start = 0).
Proof. exact (window_contains_now 0 (hours 5) noon eq_refl). Defined.

Lemma week_listed : ("week", days 7)%string ∈ [("5h", hours 5); ("week", days 7); ("month", days 31)]%string.
Proof. right. left. Qed.
Lemma default_anchor_is_current_witness :
  _default_anchor "week" noon <= noon < _default_anchor "week" noon + days 7.
Proof. exact (default_anchor_is_current "week" (days 7) noon week_listed). Defined.

Lemma session_sticks_witness :
  exists l, _routing_candidates installation noon noon "fugu" = Ok l /\
  exists a d', _assignment "session-1" "fugu" noon noon installation = Ok (a, d') /\
    sg_reason a = "new"%string.
Proof.
  destruct (session_sticks installation "session-1" "fugu" noon noon installation_ok) as (l & E & a & d' & Ea & _).
  exists l. split; [exact E|]. exists a, d'. split; [exact Ea|].
  assert (match _assignment "session-1" "fugu" noon noon installation with
          | Ok r => String.eqb (sg_reason r.1) "new" | Raise _ => false end = true) as Hr by (by vm_compute).
  rewrite Ea in Hr. by apply String.eqb_eq.
Defined.

(** The second attempt serves the request and the session has moved. *)
Definition moved (r : result (assigned * ending spec_float * db spec_float)) : bool :=
  match r with
  | Ok (_, Served 1 k _, d') =>
      String.eqb k.1 "sub2" && String.eqb k.2 "fugu-sub-2" && 
      bool_decide (as_account <$> db_assignments d' !! ("session-1", "fugu")%string = Some "sub2"%string) &&
      bool_decide (map_to_list (db_cooldowns d') = [(("sub1", "fugu")%string, noon + 10 + seconds 300)])
  | _ => false
  end.
Lemma one_limited_moves : moved (proxy 300 one_limited noon noon installation) = true.
Proof. by vm_compute. Qed.


Lemma reject_answers i k :
  exists r, ex_upstream all_reject i k = Ok r /\ rs_status r = 400 /\
  rs_text r = "could not generate a completion for this request"%string.
Proof. by eexists. Qed.
Lemma all_reject_proxied : exists r, proxy 300 all_reject noon noon installation = Ok r /\
  ("sub1", "fugu-sub-1")%string ∈ attempts_of r.1.1.
Proof.
  assert (match proxy 300 all_reject noon noon installation with
          | Ok r => bool_decide (("sub1", "fugu-sub-1")%string ∈ attempts_of r.1.1)
          | Raise _ => false end = true) as Hr by (by vm_compute).
  generalize dependent (proxy 300 all_reject noon noon installation). intros [r|] Hr; [|discriminate Hr].
  exists r. split; [reflexivity|]. by apply bool_decide_eq_true in Hr.
Qed.

Lemma client_error_cools_every_account_witness :
  exists a e d', proxy 300 all_reject noon noon installation = Ok (a, e, d') /\
    exists until, db_cooldowns d' !! ("sub1", "fugu")%string = Some until.
Proof.
  destruct all_reject_proxied as ([[a e] d'] & E & Hin). exists a, e, d'. split; [exact E|].
  exact (proj2 (client_error_cools_every_account 300 all_reject noon noon installation a e d' reject_answers E) _ Hin).
Defined.

(** ** Fugu router: seeding

    What a restart of the router, which seeds the configured subscriptions again,
    keeps of the database and what it changes. *)

Section seed.
Context {F : Type} `{PyFloat F}.
Implicit Types d : db F.

(** The row of a window after seeding, given the row before. *)
Definition window_after (kind : string) (len : Z) (anchor : option instant) (allowance : option dec)
    (now : instant) (old : option window) (w : window) : Prop :=
  match old with
  | None => wi_anchor w = default (_default_anchor kind now) anchor /\ wi_interval w = len /\ wi_allowance w = allowance
  | Some old =>
      wi_interval w = wi_interval old /\
      wi_anchor w = default (wi_anchor old) anchor /\
      wi_allowance w = match allowance with Some a => Some a | None => wi_allowance old end
  end.

Lemma seed_window_here id kind len anchor allowance now d :
  exists w, db_windows (seed_window id kind len anchor allowance now d) !! (id, kind) = Some w /\
    window_after kind len anchor allowance now (db_windows d !! (id, kind)) w.
Proof.
  unfold seed_window, with_windows. simpl. rewrite lookup_insert_eq. eexists. split; [done|].
  unfold window_after. destruct (db_windows d !! (id, kind)); simpl; destruct anchor, allowance; simpl; done.
Qed.
Lemma seed_window_elsewhere id kind len anchor allowance now d k : k <> (id, kind) ->
  db_windows (seed_window id kind len anchor allowance now d) !! k = db_windows d !! k.
Proof. intros Hk. unfold seed_window, with_windows. simpl. by rewrite lookup_insert_ne. Qed.

(** A restart keeps what was learned: seeding a subscription enables it with the
    configured priority and a deployment for every public model, and changes nothing
    else of the database; a window that is already there keeps its interval, its anchor
    unless the environment gives one, and its allowance unless the environment gives
    one. *)
Theorem seeding_keeps_history index has_key flag label billing anchors allowances now d :
  has_key || flag = true ->
  let id := ("sub" +:+ str_of_Z index)%string in
  let d' := seed_subscription index has_key flag label billing anchors allowances now d in
  (db_cooldowns d' = db_cooldowns d /\ db_assignments d' = db_assignments d /\
   db_decisions d' = db_decisions d /\ db_ledger d' = db_ledger d) /\
  (exists a, db_accounts d' = <[id := a]> (db_accounts d) /\ ac_enabled a = true /\ ac_priority a = index) /\
  (forall m, m ∈ MODEL_PUBLIC_NAMES ->
     db_deployments d' !! (m, id) = Some {| dp_upstream := upstream_model m id; dp_enabled := true |}) /\
  (forall m i, i <> id -> db_deployments d' !! (m, i) = db_deployments d !! (m, i)) /\
  (forall kind len, (kind, len) ∈ WINDOWS -> exists w, db_windows d' !! (id, kind) = Some w /\
     window_after kind len (anchors kind) (allowances kind) now (db_windows d !! (id, kind)) w) /\
  (forall i kind, i <> id -> db_windows d' !! (i, kind) = db_windows d !! (i, kind)).
Proof.
  intros Hk id d'. subst d'. unfold seed_subscription. rewrite <- negb_orb, Hk. cbn [negb].
  fold id. set (d0 := seed_account _ _ _ _ _).
  unfold MODEL_PUBLIC_NAMES. cbn [foldl]. set (d1 := seed_deployment id "fugu" _).
  unfold WINDOWS. cbn [foldl fst snd].
  split; [done|]. split; [by eexists|]. split.
  { intros m Hm. cbn. rewrite !elem_of_cons, elem_of_nil in Hm. destruct Hm as [->|[->|[]]].
    - rewrite lookup_insert_ne by done. by rewrite lookup_insert_eq.
    - by rewrite lookup_insert_eq. }
  split.
  { intros m i Hi. cbn. rewrite !lookup_insert_ne by congruence. done. }
  split; [|intros i kind Hi; by rewrite !seed_window_elsewhere by congruence].
  assert (forall k, db_windows d1 !! k = db_windows d !! k) as E1 by done.
  intros kind len Hin. rewrite !elem_of_cons, elem_of_nil in Hin.
  destruct Hin as [[= -> ->]|[[= -> ->]|[[= -> ->]|[]]]];
    rewrite ?seed_window_elsewhere by congruence; rewrite <- E1.
  - apply seed_window_here.
  - match goal with |- context [seed_window id "week" _ _ _ _ ?x] => set (dx := x) end.
    assert (db_windows d1 !! (id, "week"%string) = db_windows dx !! (id, "week"%string)) as ->
      by (subst dx; by rewrite seed_window_elsewhere by congruence).
    apply seed_window_here.
  - match goal with |- context [seed_window id "month" _ _ _ _ ?x] => set (dx := x) end.
    assert (db_windows d1 !! (id, "month"%string) = db_windows dx !! (id, "month"%string)) as ->
      by (subst dx; by rewrite !seed_window_elsewhere by congruence).
    apply seed_window_here.
Qed.
End seed.

Lemma seeding_keeps_history_witness :
  let d' := seed_subscription 1 true false None None (fun _ => None) (fun _ => None) (noon + hours 30) installation in
  db_ledger d' = db_ledger installation /\
  forall kind len, (kind, len) ∈ WINDOWS -> exists w, db_windows d' !! ("sub1"%string, kind) = Some w /\
    window_after kind len None None (noon + hours 30) (db_windows installation !! ("sub1"%string, kind)) w.
Proof.
  destruct (seeding_keeps_history 1 true false None None (fun _ => None) (fun _ => None) (noon + hours 30)
    installation eq_refl) as ((_ & _ & _ & E) & _ & _ & _ & Hw & _).
  exact (conj E Hw).
Defined.

(** *** All subscriptions, from the environment *)

Section environment.
Context {F : Type} `{PyFloat F}.
(** [datetime.fromisoformat], [None] for [ValueError] *)
Variable time_of : string -> option instant.
Variable env : string -> option string.

Definition _env_prefix (account_index : Z) : string := "FUGU_SUB_" +:+ str_of_Z account_index +:+ "_".
Definition _window_env_name (kind : string) : string :=
  default EmptyString (dget kind [("5h", "5H"); ("week", "WEEKLY"); ("month", "MONTHLY")]%string).
(** [value or None] *)
Definition set_value (name : string) : option string :=
  match env name with Some EmptyString => None | v => v end.
Definition _env_time (name : string) : option instant := v ← set_value name; time_of (replace_char "Z" "+00:00" v).
Definition _env_decimal (name : string) : option dec := v ← env name; _decimal (JStr v : json F).
Definition is_enabled (index : Z) : bool :=
  bool_decide (lower (default EmptyString (env ("FUGU_SUB_" +:+ str_of_Z index +:+ "_ENABLED"))) ∈ ["1"; "true"; "yes"; "on"]%string).
Definition has_api_key (index : Z) : bool := bool_decide (set_value ("SAKANA_SUB_" +:+ str_of_Z index +:+ "_KEY") <> None).
Definition seed_one (now : instant) (d : db F) (index : Z) : db F :=
  let prefix := _env_prefix index in
  seed_subscription index (has_api_key index) (is_enabled index) (set_value (prefix +:+ "LABEL"))
    (set_value (prefix +:+ "BILLING_PLAN"))
    (fun kind => _env_time (prefix +:+ _window_env_name kind +:+ "_RESET_ANCHOR"))
    (fun kind => _env_decimal (prefix +:+ _window_env_name kind +:+ "_ALLOWANCE_USAGE_UNITS")) now d.
Definition seed_accounts (ACCOUNT_COUNT : Z) (now : instant) (d : db F) : db F :=
  foldl (seed_one now) d (seqZ 1 ACCOUNT_COUNT).
(** The flag of the process; [init_schema] creates what is missing and keeps the rows. *)
Definition ensure_db (ACCOUNT_COUNT : Z) (now : instant) (s : bool * db F) : bool * db F :=
  if s.1 then s else (true, seed_accounts ACCOUNT_COUNT now s.2).

Lemma seed_one_accounts now d index id :
  db_accounts (seed_one now d index) !! id = db_accounts d !! id \/
  exists a, db_accounts (seed_one now d index) !! id = Some a /\ ac_enabled a = true.
Proof.
  unfold seed_one. destruct (has_api_key index || is_enabled index) eqn:Ek.
  - destruct (seeding_keeps_history index (has_api_key index) (is_enabled index) (set_value (_env_prefix index +:+ "LABEL"))
      (set_value (_env_prefix index +:+ "BILLING_PLAN"))
      (fun kind => _env_time (_env_prefix index +:+ _window_env_name kind +:+ "_RESET_ANCHOR"))
      (fun kind => _env_decimal (_env_prefix index +:+ _window_env_name kind +:+ "_ALLOWANCE_USAGE_UNITS")) now d Ek)
      as (_ & (a & Ha & He & _) & _).
    rewrite Ha. destruct (decide (id = "sub" +:+ str_of_Z index)%string) as [->|Hne].
    + right. exists a. by rewrite lookup_insert_eq.
    + left. by rewrite lookup_insert_ne.
  - left. unfold seed_subscription. by rewrite <- negb_orb, Ek.
Qed.
(** A subscription that was once enabled is never disabled: whatever the environment says of it
    when the router starts again, also that it has no key and is not to be enabled, the router
    goes on offering it. *)
Theorem seeding_never_disables ACCOUNT_COUNT now d id a :
  db_accounts d !! id = Some a -> ac_enabled a = true ->
  exists a', db_accounts (ensure_db ACCOUNT_COUNT now (false, d)).2 !! id = Some a' /\ ac_enabled a' = true.
Proof.
  unfold ensure_db, seed_accounts. cbn [fst snd]. revert d a. induction (seqZ 1 ACCOUNT_COUNT) as [|index l IH]; intros d a Ha He; [by exists a|].
  cbn [foldl]. destruct (seed_one_accounts now d index id) as [Hs|(a' & Hs & He')]; [|by eapply IH].
  apply (IH _ a); [|done]. by rewrite Hs.
Qed.
End environment.
Lemma seeding_never_disables_witness :
  exists a, db_accounts (ensure_db (fun _ => None) (fun k => if bool_decide (k = "FUGU_SUB_1_ENABLED")%string then Some "false"%string else None)
    2 (noon + hours 1) (false, installation)).2 !! "sub1"%string = Some a /\ ac_enabled a = true.
Proof.
  destruct (db_accounts installation !! "sub1"%string) as [a|] eqn:Ea; [|exfalso; vm_compute in Ea; discriminate Ea].
  apply (seeding_never_disables _ _ 2 (noon + hours 1) installation "sub1" a Ea).
  assert (a = default a (db_accounts installation !! "sub1"%string)) as -> by (by rewrite Ea). vm_compute. reflexivity.
Defined.

(** *** A call that names the account it is booked on *)

(** The metadata of a caller is recorded as it is, but for what the router sets, and for a
    model that has no subscription the router sets no account. *)
Definition booked_call : exchange spec_float := {|
  ex_path := "/v1/chat/completions"; ex_headers := [];
  ex_body := [("model", JStr "grok-4.5"); ("metadata", JObj [("fugu_account_id", JStr "sub1")])]%string;
  ex_session := "session-1"; ex_model := "grok-4.5"; ex_clock := fun _ => (noon, noon + 5, noon + 10);
  ex_missing := fun _ => "m"%string; ex_upstream := fun _ _ => Ok (answer 200 "ok") |}.
Example caller_names_the_account :
  match _direct_model_proxy booked_call installation with
  | Ok (_, _, d) => map (fun kr => (cell_of "account_id" kr.2, cell_of "status" kr.2)) (db_ledger d) =
      [(CText (JStr "sub1"), CText (JStr "success"))]
  | Raise _ => False
  end.
Proof. vm_compute. reflexivity. Qed.
