(* ===== verification/FuguFacts.v ===== *)
(** * Fugu credit ledger and router: what the stateless parts guarantee

    Rows written to the ledger, redaction, usage units, names of accounts and models,
    and the reader of server-sent events. *)

From stdpp Require Import base option list strings.
From Stdlib Require Import ZArith Lia Ascii SpecFloat.
From S2P Require Import Prelude PyStr PyFloat PyTime Json Regex Decimal FuguCredit FuguLedger FuguPolicy.

Local Open Scope Z_scope.
Local Open Scope py_scope.

(** ** Rows *)

Section rows.
Context {F : Type} `{PyFloat F}.
Implicit Types (r old : odict (cell F)) (t : odict (odict (cell F))).

Lemma merge_cell_same c (v : cell F) : merge_cell c v v = v.
Proof. unfold merge_cell. repeat case_match; try done. by destruct v. Qed.
Lemma merge_cell_again c (x v : cell F) : merge_cell c x (merge_cell c x v) = merge_cell c x v.
Proof. unfold merge_cell. repeat case_match; try done. by destruct x. Qed.

Lemma cell_of_merge c r old : c ∈ dkeys old -> cell_of c (merge r old) = merge_cell c (cell_of c r) (cell_of c old).
Proof.
  unfold cell_of, merge. induction old as [|[k v] old IH]; simpl; [by intros ?%elem_of_nil|].
  intros Hc. destruct (decide (k = c)) as [->|Hne].
  - by rewrite !bool_decide_true.
  - rewrite !bool_decide_false by congruence. apply IH.
    rewrite elem_of_cons in Hc. destruct Hc as [->|]; [done|done].
Qed.
Lemma dkeys_merge r old : dkeys (merge r old) = dkeys old.
Proof. unfold merge, dkeys. rewrite map_map. by apply map_ext. Qed.

Lemma merge_same r : NoDup (dkeys r) -> merge r r = r.
Proof.
  intros Hn. unfold merge. rewrite <- map_id. apply map_ext_in. intros [k v] Hin. simpl.
  apply list_elem_of_In in Hin. unfold cell_of. rewrite (dget_elem k v) by done. simpl. by rewrite merge_cell_same.
Qed.
Lemma merge_again r old : NoDup (dkeys old) -> merge r (merge r old) = merge r old.
Proof.
  intros Hn. unfold merge at 1 3. unfold merge. rewrite map_map. apply map_ext. intros [k v]. simpl.
  by rewrite merge_cell_again.
Qed.

Lemma dset_same {V} k (v : V) d : dget k d = Some v -> dset k v d = d.
Proof.
  induction d as [|[k' v'] d IH]; simpl; [done|]. case_bool_decide as E.
  - intros [= ->]. by subst.
  - intros. by rewrite IH.
Qed.

(** The columns of a row, in the order of the statement. *)
Definition columns : list string := Eval vm_compute in
  match ledger_row (F := spec_float) [] JNull None None "" JNull "" with
  | Ok w => dkeys (w_row w) | Raise _ => [] end.

Lemma ledger_row_columns kwargs resp st en status err missing w :
  ledger_row (F := F) kwargs resp st en status err missing = Ok w -> dkeys (w_row w) = columns.
Proof.
  unfold ledger_row. intros Hw. apply bind_Ok in Hw as (meta & _ & Hw). apply bind_Ok in Hw as (u & _ & Hw).
  apply bind_Ok in Hw as (hs & _ & [= <-]). done.
Qed.
Lemma columns_NoDup : NoDup columns.
Proof. apply (bool_decide_unpack (NoDup columns)). by vm_compute. Qed.

Lemma insert_row_ok accounts rid r t t' : insert_row accounts rid r t = Ok t' ->
  forallb fits r = true /\ t' = dset rid (match dget rid t with Some old => merge r old | None => r end) t.
Proof.
  unfold insert_row. intros Hi. apply bind_Ok in Hi as (? & H1 & Hi). apply bind_Ok in Hi as (? & _ & [= <-]).
  apply raise_if_Ok in H1. split; [|done]. by destruct (forallb fits r).
Qed.

Lemma write_ledger_ok accounts kwargs resp st en status err missing t t' :
  write_ledger (F := F) accounts kwargs resp st en status err missing t = Ok t' <->
  exists w, ledger_row kwargs resp st en status err missing = Ok w /\
    insert_row accounts (w_request_id w) (w_row w) t = Ok t'.
Proof.
  unfold write_ledger. split.
  - intros Hw. apply bind_Ok in Hw as (w & ? & ?). by exists w.
  - intros (w & E & ?). by rewrite E.
Qed.

(** Every row has the columns of the statement. *)
Definition table_ok t : Prop := forall rid r, dget rid t = Some r -> dkeys r = columns.

Lemma write_ledger_table accounts kwargs resp st en status err missing t t' : table_ok t ->
  write_ledger accounts kwargs resp st en status err missing t = Ok t' -> table_ok t'.
Proof.
  intros Ht (w & Ew & Hi)%write_ledger_ok. apply insert_row_ok in Hi as [_ ->].
  apply ledger_row_columns in Ew. intros rid r. rewrite dget_dset. case_bool_decide; [|by apply Ht].
  intros [= <-]. destruct (dget (w_request_id w) t) as [old|] eqn:Eo; [|done].
  rewrite dkeys_merge. by eapply Ht.
Qed.

(** Recording a call again changes nothing: the row of a request is keyed by its
    identifier, and a second write of the same call leaves the table as it is. *)
Theorem write_ledger_idempotent accounts kwargs resp st en status err missing t t' : table_ok t ->
  write_ledger accounts kwargs resp st en status err missing t = Ok t' ->
  write_ledger accounts kwargs resp st en status err missing t' = Ok t'.
Proof.
  intros Ht Hw. pose proof Hw as (w & Ew & Hi)%write_ledger_ok. apply write_ledger_ok. exists w. split; [done|].
  pose proof (ledger_row_columns _ _ _ _ _ _ _ _ Ew) as Hc.
  pose proof (insert_row_ok _ _ _ _ _ Hi) as [_ Et]. unfold insert_row in *.
  apply bind_Ok in Hi as (? & -> & Hi). apply bind_Ok in Hi as (? & -> & _). simpl. f_equal.
  subst t'. rewrite dget_dset_eq. apply dset_same. rewrite dget_dset_eq. f_equal.
  destruct (dget (w_request_id w) t) as [old|] eqn:Eo; symmetry.
  - apply merge_again. rewrite (Ht _ _ Eo). apply columns_NoDup.
  - apply merge_same. rewrite Hc. apply columns_NoDup.
Qed.

(** What the proxy reports of a call. *)
Inductive event :=
  | Success (kwargs : odict (json F)) (resp : json F) (st en : option instant) (missing : string)
  | Failure (kwargs : odict (json F)) (resp : json F) (st en : option instant) (missing : string).
Definition log_event (accounts : list string) t (e : event) :=
  match e with
  | Success kwargs resp st en missing => log_success_event accounts kwargs resp st en missing t
  | Failure kwargs resp st en missing => log_failure_event accounts kwargs resp st en missing t
  end.

(** The row an event reports of the call [rid], when the database takes it: its numbers fit
    their columns, and its account is there. *)
Definition event_row (e : event) : result (written F) :=
  match e with
  | Success kwargs resp st en missing => ledger_row kwargs resp st en "success" JNull missing
  | Failure kwargs resp st en missing => ledger_row kwargs resp st en "failure" (pget "exception" kwargs) missing
  end.
Definition account_known (accounts : list string) r : bool :=
  match cell_of "account_id" r with CText (JStr a) => bool_decide (a ∈ accounts) | _ => true end.
Definition reported (accounts : list string) (rid : string) (e : event) : option (odict (cell F)) :=
  match event_row e with
  | Ok w => if bool_decide (w_request_id w = rid) && forallb fits (w_row w) && account_known accounts (w_row w)
            then Some (w_row w) else None
  | Raise _ => None
  end.

(** What the cells of a column say together, oldest first: the identifier and the start are
    those of the first report, the outcome is that of the last one, and of the names, the
    counts and the costs the last that is not NULL holds. *)
Definition outcome_columns : list string :=
  ["end_time"; "status"; "http_status"; "error_message"; "raw_usage"; "raw_token_metadata"; "request_metadata";
   "response_metadata"; "standard_logging_object"; "proxy_server_request"]%string.
Definition is_known (v : cell F) : bool := match v with CNull => false | _ => true end.
Definition summary (c : string) (rows : list (odict (cell F))) : cell F :=
  let cells := map (cell_of c) rows in
  if bool_decide (c ∈ ["request_id"; "start_time"]%string) then default CNull (hd_error cells)
  else if bool_decide (c ∈ outcome_columns) then default CNull (last cells)
  else default CNull (last (filter is_known cells)).

(** The statement sorts the columns in the same way. *)
Lemma columns_sorted c : c ∈ columns ->
  bool_decide (c ∈ replaced_columns) = bool_decide (c ∈ outcome_columns) /\
  bool_decide (c ∈ coalesced_columns) =
    negb (bool_decide (c ∈ outcome_columns) || bool_decide (c ∈ ["request_id"; "start_time"]%string)) /\
  (bool_decide (c ∈ ["request_id"; "start_time"]%string) = true -> bool_decide (c ∈ outcome_columns) = false).
Proof.
  revert c. apply Forall_forall. repeat constructor; intros Hc; by vm_compute in Hc.
Qed.
Lemma merge_cell_summary c rows r : c ∈ columns -> rows <> [] ->
  merge_cell c (cell_of c r) (summary c rows) = summary c (rows ++ [r]).
Proof.
  intros (H1 & H2 & H3)%columns_sorted Hr. unfold merge_cell, summary. rewrite H1, H2, map_app, filter_app. cbn [map].
  destruct (bool_decide (c ∈ ["request_id"; "start_time"]%string)).
  - rewrite H3 by done. by destruct rows.
  - rewrite orb_false_r. destruct (bool_decide (c ∈ outcome_columns)); cbn [negb]; [by rewrite last_snoc|].
    rewrite filter_cons, filter_nil. destruct (decide _) as [Hk|Hk].
    + rewrite last_snoc. by destruct (cell_of c r).
    + rewrite app_nil_r. by destruct (cell_of c r).
Qed.

(** What the table says of the call after these rows were reported. *)
Definition tells t (rid : string) (rows : list (odict (cell F))) : Prop :=
  match rows with
  | [] => dget rid t = None
  | _ => exists new, dget rid t = Some new /\ dkeys new = columns /\ forall c, c ∈ columns -> cell_of c new = summary c rows
  end.
Lemma tells_old t rid : table_ok t -> tells t rid (option_list (dget rid t)).
Proof.
  intros Ht. destruct (dget rid t) as [old|] eqn:Eo; [|done]. exists old. split; [done|]. split; [by eapply Ht|].
  intros c _. unfold summary. cbn. repeat case_bool_decide; try done. by destruct (cell_of c old).
Qed.
Lemma log_event_reported accounts t e rid :
  (reported accounts rid e = None -> dget rid (log_event accounts t e) = dget rid t) /\
  (forall r, reported accounts rid e = Some r ->
     dkeys r = columns /\ dget rid (log_event accounts t e) = Some (match dget rid t with Some old => merge r old | None => r end)).
Proof.
  assert (log_event accounts t e = match w ← event_row e; insert_row accounts (w_request_id w) (w_row w) t with
    Ok t' => t' | Raise _ => t end) as -> by (by destruct e).
  assert (forall w, event_row e = Ok w -> dkeys (w_row w) = columns) as Hc by (by destruct e; intros w; apply ledger_row_columns).
  unfold reported. destruct (event_row e) as [w|]; [|done]. cbn [mbind result_bind].
  assert (insert_row accounts (w_request_id w) (w_row w) t =
    if forallb fits (w_row w) && account_known accounts (w_row w) then
      Ok (dset (w_request_id w) (match dget (w_request_id w) t with Some old => merge (w_row w) old | None => w_row w end) t)
    else insert_row accounts (w_request_id w) (w_row w) t) as Hi.
  { unfold insert_row, account_known. destruct (forallb fits (w_row w)); [|done]. cbn.
    by destruct (cell_of "account_id" (w_row w)) as [|[]| | | |]; cbn; repeat case_bool_decide. }
  assert (forall t', insert_row accounts (w_request_id w) (w_row w) t = Ok t' ->
    forallb fits (w_row w) && account_known accounts (w_row w) = true) as Ho.
  { intros t'. unfold insert_row, account_known. destruct (forallb fits (w_row w)); [|done]. cbn.
    by destruct (cell_of "account_id" (w_row w)) as [|[]| | | |]; cbn; repeat case_bool_decide. }
  destruct (forallb fits (w_row w) && account_known accounts (w_row w)) eqn:Ef.
  - rewrite Hi. apply andb_true_iff in Ef as [-> ->]. rewrite !andb_true_r, dget_dset. case_bool_decide as Er.
    + split; [done|]. intros r [= <-]. split; [by apply Hc|]. by rewrite Er, bool_decide_true.
    + split; [|done]. by rewrite bool_decide_false.
  - rewrite <- andb_assoc, Ef, andb_false_r. split; [|done]. destruct (insert_row _ _ _ _); [|done].
    by specialize (Ho _ eq_refl).
Qed.
Lemma log_event_tells accounts t e rid rows :
  tells t rid rows -> tells (log_event accounts t e) rid (rows ++ option_list (reported accounts rid e)).
Proof.
  destruct (log_event_reported accounts t e rid) as [Hn Hs]. destruct (reported accounts rid e) as [r|].
  - destruct (Hs r eq_refl) as [Hc Hd]. intros Ht. destruct rows as [|x rows]; cbn [tells app] in *.
    + rewrite Ht in Hd. exists r. split; [done|]. split; [done|]. intros c _. unfold summary. cbn.
      repeat case_bool_decide; try done. by destruct (cell_of c r).
    + destruct Ht as (old & Ho & Hk & Hcells). rewrite Ho in Hd. exists (merge r old). split; [done|].
      split; [by rewrite dkeys_merge|]. intros c Hin. rewrite cell_of_merge by (by rewrite Hk).
      rewrite Hcells by done. by apply (merge_cell_summary c (x :: rows)).
  - rewrite app_nil_r. unfold tells. by rewrite Hn.
Qed.

Lemma log_events_tell accounts es rid : forall t rows,
  tells t rid rows -> tells (foldl (log_event accounts) t es) rid (rows ++ omap (reported accounts rid) es).
Proof.
  induction es as [|e es IH]; intros t rows Ht; cbn [foldl]; [by rewrite app_nil_r|].
  apply (log_event_tells accounts _ e), IH in Ht. rewrite <- app_assoc in Ht.
  change (omap ?f (e :: es)) with (match f e with Some y => y :: omap f es | None => omap f es end).
  by destruct (reported accounts rid e).
Qed.

(** C27: Whatever is reported of a call, in whatever order, the ledger has one row for it once
    a report was taken, and every column of it is the summary of these reports: the
    identifier and the start time of the first, the outcome and the raw objects of the
    last, and of each name, count and cost the last that was not NULL. So no later report
    makes a recorded value unknown, but one with a value replaces it
    ([late_failure_clears_the_cost]). A report that raises, or whose numbers or account the
    database refuses, leaves the row alone. *)
Theorem row_sums_up_the_reports accounts es t rid : table_ok t ->
  tells (foldl (log_event accounts) t es) rid (option_list (dget rid t) ++ omap (reported accounts rid) es).
Proof. intros Ht. by apply log_events_tell, tells_old. Qed.
End rows.

(** ** Redaction *)

Section redaction.
Context {F : Type} `{PyFloat F}.

(** No object, at any depth, has a value under a sensitive name. *)
Fixpoint clean (j : json F) : bool :=
  match j with
  | JArr l => forallb clean l
  | JObj d => forallb (fun kv =>
      if sensitive kv.1 then match kv.2 with JStr s => String.eqb s "[redacted]" | _ => false end
      else clean kv.2) d
  | _ => true
  end.

Lemma jsonable_clean (j : json F) : clean (_jsonable j) = true.
Proof.
  induction j as [| | | | |l IH|d IH] using json_nested_ind; simpl; try done.
  - rewrite forallb_forall. intros x Hx. apply in_map_iff in Hx as (y & <- & Hy).
    rewrite Forall_forall in IH. apply IH. by apply list_elem_of_In.
  - rewrite forallb_forall. intros x Hx. apply in_map_iff in Hx as ([k v] & <- & Hy). simpl.
    destruct (sensitive k); [done|]. rewrite Forall_forall in IH. apply (IH (k, v)). by apply list_elem_of_In.
Qed.

Lemma jsonable_fixed (j : json F) : clean j = true -> _jsonable j = j.
Proof.
  induction j as [| | | | |l IH|d IH] using json_nested_ind; simpl; try done; rewrite forallb_forall; intros Hc; f_equal.
  - rewrite <- (map_id l) at 2. apply map_ext_in. intros x Hx. rewrite Forall_forall in IH.
    apply IH; [by apply list_elem_of_In|by apply Hc].
  - rewrite <- (map_id d) at 2. apply map_ext_in. intros [k v] Hx. simpl. f_equal. specialize (Hc _ Hx). simpl in Hc.
    destruct (sensitive k).
    + destruct v; try done. apply String.eqb_eq in Hc. by subst.
    + rewrite Forall_forall in IH. apply (IH (k, v)); [by apply list_elem_of_In|done].
Qed.

Definition clean_cell (c : cell F) : bool := match c with CJson j => clean j | _ => true end.
Definition clean_row (r : odict (cell F)) : Prop := Forall (fun cv => clean_cell cv.2 = true) r.
Definition clean_table (t : odict (odict (cell F))) : Prop := Forall (fun kr => clean_row kr.2) t.

Lemma clean_text j : clean_cell (text j) = true.
Proof. by destruct j. Qed.
Lemma clean_ocell {A} (f : A -> cell F) o : (forall a, clean_cell (f a) = true) -> clean_cell (ocell f o) = true.
Proof. intros Hf. destruct o as [a|]; [exact (Hf a)|done]. Qed.
Lemma clean_json j : clean_cell (CJson (_jsonable j)) = true.
Proof. apply jsonable_clean. Qed.
Lemma clean_if (b : bool) (x y : cell F) :
  clean_cell x = true -> clean_cell y = true -> clean_cell (if b then x else y) = true.
Proof. by destruct b. Qed.

Lemma ledger_row_clean kwargs resp st en status err missing w :
  ledger_row kwargs resp st en status err missing = Ok w -> clean_row (w_row w).
Proof.
  unfold ledger_row. intros Hw. apply bind_Ok in Hw as (meta & _ & Hw). apply bind_Ok in Hw as (u & _ & Hw).
  apply bind_Ok in Hw as (hs & _ & [= <-]).
  unfold clean_row. repeat (apply Forall_cons; split); try apply Forall_nil; cbn [w_row snd];
    first [exact eq_refl | apply clean_json | apply clean_text | apply clean_ocell; done | apply clean_if; exact eq_refl |idtac].
  - destruct (_direct_estimated_cost _ _); [done|]. by apply clean_ocell.
  - exact (clean_json (JObj _)).
  - exact (clean_json (JObj _)).
  - exact (clean_json (JObj _)).
  - done.
Qed.

Lemma clean_cell_of c (r : odict (cell F)) : clean_row r -> clean_cell (cell_of c r) = true.
Proof.
  intros Hr. unfold cell_of. destruct (dget c r) as [v|] eqn:E; [|done]. apply dget_Some_elem in E.
  unfold clean_row in Hr. rewrite Forall_forall in Hr. apply (Hr _ E).
Qed.
Lemma merge_clean (r old : odict (cell F)) : clean_row r -> clean_row old -> clean_row (merge r old).
Proof.
  intros Hr Ho. unfold clean_row, merge in *. rewrite Forall_map. eapply Forall_impl; [exact Ho|].
  intros [c v] Hv. simpl in *. unfold merge_cell. repeat case_match; try done.
  - by apply clean_cell_of.
  - unfold coalesce. pose proof (clean_cell_of c r Hr). by destruct (cell_of c r).
Qed.

(** No credential reaches the ledger's JSON columns: whatever a call's keyword
    arguments, response and metadata contain, no object stored at any depth has a value
    other than the redaction mark under a sensitive name; and redaction changes nothing
    that needs no redaction. *)
Theorem ledger_is_redacted accounts kwargs resp st en status err missing t t' :
  clean_table t -> write_ledger accounts kwargs resp st en status err missing t = Ok t' ->
  clean_table t' /\ forall j : json F, clean (_jsonable j) = true /\ (clean j = true -> _jsonable j = j).
Proof.
  intros Ht (w & Ew & Hi)%write_ledger_ok. split; [|intros j; split; [apply jsonable_clean|apply jsonable_fixed]].
  apply insert_row_ok in Hi as [_ ->]. apply ledger_row_clean in Ew.
  apply dset_Forall; [|exact Ht]. intros rid. simpl.
  destruct (dget (w_request_id w) t) as [old|] eqn:Eo; [|done].
  apply dget_Some_elem in Eo. unfold clean_table in Ht. rewrite Forall_forall in Ht. apply merge_clean; [done|]. apply (Ht _ Eo).
Qed.
End redaction.

(** ** Server-sent events *)

Section sse.

(** The complete lines of a text, and the unfinished one. *)
Definition lines (s : string) : list string := split_char LF s.
Definition whole (s : string) : list string := removelast (lines s).
Definition rest (s : string) : string := List.last (lines s) EmptyString.

Lemma lines_ne s : lines s <> [].
Proof. unfold lines. destruct s as [|c s]; simpl; [done|]. destruct (eqc c LF); [done|]. by destruct (split_char LF s). Qed.
Lemma lines_split s : lines s = whole s ++ [rest s].
Proof. apply app_removelast_last, lines_ne. Qed.

Lemma lines_app a b : lines (a +:+ b) = whole a ++ lines (rest a +:+ b).
Proof.
  unfold whole, rest, lines. induction a as [|c a IH]; simpl; [done|].
  destruct (eqc c LF) eqn:E.
  - rewrite IH. pose proof (lines_ne a) as Hn. unfold lines in Hn. by destruct (split_char LF a).
  - pose proof (lines_ne a) as Hn. unfold lines in Hn. rewrite IH.
    destruct (split_char LF a) as [|l [|l2 ls]]; [done| |done]. simpl. by rewrite E.
Qed.
Lemma whole_app a b : whole (a +:+ b) = whole a ++ whole (rest a +:+ b).
Proof. unfold whole at 1. rewrite lines_app, removelast_app; [done|apply lines_ne]. Qed.
Lemma rest_app a b : rest (a +:+ b) = rest (rest a +:+ b).
Proof.
  unfold rest at 1. rewrite lines_app, lines_split, app_assoc. apply last_last.
Qed.

Lemma partition_lines s :
  match partition (String LF EmptyString) s with
  | Some (l, r) => lines s = l :: lines r /\ (String.length r < String.length s)%nat
  | None => lines s = [s]
  end.
Proof.
  unfold lines. induction s as [|c s IH]; simpl; [done|].
  unfold eqc. destruct (decide (c = LF)) as [->|Hne].
  - rewrite !bool_decide_true by done. simpl. split; [by destruct s|]. destruct s; simpl; lia.
  - rewrite !bool_decide_false by congruence. simpl. destruct (partition _ s) as [[l r]|]; simpl.
    + destruct IH as [-> ?]. split; [done|lia].
    + by rewrite IH.
Qed.

Lemma sse_lines_spec fuel s acc : (String.length s < fuel)%nat ->
  sse_lines fuel s acc = {| ss_pending := rest s; ss_payloads := acc ++ flat_map sse_line (whole s) |}.
Proof.
  revert s acc. induction fuel as [|fuel IH]; intros s acc Hf; [lia|]. simpl.
  pose proof (partition_lines s) as Hp. destruct (partition _ s) as [[l r]|].
  - destruct Hp as [El Hl]. rewrite IH by lia. unfold whole, rest. rewrite El.
    pose proof (lines_ne r). destruct (lines r) as [|l2 ls]; [done|]. simpl. by rewrite <- app_assoc.
  - unfold whole, rest. rewrite Hp. simpl. by rewrite app_nil_r.
Qed.

(** The state of the reader after the text [s]. *)
Definition read_up_to (s : string) : sse :=
  {| ss_pending := rest s; ss_payloads := flat_map sse_line (whole s) |}.

Lemma consume_read s d : consume_sse d (read_up_to s) = read_up_to (s +:+ d).
Proof.
  unfold consume_sse. rewrite sse_lines_spec by lia. unfold read_up_to. simpl.
  f_equal; [by rewrite (rest_app s d)|].
  rewrite (whole_app s d), flat_map_app. reflexivity.
Qed.
Lemma consume_all chunks s :
  foldl (fun s c => consume_sse c s) (read_up_to s) chunks = read_up_to (s +:+ String.concat "" chunks).
Proof.
  revert s. induction chunks as [|c chunks IH]; intros s; simpl.
  - by rewrite string_app_nil_r.
  - rewrite consume_read, IH. rewrite string_app_assoc. f_equal.
    destruct chunks as [|c2 chunks]; simpl; [by rewrite string_app_nil_r|done].
Qed.

Lemma whole_LF s : whole (s +:+ String LF EmptyString) = lines s.
Proof.
  assert (lines (s +:+ String LF EmptyString) = lines s ++ [EmptyString]) as E.
  { unfold lines. induction s as [|c s IH]; [done|]. simpl. destruct (eqc c LF); [by rewrite IH|].
    rewrite IH. pose proof (lines_ne s) as Hn. unfold lines in Hn. by destruct (split_char LF s). }
  unfold whole. by rewrite E, removelast_last.
Qed.

Lemma sse_line_blank l : bstrip l = EmptyString -> sse_line l = [].
Proof. intros E. unfold sse_line. by rewrite E. Qed.

(** How the upstream cuts a stream into chunks makes no difference: the events
    recorded are those of the whole text, line by line, the last one too when it is not
    ended by a line feed. *)
Theorem stream_is_chunking_independent chunks :
  sse_stream chunks = flat_map sse_line (split_char LF (String.concat "" chunks)).
Proof.
  unfold sse_stream. change sse_start with (read_up_to "").
  rewrite consume_all. simpl String.append. set (s := String.concat "" chunks).
  change (split_char LF s) with (lines s). rewrite lines_split, flat_map_app. simpl. rewrite app_nil_r.
  case_bool_decide as E; simpl in E.
  - change (ss_payloads (read_up_to s)) with (flat_map sse_line (whole s)).
    by rewrite sse_line_blank, app_nil_r.
  - rewrite consume_read. unfold read_up_to, ss_payloads. rewrite whole_LF, lines_split, flat_map_app.
    simpl. by rewrite app_nil_r.
Qed.
End sse.

(** ** Usage *)

Section units.
Context {F : Type} `{PyFloat F}.

Lemma dadd_small m e n f c : c = Z.min e f ->
  Z.abs (align m e c + align n f c) < 10 ^ dec_prec -> dadd (m, e) (n, f) = (align m e c + align n f c, c).
Proof. intros -> Hb. unfold dadd. simpl. by apply dround_small. Qed.
Lemma dmul_small m e n f : Z.abs (m * n) < 10 ^ dec_prec -> dmul (m, e) (n, f) = (m * n, e + f).
Proof. intros Hb. unfold dmul. simpl. by apply dround_small. Qed.

(** A token count that a call can have. *)
Definition sane (z : Z) : Prop := 0 <= z < 10 ^ 20.

Lemma units_exact nc c o no oc oo : sane nc -> sane c -> sane o -> sane no -> sane oc -> sane oo ->
  units nc c o no oc oo = (10 * nc + c + 60 * o + 10 * no + oc + 60 * oo, -1).
Proof.
  unfold sane, units, dec_of_Z. intros. assert (10 ^ dec_prec = 10 ^ 8 * 10 ^ 20) as Ep by reflexivity.
  change (10 ^ 8) with 100000000 in Ep.
  assert (forall a b : Z, align a 0 (-1) = 10 * a /\ align b (-1) (-1) = b) as Hal.
  { intros a b. unfold align. simpl. change (10 ^ 1) with 10. change (10 ^ 0) with 1. lia. }
  repeat (rewrite dmul_small by lia). simpl Z.add.
  repeat (rewrite (dadd_small _ _ _ _ (-1)) by
    (try reflexivity; rewrite ?(proj1 (Hal _ 0)), ?(proj2 (Hal 0 _)); lia)).
  f_equal. rewrite ?(proj1 (Hal _ 0)), ?(proj2 (Hal 0 _)). lia.
Qed.

(** The units charged for a call are exactly one per input token that was not
    cached, a tenth per cached one and six per output token, and the same for the
    tokens of the orchestration, whatever the provider calls the counts. *)
Theorem usage_units_exact resp (u : usage F) : extract_usage resp = Ok (Some u) ->
  let i := or0 (u_input_tokens u) in let c := or0 (u_cached_input_tokens u) in
  let o := or0 (u_output_tokens u) in let oi := or0 (u_orchestration_input_tokens u) in
  let oc := or0 (u_orchestration_input_cached_tokens u) in let oo := or0 (u_orchestration_output_tokens u) in
  Forall sane [i; c; o; oi; oc; oo] ->
  u_usage_units u =
    (10 * Z.max (i - c) 0 + c + 60 * o + 10 * Z.max (oi - oc) 0 + oc + 60 * oo, -1).
Proof.
  unfold extract_usage. destruct (bool_decide _); [done|]. intros Hu.
  repeat match type of Hu with mbind _ _ = Ok _ => apply bind_Ok in Hu as (? & _ & Hu) end.
  injection Hu as <-. simpl. rewrite !Forall_cons. intros (? & ? & ? & ? & ? & ? & _).
  apply units_exact; unfold sane in *; lia.
Qed.
End units.

Definition usage_response (tokens : json spec_float) : json spec_float :=
  JObj [("id", JStr "call-1");
        ("usage", JObj [("prompt_tokens", tokens); ("completion_tokens", JInt 20);
                        ("prompt_tokens_details", JObj [("cached_tokens", JInt 30)])])]%string.
Lemma usage_demo_ok : exists u, extract_usage (usage_response (JInt 100)) = Ok (Some u) /\
  Forall sane [or0 (u_input_tokens u); or0 (u_cached_input_tokens u); or0 (u_output_tokens u);
    or0 (u_orchestration_input_tokens u); or0 (u_orchestration_input_cached_tokens u);
    or0 (u_orchestration_output_tokens u)].
Proof.
  eexists. split; [vm_compute; reflexivity|]. simpl. unfold sane. repeat constructor; simpl; lia.
Qed.
Lemma usage_units_exact_witness :
  exists u, extract_usage (usage_response (JInt 100)) = Ok (Some u) /\
    u_usage_units u = (10 * Z.max (or0 (u_input_tokens u) - or0 (u_cached_input_tokens u)) 0
      + or0 (u_cached_input_tokens u) + 60 * or0 (u_output_tokens u)
      + 10 * Z.max (or0 (u_orchestration_input_tokens u) - or0 (u_orchestration_input_cached_tokens u)) 0
      + or0 (u_orchestration_input_cached_tokens u) + 60 * or0 (u_orchestration_output_tokens u), -1).
Proof.
  destruct usage_demo_ok as (u & E & Hs). exists u. split; [exact E|]. exact (usage_units_exact _ u E Hs).
Defined.
Example usage_units_demo :
  match extract_usage (usage_response (JInt 100)) with Ok (Some u) => u_usage_units u | _ => (0, 0) end = (700 + 30 + 1200, -1).
Proof. by vm_compute. Qed.

(** A token count given as the text "inf" makes the whole call disappear: [int] of
    an infinite float raises an overflow, which [_number] does not catch and the
    callback swallows, so nothing is recorded, whatever the call was. *)
Theorem infinite_count_loses_the_call accounts kwargs st en missing t :
  log_success_event accounts kwargs (usage_response (JStr "inf")) st en missing t = t.
Proof.
  assert (match extract_usage (usage_response (JStr "inf")) with Raise _ => true | Ok _ => false end = true) as Hx
    by (by vm_compute).
  unfold log_success_event, write_ledger, ledger_row. destruct (_annotate_metadata _ _); [|done]. simpl mbind.
  destruct (extract_usage (usage_response (JStr "inf"))); [discriminate Hx|done].
Qed.

(** ** Witnesses *)

Definition call : odict (json spec_float) :=
  [("model", JStr "fugu-ultra-sub-2"); ("litellm_call_id", JStr "c-1");
   ("proxy_server_request", JObj [("headers", JObj [("authorization", JStr "Bearer k"); ("x-agent-id", JStr "a-7")])])]%string.
Definition recorded : odict (odict (cell spec_float)) :=
  match write_ledger ["sub2"]%string call (usage_response (JInt 100)) (Some 5) (Some 9) "success" JNull "m" [] with
  | Ok t => t | Raise _ => [] end.
Lemma recorded_call :
  write_ledger ["sub2"]%string call (usage_response (JInt 100)) (Some 5) (Some 9) "success" JNull "m" [] = Ok recorded.
Proof.
  assert (forall r : result (odict (odict (cell spec_float))),
    match r with Ok _ => true | Raise _ => false end = true ->
    r = Ok (match r with Ok t => t | Raise _ => [] end)) as Hr by (by intros []).
  apply Hr. by vm_compute.
Qed.
Lemma empty_table_ok : table_ok (F := spec_float) [].
Proof. by intros rid r. Qed.
Lemma recorded_table_ok : table_ok recorded.
Proof. exact (write_ledger_table _ _ _ _ _ _ _ _ _ _ empty_table_ok recorded_call). Qed.

Lemma write_ledger_idempotent_witness :
  write_ledger ["sub2"]%string call (usage_response (JInt 100)) (Some 5) (Some 9) "success" JNull "m" recorded = Ok recorded.
Proof. exact (write_ledger_idempotent _ _ _ _ _ _ _ _ _ _ empty_table_ok recorded_call). Defined.

Lemma recorded_row : exists old, dget "c-1" recorded = Some old /\
  cell_of "input_tokens" old = CInt 100 /\ cell_of "account_id" old = CText (JStr "sub2") /\
  cell_of "proxy_server_request" old =
    CJson (JObj [("headers", JObj [("authorization", JStr "[redacted]"); ("x-agent-id", JStr "a-7")])])%string.
Proof. eexists. split_and!; vm_compute; reflexivity. Qed.

(** A call of a model with a price of its own succeeds, and a failure without usage is
    reported of it later. *)
Definition direct_call : odict (json spec_float) := [("model", JStr "grok-4.3"); ("litellm_call_id", JStr "c-2")]%string.
Definition late_failure : list (event (F := spec_float)) :=
  [Success direct_call (usage_response (JInt 100)) (Some 5) (Some 9) "m"; Failure direct_call JNull None (Some 12) "m"]%string.
Definition cell_after (n : nat) (c : string) : option (cell spec_float) :=
  cell_of c <$> dget "c-2"%string (foldl (log_event []) [] (take n late_failure)).
(** The report without usage has a cost all the same, of nothing, and it replaces the other. *)
Example late_failure_clears_the_cost :
  cell_after 1 "input_tokens" = Some (CInt 100) /\ cell_after 2 "input_tokens" = Some (CInt 100) /\
  cell_after 1 "estimated_cost_usd" = Some (CNum (DFin 14350 (-8))) /\ cell_after 2 "estimated_cost_usd" = Some (CNum (DFin 0 (-8))).
Proof. split_and!; vm_compute; reflexivity. Qed.
Lemma row_sums_up_the_reports_witness :
  length (omap (reported [] "c-2") late_failure) = 2%nat /\
  tells (foldl (log_event []) [] late_failure) "c-2" (omap (reported [] "c-2") late_failure).
Proof. split; [vm_compute; reflexivity|]. exact (row_sums_up_the_reports [] late_failure [] "c-2" empty_table_ok). Defined.
Lemma ledger_is_redacted_witness : clean_table recorded /\
  forall j : json spec_float, clean (_jsonable j) = true /\ (clean j = true -> _jsonable j = j).
Proof.
  exact (ledger_is_redacted _ _ _ _ _ _ _ _ _ _ (Forall_nil_2 _) recorded_call).
Defined.
