(* ===== verification/OrchEnv.v ===== *)
(** * Cluster orchestrator: requests, environments and commands

    [deploy/cluster-orchestrator.py], the functions that keep no state: names,
    environment files, the choice of an image, the compose file and the shell command
    of a deployment. *)

From stdpp Require Import base option list strings.
From Stdlib Require Import ZArith Lia Ascii.
From S2P Require Import Prelude PyStr PyFloat Json Regex.

Local Open Scope Z_scope.
Local Open Scope py_scope.

(** ** Settings *)

Definition CATALOG_IMAGES : odict string :=
  [("postgres", "postgres:16-alpine"); ("redis", "redis:7-alpine");
   ("qdrant", "qdrant/qdrant:latest"); ("agent-runtime", "alpine:3.20")]%string.

Record box := { bx_vcpu : string; bx_mem : string; bx_disk : string }.
Definition FLAVORS : odict box :=
  [("small", {| bx_vcpu := "2"; bx_mem := "4096"; bx_disk := "40" |});
   ("medium", {| bx_vcpu := "4"; bx_mem := "8192"; bx_disk := "80" |});
   ("large", {| bx_vcpu := "8"; bx_mem := "16384"; bx_disk := "160" |})]%string.
Definition medium : box := {| bx_vcpu := "4"; bx_mem := "8192"; bx_disk := "80" |}.

Definition SIDECAR_IMAGE : string :=
  "ghcr.io/attestmesh/cluster-mesh-agent@sha256:b9e0ae107d9db015c22059c9fecdc28f2b35e09b257eabb4739bd4e46d96f641".

(** What the environment of the process sets. *)
Record config := {
  TOKEN : string;
  DEPLOY_RPC_URL : string;
  DEPLOY_BUNDLER_URL : string;
  DEPLOY_GAS_POLICY_ID : string;
  DEPLOY_BOX_RPC : string;
  COMPOSES : string;
  LOGS : string;
  AUTO_CLEANUP_FAILED : bool;
}.

Definition validate_deploy_config (c : config) : result unit :=
  raise! RuntimeError "ORCHESTRATOR_BUNDLER_URL is not configured. Cluster CVMs need an EIP-4337 bundler/paymaster endpoint; a plain Base RPC URL cannot register members."
    when bool_decide (DEPLOY_BUNDLER_URL c = EmptyString);
  raise! RuntimeError "ORCHESTRATOR_BUNDLER_URL must be a real EIP-4337 bundler/paymaster endpoint, not the same plain RPC URL used for chain reads."
    when bool_decide (DEPLOY_BUNDLER_URL c = DEPLOY_RPC_URL c);
  raise! RuntimeError "ORCHESTRATOR_GAS_POLICY_ID is not configured. Cluster CVMs need the paymaster sponsorship policy id that matches ORCHESTRATOR_BUNDLER_URL."
    when bool_decide (DEPLOY_GAS_POLICY_ID c = EmptyString);
  Ok tt.

(** ** Names *)

(** [re.sub("[^a-z0-9-]+", "-", s)]: [run] says that the previous character was
    replaced. *)
Definition slug_char (c : ascii) : bool := is_lower c || is_digit c || eqc c "-".
Fixpoint sub_runs (run : bool) (s : string) : string :=
  match s with
  | EmptyString => EmptyString
  | String c s =>
      if slug_char c then String c (sub_runs false s)
      else if run then sub_runs true s else String "-" (sub_runs true s)
  end.

Definition slug (value : string) : string :=
  let s := strip_char "-" (sub_runs false (lower value)) in
  let t := stake 48 s in
  if bool_decide (t = EmptyString) then "workload"%string else t.

(** The name of the machine of a deployment. *)
Definition node_name (network_id name job_id : string) : string :=
  slug (network_id +:+ "-" +:+ name +:+ "-" +:+ stake 6 job_id).

(** ** Environments *)

Definition env_re : re := literal false "^[A-Za-z_][A-Za-z0-9_]*=".

(** One turn of the loop over the lines. *)
Definition parse_env_line (parsed : odict string) (line : string) : result (odict string) :=
  let stripped := strip line in
  if bool_decide (stripped = EmptyString) || startswith "#" stripped then Ok parsed
  else if negb (found (re_match env_re stripped)) then
    Raise (ValueError ("Invalid environment line: " +:+ repr_str line))
  else match partition "=" stripped with
       | Some (key, value) => Ok (dset key value parsed)
       | None => Raise (ValueError "not enough values to unpack")
       end.
Fixpoint parse_env_lines (parsed : odict string) (ls : list string) : result (odict string) :=
  match ls with
  | [] => Ok parsed
  | l :: ls => parsed ← parse_env_line parsed l; parse_env_lines parsed ls
  end.
Definition parse_env (raw : string) : result (odict string) :=
  if bool_decide (strip raw = EmptyString) then Ok [] else parse_env_lines [] (splitlines raw).

Definition env_line (kv : string * string) : string := kv.1 +:+ "=" +:+ kv.2 +:+ String LF EmptyString.
Definition env_text (env : odict string) : string := String.concat "" (map env_line (dsort env)).

Definition setdefault (k v : string) (d : odict string) : odict string := if dmem k d then d else dset k v d.
Definition env_for_catalog (catalog_id : option string) (user_env : odict string) : result (odict string) :=
  if bool_decide (catalog_id = Some "postgres"%string) then
    raise! ValueError "Postgres requires POSTGRES_PASSWORD in Advanced environment."
      when bool_decide (default EmptyString (dget "POSTGRES_PASSWORD" user_env) = EmptyString);
    Ok (setdefault "POSTGRES_INITDB_ARGS" "--encoding=UTF8 --locale=C"
         (setdefault "POSTGRES_DB" "postgres" (setdefault "POSTGRES_USER" "postgres" user_env)))
  else Ok user_env.

(** ** Base64, as [base64.b64encode] *)

Definition b64_alphabet : string := "ABCDEFGHIJKLMNOPQRSTUVWXYZabcdefghijklmnopqrstuvwxyz0123456789+/".
Definition b64_char (n : Z) : ascii := default "="%char (String.get (Z.to_nat n) b64_alphabet).
Definition byte_of (c : ascii) : Z := Z.of_N (code c).
Fixpoint b64encode (s : string) : string :=
  match s with
  | EmptyString => EmptyString
  | String a EmptyString =>
      let n := byte_of a in
      String (b64_char (Z.shiftr n 2)) (String (b64_char (Z.shiftl (Z.land n 3) 4)) "==")
  | String a (String b EmptyString) =>
      let n := byte_of a * 256 + byte_of b in
      String (b64_char (Z.shiftr n 10)) (String (b64_char (Z.land (Z.shiftr n 4) 63))
        (String (b64_char (Z.shiftl (Z.land n 15) 2)) "="))
  | String a (String b (String c s)) =>
      let n := byte_of a * 65536 + byte_of b * 256 + byte_of c in
      String (b64_char (Z.shiftr n 18)) (String (b64_char (Z.land (Z.shiftr n 12) 63))
        (String (b64_char (Z.land (Z.shiftr n 6) 63)) (String (b64_char (Z.land n 63)) (b64encode s))))
  end.
Example b64_man : b64encode "Man many M" = "TWFuIG1hbnkgTQ=="%string.
Proof. vm_compute. reflexivity. Qed.

(** ** Shell quoting, as [shlex.quote] *)

Definition SQ : ascii := "'".
Definition DQ : ascii := "034".
Definition sh_safe (c : ascii) : bool := is_word c || sany (eqc c) "@%+=:,./-".
Definition sh_quote (s : string) : string :=
  if bool_decide (s = EmptyString) then String SQ (String SQ EmptyString)
  else if sall sh_safe s then s
  else String SQ (replace_char SQ (String SQ (String DQ (String SQ (String DQ (String SQ EmptyString))))) s
         +:+ String SQ EmptyString).

(** ** Compose files *)

(** A double quote is written [~] in the literals below. *)
Definition dq (s : string) : string := replace_char "~" (String DQ EmptyString) s.
Definition text_of (lines : list string) : string := String.concat "" (map (fun l => l +:+ String LF EmptyString) lines).

Definition mesh_lines : list string :=
  ["services:";
   "  sidecar:";
   "    image: " +:+ SIDECAR_IMAGE;
   "    restart: unless-stopped";
   "    environment:";
   "      - CHAIN_ID=${CHAIN_ID}";
   "      - RPC_URL=${RPC_URL}";
   "      - BUNDLER_URL=${BUNDLER_URL}";
   "      - GAS_POLICY_ID=${GAS_POLICY_ID}";
   "      - INDEXER_REGISTRY_ADDR=${INDEXER_REGISTRY_ADDR}";
   "      - GATEWAY_DOMAIN=${GATEWAY_DOMAIN}";
   "      - DSTACK_SOCKET=/var/run/dstack.sock";
   "      - SIDECAR_STATE_DIR=/var/lib/attestmesh";
   "      - HEALTH_HTTP_ADDR=0.0.0.0:9090";
   "      - LOG_FORMAT=pretty";
   "      - LOG_LEVEL=info,cluster_mesh_agent=debug";
   "    volumes:";
   "      - /var/run/dstack.sock:/var/run/dstack.sock";
   "      - sidecar-state:/var/lib/attestmesh";
   "    ports:";
   dq "      - ~9090:9090~";
   dq "      - ~51900:51900~";
   "    cap_add:";
   "      - NET_ADMIN";
   "    devices:";
   "      - /dev/net/tun";
   EmptyString;
   "  registration-helper:";
   "    image: " +:+ SIDECAR_IMAGE;
   "    restart: unless-stopped";
   "    environment:";
   "      - CLUSTER=${CLUSTER}";
   "      - DSTACK_SOCKET=/var/run/dstack.sock";
   "      - REGISTRATION_HELPER_ADDR=0.0.0.0:9092";
   "    volumes:";
   "      - /var/run/dstack.sock:/var/run/dstack.sock";
   dq "    entrypoint: [~/usr/local/bin/attestmesh-registration-calldata~]";
   EmptyString]%string.
Definition postgres_compose (name : string) : string := text_of (mesh_lines ++
  ["  postgres:";
   "    image: postgres:16-alpine";
   "    restart: unless-stopped";
   "    env_file:";
   "      - /tmp/attestmesh-workload.env";
   "    volumes:";
   "      - pgdata:/var/lib/postgresql/data";
   "    labels:";
   dq "      attestmesh.name: ~" +:+ name +:+ dq "~";
   dq "      attestmesh.source: ~fleet-control~";
   EmptyString;
   "  postgres-mesh-proxy:";
   "    image: alpine/socat:1.8.0.0";
   "    restart: unless-stopped";
   "    network_mode: service:sidecar";
   "    depends_on:";
   "      sidecar:";
   "        condition: service_started";
   "      postgres:";
   "        condition: service_started";
   "    entrypoint:";
   "      - /bin/sh";
   "      - -ec";
   "    command:";
   "      - |";
   "        while :; do";
   dq "          ip=~$$(ip -4 -o addr show dev attestmesh0 2>/dev/null | awk '{print $$4}' | cut -d/ -f1)~";
   dq "          [ -n ~$$ip~ ] && break";
   "          sleep 1";
   "        done";
   dq "        exec socat -d -d TCP-LISTEN:5432,fork,reuseaddr,bind=~$${ip}~ TCP:postgres:5432";
   "    read_only: true";
   "    cap_drop:";
   "      - ALL";
   "    security_opt:";
   "      - no-new-privileges:true";
   EmptyString;
   "volumes:";
   "  sidecar-state:";
   "  pgdata:"]%string).
Definition generic_compose (name image : string) (catalog_id : option string) : string :=
  let command := if bool_decide (catalog_id = Some "agent-runtime"%string)
    then String LF (dq "    command: [~sh~, ~-lc~, ~while true; do sleep 3600; done~]") else EmptyString in
  text_of (mesh_lines ++
  ["  workload:";
   "    image: " +:+ image;
   "    restart: unless-stopped";
   "    env_file:";
   "      - /tmp/attestmesh-workload.env" +:+ command;
   "    labels:";
   dq "      attestmesh.name: ~" +:+ name +:+ dq "~";
   dq "      attestmesh.source: ~fleet-control~";
   EmptyString;
   "volumes:";
   "  sidecar-state:"]%string).
Definition compose_for (name image : string) (catalog_id : option string) : string :=
  if bool_decide (catalog_id = Some "postgres"%string) then postgres_compose name
  else generic_compose name image catalog_id.

(** ** The command of a deployment *)

(** What the shell command takes from a job. *)
Record launch := {
  ln_cluster : string;
  ln_member_impl : string;
  ln_compose_path : string;
  ln_app_env_b64 : string;
  ln_box : box;
}.
Definition deploy_text (c : config) (l : launch) (body : string) : string :=
  "set -euo pipefail; source deploy/env.sh; " +:+
  "export RPC_URL=" +:+ sh_quote (DEPLOY_RPC_URL c) +:+ "; " +:+
  "export BUNDLER_URL=" +:+ sh_quote (DEPLOY_BUNDLER_URL c) +:+ "; " +:+
  "export GAS_POLICY_ID=" +:+ sh_quote (DEPLOY_GAS_POLICY_ID c) +:+ "; " +:+
  "export BOX_RPC=" +:+ sh_quote (DEPLOY_BOX_RPC c) +:+ "; " +:+
  "export CLUSTER=" +:+ sh_quote (ln_cluster l) +:+ " MEMBER_IMPL=" +:+ sh_quote (ln_member_impl l) +:+ "; " +:+
  "export COMPOSE=" +:+ sh_quote (ln_compose_path l) +:+ " APP_ENV_B64=" +:+ sh_quote (ln_app_env_b64 l) +:+ "; " +:+
  "export BOX_VCPU=" +:+ bx_vcpu (ln_box l) +:+ " BOX_MEM=" +:+ bx_mem (ln_box l) +:+
  " BOX_DISK=" +:+ bx_disk (ln_box l) +:+ "; " +:+ body.
Definition deploy_shell (c : config) (l : launch) (body : string) : list string :=
  ["bash"; "-lc"; deploy_text c l body]%string.

(** The commands [cleanup_job] and [run_job] add. *)
Definition cleanup_body (node : string) (force : bool) : string :=
  "export FORCE_CLEANUP=" +:+ (if force then "1" else "0") +:+ "; " +:+
  "deploy/generic-node.sh " +:+ sh_quote node +:+ " cleanup".
Definition phases : list string :=
  ["preflight"; "deploy"; "prime"; "bind"; "start"; "register-direct"; "verify"]%string.
Definition run_body (node : string) : string :=
  join "; " (map (fun p => "deploy/generic-node.sh " +:+ sh_quote node +:+ " " +:+ p)%string phases).

Section request.
Context {F : Type} `{PyFloat F}.

(** [body.get(k)] and [str(body.get(k) or default)] *)
Definition bget (k : string) (body : odict (json F)) : json F := default JNull (dget k body).
Definition str_or (k d : string) (body : odict (json F)) : string :=
  if truthy (bget k body) then json_str (bget k body) else d.

Definition workload_image (body : odict (json F)) : result string :=
  if eq_str "image" (bget "source" body) then
    let image := strip (str_or "imageRef" EmptyString body) in
    if bool_decide (image = EmptyString) then Raise (ValueError "imageRef is required for custom-image deploys")
    else Ok image
  else
    let catalog_id := strip (str_or "catalogId" EmptyString body) in
    match dget catalog_id CATALOG_IMAGES with
    | Some image => Ok image
    | None => Raise (ValueError ("Catalog item " +:+
        (if bool_decide (catalog_id = EmptyString) then "<missing>" else catalog_id) +:+
        " is not deployable yet. Supported catalog CVMs: " +:+ join ", " (dkeys (dsort CATALOG_IMAGES))))
    end.
End request.
