(* ===== verification/OrchEnvFacts.v ===== *)
(** * Cluster orchestrator: what requests are turned into

    Names of machines, the round trip of environment files, and what a shell reads of
    the command of a deployment. *)

From stdpp Require Import base option list strings.
From Stdlib Require Import ZArith Lia Ascii.
From S2P Require Import Prelude PyStr PyFloat Json Regex StrFacts OrchEnv.

Local Open Scope Z_scope.
Local Open Scope py_scope.

(** ** Names *)

Definition is_slug (s : string) : bool :=
  sall slug_char s && negb (bool_decide (s = EmptyString)) && negb (startswith "-" s) &&
  (String.length s <=? 48)%nat.

Lemma sub_runs_slug run s : sall slug_char (sub_runs run s) = true.
Proof.
  revert run. induction s as [|c s IH]; intros run; simpl; [done|]. destruct (slug_char c) eqn:Ec.
  - simpl. by rewrite Ec, IH.
  - destruct run; simpl; by rewrite IH.
Qed.

(** A machine name is a valid one whatever the request says: lower-case letters,
    digits and dashes, not empty, not starting with a dash, at most 48 characters. *)
Theorem slug_is_a_name value : is_slug (slug value) = true.
Proof.
  unfold slug, is_slug. set (s := strip_char "-" _).
  assert (sall slug_char s = true) as Hs by (apply strip_by_sall, sub_runs_slug).
  case_bool_decide as E; [done|].
  rewrite sall_stake by done. rewrite bool_decide_false by done. simpl.
  pose proof (stake_length 48 s) as Hl. apply andb_true_iff. split; [|by apply Nat.leb_le].
  pose proof (strip_by_start (eqc "-") (sub_runs false (lower value))) as Hd. fold (strip_char "-") in Hd. fold s in Hd.
  apply negb_true_iff. destruct s as [|c s]; [done|]. simpl. by rewrite Hd.
Qed.

Lemma sub_runs_keep a b : sall slug_char a = true -> sub_runs false (a +:+ b) = (a +:+ sub_runs false b)%string.
Proof.
  induction a as [|c a IH]; [done|]. rewrite !app_cons. simpl. intros [Hc Ha]%andb_true_iff. by rewrite Hc, IH.
Qed.
Lemma lower_slug a : sall slug_char a = true -> lower a = a.
Proof.
  unfold lower. induction a as [|c a IH]; [done|]. simpl. intros [Hc Ha]%andb_true_iff. rewrite IH by done. f_equal.
  unfold lower_char. destruct (is_upper c) eqn:Eu; [|done]. exfalso.
  unfold slug_char, is_lower, is_digit, is_upper, eqc in *. destruct (bool_decide _) eqn:Eb.
  - apply bool_decide_eq_true in Eb. by subst c.
  - rewrite orb_false_r in Hc. apply andb_true_iff in Eu as [E1 E2]. apply N.leb_le in E1, E2.
    apply orb_true_iff in Hc as [Hc|Hc]; apply andb_true_iff in Hc as [H1 H2]; apply N.leb_le in H1, H2; lia.
Qed.
Lemma lower_app a b : lower (a +:+ b) = (lower a +:+ lower b)%string.
Proof. induction a as [|c a IH]; [done|]. rewrite app_cons. unfold lower in *. simpl. by rewrite IH. Qed.
Lemma stake_prefix n a b : (n <= String.length a)%nat -> stake n (a +:+ b) = stake n a.
Proof.
  revert n. induction a as [|c a IH]; intros [|n] Hn; simpl in *; try done; try lia. by rewrite IH by lia.
Qed.

(** An identifier as [secrets.token_hex] makes them. *)
Definition is_hex (c : ascii) : bool := is_digit c || ((97 <=? code c) && (code c <=? 102))%N.

Lemma slug_char_hex c : is_hex c = true -> slug_char c = true /\ eqc "-" c = false.
Proof.
  unfold is_hex, slug_char, is_lower, is_digit. intros Hc. split.
  - apply orb_true_iff in Hc as [->|Hc]; [by rewrite orb_true_r|].
    apply andb_true_iff in Hc as [H1 H2]. apply N.leb_le in H1, H2.
    assert ((code c <=? 122)%N = true) as -> by (apply N.leb_le; lia).
    assert ((97 <=? code c)%N = true) as -> by (by apply N.leb_le). done.
  - apply eqc_ne. intros <-. done.
Qed.

Lemma rdropwhile_none p s : s <> EmptyString -> sall (fun c => negb (p c)) s = true -> rdropwhile p s = s.
Proof.
  induction s as [|c s IH]; [done|]. intros _. simpl. intros [Hc Hs]%andb_true_iff. apply negb_true_iff in Hc.
  destruct s as [|d s]; simpl in *; [by rewrite Hc|]. by rewrite IH.
Qed.

(** Two machines can get one name: when the network and the deployment name leave
    no room, the part of the identifier that makes the name unique is cut off, and every
    deployment of that network and name is the same machine, compose file and state. *)
Theorem node_names_collide network_id name job1 job2 :
  is_slug network_id = true -> is_slug name = true ->
  (46 <= String.length network_id + String.length name)%nat ->
  sall is_hex job1 = true -> sall is_hex job2 = true -> job1 <> EmptyString -> job2 <> EmptyString ->
  node_name network_id name job1 = node_name network_id name job2.
Proof.
  intros Hn Hm Hl.
  assert (forall j, sall is_hex j = true -> j <> EmptyString ->
    node_name network_id name j = stake 48 (network_id +:+ "-" +:+ name +:+ "-")) as Hone; [|intros; by rewrite !Hone].
  intros j Hj Hne. unfold node_name. set (p := (network_id +:+ "-" +:+ name +:+ "-")%string).
  set (y := stake 6 j).
  assert ((network_id +:+ "-" +:+ name +:+ "-" +:+ y)%string = (p +:+ y)%string) as ->
    by (unfold p; by rewrite !string_app_assoc).
  unfold is_slug in Hn, Hm. apply andb_true_iff in Hn as [Hn _], Hm as [Hm _].
  apply andb_true_iff in Hn as [Hn Hstart], Hm as [Hm _]. apply andb_true_iff in Hn as [Hn Hnn], Hm as [Hm _].
  assert (sall slug_char p = true) as Hp by (unfold p; by rewrite !sall_app, Hn, Hm).
  assert (sall is_hex y = true) as Hy by (by apply sall_stake).
  assert (y <> EmptyString) as Hye by (unfold y; destruct j; done).
  assert (sall slug_char y = true) as Hsy by (eapply sall_impl; [|exact Hy]; intros; by apply slug_char_hex).
  assert (sall (fun c => negb (eqc "-" c)) y = true) as Hdy.
  { eapply sall_impl; [|exact Hy]. intros c Hc. by rewrite (proj2 (slug_char_hex c Hc)). }
  unfold slug. rewrite lower_slug by (by rewrite sall_app, Hp, Hsy). rewrite sub_runs_keep by done.
  assert (sub_runs false y = y) as ->.
  { pose proof (sub_runs_keep y EmptyString Hsy) as Hk. by rewrite !string_app_nil_r in Hk. }
  assert (strip_char "-" (p +:+ y) = (p +:+ y)%string) as ->.
  { unfold strip_char. destruct network_id as [|c nid]; [done|]. simpl in Hstart.
    unfold p. rewrite !app_cons. apply strip_by_keep.
    - by destruct (eqc "-" c).
    - rewrite <- !app_cons. apply rdropwhile_app_keep; [|done]. by apply rdropwhile_none. }
  assert (48 <= String.length p)%nat as Hpl by (unfold p; rewrite !string_length_app; simpl; lia).
  rewrite !stake_prefix by done. rewrite bool_decide_false; [done|].
  destruct p; [simpl in Hpl; lia|done].
Qed.

(** ** Environments *)

Definition key_start (c : ascii) : bool := is_upper c || is_lower c || eqc "_" c.
Definition key_char (c : ascii) : bool := key_start c || is_digit c.
Definition key_ok (k : string) : bool :=
  match k with String c k => key_start c && sall key_char k | EmptyString => false end.
Definition value_ok (v : string) : bool := no_break v && bool_decide (rdropwhile is_space v = v).
(** An environment that a file can say. *)
Definition env_ok (e : odict string) : Prop :=
  NoDup (dkeys e) /\ Forall (fun kv => key_ok kv.1 = true /\ value_ok kv.2 = true) e.

Definition start_set : ascii -> bool := Eval cbv [env_re literal] in
  match env_re with RCat RBol (RCat (RSet p) _) => p | _ => fun _ => false end.
Definition rest_set : ascii -> bool := Eval cbv [env_re literal] in
  match env_re with RCat RBol (RCat _ (RCat (RStar (RSet p)) _)) => p | _ => fun _ => false end.
Definition eq_set : ascii -> bool := Eval cbv [env_re literal] in
  match env_re with RCat RBol (RCat _ (RCat _ (RCat (RSet p) _))) => p | _ => fun _ => false end.
Lemma env_re_shape : env_re = RCat RBol (RCat (RSet start_set) (RCat (RStar (RSet rest_set)) (RCat (RSet eq_set) REps))).
Proof. reflexivity. Qed.

Definition all_ascii : list ascii := map ascii_of_nat (seq 0 256).
Lemma all_ascii_in c : In c all_ascii.
Proof.
  unfold all_ascii. apply in_map_iff. exists (nat_of_ascii c). split; [apply ascii_nat_embedding|].
  apply in_seq. pose proof (nat_ascii_bounded c). lia.
Qed.
Lemma ascii_cases (p q : ascii -> bool) : forallb (fun c => Bool.eqb (p c) (q c)) all_ascii = true -> forall c, p c = q c.
Proof. intros Hf c. rewrite forallb_forall in Hf. apply eqb_prop, Hf, all_ascii_in. Qed.

Lemma start_set_spec c : start_set c = key_start c.
Proof. revert c. apply ascii_cases. by vm_compute. Qed.
Lemma rest_set_spec c : rest_set c = key_char c.
Proof. revert c. apply ascii_cases. by vm_compute. Qed.
Lemma eq_set_spec c : eq_set c = eqc "=" c.
Proof. revert c. apply ascii_cases. by vm_compute. Qed.

Lemma sall_ext (p q : ascii -> bool) s : (forall c, p c = q c) -> sall p s = sall q s.
Proof. intros Hpq. induction s as [|c s IH]; [done|]. simpl. by rewrite Hpq, IH. Qed.

Lemma env_re_spec s : found (re_match env_re s) = true <-> exists k v, s = (k +:+ String "=" v)%string /\ key_ok k = true.
Proof.
  unfold re_match. rewrite env_re_shape.
  assert (forall A (o : option A), found o = true <-> o <> None) as Hf by (by intros A []).
  rewrite Hf, match_at_spec. split.
  - intros (y & Hm). inversion Hm as [| |? ? ? ? ? Hb Hm1| | | | | | | | |]; subst. inversion Hb; subst.
    inversion Hm1 as [| |? ? ? ? ? Hs Hm2| | | | | | | | |]; subst. inversion Hs; subst.
    inversion Hm2 as [| |? ? ? ? ? Hr Hm3| | | | | | | | |]; subst.
    inversion Hm3 as [| |? ? ? ? ? He Hm4| | | | | | | | |]; subst. inversion He; subst.
    apply matches_set_star in Hr as (w & Hw & Ew). simpl in Ew. subst.
    match goal with Hc : start_set ?c = true, Hq : eq_set ?d = true |- context [(w +:+ String ?d ?v)%string] =>
      rewrite eq_set_spec in Hq; apply bool_decide_eq_true in Hq; subst d;
      exists (String c w), v; split; [done|]; simpl; rewrite <- start_set_spec, Hc; simpl end.
    rewrite <- Hw. apply sall_ext. intros c'. by rewrite rest_set_spec.
  - intros (k & v & -> & Hk). destruct k as [|c k]; [done|]. simpl in Hk. apply andb_true_iff in Hk as [Hc Hk].
    exists (Pos (Some "="%char) v). eapply m_cat; [apply m_bol|]. rewrite app_cons.
    eapply m_cat; [apply m_set; by rewrite start_set_spec|].
    eapply m_cat; [apply set_star_matches; rewrite <- Hk; apply sall_ext, rest_set_spec|].
    eapply m_cat; [by apply m_set; rewrite eq_set_spec|]. apply m_eps.
Qed.

Lemma key_char_facts c : key_char c = true ->
  is_space c = false /\ is_linebreak c = false /\ eqc "=" c = false /\ eqc "#" c = false.
Proof.
  assert (forallb (fun c => implb (key_char c) (negb (is_space c) && negb (is_linebreak c) && negb (eqc "=" c) && negb (eqc "#" c)))
    all_ascii = true) as Hf by (by vm_compute).
  rewrite forallb_forall in Hf. intros Hc. specialize (Hf c (all_ascii_in c)). rewrite Hc in Hf. simpl in Hf.
  destruct (is_space c), (is_linebreak c), (eqc "=" c), (eqc "#" c); done.
Qed.
Lemma key_ok_chars k : key_ok k = true -> sall key_char k = true.
Proof.
  destruct k as [|c k]; [done|]. simpl. intros [Hc Hk]%andb_true_iff. rewrite Hk, andb_true_r. unfold key_char. by rewrite Hc.
Qed.

Lemma line_kept k v : key_ok k = true -> value_ok v = true ->
  no_break (k +:+ String "=" v) = true /\ strip (k +:+ String "=" v) = (k +:+ String "=" v)%string.
Proof.
  intros Hk [Hb Hv]%andb_true_iff. apply bool_decide_eq_true in Hv. pose proof (key_ok_chars k Hk) as Hc. split.
  - unfold no_break in *. rewrite sall_app. simpl. rewrite Hb, !andb_true_r.
    eapply sall_impl; [|exact Hc]. intros c Hkc. by rewrite (proj1 (proj2 (key_char_facts c Hkc))).
  - destruct k as [|c k]; [done|]. simpl in Hc. apply andb_true_iff in Hc as [Hc _]. unfold strip.
    rewrite app_cons. apply strip_by_keep; [by apply key_char_facts|]. rewrite <- app_cons.
    apply rdropwhile_app_keep; [|done]. simpl. rewrite Hv. by destruct v.
Qed.

Lemma parse_env_line_kv parsed k v : key_ok k = true -> value_ok v = true ->
  parse_env_line parsed (k +:+ String "=" v) = Ok (dset k v parsed).
Proof.
  intros Hk Hv. pose proof (line_kept k v Hk Hv) as [_ Hs]. unfold parse_env_line. rewrite Hs.
  pose proof (key_ok_chars k Hk) as Hc.
  assert (found (re_match env_re (k +:+ String "=" v)) = true) as -> by (apply env_re_spec; by exists k, v).
  rewrite bool_decide_false by (by destruct k).
  assert (startswith "#" (k +:+ String "=" v) = false) as ->.
  { destruct k as [|c k]; [done|]. simpl in Hc. apply andb_true_iff in Hc as [Hc _]. rewrite app_cons. simpl.
    by rewrite (proj2 (proj2 (proj2 (key_char_facts c Hc)))). }
  simpl. rewrite partition_char; [done|]. eapply sall_impl; [|exact Hc].
  intros c Hkc. by rewrite (proj1 (proj2 (proj2 (key_char_facts c Hkc)))).
Qed.

Lemma splitlines_env e : Forall (fun kv => key_ok kv.1 = true /\ value_ok kv.2 = true) e ->
  splitlines (String.concat "" (map env_line e)) = map (fun kv => (kv.1 +:+ String "=" kv.2)%string) e.
Proof.
  induction 1 as [|[k v] e [Hk Hv] He IH]; [done|].
  assert (String.concat "" (map env_line ((k, v) :: e)) =
    ((k +:+ String "=" v) +:+ String LF (String.concat "" (map env_line e)))%string) as ->.
  { simpl map. rewrite concat_cons. unfold env_line at 1. cbn [fst snd]. by rewrite !string_app_assoc. }
  rewrite splitlines_line by (by apply line_kept). rewrite IH. done.
Qed.

Lemma parse_env_lines_kv e parsed : NoDup (dkeys (parsed ++ e)) ->
  Forall (fun kv => key_ok kv.1 = true /\ value_ok kv.2 = true) e ->
  parse_env_lines parsed (map (fun kv => (kv.1 +:+ String "=" kv.2)%string) e) = Ok (parsed ++ e).
Proof.
  intros Hn He. revert parsed Hn. induction He as [|[k v] e [Hk Hv] He IH]; intros parsed Hn; simpl.
  - by rewrite app_nil_r.
  - rewrite parse_env_line_kv by done. simpl.
    assert (dget k parsed = None) as Hf.
    { apply dget_None. intros Hin. unfold dkeys in *. rewrite fmap_app in Hn. apply NoDup_app in Hn as (_ & Hd & _).
      apply (Hd _ Hin). simpl. by left. }
    rewrite dset_fresh by done. rewrite IH by (by rewrite <- app_assoc). by rewrite <- app_assoc.
Qed.

Lemma env_text_ne e : e <> [] -> Forall (fun kv => key_ok kv.1 = true /\ value_ok kv.2 = true) e ->
  strip (String.concat "" (map env_line e)) <> EmptyString.
Proof.
  intros Hn He. destruct e as [|[k v] e]; [done|]. inversion He as [|? ? [Hk _] _]; subst. simpl in Hk.
  destruct k as [|c k]; [done|].
  assert (exists t, String.concat "" (map env_line ((String c k, v) :: e)) = String c t) as (t & ->).
  { simpl map. rewrite concat_cons. eexists. unfold env_line at 1. cbn [fst snd]. by rewrite !app_cons. }
  pose proof (key_ok_chars _ Hk) as Hc. simpl in Hc. apply andb_true_iff in Hc as [Hc _].
  unfold strip, strip_by. simpl. rewrite (proj1 (key_char_facts c Hc)). simpl.
  destruct (rdropwhile is_space t); [|done]. by rewrite (proj1 (key_char_facts c Hc)).
Qed.

Lemma parse_env_text e : env_ok e -> parse_env (env_text e) = Ok (dsort e).
Proof.
  intros [Hn He]. unfold parse_env, env_text.
  assert (Forall (fun kv => key_ok kv.1 = true /\ value_ok kv.2 = true) (dsort e)) as Hs by (by rewrite dsort_Permutation).
  destruct (decide (dsort e = [])) as [->|Hd]; [done|].
  rewrite bool_decide_false by (by apply env_text_ne). rewrite splitlines_env by done.
  rewrite (parse_env_lines_kv _ []); [done| |done]. simpl. by apply dsort_NoDup.
Qed.

(** *** What is parsed can be written *)

Lemma stripped_value s k v : strip s = (k +:+ String "=" v)%string -> no_break s = true -> value_ok v = true.
Proof.
  intros Hs Hb. unfold value_ok. apply andb_true_iff. split.
  - assert (no_break (strip s) = true) as Hb' by (by apply strip_by_sall). rewrite Hs in Hb'.
    unfold no_break in *. rewrite sall_app in Hb'. simpl in Hb'. by apply andb_true_iff in Hb' as [_ Hb'].
  - apply bool_decide_true. pose proof (strip_by_end is_space s) as He. fold strip in He.
    change (strip_by is_space s) with (strip s) in He. rewrite Hs in He.
    change (String "=" v) with ("=" +:+ v)%string in He. rewrite <- string_app_assoc in He.
    by apply rdropwhile_app_inv in He.
Qed.

Lemma parse_env_line_ok parsed l e : no_break l = true -> env_ok parsed ->
  parse_env_line parsed l = Ok e -> env_ok e.
Proof.
  intros Hb [Hn Hp]. unfold parse_env_line. destruct (_ || _); [by intros [= <-]|].
  destruct (found _) eqn:Ef; simpl; [|done]. apply env_re_spec in Ef as (k & v & Es & Hk). rewrite Es.
  pose proof (key_ok_chars k Hk) as Hc.
  rewrite partition_char.
  - intros [= <-]. split; [by apply dset_NoDup|].
    clear Hn. induction Hp as [|[k' v'] parsed Hx Hp IH]; simpl.
    + constructor; [|done]. split; [done|]. by eapply stripped_value.
    + case_bool_decide as Ek; constructor; simpl in *; try done.
      split; [by rewrite <- Ek|]. by eapply stripped_value.
  - eapply sall_impl; [|exact Hc]. intros c Hkc. by rewrite (proj1 (proj2 (proj2 (key_char_facts c Hkc)))).
Qed.

Lemma parse_env_ok raw e : parse_env raw = Ok e -> env_ok e.
Proof.
  unfold parse_env. case_bool_decide; [intros [= <-]; split; constructor|].
  assert (env_ok []) as H0 by (split; constructor). pose proof (splitlines_no_break raw) as Hb. revert H0.
  generalize (@nil (string * string)) as p. induction Hb as [|l ls Hl Hls IH]; intros p Hp; simpl; [by intros [= <-]|].
  intros Hx. apply bind_Ok in Hx as (p' & Hp' & Hx). eapply IH; [|exact Hx]. by eapply parse_env_line_ok.
Qed.

Lemma setdefault_ok k v e : key_ok k = true -> value_ok v = true -> env_ok e -> env_ok (setdefault k v e).
Proof.
  intros Hk Hv [Hn He]. unfold setdefault. destruct (dmem k e) eqn:Em; [done|]. split; [by apply dset_NoDup|].
  unfold dmem in Em. rewrite dset_fresh by (by destruct (dget k e)). apply Forall_app. split; [done|]. by repeat constructor.
Qed.

(** The environment of a deployment survives its encoding: whatever text was
    accepted, with the defaults of the catalog added, the file written for the workload
    reads back as exactly the same variables. *)
Theorem env_round_trip raw catalog_id e e' :
  parse_env raw = Ok e -> env_for_catalog catalog_id e = Ok e' ->
  parse_env (env_text e') = Ok (dsort e') /\ forall k, dget k (dsort e') = dget k e'.
Proof.
  intros Hr Hc. apply parse_env_ok in Hr.
  assert (env_ok e') as Hok.
  { unfold env_for_catalog in Hc. case_bool_decide; [|by injection Hc as <-].
    apply bind_Ok in Hc as (? & _ & [= <-]). by repeat (apply setdefault_ok; [by vm_compute|by vm_compute|]). }
  split; [by apply parse_env_text|]. intros k. apply dget_dsort, Hok.
Qed.

(** ** The shell command *)

(** How a POSIX shell reads simple commands separated by [;]: bare characters, single
    quotes and double quotes without expansions; anything else is not read. *)
Inductive mode := Bare | Single | Double.
Definition push (w : option string) (cmd : list string) : list string := cmd ++ option_list w.
Definition add (w : option string) (c : ascii) : option string := Some (default EmptyString w +:+ String c EmptyString)%string.
Fixpoint sh_read (q : mode) (w : option string) (cmd : list string) (s : string) : option (list (list string)) :=
  match s with
  | EmptyString => match q with Bare => Some [push w cmd] | _ => None end
  | String c s =>
      match q with
      | Bare =>
          if eqc c " " then sh_read Bare None (push w cmd) s
          else if eqc c ";" then cmds ← sh_read Bare None [] s; Some (push w cmd :: cmds)
          else if eqc c SQ then sh_read Single (Some (default EmptyString w)) cmd s
          else if eqc c DQ then sh_read Double (Some (default EmptyString w)) cmd s
          else if sh_safe c then sh_read Bare (add w c) cmd s
          else None
      | Single => if eqc c SQ then sh_read Bare w cmd s else sh_read Single (add w c) cmd s
      | Double =>
          if eqc c DQ then sh_read Bare w cmd s
          else if sany (eqc c) "$`\!" then None
          else sh_read Double (add w c) cmd s
      end
  end.

Definition extend (w : option string) (t : string) : option string := Some (default EmptyString w +:+ t)%string.
Lemma extend_add w c t : extend (add w c) t = extend w (String c t).
Proof. unfold extend, add. simpl. by rewrite string_app_assoc. Qed.
Lemma extend_extend w a b : extend (extend w a) b = extend w (a +:+ b).
Proof. unfold extend. simpl. by rewrite string_app_assoc. Qed.

Lemma sh_safe_facts c : sh_safe c = true -> eqc c " " = false /\ eqc c ";" = false /\ eqc c SQ = false /\ eqc c DQ = false.
Proof.
  assert (forallb (fun c => implb (sh_safe c) (negb (eqc c " ") && negb (eqc c ";") && negb (eqc c SQ) && negb (eqc c DQ)))
    all_ascii = true) as Hf by (by vm_compute).
  rewrite forallb_forall in Hf. intros Hc. specialize (Hf c (all_ascii_in c)). rewrite Hc in Hf. simpl in Hf.
  destruct (eqc c " "), (eqc c ";"), (eqc c SQ), (eqc c DQ); done.
Qed.

Lemma sh_read_safe p w cmd r : sall sh_safe p = true -> p <> EmptyString ->
  sh_read Bare w cmd (p +:+ r) = sh_read Bare (extend w p) cmd r.
Proof.
  revert w. induction p as [|c p IH]; [done|]. intros w Hp _. simpl in Hp. apply andb_true_iff in Hp as [Hc Hp].
  rewrite app_cons. simpl. destruct (sh_safe_facts c Hc) as (-> & -> & -> & ->). rewrite Hc.
  destruct p as [|d p]; [done|]. rewrite IH by done. by rewrite extend_add.
Qed.

Definition sq_esc : string := String SQ (String DQ (String SQ (String DQ (String SQ EmptyString)))).
Lemma sh_read_single s w cmd r :
  sh_read Single (extend w EmptyString) cmd (replace_char SQ sq_esc s +:+ String SQ r) = sh_read Bare (extend w s) cmd r.
Proof.
  revert w. induction s as [|c s IH]; intros w; [reflexivity|].
  simpl replace_char. destruct (eqc c SQ) eqn:Ec.
  - apply bool_decide_eq_true in Ec as ->. rewrite string_app_assoc. unfold sq_esc at 1. rewrite !app_cons, app_nil.
    cbn [sh_read]. rewrite !eqc_refl. cbn. specialize (IH (extend w (String SQ EmptyString))).
    unfold extend in *. simpl in *. rewrite !string_app_nil_r in *. rewrite IH. by rewrite string_app_assoc.
  - rewrite app_cons. cbn [sh_read]. rewrite Ec.
    specialize (IH (add w c)). unfold extend, add in *. simpl in *. rewrite !string_app_nil_r in *. rewrite IH.
    by rewrite string_app_assoc.
Qed.

(** A quoted text is read as that text, whatever it is. *)
Lemma sh_read_quote s w cmd r : sh_read Bare w cmd (sh_quote s +:+ r) = sh_read Bare (extend w s) cmd r.
Proof.
  unfold sh_quote. case_bool_decide as E; [subst s|].
  - rewrite !app_cons, app_nil. cbn. unfold extend. by rewrite string_app_nil_r.
  - destruct (sall sh_safe s) eqn:Es; [by apply sh_read_safe|].
    rewrite app_cons, string_app_assoc, app_cons, app_nil. cbn [sh_read].
    change (eqc SQ " ") with false. change (eqc SQ ";") with false. rewrite eqc_refl.
    pose proof (sh_read_single s w cmd r) as Hs. unfold extend in Hs at 1. by rewrite string_app_nil_r in Hs.
Qed.
Lemma sh_read_space w cmd r : sh_read Bare w cmd (" " +:+ r) = sh_read Bare None (push w cmd) r.
Proof. reflexivity. Qed.
Lemma sh_read_end w cmd r : sh_read Bare w cmd ("; " +:+ r) =
  (cmds ← sh_read Bare None [] r; Some (push w cmd :: cmds)).
Proof. reflexivity. Qed.

(** The commands that come before the body. *)
Definition prologue (c : config) (l : launch) : list (list string) :=
  [["set"; "-euo"; "pipefail"]; ["source"; "deploy/env.sh"];
   ["export"; "RPC_URL=" +:+ DEPLOY_RPC_URL c]; ["export"; "BUNDLER_URL=" +:+ DEPLOY_BUNDLER_URL c];
   ["export"; "GAS_POLICY_ID=" +:+ DEPLOY_GAS_POLICY_ID c]; ["export"; "BOX_RPC=" +:+ DEPLOY_BOX_RPC c];
   ["export"; "CLUSTER=" +:+ ln_cluster l; "MEMBER_IMPL=" +:+ ln_member_impl l];
   ["export"; "COMPOSE=" +:+ ln_compose_path l; "APP_ENV_B64=" +:+ ln_app_env_b64 l];
   ["export"; "BOX_VCPU=" +:+ bx_vcpu (ln_box l); "BOX_MEM=" +:+ bx_mem (ln_box l);
    "BOX_DISK=" +:+ bx_disk (ln_box l)]]%string.

(** The words of one command, each a safe text followed by a quoted one. *)
Fixpoint words_text (ws : list (string * string)) (r : string) : string :=
  match ws with
  | [] => r
  | [(p, v)] => p +:+ sh_quote v +:+ r
  | (p, v) :: ws => p +:+ sh_quote v +:+ " " +:+ words_text ws r
  end.
Definition word_of (pv : string * string) : string := (pv.1 +:+ pv.2)%string.

Lemma sh_read_word p v cmd r : sall sh_safe p = true -> 
  sh_read Bare None cmd (p +:+ sh_quote v +:+ r) = sh_read Bare (Some (p +:+ v)%string) cmd r.
Proof.
  intros Hp. destruct (decide (p = EmptyString)) as [->|Hn].
  - rewrite !app_nil, sh_read_quote. unfold extend. simpl. by rewrite app_nil.
  - rewrite sh_read_safe by done. rewrite sh_read_quote, extend_extend. unfold extend. simpl. by rewrite app_nil.
Qed.
Lemma sh_read_words ws cmd r : ws <> [] -> Forall (fun pv => sall sh_safe pv.1 = true) ws ->
  sh_read Bare None cmd (words_text ws ("; " +:+ r)) =
  (cmds ← sh_read Bare None [] r; Some ((cmd ++ map word_of ws) :: cmds)).
Proof.
  intros Hn Hs. revert cmd Hn. induction Hs as [|[p v] ws Hp Hs IH]; intros cmd Hn; [done|].
  destruct ws as [|pv ws].
  - simpl words_text. rewrite sh_read_word by done. rewrite sh_read_end. done.
  - change (words_text ((p, v) :: pv :: ws) ("; " +:+ r)) with
      (p +:+ sh_quote v +:+ " " +:+ words_text (pv :: ws) ("; " +:+ r))%string.
    rewrite sh_read_word by done. rewrite sh_read_space, IH by done. unfold push. simpl. by rewrite <- app_assoc.
Qed.
Lemma sh_read_export ws r : ws <> [] -> Forall (fun pv => sall sh_safe pv.1 = true) ws ->
  sh_read Bare None [] ("export " +:+ words_text ws ("; " +:+ r)) =
  (cmds ← sh_read Bare None [] r; Some (("export"%string :: map word_of ws) :: cmds)).
Proof. intros Hn Hs. exact (sh_read_words ws ["export"%string] r Hn Hs). Qed.

Lemma sh_quote_safe v : sall sh_safe v = true -> v <> EmptyString -> sh_quote v = v.
Proof. intros Hv Hn. unfold sh_quote. by rewrite bool_decide_false, Hv. Qed.
Lemma flavor_safe b : b ∈ dvalues FLAVORS ->
  sh_quote (bx_vcpu b) = bx_vcpu b /\ sh_quote (bx_mem b) = bx_mem b /\ sh_quote (bx_disk b) = bx_disk b.
Proof.
  unfold dvalues, FLAVORS. simpl. rewrite !elem_of_cons, elem_of_nil. intros [->|[->|[->|[]]]]; done.
Qed.

Lemma deploy_text_words c l body : ln_box l ∈ dvalues FLAVORS ->
  deploy_text c l body =
  words_text [("", "set"); ("", "-euo"); ("", "pipefail")]%string ("; " +:+
  words_text [("", "source"); ("", "deploy/env.sh")]%string ("; " +:+
  "export " +:+ words_text [("RPC_URL=", DEPLOY_RPC_URL c)]%string ("; " +:+
  "export " +:+ words_text [("BUNDLER_URL=", DEPLOY_BUNDLER_URL c)]%string ("; " +:+
  "export " +:+ words_text [("GAS_POLICY_ID=", DEPLOY_GAS_POLICY_ID c)]%string ("; " +:+
  "export " +:+ words_text [("BOX_RPC=", DEPLOY_BOX_RPC c)]%string ("; " +:+
  "export " +:+ words_text [("CLUSTER=", ln_cluster l); ("MEMBER_IMPL=", ln_member_impl l)]%string ("; " +:+
  "export " +:+ words_text [("COMPOSE=", ln_compose_path l); ("APP_ENV_B64=", ln_app_env_b64 l)]%string ("; " +:+
  "export " +:+ words_text [("BOX_VCPU=", bx_vcpu (ln_box l)); ("BOX_MEM=", bx_mem (ln_box l));
                            ("BOX_DISK=", bx_disk (ln_box l))]%string ("; " +:+ body)))))))))%string.
Proof.
  intros Hb. destruct (flavor_safe _ Hb) as (E1 & E2 & E3). unfold deploy_text, words_text.
  by rewrite E1, E2, E3.
Qed.

Lemma sh_read_prologue c l body : ln_box l ∈ dvalues FLAVORS ->
  sh_read Bare None [] (deploy_text c l body) =
  (cmds ← sh_read Bare None [] body; Some (prologue c l ++ cmds)).
Proof.
  intros Hb. rewrite deploy_text_words by done.
  do 2 (rewrite sh_read_words; [|done|by repeat constructor]).
  do 7 (rewrite sh_read_export; [|done|by repeat constructor]).
  by destruct (sh_read Bare None [] body).
Qed.

Lemma sh_read_last ws : ws <> [] -> Forall (fun pv => sall sh_safe pv.1 = true) ws ->
  forall cmd, sh_read Bare None cmd (words_text ws EmptyString) = Some [cmd ++ map word_of ws].
Proof.
  intros Hn Hs. induction Hs as [|[p v] ws Hp Hs IH]; intros cmd; [done|]. destruct ws as [|pv ws].
  - simpl words_text. by rewrite sh_read_word.
  - change (words_text ((p, v) :: pv :: ws) EmptyString) with
      (p +:+ sh_quote v +:+ " " +:+ words_text (pv :: ws) EmptyString)%string.
    rewrite sh_read_word by done. rewrite sh_read_space, IH by done. unfold push. simpl. by rewrite <- app_assoc.
Qed.

(** C37: No value of a request escapes its place in the shell command: whatever the
    cluster, the compose path, the environment and the settings contain, the shell
    reads exactly the intended commands, with each value inside one word. *)
Theorem shell_reads_the_values c l node force : ln_box l ∈ dvalues FLAVORS ->
  sh_read Bare None [] (deploy_text c l (cleanup_body node force)) =
    Some (prologue c l ++ [["export"; "FORCE_CLEANUP=" +:+ (if force then "1" else "0")];
                           ["deploy/generic-node.sh"; node; "cleanup"]]%string) /\
  sh_read Bare None [] (deploy_text c l (run_body node)) =
    Some (prologue c l ++ map (fun p => ["deploy/generic-node.sh"; node; p]%string) phases).
Proof.
  intros Hb. rewrite !sh_read_prologue by done. split.
  - assert (cleanup_body node force = "export " +:+ words_text [("FORCE_CLEANUP=", if force then "1" else "0")]
      ("; " +:+ words_text [("", "deploy/generic-node.sh"); ("", node); ("", "cleanup")] ""))%string as ->
      by (by destruct force).
    rewrite sh_read_export; [|done|by repeat constructor]. rewrite sh_read_last; [|done|by repeat constructor].
    done.
  - set (step p := [("", "deploy/generic-node.sh"); ("", node); ("", p)]%string).
    assert (run_body node = words_text (step "preflight") ("; " +:+ words_text (step "deploy") ("; " +:+
      words_text (step "prime") ("; " +:+ words_text (step "bind") ("; " +:+ words_text (step "start") ("; " +:+
      words_text (step "register-direct") ("; " +:+ words_text (step "verify") ""))))))%string) as ->.
    { unfold run_body, phases. simpl map. simpl join. rewrite !string_app_assoc. reflexivity. }
    do 6 (rewrite sh_read_words; [|done|by repeat constructor]).
    rewrite sh_read_last; [|done|by repeat constructor]. done.
Qed.
