(* ===== verification/OrchJobs.v ===== *)
(** * Cluster orchestrator: jobs

    [deploy/cluster-orchestrator.py], the life of a deployment job.  A thread and a
    request handler each work on a copy of the job they loaded, and write the whole
    copy back at every save; what a handler does is therefore the list of the copies it
    saves, which depends on the copy it loaded and on what the outside answered.  The
    processes, the clock and the state files that deploy/generic-node.sh writes are
    arguments. *)

From stdpp Require Import base option list strings relations.
From Stdlib Require Import ZArith Lia Ascii.
From S2P Require Import Prelude PyStr PyFloat Json Regex OrchEnv.

Local Open Scope Z_scope.
Local Open Scope py_scope.

Section jobs.
Context {F : Type} `{PyFloat F}.

(** ** The job file *)

(** What a job is created with and keeps. *)
Record spec := {
  sp_id : string;
  sp_network_id : string;
  sp_name : string;
  sp_source : json F;
  sp_catalog_id : option string;
  sp_image_ref : string;
  sp_flavor : string;
  sp_node_name : string;
  sp_launch : launch;
  sp_connection : option (string * string);      (* database and user of a Postgres *)
  sp_created_at : string;
}.
Inductive cleanup :=
  | CleanupRan (status : string) (forced : bool) (exit_code : Z) (log_path log_tail updated_at : string)
  | CleanupError (error : string).
(** [None] stands for a key that is missing or [None]. *)
Record job := {
  jb_spec : spec;
  jb_status : string;
  jb_error : option string;
  jb_updated_at : string;
  jb_app_id : option string;
  jb_vm_id : option string;
  jb_compose_hash : option string;
  jb_state_phase : option string;
  jb_exit_code : option Z;
  jb_log_path : option string;
  jb_log_tail : option string;
  jb_cleanup : option cleanup;
}.

Definition set_status (s : string) (j : job) : job := {|
  jb_spec := jb_spec j; jb_status := s; jb_error := jb_error j; jb_updated_at := jb_updated_at j;
  jb_app_id := jb_app_id j; jb_vm_id := jb_vm_id j; jb_compose_hash := jb_compose_hash j;
  jb_state_phase := jb_state_phase j; jb_exit_code := jb_exit_code j; jb_log_path := jb_log_path j;
  jb_log_tail := jb_log_tail j; jb_cleanup := jb_cleanup j |}.
Definition set_error (e : option string) (j : job) : job := {|
  jb_spec := jb_spec j; jb_status := jb_status j; jb_error := e; jb_updated_at := jb_updated_at j;
  jb_app_id := jb_app_id j; jb_vm_id := jb_vm_id j; jb_compose_hash := jb_compose_hash j;
  jb_state_phase := jb_state_phase j; jb_exit_code := jb_exit_code j; jb_log_path := jb_log_path j;
  jb_log_tail := jb_log_tail j; jb_cleanup := jb_cleanup j |}.
Definition set_updated (t : string) (j : job) : job := {|
  jb_spec := jb_spec j; jb_status := jb_status j; jb_error := jb_error j; jb_updated_at := t;
  jb_app_id := jb_app_id j; jb_vm_id := jb_vm_id j; jb_compose_hash := jb_compose_hash j;
  jb_state_phase := jb_state_phase j; jb_exit_code := jb_exit_code j; jb_log_path := jb_log_path j;
  jb_log_tail := jb_log_tail j; jb_cleanup := jb_cleanup j |}.
Definition set_cleanup (x : cleanup) (j : job) : job := {|
  jb_spec := jb_spec j; jb_status := jb_status j; jb_error := jb_error j; jb_updated_at := jb_updated_at j;
  jb_app_id := jb_app_id j; jb_vm_id := jb_vm_id j; jb_compose_hash := jb_compose_hash j;
  jb_state_phase := jb_state_phase j; jb_exit_code := jb_exit_code j; jb_log_path := jb_log_path j;
  jb_log_tail := jb_log_tail j; jb_cleanup := Some x |}.
Definition set_exit (z : Z) (j : job) : job := {|
  jb_spec := jb_spec j; jb_status := jb_status j; jb_error := jb_error j; jb_updated_at := jb_updated_at j;
  jb_app_id := jb_app_id j; jb_vm_id := jb_vm_id j; jb_compose_hash := jb_compose_hash j;
  jb_state_phase := jb_state_phase j; jb_exit_code := Some z; jb_log_path := jb_log_path j;
  jb_log_tail := jb_log_tail j; jb_cleanup := jb_cleanup j |}.
Definition set_log (path tail : string) (j : job) : job := {|
  jb_spec := jb_spec j; jb_status := jb_status j; jb_error := jb_error j; jb_updated_at := jb_updated_at j;
  jb_app_id := jb_app_id j; jb_vm_id := jb_vm_id j; jb_compose_hash := jb_compose_hash j;
  jb_state_phase := jb_state_phase j; jb_exit_code := jb_exit_code j; jb_log_path := Some path;
  jb_log_tail := Some tail; jb_cleanup := jb_cleanup j |}.

(** ** The state file of a node *)

Definition state_of (text : string) : odict string :=
  foldl (fun st line => match partition "=" line with Some (k, v) => dset k v st | None => st end)
    [] (splitlines text).
Definition some_text (o : option string) : option string :=
  s ← o; if bool_decide (s = EmptyString) then None else Some s.
(** [content] is [None] when there is no file. *)
Definition absorb_state (content : option string) (j : job) : job :=
  match content with
  | None => j
  | Some text =>
      let st := state_of text in
      {| jb_spec := jb_spec j; jb_status := jb_status j; jb_error := jb_error j; jb_updated_at := jb_updated_at j;
         jb_app_id := some_text (dget "X" st); jb_vm_id := some_text (dget "VM_ID" st);
         jb_compose_hash := some_text (dget "H" st); jb_state_phase := some_text (dget "STATE_PHASE" st);
         jb_exit_code := jb_exit_code j; jb_log_path := jb_log_path j; jb_log_tail := jb_log_tail j;
         jb_cleanup := jb_cleanup j |}
  end.

(** [l[-n:]] *)
Definition last_n {A} (n : nat) (l : list A) : list A := drop (length l - n) l.
Definition log_tail (lines : list string) : string := join (String LF EmptyString) (last_n 40 lines).

(** ** [cleanup_job] *)

(** The outcome of the cleanup command: its exit code and output, or the exception it
    ends with; the state file and the clock after it. *)
Record cleanup_io := { ci_run : result (Z * string); ci_state : option string; ci_now : string }.

Definition cleanup_log (c : config) (node : string) : string := LOGS c +:+ "/orchestrator-" +:+ node +:+ "-cleanup.log".
Definition cleanup_job (c : config) (force : bool) (io : cleanup_io) (j : job) : result job :=
  let node := sp_node_name (jb_spec j) in
  '(code, stdout) ← ci_run io;
  Ok (set_cleanup (CleanupRan (if code =? 0 then "succeeded" else "failed") force code
        (cleanup_log c node) (log_tail (splitlines stdout)) (ci_now io)) (absorb_state (ci_state io) j)).

Definition cleanup_status (j : job) : option string :=
  match jb_cleanup j with
  | Some (CleanupRan s _ _ _ _ _) => Some s
  | Some (CleanupError _) => Some "failed"%string
  | None => None
  end.

(** ** [reconcile_interrupted_jobs], for one readable file *)

Definition interrupted : list string := ["queued"; "running"; "canceling"; "cleanup_running"]%string.
Definition reconcile_job (c : config) (before : option string) (io : cleanup_io) (j : job) : option job :=
  if negb (bool_decide (jb_status j ∈ interrupted)) then None
  else
    let j := set_error (Some "orchestrator restarted before this job reached a terminal state"%string)
               (set_status "interrupted" j) in
    let j := absorb_state before j in
    Some (if AUTO_CLEANUP_FAILED c then
            match cleanup_job c false io j with
            | Ok j => if bool_decide (cleanup_status j = Some "succeeded"%string) then set_status "cleaned" j else j
            | Raise e => set_cleanup (CleanupError (exn_msg e)) j
            end
          else j).

(** ** [run_job] *)

(** A line of output, and the state file at that moment when two seconds have passed
    since the last save. *)
Record run_line := { rl_text : string; rl_save : option (option string) }.
(** The run of the deployment script: its lines, then its exit code or the exception
    that ended the reading, the state file, and the cleanup that may follow. *)
Record run_io := { ri_lines : list run_line; ri_end : result Z; ri_state : option string; ri_cleanup : cleanup_io }.

Definition run_log (c : config) (node : string) : string := LOGS c +:+ "/orchestrator-" +:+ node +:+ ".log".
Definition auto_cleanup (c : config) (io : cleanup_io) (j : job) : job :=
  if AUTO_CLEANUP_FAILED c then
    match cleanup_job c false io j with
    | Ok j => j
    | Raise e => set_cleanup (CleanupError (exn_msg e)) j
    end
  else j.

Definition add_line (tail : list string) (text : string) : list string :=
  let tail := tail ++ [rstrip_char LF text] in
  if (80 <? length tail)%nat then last_n 80 tail else tail.

(** The reading loop: the tail, the job and the copies saved on the way. *)
Fixpoint read_output (c : config) (ls : list run_line) (tail : list string) (j : job) : list string * job * list job :=
  match ls with
  | [] => (tail, j, [])
  | l :: ls =>
      let tail := add_line tail (rl_text l) in
      match rl_save l with
      | None => read_output c ls tail j
      | Some state =>
          let j := absorb_state state (set_log (run_log c (sp_node_name (jb_spec j))) (log_tail tail) j) in
          let '(tail, j', saved) := read_output c ls tail j in (tail, j', j :: saved)
      end
  end.

Definition run_result (c : config) (io : run_io) (tail : list string) (j : job) : job :=
  match ri_end io with
  | Ok code =>
      let j := set_exit code j in
      let j := absorb_state (ri_state io) (set_log (run_log c (sp_node_name (jb_spec j))) (log_tail tail) j) in
      let j := set_status (if code =? 0 then "succeeded" else "failed") j in
      if code =? 0 then j
      else auto_cleanup c (ri_cleanup io)
             (set_error (Some ("generic-node deploy failed with exit code " +:+ str_of_Z code)) j)
  | Raise e => auto_cleanup c (ri_cleanup io) (set_error (Some (exn_msg e)) (set_status "failed" j))
  end.

(** The copies [run_job] saves, in order. *)
Definition run_job (c : config) (io : run_io) (j : job) : list job :=
  let j := set_status "running" j in
  let '(tail, j', saved) := read_output c (ri_lines io) [] j in
  j :: saved ++ [run_result c io tail j'].

(** ** Requests *)

Inductive payload := PJob (j : job) | PError (msg : string) | PErrorJob (msg : string) (j : job) | PHealth (auto bundler policy : bool).
Definition response : Type := (Z * payload)%type.

(** [_auth]: [None] when the request may go on. *)
Definition _auth (c : config) (authorization : option string) : option response :=
  if bool_decide (TOKEN c = EmptyString) then Some (500, PError "ORCHESTRATOR_TOKEN is not configured")
  else if bool_decide (default EmptyString authorization = "Bearer " +:+ TOKEN c) then None
  else Some (401, PError "unauthorized").

Definition job_path : re := literal false "^/v1/deployments/([a-zA-Z0-9_-]+)$".
Definition cleanup_path : re := literal false "^/v1/deployments/([a-zA-Z0-9_-]+)/cleanup$".
Definition path_id (r : re) (path : string) : option string := m ← re_match r path; dget "1" (mt_groups m).

Definition do_GET (c : config) (authorization : option string) (path : string) (jobs : odict job) : response :=
  if bool_decide (path = "/healthz"%string) then
    (200, PHealth (AUTO_CLEANUP_FAILED c) (negb (bool_decide (DEPLOY_BUNDLER_URL c = EmptyString)))
            (negb (bool_decide (DEPLOY_GAS_POLICY_ID c = EmptyString))))
  else match _auth c authorization with
       | Some r => r
       | None =>
           match path_id job_path path with
           | None => (404, PError "not found")
           | Some id => match dget id jobs with Some j => (200, PJob j) | None => (404, PError "job not found") end
           end
       end.

(** The object of a request body; [body] is what [json.loads] makes of it. *)
Definition obj_of (body : result (json F)) : result (odict (json F)) :=
  b ← body;
  match b with JObj d => Ok d | _ => Raise (OtherError "AttributeError" "object has no attribute 'get'") end.

(** The job [POST /v1/deployments] creates, and the compose file it writes;
    [job_id] and [now] are the random identifier and the clock. *)
Definition create_job (c : config) (body : result (json F)) (job_id now : string) : result (job * string) :=
  _ ← validate_deploy_config c;
  body ← obj_of body;
  let name := slug (str_or "name" "workload" body) in
  let network_id := str_or "networkId" EmptyString body in
  let cluster := str_or "cluster" EmptyString body in
  let member_impl := str_or "memberImpl" EmptyString body in
  raise! ValueError "networkId, cluster, and memberImpl are required"
    when bool_decide (network_id = EmptyString) || bool_decide (cluster = EmptyString) || bool_decide (member_impl = EmptyString);
  image ← workload_image body;
  let catalog_id := some_text (Some (strip (str_or "catalogId" EmptyString body))) in
  user_env ← parse_env (str_or "env" EmptyString body);
  env ← env_for_catalog catalog_id user_env;
  let node := node_name network_id name job_id in
  let flavor := str_or "flavor" "medium" body in
  let compose_path := COMPOSES c +:+ "/" +:+ node +:+ ".yaml" in
  let compose := compose_for name image (match bget "catalogId" body with JStr s => Some s | _ => None end) in
  Ok ({| jb_spec := {|
           sp_id := job_id; sp_network_id := network_id; sp_name := name; sp_source := bget "source" body;
           sp_catalog_id := catalog_id; sp_image_ref := image; sp_flavor := flavor; sp_node_name := node;
           sp_launch := {| ln_cluster := cluster; ln_member_impl := member_impl; ln_compose_path := compose_path;
                           ln_app_env_b64 := b64encode (env_text env);
                           ln_box := default medium (dget flavor FLAVORS) |};
           sp_connection := if bool_decide (catalog_id = Some "postgres"%string)
             then Some (default "postgres"%string (dget "POSTGRES_DB" env), default "postgres"%string (dget "POSTGRES_USER" env))
             else None;
           sp_created_at := now |};
         jb_status := "queued"; jb_error := None; jb_updated_at := now; jb_app_id := None; jb_vm_id := None;
         jb_compose_hash := None; jb_state_phase := None; jb_exit_code := None; jb_log_path := None;
         jb_log_tail := None; jb_cleanup := None |}, compose).

(** After the last copy [j] is saved the answer is written, inside the [try]: when that
    raises ([sent], a closed connection), the job is marked as failed after all. *)
Definition answered (sent : result unit) (copies : list job) (j : job) : list job * response :=
  match sent with
  | Ok _ => (copies ++ [j], (200, PJob j))
  | Raise e =>
      let j' := set_error (Some (exn_msg e)) (set_status "cleanup_failed" j) in
      (copies ++ [j; j'], (500, PErrorJob (exn_msg e) j'))
  end.
(** [POST /v1/deployments/<id>/cleanup] on the job it loaded: the copies it saves and
    its last answer. *)
Definition post_cleanup (c : config) (body : result (json F)) (io : cleanup_io) (sent : result unit) (j : job) : list job * response :=
  match obj_of body with
  | Raise e =>
      let j := set_error (Some (exn_msg e)) (set_status "cleanup_failed" j) in
      ([j], (500, PErrorJob (exn_msg e) j))
  | Ok body =>
      let force := truthy (bget "force" body) in
      let j := set_status "cleanup_running" j in
      match cleanup_job c force io j with
      | Ok j' => let j' := set_status (if force then "stopped" else "cleaned") j' in answered sent [j] j'
      | Raise e =>
          let j' := set_error (Some (exn_msg e)) (set_status "cleanup_failed" j) in
          ([j; j'], (500, PErrorJob (exn_msg e) j'))
      end
  end.

(** [DELETE /v1/deployments/<id>]; [killed] says that the script was running. *)
Definition do_DELETE (c : config) (killed : bool) (io : cleanup_io) (sent : result unit) (j : job) : list job * response :=
  let j := if killed then set_status "canceling" j else j in
  let first := if killed then [j] else [] in
  match cleanup_job c true io j with
  | Ok j' => let j' := set_error None (set_status "stopped" j') in answered sent first j'
  | Raise e =>
      let j' := set_error (Some (exn_msg e)) (set_status "cleanup_failed" j) in
      (first ++ [j'], (500, PErrorJob (exn_msg e) j'))
  end.

(** ** The process *)

(** A thread or handler that is under way: a deployment that has not loaded its job
    yet, or the copies still to be saved. *)
Inductive activity := Starting (id : string) | Saving (id : string) (todo : list job).
Definition activity_id (a : activity) : string := match a with Starting id | Saving id _ => id end.
Definition saving (id : string) (todo : list job) : list activity :=
  match todo with [] => [] | _ => [Saving id todo] end.

Record world := { w_jobs : odict job; w_acts : list activity }.

(** What [reconcile_interrupted_jobs] does to all the files. *)
Definition reconcile_interrupted_jobs (c : config) (env : string -> option string * cleanup_io * string) (jobs : odict job) : odict job :=
  map (fun kj =>
    let '(before, io, now) := env kj.1 in
    (kj.1, match reconcile_job c before io kj.2 with Some j => set_updated now j | None => kj.2 end)) jobs.

Inductive step (c : config) : world -> world -> Prop :=
  | step_create body id now j compose w :
      create_job c body id now = Ok (j, compose) -> dget id (w_jobs w) = None ->
      step c w {| w_jobs := dset id (set_updated now j) (w_jobs w); w_acts := w_acts w ++ [Starting id] |}
  | step_start id io j jobs a1 a2 :
      dget id jobs = Some j ->
      step c {| w_jobs := jobs; w_acts := a1 ++ Starting id :: a2 |}
             {| w_jobs := jobs; w_acts := a1 ++ Saving id (run_job c io j) :: a2 |}
  | step_cleanup id body io sent j w :
      dget id (w_jobs w) = Some j ->
      step c w {| w_jobs := w_jobs w; w_acts := w_acts w ++ [Saving id (post_cleanup c body io sent j).1] |}
  | step_delete id killed io sent j w :
      dget id (w_jobs w) = Some j ->
      step c w {| w_jobs := w_jobs w; w_acts := w_acts w ++ [Saving id (do_DELETE c killed io sent j).1] |}
  | step_save id j todo now jobs a1 a2 :
      step c {| w_jobs := jobs; w_acts := a1 ++ Saving id (j :: todo) :: a2 |}
             {| w_jobs := dset id (set_updated now j) jobs; w_acts := a1 ++ saving id todo ++ a2 |}
  | step_restart env w :
      step c w {| w_jobs := reconcile_interrupted_jobs c env (w_jobs w); w_acts := [] |}.

Definition initial : world := {| w_jobs := []; w_acts := [] |}.
Definition reaches (c : config) : world -> world -> Prop := rtc (step c).
End jobs.
Arguments spec F : clear implicits.
Arguments job F : clear implicits.
Arguments world F : clear implicits.
Arguments activity F : clear implicits.
