(* ===== verification/OrchFacts.v ===== *)
(** * Cluster orchestrator: the life of a job

    Invariants of the orchestrator's job files under every interleaving of threads,
    requests and restarts, and two ways in which a status does not say what happened. *)

From stdpp Require Import base option list strings relations.
From Stdlib Require Import ZArith Lia Ascii SpecFloat.
From S2P Require Import Prelude PyStr PyFloat Json Regex OrchEnv OrchEnvFacts OrchJobs.

Local Open Scope Z_scope.
Local Open Scope py_scope.

Definition terminal : list string :=
  ["succeeded"; "failed"; "interrupted"; "cleaned"; "stopped"; "cleanup_failed"]%string.

Section facts.
Context {F : Type} `{PyFloat F}.
Implicit Types (j : job F) (w : world F) (a : activity F).

(** ** What one handler does *)

Lemma absorb_keeps content j :
  jb_spec (absorb_state content j) = jb_spec j /\ jb_status (absorb_state content j) = jb_status j /\
  jb_cleanup (absorb_state content j) = jb_cleanup j.
Proof. by destruct content. Qed.
Lemma cleanup_keeps c force io j j' : cleanup_job c force io j = Ok j' ->
  jb_spec j' = jb_spec j /\ jb_status j' = jb_status j.
Proof.
  unfold cleanup_job. intros Hc. apply bind_Ok in Hc as ([code out] & _ & [= <-]). simpl. split; apply absorb_keeps.
Qed.
Lemma auto_cleanup_keeps c io j :
  jb_spec (auto_cleanup c io j) = jb_spec j /\ jb_status (auto_cleanup c io j) = jb_status j.
Proof.
  unfold auto_cleanup. destruct (AUTO_CLEANUP_FAILED c); [|done].
  destruct (cleanup_job _ _ _ _) eqn:E; [|done]. by apply cleanup_keeps in E.
Qed.

Lemma reconcile_job_spec c before io j :
  match reconcile_job c before io j with
  | Some j' => jb_status j ∈ interrupted /\ jb_spec j' = jb_spec j /\
      (jb_status j' = "interrupted" \/ jb_status j' = "cleaned")%string /\
      (jb_status j' = "cleaned"%string -> AUTO_CLEANUP_FAILED c = true /\
         exists out, ci_run io = Ok (0, out))
  | None => jb_status j ∉ interrupted
  end.
Proof.
  unfold reconcile_job. case_bool_decide as Ei; simpl; [|done]. split; [done|].
  destruct (AUTO_CLEANUP_FAILED c).
  - set (j0 := absorb_state before _).
    assert (jb_spec j0 = jb_spec j /\ jb_status j0 = "interrupted"%string) as [E1 E2].
    { unfold j0. destruct (absorb_keeps before (set_error (Some "orchestrator restarted before this job reached a terminal state"%string)
        (set_status "interrupted" j))) as (-> & -> & _). done. }
    destruct (cleanup_job c false io j0) as [j1|e] eqn:Ec.
    + pose proof (cleanup_keeps _ _ _ _ _ Ec) as [E3 E4]. case_bool_decide as Es; simpl.
      * split_and!; [congruence|by right|]. intros _. split; [done|].
        unfold cleanup_job in Ec. apply bind_Ok in Ec as ([code out] & Er & [= <-]).
        unfold cleanup_status in Es. simpl in Es. destruct (code =? 0) eqn:Ez; [|done].
        apply Z.eqb_eq in Ez. subst code. by exists out.
      * split_and!; [congruence|left; congruence|]. intros Hs. congruence.
    + simpl. split_and!; [done|by left|congruence].
  - destruct (absorb_keeps before (set_error (Some "orchestrator restarted before this job reached a terminal state"%string)
        (set_status "interrupted" j))) as (-> & -> & _). simpl. split_and!; [done|by left|done].
Qed.

(** The copies a handler saves of a job. *)
Definition known : list string := interrupted ++ terminal.
Definition copy_of (sp : spec F) (j : job F) : Prop := jb_spec j = sp /\ jb_status j ∈ known.
Definition copies_ok (sp : spec F) (l : list (job F)) : Prop :=
  Forall (copy_of sp) l /\ exists l' j, l = l' ++ [j] /\ jb_status j ∈ terminal.
Ltac listed := by apply (bool_decide_unpack _).

Lemma read_output_spec c ls tail j : let '(_, j', saved) := read_output c ls tail j in
  jb_spec j' = jb_spec j /\ Forall (fun x => jb_spec x = jb_spec j /\ jb_status x = jb_status j) saved.
Proof.
  revert tail j. induction ls as [|l ls IH]; intros tail j; simpl; [done|]. destruct (rl_save l) as [state|]; [|apply IH].
  set (j0 := absorb_state state _). specialize (IH (add_line tail (rl_text l)) j0).
  destruct (read_output c ls _ j0) as [[t j'] saved]. destruct IH as [E Hs].
  assert (jb_spec j0 = jb_spec j /\ jb_status j0 = jb_status j) as [E0 E1]
    by (unfold j0; match goal with |- context [absorb_state ?x ?y] => destruct (absorb_keeps x y) as (-> & -> & _) end; done).
  rewrite E0, E1 in *. split; [done|]. by constructor.
Qed.
Lemma run_result_ok c io tail j :
  jb_spec (run_result c io tail j) = jb_spec j /\ jb_status (run_result c io tail j) ∈ ["succeeded"; "failed"]%string.
Proof.
  unfold run_result. destruct (ri_end io) as [code|e].
  - set (j1 := absorb_state _ _). assert (jb_spec j1 = jb_spec j) as E1 by (unfold j1; by rewrite (proj1 (absorb_keeps _ _))).
    destruct (code =? 0); simpl; [split; [done|by left]|].
    match goal with |- context [auto_cleanup ?a ?b ?x] => destruct (auto_cleanup_keeps a b x) as [-> ->] end.
    simpl. split; [done|]. right. by left.
  - match goal with |- context [auto_cleanup ?a ?b ?x] => destruct (auto_cleanup_keeps a b x) as [-> ->] end.
    simpl. split; [done|]. right. by left.
Qed.

Lemma terminal_known s : s ∈ terminal -> s ∈ known.
Proof. intros Hs. unfold known. apply elem_of_app. by right. Qed.
Lemma copies_intro sp l j : Forall (copy_of sp) l -> jb_spec j = sp -> jb_status j ∈ terminal -> copies_ok sp (l ++ [j]).
Proof.
  intros Hl Hj Ht. split; [|by exists l, j]. apply Forall_app. split; [done|]. constructor; [|done].
  split; [done|by apply terminal_known].
Qed.

Lemma run_job_copies c io j : copies_ok (jb_spec j) (run_job c io j).
Proof.
  unfold run_job. pose proof (read_output_spec c (ri_lines io) [] (set_status "running" j)) as Hr.
  destruct (read_output c (ri_lines io) [] (set_status "running" j)) as [[t j'] saved]. destruct Hr as [E Hs].
  destruct (run_result_ok c io t j') as [E2 Ht]. rewrite app_comm_cons. apply copies_intro.
  - constructor; [split; [done|listed]|]. eapply Forall_impl; [exact Hs|]. intros x [E3 E4]. split; [done|].
    rewrite E4. listed.
  - by rewrite E2, E.
  - rewrite !elem_of_cons, elem_of_nil in Ht. destruct Ht as [->|[->|[]]]; listed.
Qed.
Lemma answered_copies sp sent copies j : Forall (copy_of sp) copies -> jb_spec j = sp -> jb_status j ∈ terminal ->
  copies_ok sp (answered sent copies j).1.
Proof.
  intros Hl Hj Ht. unfold answered. destruct sent as [u|e]; [by apply copies_intro|]. cbn [fst].
  change (copies ++ [j; ?x]) with (copies ++ [j] ++ [x]). rewrite app_assoc. apply copies_intro; [|done|listed].
  apply Forall_app. split; [done|]. apply Forall_singleton. split; [done|by apply terminal_known].
Qed.
Lemma post_cleanup_copies c body io sent j : copies_ok (jb_spec j) (post_cleanup c body io sent j).1.
Proof.
  unfold post_cleanup. destruct (obj_of body) as [b|e]; [|apply (copies_intro _ []); [done|done|listed]].
  assert (Forall (copy_of (jb_spec j)) [set_status "cleanup_running" j]) as Hf by (repeat constructor; listed).
  destruct (cleanup_job _ _ _ _) as [j'|e] eqn:E; [apply answered_copies|apply (copies_intro _ [_])]; try done; try listed.
  - apply cleanup_keeps in E as [E _]. done.
  - simpl. destruct (truthy _); listed.
Qed.
Lemma do_DELETE_copies c killed io sent j : jb_status j ∈ known -> copies_ok (jb_spec j) (do_DELETE c killed io sent j).1.
Proof.
  intros Hk. unfold do_DELETE. set (j0 := if killed then _ else j).
  assert (jb_spec j0 = jb_spec j) as E0 by (unfold j0; by destruct killed).
  assert (Forall (copy_of (jb_spec j)) (if killed then [j0] else [])) as Hf.
  { unfold j0. destruct killed; repeat constructor; listed. }
  destruct (cleanup_job _ _ _ _) as [j'|e] eqn:E; [apply answered_copies|apply copies_intro]; try done; try listed.
  apply cleanup_keeps in E as [E _]. simpl. congruence.
Qed.

(** ** What holds of every world *)

Definition act_ok (jobs : odict (job F)) a : Prop :=
  exists j, dget (activity_id a) jobs = Some j /\
    match a with Starting _ => True | Saving _ todo => copies_ok (jb_spec j) todo end.
Definition good w : Prop :=
  (forall id j, dget id (w_jobs w) = Some j -> sp_id (jb_spec j) = id /\ jb_status j ∈ known /\
     (jb_status j ∈ terminal \/ exists a, a ∈ w_acts w /\ activity_id a = id)) /\
  (forall a, a ∈ w_acts w -> act_ok (w_jobs w) a).

(** Every job of [w] is still there, and is the deployment it was created as. *)
Definition keeps w w' : Prop :=
  forall id j, dget id (w_jobs w) = Some j -> exists j', dget id (w_jobs w') = Some j' /\ jb_spec j' = jb_spec j.

Lemma act_ok_mono jobs jobs' a :
  (forall id j, dget id jobs = Some j -> exists j', dget id jobs' = Some j' /\ jb_spec j' = jb_spec j) ->
  act_ok jobs a -> act_ok jobs' a.
Proof. intros Hk (j & Hj & Ha). destruct (Hk _ _ Hj) as (j' & Hj' & E). exists j'. split; [done|]. by rewrite E. Qed.

Lemma dget_map (f : string -> job F -> job F) id jobs :
  dget id (map (fun kj => (kj.1, f kj.1 kj.2)) jobs) = f id <$> dget id jobs.
Proof. induction jobs as [|[k j] jobs IH]; simpl; [done|]. case_bool_decide; [by subst|done]. Qed.

Lemma create_job_fields c body id now j compose : create_job c body id now = Ok (j, compose) ->
  sp_id (jb_spec j) = id /\ jb_status j = "queued"%string.
Proof.
  unfold create_job. intros Hc. repeat (apply bind_Ok in Hc as (? & _ & Hc)). by injection Hc as <- _.
Qed.

Lemma good_acts jobs acts acts' : good {| w_jobs := jobs; w_acts := acts |} ->
  (forall a, a ∈ acts' -> act_ok jobs a) ->
  (forall a, a ∈ acts -> exists a', a' ∈ acts' /\ activity_id a' = activity_id a) ->
  good {| w_jobs := jobs; w_acts := acts' |} /\ keeps {| w_jobs := jobs; w_acts := acts |} {| w_jobs := jobs; w_acts := acts' |}.
Proof.
  intros [Hj _] Ha Hm. split; [split; [|done]|].
  - intros id j Hid. destruct (Hj id j Hid) as (E & Hk & Hs). split_and!; [done|done|].
    destruct Hs as [Hs|(a & Hin & Eid)]; [by left|right]. destruct (Hm a Hin) as (a' & Hin' & Eid').
    exists a'. split; [done|]. congruence.
  - intros id j Hid. by exists j.
Qed.
Lemma good_add w a : good w -> act_ok (w_jobs w) a ->
  good {| w_jobs := w_jobs w; w_acts := w_acts w ++ [a] |} /\ keeps w {| w_jobs := w_jobs w; w_acts := w_acts w ++ [a] |}.
Proof.
  destruct w as [jobs acts]. simpl. intros Hg Ha. apply good_acts; [done| |].
  - intros a' [Hin|Hin%list_elem_of_singleton]%elem_of_app; [by apply Hg|by subst].
  - intros a' Hin. exists a'. split; [|done]. apply elem_of_app. by left.
Qed.

Lemma copies_tail sp j todo : copies_ok sp (j :: todo) ->
  copy_of sp j /\ match todo with [] => jb_status j ∈ terminal | _ => copies_ok sp todo end.
Proof.
  intros [Hf (l' & jl & E & Ht)]. apply Forall_cons in Hf as [Hj Hf]. split; [done|].
  destruct l' as [|j' l']; injection E as <- ->.
  - done.
  - destruct (l' ++ [jl]) eqn:E2; [by destruct l'|]. split; [done|]. exists l', jl. by rewrite E2.
Qed.

Lemma good_save id j todo now jobs (a1 a2 : list (activity F)) :
  let w := {| w_jobs := jobs; w_acts := a1 ++ Saving id (j :: todo) :: a2 |} in
  let w' := {| w_jobs := dset id (set_updated now j) jobs; w_acts := a1 ++ saving id todo ++ a2 |} in
  good w -> good w' /\ keeps w w'.
Proof.
  intros w w' [Hj Ha]. assert (act_ok jobs (Saving id (j :: todo))) as (j0 & Hj0 & Hc).
  { apply Ha. simpl. apply elem_of_app. right. by left. }
  simpl in Hj0, Hc. apply copies_tail in Hc as [[Es Hk] Ht].
  assert (keeps w w') as Hkeep.
  { intros id' j' Hid. simpl in *. rewrite dget_dset. case_bool_decide as E; [|by exists j'].
    subst id'. eexists. split; [done|]. simpl. congruence. }
  split; [split|done].
  - intros id' j' Hid. simpl in Hid. rewrite dget_dset in Hid. case_bool_decide as E.
    + subst id'. injection Hid as <-. destruct (Hj _ _ Hj0) as (Eid & _ & _). simpl.
      split_and!; [by rewrite Es|done|]. destruct todo as [|j2 todo]; [by left|right].
      exists (Saving id (j2 :: todo)). split; [|done]. simpl. apply elem_of_app. right. by left.
    + destruct (Hj _ _ Hid) as (Eid & Hk' & Hs). split_and!; [done|done|].
      destruct Hs as [Hs|(a & Hin & Eida)]; [by left|right]. exists a. split; [|done]. simpl in *.
      rewrite !elem_of_app. rewrite elem_of_app, elem_of_cons in Hin.
      destruct Hin as [Hin|[->|Hin]]; [by left| |by right; right]. simpl in Eida. congruence.
  - intros a Hin. simpl in Hin. rewrite !elem_of_app in Hin. destruct Hin as [Hin|[Hin|Hin]].
    + apply (act_ok_mono jobs); [exact Hkeep|]. apply Ha. simpl. apply elem_of_app. by left.
    + destruct todo as [|j2 todo]; [by apply elem_of_nil in Hin|]. apply list_elem_of_singleton in Hin as ->.
      exists (set_updated now j). simpl. rewrite dget_dset_eq. split; [done|]. simpl. by rewrite Es.
    + apply (act_ok_mono jobs); [exact Hkeep|]. apply Ha. simpl. apply elem_of_app. right. by right.
Qed.

Lemma good_create c body id now j compose w : good w -> create_job c body id now = Ok (j, compose) ->
  dget id (w_jobs w) = None ->
  let w' := {| w_jobs := dset id (set_updated now j) (w_jobs w); w_acts := w_acts w ++ [Starting id] |} in
  good w' /\ keeps w w'.
Proof.
  intros [Hj Ha] Hc Hn w'. apply create_job_fields in Hc as [Ei Es].
  assert (keeps w w') as Hkeep.
  { intros id' j' Hid. simpl. rewrite dget_dset. case_bool_decide; [congruence|by exists j']. }
  split; [split|done].
  - intros id' j' Hid. simpl in Hid. rewrite dget_dset in Hid. case_bool_decide as E.
    + subst id'. injection Hid as <-. split_and!; [done|simpl; rewrite Es; listed|right].
      exists (Starting id). split; [|done]. simpl. apply elem_of_app. right. by left.
    + destruct (Hj _ _ Hid) as (Eid & Hk' & Hs). split_and!; [done|done|].
      destruct Hs as [Hs|(a & Hin & Eida)]; [by left|right]. exists a. split; [|done]. simpl. apply elem_of_app. by left.
  - intros a Hin. simpl in Hin. apply elem_of_app in Hin as [Hin|Hin%list_elem_of_singleton].
    + apply (act_ok_mono (w_jobs w)); [exact Hkeep|]. by apply Ha.
    + subst a. eexists. simpl. by rewrite dget_dset_eq.
Qed.

Lemma good_restart c env w : good w ->
  let w' := {| w_jobs := reconcile_interrupted_jobs c env (w_jobs w); w_acts := [] |} in good w' /\ keeps w w'.
Proof.
  intros [Hj Ha] w'.
  set (f := fun (k : string) (x : job F) => let '(before, io, now) := env k in
    match reconcile_job c before io x with Some y => set_updated now y | None => x end).
  assert (w_jobs w' = map (fun kj => (kj.1, f kj.1 kj.2)) (w_jobs w)) as Ew.
  { unfold w', f, reconcile_interrupted_jobs. simpl. apply map_ext. intros [k x]. simpl. by destruct (env k) as [[? ?] ?]. }
  assert (forall k x, jb_spec (f k x) = jb_spec x /\ (jb_status x ∈ known -> jb_status (f k x) ∈ terminal)) as Hf.
  { intros k x. unfold f. destruct (env k) as [[before io] now]. pose proof (reconcile_job_spec c before io x) as Hr.
    destruct (reconcile_job c before io x) as [y|]; simpl.
    - destruct Hr as (_ & -> & [->| ->] & _); (split; [done|]; intros _; listed).
    - split; [done|]. unfold known. rewrite elem_of_app. by intros [?|?]. }
  split; [split|].
  - intros id j Hid. rewrite Ew, dget_map in Hid. destruct (dget id (w_jobs w)) as [j0|] eqn:E0; [|done].
    injection Hid as <-. destruct (Hj _ _ E0) as (Eid & Hk & _). destruct (Hf id j0) as [-> Ht].
    split_and!; [done|by apply terminal_known, Ht|by left; apply Ht].
  - intros a Hin. by apply elem_of_nil in Hin.
  - intros id j Hid. exists (f id j). rewrite Ew, dget_map, Hid. split; [done|]. apply Hf.
Qed.

Lemma good_step c w w' : good w -> step c w w' -> good w' /\ keeps w w'.
Proof.
  intros Hg Hs. destruct Hs as [body id now j compose w Hc Hn|id io j jobs a1 a2 Hid|id body io sent j w Hid|id killed io sent j w Hid
    |id j todo now jobs a1 a2|env w].
  - by apply (good_create c body id now j compose).
  - apply (good_acts jobs (a1 ++ Starting id :: a2)); [done| |].
    + intros a. rewrite elem_of_app, elem_of_cons. intros Hin.
      assert (a = Saving id (run_job c io j) \/ a ∈ a1 ++ Starting id :: a2) as [->|Hin'].
      { rewrite elem_of_app, elem_of_cons. naive_solver. }
      * exists j. split; [done|]. apply run_job_copies.
      * by apply Hg.
    + intros a. rewrite elem_of_app, elem_of_cons. intros [Hin|[->|Hin]].
      * exists a. split; [apply elem_of_app; by left|done].
      * exists (Saving id (run_job c io j)). split; [apply elem_of_app; right; by left|done].
      * exists a. split; [apply elem_of_app; right; by right|done].
  - apply good_add; [done|]. exists j. split; [done|]. apply post_cleanup_copies.
  - apply good_add; [done|]. exists j. split; [done|]. apply do_DELETE_copies. by apply (proj1 Hg id).
  - by apply good_save.
  - by apply good_restart.
Qed.

Lemma good_reaches c w w' : good w -> reaches c w w' -> good w' /\ keeps w w'.
Proof.
  intros Hg Hr. induction Hr as [w|w w1 w2 Hs Hr IH]; [split; [done|]; intros id j Hid; by exists j|].
  destruct (good_step _ _ _ Hg Hs) as [Hg1 Hk1]. destruct (IH Hg1) as [Hg2 Hk2]. split; [done|].
  intros id j Hid. destruct (Hk1 id j Hid) as (j1 & Hj1 & E1). destruct (Hk2 id j1 Hj1) as (j2 & Hj2 & E2).
  exists j2. split; [done|]. congruence.
Qed.
Lemma good_initial : good initial.
Proof. split; [done|]. intros a Hin. by apply elem_of_nil in Hin. Qed.

(** C18: No job is left hanging: whatever requests come in and however the threads
    interleave, a job whose status is not final has a thread or request still working
    on it, and after a restart every job has a final status. *)
Theorem quiet_jobs_are_final c w id j : reaches c initial w -> dget id (w_jobs w) = Some j ->
  (jb_status j ∈ terminal \/ exists a, a ∈ w_acts w /\ activity_id a = id) /\
  forall env w', step c w w' -> w' = {| w_jobs := reconcile_interrupted_jobs c env (w_jobs w); w_acts := [] |} ->
    forall id' j', dget id' (w_jobs w') = Some j' -> jb_status j' ∈ terminal.
Proof.
  intros Hr Hid. destruct (good_reaches c _ _ good_initial Hr) as [Hg _]. split; [by apply (proj1 Hg id j Hid)|].
  intros env w' Hs -> id' j' Hid'. destruct (good_restart c env w Hg) as [Hg' _].
  destruct (proj1 Hg' id' j' Hid') as (_ & _ & [Ht|(a & Hin & _)]); [done|by apply elem_of_nil in Hin].
Qed.

(** C36: A job is never lost and never becomes another deployment: whatever happens
    after it was created, its file is there under its identifier, and the network,
    image, machine, command and environment in it are those it was created with. *)
Theorem jobs_keep_their_identity c w w' id j : reaches c initial w -> dget id (w_jobs w) = Some j ->
  reaches c w w' -> sp_id (jb_spec j) = id /\ exists j', dget id (w_jobs w') = Some j' /\ jb_spec j' = jb_spec j.
Proof.
  intros Hr Hid Hr'. destruct (good_reaches c _ _ good_initial Hr) as [Hg _].
  split; [by apply (proj1 Hg id j Hid)|]. destruct (good_reaches c _ _ Hg Hr') as [_ Hk]. by apply Hk.
Qed.

(** The status after a cleanup does not say whether it worked: a cleanup script that
    fails still leaves the job "cleaned" or "stopped", answered 200 and with no error,
    while a request whose body is no object marks the job "cleanup_failed" although
    nothing was tried. *)
Theorem cleanup_status_ignores_failure c io (j : job F) code out : ci_run io = Ok (code, out) -> code <> 0 ->
  (forall killed, exists j', do_DELETE c killed io (Ok tt) j = ((do_DELETE c killed io (Ok tt) j).1, (200, PJob j')) /\
     last (do_DELETE c killed io (Ok tt) j).1 = Some j' /\ jb_status j' = "stopped"%string /\ jb_error j' = None /\
     cleanup_status j' = Some "failed"%string) /\
  (forall d, exists j', post_cleanup c (Ok (JObj d)) io (Ok tt) j = ((post_cleanup c (Ok (JObj d)) io (Ok tt) j).1, (200, PJob j')) /\
     last (post_cleanup c (Ok (JObj d)) io (Ok tt) j).1 = Some j' /\
     jb_status j' = (if truthy (bget "force" d) then "stopped" else "cleaned")%string /\
     cleanup_status j' = Some "failed"%string) /\
  (forall e, exists j', (post_cleanup c (Raise e) io (Ok tt) j).1 = [j'] /\ jb_status j' = "cleanup_failed"%string /\
     jb_cleanup j' = jb_cleanup j).
Proof.
  intros Hr Hc. assert ((code =? 0) = false) as Ez by lia. split_and!.
  - intros killed. unfold do_DELETE, answered, cleanup_job. rewrite Hr. cbv [mbind result_bind]. rewrite Ez.
    eexists. split; [reflexivity|]. simpl. rewrite last_app. done.
  - intros d. unfold post_cleanup, answered, cleanup_job. rewrite Hr. cbv [obj_of mbind result_bind]. rewrite Ez.
    eexists. split; [reflexivity|]. done.
  - intros e. eexists. split; [reflexivity|done].
Qed.

(** A deleted job can come back: the thread of a deployment that is still running
    writes its own copy when the killed script ends, so after the request was answered
    and the job was "stopped" its file says whatever that thread found. *)
Theorem deleted_job_comes_back c w id (j jr : job F) io out : reaches c initial w ->
  dget id (w_jobs w) = Some j -> w_acts w = [Saving id [jr]] -> ci_run io = Ok (0, out) ->
  exists w1 w2, reaches c w w1 /\ (jb_status <$> dget id (w_jobs w1)) = Some "stopped"%string /\
    w_acts w1 = [Saving id [jr]] /\
    step c w1 w2 /\ (jb_status <$> dget id (w_jobs w2)) = Some (jb_status jr) /\ w_acts w2 = [].
Proof.
  intros _ Hid Ha Hr. destruct w as [jobs acts]. simpl in *. subst acts.
  set (saves := (do_DELETE c true io (Ok tt) j).1).
  assert (exists j1 j2, saves = [j1; j2] /\ jb_status j2 = "stopped"%string) as (j1 & j2 & Es & Hst).
  { unfold saves, do_DELETE, answered, cleanup_job. rewrite Hr. cbv [mbind result_bind]. simpl. by do 2 eexists. }
  pose proof (step_delete c id true io (Ok tt) j {| w_jobs := jobs; w_acts := [Saving id [jr]] |} Hid) as S1.
  fold saves in S1. rewrite Es in S1. simpl in S1.
  pose proof (step_save c id j1 [j2] "" jobs [Saving id [jr]] []) as S2. simpl in S2.
  pose proof (step_save c id j2 [] "" (dset id (set_updated "" j1) jobs) [Saving id [jr]] []) as S3. simpl in S3.
  pose proof (step_save c id jr [] "" (dset id (set_updated "" j2) (dset id (set_updated "" j1) jobs)) [] []) as S4. simpl in S4.
  eexists _, _. split; [|split; [|split; [|split; [exact S4|]]]].
  - eapply rtc_l; [exact S1|]. eapply rtc_l; [exact S2|]. eapply rtc_l; [exact S3|]. apply rtc_refl.
  - simpl. rewrite dget_dset_eq. simpl. by rewrite Hst.
  - done.
  - simpl. by rewrite dget_dset_eq.
Qed.
End facts.

(** ** Cluster orchestrator: a concrete deployment

    One Postgres deployment, created, started, killed and deleted, with the theorems of
    the files OrchEnvFacts and OrchFacts applied to it. *)

Definition orch : config := {|
  TOKEN := "t"; DEPLOY_RPC_URL := "https://rpc"; DEPLOY_BUNDLER_URL := "https://bundler?key=a&b='c'";
  DEPLOY_GAS_POLICY_ID := "p 1"; DEPLOY_BOX_RPC := "https://rpc"; COMPOSES := "/c"; LOGS := "/l";
  AUTO_CLEANUP_FAILED := true |}.
Definition deployment_body : json spec_float :=
  JObj [("name", JStr "My DB"); ("networkId", JStr "base"); ("cluster", JStr "0xc1; rm -rf /");
        ("memberImpl", JStr "0xm"); ("catalogId", JStr "postgres"); ("env", JStr "POSTGRES_PASSWORD=p=1")]%string.

Definition created : result (job spec_float * string) := create_job orch (Ok deployment_body) "00ff00ff" "now".
Lemma created_ok : is_ok created = true.
Proof. by vm_compute. Qed.
Definition job0 : job spec_float := (get_ok created created_ok).1.
Definition compose0 : string := (get_ok created created_ok).2.
Lemma created_eq : create_job orch (Ok deployment_body) "00ff00ff" "now" = Ok (job0, compose0).
Proof. unfold job0, compose0. rewrite <- surjective_pairing. exact (get_ok_eq created created_ok). Qed.

Example created_as : sp_node_name (jb_spec job0) = "base-my-db-00ff00"%string /\
  sp_connection (jb_spec job0) = Some ("postgres", "postgres")%string.
Proof. split; vm_compute; reflexivity. Qed.

(** The script is killed; the cleanup of the thread finds nothing to do. *)
Definition done_io : cleanup_io := {| ci_run := Ok (0, "cleaned"%string); ci_state := None; ci_now := "later" |}.
Definition killed_io : run_io := {| ri_lines := []; ri_end := Ok (-9); ri_state := None; ri_cleanup := done_io |}.

Definition world0 : world spec_float :=
  {| w_jobs := [("00ff00ff"%string, set_updated "now" job0)]; w_acts := [Starting "00ff00ff"] |}.
Definition copies : list (job spec_float) := run_job orch killed_io (set_updated "now" job0).
Definition first_copy : job spec_float := set_status "running" (set_updated "now" job0).
Definition last_copy : job spec_float := run_result orch killed_io [] first_copy.
Definition world2 : world spec_float :=
  {| w_jobs := [("00ff00ff"%string, set_updated "now" first_copy)]; w_acts := [Saving "00ff00ff" [last_copy]] |}.

Lemma reaches_world0 : reaches orch initial world0.
Proof.
  eapply rtc_l; [|apply rtc_refl].
  exact (step_create orch (Ok deployment_body) "00ff00ff" "now" job0 compose0 initial created_eq eq_refl).
Qed.
Lemma reaches_world2 : reaches orch initial world2.
Proof.
  unfold reaches. etrans; [exact reaches_world0|].
  eapply rtc_l; [exact (step_start orch "00ff00ff" killed_io (set_updated "now" job0) (w_jobs world0) [] [] eq_refl)|].
  eapply rtc_l; [exact (step_save orch "00ff00ff" first_copy [last_copy] "now" (w_jobs world0) [] [])|]. apply rtc_refl.
Qed.

Lemma quiet_jobs_are_final_witness :
  jb_status (set_updated "now" job0) ∈ terminal \/
  exists a, a ∈ w_acts world0 /\ activity_id a = "00ff00ff"%string.
Proof.
  exact (proj1 (quiet_jobs_are_final orch world0 "00ff00ff" (set_updated "now" job0) reaches_world0 eq_refl)).
Defined.

Lemma world0_to_world2 : reaches orch world0 world2.
Proof.
  eapply rtc_l; [exact (step_start orch "00ff00ff" killed_io (set_updated "now" job0) (w_jobs world0) [] [] eq_refl)|].
  eapply rtc_l; [exact (step_save orch "00ff00ff" first_copy [last_copy] "now" (w_jobs world0) [] [])|]. apply rtc_refl.
Qed.
Lemma jobs_keep_their_identity_witness :
  sp_id (jb_spec job0) = "00ff00ff"%string /\
  exists j', dget "00ff00ff" (w_jobs world2) = Some j' /\ jb_spec j' = jb_spec job0.
Proof.
  exact (jobs_keep_their_identity orch world0 world2 "00ff00ff" (set_updated "now" job0)
    reaches_world0 eq_refl world0_to_world2).
Defined.

Definition failed_io : cleanup_io := {| ci_run := Ok (1, "ssh: no route"%string); ci_state := None; ci_now := "later" |}.
Lemma one_is_not_zero : 1 <> 0.
Proof. discriminate. Qed.
Lemma cleanup_status_ignores_failure_witness :
  exists j', last (do_DELETE orch true failed_io (Ok tt) job0).1 = Some j' /\ jb_status j' = "stopped"%string /\
    cleanup_status j' = Some "failed"%string.
Proof.
  destruct (proj1 (cleanup_status_ignores_failure orch failed_io job0 1 "ssh: no route" eq_refl one_is_not_zero) true)
    as (j' & _ & Hl & Hs & _ & Hc).
  exists j'. exact (conj Hl (conj Hs Hc)).
Defined.

Lemma deleted_job_comes_back_witness : exists w1 w2 : world spec_float, reaches orch world2 w1 /\
  (jb_status <$> dget "00ff00ff" (w_jobs w1)) = Some "stopped"%string /\
  (jb_status <$> dget "00ff00ff" (w_jobs w2)) = Some "failed"%string /\ w_acts w2 = [].
Proof.
  destruct (deleted_job_comes_back orch world2 "00ff00ff" (set_updated "now" first_copy) last_copy done_io "cleaned"
    reaches_world2 eq_refl eq_refl eq_refl) as (w1 & w2 & H1 & H2 & _ & _ & H5 & H6).
  exists w1, w2. split; [exact H1|]. split; [exact H2|]. split; [|exact H6]. rewrite H5. reflexivity.
Defined.

(** A network named by a UUID, and a deployment name of ten letters. *)
Lemma node_names_collide_witness :
  node_name "3b9aca00-7e57-4c0d-8f00-0123456789ab" "production" "a1b2c3d4" =
  node_name "3b9aca00-7e57-4c0d-8f00-0123456789ab" "production" "ffee0011".
Proof.
  exact (node_names_collide "3b9aca00-7e57-4c0d-8f00-0123456789ab" "production" "a1b2c3d4" "ffee0011"
    eq_refl eq_refl (le_n 46) eq_refl eq_refl ltac:(discriminate) ltac:(discriminate)).
Defined.

Definition env_raw : string := "POSTGRES_PASSWORD=p=1" +:+ String LF ("# note" +:+ String LF "  TZ=UTC ").
Lemma env_parsed_ok : parse_env env_raw = Ok [("POSTGRES_PASSWORD", "p=1"); ("TZ", "UTC")]%string.
Proof. by vm_compute. Qed.
Definition env_full : odict string :=
  [("POSTGRES_PASSWORD", "p=1"); ("TZ", "UTC"); ("POSTGRES_USER", "postgres"); ("POSTGRES_DB", "postgres");
   ("POSTGRES_INITDB_ARGS", "--encoding=UTF8 --locale=C")]%string.
Lemma env_round_trip_witness : parse_env (env_text env_full) = Ok (dsort env_full) /\
  forall k, dget k (dsort env_full) = dget k env_full.
Proof. exact (env_round_trip env_raw (Some "postgres"%string) _ env_full env_parsed_ok eq_refl). Defined.

Lemma flavor_medium : ln_box (sp_launch (jb_spec job0)) ∈ dvalues FLAVORS.
Proof. vm_compute. right. left. Qed.
Lemma shell_reads_the_values_witness :
  sh_read Bare None [] (deploy_text orch (sp_launch (jb_spec job0)) (cleanup_body "a b" true)) =
    Some (prologue orch (sp_launch (jb_spec job0)) ++
      [["export"; "FORCE_CLEANUP=1"]; ["deploy/generic-node.sh"; "a b"; "cleanup"]]%string).
Proof. exact (proj1 (shell_reads_the_values orch (sp_launch (jb_spec job0)) "a b" true flavor_medium)). Defined.

(** A catalogue identifier with a space selects the Postgres image and the Postgres
    environment, but not the Postgres compose file. *)
Example padded_catalog_id :
  match create_job (F := spec_float) orch (Ok (JObj [("networkId", JStr "n"); ("cluster", JStr "c"); ("memberImpl", JStr "m");
          ("catalogId", JStr " postgres"); ("env", JStr "POSTGRES_PASSWORD=x")]%string)) "0a0b0c0d" "now" with
  | Ok (j, compose) => sp_catalog_id (jb_spec j) = Some "postgres"%string /\
      compose = generic_compose "workload" "postgres:16-alpine" None
  | Raise _ => False
  end.
Proof. split; vm_compute; reflexivity. Qed.
