(* ===== verification/Precommit.v ===== *)
(** * Pre-commit guard: what is staged and what is found in it

    [deploy/precommit_security.py]: Git's index as a snapshot, the findings on paths
    and added lines, redaction, and the decision.  What Git prints, the answers of the
    operating system and the reviewer's database are arguments. *)

From stdpp Require Import base option list strings.
From Stdlib Require Import ZArith Lia Ascii.
From S2P Require Import Prelude PyStr PyFloat Json Sha256 Regex.

Local Open Scope Z_scope.
Local Open Scope py_scope.

Definition MAX_BLOB_BYTES : Z := 20 * 1024 * 1024.
Definition MAX_ADDED_LINE_BYTES : Z := 8 * 1024.
Definition MAX_AGENT_PAYLOAD_BYTES : Z := 512 * 1024.

Definition GuardError (msg : string) : exn := OtherError "GuardError" msg.

(** ** Data *)

Record Finding := {
  category : string;
  rule : string;
  fpath : string;
  message : string;
  fline : option Z;
  ffingerprint : option string;
}.
Record AddedLine := { al_line : Z; al_text : string }.
Record StagedFile := {
  status : string;
  path : string;
  old_path : option string;
  fmode : string;
  blob_oid : string;
  size : Z;
  kind : string;
  added_lines : list AddedLine;
}.
Record StagedSnapshot := { index_tree : string; files : list StagedFile }.

(** ** Patterns *)

(** A double quote is written [`] in the literals below. *)
Definition bq (s : string) : string := replace_char "`" (String "034" EmptyString) s.

Record SecretPattern := { sp_rule : string; sp_regex : re; sp_message : string }.
Definition pattern (r : string) (ci : bool) (lit msg : string) : SecretPattern :=
  {| sp_rule := r; sp_regex := literal ci (bq lit); sp_message := msg |}.
Definition SECRET_PATTERNS : list SecretPattern := [
  pattern "github-token" false "\b(?:gh[pousr]_[A-Za-z0-9]{20,}|github_pat_[A-Za-z0-9_]{20,})\b"
    "GitHub access token shape is staged";
  pattern "openai-api-key" false "\bsk-(?:proj-|svcacct-)?[A-Za-z0-9_-]{20,}\b" "OpenAI API key shape is staged";
  pattern "aws-access-key" false "\b(?:AKIA|ASIA)[A-Z0-9]{16}\b" "AWS access key ID shape is staged";
  pattern "google-api-key" false "\bAIza[0-9A-Za-z_-]{35}\b" "Google API key shape is staged";
  pattern "slack-token" false "\bxox[baprs]-[A-Za-z0-9-]{16,}\b" "Slack token shape is staged";
  pattern "stripe-live-key" false "\b(?:sk|rk)_live_[A-Za-z0-9]{16,}\b" "Stripe live key shape is staged";
  pattern "jwt" false "\beyJ[A-Za-z0-9_-]{8,}\.[A-Za-z0-9_-]{8,}\.[A-Za-z0-9_-]{8,}\b" "JWT shape is staged";
  pattern "private-key" false "-----BEGIN (?:RSA |EC |OPENSSH |DSA )?PRIVATE KEY-----" "private-key material is staged";
  pattern "authorization-bearer" false "(?i)\bAuthorization\s*[:=]\s*[\`']?Bearer\s+[A-Za-z0-9._~+/=-]{16,}"
    "literal bearer credential is staged";
  pattern "credential-url" true "\b[a-z][a-z0-9+.-]{1,20}://[^\s/:@]+:[^\s/@]{6,}@"
    "URL containing literal credentials is staged"]%string.

Definition SENSITIVE_ASSIGNMENT : re := literal false (bq
  ("(?i)[\`']?(?P<name>" +:+
   "password|passwd|secret|token|api[_-]?key|access[_-]?key|private[_-]?key|" +:+
   "client[_-]?secret|auth[_-]?token|bearer[_-]?token" +:+
   ")[\`']?\s*[:=]\s*(?P<value>.+)$")).

Definition PLACEHOLDER_VALUES : list string :=
  [""; "changeme"; "example"; "fake"; "placeholder"; "redacted"; "secret"; "test"; "test-token"; "todo";
   "your-key-here"; "your-token-here"]%string.
Definition ENV_REFERENCE_MARKERS : list string :=
  ["${"; "process.env"; "os.environ"; "os.getenv"; "getenv("; "secretkeyref"; "secrets."; "from_env"; "vault"]%string.
Definition BACKUP_DIR_COMPONENTS : list string := ["backup"; "backups"; "dump"; "dumps"]%string.
Definition BLOCKED_SUFFIXES : list string :=
  [".7z"; ".bak"; ".backup"; ".bz2"; ".db"; ".dump"; ".gz"; ".img"; ".jks"; ".key"; ".mdb"; ".orig"; ".p12"; ".pem";
   ".pfx"; ".pgdump"; ".qcow"; ".qcow2"; ".rar"; ".rdb"; ".sqlite"; ".sqlite3"; ".tar"; ".tgz"; ".vmdk"; ".xz";
   ".zip"; ".zst"]%string.
Definition BACKUP_NAME : re :=
  literal false "(?i)(?:^|[-_.])(?:backup|dump|export|precutover|pre-cutover|snapshot)(?:[-_.]|$)".
Definition SOURCE_OR_DOC_SUFFIXES : list string :=
  [".c"; ".cc"; ".cpp"; ".go"; ".h"; ".hpp"; ".java"; ".js"; ".jsx"; ".md"; ".mjs"; ".py"; ".rb"; ".rs"; ".sh"; ".sql";
   ".ts"; ".tsx"]%string.
Definition HUNK_HEADER : re := literal false "^@@ -\d+(?:,\d+)? \+(?P<line>\d+)(?:,\d+)? @@".
Definition TOKENISH : re := literal false "[A-Za-z0-9+/=_-]{20,}".
Definition DUMP_SIGNATURES : list re :=
  [literal true "^-- PostgreSQL database dump"; literal true "^-- MySQL dump"; literal false "^SQLite format 3"].

(** ** Reading the index *)

Definition NUL : ascii := "000".
Definition TAB : ascii := "009".

(** The fields of [git diff --name-status -z]. *)
Definition status_fields (raw : string) : list string :=
  let fields := split_char NUL raw in
  match rev fields with EmptyString :: rest => rev rest | _ => fields end.
Fixpoint changed_fields (fuel : nat) (fields : list string) : result (list (string * option string * string)) :=
  match fuel, fields with
  | S fuel, status :: fields =>
      match status with
      | EmptyString => Raise (GuardError "git returned an empty staged status")
      | String c _ =>
          if bool_decide (c ∈ ["R"; "C"]%char) then
            match fields with
            | old :: new :: fields => r ← changed_fields fuel fields; Ok ((status, Some old, new) :: r)
            | _ => Raise (GuardError "git returned a truncated staged rename/copy record")
            end
          else
            match fields with
            | new :: fields => r ← changed_fields fuel fields; Ok ((status, None, new) :: r)
            | [] => Raise (GuardError "git returned a truncated staged path record")
            end
      end
  | _, _ => Ok []
  end.
(** Every turn takes a field. *)
Definition changed_index_paths (raw : string) : result (list (string * option string * string)) :=
  let fields := status_fields raw in changed_fields (length fields) fields.

(** [bytes.split()] *)
Fixpoint words_go (cur : string) (s : string) : list string :=
  match s with
  | EmptyString => if bool_decide (cur = EmptyString) then [] else [cur]
  | String c s =>
      if ((9 <=? code c) && (code c <=? 13) || (code c =? 32))%N
      then (if bool_decide (cur = EmptyString) then words_go EmptyString s else cur :: words_go EmptyString s)
      else words_go (cur +:+ String c EmptyString) s
  end.
Definition words (s : string) : list string := words_go EmptyString s.

(** Mode and object of a path, from [git ls-files --stage -z]. *)
Definition index_entry (raw path : string) : result (string * string) :=
  match List.filter (fun r => negb (bool_decide (r = EmptyString))) (split_char NUL raw) with
  | [record] =>
      match partition (String TAB EmptyString) record with
      | None => Raise (GuardError ("could not parse index entry for " +:+ repr_str path))
      | Some (prefix, _) =>
          match words prefix with
          | [mode; oid; "0"%string] => Ok (mode, oid)
          | _ => Raise (GuardError ("unmerged or malformed index entry for " +:+ repr_str path))
          end
      end
  | _ => Raise (GuardError ("expected one stage-0 index entry for " +:+ repr_str path))
  end.

(** One line of the patch; the number of the next added line is [None] outside a hunk. *)
Definition hunk_line (raw_line : string) : option Z :=
  m ← re_match HUNK_HEADER raw_line; s ← dget "line" (mt_groups m); parse_int s.
Definition patch_line (next_line : option Z) (raw_line : string) : option Z * list AddedLine :=
  match hunk_line raw_line with
  | Some n => (Some n, [])
  | None =>
      match next_line with
      | None => (None, [])
      | Some n =>
          if startswith "+" raw_line then (Some (n + 1), [{| al_line := n; al_text := sdrop 1 raw_line |}])
          else if startswith "-" raw_line then (Some n, [])
          else if startswith " " raw_line then (Some (n + 1), [])
          else if startswith "\ No newline" raw_line then (Some n, [])
          else (None, [])
      end
  end.
Fixpoint patch_lines (next_line : option Z) (ls : list string) : list AddedLine :=
  match ls with
  | [] => []
  | l :: ls => let '(next_line, added) := patch_line next_line l in added ++ patch_lines next_line ls
  end.
Definition added_lines_for_path (patch : string) : list AddedLine := patch_lines None (splitlines patch).

(** What Git prints; a command that fails raises. *)
Record git_io := {
  g_write_tree : result string;
  g_name_status : result string;
  g_ls_files : string -> result string;
  g_size : string -> result string;
  g_blob : string -> result string;
  g_patch : string -> result string;
}.

Definition staged_file (g : git_io) (change : string * option string * string) : result StagedFile :=
  let '(st, old, p) := change in
  raw ← g_ls_files g p;
  '(mode, oid) ← index_entry raw p;
  let file size kind added := {| status := st; path := p; old_path := old; fmode := mode; blob_oid := oid;
                                 size := size; kind := kind; added_lines := added |} in
  if bool_decide (mode = "160000"%string) then Ok (file 0 "gitlink"%string [])
  else
    text ← g_size g oid;
    size ← match parse_int text with Some z => Ok z | None => Raise (ValueError "invalid literal for int() with base 10") end;
    if MAX_BLOB_BYTES <? size then Ok (file size "oversize"%string [])
    else
      blob ← g_blob g oid;
      let kind := (if sany (eqc NUL) blob then "binary"
                   else if bool_decide (mode = "120000"%string) then "symlink" else "text")%string in
      if bool_decide (kind = "binary"%string) then Ok (file size kind [])
      else patch ← g_patch g p; Ok (file size kind (added_lines_for_path patch)).
Fixpoint staged_files (g : git_io) (changes : list (string * option string * string)) : result (list StagedFile) :=
  match changes with
  | [] => Ok []
  | c :: changes => f ← staged_file g c; r ← staged_files g changes; Ok (f :: r)
  end.
Definition collect_staged_snapshot (g : git_io) : result StagedSnapshot :=
  tree ← g_write_tree g;
  raw ← g_name_status g;
  changes ← changed_index_paths raw;
  fs ← staged_files g changes;
  Ok {| index_tree := strip tree; files := fs |}.

(** ** Findings *)

Definition fingerprint (value : string) : string := stake 12 (sha256_hex value).

(** [PurePosixPath(s).parts] and [.suffix] *)
Definition path_parts (s : string) : list string :=
  let root := if startswith "//" s && negb (startswith "///" s) then ["//"%string]
              else if startswith "/" s then ["/"%string] else [] in
  root ++ List.filter (fun p => negb (bool_decide (p = EmptyString)) && negb (bool_decide (p = "."%string))) (split_char "/" s).
(** The text from the last dot on. *)
Fixpoint from_last_dot (s : string) : option string :=
  match s with
  | EmptyString => None
  | String c s' => match from_last_dot s' with Some t => Some t | None => if eqc c "." then Some s else None end
  end.
Definition path_suffix (s : string) : string :=
  let name := default EmptyString (last (path_parts s)) in
  match from_last_dot name with
  | Some t => if bool_decide (t = name) || bool_decide (t = "."%string) then EmptyString else t
  | None => EmptyString
  end.

Definition extract_assignment_value (raw : string) : string :=
  let value := strip raw in
  match value with
  | EmptyString => EmptyString
  | String q rest =>
      if bool_decide (q ∈ ["034"; "'"; "`"]%char) then
        match partition (String q EmptyString) rest with Some (v, _) => v | None => rest end
      else strip ((fix cut s := match s with
                   | String c s' => if is_space c || sany (eqc c) ",;#" then EmptyString else String c (cut s')
                   | EmptyString => EmptyString end) value)
  end.

Definition is_placeholder_or_reference (value : string) : bool :=
  let lowered := lower (strip value) in
  bool_decide (lowered ∈ PLACEHOLDER_VALUES) ||
  (startswith "<" lowered || startswith "$" lowered || startswith "{" lowered) ||
  existsb (fun marker => contains marker lowered) ENV_REFERENCE_MARKERS.

(** The groups of the sensitive assignment in a text. *)
Definition assignment_of (text : string) : option (string * string) :=
  m ← re_search SENSITIVE_ASSIGNMENT text;
  n ← dget "name" (mt_groups m); v ← dget "value" (mt_groups m); Some (n, v).
(** The value, when it is a literal one. *)
Definition literal_value (text : string) : option (string * string) :=
  '(name, raw) ← assignment_of text;
  let value := extract_assignment_value raw in
  if (8 <=? String.length value)%nat && negb (is_placeholder_or_reference value) then Some (name, value) else None.

Definition path_credentials (p label candidate : string) : list Finding :=
  omap (fun sp => m ← re_search (sp_regex sp) candidate;
    Some {| category := "credential"; rule := sp_rule sp +:+ "-in-path"; fpath := p;
            message := label +:+ " contains a " +:+ sp_rule sp +:+ " credential shape";
            fline := None; ffingerprint := Some (fingerprint (mt_text m)) |}) SECRET_PATTERNS ++
  match literal_value candidate with
  | Some (_, value) =>
      [{| category := "credential"; rule := "literal-sensitive-assignment-in-path"; fpath := p;
          message := label +:+ " contains a literal value assigned to a sensitive field";
          fline := None; ffingerprint := Some (fingerprint value) |}]
  | None => []
  end.

Definition plain (cat r p msg : string) : Finding :=
  {| category := cat; rule := r; fpath := p; message := msg; fline := None; ffingerprint := None |}.
Definition flag (b : bool) (f : Finding) : list Finding := if b then [f] else [].

Definition path_findings (file : StagedFile) : list Finding :=
  let normalized := replace_char "\" "/" (path file) in
  let lowered := lower normalized in
  let parts := map lower (path_parts normalized) in
  let basename := default lowered (last parts) in
  path_credentials (path file) "path" (path file) ++
  match old_path file with Some old => path_credentials (path file) "rename source path" old | None => [] end ++
  flag (existsb (fun p => bool_decide (p ∈ BACKUP_DIR_COMPONENTS)) parts)
    (plain "backup" "backup-directory" (path file) "files under backup/dump directories must never be committed") ++
  flag (existsb (fun s => endswith s lowered) BLOCKED_SUFFIXES)
    (plain "backup" "blocked-artifact-suffix" (path file) "backup, archive, database, disk, or key artifact suffix is staged") ++
  flag (found (re_search BACKUP_NAME basename) && negb (bool_decide (path_suffix basename ∈ SOURCE_OR_DOC_SUFFIXES)))
    (plain "backup" "backup-filename" (path file) "filename looks like an operational backup, dump, export, or snapshot") ++
  flag (bool_decide (basename = ".env"%string) ||
        (startswith ".env." basename &&
         negb (endswith ".example" basename || endswith ".sample" basename || endswith ".template" basename)))
    (plain "credential" "environment-file" (path file) "non-template environment files must never be committed") ++
  flag (bool_decide (basename ∈ ["id_rsa"; "id_dsa"; "id_ecdsa"; "id_ed25519"]%string))
    (plain "credential" "private-key-filename" (path file) "private-key filename is staged") ++
  (if bool_decide (kind file = "binary"%string) then
     [plain "unreviewable" "binary-change" (path file) "binary changes cannot be safely inspected as staged-only text"]
   else flag (bool_decide (kind file = "oversize"%string))
     (plain "unreviewable" "oversize-blob" (path file) "staged blob exceeds the 20 MiB inspection limit")).

Definition line_findings (p : string) (added : AddedLine) : list Finding :=
  let text := al_text added in
  if MAX_ADDED_LINE_BYTES <? Z.of_nat (String.length text) then
    [{| category := "unreviewable"; rule := "oversize-line"; fpath := p;
        message := "staged line exceeds the 8 KiB inspection limit"; fline := Some (al_line added); ffingerprint := None |}]
  else
    flag (existsb (fun r => found (re_search r text)) DUMP_SIGNATURES)
      {| category := "backup"; rule := "database-dump-content"; fpath := p;
         message := "database dump signature is staged"; fline := Some (al_line added); ffingerprint := None |} ++
    omap (fun sp => m ← re_search (sp_regex sp) text;
      Some {| category := "credential"; rule := sp_rule sp; fpath := p; message := sp_message sp;
              fline := Some (al_line added); ffingerprint := Some (fingerprint (mt_text m)) |}) SECRET_PATTERNS ++
    match literal_value text with
    | Some (name, value) =>
        [{| category := "credential"; rule := "literal-sensitive-assignment"; fpath := p;
            message := "literal value assigned to sensitive field " +:+ repr_str name;
            fline := Some (al_line added); ffingerprint := Some (fingerprint value) |}]
    | None => []
    end.
Definition content_findings (file : StagedFile) : list Finding := flat_map (line_findings (path file)) (added_lines file).

(** The findings of a snapshot, each rule once for a path and line. *)
Definition fkey (f : Finding) : string * string * option Z := (rule f, fpath f, fline f).
Fixpoint unseen (seen : list (string * string * option Z)) (l : list Finding) : list Finding :=
  match l with
  | [] => []
  | f :: l => if bool_decide (fkey f ∈ seen) then unseen seen l else f :: unseen (fkey f :: seen) l
  end.
Definition local_findings (snapshot : StagedSnapshot) : list Finding :=
  unseen [] (flat_map (fun f => path_findings f ++ content_findings f) (files snapshot)).

(** ** Redaction *)

Definition length_text (s : string) : string := str_of_Z (Z.of_nat (String.length s)).
Definition redact_secrets (line : string) : string :=
  foldl (fun t sp => resub (sp_regex sp)
    (fun m => "<redacted-" +:+ sp_rule sp +:+ " length=" +:+ length_text (mt_text m) +:+ ">") t) line SECRET_PATTERNS.
Definition redact_assignment (line : string) : string :=
  match re_search SENSITIVE_ASSIGNMENT line with
  | Some m =>
      match dget "value" (mt_groups m) with
      | Some raw =>
          let value := extract_assignment_value raw in
          if negb (bool_decide (value = EmptyString)) && negb (is_placeholder_or_reference value)
          then stake (String.length line - String.length (after (mt_end m)) - String.length raw) line
                 +:+ "<redacted-sensitive-value>"
          else line
      | None => line
      end
  | None => line
  end.

Definition classes (value : string) : nat :=
  (if sany is_lower value then 1 else 0) + (if sany is_upper value then 1 else 0) +
  (if sany is_digit value then 1 else 0) + (if sany (fun c => sany (eqc c) "_+/=-") value then 1 else 0).

Section decision.
Context {F : Type} `{PyFloat F}.

(** [log2] is the binary logarithm of the C library. *)
Context (log2 : F -> F).

(** The characters of a text, each once; the source takes them in the order of a set,
    which is not specified. *)
Fixpoint distinct (seen s : string) : list ascii :=
  match s with
  | EmptyString => []
  | String c s => if sany (eqc c) seen then distinct seen s else c :: distinct (String c seen) s
  end.
Fixpoint count_char (c : ascii) (s : string) : Z :=
  match s with EmptyString => 0 | String d s => (if eqc c d then 1 else 0) + count_char c s end.
Definition shannon_entropy (value : string) : F :=
  if bool_decide (value = EmptyString) then f_of_Z 0
  else
    let n := f_of_Z (Z.of_nat (String.length value)) in
    f_opp (f_sum (map (fun c => let p := f_div (f_of_Z (count_char c value)) n in f_mul p (log2 p)) (distinct EmptyString value))).

Definition redact_tokenish (m : mtch) : string :=
  let value := mt_text m in
  if (2 <=? classes value)%nat && f_leb (f_lit 35 (-1)) (shannon_entropy value)
  then "<redacted-token-like length=" +:+ length_text value +:+ ">" else value.
Definition redact_line (line : string) : string := resub TOKENISH redact_tokenish (redact_assignment (redact_secrets line)).

(** ** The redacted snapshot *)

Definition agent_file (file : StagedFile) : json F :=
  JObj [("status", JStr (status file)); ("path", JStr (redact_line (path file)));
        ("oldPath", match old_path file with Some o => JStr (redact_line o) | None => JNull end);
        ("mode", JStr (fmode file)); ("size", JInt (size file)); ("kind", JStr (kind file));
        ("addedLines", JArr (map (fun a => JObj [("line", JInt (al_line a)); ("text", JStr (redact_line (al_text a)))])
                               (added_lines file)))]%string.
Definition agent_payload (snapshot : StagedSnapshot) : result (json F) :=
  let payload := JObj [("schemaVersion", JInt 1); ("indexTree", JStr (index_tree snapshot));
    ("scope", JStr "Git index versus HEAD; added staged lines only; no worktree content");
    ("files", JArr (map agent_file (files snapshot)))]%string in
  let encoded := Z.of_nat (String.length (dumps_with "," ":" payload)) in
  if MAX_AGENT_PAYLOAD_BYTES <? encoded then
    Raise (GuardError ("redacted staged payload is " +:+ str_of_Z encoded +:+ " bytes, above the " +:+
      str_of_Z MAX_AGENT_PAYLOAD_BYTES +:+ " byte review limit; split the commit"))
  else Ok payload.

(** ** The environment of the agents *)

Definition SAFE_SMITHERS_ENV_KEYS : list string :=
  ["CODEX_HOME"; "HOME"; "LANG"; "LC_ALL"; "LC_CTYPE"; "LOGNAME"; "NODE_EXTRA_CA_CERTS"; "PATH"; "SHELL";
   "SSL_CERT_DIR"; "SSL_CERT_FILE"; "TERM"; "TMPDIR"; "TZ"; "USER"]%string.
Definition kept_environment (environ : odict string) : odict string :=
  omap (fun key => v ← dget key environ; if bool_decide (v = EmptyString) then None else Some (key, v))
    SAFE_SMITHERS_ENV_KEYS.
Definition smithers_environment (environ : odict string) (defpath temp_dir db_path agent_dir : string) : odict string :=
  let environment := kept_environment environ in
  let environment := if dmem "PATH" environment then environment else dset "PATH" defpath environment in
  dupdate environment [("ATTESTMESH_PRECOMMIT_AGENT_CWD", agent_dir); ("ATTESTMESH_PRECOMMIT_INPUT_DIR", temp_dir);
                       ("SMITHERS_DB_PATH", db_path)]%string.

(** ** The reviewers' database *)

(** A value of a SQLite column. *)
Inductive sqlval := SNull | SInt (z : Z) | SReal (f : F) | SText (s : string) | SBlob (s : string).
(** Python's [==] with the integer 1 *)
Definition is_one (v : sqlval) : bool :=
  match v with SInt z => z =? 1 | SReal f => f_eqb f (f_of_Z 1) | _ => false end.

(** The rows the three queries return, or the error of the database; [loads] is
    [json.loads]. *)
Record review_db := {
  rv_reviews : result (list (sqlval * sqlval * sqlval));   (* node, clear, findings *)
  rv_verdicts : result (list (sqlval * sqlval));           (* allowed, findings *)
  rv_enforce : result (list sqlval);
  rv_loads : string -> option (json F);
}.

Definition parse_json_array (loads : string -> option (json F)) (v : sqlval) (field : string) : result (list (json F)) :=
  match v with
  | SText s =>
      match loads s with
      | None => Raise (GuardError ("Smithers stored malformed " +:+ field +:+ " JSON"))
      | Some (JArr l) => Ok l
      | Some _ => Raise (GuardError ("Smithers stored a non-array " +:+ field +:+ " value"))
      end
  | _ => Raise (GuardError ("Smithers stored an invalid " +:+ field +:+ " value"))
  end.

Definition expected_reviewers : list string := ["adversarial-review"; "backup-review"; "credential-review"]%string.
(** [reviewer_ids == expected] as sets, together with the number of rows. *)
Definition all_reviewed (rows : list (sqlval * sqlval * sqlval)) : bool :=
  forallb (fun r => match r.1.1 with SText s => bool_decide (s ∈ expected_reviewers) | _ => false end) rows &&
  forallb (fun e => existsb (fun r => match r.1.1 with SText s => bool_decide (s = e) | _ => false end) rows) expected_reviewers &&
  (length rows =? length expected_reviewers)%nat.
Fixpoint specialists (loads : string -> option (json F)) (rows : list (sqlval * sqlval * sqlval)) : result unit :=
  match rows with
  | [] => Ok tt
  | r :: rows =>
      parsed ← parse_json_array loads r.2 "specialist findings";
      raise! GuardError "a Smithers specialist rejected the staged changes"
        when negb (is_one r.1.2) || negb (bool_decide (length parsed = 0%nat));
      specialists loads rows
  end.

(** A database error becomes a guard error, a guard error is passed on. *)
Definition db_rows {A} (m : result A) : result A :=
  match m with Ok a => Ok a | Raise _ => Raise (GuardError "could not verify the private Smithers result database") end.

Definition verify_smithers_result (d : review_db) : result unit :=
  review_rows ← db_rows (rv_reviews d);
  raise! GuardError "Smithers did not persist every required specialist review" when negb (all_reviewed review_rows);
  _ ← specialists (rv_loads d) review_rows;
  verdict_rows ← db_rows (rv_verdicts d);
  match verdict_rows with
  | [(allowed, findings)] =>
      let rejected : result unit := Raise (GuardError "Smithers agentic review rejected the staged changes") in
      _ ← (if is_one allowed then
             parsed ← parse_json_array (rv_loads d) findings "verdict findings";
             if bool_decide (length parsed = 0%nat) then Ok tt else rejected
           else rejected);
      enforcement_rows ← db_rows (rv_enforce d);
      match enforcement_rows with
      | [ok] => if is_one ok then Ok tt
                else Raise (GuardError "Smithers did not persist a successful enforcement decision")
      | _ => Raise (GuardError "Smithers did not persist a successful enforcement decision")
      end
  | _ => Raise (GuardError "Smithers did not persist exactly one final verdict")
  end.

(** ** The review *)

(** What the review finds outside: the tools, the workflow file, the exit code of the
    run for the payload it is given, and the database it leaves. *)
Record smithers_io := {
  sm_bun : bool;
  sm_codex : bool;
  sm_entrypoint : result unit;
  sm_workflow : bool;
  sm_run : json F -> result Z;
  sm_db : review_db;
}.
Definition run_smithers_review (snapshot : StagedSnapshot) (io : smithers_io) : result unit :=
  raise! GuardError "Bun is required; install Bun and run deploy/install-precommit-security.sh" when negb (sm_bun io);
  raise! GuardError "Codex CLI is required; install it and authenticate with codex login" when negb (sm_codex io);
  _ ← sm_entrypoint io;
  raise! GuardError "the Smithers pre-commit security workflow is missing" when negb (sm_workflow io);
  payload ← agent_payload snapshot;
  code ← sm_run io payload;
  raise! GuardError "Smithers gpt-5.6-sol/ultra review failed or rejected the staged changes" when negb (code =? 0);
  verify_smithers_result (sm_db io).

Definition has_agent_reviewable_changes (snapshot : StagedSnapshot) : bool :=
  existsb (fun f => negb (bool_decide (length (added_lines f) = 0%nat))) (files snapshot).

(** [guard]: the exit code; [tree_after] is the index after the review. *)
Definition guard (g : git_io) (io : smithers_io) (tree_after : result string) : result Z :=
  snapshot ← collect_staged_snapshot g;
  if bool_decide (length (files snapshot) = 0%nat) then Ok 0
  else if negb (bool_decide (length (local_findings snapshot) = 0%nat)) then Ok 1
  else if negb (has_agent_reviewable_changes snapshot) then Ok 0
  else
    _ ← run_smithers_review snapshot io;
    after ← tree_after;
    raise! GuardError "the Git index changed during review; rerun the commit"
      when negb (bool_decide (strip after = index_tree snapshot));
    Ok 0.

(** [main]: a guard error ends with exit code 1, any other exception is not caught. *)
Definition main (toplevel : result string) (repo : string) (g : git_io) (io : smithers_io)
    (tree_after : result string) : result Z :=
  match
    (top ← toplevel;
     raise! GuardError ("--repo must be the Git top level (" +:+ top +:+ ")") when negb (bool_decide (top = repo));
     guard g io tree_after)
  with
  | Raise (OtherError cls msg) => if bool_decide (cls = "GuardError"%string) then Ok 1 else Raise (OtherError cls msg)
  | r => r
  end.

Definition format_finding (f : Finding) : string :=
  let location := redact_line (fpath f) in
  let location := match fline f with Some l => location +:+ ":" +:+ str_of_Z l | None => location end in
  let suffix := match ffingerprint f with Some p => "; fingerprint=" +:+ p | None => EmptyString end in
  "  - " +:+ location +:+ " [" +:+ rule f +:+ "] " +:+ message f +:+ suffix.
End decision.
Arguments review_db F : clear implicits.
Arguments smithers_io F : clear implicits.
Arguments sqlval F : clear implicits.
