(* ===== verification/BudgetConfig.v ===== *)
(** * Budget proxy: settings and payload guards

    [deploy/hindsight-budget-proxy/budget_proxy.py], the part above
    [BudgetState]: [Settings.from_env], [guard_fingerprint], [_token_cost] and
    the two functions that prepare a provider payload. *)

From stdpp Require Import base option list strings.
From Stdlib Require Import ZArith Lia Ascii.
From S2P Require Import Prelude PyStr PyFloat PyTime Json.

Local Open Scope Z_scope.
Local Open Scope py_scope.

Definition MAX_BODY_BYTES : Z := 4000000.
Definition MAX_COMPLETION_TOKENS : Z := 8192.

(** [os.getenv]: the process environment. *)
Abbreviation environ := (string -> option string).
Definition getenv (env : environ) (name dflt : string) : string := default dflt (env name).

Definition HINDSIGHT_MODEL (env : environ) : string :=
  strip (getenv env "HINDSIGHT_MODEL" "openai/gpt-oss-120b").
Definition QWEN_MODEL (env : environ) : string :=
  strip (getenv env "QWEN_MODEL" "qwen/qwen3-embedding-8b").

Section config.
Context {F : Type} `{PyFloat F}.

(** [float(os.getenv(name, default))] *)
Definition env_float (env : environ) (name dflt : string) : result F :=
  match parse_number (getenv env name dflt) with
  | Some l => Ok (f_of_lit l)
  | None => Raise (SystemExit (name +:+ " must be numeric"))
  end.

Definition _positive_float (env : environ) (name dflt : string) : result F :=
  value ← env_float env name dflt;
  raise! (SystemExit (name +:+ " must be positive")) when f_leb value (f_of_Z 0);
  Ok value.

Definition _nonnegative_float (env : environ) (name dflt : string) : result F :=
  value ← env_float env name dflt;
  raise! (SystemExit (name +:+ " must not be negative")) when f_ltb value (f_of_Z 0);
  Ok value.

Definition _positive_int (env : environ) (name dflt : string) : result Z :=
  match parse_int (getenv env name dflt) with
  | None => Raise (SystemExit (name +:+ " must be an integer"))
  | Some value =>
      raise! (SystemExit (name +:+ " must be positive")) when value <=? 0; Ok value
  end.

Record Settings := {
  provider_base_url : string;
  provider_api_key : string;
  proxy_api_key : string;
  provider_egress_enabled : bool;
  provider_total_limit_usd : F;
  provider_safety_margin_usd : F;
  hindsight_phase : string;
  hindsight_backfill_limit_usd : F;
  hindsight_monthly_limit_usd : F;
  qwen_monthly_limit_usd : F;
  rpm_limit : Z;
  tpm_limit : Z;
  prices : odict (F * F);
  initial_provider_spend_usd : F;
}.

Definition effective_provider_limit (s : Settings) : F :=
  f_sub (provider_total_limit_usd s) (provider_safety_margin_usd s).

Definition from_env (env : environ) : result Settings :=
  let provider_key := strip (getenv env "PROVIDER_API_KEY" "") in
  let proxy_key := strip (getenv env "PROXY_API_KEY" "") in
  raise! (SystemExit "PROVIDER_API_KEY is required") when bool_decide (provider_key = "");
  raise! (SystemExit "PROXY_API_KEY is required") when bool_decide (proxy_key = "");
  raise! (SystemExit "PROXY_API_KEY must differ from PROVIDER_API_KEY")
    when bool_decide (provider_key = proxy_key);
  let phase := lower (strip (getenv env "HINDSIGHT_BUDGET_PHASE" "backfill")) in
  raise! (SystemExit "HINDSIGHT_BUDGET_PHASE must be backfill or monthly")
    when negb (bool_decide (phase = "backfill") || bool_decide (phase = "monthly"));
  total ← _positive_float env "PROVIDER_TOTAL_LIMIT_USD" "50";
  margin ← _nonnegative_float env "PROVIDER_SAFETY_MARGIN_USD" "0.50";
  raise! (SystemExit "PROVIDER_SAFETY_MARGIN_USD must be below the total limit")
    when f_leb total margin;
  backfill ← _positive_float env "HINDSIGHT_BACKFILL_LIMIT_USD" "30";
  monthly ← _positive_float env "HINDSIGHT_MONTHLY_LIMIT_USD" "10";
  qwen ← _positive_float env "QWEN_MONTHLY_LIMIT_USD" "5";
  rpm ← _positive_int env "PROXY_RPM_LIMIT" "30";
  tpm ← _positive_int env "PROXY_TPM_LIMIT" "1000000";
  h_in ← _positive_float env "HINDSIGHT_INPUT_USD_PER_M"
           (getenv env "GPT_OSS_120B_INPUT_USD_PER_M" "0.15");
  h_out ← _positive_float env "HINDSIGHT_OUTPUT_USD_PER_M"
            (getenv env "GPT_OSS_120B_OUTPUT_USD_PER_M" "0.60");
  q_in ← _positive_float env "QWEN_INPUT_USD_PER_M" "0.01";
  q_out ← _nonnegative_float env "QWEN_OUTPUT_USD_PER_M" "0";
  initial ← _nonnegative_float env "INITIAL_PROVIDER_SPEND_USD" "0";
  let settings := {|
    provider_base_url := rstrip_char "/"%char (getenv env "PROVIDER_BASE_URL" "https://api.redpill.ai/v1");
    provider_api_key := provider_key;
    proxy_api_key := proxy_key;
    provider_egress_enabled :=
      bool_decide (lower (strip (getenv env "PROVIDER_EGRESS_ENABLED" "false"))
                   ∈ ["1"; "true"; "yes"; "on"]);
    provider_total_limit_usd := total;
    provider_safety_margin_usd := margin;
    hindsight_phase := phase;
    hindsight_backfill_limit_usd := backfill;
    hindsight_monthly_limit_usd := monthly;
    qwen_monthly_limit_usd := qwen;
    rpm_limit := rpm;
    tpm_limit := tpm;
    prices := dset (QWEN_MODEL env) (q_in, q_out) (dset (HINDSIGHT_MODEL env) (h_in, h_out) []);
    initial_provider_spend_usd := initial
  |} in
  raise! (SystemExit "backfill limit exceeds the effective provider limit")
    when f_ltb (effective_provider_limit settings) (hindsight_backfill_limit_usd settings);
  Ok settings.

(** The part of the settings a ledger file is bound to. *)
Record fingerprint := {
  fp_total : F;
  fp_margin : F;
  fp_backfill : F;
  fp_monthly : F;
  fp_qwen : F;
  fp_prices : odict (F * F);
}.

Definition guard_fingerprint (s : Settings) : fingerprint := {|
  fp_total := provider_total_limit_usd s;
  fp_margin := provider_safety_margin_usd s;
  fp_backfill := hindsight_backfill_limit_usd s;
  fp_monthly := hindsight_monthly_limit_usd s;
  fp_qwen := qwen_monthly_limit_usd s;
  fp_prices := dsort (prices s)
|}.

(** [==] on two fingerprints read from different objects. *)
Fixpoint prices_eqb (a b : odict (F * F)) : bool :=
  match a, b with
  | [], [] => true
  | (k, (i, o)) :: a, (k', (i', o')) :: b =>
      bool_decide (k = k') && f_eqb i i' && f_eqb o o' && prices_eqb a b
  | _, _ => false
  end.
Definition fingerprint_eqb (a b : fingerprint) : bool :=
  f_eqb (fp_total a) (fp_total b) && f_eqb (fp_margin a) (fp_margin b) &&
  f_eqb (fp_backfill a) (fp_backfill b) && f_eqb (fp_monthly a) (fp_monthly b) &&
  f_eqb (fp_qwen a) (fp_qwen b) && prices_eqb (fp_prices a) (fp_prices b).

(** [utc_month] *)
Definition utc_month (now : instant) : string := year_month now.

Definition _token_cost (p : F * F) (input_tokens output_tokens : Z) : result F :=
  i ← f_int input_tokens;
  o ← f_int output_tokens;
  Ok (f_div (f_add (f_mul i p.1) (f_mul o p.2)) (f_of_Z 1000000)).

(** [except (TypeError, ValueError) as exc: raise GuardViolation(msg)] *)
Definition guard_int (j : json F) (msg : string) : result Z :=
  match json_int j with
  | Raise (TypeError _) | Raise (ValueError _) => Raise (GuardViolation msg)
  | r => r
  end.

Definition prompt_bytes (j : json F) : Z := Z.max 1 (Z.of_nat (String.length (dumps j))).

Definition prepare_chat_payload (hindsight_model : string) (value : json F)
    : result (odict (json F) * Z * Z) :=
  match value with
  | JObj payload =>
      raise! (GuardViolation "chat model is outside the production allowlist")
        when negb (eq_str hindsight_model (default JNull (dget "model" payload)));
      raise! (GuardViolation "streaming is disabled so usage can be metered")
        when otruthy (dget "stream" payload);
      let maximum :=
        default (default (JInt 8192) (dget "max_tokens" payload))
                (dget "max_completion_tokens" payload) in
      max_tokens ← guard_int maximum "completion-token ceiling must be an integer";
      raise! (GuardViolation "completion-token ceiling must be between 1 and 8192")
        when negb ((0 <? max_tokens) && (max_tokens <=? MAX_COMPLETION_TOKENS));
      raise! (GuardViolation "reasoning_effort must be low")
        when negb (eq_str "low" (default (JStr "low") (dget "reasoning_effort" payload)));
      raise! (GuardViolation "include_reasoning must be false")
        when (match jget "include_reasoning" payload with
              | None => false
              | Some j => negb (eq_false j)
              end);
      raise! (GuardViolation "strict structured output is disabled")
        when (match r ← dget "response_format" payload; r ← as_obj r;
                    s ← dget "json_schema" r; s ← as_obj s; dget "strict" s with
              | Some (JBool true) => true
              | _ => false
              end);
      let payload := dset "reasoning_effort" (JStr "low") payload in
      let payload := dset "include_reasoning" (JBool false) payload in
      let payload := dset "max_completion_tokens" (JInt max_tokens) payload in
      let payload := dpop "max_tokens" payload in
      let messages :=
        match dget "messages" payload with
        | Some j => if truthy j then j else JArr []
        | None => JArr []
        end in
      Ok (payload, prompt_bytes messages, max_tokens)
  | _ => Raise (GuardViolation "request body must be a JSON object")
  end.

Definition is_str (j : json F) : bool := match j with JStr _ => true | _ => false end.

Definition prepare_embedding_payload (qwen_model : string) (value : json F)
    : result (odict (json F) * Z * Z) :=
  match value with
  | JObj payload =>
      raise! (GuardViolation "embedding model is outside the production allowlist")
        when negb (eq_str qwen_model (default JNull (dget "model" payload)));
      materialized ←
        match dget "input" payload with
        | Some (JStr s) => Ok [JStr s]
        | Some (JArr l) =>
            if negb (bool_decide (length l = 0%nat)) && forallb is_str l then Ok l
            else Raise (GuardViolation "embedding input must be a non-empty string or string list")
        | _ => Raise (GuardViolation "embedding input must be a non-empty string or string list")
        end;
      raise! (GuardViolation "embedding batch exceeds 64 texts")
        when (64 <? Z.of_nat (length materialized));
      payload ←
        match jget "dimensions" payload with
        | None => Ok payload
        | Some j =>
            dimensions ← guard_int j "embedding dimensions must be an integer";
            raise! (GuardViolation "embedding dimensions are outside 1..4096")
              when negb ((1 <=? dimensions) && (dimensions <=? 4096));
            Ok (dset "dimensions" (JInt dimensions) payload)
        end;
      Ok (payload, prompt_bytes (JArr materialized), 0)
  | _ => Raise (GuardViolation "request body must be a JSON object")
  end.
End config.
Arguments Settings F : clear implicits.
Arguments fingerprint F : clear implicits.
