(* ===== verification/BudgetState.v ===== *)
(** * Budget proxy: the ledger and the circuit

    [deploy/hindsight-budget-proxy/budget_proxy.py], class [BudgetState].  The
    object in memory is a [mem]; the two JSON files it persists are a [disk];
    every method is one critical section (it runs under [self.lock]) and returns
    the new object with the file writes it issues, in order, so that a crash can
    be placed between any two of them. *)

From stdpp Require Import base option list strings.
From Stdlib Require Import ZArith Lia.
From S2P Require Import Prelude PyStr PyFloat PyTime Json BudgetConfig.

Local Open Scope Z_scope.
Local Open Scope py_scope.

Section state.
Context {F : Type} `{PyFloat F}.

(** ** Data *)

Record reservation := {
  rs_input_tokens : Z;
  rs_output_tokens : Z;
  rs_total_tokens : Z;
  rs_cost_usd : F;
}.

(** An entry of [value["in_flight"]]. *)
Record item := {
  it_model : string;
  it_endpoint : string;
  it_scope : string;
  it_period : string;
  it_started_at : instant;
  it_reservation : reservation;
}.

(** An entry of [ledger["calls"]]. *)
Record call := {
  cl_at : instant;
  cl_started_at : instant;
  cl_request_id : string;
  cl_endpoint : string;
  cl_model : string;
  cl_scope : string;
  cl_period : string;
  cl_input_tokens : Z;
  cl_output_tokens : Z;
  cl_cost_usd : F;
  cl_provider_reported_cost_usd : option F;
  cl_estimated_from_reservation : bool;
  cl_ambiguous_upstream_reconciled : bool;
}.

Record ledger := {
  lg_guard : fingerprint F;
  lg_initial_provider_spend_usd : F;
  lg_provider_spent_usd : F;
  lg_calls : list call;
}.

(** The state file; the last three fields are written by the operator tools. *)
Record value := {
  vl_circuit_open : bool;
  vl_reason : option string;
  vl_in_flight : odict item;
  vl_consumed_reset_tokens : list string;
  vl_last_reset : option (instant * string * string);
  vl_last_reconciliation : option (instant * Z * F);
}.

Record mem := { m_ledger : ledger; m_value : value }.
Record disk := { d_ledger : option ledger; d_value : option value }.

(** Field updates. *)
Definition with_in_flight (q : odict item) (v : value) : value := {|
  vl_circuit_open := vl_circuit_open v; vl_reason := vl_reason v; vl_in_flight := q;
  vl_consumed_reset_tokens := vl_consumed_reset_tokens v;
  vl_last_reset := vl_last_reset v; vl_last_reconciliation := vl_last_reconciliation v |}.
Definition with_circuit (o : bool) (r : option string) (v : value) : value := {|
  vl_circuit_open := o; vl_reason := r; vl_in_flight := vl_in_flight v;
  vl_consumed_reset_tokens := vl_consumed_reset_tokens v;
  vl_last_reset := vl_last_reset v; vl_last_reconciliation := vl_last_reconciliation v |}.

(** [atomic_json]: a temporary file renamed over the target, so a write
    happens entirely or not at all; keys are written in sorted order. *)
Inductive write := WLedger (l : ledger) | WValue (v : value).
Definition file_of (v : value) : value := with_in_flight (dsort (vl_in_flight v)) v.
Definition atomic_json (w : write) (d : disk) : disk :=
  match w with
  | WLedger l => {| d_ledger := Some l; d_value := d_value d |}
  | WValue v => {| d_ledger := d_ledger d; d_value := Some (file_of v) |}
  end.
Definition atomic_jsons (ws : list write) (d : disk) : disk :=
  foldl (fun d w => atomic_json w d) d ws.

Definition add_call (c : call) (l : ledger) : ledger := {|
  lg_guard := lg_guard l;
  lg_initial_provider_spend_usd := lg_initial_provider_spend_usd l;
  lg_provider_spent_usd := f_add (lg_provider_spent_usd l) (cl_cost_usd c);
  lg_calls := lg_calls l ++ [c] |}.

(** ** [BudgetState.__init__] *)

Definition fresh_ledger (s : Settings F) : ledger := {|
  lg_guard := guard_fingerprint s;
  lg_initial_provider_spend_usd := initial_provider_spend_usd s;
  lg_provider_spent_usd := initial_provider_spend_usd s;
  lg_calls := [] |}.
Definition fresh_value : value := {|
  vl_circuit_open := false; vl_reason := None; vl_in_flight := [];
  vl_consumed_reset_tokens := []; vl_last_reset := None; vl_last_reconciliation := None |}.

Definition RESTART_REASON : string := "ambiguous in-flight requests found after proxy restart".

(** The writes are returned also when the constructor raises: the ledger file
    is created before it is checked.  A ledger created in this run holds the
    fingerprint's own objects, which [==] takes as equal without comparing. *)
Definition init (s : Settings F) (d : disk) : list write * result mem :=
  let '(lg, w1, fresh) :=
    match d_ledger d with
    | Some l => (l, [], false)
    | None => (fresh_ledger s, [WLedger (fresh_ledger s)], true)
    end in
  let checks :=
    raise! (SystemExit "persisted ledger guard does not match configured limits/prices")
      when negb (fresh || fingerprint_eqb (lg_guard lg) (guard_fingerprint s));
    raise! (SystemExit "persisted initial provider spend does not match configuration")
      when f_ltb (f_lit 1 (-12))
             (f_abs (f_sub (lg_initial_provider_spend_usd lg) (initial_provider_spend_usd s)));
    raise! (SystemExit "persisted provider spend already exceeds the effective limit")
      when f_ltb (effective_provider_limit s) (lg_provider_spent_usd lg);
    Ok tt in
  match checks with
  | Raise e => (w1, Raise e)
  | Ok _ =>
      let '(v, w2) :=
        match d_value d with
        | Some v => (v, [])
        | None => (fresh_value, [WValue fresh_value])
        end in
      let '(v, w3) :=
        match vl_in_flight v with
        | [] => (v, [])
        | _ => let v' := with_circuit true (Some RESTART_REASON) v in (v', [WValue v'])
        end in
      (w1 ++ w2 ++ w3, Ok {| m_ledger := lg; m_value := v |})
  end.

(** ** Sums over the ledger and the reservations *)

Definition _scope_for (s : Settings F) (endpoint : string) (now : instant)
    : string * string * F :=
  if bool_decide (endpoint = "embeddings") then
    ("qwen_monthly", utc_month now, qwen_monthly_limit_usd s)
  else if bool_decide (hindsight_phase s = "backfill") then
    ("hindsight_backfill", "all", hindsight_backfill_limit_usd s)
  else ("hindsight_monthly", utc_month now, hindsight_monthly_limit_usd s).

Definition in_scope (scope period : string) (sc pe : string) : bool :=
  bool_decide (sc = scope) && bool_decide (pe = period).

Definition _scope_spend (m : mem) (scope period : string) : F :=
  f_sum (map cl_cost_usd
    (List.filter (fun c => in_scope scope period (cl_scope c) (cl_period c))
       (lg_calls (m_ledger m)))).

Definition item_cost (it : item) : F := rs_cost_usd (it_reservation it).

(** [_pending_cost] with no scope, and with a scope and a period. *)
Definition _pending_cost (m : mem) (sp : option (string * string)) : F :=
  f_sum (map item_cost
    (List.filter (fun it =>
        match sp with
        | None => true
        | Some (scope, period) => in_scope scope period (it_scope it) (it_period it)
        end)
      (dvalues (vl_in_flight (m_value m))))).

(** ** Rate limiting *)

Definition window_entry (now started : instant) (tokens : Z) : list (F * Z) :=
  let age := f_sub (timestamp now) (timestamp started) in
  if f_leb (f_of_Z 0) age && f_ltb age (f_of_Z 60) then [(timestamp started, tokens)] else [].

Definition recent (m : mem) (now : instant) : list (F * Z) :=
  flat_map (fun c => window_entry now (cl_started_at c) (cl_input_tokens c + cl_output_tokens c))
    (lg_calls (m_ledger m)) ++
  flat_map (fun it => window_entry now (it_started_at it) (rs_total_tokens (it_reservation it)))
    (dvalues (vl_in_flight (m_value m))).

(** [min(...)] of a non-empty list keeps the first of equal elements. *)
Definition f_min_list (x : F) (l : list F) : F :=
  foldl (fun acc y => if f_ltb y acc then y else acc) x l.

Definition tokens_of (r : list (F * Z)) : Z := foldr Z.add 0 (map snd r).

Definition _rate_delay (s : Settings F) (m : mem) (reservation_tokens : Z) (now : instant)
    : result F :=
  let r := recent m now in
  raise! (GuardViolation "single request exceeds the configured TPM limit")
    when tpm_limit s <? reservation_tokens;
  let rpm_blocked := rpm_limit s <=? Z.of_nat (length r) in
  let tpm_blocked := tpm_limit s <? tokens_of r + reservation_tokens in
  if negb rpm_blocked && negb tpm_blocked then Ok (f_of_Z 0)
  else match r with
       | [] => Ok (f_of_Z 1)
       | (t, _) :: r' =>
           Ok (f_max (f_lit 5 (-2))
                 (f_sub (f_of_Z 60) (f_sub (timestamp now) (f_min_list t (map fst r')))))
       end.

(** ** [reserve] *)

Inductive attempt :=
  | Wait (delay : F)                                  (* sleep and take the lock again *)
  | Reserved (m : mem) (ws : list write) (rid : string) (it : item).

(** The price and the scope are fixed before the lock is taken. *)
Definition reserve_quote (s : Settings F) (endpoint model : string) (input output : Z)
    (now : instant) : result (F * (string * string * F)) :=
  match dget model (prices s) with
  | None => Raise (KeyError model)
  | Some p => cost ← _token_cost p input output; Ok (cost, _scope_for s endpoint now)
  end.

Definition reserve_guard (s : Settings F) (m : mem) (cost : F) (scope period : string)
    (scope_limit : F) : result unit :=
  raise! (BudgetViolation
            (match vl_reason (m_value m) with
             | Some r => if bool_decide (r = EmptyString) then "circuit open" else r
             | None => "circuit open"
             end))
    when vl_circuit_open (m_value m);
  raise! (BudgetViolation "provider-total local safety ceiling would be exceeded")
    when f_ltb (effective_provider_limit s)
           (f_add (f_add (lg_provider_spent_usd (m_ledger m)) (_pending_cost m None)) cost);
  raise! (BudgetViolation (scope +:+ " local budget would be exceeded"))
    when f_ltb scope_limit
           (f_add (f_add (_scope_spend m scope period) (_pending_cost m (Some (scope, period)))) cost);
  Ok tt.

(** One turn of the [while True] loop; [rid] is the fresh [uuid4]. *)
Definition reserve_turn (s : Settings F) (m : mem) (endpoint model : string) (input output : Z)
    (quote : F * (string * string * F)) (now : instant) (rid : string) : result attempt :=
  let '(cost, (scope, period, scope_limit)) := quote in
  _ ← reserve_guard s m cost scope period scope_limit;
  delay ← _rate_delay s m (input + output) now;
  if f_leb delay (f_of_Z 0) then
    let it := {|
      it_model := model; it_endpoint := endpoint; it_scope := scope; it_period := period;
      it_started_at := now;
      it_reservation := {| rs_input_tokens := input; rs_output_tokens := output;
                           rs_total_tokens := input + output; rs_cost_usd := cost |} |} in
    let v := with_in_flight (dset rid it (vl_in_flight (m_value m))) (m_value m) in
    Ok (Reserved {| m_ledger := m_ledger m; m_value := v |} [WValue v] rid it)
  else Ok (Wait delay).

(** The loop when no other thread intervenes: [clock] is what the successive
    [datetime.now] calls return, and [None] means the loop is still waiting
    when the readings run out. *)
Fixpoint reserve_loop (s : Settings F) (m : mem) (endpoint model : string) (input output : Z)
    (quote : F * (string * string * F)) (clock : list instant) (rid : string)
    : option (result (mem * list write * string * item)) :=
  match clock with
  | [] => None
  | now :: clock =>
      match reserve_turn s m endpoint model input output quote now rid with
      | Raise e => Some (Raise e)
      | Ok (Reserved m' ws rid it) => Some (Ok (m', ws, rid, it))
      | Ok (Wait _) => reserve_loop s m endpoint model input output quote clock rid
      end
  end.

(** ** [open_circuit], [discard] *)

Definition open_circuit (m : mem) (reason : string) (keep_request : bool)
    (request_id : option string) : mem * list write :=
  let v := m_value m in
  let v :=
    match keep_request, request_id with
    | false, Some rid =>
        if bool_decide (rid = EmptyString) then v
        else with_in_flight (dpop rid (vl_in_flight v)) v
    | _, _ => v
    end in
  let v := with_circuit true (Some reason) v in
  ({| m_ledger := m_ledger m; m_value := v |}, [WValue v]).

Definition discard (m : mem) (request_id : string) : mem * list write :=
  let v := with_in_flight (dpop request_id (vl_in_flight (m_value m))) (m_value m) in
  ({| m_ledger := m_ledger m; m_value := v |}, [WValue v]).

(** ** [record] *)

(** [usage.get(k, usage.get(k'))] *)
Definition usage_get (usage : odict (json F)) (k k' : string) : option (json F) :=
  match dget k usage with
  | Some j => jget k usage
  | None => jget k' usage
  end.

Definition reported_cost (usage : odict (json F)) : result F :=
  match json_float (default JNull (dget "cost" usage)) with
  | Raise (TypeError _) | Raise (ValueError _) => Ok (f_of_Z 0)
  | r => r
  end.

(** The call [record] appends, computed from the reservation and the usage. *)
Definition record_call (s : Settings F) (request_id : string) (it : item)
    (usage : odict (json F)) (now : instant) : result call :=
  let rsv := it_reservation it in
  let reported_input := usage_get usage "prompt_tokens" "input_tokens" in
  let reported_output := usage_get usage "completion_tokens" "output_tokens" in
  let reported_total := jget "total_tokens" usage in
  input ← json_int (default (JInt (rs_input_tokens rsv)) reported_input);
  output ← json_int (default (JInt (rs_output_tokens rsv)) reported_output);
  output ← match reported_total with
           | None => Ok output
           | Some j => total ← json_int j; Ok (Z.max output (Z.max 0 (total - input)))
           end;
  price ← match dget (it_model it) (prices s) with
          | Some p => Ok p
          | None => Raise (KeyError (it_model it))
          end;
  calculated ← _token_cost price input output;
  provider_reported ← reported_cost usage;
  Ok {|
    cl_at := now; cl_started_at := it_started_at it; cl_request_id := request_id;
    cl_endpoint := it_endpoint it; cl_model := it_model it; cl_scope := it_scope it;
    cl_period := it_period it; cl_input_tokens := input; cl_output_tokens := output;
    cl_cost_usd := f_max calculated provider_reported;
    cl_provider_reported_cost_usd :=
      if f_truthy provider_reported then Some provider_reported else None;
    cl_estimated_from_reservation :=
      bool_decide (reported_input = None) || bool_decide (reported_output = None);
    cl_ambiguous_upstream_reconciled := false |}.

(** The ledger file is written before the state file. *)
Definition record (s : Settings F) (m : mem) (request_id : string) (usage : odict (json F))
    (now : instant) : result (mem * list write * call) :=
  match dget request_id (vl_in_flight (m_value m)) with
  | None => Raise (GuardViolation "in-flight reservation disappeared before recording")
  | Some it =>
      c ← record_call s request_id it usage now;
      let lg := add_call c (m_ledger m) in
      let v := with_in_flight (dpop request_id (vl_in_flight (m_value m))) (m_value m) in
      Ok ({| m_ledger := lg; m_value := v |}, [WLedger lg; WValue v], c)
  end.

(** ** [health] *)

Record health_report := {
  h_status : string;
  h_circuit_open : bool;
  h_circuit_reason : option string;
  h_in_flight : Z;
  h_provider_spent_usd : F;
  h_provider_effective_limit_usd : F;
  h_hindsight_phase : string;
  h_provider_egress_enabled : bool;
  h_hindsight_backfill_spent_usd : F;
  h_hindsight_monthly_spent_usd : F;
  h_qwen_monthly_spent_usd : F;
  h_month_utc : string;
  h_hindsight_model : string;
}.

Definition health (hindsight_model : string) (s : Settings F) (m : mem) (now : instant)
    : health_report :=
  let month := utc_month now in
  {| h_status :=
       if vl_circuit_open (m_value m) then "circuit_open"
       else if negb (provider_egress_enabled s) then "maintenance" else "healthy";
     h_circuit_open := vl_circuit_open (m_value m);
     h_circuit_reason := vl_reason (m_value m);
     h_in_flight := Z.of_nat (length (vl_in_flight (m_value m)));
     h_provider_spent_usd := lg_provider_spent_usd (m_ledger m);
     h_provider_effective_limit_usd := effective_provider_limit s;
     h_hindsight_phase := hindsight_phase s;
     h_provider_egress_enabled := provider_egress_enabled s;
     h_hindsight_backfill_spent_usd := _scope_spend m "hindsight_backfill" "all";
     h_hindsight_monthly_spent_usd := _scope_spend m "hindsight_monthly" month;
     h_qwen_monthly_spent_usd := _scope_spend m "qwen_monthly" month;
     h_month_utc := month;
     h_hindsight_model := hindsight_model |}.
End state.

Arguments reservation F : clear implicits.
Arguments item F : clear implicits.
Arguments call F : clear implicits.
Arguments ledger F : clear implicits.
Arguments value F : clear implicits.
Arguments mem F : clear implicits.
Arguments disk F : clear implicits.
Arguments write F : clear implicits.
Arguments attempt F : clear implicits.
Arguments health_report F : clear implicits.

(** ** Limits bound to a ledger

    The limits in force are those of the fingerprint stored in the ledger file,
    whatever the settings of later runs say. *)

Section limits.
Context {F : Type} `{PyFloat F}.

Definition g_effective (g : fingerprint F) : F := f_sub (fp_total g) (fp_margin g).
Definition g_scope (g : fingerprint F) (scope : string) : option F :=
  if bool_decide (scope = "qwen_monthly") then Some (fp_qwen g)
  else if bool_decide (scope = "hindsight_backfill") then Some (fp_backfill g)
  else if bool_decide (scope = "hindsight_monthly") then Some (fp_monthly g)
  else None.

Definition nonneg (a : F) : Prop := f_leb (f_of_Z 0) a = true.
Definition calls_cost (l : list (call F)) : F := f_sum (map cl_cost_usd l).

(** The running total is the initial spend plus the cost of every call. *)
Definition conserved (l : ledger F) : Prop :=
  lg_provider_spent_usd l = f_add (lg_initial_provider_spend_usd l) (calls_cost (lg_calls l)).

Definition q_pending (p : item F -> bool) (q : odict (item F)) : F :=
  f_sum (map item_cost (List.filter p (dvalues q))).
Definition any_item (it : item F) : bool := true.
Definition item_in (scope period : string) (it : item F) : bool :=
  in_scope scope period (it_scope it) (it_period it).
Definition l_spend (scope period : string) (l : ledger F) : F :=
  f_sum (map cl_cost_usd
    (List.filter (fun c => in_scope scope period (cl_scope c) (cl_period c)) (lg_calls l))).

(** What was spent and what is reserved stay under both ceilings. *)
Record within_budget (l : ledger F) (q : odict (item F)) : Prop := {
  wb_distinct : NoDup (dkeys q);
  wb_nonneg : Forall (fun it => nonneg (item_cost it)) (dvalues q);
  wb_total :
    f_leb (f_add (lg_provider_spent_usd l) (q_pending any_item q)) (g_effective (lg_guard l)) = true;
  wb_scope : forall scope period limit, g_scope (lg_guard l) scope = Some limit ->
    f_leb (f_add (l_spend scope period l) (q_pending (item_in scope period) q)) limit = true;
}.

Definition configured (s : Settings F) (l : ledger F) : Prop :=
  guard_fingerprint s = lg_guard l.
Definition prices_nonneg (s : Settings F) : Prop :=
  Forall (fun kv => nonneg kv.2.1 /\ nonneg kv.2.2) (prices s).
End limits.

Section lemmas.
Context {F : Type} `{ExactFloat F}.
Implicit Types (q : odict (item F)) (it : item F) (m : mem F) (l : ledger F).

Lemma q_pending_nil p : q_pending (F := F) p [] = f_of_Z 0.
Proof. apply fsum_nil. Qed.

Lemma q_pending_cons p k it q :
  q_pending p ((k, it) :: q) =
  if p it then f_add (item_cost it) (q_pending p q) else q_pending p q.
Proof. unfold q_pending. simpl. destruct (p it); [apply fsum_cons | done]. Qed.

Lemma q_pending_perm p q q' : q ≡ₚ q' -> q_pending p q = q_pending p q'.
Proof.
  induction 1 as [|[] ?? _ IH|[] [] ?|]; rewrite ?q_pending_cons; [done| | |congruence].
  - by rewrite IH.
  - destruct (p i), (p i0); try done.
    by rewrite <- !fadd_assoc, (fadd_comm (item_cost i)).
Qed.

(** Adding a fresh reservation adds its cost to the sums it belongs to. *)
Lemma q_pending_dset p k it q : dget k q = None ->
  q_pending p (dset k it q) =
  if p it then f_add (q_pending p q) (item_cost it) else q_pending p q.
Proof.
  intros Hk. rewrite dset_fresh by done.
  rewrite (q_pending_perm _ _ ((k, it) :: q)) by (by rewrite Permutation_app_comm).
  rewrite q_pending_cons. destruct (p it); [apply fadd_comm | done].
Qed.

Lemma q_pending_dpop p k it q : dget k q = Some it ->
  q_pending p q =
  if p it then f_add (item_cost it) (q_pending p (dpop k q)) else q_pending p (dpop k q).
Proof.
  intros Hk. rewrite (q_pending_perm _ _ _ (dpop_Permutation _ _ _ Hk)). apply q_pending_cons.
Qed.

Lemma _pending_cost_any m : _pending_cost m None = q_pending any_item (vl_in_flight (m_value m)).
Proof. done. Qed.
Lemma _pending_cost_scope m scope period :
  _pending_cost m (Some (scope, period)) = q_pending (item_in scope period) (vl_in_flight (m_value m)).
Proof. done. Qed.

Lemma dvalues_dpop_Forall (P : item F -> Prop) k q :
  Forall P (dvalues q) -> Forall P (dvalues (dpop k q)).
Proof.
  unfold dvalues. induction q as [|[a x] q IH]; simpl; [done|].
  rewrite Forall_cons. intros [Hx Hq]. case_bool_decide; [done|].
  simpl. rewrite Forall_cons. auto.
Qed.

Lemma within_budget_perm l q q' : q ≡ₚ q' -> within_budget l q -> within_budget l q'.
Proof.
  intros Hp [Hd Hn Ht Hs]. split.
  - unfold dkeys in *. by rewrite <- Hp.
  - unfold dvalues in *. by rewrite <- Hp.
  - by rewrite <- (q_pending_perm _ _ _ Hp).
  - intros. rewrite <- (q_pending_perm _ _ _ Hp). by apply Hs.
Qed.

(** Dropping a reservation keeps both ceilings. *)
Lemma within_budget_dpop l k q : within_budget l q -> within_budget l (dpop k q).
Proof.
  intros [Hd Hn Ht Hs]. destruct (dget k q) as [it|] eqn:E; [|by rewrite dpop_absent].
  assert (nonneg (item_cost it)) as Hit.
  { rewrite Forall_forall in Hn. apply Hn. apply dget_Some_elem in E.
    apply list_elem_of_fmap. by exists (k, it). }
  split.
  - by apply dpop_NoDup.
  - by apply dvalues_dpop_Forall.
  - eapply fleb_trans; [|exact Ht]. rewrite fadd_leb_l, (q_pending_dpop any_item k it q) by done.
    simpl. rewrite fadd_comm. by apply fleb_add_nonneg.
  - intros sc pe lim Hl. eapply fleb_trans; [|by apply Hs].
    rewrite fadd_leb_l, (q_pending_dpop (item_in sc pe) k it q) by done.
    destruct (item_in sc pe it); [|apply fleb_refl].
    rewrite fadd_comm. by apply fleb_add_nonneg.
Qed.

Lemma g_scope_for (s : Settings F) endpoint now sc pe lim :
  _scope_for s endpoint now = (sc, pe, lim) -> g_scope (guard_fingerprint s) sc = Some lim.
Proof.
  unfold _scope_for. intros Hf. repeat case_bool_decide; by injection Hf as <- <- <-.
Qed.

Lemma dget_prices s k p : prices_nonneg s -> dget k (prices s) = Some p -> nonneg p.1 /\ nonneg p.2.
Proof. intros Hp Hk%dget_Some_elem. unfold prices_nonneg in Hp. rewrite Forall_forall in Hp. by apply (Hp (k, p)). Qed.

Lemma _token_cost_Ok (p : F * F) i o :
  _token_cost p i o =
  Ok (f_div (f_add (f_mul (f_of_Z i) p.1) (f_mul (f_of_Z o) p.2)) (f_of_Z 1000000)).
Proof. unfold _token_cost. by rewrite !fint_Ok. Qed.

Lemma _token_cost_nonneg p i o c :
  nonneg p.1 -> nonneg p.2 -> 0 <= i -> 0 <= o -> _token_cost p i o = Ok c -> nonneg c.
Proof.
  intros H1 H2 Hi Ho. rewrite _token_cost_Ok. intros [= <-]. unfold nonneg in *.
  apply fdiv_nonneg; [done|]. apply fadd_nonneg; apply fmul_nonneg; try done.
  all: rewrite fof_Z_leb; by apply Z.leb_le.
Qed.

(** More tokens never cost less. *)
Lemma _token_cost_mono p i o i' o' c c' :
  nonneg p.1 -> nonneg p.2 -> i <= i' -> o <= o' ->
  _token_cost p i o = Ok c -> _token_cost p i' o' = Ok c' -> f_leb c c' = true.
Proof.
  intros H1 H2 Hi Ho. rewrite !_token_cost_Ok. intros [= <-] [= <-].
  apply fdiv_leb; [done|]. apply fadd_leb_compat; apply fmul_leb; try done.
  all: rewrite fof_Z_leb; by apply Z.leb_le.
Qed.

Lemma reserve_quote_nonneg s endpoint model i o now cost sc :
  prices_nonneg s -> 0 <= i -> 0 <= o ->
  reserve_quote s endpoint model i o now = Ok (cost, sc) -> nonneg cost.
Proof.
  intros Hp Hi Ho. unfold reserve_quote. destruct (dget model (prices s)) as [p|] eqn:E; [|done].
  intros Hq. inv_ok. simplify_eq/=. destruct (dget_prices _ _ _ Hp E).
  by apply (_token_cost_nonneg p i o).
Qed.

Lemma reserve_guard_Ok s m cost sc pe lim u :
  reserve_guard s m cost sc pe lim = Ok u ->
  vl_circuit_open (m_value m) = false /\
  f_leb (f_add (f_add (lg_provider_spent_usd (m_ledger m)) (_pending_cost m None)) cost)
    (effective_provider_limit s) = true /\
  f_leb (f_add (f_add (_scope_spend m sc pe) (_pending_cost m (Some (sc, pe)))) cost) lim = true.
Proof. unfold reserve_guard. intros Hg. inv_ok. rewrite <- !fltb_false_leb. auto. Qed.

(** A granted reservation: what it checked and what it stored. *)
Lemma reserve_turn_Reserved s m endpoint model i o cost sc pe lim now rid m' ws rid' it :
  reserve_turn s m endpoint model i o (cost, (sc, pe, lim)) now rid = Ok (Reserved m' ws rid' it) ->
  reserve_guard s m cost sc pe lim = Ok tt /\
  rid' = rid /\ item_cost it = cost /\ it_scope it = sc /\ it_period it = pe /\
  m' = {| m_ledger := m_ledger m;
          m_value := with_in_flight (dset rid it (vl_in_flight (m_value m))) (m_value m) |} /\
  ws = [WValue (m_value m')].
Proof.
  unfold reserve_turn. intros Hr. inv_ok.
  destruct (f_leb _ _); [|done]. by simplify_eq/=.
Qed.

Lemma reserve_turn_within s m endpoint model i o qt now0 now rid m' ws rid' it :
  configured s (m_ledger m) -> prices_nonneg s -> 0 <= i -> 0 <= o ->
  dget rid (vl_in_flight (m_value m)) = None ->
  reserve_quote s endpoint model i o now0 = Ok qt ->
  reserve_turn s m endpoint model i o qt now rid = Ok (Reserved m' ws rid' it) ->
  within_budget (m_ledger m) (vl_in_flight (m_value m)) ->
  within_budget (m_ledger m') (vl_in_flight (m_value m')).
Proof.
  destruct qt as [cost [[sc pe] lim]]. intros Hc Hp Hi Ho Hfresh Hq Hr Hwb.
  assert (nonneg cost) as Hcost by (by exact (reserve_quote_nonneg _ _ _ _ _ _ _ _ Hp Hi Ho Hq)).
  assert (_scope_for s endpoint now0 = (sc, pe, lim)) as Hsc.
  { unfold reserve_quote in Hq. destruct (dget model (prices s)); [|done].
    inv_ok. by simplify_eq. }
  apply reserve_turn_Reserved in Hr as (Hg & -> & Hit & Hits & Hitp & -> & ->).
  apply reserve_guard_Ok in Hg as (_ & Ht & Hs).
  rewrite _pending_cost_any in Ht. rewrite _pending_cost_scope in Hs.
  change (_scope_spend m sc pe) with (l_spend sc pe (m_ledger m)) in Hs.
  destruct Hwb as [Hd Hn _ Hscope]. simpl. split.
  - by apply dset_NoDup.
  - rewrite dset_fresh by done. unfold dvalues in *. rewrite fmap_app, Forall_app. split; [done|].
    simpl. rewrite Forall_singleton. by rewrite Hit.
  - rewrite q_pending_dset by done. simpl. rewrite Hit.
    rewrite <- fadd_assoc. by rewrite <- Hc.
  - intros sc' pe' lim' Hl. rewrite q_pending_dset by done.
    destruct (item_in sc' pe' it) eqn:Ei; [|by apply Hscope].
    unfold item_in, in_scope in Ei. rewrite Hits, Hitp in Ei.
    apply andb_prop in Ei as [E1 E2]. apply bool_decide_eq_true in E1, E2. subst.
    apply g_scope_for in Hsc. rewrite Hc in Hsc. rewrite Hl in Hsc. injection Hsc as ->.
    by rewrite <- fadd_assoc.
Qed.

Lemma l_spend_add_call sc pe c l :
  l_spend sc pe (add_call c l) =
  if in_scope sc pe (cl_scope c) (cl_period c)
  then f_add (l_spend sc pe l) (cl_cost_usd c) else l_spend sc pe l.
Proof.
  unfold l_spend, add_call. simpl. rewrite List.filter_app, map_app, fsum_app. simpl.
  destruct (in_scope _ _ _ _); simpl; [by rewrite fsum_singleton|].
  rewrite fsum_nil. apply fadd_0_r.
Qed.

(** Replacing a reservation by a call that costs no more keeps both ceilings. *)
Lemma add_call_within l k q it c :
  dget k q = Some it -> cl_scope c = it_scope it -> cl_period c = it_period it ->
  f_leb (cl_cost_usd c) (item_cost it) = true ->
  within_budget l q -> within_budget (add_call c l) (dpop k q).
Proof.
  intros E Hsc Hpe Hle Hwb. destruct (within_budget_dpop l k q Hwb) as [Hd Hn _ Hs'].
  destruct Hwb as [_ _ Ht Hs].
  assert (forall a r lim, f_leb (f_add a (f_add (item_cost it) r)) lim = true ->
          f_leb (f_add (f_add a (cl_cost_usd c)) r) lim = true) as Hmove.
  { intros a r lim. rewrite fadd_assoc. apply fleb_trans.
    rewrite fadd_leb_l. by rewrite fadd_leb. }
  split; [done|done| |].
  - simpl. apply Hmove. by rewrite (q_pending_dpop any_item k it q) in Ht.
  - intros sc pe lim Hl. rewrite l_spend_add_call, Hsc, Hpe.
    specialize (Hs sc pe lim Hl). rewrite (q_pending_dpop _ k it q) in Hs by done.
    unfold item_in in *. destruct (in_scope sc pe (it_scope it) (it_period it)); [by apply Hmove|done].
Qed.

Lemma record_call_fields s rid it usage now (c : call F) :
  record_call s rid it usage now = Ok c ->
  cl_scope c = it_scope it /\ cl_period c = it_period it /\ cl_request_id c = rid /\
  cl_model c = it_model it /\ cl_started_at c = it_started_at it.
Proof. unfold record_call. intros Hr. inv_ok. simpl. auto. Qed.

Lemma record_Ok s m rid usage now m' ws c :
  record s m rid usage now = Ok (m', ws, c) ->
  exists it, dget rid (vl_in_flight (m_value m)) = Some it /\
  record_call s rid it usage now = Ok c /\
  m_ledger m' = add_call c (m_ledger m) /\
  m_value m' = with_in_flight (dpop rid (vl_in_flight (m_value m))) (m_value m) /\
  ws = [WLedger (m_ledger m'); WValue (m_value m')].
Proof.
  unfold record. destruct (dget rid _) as [it|] eqn:E; [|done]. intros Hr. inv_ok.
  simplify_eq/=. eauto 10.
Qed.

Lemma conserved_add_call (c : call F) l : conserved l -> conserved (add_call c l).
Proof.
  unfold conserved, calls_cost. simpl. intros ->.
  rewrite map_app, fsum_app. simpl. by rewrite fsum_singleton, fadd_assoc.
Qed.

Lemma prices_eqb_true (a b : odict (F * F)) : prices_eqb a b = true -> a = b.
Proof.
  revert b. induction a as [|[k [i o]] a IH]; intros [|[k' [i' o']] b]; simpl; try done.
  rewrite !andb_true_iff, bool_decide_eq_true.
  intros [[[-> ->%feqb_true] ->%feqb_true] ->%IH]. done.
Qed.
Lemma fingerprint_eqb_true (a b : fingerprint F) : fingerprint_eqb a b = true -> a = b.
Proof.
  destruct a, b. unfold fingerprint_eqb. simpl. rewrite !andb_true_iff.
  intros [[[[[->%feqb_true ->%feqb_true] ->%feqb_true] ->%feqb_true] ->%feqb_true] ->%prices_eqb_true].
  done.
Qed.

Lemma file_of_in_flight (v : value F) : vl_in_flight (file_of v) ≡ₚ vl_in_flight v.
Proof. apply dsort_Permutation. Qed.
End lemmas.
