(* ===== verification/BudgetTools.v ===== *)
(** * Budget proxy: the operator tools

    [deploy/hindsight-budget-proxy/reconcile_ambiguous.py] and
    [reset_provider_auth.py].  Both work on the files of a stopped proxy. *)

From stdpp Require Import base option list strings.
From Stdlib Require Import ZArith Lia.
From S2P Require Import Prelude PyStr PyFloat PyTime Sha256 Json BudgetConfig BudgetState.

Local Open Scope Z_scope.
Local Open Scope py_scope.

Definition file_not_found : exn := OtherError "FileNotFoundError" "No such file or directory".

(** What a tool prints: that nothing was needed, with the reason, or its result. *)
Inductive printed (A : Type) := Skipped (reason : string) | Done (a : A).
Arguments Skipped {A}.
Arguments Done {A}.

Section tools.
Context {F : Type} `{PyFloat F}.

(** ** [reconcile] *)

Record reconciled := {
  rc_requests : Z;
  rc_charged_maximum_usd : F;
  rc_provider_spent_usd : F;
}.

Definition reconcile_call (now : instant) (rid : string) (it : item F) : call F := {|
  cl_at := now; cl_started_at := it_started_at it; cl_request_id := rid;
  cl_endpoint := it_endpoint it; cl_model := it_model it; cl_scope := it_scope it;
  cl_period := it_period it;
  cl_input_tokens := rs_input_tokens (it_reservation it);
  cl_output_tokens := rs_output_tokens (it_reservation it);
  cl_cost_usd := item_cost it;
  cl_provider_reported_cost_usd := None;
  cl_estimated_from_reservation := true;
  cl_ambiguous_upstream_reconciled := true |}.

Definition reconcile_ledger (now : instant) (items : odict (item F)) (charged : F)
    (l : ledger F) : ledger F := {|
  lg_guard := lg_guard l;
  lg_initial_provider_spend_usd := lg_initial_provider_spend_usd l;
  lg_provider_spent_usd := f_add (lg_provider_spent_usd l) charged;
  lg_calls := lg_calls l ++ map (fun kv => reconcile_call now kv.1 kv.2) items |}.

Definition reconcile (acknowledgement : bool) (d : disk F) (now : instant)
    : result (list (write F) * reconciled) :=
  raise! (ValueError "maximum-spend acknowledgement is required") when negb acknowledgement;
  match d_ledger d, d_value d with
  | Some l, Some v =>
      raise! (ValueError "proxy has no ambiguous reservations")
        when bool_decide (length (vl_in_flight v) = 0%nat);
      let items := dsort (vl_in_flight v) in
      let charged := foldl (fun acc kv => f_add acc (item_cost kv.2)) (f_of_Z 0) items in
      let n := Z.of_nat (length (vl_in_flight v)) in
      let l' := reconcile_ledger now items charged l in
      let v' := {|
        vl_circuit_open := false; vl_reason := None; vl_in_flight := [];
        vl_consumed_reset_tokens := vl_consumed_reset_tokens v;
        vl_last_reset := vl_last_reset v;
        vl_last_reconciliation := Some (now, n, charged) |} in
      Ok ([WLedger l'; WValue v'],
          {| rc_requests := n; rc_charged_maximum_usd := charged;
             rc_provider_spent_usd := lg_provider_spent_usd l' |})
  | _, _ => Raise file_not_found
  end.

Definition reconcile_main (if_needed acknowledgement : bool) (d : disk F) (now : instant)
    : result (list (write F) * printed reconciled) :=
  let run := '(ws, r) ← reconcile acknowledgement d now; Ok (ws, Done r) in
  if if_needed then
    match d_value d with
    | None => Ok ([], Skipped "state file absent")
    | Some v => if bool_decide (length (vl_in_flight v) = 0%nat)
                then Ok ([], Skipped "no ambiguous reservation") else run
    end
  else run.

(** ** [reset_provider_auth_circuit] *)

Definition RESETTABLE_REASONS : list string :=
  ["provider returned 401"; "provider returned 402"]%string.

Record reset_result := { rr_previous_reason : string; rr_at : instant }.

Definition reset_provider_auth_circuit (acknowledgement : bool) (reset_token : string)
    (d : disk F) (now : instant) : result (list (write F) * reset_result) :=
  raise! (ValueError "validated-provider-credential acknowledgement is required")
    when negb acknowledgement;
  raise! (ValueError "a non-empty one-shot reset token is required")
    when bool_decide (reset_token = EmptyString);
  match d_value d with
  | None => Raise file_not_found
  | Some v =>
      raise! (ValueError "proxy circuit is not open") when negb (vl_circuit_open v);
      raise! (ValueError "proxy has ambiguous in-flight reservations")
        when negb (bool_decide (length (vl_in_flight v) = 0%nat));
      let reason := default EmptyString (vl_reason v) in
      raise! (ValueError ("circuit reason is not a provider-auth failure: '" +:+ reason +:+ "'"))
        when negb (bool_decide (reason ∈ RESETTABLE_REASONS));
      let token_sha256 := sha256_hex reset_token in
      raise! (ValueError "one-shot reset token has already been consumed")
        when bool_decide (token_sha256 ∈ vl_consumed_reset_tokens v);
      let v' := {|
        vl_circuit_open := false; vl_reason := None; vl_in_flight := vl_in_flight v;
        vl_consumed_reset_tokens := vl_consumed_reset_tokens v ++ [token_sha256];
        vl_last_reset := Some (now, reason, token_sha256);
        vl_last_reconciliation := vl_last_reconciliation v |} in
      Ok ([WValue v'], {| rr_previous_reason := reason; rr_at := now |})
  end.

Definition reset_main (if_needed acknowledgement : bool) (reset_token : string)
    (d : disk F) (now : instant) : result (list (write F) * printed reset_result) :=
  let run :=
    '(ws, r) ← reset_provider_auth_circuit acknowledgement reset_token d now; Ok (ws, Done r) in
  if if_needed then
    match d_value d with
    | None => Ok ([], Skipped "state file absent")
    | Some v => if vl_circuit_open v then run else Ok ([], Skipped "circuit already closed")
    end
  else run.
End tools.
Arguments reconciled F : clear implicits.

Section lemmas.
Context {F : Type} `{ExactFloat F}.
Implicit Types (q : odict (item F)) (l : ledger F).

Lemma foldl_cost q (a : F) :
  foldl (fun acc kv => f_add acc (item_cost kv.2)) a q = f_add a (q_pending any_item q).
Proof.
  revert a. induction q as [|[k it] q IH]; intros a; simpl.
  - by rewrite q_pending_nil, fadd_0_r.
  - rewrite IH, q_pending_cons. simpl. by rewrite fadd_assoc.
Qed.

Lemma calls_cost_reconciled now q :
  calls_cost (map (fun kv => reconcile_call now kv.1 kv.2) q) = q_pending any_item q.
Proof.
  unfold calls_cost. induction q as [|[k it] q IH]; simpl; [by rewrite q_pending_nil, fsum_nil|].
  by rewrite fsum_cons, q_pending_cons, IH.
Qed.

Lemma l_spend_reconciled sc pe now q charged l :
  l_spend sc pe (reconcile_ledger now q charged l) =
  f_add (l_spend sc pe l) (q_pending (item_in sc pe) q).
Proof.
  unfold l_spend. simpl. rewrite List.filter_app, map_app, fsum_app. f_equal.
  induction q as [|[k it] q IH]; simpl; [by rewrite q_pending_nil, fsum_nil|].
  rewrite q_pending_cons. unfold item_in at 1.
  destruct (in_scope sc pe _ _); [|done]. simpl. by rewrite fsum_cons, IH.
Qed.

(** Charging every reservation at its maximum keeps the ceilings: what was
    pending becomes spent. *)
Lemma reconcile_within now q l :
  within_budget l q ->
  within_budget (reconcile_ledger now q (q_pending any_item q) l) [].
Proof.
  intros [Hd Hn Ht Hs]. split.
  - apply NoDup_nil_2.
  - apply Forall_nil_2.
  - simpl. rewrite q_pending_nil, fadd_0_r. exact Ht.
  - intros sc pe lim Hl. rewrite l_spend_reconciled, q_pending_nil, fadd_0_r. by apply Hs.
Qed.

Lemma reconcile_conserved now q l :
  conserved l -> conserved (reconcile_ledger now q (q_pending any_item q) l).
Proof.
  unfold conserved. simpl. intros ->. unfold calls_cost.
  rewrite map_app, fsum_app. fold (calls_cost (map (fun kv => reconcile_call now kv.1 kv.2) q)).
  rewrite calls_cost_reconciled. apply fadd_assoc.
Qed.

Lemma reconcile_Ok ack (d : disk F) now ws r :
  reconcile ack d now = Ok (ws, r) ->
  exists l v, ack = true /\ d_ledger d = Some l /\ d_value d = Some v /\ vl_in_flight v <> [] /\
    (let q := dsort (vl_in_flight v) in
    let l' := reconcile_ledger now q (q_pending any_item q) l in
    exists v', ws = [WLedger l'; WValue v'] /\ vl_in_flight v' = [] /\
      vl_circuit_open v' = false /\ vl_reason v' = None /\
      rc_provider_spent_usd r = lg_provider_spent_usd l' /\
      rc_charged_maximum_usd r = q_pending any_item q /\
      rc_requests r = Z.of_nat (length (vl_in_flight v))).
Proof.
  unfold reconcile. intros Hr. inv_ok.
  destruct (d_ledger d) as [l|]; [|done]. destruct (d_value d) as [v|]; [|done].
  inv_ok. rewrite foldl_cost, fadd_0_l in *. simplify_eq/=.
  exists l, v. rewrite bool_decide_eq_false in *. rewrite negb_false_iff in *.
  split_and!; [done|done|done| |].
  - intros E. rewrite E in *. simpl in *. done.
  - eexists. split_and!; done.
Qed.

Lemma reset_Ok ack tok (d : disk F) now ws r :
  reset_provider_auth_circuit ack tok d now = Ok (ws, r) ->
  exists v v', ack = true /\ d_value d = Some v /\ vl_circuit_open v = true /\ vl_in_flight v = [] /\
    default EmptyString (vl_reason v) ∈ RESETTABLE_REASONS /\
    (sha256_hex tok ∉ vl_consumed_reset_tokens v) /\
    ws = [WValue v'] /\ vl_in_flight v' = [] /\ vl_circuit_open v' = false /\ vl_reason v' = None /\
    vl_consumed_reset_tokens v' = vl_consumed_reset_tokens v ++ [sha256_hex tok].
Proof.
  unfold reset_provider_auth_circuit. intros Hr. inv_ok.
  destruct (d_value d) as [v|]; [|done]. inv_ok. simplify_eq/=.
  rewrite ?negb_false_iff, ?bool_decide_eq_true, ?bool_decide_eq_false in *.
  match goal with Hn : length _ = 0%nat |- _ => apply nil_length_inv in Hn end.
  exists v. eexists. split_and!; done.
Qed.
End lemmas.
