(* ===== verification/BudgetServer.v ===== *)
(** * Budget proxy: the HTTP handler and the life of the process

    [deploy/hindsight-budget-proxy/budget_proxy.py], class [ProxyHandler], and the
    transition system of a proxy that handles requests on many threads, crashes,
    restarts under any configuration, and is repaired with the operator tools.

    A POST runs in parts, one per critical section: [post_prepare] reads and checks
    the request, [post_reserve] is one turn of the reservation loop, [post_finish]
    is what happens with the provider's answer, and the two [except] branches,
    [post_violation] and [post_ambiguous], take the lock again to open the circuit.
    Between the parts other threads run.  The provider (reached through httpx) is
    the argument [upstream]. *)

From stdpp Require Import base option list strings.
From Stdlib Require Import ZArith Lia Ascii.
From S2P Require Import Prelude PyStr PyFloat PyTime Json BudgetConfig BudgetState BudgetTools.

Local Open Scope Z_scope.
Local Open Scope py_scope.

Section server.
Context {F : Type} `{PyFloat F}.

(** [rq_authorization] and [rq_content_length] are [headers.get] with the
    defaults of the source; [rq_body] is what [json.loads] makes of the body. *)
Record request := {
  rq_path : string;
  rq_authorization : string;
  rq_content_length : string;
  rq_body : result (json F);
}.

Inductive reply :=
  | RError (status : Z) (message : string)        (* {"error": {"message": ...}} *)
  | RStatus (status : Z) (text : string) (upstream_status : option Z)
  | RHealth (h : health_report F)
  | RModels (ids : list string)
  | RForward (status : Z)                         (* the provider's answer *)
  | RAborted (e : exn).                           (* the handler died *)

Definition authorized (s : Settings F) (rq : request) : bool :=
  bool_decide ("Bearer " +:+ proxy_api_key s = rq_authorization rq).

(** [do_GET]; [probe] is the provider's process health: a status or an exception. *)
Definition do_GET (hindsight_model qwen_model : string) (s : Settings F) (m : mem F)
    (rq : request) (probe : result Z) (now : instant) : reply :=
  let path := rstrip_char "/"%char (rq_path rq) in
  if bool_decide (path = "/health") then RHealth (health hindsight_model s m now)
  else if bool_decide (path = "/upstream-health") then
    if negb (authorized s rq) then RError 401 "invalid proxy key"
    else if negb (provider_egress_enabled s) then RStatus 503 "maintenance" None
    else match probe with
         | Ok st => if st <? 400 then RStatus 200 "healthy" (Some st)
                    else RStatus 502 "unhealthy" (Some st)
         | Raise e => RStatus 502 "unreachable" None
         end
  else if bool_decide (path = "/v1/models") then
    if negb (authorized s rq) then RError 401 "invalid proxy key"
    else RModels [hindsight_model; qwen_model]
  else RError 404 "not found".

(** A request that passed every check that does not depend on the ledger. *)
Record job := {
  j_endpoint : string;
  j_payload : odict (json F);
  j_model : string;
  j_input : Z;
  j_output : Z;
  j_quote : F * (string * string * F);
}.

Definition answer_of (e : exn) : reply :=
  match e with
  | GuardViolation msg | ValueError msg => RError 400 msg
  | e => RAborted e
  end.

Definition read_body (rq : request) : result (json F) :=
  match parse_int (rq_content_length rq) with
  | None => Raise (ValueError "invalid literal for int() with base 10")
  | Some length =>
      raise! (GuardViolation "request body length is outside the proxy limit")
        when negb ((0 <? length) && (length <=? MAX_BODY_BYTES));
      rq_body rq
  end.

Definition post_job (hindsight_model qwen_model : string) (s : Settings F) (endpoint : string)
    (rq : request) (now : instant) : result job :=
  body ← read_body rq;
  '(payload, input, output) ←
    (if bool_decide (endpoint = "chat") then prepare_chat_payload hindsight_model body
     else prepare_embedding_payload qwen_model body);
  let model := json_str (default JNull (dget "model" payload)) in
  quote ← reserve_quote s endpoint model input output now;
  Ok {| j_endpoint := endpoint; j_payload := payload; j_model := model;
        j_input := input; j_output := output; j_quote := quote |}.

Definition post_prepare (hindsight_model qwen_model : string) (s : Settings F) (rq : request)
    (now : instant) : reply + job :=
  let path := rstrip_char "/"%char (rq_path rq) in
  let endpoint :=
    if bool_decide (path = "/v1/chat/completions") then Some "chat"%string
    else if bool_decide (path = "/v1/embeddings") then Some "embeddings"%string
    else None in
  match endpoint with
  | None => inl (RError 404 "not found")
  | Some endpoint =>
      if negb (authorized s rq) then inl (RError 401 "invalid proxy key")
      else if negb (provider_egress_enabled s) then inl (RError 503 "provider egress disabled")
      else match post_job hindsight_model qwen_model s endpoint rq now with
           | Ok j => inr j
           | Raise e => inl (answer_of e)
           end
  end.

Inductive outcome :=
  | Answer (r : reply)
  | Sleeping (delay : F)
  | Violated (msg : string)       (* [except BudgetViolation] comes next *)
  | Sent (rid : string).          (* the provider call is made now *)

Definition post_reserve (s : Settings F) (m : mem F) (j : job) (now : instant) (rid : string)
    : mem F * list (write F) * outcome :=
  match reserve_turn s m (j_endpoint j) (j_model j) (j_input j) (j_output j) (j_quote j) now rid with
  | Ok (Reserved m' ws rid _) => (m', ws, Sent rid)
  | Ok (Wait d) => (m, [], Sleeping d)
  | Raise (BudgetViolation msg) => (m, [], Violated msg)
  | Raise e => (m, [], Answer (answer_of e))
  end.

Definition post_violation (m : mem F) (msg : string) : mem F * list (write F) * reply :=
  let '(m', ws) := open_circuit m msg false None in (m', ws, RError 402 msg).

(** What httpx gives back: an exception, or a status and what [response.json()]
    yields. *)
Inductive upstream :=
  | UpRaised (e : exn)
  | UpResponse (status : Z) (body : result (json F)).

Definition attribute_error : exn := OtherError "AttributeError" "object has no attribute 'get'".

(** [body.get("usage") or {}] *)
Definition usage_of (body : json F) : result (odict (json F)) :=
  match body with
  | JObj d =>
      match dget "usage" d with
      | Some u => if truthy u then
                    match u with JObj u => Ok u | _ => Raise attribute_error end
                  else Ok []
      | None => Ok []
      end
  | _ => Raise attribute_error
  end.

Inductive finish :=
  | Replied (r : reply)
  | Failed (e : exn).             (* [except Exception] comes next *)

Definition post_finish (s : Settings F) (m : mem F) (rid : string) (up : upstream) (now : instant)
    : mem F * list (write F) * finish :=
  match up with
  | UpRaised e => (m, [], Failed e)
  | UpResponse status body =>
      if (status =? 401) || (status =? 402) then
        let '(m', ws) :=
          open_circuit m ("provider returned " +:+ str_of_Z status) false (Some rid) in
        (m', ws, Replied (RForward status))
      else if status <? 400 then
        match body ← body; usage ← usage_of body; record s m rid usage now with
        | Ok (m', ws, _) => (m', ws, Replied (RForward status))
        | Raise e => (m, [], Failed e)
        end
      else let '(m', ws) := discard m rid in (m', ws, Replied (RForward status))
  end.

Definition post_ambiguous (m : mem F) (rid : string) (e : exn) : mem F * list (write F) * reply :=
  let '(m', ws) := open_circuit m ("ambiguous upstream failure: " +:+ exn_name e) true (Some rid) in
  (m', ws, RError 502 "ambiguous upstream failure").

(** ** The process *)

Inductive action :=
  | ATurn (j : job) (now : instant) (rid : string)
  | AViolation (msg : string)
  | AFinish (rid : string) (up : upstream) (now : instant)
  | AAmbiguous (rid : string) (e : exn).

Definition act (s : Settings F) (m : mem F) (a : action) : mem F * list (write F) :=
  match a with
  | ATurn j now rid => (post_reserve s m j now rid).1
  | AViolation msg => (post_violation m msg).1
  | AFinish rid up now => (post_finish s m rid up now).1
  | AAmbiguous rid e => (post_ambiguous m rid e).1
  end.

(** A job comes from [post_prepare] of this process; a request id is new.  The
    other actions may come at any time, which is more than the handlers do. *)
Definition action_ok (s : Settings F) (m : mem F) (a : action) : Prop :=
  match a with
  | ATurn j now rid =>
      dget rid (vl_in_flight (m_value m)) = None /\
      exists hm qm rq now0, post_prepare hm qm s rq now0 = inr j
  | _ => True
  end.

Inductive tool := TReconcile (ack : bool) (now : instant) | TReset (ack : bool) (token : string) (now : instant).
Definition tool_writes (d : disk F) (t : tool) : list (write F) :=
  match t with
  | TReconcile ack now => match reconcile ack d now with Ok (ws, _) => ws | Raise _ => [] end
  | TReset ack token now =>
      match reset_provider_auth_circuit ack token d now with Ok (ws, _) => ws | Raise _ => [] end
  end.

(** A running process is its settings and its memory. *)
Record sys := { y_proc : option (Settings F * mem F); y_disk : disk F }.

Inductive label :=
  | LBoot (env : environ) (s : Settings F)
  | LAct (s : Settings F) (m : mem F) (a : action)
  | LStop
  | LTool (t : tool)
  (* the same, dying after [k] file writes *)
  | LTornBoot (env : environ) (s : Settings F) (k : nat)
  | LTornAct (s : Settings F) (m : mem F) (a : action) (k : nat)
  | LTornTool (t : tool) (k : nat).

Inductive step : sys -> label -> sys -> Prop :=
  | step_boot env s d ws r :
      from_env env = Ok s -> init s d = (ws, r) ->
      step {| y_proc := None; y_disk := d |} (LBoot env s)
           {| y_proc := match r with Ok m => Some (s, m) | Raise _ => None end;
              y_disk := atomic_jsons ws d |}
  | step_act s m d a m' ws :
      action_ok s m a -> act s m a = (m', ws) ->
      step {| y_proc := Some (s, m); y_disk := d |} (LAct s m a)
           {| y_proc := Some (s, m'); y_disk := atomic_jsons ws d |}
  | step_stop s m d :
      step {| y_proc := Some (s, m); y_disk := d |} LStop {| y_proc := None; y_disk := d |}
  | step_tool d t :
      step {| y_proc := None; y_disk := d |} (LTool t)
           {| y_proc := None; y_disk := atomic_jsons (tool_writes d t) d |}
  | step_torn_boot env s d ws r k :
      from_env env = Ok s -> init s d = (ws, r) ->
      step {| y_proc := None; y_disk := d |} (LTornBoot env s k)
           {| y_proc := None; y_disk := atomic_jsons (take k ws) d |}
  | step_torn_act s m d a m' ws k :
      action_ok s m a -> act s m a = (m', ws) ->
      step {| y_proc := Some (s, m); y_disk := d |} (LTornAct s m a k)
           {| y_proc := None; y_disk := atomic_jsons (take k ws) d |}
  | step_torn_tool d t k :
      step {| y_proc := None; y_disk := d |} (LTornTool t k)
           {| y_proc := None; y_disk := atomic_jsons (take k (tool_writes d t)) d |}.

Definition empty_sys : sys := {| y_proc := None; y_disk := {| d_ledger := None; d_value := None |} |}.

(** States reached from an empty state directory by steps whose labels [ok]. *)
Inductive reachable (ok : sys -> label -> Prop) : sys -> Prop :=
  | reachable_empty : reachable ok empty_sys
  | reachable_step y lb y' : reachable ok y -> ok y lb -> step y lb y' -> reachable ok y'.

(** The provider charged no more than was reserved for the request. *)
Definition honest_usage (s : Settings F) (m : mem F) (rid : string) (up : upstream) (now : instant) : Prop :=
  forall status body usage it c,
    up = UpResponse status (Ok body) -> usage_of body = Ok usage ->
    dget rid (vl_in_flight (m_value m)) = Some it ->
    record_call s rid it usage now = Ok c ->
    f_leb (cl_cost_usd c) (item_cost it) = true.

(** Not stopped after the ledger file and before the state file. *)
Definition clean_cut (ws : list (write F)) (k : nat) : Prop :=
  k <> 1%nat \/ (length ws <= 1)%nat.

Definition act_honest (s : Settings F) (m : mem F) (a : action) : Prop :=
  match a with AFinish rid up now => honest_usage s m rid up now | _ => True end.

(** An honest provider, and no crash between the two file writes of one method;
    [y] is the state the step starts from. *)
Definition ordinary (y : sys) (lb : label) : Prop :=
  match lb with
  | LAct s m a => act_honest s m a
  | LTornAct s m a k => act_honest s m a /\ clean_cut (act s m a).2 k
  | LTornTool t k => clean_cut (tool_writes (y_disk y) t) k
  | LBoot _ _ | LTornBoot _ _ _ | LStop | LTool _ => True
  end.
Definition anything (y : sys) (lb : label) : Prop := True.
End server.
Arguments request F : clear implicits.
Arguments reply F : clear implicits.
Arguments job F : clear implicits.
Arguments outcome F : clear implicits.
Arguments finish F : clear implicits.
Arguments upstream F : clear implicits.
Arguments action F : clear implicits.
Arguments sys F : clear implicits.
Arguments label F : clear implicits.

Section lemmas.
Context {F : Type} `{ExactFloat F}.
Implicit Types (s : Settings F) (m : mem F) (d : disk F) (l : ledger F) (v : value F).

(** ** Settings read from the environment *)

Definition settings_nonneg s : Prop :=
  prices_nonneg s /\ nonneg (hindsight_backfill_limit_usd s) /\
  nonneg (hindsight_monthly_limit_usd s) /\ nonneg (qwen_monthly_limit_usd s) /\
  nonneg (initial_provider_spend_usd s).

Lemma _positive_float_nonneg env n df (x : F) : _positive_float env n df = Ok x -> nonneg x.
Proof.
  unfold _positive_float. intros Hx. inv_ok. unfold nonneg.
  destruct (fleb_total (f_of_Z 0) x); congruence.
Qed.
Lemma _nonnegative_float_nonneg env n df (x : F) : _nonnegative_float env n df = Ok x -> nonneg x.
Proof. unfold _nonnegative_float. intros Hx. inv_ok. by apply fltb_false_leb. Qed.

Lemma from_env_nonneg env s : from_env env = Ok s -> settings_nonneg s.
Proof.
  unfold from_env. intros Hs. inv_ok. unfold settings_nonneg, prices_nonneg.
  cbn [prices hindsight_backfill_limit_usd hindsight_monthly_limit_usd qwen_monthly_limit_usd
       initial_provider_spend_usd].
  repeat match goal with
  | Hp : _positive_float _ _ _ = Ok _ |- _ => apply _positive_float_nonneg in Hp
  | Hp : _nonnegative_float _ _ _ = Ok _ |- _ => apply _nonnegative_float_nonneg in Hp
  end.
  split; [|by auto].
  apply (dset_Forall _ (QWEN_MODEL env) _ (dset (HINDSIGHT_MODEL env) _ [])); [by auto|].
  apply dset_Forall; [by auto|]. apply Forall_nil_2.
Qed.

End lemmas.
