(* ===== verification/BudgetSafety.v ===== *)
(** * Budget proxy: safety of the whole process

    Invariants of the transition system of [BudgetServer]: what every reachable
    state satisfies, whatever threads, crashes, restarts under other settings and
    operator tools do. *)

From stdpp Require Import base option list strings.
From Stdlib Require Import ZArith Lia.
From S2P Require Import Prelude PyStr PyFloat PyTime Json BudgetConfig BudgetState BudgetTools BudgetServer.

Local Open Scope Z_scope.
Local Open Scope py_scope.

Section definitions.
Context {F : Type} `{PyFloat F}.

(** The two files agree with the memory of the running process. *)
Record synced (m : mem F) (d : disk F) : Prop := {
  sy_ledger : d_ledger d = Some (m_ledger m);
  sy_value : exists v, d_value d = Some v /\
    vl_in_flight v ≡ₚ vl_in_flight (m_value m) /\
    vl_circuit_open v = vl_circuit_open (m_value m);
}.

Record disk_ok (d : disk F) : Prop := {
  dk_conserved : forall l, d_ledger d = Some l -> conserved l;
  dk_value : forall v, d_value d = Some v ->
    is_Some (d_ledger d) /\ NoDup (dkeys (vl_in_flight v));
  dk_new : forall l, d_value d = None -> d_ledger d = Some l -> lg_calls l = [];
}.

Definition proc_ok (p : option (Settings F * mem F)) (d : disk F) : Prop :=
  match p with
  | None => True
  | Some (s, m) => configured s (m_ledger m) /\ prices_nonneg s /\ synced m d
  end.

Definition consistent (y : sys F) : Prop := disk_ok (y_disk y) /\ proc_ok (y_proc y) (y_disk y).

(** What the files hold is within budget; a ledger without a state file holds
    no call, and its initial spend is checked when the proxy starts. *)
Definition disk_within (d : disk F) : Prop :=
  forall l v, d_ledger d = Some l -> d_value d = Some v -> within_budget l (vl_in_flight v).

Definition boot_ledger (s : Settings F) (d : disk F) : ledger F := default (fresh_ledger s) (d_ledger d).
Definition boot_value (d : disk F) : value F := default fresh_value (d_value d).
End definitions.

(** ** What one action does *)

Section effects.
Context {F : Type} `{PyFloat F}.
Implicit Types (s : Settings F) (m : mem F) (d : disk F) (l : ledger F) (v : value F).

(** The four kinds of effect an action has on memory, with its writes. *)
Inductive effect s m (a : action F) : mem F -> list (write F) -> Prop :=
  | eff_none : effect s m a m []
  | eff_admit j now rid it v' :
      a = ATurn j now rid ->
      v' = with_in_flight (dset rid it (vl_in_flight (m_value m))) (m_value m) ->
      vl_circuit_open (m_value m) = false ->
      reserve_turn s m (j_endpoint j) (j_model j) (j_input j) (j_output j) (j_quote j) now rid =
        Ok (Reserved {| m_ledger := m_ledger m; m_value := v' |} [WValue v'] rid it) ->
      effect s m a {| m_ledger := m_ledger m; m_value := v' |} [WValue v']
  | eff_value v' :
      (vl_in_flight v' = vl_in_flight (m_value m) \/
       exists rid up now, a = AFinish rid up now /\
         vl_in_flight v' = dpop rid (vl_in_flight (m_value m)) /\
         exists st b, up = UpResponse st b /\ 400 <= st) ->
      (vl_circuit_open (m_value m) = true -> vl_circuit_open v' = true) ->
      effect s m a {| m_ledger := m_ledger m; m_value := v' |} [WValue v']
  | eff_record rid up now it usage c st body l' v' :
      a = AFinish rid up now -> up = UpResponse st (Ok body) -> usage_of body = Ok usage ->
      dget rid (vl_in_flight (m_value m)) = Some it ->
      record_call s rid it usage now = Ok c ->
      l' = add_call c (m_ledger m) ->
      v' = with_in_flight (dpop rid (vl_in_flight (m_value m))) (m_value m) ->
      effect s m a {| m_ledger := l'; m_value := v' |} [WLedger l'; WValue v'].

Lemma reserve_guard_closed s m cost sc pe lim u :
  reserve_guard s m cost sc pe lim = Ok u -> vl_circuit_open (m_value m) = false.
Proof. unfold reserve_guard. intros Hg. by inv_ok. Qed.

Lemma open_circuit_effect s m a reason :
  effect s m a (open_circuit m reason false None).1 (open_circuit m reason false None).2.
Proof. by apply eff_value; [left|]. Qed.

Lemma post_ambiguous_effect s m a rid e :
  effect s m a (post_ambiguous m rid e).1.1 (post_ambiguous m rid e).1.2.
Proof. by apply eff_value; [left|]. Qed.

Lemma post_finish_effect s m rid up now :
  let r := post_finish s m rid up now in effect s m (AFinish rid up now) r.1.1 r.1.2.
Proof.
  unfold post_finish. destruct up as [e|st body]; [apply eff_none|].
  destruct (_ || _) eqn:E40; [|destruct (st <? 400) eqn:Est].
  - apply eff_value; [|done]. simpl. case_bool_decide; [by left|]. right.
    do 3 eexists. split_and!; [done|done|]. do 2 eexists. split; [done|]. lia.
  - destruct (mbind _ body) as [[[m' ws] c]|e] eqn:Er; [|apply eff_none].
    apply bind_Ok in Er as (b & -> & Hr). apply bind_Ok in Hr as (usage & Hu & Hr).
    apply record_Ok in Hr as (it & Hit & Hc & Hl & Hv & ->). destruct m' as [l' v'].
    by eapply eff_record.
  - apply eff_value; [|done]. simpl. right.
    do 3 eexists. split_and!; [done|done|]. do 2 eexists. split; [done|]. lia.
Qed.

Lemma post_reserve_effect s m j now rid :
  let r := post_reserve s m j now rid in effect s m (ATurn j now rid) r.1.1 r.1.2.
Proof.
  unfold post_reserve. destruct (reserve_turn _ _ _ _ _ _ _ _ _) as [[d|m' ws rid' it]|e] eqn:Er.
  - apply eff_none.
  - pose proof Er as Er'. destruct (j_quote j) as [cost [[sc pe] lim]] eqn:Ej.
    apply reserve_turn_Reserved in Er' as (Hg & -> & _ & _ & _ & -> & ->). simpl in *.
    apply reserve_guard_closed in Hg.
    eapply eff_admit; [done|done|done|]. rewrite Ej. exact Er.
  - destruct e; apply eff_none.
Qed.

Lemma act_effect s m a m' ws : act s m a = (m', ws) -> effect s m a m' ws.
Proof.
  destruct a as [j now rid|msg|rid up now|rid e]; cbn [act].
  - pose proof (post_reserve_effect s m j now rid) as He. simpl in He. intros E. by rewrite E in He.
  - intros [= <- <-]. apply open_circuit_effect.
  - pose proof (post_finish_effect s m rid up now) as He. simpl in He. intros E. by rewrite E in He.
  - intros [= <- <-]. apply (post_ambiguous_effect s m _ rid e).
Qed.
End effects.

Section boot.
Context {F : Type} `{PyFloat F}.
Implicit Types (s : Settings F) (m : mem F) (d : disk F) (l : ledger F) (v : value F).

(** The two writes of a boot: a ledger when there is none, then the state. *)
Definition boot_ledger_writes s d : list (write F) :=
  match d_ledger d with Some _ => [] | None => [WLedger (fresh_ledger s)] end.
Definition boot_value_writes d : list (write F) :=
  match d_value d with
  | None => [WValue fresh_value]
  | Some v => match vl_in_flight v with
              | [] => []
              | _ => [WValue (with_circuit true (Some RESTART_REASON) v)]
              end
  end.

Lemma init_cases s d ws r :
  init s d = (ws, r) ->
  (exists e, r = Raise e /\ ws = boot_ledger_writes s d) \/
  (exists m, r = Ok m /\ ws = boot_ledger_writes s d ++ boot_value_writes d /\
     m_ledger m = boot_ledger s d /\
     (d_ledger d = None \/ fingerprint_eqb (lg_guard (m_ledger m)) (guard_fingerprint s) = true) /\
     f_ltb (effective_provider_limit s) (lg_provider_spent_usd (m_ledger m)) = false /\
     m_value m = match vl_in_flight (boot_value d) with
                 | [] => boot_value d
                 | _ => with_circuit true (Some RESTART_REASON) (boot_value d)
                 end).
Proof.
  unfold init, boot_ledger, boot_value, boot_ledger_writes, boot_value_writes.
  destruct (d_ledger d) as [l|] eqn:El; simpl;
    match goal with |- context [match ?c with Ok _ => _ | Raise _ => _ end] =>
      destruct c as [u|e] eqn:Ec end;
    try (intros [= <- <-]; left; by eexists);
    (destruct (d_value d) as [v|]; simpl; [destruct (vl_in_flight v) eqn:Ev; simpl|]);
    intros [= <- <-]; right; eexists; (split; [done|]); simpl; rewrite ?Ev;
    inv_ok; (split_and!; try done); auto.
  all: right; by apply negb_false_iff.
Qed.
End boot.

(** ** The files stay well formed, wherever the process stops *)

Section consistency.
Context {F : Type} `{ExactFloat F}.
Implicit Types (s : Settings F) (m : mem F) (d : disk F) (l : ledger F) (v : value F).

Lemma prefixes_ok (P : disk F -> Prop) d : P d -> forall k, P (atomic_jsons (take k []) d).
Proof. intros Hd k. by rewrite take_nil. Qed.
Lemma prefixes_cons (P : disk F -> Prop) w ws d :
  P d -> (forall k, P (atomic_jsons (take k ws) (atomic_json w d))) ->
  forall k, P (atomic_jsons (take k (w :: ws)) d).
Proof. intros Hd Hw [|k]; [done | apply Hw]. Qed.
Lemma prefixes_all (P : disk F -> Prop) ws d :
  (forall k, P (atomic_jsons (take k ws) d)) -> P (atomic_jsons ws d).
Proof. intros Hk. rewrite <- (firstn_all ws). apply Hk. Qed.

Lemma disk_ok_ledger d l :
  disk_ok d -> conserved l -> (is_Some (d_value d) \/ lg_calls l = []) ->
  disk_ok (atomic_json (WLedger l) d).
Proof.
  intros [Hc Hv Hn] Hl Hs. split; simpl.
  - by intros ? [= <-].
  - intros v Ev. by destruct (Hv v Ev).
  - intros ? Ev [= <-]. rewrite Ev in Hs. destruct Hs as [[? ?]|]; done.
Qed.

Lemma disk_ok_value d v :
  disk_ok d -> is_Some (d_ledger d) -> NoDup (dkeys (vl_in_flight v)) ->
  disk_ok (atomic_json (WValue v) d).
Proof.
  intros [Hc Hv Hn] Hl Hd. split; simpl; [done| |done].
  intros ? [= <-]. split; [done|]. by apply dsort_NoDup.
Qed.

Lemma conserved_fresh s : conserved (fresh_ledger s).
Proof. unfold conserved, calls_cost. simpl. by rewrite fsum_nil, fadd_0_r. Qed.

Lemma mem_NoDup m d : disk_ok d -> synced m d -> NoDup (dkeys (vl_in_flight (m_value m))).
Proof.
  intros [_ Hv _] [_ (v & Ev & Hp & _)]. destruct (Hv v Ev) as [_ Hd].
  unfold dkeys in *. by rewrite <- Hp.
Qed.

(** *** Boot *)

Lemma boot_ledger_prefixes s d k : disk_ok d -> disk_ok (atomic_jsons (take k (boot_ledger_writes s d)) d).
Proof.
  intros Hd. unfold boot_ledger_writes. destruct (d_ledger d) as [l|] eqn:El; [by apply prefixes_ok|].
  revert k. apply prefixes_cons; [done|]. apply prefixes_ok.
  apply disk_ok_ledger; [done | apply conserved_fresh | by right].
Qed.

Lemma boot_ledger_done s d :
  let d' := atomic_jsons (boot_ledger_writes s d) d in
  d_ledger d' = Some (boot_ledger s d) /\ d_value d' = d_value d.
Proof. unfold boot_ledger_writes, boot_ledger. destruct (d_ledger d) eqn:El; simpl; by rewrite ?El. Qed.

Lemma boot_value_prefixes s d k :
  disk_ok d -> disk_ok (atomic_jsons (take k (boot_value_writes d)) (atomic_jsons (boot_ledger_writes s d) d)).
Proof.
  intros Hd. destruct (boot_ledger_done s d) as [Hl Hv].
  pose proof (prefixes_all disk_ok _ _ (fun k => boot_ledger_prefixes s d k Hd)) as Hd'.
  unfold boot_value_writes. destruct (d_value d) as [v|] eqn:Ev.
  - destruct (vl_in_flight v) eqn:Eq; [by apply prefixes_ok|]. revert k.
    apply prefixes_cons; [done|]. apply prefixes_ok. apply disk_ok_value; [done|by eexists|].
    by destruct (dk_value d Hd v Ev).
  - revert k. apply prefixes_cons; [done|]. apply prefixes_ok.
    apply disk_ok_value; [done|by eexists|]. apply NoDup_nil_2.
Qed.

Lemma init_prefixes s d ws r k :
  init s d = (ws, r) -> disk_ok d -> disk_ok (atomic_jsons (take k ws) d).
Proof.
  intros [(e & -> & ->)|(m & -> & -> & _)]%init_cases Hd; [by apply boot_ledger_prefixes|].
  rewrite take_app. unfold atomic_jsons. rewrite foldl_app.
  destruct (decide (k <= length (boot_ledger_writes s d))%nat) as [Hk|Hk].
  - replace (k - _)%nat with 0%nat by lia. by apply boot_ledger_prefixes.
  - rewrite (firstn_all2 (boot_ledger_writes s d)) by lia. by apply boot_value_prefixes.
Qed.

Lemma init_synced s d ws m : init s d = (ws, Ok m) -> synced m (atomic_jsons ws d).
Proof.
  intros [(e & [=] & _)|(m' & [= <-] & -> & Hm & _ & _ & Hv)]%init_cases.
  destruct (boot_ledger_done s d) as [Hl Hvd].
  unfold atomic_jsons in *. rewrite foldl_app. revert Hl Hvd.
  generalize (foldl (fun d w => atomic_json w d) d (boot_ledger_writes s d)) as d1. intros d1 Hl Hvd.
  unfold boot_value_writes, boot_value in *. destruct (d_value d) as [v|]; simpl in *.
  - destruct (vl_in_flight v) as [|x q] eqn:Eq; simpl; split; simpl; rewrite ?Hl, ?Hm; try done; rewrite ?Hv.
    + exists v. by rewrite Hvd.
    + eexists. split; [done|]. simpl. split; [|done]. apply file_of_in_flight.
  - split; simpl; [by rewrite Hl, Hm|]. rewrite Hv. by eexists.
Qed.

Lemma init_configured s d ws m : init s d = (ws, Ok m) -> configured s (m_ledger m).
Proof.
  intros [(e & [=] & _)|(m' & [= <-] & _ & Hm & Hg & _)]%init_cases. unfold configured.
  destruct Hg as [Hn | ->%fingerprint_eqb_true]; [|done].
  rewrite Hm. unfold boot_ledger. by rewrite Hn.
Qed.

(** *** Actions *)

Lemma effect_prefixes s m a m' ws d k :
  effect s m a m' ws -> disk_ok d -> synced m d -> disk_ok (atomic_jsons (take k ws) d).
Proof.
  intros He Hd Hs. pose proof (mem_NoDup _ _ Hd Hs) as Hnd.
  destruct Hs as [Hl (v & Ev & _)]. revert k.
  destruct He as [|j now rid it v' -> -> _ _|v' [Hq|(rid & up & now & -> & Hq & _)] _
                  |rid up now it usage c st body l' v' -> -> _ _ _ -> ->];
    [by apply prefixes_ok|..]; (apply prefixes_cons; [done|]).
  1-3: apply prefixes_ok, disk_ok_value; [done|by eexists|].
  - by apply dset_NoDup.
  - by rewrite Hq.
  - rewrite Hq. by apply dpop_NoDup.
  - assert (disk_ok (atomic_json (WLedger (add_call c (m_ledger m))) d)) as Hd'.
    { apply disk_ok_ledger; [done| |by left]. apply conserved_add_call.
      by apply (dk_conserved d Hd). }
    apply prefixes_cons; [done|]. apply prefixes_ok, disk_ok_value; [done|by eexists|].
    by apply dpop_NoDup.
Qed.

Lemma effect_synced s m a m' ws d :
  effect s m a m' ws -> synced m d -> synced m' (atomic_jsons ws d).
Proof.
  intros He Hs. destruct He as [|j now rid it v' _ _ _ _|v' _ _|rid up now it usage c st body l' v' _ _ _ _ _ _ _];
    [done|..]; destruct Hs as [Hl _]; split; simpl; try done.
  all: eexists; split; [done|]; simpl; split; [apply file_of_in_flight|done].
Qed.

Lemma effect_guard s m a m' ws :
  effect s m a m' ws -> lg_guard (m_ledger m') = lg_guard (m_ledger m).
Proof. by destruct 1; subst. Qed.

(** *** Tools *)

Lemma tool_writes_cases d t :
  tool_writes d t = [] \/
  (exists ack now r, t = TReconcile ack now /\ reconcile ack d now = Ok (tool_writes d t, r)) \/
  (exists ack tok now r, t = TReset ack tok now /\
     reset_provider_auth_circuit ack tok d now = Ok (tool_writes d t, r)).
Proof.
  destruct t as [ack now|ack tok now]; simpl.
  - destruct (reconcile ack d now) as [[ws r]|] eqn:E; [right; left|by left]. by exists ack, now, r.
  - destruct (reset_provider_auth_circuit ack tok d now) as [[ws r]|] eqn:E;
      [right; right|by left]. by exists ack, tok, now, r.
Qed.

Lemma tool_prefixes d t k : disk_ok d -> disk_ok (atomic_jsons (take k (tool_writes d t)) d).
Proof.
  intros Hd. revert k.
  destruct (tool_writes_cases d t) as [->|[(ack & now & r & -> & Hr)|(ack & tok & now & r & -> & Hr)]].
  - by apply prefixes_ok.
  - apply reconcile_Ok in Hr as (l & v & _ & El & Ev & _ & v' & -> & Hq & _).
    assert (disk_ok (atomic_json (WLedger (reconcile_ledger now (dsort (vl_in_flight v))
              (q_pending any_item (dsort (vl_in_flight v))) l)) d)) as Hd'.
    { apply disk_ok_ledger; [done| |left; by eexists]. apply reconcile_conserved.
      by apply (dk_conserved d Hd). }
    apply prefixes_cons; [done|]. apply prefixes_cons; [done|]. apply prefixes_ok.
    apply disk_ok_value; [done|by eexists|]. rewrite Hq. apply NoDup_nil_2.
  - apply reset_Ok in Hr as (v & v' & _ & Ev & _ & _ & _ & _ & -> & Hq & _).
    apply prefixes_cons; [done|]. apply prefixes_ok.
    apply disk_ok_value; [done| |rewrite Hq; apply NoDup_nil_2].
    by destruct (dk_value d Hd v Ev).
Qed.

(** *** Every reachable state *)

Lemma consistent_step y lb y' : consistent y -> step y lb y' -> consistent y'.
Proof.
  intros [Hd Hp] Hs. destruct Hs as
    [env s d ws r Henv Hi|s m d a m' ws Hok Ha|s m d|d t|env s d ws r k Henv Hi|s m d a m' ws k Hok Ha|d t k];
    unfold consistent; simpl in *.
  - split; [apply prefixes_all; intros k; by apply (init_prefixes s d ws r)|].
    destruct r as [m|e]; [|done]. simpl. split_and!.
    + by apply (init_configured s d ws).
    + by apply from_env_nonneg in Henv as [? _].
    + by apply (init_synced s).
  - destruct Hp as (Hc & Hpr & Hsy). apply act_effect in Ha.
    split; [apply prefixes_all; intros k; by apply (effect_prefixes s m a m')|].
    split_and!; [|done|by apply (effect_synced s m a)].
    unfold configured in *. rewrite Hc. symmetry. by apply (effect_guard s m a m' ws).
  - by split.
  - split; [|done]. apply prefixes_all. intros k. by apply tool_prefixes.
  - split; [|done]. by apply (init_prefixes s d ws r).
  - split; [|done]. destruct Hp as (_ & _ & Hsy). apply act_effect in Ha.
    by apply (effect_prefixes s m a m').
  - split; [|done]. by apply tool_prefixes.
Qed.

Lemma consistent_reachable ok y : reachable ok y -> consistent y.
Proof.
  induction 1 as [|y lb y' _ IH _ Hs]; [|by apply (consistent_step y lb)].
  split; [|done]. split; by simpl.
Qed.
End consistency.

(** ** The ceilings hold in every ordinary run *)

Section ceilings.
Context {F : Type} `{ExactFloat F}.
Implicit Types (s : Settings F) (m : mem F) (d : disk F) (l : ledger F) (v : value F).

Lemma prompt_bytes_pos (j : json F) : 0 <= prompt_bytes j.
Proof. unfold prompt_bytes. lia. Qed.

Lemma prepare_chat_tokens hm (b : json F) p i o :
  prepare_chat_payload hm b = Ok (p, i, o) -> 0 <= i /\ 0 <= o.
Proof.
  unfold prepare_chat_payload. destruct b; try done. intros Hp. inv_ok. simplify_eq/=.
  rewrite negb_false_iff, andb_true_iff in *.
  match goal with Hb : _ /\ _ |- _ => destruct Hb as [?%Z.ltb_lt _] end.
  split; [apply prompt_bytes_pos | lia].
Qed.
Lemma prepare_embedding_tokens qm (b : json F) p i o :
  prepare_embedding_payload qm b = Ok (p, i, o) -> 0 <= i /\ 0 <= o.
Proof.
  unfold prepare_embedding_payload. destruct b; try done. intros Hp. inv_ok. simplify_eq/=.
  split; [apply prompt_bytes_pos | lia].
Qed.

(** What a job that reached the reservation loop went through. *)
Lemma post_prepare_job hm qm s rq now j :
  post_prepare hm qm s rq now = inr j ->
  authorized s rq = true /\ provider_egress_enabled s = true /\ 0 <= j_input j /\ 0 <= j_output j /\
  reserve_quote s (j_endpoint j) (j_model j) (j_input j) (j_output j) now = Ok (j_quote j).
Proof.
  unfold post_prepare. dmatch; [|done]. destruct (authorized s rq); [|done].
  destruct (provider_egress_enabled s); [|done]. simpl.
  destruct (post_job _ _ _ _ _ _) as [j'|e] eqn:Ej; [|done]. intros [= ->].
  unfold post_job in Ej. apply bind_Ok in Ej as (b & _ & Ej). apply bind_Ok in Ej as ([[p i] o] & Hp & Ej).
  inv_ok. simpl. split_and!; try done.
  all: case_bool_decide; [apply prepare_chat_tokens in Hp|apply prepare_embedding_tokens in Hp]; tauto.
Qed.

Lemma disk_within_value d l v :
  d_ledger d = Some l -> within_budget l (vl_in_flight v) -> disk_within (atomic_json (WValue v) d).
Proof.
  intros El Hw l' v' E1 E2. simpl in *. simplify_eq.
  apply (within_budget_perm _ (vl_in_flight v)); [|done]. symmetry. apply file_of_in_flight.
Qed.

Lemma clean_cut_take (ws : list (write F)) k :
  clean_cut ws k -> (length ws <= 2)%nat -> take k ws = [] \/ take k ws = ws.
Proof.
  intros Hc Hl. destruct ws as [|w1 [|w2 [|w3 ws]]]; destruct k as [|[|k]]; simpl in *; auto; try lia.
  all: rewrite ?take_nil; auto. destruct Hc; [done|simpl in *; lia].
Qed.

Lemma mem_within m d : disk_within d -> synced m d -> within_budget (m_ledger m) (vl_in_flight (m_value m)).
Proof.
  intros Hw [El (v & Ev & Hp & _)]. apply (within_budget_perm _ _ _ Hp). by apply Hw.
Qed.

(** A ledger without calls is within budget once its spend passed the boot check. *)
Lemma within_new s l :
  settings_nonneg s -> configured s l -> lg_calls l = [] ->
  f_ltb (effective_provider_limit s) (lg_provider_spent_usd l) = false ->
  within_budget l [].
Proof.
  intros (_ & Hb & Hm & Hq & _) Hc Hn Hl. split.
  - apply NoDup_nil_2.
  - apply Forall_nil_2.
  - rewrite q_pending_nil, fadd_0_r, <- Hc. by apply fltb_false_leb.
  - intros sc pe lim Hg. unfold l_spend. rewrite Hn. simpl.
    rewrite fsum_nil, q_pending_nil, fadd_0_r. unfold g_scope in Hg. unfold configured in Hc. rewrite <- !Hc in Hg.
    simpl in Hg. repeat case_bool_decide; by simplify_eq.
Qed.

Lemma boot_within env s d ws r k :
  from_env env = Ok s -> init s d = (ws, r) -> disk_ok d -> disk_within d ->
  disk_within (atomic_jsons (take k ws) d).
Proof.
  intros Henv Hi Hd Hw. destruct (boot_ledger_done s d) as [Hl Hv].
  assert (forall k, disk_within (atomic_jsons (take k (boot_ledger_writes s d)) d)) as Hledger.
  { clear -Hd Hw. intros k. unfold boot_ledger_writes. destruct (d_ledger d) as [l|] eqn:El; [by rewrite take_nil|].
    destruct (d_value d) as [v|] eqn:Ev; [by destruct (dk_value d Hd v Ev) as [[? ?] _]; congruence|].
    destruct k as [|k]; [done|]. simpl. rewrite take_nil. intros l' v' _ E. simpl in E. congruence. }
  assert (forall m, r = Ok m -> configured s (m_ledger m)) as Hconf.
  { intros m ->. by apply (init_configured s d ws). }
  apply init_cases in Hi as [(e & -> & ->)|(m & -> & -> & Hm & _ & Hlim & _)]; [done|].
  specialize (Hconf m eq_refl).
  rewrite take_app. unfold atomic_jsons. rewrite foldl_app.
  destruct (decide (k <= length (boot_ledger_writes s d))%nat) as [Hk|Hk].
  { replace (k - _)%nat with 0%nat by lia. apply Hledger. }
  rewrite (firstn_all2 (boot_ledger_writes s d)) by lia. fold (atomic_jsons (boot_ledger_writes s d) d).
  generalize (k - length (boot_ledger_writes s d))%nat as n.
  specialize (Hledger (length (boot_ledger_writes s d))). rewrite firstn_all in Hledger.
  unfold boot_value_writes. destruct (d_value d) as [v|] eqn:Ev.
  - destruct (vl_in_flight v) as [|x q] eqn:Eq; [by apply prefixes_ok|].
    apply prefixes_cons; [done|]. apply prefixes_ok.
    apply (disk_within_value _ _ _ Hl). exact (Hledger _ v Hl Hv).
  - apply prefixes_cons; [done|]. apply prefixes_ok. apply (disk_within_value _ _ _ Hl).
    apply (within_new s); rewrite <- ?Hm; try done.
    + by apply (from_env_nonneg env).
    + rewrite Hm. unfold boot_ledger. destruct (d_ledger d) as [l|] eqn:El; [|done].
      by apply (dk_new d Hd).
Qed.

Lemma synced_within m d :
  synced m d -> within_budget (m_ledger m) (vl_in_flight (m_value m)) -> disk_within d.
Proof.
  intros [El (v & Ev & Hp & _)] Hw l' v' E1 E2. simplify_eq.
  by apply (within_budget_perm _ (vl_in_flight (m_value m))).
Qed.

Lemma effect_within s m a m' ws :
  effect s m a m' ws -> action_ok s m a -> act_honest s m a ->
  configured s (m_ledger m) -> prices_nonneg s ->
  within_budget (m_ledger m) (vl_in_flight (m_value m)) ->
  within_budget (m_ledger m') (vl_in_flight (m_value m')).
Proof.
  intros He Hok Hh Hc Hp Hw.
  destruct He as [|j now rid it v' -> -> _ Hr|v' [Hq|(rid & up & now & -> & Hq & _)] _
                  |rid up now it usage c st body l' v' -> -> Hu Hi Hrc -> ->]; [done| | | |]; simpl in *.
  - destruct Hok as (Hfresh & hm & qm & rq & now0 & (_ & _ & Hin & Hout & Hq)%post_prepare_job).
    destruct (j_quote j) as [cost [[sc pe] lim]] eqn:Ej.
    apply (reserve_turn_within s m (j_endpoint j) (j_model j) (j_input j) (j_output j)
             (cost, (sc, pe, lim)) now0 now rid _ _ _ _ Hc Hp Hin Hout Hfresh Hq Hr Hw).
  - by rewrite Hq.
  - rewrite Hq. by apply within_budget_dpop.
  - pose proof (record_call_fields _ _ _ _ _ _ Hrc) as (Hsc & Hpe & _).
    apply (add_call_within _ _ _ it); try done. by apply (Hh st body usage it c).
Qed.

Lemma effect_length s m a m' ws : effect s m a m' ws -> (length ws <= 2)%nat.
Proof. destruct 1; simpl; lia. Qed.

Lemma tool_within d t : disk_within d -> disk_within (atomic_jsons (tool_writes d t) d).
Proof.
  intros Hw. destruct (tool_writes_cases d t) as [->|[(ack & now & r & -> & Hr)|(ack & tok & now & r & -> & Hr)]].
  - done.
  - apply reconcile_Ok in Hr as (l & v & _ & El & Ev & _ & v' & -> & Hq & _).
    intros l1 v1 E1 E2. simpl in *. simplify_eq. simpl. rewrite Hq. simpl.
    apply reconcile_within. apply (within_budget_perm _ (vl_in_flight v)); [|by apply Hw].
    by rewrite dsort_Permutation.
  - apply reset_Ok in Hr as (v & v' & _ & Ev & _ & Hq0 & _ & _ & -> & Hq & _).
    intros l1 v1 E1 E2. simpl in *. simplify_eq. simpl. rewrite Hq. simpl. rewrite <- Hq0. by apply Hw.
Qed.

Lemma tool_length d t : (length (tool_writes d t) <= 2)%nat.
Proof.
  destruct (tool_writes_cases d t) as [->|[(ack & now & r & -> & Hr)|(ack & tok & now & r & -> & Hr)]];
    [simpl; lia| |].
  - apply reconcile_Ok in Hr as (l & v & _ & _ & _ & _ & v' & -> & _). simpl. lia.
  - apply reset_Ok in Hr as (v & v' & _ & _ & _ & _ & _ & _ & -> & _). simpl. lia.
Qed.

Lemma within_step y lb y' :
  consistent y -> disk_within (y_disk y) -> ordinary y lb -> step y lb y' -> disk_within (y_disk y').
Proof.
  intros [Hd Hp] Hw Ho Hs.
  assert (forall s m d a m' ws, proc_ok (Some (s, m)) d -> disk_within d -> action_ok s m a ->
            act_honest s m a -> effect s m a m' ws -> disk_within (atomic_jsons ws d)) as Hact.
  { intros s m d a m' ws (Hc & Hpr & Hsy) Hwd Hok Hh He.
    apply (synced_within m'); [by apply (effect_synced s m a)|].
    apply (effect_within s m a m' ws); try done. by apply (mem_within _ d). }
  destruct Hs as
    [env s d ws r Henv Hi|s m d a m' ws Hok Ha|s m d|d t|env s d ws r k Henv Hi|s m d a m' ws k Hok Ha|d t k];
    simpl in *.
  - rewrite <- (firstn_all ws). by apply (boot_within env s d ws r).
  - apply act_effect in Ha. by apply (Hact s m d a m' ws).
  - done.
  - by apply tool_within.
  - by apply (boot_within env s d ws r).
  - destruct Ho as [Hh Hcut]. rewrite Ha in Hcut. apply act_effect in Ha.
    destruct (clean_cut_take ws k Hcut (effect_length _ _ _ _ _ Ha)) as [->| ->]; [done|].
    by apply (Hact s m d a m' ws).
  - destruct (clean_cut_take _ k Ho (tool_length d t)) as [->| ->]; [done|]. by apply tool_within.
Qed.

Lemma within_reachable y : reachable ordinary y -> disk_within (y_disk y).
Proof.
  induction 1 as [|y lb y' Hr IH Ho Hs]; [done|].
  apply (within_step y lb); try done. by apply (consistent_reachable ordinary).
Qed.
End ceilings.

(** ** Accounting of requests *)

Section accounting.
Context {F : Type} `{ExactFloat F}.
Implicit Types (s : Settings F) (m : mem F) (d : disk F) (l : ledger F) (v : value F).

Definition in_flight_on d (rid : string) : Prop :=
  exists v, d_value d = Some v /\ rid ∈ dkeys (vl_in_flight v).
Definition charged_on d (rid : string) : Prop :=
  exists l c, d_ledger d = Some l /\ c ∈ lg_calls l /\ cl_request_id c = rid.
Definition accounted d (rid : string) : Prop := in_flight_on d rid \/ charged_on d rid.

(** The provider answered this request with an error status. *)
Definition refused (a : action F) (rid : string) : Prop :=
  exists st b now, a = AFinish rid (UpResponse st b) now /\ 400 <= st.
Definition label_refused (lb : label F) (rid : string) : Prop :=
  match lb with LAct _ _ a | LTornAct _ _ a _ => refused a rid | _ => False end.

Definition latched_on d : Prop := exists v, d_value d = Some v /\ vl_circuit_open v = true.

Local Notation acc rid := (fun d => accounted d rid).

Lemma accounted_value d v rid :
  accounted d rid ->
  (in_flight_on d rid -> rid ∈ dkeys (vl_in_flight v) \/ charged_on d rid) ->
  accounted (atomic_json (WValue v) d) rid.
Proof.
  intros Ha Hv. assert (rid ∈ dkeys (vl_in_flight v) \/ charged_on d rid) as [Hin|(l & c & Hc)].
  { destruct Ha; [by apply Hv|by right]. }
  - left. eexists. split; [done|]. simpl. unfold dkeys in *. by rewrite dsort_Permutation.
  - right. by exists l, c.
Qed.

Lemma accounted_ledger d l l' rid :
  d_ledger d = Some l -> lg_calls l `prefix_of` lg_calls l' ->
  accounted d rid -> accounted (atomic_json (WLedger l') d) rid.
Proof.
  intros El [k Hk] [(v & Ev & Hin)|(l0 & c & E & Hc & Hr)]; [left; by exists v|].
  right. simplify_eq. exists l', c. split_and!; [done| |done]. rewrite Hk. apply elem_of_app. by left.
Qed.

Lemma synced_in_flight m d rid :
  synced m d -> in_flight_on d rid <-> rid ∈ dkeys (vl_in_flight (m_value m)).
Proof.
  intros [_ (v & Ev & Hp & _)]. unfold in_flight_on, dkeys. rewrite <- Hp.
  split; [intros (v' & ? & ?); by simplify_eq | intros ?; by exists v].
Qed.

Lemma effect_accounted s m a m' ws d rid k :
  effect s m a m' ws -> synced m d -> accounted d rid ->
  accounted (atomic_jsons (take k ws) d) rid \/ refused a rid.
Proof.
  intros He Hsy Ha. pose proof (synced_in_flight m d rid Hsy) as Hin.
  assert (forall k, accounted (atomic_jsons (take k ws) d) rid \/ refused a rid) as Hk; [|done].
  destruct He as [|j now rid0 it v' -> -> _ _|v' [Hq|(rid0 & up & now & -> & Hq & st & b & -> & Hst)] _
                  |rid0 up now it usage c st body l' v' -> _ _ Hit Hc -> ->].
  - intros k'. left. revert k'. by apply (prefixes_ok (acc rid)).
  - intros k'. left. revert k'. apply (prefixes_cons (acc rid)); [done|]. apply (prefixes_ok (acc rid)).
    apply accounted_value; [done|]. intros ?%Hin. left. simpl. apply dkeys_dset. by right.
  - intros k'. left. revert k'. apply (prefixes_cons (acc rid)); [done|]. apply (prefixes_ok (acc rid)).
    apply accounted_value; [done|]. intros ?%Hin. left. by rewrite Hq.
  - intros k'. destruct (decide (rid = rid0)) as [->|Hne]; [right; by exists st, b, now|].
    left. revert k'. apply (prefixes_cons (acc rid)); [done|]. apply (prefixes_ok (acc rid)).
    apply accounted_value; [done|]. intros ?%Hin. left. rewrite Hq. by apply dkeys_dpop_ne.
  - intros k'. left. revert k'. apply (prefixes_cons (acc rid)); [done|].
    assert (accounted (atomic_json (WLedger (add_call c (m_ledger m))) d) rid) as Ha'.
    { apply (accounted_ledger _ (m_ledger m)); [apply Hsy|by eexists|done]. }
    apply (prefixes_cons (acc rid)); [done|]. apply (prefixes_ok (acc rid)), accounted_value; [done|].
    intros (v & Ev & Hv). destruct (decide (rid = rid0)) as [->|Hne].
    + right. exists (add_call c (m_ledger m)), c. split_and!; [done| |by apply record_call_fields in Hc as (_ & _ & ? & _)].
      simpl. apply elem_of_app. right. apply list_elem_of_singleton. done.
    + left. simpl. apply dkeys_dpop_ne; [done|]. apply Hin. by exists v.
Qed.

Lemma tool_accounted d t rid k :
  accounted d rid -> accounted (atomic_jsons (take k (tool_writes d t)) d) rid.
Proof.
  intros Ha. revert k.
  destruct (tool_writes_cases d t) as [->|[(ack & now & r & -> & Hr)|(ack & tok & now & r & -> & Hr)]].
  - by apply (prefixes_ok (acc rid)).
  - apply reconcile_Ok in Hr as (l & v & _ & El & Ev & _ & v' & -> & Hq & _).
    set (q := dsort (vl_in_flight v)). set (l' := reconcile_ledger now q (q_pending any_item q) l).
    assert (accounted (atomic_json (WLedger l') d) rid) as Ha'.
    { apply (accounted_ledger _ l); [done| |done]. by eexists. }
    apply (prefixes_cons (acc rid)); [done|]. apply (prefixes_cons (acc rid)); [done|]. apply (prefixes_ok (acc rid)).
    apply accounted_value; [done|]. intros (v0 & Ev0 & Hin). right. simpl in Ev0. simplify_eq.
    apply (dkeys_dsort rid) in Hin. unfold dkeys in Hin. apply list_elem_of_fmap in Hin as ([rid' it] & -> & Hin).
    exists l', (reconcile_call now rid' it). split_and!; [done| |done].
    simpl. apply elem_of_app. right.
    apply (list_elem_of_fmap_2 (fun kv => reconcile_call now kv.1 kv.2) _ _ Hin).
  - apply reset_Ok in Hr as (v & v' & _ & Ev & _ & Hq0 & _ & _ & -> & Hq & _).
    apply (prefixes_cons (acc rid)); [done|]. apply (prefixes_ok (acc rid)), accounted_value; [done|].
    intros (v0 & Ev0 & Hin). simplify_eq. rewrite Hq0 in Hin. by apply elem_of_nil in Hin.
Qed.

Lemma boot_ledger_accounted s d rid k :
  accounted d rid -> accounted (atomic_jsons (take k (boot_ledger_writes s d)) d) rid.
Proof.
  intros Ha. revert k. unfold boot_ledger_writes. destruct (d_ledger d) as [l|] eqn:El; [by apply (prefixes_ok (acc rid))|].
  apply (prefixes_cons (acc rid)); [done|]. apply (prefixes_ok (acc rid)).
  destruct Ha as [(v & ? & ?)|(l & c & ? & _)]; [left; by exists v|congruence].
Qed.

Lemma init_accounted s d ws r rid k :
  init s d = (ws, r) -> accounted d rid -> accounted (atomic_jsons (take k ws) d) rid.
Proof.
  intros [(e & -> & ->)|(m & -> & -> & _)]%init_cases Ha; [by apply boot_ledger_accounted|].
  rewrite take_app. unfold atomic_jsons. rewrite foldl_app. fold (atomic_jsons (take k (boot_ledger_writes s d)) d).
  destruct (decide (k <= length (boot_ledger_writes s d))%nat) as [Hk|Hk].
  { replace (k - _)%nat with 0%nat by lia. by apply boot_ledger_accounted. }
  pose proof (boot_ledger_accounted s d rid k Ha) as Ha'.
  rewrite (firstn_all2 (boot_ledger_writes s d)) in * by lia.
  destruct (boot_ledger_done s d) as [_ Hv].
  revert Hv Ha'. generalize (atomic_jsons (boot_ledger_writes s d) d) as d1. intros d1 Hv Ha'.
  generalize (k - length (boot_ledger_writes s d))%nat as n. unfold boot_value_writes.
  destruct (d_value d) as [v|] eqn:Ev.
  - destruct (vl_in_flight v) as [|x q] eqn:Eq; [by apply (prefixes_ok (acc rid))|].
    apply (prefixes_cons (acc rid)); [done|]. apply (prefixes_ok (acc rid)), accounted_value; [done|].
    intros (v0 & Ev0 & Hin). left. simpl. congruence.
  - apply (prefixes_cons (acc rid)); [done|]. apply (prefixes_ok (acc rid)), accounted_value; [done|].
    intros (v0 & Ev0 & Hin). congruence.
Qed.

(** *** History *)

Definition extends (l l' : ledger F) : Prop :=
  lg_calls l `prefix_of` lg_calls l' /\ lg_guard l' = lg_guard l /\
  lg_initial_provider_spend_usd l' = lg_initial_provider_spend_usd l.
Definition extended_on (l : ledger F) d : Prop := exists l', d_ledger d = Some l' /\ extends l l'.

Lemma extends_refl l : extends l l.
Proof. done. Qed.

Lemma effect_extends s m a m' ws d k :
  effect s m a m' ws -> d_ledger d = Some (m_ledger m) ->
  extended_on (m_ledger m) (atomic_jsons (take k ws) d).
Proof.
  intros He El. assert (extended_on (m_ledger m) d) as Hd by (eexists; split; [done|apply extends_refl]).
  revert k. destruct He as [|j now rid it v' _ _ _ _|v' _ _|rid up now it usage c st body l' v' _ _ _ _ _ -> _].
  - by apply (prefixes_ok (extended_on _)).
  - apply (prefixes_cons (extended_on _)); [done|]. by apply (prefixes_ok (extended_on _)).
  - apply (prefixes_cons (extended_on _)); [done|]. by apply (prefixes_ok (extended_on _)).
  - assert (extended_on (m_ledger m) (atomic_json (WLedger (add_call c (m_ledger m))) d)) as Hd'.
    { eexists. split; [done|]. split_and!; [by eexists|done|done]. }
    apply (prefixes_cons (extended_on _)); [done|].
    apply (prefixes_cons (extended_on _)); [done|]. by apply (prefixes_ok (extended_on _)).
Qed.

Lemma tool_extends d t l k :
  d_ledger d = Some l -> extended_on l (atomic_jsons (take k (tool_writes d t)) d).
Proof.
  intros El. assert (extended_on l d) as Hd by (eexists; split; [done|apply extends_refl]). revert k.
  destruct (tool_writes_cases d t) as [->|[(ack & now & r & -> & Hr)|(ack & tok & now & r & -> & Hr)]].
  - by apply (prefixes_ok (extended_on _)).
  - apply reconcile_Ok in Hr as (l0 & v & _ & El0 & Ev & _ & v' & -> & _). simplify_eq.
    assert (extended_on l (atomic_json (WLedger (reconcile_ledger now (dsort (vl_in_flight v))
              (q_pending any_item (dsort (vl_in_flight v))) l)) d)) as Hd'.
    { eexists. split; [done|]. split_and!; [by eexists|done|done]. }
    apply (prefixes_cons (extended_on _)); [done|].
    apply (prefixes_cons (extended_on _)); [done|]. by apply (prefixes_ok (extended_on _)).
  - apply reset_Ok in Hr as (v & v' & _ & _ & _ & _ & _ & _ & -> & _).
    apply (prefixes_cons (extended_on _)); [done|]. by apply (prefixes_ok (extended_on _)).
Qed.

Lemma init_extends s d ws r l k :
  init s d = (ws, r) -> d_ledger d = Some l -> d_ledger (atomic_jsons (take k ws) d) = Some l.
Proof.
  intros Hi El.
  assert (forall v k, d_ledger (atomic_jsons (take k [WValue v]) d) = Some l) as Hv.
  { intros v [|k']; [done|]. simpl. by rewrite take_nil. }
  apply init_cases in Hi as [(e & _ & ->)|(m & _ & -> & _)]; unfold boot_ledger_writes; rewrite El.
  - by rewrite take_nil.
  - simpl. unfold boot_value_writes. destruct (d_value d) as [v|]; [|apply Hv].
    destruct (vl_in_flight v); [by rewrite take_nil|apply Hv].
Qed.

(** *** The circuit *)

Lemma latched_value d v : vl_circuit_open v = true -> latched_on (atomic_json (WValue v) d).
Proof. intros Hv. by eexists. Qed.
Lemma latched_ledger d l : latched_on d -> latched_on (atomic_json (WLedger l) d).
Proof. done. Qed.

Lemma synced_latched m d : synced m d -> latched_on d <-> vl_circuit_open (m_value m) = true.
Proof.
  intros [_ (v & Ev & _ & Ho)]. rewrite <- Ho. unfold latched_on.
  split; [intros (v' & ? & ?); by simplify_eq | intros ?; by exists v].
Qed.

Lemma effect_latched s m a m' ws d k :
  effect s m a m' ws -> synced m d -> latched_on d -> latched_on (atomic_jsons (take k ws) d).
Proof.
  intros He Hs Hl. apply (synced_latched m d Hs) in Hl as Ho. revert k.
  destruct He as [|j now rid it v' _ _ Hc _|v' _ Hv|rid up now it usage c st body l' v' _ _ _ _ _ _ ->].
  - by apply (prefixes_ok latched_on).
  - congruence.
  - apply (prefixes_cons latched_on); [done|]. apply (prefixes_ok latched_on), latched_value. auto.
  - apply (prefixes_cons latched_on); [done|]. apply (prefixes_cons latched_on); [done|].
    by apply (prefixes_ok latched_on), latched_value.
Qed.

Lemma init_latched s d ws r k :
  init s d = (ws, r) -> latched_on d -> latched_on (atomic_jsons (take k ws) d).
Proof.
  intros Hi Hl. pose proof Hl as (v & Ev & Ho).
  assert (forall k, latched_on (atomic_jsons (take k (boot_ledger_writes s d)) d)) as Hb.
  { unfold boot_ledger_writes. destruct (d_ledger d); [by apply (prefixes_ok latched_on)|].
    apply (prefixes_cons latched_on); [done|]. by apply (prefixes_ok latched_on). }
  apply init_cases in Hi as [(e & _ & ->)|(m & _ & -> & _)]; [apply Hb|].
  rewrite take_app. unfold atomic_jsons. rewrite foldl_app.
  generalize (k - length (boot_ledger_writes s d))%nat as n.
  specialize (Hb k). unfold atomic_jsons in Hb. revert Hb.
  generalize (foldl (fun d w => atomic_json w d) d (take k (boot_ledger_writes s d))) as d1.
  intros d1 Hd1. unfold boot_value_writes. rewrite Ev.
  destruct (vl_in_flight v); [by apply (prefixes_ok latched_on)|].
  apply (prefixes_cons latched_on); [done|]. by apply (prefixes_ok latched_on), latched_value.
Qed.
End accounting.
