(* ===== verification/BudgetTheorems.v ===== *)
(** * Budget proxy: what it promises

    The theorems about the whole proxy.  Witnesses run a concrete proxy over
    exact rational numbers. *)

From stdpp Require Import base option list strings.
From Stdlib Require Import ZArith Lia QArith Qcanon.
From S2P Require Import Prelude PyStr PyFloat PyTime Json BudgetConfig BudgetState BudgetTools BudgetServer BudgetSafety.

Local Open Scope Z_scope.
Local Open Scope py_scope.

(** ** A concrete proxy *)

Module Demo.
Definition env : environ := fun name =>
  if bool_decide (name = "PROVIDER_API_KEY") then Some "provider"%string
  else if bool_decide (name = "PROXY_API_KEY") then Some "proxy"%string
  else if bool_decide (name = "PROVIDER_EGRESS_ENABLED") then Some "true"%string
  else None.

Lemma env_ok : is_ok (from_env (F := Qc) env) = true.
Proof. vm_compute. reflexivity. Qed.
Definition s : Settings Qc := get_ok (from_env env) env_ok.

Definition booted (s : Settings Qc) (d : disk Qc) : sys Qc :=
  let '(ws, r) := init s d in
  {| y_proc := match r with Ok m => Some (s, m) | Raise _ => None end; y_disk := atomic_jsons ws d |}.
Definition acted (y : sys Qc) (a : action Qc) : sys Qc :=
  match y_proc y with
  | Some (s, m) => let '(m', ws) := act s m a in
                   {| y_proc := Some (s, m'); y_disk := atomic_jsons ws (y_disk y) |}
  | None => y
  end.
Definition torn (y : sys Qc) (a : action Qc) (k : nat) : sys Qc :=
  match y_proc y with
  | Some (s, m) => {| y_proc := None; y_disk := atomic_jsons (take k (act s m a).2) (y_disk y) |}
  | None => y
  end.
Definition stopped (y : sys Qc) : sys Qc := {| y_proc := None; y_disk := y_disk y |}.
Definition tooled (y : sys Qc) (t : tool) : sys Qc :=
  {| y_proc := None; y_disk := atomic_jsons (tool_writes (y_disk y) t) (y_disk y) |}.
Definition mem_of (y : sys Qc) : mem Qc :=
  match y_proc y with
  | Some (_, m) => m
  | None => {| m_ledger := fresh_ledger s; m_value := fresh_value |}
  end.

(** 2026-01-15 00:00:00 UTC, in microseconds. *)
Definition now : instant := 1768435200000000.
Definition hm : string := "openai/gpt-oss-120b".
Definition qm : string := "qwen/qwen3-embedding-8b".
Definition rq : request Qc := {|
  rq_path := "/v1/chat/completions"; rq_authorization := "Bearer proxy"; rq_content_length := "100";
  rq_body := Ok (JObj [("model", JStr hm); ("max_tokens", JInt 1000);
                       ("messages", JArr [JStr "hello"])])%string |}.
Definition j0 : job Qc := {|
  j_endpoint := "chat"; j_payload := []; j_model := hm; j_input := 0; j_output := 0;
  j_quote := (0%Qc, ("", "", 0%Qc))%string |}.
Definition j : job Qc := match post_prepare hm qm s rq now with inr j => j | inl _ => j0 end.
Definition usage : odict (json Qc) := [("prompt_tokens", JInt 5); ("completion_tokens", JInt 7)]%string.
Definition answer : upstream Qc := UpResponse 200 (Ok (JObj [("usage", JObj usage)]))%string.

Definition turn : action Qc := ATurn j now "r1".
Definition finish : action Qc := AFinish "r1" answer (now + 1000000).

(** The proxy starts, reserves for a request, and records the answer. *)
Definition y1 : sys Qc := booted s (y_disk empty_sys).
Definition y2 : sys Qc := acted y1 turn.
Definition y3 : sys Qc := acted y2 finish.
(** Or it stops with the request in flight and starts again. *)
Definition y4 : sys Qc := booted s (y_disk (stopped y2)).

Lemma prepared : post_prepare hm qm s rq now = inr j.
Proof. vm_compute. reflexivity. Qed.
Definition reserve_writes : list (write Qc) := (post_reserve s (mem_of y1) j now "r1").1.2.
Lemma reserve_result : post_reserve s (mem_of y1) j now "r1" = (mem_of y2, reserve_writes, Sent "r1").
Proof. vm_compute. reflexivity. Qed.
Lemma sent : (post_reserve s (mem_of y1) j now "r1").2 = Sent "r1".
Proof. vm_compute. reflexivity. Qed.
Lemma charged : length (lg_calls (m_ledger (mem_of y3))) = 1%nat /\ vl_in_flight (m_value (mem_of y3)) = [].
Proof. vm_compute. split; reflexivity. Qed.
Lemma latched : vl_circuit_open (m_value (mem_of y4)) = true.
Proof. vm_compute. reflexivity. Qed.

Lemma step_booted s d e : from_env e = Ok s ->
  step {| y_proc := None; y_disk := d |} (LBoot e s) (booted s d).
Proof.
  intros He. unfold booted. destruct (init s d) as [ws r] eqn:Ei. by apply step_boot.
Qed.
Lemma step_acted y s m a : y_proc y = Some (s, m) -> action_ok s m a ->
  step y (LAct s m a) (acted y a).
Proof.
  intros Hy Ha. destruct y as [p d]. simpl in Hy. subst p. unfold acted. simpl.
  destruct (act s m a) as [m' ws] eqn:Ea. by apply step_act.
Qed.
Lemma step_stopped y s m : y_proc y = Some (s, m) -> step y LStop (stopped y).
Proof. intros Hy. destruct y as [p d]. simpl in Hy. subst p. apply step_stop. Qed.

Lemma running1 : y_proc y1 = Some (s, mem_of y1).
Proof. vm_compute. reflexivity. Qed.
Lemma running2 : y_proc y2 = Some (s, mem_of y2).
Proof. vm_compute. reflexivity. Qed.

Lemma reach1 : reachable ordinary y1.
Proof.
  apply (reachable_step _ empty_sys (LBoot env s)); [apply reachable_empty|done|].
  apply step_booted. apply get_ok_eq.
Qed.
Lemma reach2 : reachable ordinary y2.
Proof.
  apply (reachable_step _ y1 (LAct s (mem_of y1) turn)); [apply reach1|done|].
  apply step_acted; [apply running1|]. split; [vm_compute; reflexivity|].
  exists hm, qm, rq, now. apply prepared.
Qed.
End Demo.

Section properties.
Context {F : Type} `{ExactFloat F}.
Implicit Types (s : Settings F) (m : mem F) (d : disk F) (l : ledger F) (v : value F).


(** C25: Whatever happens (a dishonest provider, a crash between any two file
    writes, any tool), the recorded provider spend is the initial spend plus the
    cost of every recorded call, in the ledger file and in memory. *)
Theorem spend_conserved y : reachable anything y ->
  (forall l, d_ledger (y_disk y) = Some l -> conserved l) /\
  (forall s m, y_proc y = Some (s, m) -> conserved (m_ledger m)).
Proof.
  intros Hr. pose proof (consistent_reachable _ _ Hr) as [Hd Hc].
  split; [apply Hd|]. intros s m Hp. rewrite Hp in Hc. destruct Hc as (_ & _ & Hsy).
  apply (dk_conserved _ Hd). apply Hsy.
Qed.

(** C2: No reservation is lost: from any reachable state, across any step (a
    crash after any number of file writes included), a request that is in flight
    or charged in the files is still in flight or charged in them afterwards,
    unless the provider answered it with an error status. *)
Theorem no_reservation_lost y lb y' rid : reachable anything y -> step y lb y' ->
  accounted (y_disk y) rid -> accounted (y_disk y') rid \/ label_refused lb rid.
Proof.
  intros Hr Hs Ha. pose proof (consistent_reachable _ _ Hr) as [_ Hp].
  destruct Hs as [env s d ws r _ Hi|s m d a m' ws _ Hact|s m d|d t
                 |env s d ws r k _ Hi|s m d a m' ws k _ Hact|d t k]; simpl in *.
  - left. rewrite <- (firstn_all ws). by apply (init_accounted s d ws r).
  - rewrite <- (firstn_all ws). apply act_effect in Hact.
    apply (effect_accounted s m a m'); [done|apply Hp|done].
  - by left.
  - left. rewrite <- (firstn_all (tool_writes d t)). by apply tool_accounted.
  - left. by apply (init_accounted s d ws r).
  - apply act_effect in Hact. apply (effect_accounted s m a m'); [done|apply Hp|done].
  - left. by apply tool_accounted.
Qed.

(** A request reaches the provider only after its reservation is in the
    state file: the write that [reserve] issues puts it there. *)
Theorem sent_is_persisted s m j now rid m' ws rid' d :
  post_reserve s m j now rid = (m', ws, Sent rid') ->
  in_flight_on (atomic_jsons ws d) rid' /\ rid' = rid /\ dmem rid (vl_in_flight (m_value m')) = true.
Proof.
  unfold post_reserve. destruct (reserve_turn _ _ _ _ _ _ _ _ _) as [[?|m1 ws1 rid1 it]|[]] eqn:Er;
    intros E; simplify_eq/=; try discriminate.
  destruct (j_quote j) as [cost [[sc pe] lim]].
  apply reserve_turn_Reserved in Er as (_ & -> & _ & _ & _ & -> & ->). split_and!; [|done|].
  - eexists. split; [done|]. simpl. apply dkeys_dsort, dkeys_dset. by left.
  - simpl. unfold dmem. by rewrite dget_dset_eq.
Qed.

(** C3: The circuit is a latch: once the state file of a reachable proxy says
    open, every step that is not an operator tool leaves it open, restarts under
    other settings and crashes included, and a process running then refuses every
    request it would reserve for: nothing is reserved, sent or written, and the
    answer is a 402 that opens the circuit again. *)
Theorem circuit_latched y lb y' : reachable anything y -> step y lb y' ->
  latched_on (y_disk y) ->
  (forall t k, lb <> LTool t /\ lb <> LTornTool t k) ->
  latched_on (y_disk y') /\
  forall s m j now rid, y_proc y' = Some (s, m) ->
    exists msg, post_reserve s m j now rid = (m, [], Violated msg) /\
      forall m1, let '(m2, _, r) := post_violation m1 msg in
        r = RError 402 msg /\ vl_circuit_open (m_value m2) = true /\
        m_ledger m2 = m_ledger m1 /\ vl_in_flight (m_value m2) = vl_in_flight (m_value m1).
Proof.
  intros Hr Hs Hl Hlb. assert (latched_on (y_disk y')) as Hl'.
  { pose proof (consistent_reachable _ _ Hr) as [_ Hp].
    destruct Hs as [env s d ws r _ Hi|s m d a m' ws _ Hact|s m d|d t
                   |env s d ws r k _ Hi|s m d a m' ws k _ Hact|d t k]; simpl in *.
    - rewrite <- (firstn_all ws). by apply (init_latched s d ws r).
    - rewrite <- (firstn_all ws). apply act_effect in Hact.
      apply (effect_latched s m a m'); [done|apply Hp|done].
    - done.
    - by destruct (Hlb t 0%nat).
    - by apply (init_latched s d ws r).
    - apply act_effect in Hact. apply (effect_latched s m a m'); [done|apply Hp|done].
    - by destruct (Hlb t k). }
  split; [done|]. intros s m j now rid Hy.
  assert (consistent y') as [_ Hp'].
  { apply (consistent_step y lb); [by apply (consistent_reachable anything)|done]. }
  rewrite Hy in Hp'. destruct Hp' as (_ & _ & Hsy).
  apply (synced_latched m _ Hsy) in Hl'.
  unfold post_reserve, reserve_turn, reserve_guard. destruct (j_quote j) as [cost [[sc pe] lim]].
  rewrite Hl'. simpl. eexists. split; [done|]. intros m1. done.
Qed.

(** A restart that finds a request in flight opens the circuit, keeps the
    reservation, and has done so in the state file too. *)
Theorem restart_with_in_flight_latches s d ws m v :
  init s d = (ws, Ok m) -> d_value d = Some v -> vl_in_flight v <> [] ->
  vl_circuit_open (m_value m) = true /\ vl_reason (m_value m) = Some RESTART_REASON /\
  vl_in_flight (m_value m) = vl_in_flight v /\ latched_on (atomic_jsons ws d).
Proof.
  intros Hi Ev Hne. pose proof (init_synced s d ws m Hi) as Hsy.
  apply init_cases in Hi as [(e & [=] & _)|(m' & [= <-] & _ & _ & _ & _ & Hv)].
  unfold boot_value in Hv. rewrite Ev in Hv. simpl in Hv.
  destruct (vl_in_flight v) as [|x q] eqn:Eq; [done|].
  split_and!; [by rewrite Hv|by rewrite Hv|by rewrite Hv|].
  apply (synced_latched m); [done|]. by rewrite Hv.
Qed.

(** The ledger is append-only and bound to its first configuration: across
    any step from a reachable state the recorded calls are kept in order, the
    limits, prices and initial spend stay those of the ledger, and a process that
    is running afterwards runs with exactly these limits and prices. *)
Theorem ledger_append_only y lb y' l : reachable anything y -> step y lb y' ->
  d_ledger (y_disk y) = Some l ->
  extended_on l (y_disk y') /\
  forall s m, y_proc y' = Some (s, m) -> guard_fingerprint s = lg_guard l /\ extends l (m_ledger m).
Proof.
  intros Hr Hs El. assert (extended_on l (y_disk y')) as Hx.
  { pose proof (consistent_reachable _ _ Hr) as [_ Hp].
    destruct Hs as [env s d ws r _ Hi|s m d a m' ws _ Hact|s m d|d t
                   |env s d ws r k _ Hi|s m d a m' ws k _ Hact|d t k]; simpl in *.
    - rewrite <- (firstn_all ws). exists l. split; [by apply (init_extends s d ws r)|done].
    - destruct Hp as (_ & _ & Hsy). pose proof (sy_ledger _ _ Hsy) as El'. simplify_eq.
      rewrite <- (firstn_all ws). apply act_effect in Hact. by apply (effect_extends s m a m').
    - by exists l.
    - rewrite <- (firstn_all (tool_writes d t)). by apply tool_extends.
    - exists l. split; [by apply (init_extends s d ws r)|done].
    - destruct Hp as (_ & _ & Hsy). pose proof (sy_ledger _ _ Hsy) as El'. simplify_eq.
      apply act_effect in Hact. by apply (effect_extends s m a m').
    - by apply tool_extends. }
  split; [done|]. intros s m Hy.
  assert (consistent y') as [_ Hp'].
  { apply (consistent_step y lb); [by apply (consistent_reachable anything)|done]. }
  rewrite Hy in Hp'. destruct Hp' as (Hc & _ & Hsy).
  destruct Hx as (l' & El' & Hex). rewrite (sy_ledger _ _ Hsy) in El'. injection El' as <-.
  split; [|done]. rewrite Hc. by destruct Hex as (_ & -> & _).
Qed.
End properties.

(** ** Witnesses *)

Section witnesses.
Import Demo.

Lemma reach_anything {F} `{PyFloat F} ok (y : sys F) : reachable ok y -> reachable anything y.
Proof. induction 1; [apply reachable_empty|]. by eapply reachable_step. Qed.

Lemma step_turn : step y1 (LAct s (mem_of y1) turn) y2.
Proof.
  apply step_acted; [apply running1|]. split; [vm_compute; reflexivity|].
  exists hm, qm, rq, now. apply prepared.
Qed.
Lemma step_finish : step y2 (LAct s (mem_of y2) finish) y3.
Proof. by apply step_acted; [apply running2|]. Qed.
Lemma step_crash : step y2 LStop (stopped y2).
Proof. apply (step_stopped y2 s (mem_of y2)). apply running2. Qed.
Lemma step_reboot : step (stopped y2) (LBoot env s) y4.
Proof. apply step_booted. apply get_ok_eq. Qed.
Lemma reach_stopped : reachable anything (stopped y2).
Proof.
  apply (reachable_step _ y2 LStop); [|done|apply step_crash].
  apply (reach_anything ordinary), reach2.
Qed.


Lemma spend_conserved_witness : conserved (m_ledger (mem_of y2)).
Proof. exact (proj2 (spend_conserved y2 (reach_anything _ _ reach2)) s (mem_of y2) running2). Defined.

Lemma no_reservation_lost_witness : accounted (y_disk y3) "r1".
Proof.
  destruct (no_reservation_lost y2 _ y3 "r1" (reach_anything _ _ reach2) step_finish) as [Ha|Hf].
  - left. eexists. split; [vm_compute; reflexivity|]. apply list_elem_of_singleton. reflexivity.
  - exact Ha.
  - exfalso. destruct Hf as (st & b & now & Hf & Hle). injection Hf as <- _ _. lia.
Defined.

Lemma sent_is_persisted_witness : in_flight_on (y_disk y2) "r1".
Proof.
  exact (proj1 (sent_is_persisted s (mem_of y1) j now "r1" (mem_of y2) reserve_writes "r1" (y_disk y1) reserve_result)).
Defined.

Lemma circuit_latched_witness : latched_on (y_disk (stopped y4)).
Proof.
  refine (proj1 (circuit_latched y4 LStop (stopped y4) _ _ _ _)).
  - apply (reachable_step _ (stopped y2) (LBoot env s)); [apply reach_stopped|done|apply step_reboot].
  - apply (step_stopped y4 s (mem_of y4)). vm_compute. reflexivity.
  - eexists. split; vm_compute; reflexivity.
  - intros t k. split; discriminate.
Defined.

Lemma restart_with_in_flight_latches_witness : vl_circuit_open (m_value (mem_of y4)) = true.
Proof.
  refine (proj1 (restart_with_in_flight_latches s (y_disk y2) (init s (y_disk y2)).1 (mem_of y4)
    (default fresh_value (d_value (y_disk y2))) _ _ _)); vm_compute; [reflexivity|reflexivity|discriminate].
Defined.

Lemma ledger_append_only_witness :
  extended_on (m_ledger (mem_of y2)) (y_disk y3) /\ guard_fingerprint s = lg_guard (m_ledger (mem_of y2)).
Proof.
  destruct (ledger_append_only y2 _ y3 (m_ledger (mem_of y2)) (reach_anything _ _ reach2) step_finish
    ltac:(vm_compute; reflexivity)) as [Hx Hm].
  split; [exact Hx|]. apply (Hm s (mem_of y3)). vm_compute. reflexivity.
Defined.
End witnesses.
