(* ===== verification/BudgetRules.v ===== *)
(** * Budget proxy: what each operation promises

    Admission, payloads, recording, the reservation loop and the operator tools. *)

From stdpp Require Import base option list strings.
From Stdlib Require Import ZArith Lia QArith Qcanon SpecFloat Ascii.
From S2P Require Import Prelude PyStr PyFloat PyTime Sha256 Json BudgetConfig BudgetState BudgetTools BudgetServer BudgetSafety BudgetTheorems.

Local Open Scope Z_scope.
Local Open Scope py_scope.

Section rate.
Context {F : Type} `{ExactFloat F}.
Implicit Types (s : Settings F) (m : mem F).

Lemma fmax_pos (a b : F) : f_leb a (f_of_Z 0) = false -> f_leb (f_max a b) (f_of_Z 0) = false.
Proof.
  intros Ha. apply not_true_is_false. intros Hm. pose proof (fmax_l a b) as Hl.
  pose proof (fleb_trans _ _ _ Hl Hm). congruence.
Qed.

(** No delay means that both windows have room. *)
Lemma rate_delay_zero s m tokens now d :
  _rate_delay s m tokens now = Ok d -> f_leb d (f_of_Z 0) = true ->
  Z.of_nat (length (recent m now)) < rpm_limit s /\
  tokens_of (recent m now) + tokens <= tpm_limit s.
Proof.
  unfold _rate_delay. intros Hd. apply bind_Ok in Hd as (u & _ & Hd). revert Hd.
  destruct (_ && _) eqn:Eb.
  - intros _ _. apply andb_true_iff in Eb as [E1%negb_true_iff E2%negb_true_iff]. lia.
  - destruct (recent m now) as [|[t n] r]; intros [= <-] Hle; exfalso; revert Hle.
    + by rewrite fof_Z_leb.
    + rewrite fmax_pos; [done|]. by apply flit_pos.
Qed.

Lemma window_entry_old now started tokens :
  started + seconds 60 <= now -> window_entry (F := F) now started tokens = [].
Proof.
  intros Hle. unfold window_entry. rewrite fltb_negb. unfold timestamp.
  rewrite (fquot_sub_leb now started 60 usec_per_second) by done.
  assert ((60 * usec_per_second <=? now - started) = true) as ->.
  { apply Z.leb_le. unfold seconds in Hle. lia. }
  by rewrite andb_false_r.
Qed.

(** Every request of the ledger and in flight started a minute ago or earlier. *)
Definition quiet m now : Prop :=
  Forall (fun c => cl_started_at c + seconds 60 <= now) (lg_calls (m_ledger m)) /\
  Forall (fun it => it_started_at it + seconds 60 <= now) (dvalues (vl_in_flight (m_value m))).

Lemma recent_quiet m now : quiet m now -> recent m now = [].
Proof.
  intros [Hc Hi]. unfold recent.
  assert (forall A (f : A -> instant) (g : A -> Z) (l : list A),
    Forall (fun a => f a + seconds 60 <= now) l ->
    flat_map (fun a => window_entry (F := F) now (f a) (g a)) l = []) as Hnil.
  { intros A f g l. induction 1 as [|a l Ha _ IH]; simpl; [done|]. by rewrite window_entry_old, IH. }
  pose proof (Hnil _ cl_started_at (fun c => cl_input_tokens c + cl_output_tokens c) _ Hc) as E1.
  pose proof (Hnil _ it_started_at (fun it => rs_total_tokens (it_reservation it)) _ Hi) as E2.
  cbn beta in E1, E2. by rewrite E1, E2.
Qed.

Lemma rate_delay_quiet s m tokens now d :
  0 < rpm_limit s -> quiet m now -> _rate_delay s m tokens now = Ok d -> d = f_of_Z 0.
Proof.
  intros Hrpm Hq. unfold _rate_delay. rewrite (recent_quiet m now Hq).
  intros Hd. apply bind_Ok in Hd as (u & Ht%raise_if_Ok & Hd).
  assert (length (@nil (F * Z)) = 0%nat) as E0 by done. rewrite E0 in Hd.
  assert ((rpm_limit s <=? Z.of_nat 0) = false) as E1 by (apply Z.leb_gt; lia).
  assert ((tpm_limit s <? tokens_of (@nil (F * Z)) + tokens) = false) as E2.
  { unfold tokens_of. simpl. rewrite Z.add_0_l. done. }
  rewrite E1, E2 in Hd. simpl in Hd. by injection Hd.
Qed.

Lemma reserve_turn_quiet s m endpoint model i o qt now rid d :
  0 < rpm_limit s -> quiet m now ->
  reserve_turn s m endpoint model i o qt now rid <> Ok (Wait d).
Proof.
  intros Hrpm Hq Hr. unfold reserve_turn in Hr. destruct qt as [cost [[sc pe] lim]].
  apply bind_Ok in Hr as (u & _ & Hr). apply bind_Ok in Hr as (dl & Hd & Hr).
  apply rate_delay_quiet in Hd as ->; try done. by rewrite fleb_refl in Hr.
Qed.
End rate.

Section payloads.
Context {F : Type} `{PyFloat F}.

(** The [strict] field of a structured-output request. *)
Definition strict_of (p : odict (json F)) : option (json F) :=
  r ← dget "response_format" p; r ← as_obj r; s ← dget "json_schema" r; s ← as_obj s; dget "strict" s.

Definition pinned : list string :=
  ["reasoning_effort"; "include_reasoning"; "max_completion_tokens"; "max_tokens"]%string.

Definition messages_of (p : odict (json F)) : json F :=
  match dget "messages" p with Some j => if truthy j then j else JArr [] | None => JArr [] end.

Definition chat_payload_spec (hm : string) (d p : odict (json F)) (i o : Z) : Prop :=
  dget "model" d = Some (JStr hm) /\ otruthy (dget "stream" d) = false /\
  strict_of d <> Some (JBool true) /\
  (dget "reasoning_effort" d = None \/ dget "reasoning_effort" d = Some (JStr "low")) /\
  1 <= o <= 8192 /\
  json_int (default (default (JInt 8192) (dget "max_tokens" d)) (dget "max_completion_tokens" d)) = Ok o /\
  i = prompt_bytes (messages_of d) /\
  forall k, dget k p =
    if bool_decide (k = "max_tokens")%string then None
    else if bool_decide (k = "max_completion_tokens")%string then Some (JInt o)
    else if bool_decide (k = "include_reasoning")%string then Some (JBool false)
    else if bool_decide (k = "reasoning_effort")%string then Some (JStr "low")
    else dget k d.
Definition embedding_payload_spec (qm : string) (d p : odict (json F)) (i o : Z) : Prop :=
  dget "model" d = Some (JStr qm) /\ o = 0 /\
  (exists texts, i = prompt_bytes (JArr texts) /\ 1 <= Z.of_nat (length texts) <= 64 /\
     Forall (fun t => is_str t = true) texts /\
     (dget "input" d = Some (JArr texts) \/ exists t, dget "input" d = Some (JStr t) /\ texts = [JStr t])) /\
  (jget "dimensions" d = None /\ p = d \/
   exists n, 1 <= n <= 4096 /\ p = dset "dimensions" (JInt n) d).

Lemma chat_payload_ok hm (d p : odict (json F)) i o :
  NoDup (dkeys d) -> prepare_chat_payload hm (JObj d) = Ok (p, i, o) -> chat_payload_spec hm d p i o.
Proof.
  intros Hd Hp. unfold prepare_chat_payload in Hp. inv_ok.
  repeat match goal with Hb : negb _ = false |- _ => apply negb_false_iff in Hb end.
  rewrite eq_str_true in *. simplify_eq.
  assert (NoDup (dkeys (dset "max_completion_tokens" (JInt o) (dset "include_reasoning" (JBool false)
    (dset "reasoning_effort" (JStr "low") d))))) as Hd' by (repeat apply dset_NoDup; done).
  split; [|split; [|split; [|split; [|split; [|split; [|split]]]]]].
  - destruct (dget "model" d); by simplify_eq/=.
  - done.
  - intros E. unfold strict_of in E.
    match goal with Hs : _ = false |- _ => rewrite E in Hs; discriminate Hs end.
  - destruct (dget "reasoning_effort" d); [right|by left]; by simplify_eq/=.
  - match goal with Hb : _ && _ = true |- _ => apply andb_true_iff in Hb as [?%Z.ltb_lt Hb%Z.leb_le];
      unfold MAX_COMPLETION_TOKENS in Hb end. lia.
  - match goal with Hg : guard_int _ _ = Ok _ |- _ => unfold guard_int in Hg; revert Hg end.
    destruct (json_int _) as [z|[]]; congruence.
  - f_equal. unfold messages_of. rewrite dget_dpop, !dget_dset by done. done.
  - intros k. rewrite dget_dpop, !dget_dset by done. done.
Qed.

Lemma embedding_payload_ok qm (d p : odict (json F)) i o :
  prepare_embedding_payload qm (JObj d) = Ok (p, i, o) -> embedding_payload_spec qm d p i o.
Proof.
  intros Hp. unfold prepare_embedding_payload in Hp. inv_ok.
  repeat match goal with Hb : negb _ = false |- _ => apply negb_false_iff in Hb end.
  rewrite eq_str_true in *. simplify_eq. split_and!.
  - destruct (dget "model" d); by simplify_eq/=.
  - done.
  - eexists. split; [done|]. match goal with Hb : (64 <? _) = false |- _ => apply Z.ltb_ge in Hb end.
    destruct (dget "input" d) as [[| | | |t|texts|]|]; try done; simplify_eq.
    + simpl in *. split_and!; try lia; [by repeat constructor|right; by exists t].
    + destruct (_ && _) eqn:Eb; [|done]. apply andb_true_iff in Eb as [E1 E2]. inv_ok.
      apply negb_true_iff, bool_decide_eq_false in E1. split_and!; [lia|lia| |by left].
      apply Forall_forall. intros t Ht. rewrite forallb_forall in E2. apply E2. by apply list_elem_of_In.
  - destruct (jget "dimensions" d) as [j|] eqn:Ej; [right|left; by simplify_eq].
    inv_ok. eexists. split; [|done].
    match goal with Hb : negb _ = false |- _ => apply negb_false_iff, andb_true_iff in Hb end. lia.
Qed.
End payloads.

Section operations.
Context {F : Type} `{ExactFloat F}.
Implicit Types (s : Settings F) (m : mem F) (d : disk F) (l : ledger F) (v : value F).

Lemma post_prepare_model hm qm s rq now (j : job F) :
  (forall b, rq_body rq = Ok (JObj b) -> NoDup (dkeys b)) ->
  post_prepare hm qm s rq now = inr j ->
  (j_endpoint j = "chat"%string /\ j_model j = hm \/ j_endpoint j = "embeddings"%string /\ j_model j = qm) /\
  j_output j <= 8192.
Proof.
  intros Hb Hj. unfold post_prepare in Hj.
  destruct (if bool_decide _ then Some "chat"%string else _) as [ep|] eqn:Eep; [|done].
  destruct (authorized s rq); [|done]. destruct (provider_egress_enabled s); [|done]. simpl in Hj.
  destruct (post_job _ _ _ _ _ _) as [j'|e] eqn:Ej; [|done]. injection Hj as ->.
  unfold post_job in Ej. apply bind_Ok in Ej as (b & Hrb & Ej). apply bind_Ok in Ej as ([[p i] o] & Hp & Ej).
  apply bind_Ok in Ej as (qt & _ & [= <-]). simpl.
  assert (rq_body rq = Ok b) as Hrq.
  { unfold read_body in Hrb. destruct (parse_int _); [|done]. by inv_ok. }
  destruct b as [| | | | | |d]; try by case_bool_decide.
  case_bool_decide as Hep.
  - apply chat_payload_ok in Hp as (Hm & _ & _ & _ & Ho & _ & _ & Hk); [|by apply Hb]. split; [left|lia].
    by rewrite Hk, Hm.
  - apply embedding_payload_ok in Hp as (Hm & Ho & _ & Hk). split; [right|lia].
    assert (dget "model" p = Some (JStr qm)) as ->.
    { destruct Hk as [[_ ->]|(n & _ & ->)]; [done|by rewrite dget_dset]. }
    split; [|done]. repeat case_bool_decide; by simplify_eq.
Qed.

(** A request is sent to the provider only when it carries the proxy key, egress
    is enabled, its model is the one allowed for its endpoint and asks for at most
    8192 completion tokens, the circuit is closed, fewer than [rpm_limit] requests
    and at most [tpm_limit] tokens (its own included) fall in the last minute, and
    the provider ceiling has room for its cost. *)
Theorem admission_checked hm qm s rq now0 m now rid m' ws rid' (j : job F) :
  (forall b, rq_body rq = Ok (JObj b) -> NoDup (dkeys b)) ->
  post_prepare hm qm s rq now0 = inr j ->
  post_reserve s m j now rid = (m', ws, Sent rid') ->
  rq_authorization rq = "Bearer " +:+ proxy_api_key s /\ provider_egress_enabled s = true /\
  (j_endpoint j = "chat"%string /\ j_model j = hm \/ j_endpoint j = "embeddings"%string /\ j_model j = qm) /\
  0 <= j_output j <= 8192 /\ vl_circuit_open (m_value m) = false /\
  Z.of_nat (length (recent m now)) < rpm_limit s /\
  tokens_of (recent m now) + (j_input j + j_output j) <= tpm_limit s /\
  f_leb (f_add (f_add (lg_provider_spent_usd (m_ledger m)) (_pending_cost m None)) (j_quote j).1)
    (effective_provider_limit s) = true.
Proof.
  intros Hb Hj Hr. pose proof (post_prepare_job _ _ _ _ _ _ Hj) as (Ha & He & Hi & Ho & _).
  destruct (post_prepare_model _ _ _ _ _ _ Hb Hj) as [Hm Hout].
  unfold authorized in Ha. apply bool_decide_eq_true in Ha. unfold post_reserve in Hr.
  destruct (reserve_turn _ _ _ _ _ _ _ _ _) as [[d|m1 ws1 rid1 it]|e] eqn:Et;
    [simplify_eq| |destruct e; simplify_eq].
  unfold reserve_turn in Et. destruct (j_quote j) as [cost [[sc pe] lim]].
  apply bind_Ok in Et as (u & Hg%reserve_guard_Ok & Et). apply bind_Ok in Et as (dl & Hd & Et).
  destruct (f_leb dl (f_of_Z 0)) eqn:Edl; [|done].
  destruct (rate_delay_zero _ _ _ _ _ Hd Edl) as [Hrpm Htpm]. destruct Hg as (Hc & Hl & _).
  split_and!; try done; lia.
Qed.

(** C40: The reservation loop returns: as soon as the clock gives one reading at
    which every recorded and in-flight request is at least a minute old, the loop
    has either granted the reservation or refused it. *)
Theorem reservation_loop_returns s m endpoint model i o qt clock rid now :
  0 < rpm_limit s -> now ∈ clock -> quiet m now ->
  exists r, reserve_loop s m endpoint model i o qt clock rid = Some r.
Proof.
  intros Hrpm Hin Hq. induction clock as [|t clock IH]; [by apply elem_of_nil in Hin|].
  simpl. destruct (reserve_turn s m endpoint model i o qt t rid) as [[d|m' ws rid' it]|e] eqn:Et.
  - apply elem_of_cons in Hin as [<-|Hin]; [|by apply IH].
    by apply reserve_turn_quiet in Et.
  - by eexists.
  - by eexists.
Qed.

(** What a call is charged: at least its metered price and at least the cost
    the provider reported, and nothing above both; a count the provider does not
    report is the reserved one, and a larger reported total is not ignored.  When
    neither the counts nor the reported cost exceed the reservation, the charge does
    not either. *)
Theorem recorded_charge s rid it usage now (c : call F) p calculated rep :
  prices_nonneg s -> dget (it_model it) (prices s) = Some p ->
  record_call s rid it usage now = Ok c ->
  _token_cost p (cl_input_tokens c) (cl_output_tokens c) = Ok calculated ->
  reported_cost usage = Ok rep ->
  f_leb calculated (cl_cost_usd c) = true /\ f_leb rep (cl_cost_usd c) = true /\
  (forall b, f_leb calculated b = true -> f_leb rep b = true -> f_leb (cl_cost_usd c) b = true) /\
  (usage_get usage "prompt_tokens" "input_tokens" = None ->
     cl_input_tokens c = rs_input_tokens (it_reservation it) /\ cl_estimated_from_reservation c = true) /\
  (forall j t, jget "total_tokens" usage = Some j -> json_int j = Ok t ->
     t <= cl_input_tokens c + cl_output_tokens c) /\
  (_token_cost p (rs_input_tokens (it_reservation it)) (rs_output_tokens (it_reservation it)) = Ok (item_cost it) ->
   cl_input_tokens c <= rs_input_tokens (it_reservation it) ->
   cl_output_tokens c <= rs_output_tokens (it_reservation it) ->
   f_leb rep (item_cost it) = true -> f_leb (cl_cost_usd c) (item_cost it) = true).
Proof.
  intros Hp Hm Hr Hcalc Hrep. destruct (dget_prices _ _ _ Hp Hm) as [Hp1 Hp2].
  unfold record_call in Hr. rewrite Hm in Hr.
  apply bind_Ok in Hr as (i & Hi & Hr). apply bind_Ok in Hr as (o0 & Ho0 & Hr).
  apply bind_Ok in Hr as (o & Ho & Hr). apply bind_Ok in Hr as (p' & [= <-] & Hr).
  apply bind_Ok in Hr as (calc & Hc & Hr). apply bind_Ok in Hr as (rep' & Hrep' & [= <-]). simpl in *.
  rewrite Hrep in Hrep'. injection Hrep' as <-. rewrite Hc in Hcalc. injection Hcalc as ->.
  split_and!; auto with py.
  - intros b. apply fmax_lub.
  - intros E. rewrite E in *. simpl in *. by simplify_eq.
  - intros j t Ej Et. rewrite Ej in Ho. apply bind_Ok in Ho as (t' & Et' & [= <-]). rewrite Et in Et'. injection Et' as <-. lia.
  - intros Hres Hile Hole Hrl. apply fmax_lub; [|done].
    by apply (_token_cost_mono p i o (rs_input_tokens (it_reservation it)) (rs_output_tokens (it_reservation it))).
Qed.

(** What the proxy makes of the provider's answer, for a request in flight: an
    exception, or a success whose body cannot be metered, changes nothing and leads
    to the [except] branch, which keeps every reservation and opens the circuit; 401
    and 402 drop the reservation and open it; any other error status drops it; a
    metered success moves it to the ledger, once. *)
Theorem provider_outcomes s m rid up now m' ws r :
  dmem rid (vl_in_flight (m_value m)) = true -> NoDup (dkeys (vl_in_flight (m_value m))) ->
  rid <> EmptyString -> post_finish s m rid up now = (m', ws, r) ->
  let kept := dmem rid (vl_in_flight (m_value m')) in
  let opened := vl_circuit_open (m_value m') in
  let same := m_ledger m' = m_ledger m in
  let failed := m' = m /\ ws = [] /\ exists e, r = Failed e /\
    forall m1, let '(m2, _, answer) := post_ambiguous m1 rid e in
      answer = RError 502 "ambiguous upstream failure" /\ vl_circuit_open (m_value m2) = true /\
      m_ledger m2 = m_ledger m1 /\ vl_in_flight (m_value m2) = vl_in_flight (m_value m1) in
  match up with
  | UpRaised _ => failed
  | UpResponse st body =>
      if (st =? 401) || (st =? 402) then r = Replied (RForward st) /\ kept = false /\ opened = true /\ same
      else if st <? 400 then
        failed \/
        (r = Replied (RForward st) /\ kept = false /\ opened = vl_circuit_open (m_value m) /\
         exists c, m_ledger m' = add_call c (m_ledger m) /\ cl_request_id c = rid)
      else r = Replied (RForward st) /\ kept = false /\ opened = vl_circuit_open (m_value m) /\ same
  end.
Proof.
  intros Hin Hnd Hrid. unfold post_finish, open_circuit, discard.
  assert (dmem rid (dpop rid (vl_in_flight (m_value m))) = false) as Hout.
  { unfold dmem. rewrite dget_dpop by done. by rewrite bool_decide_eq_true_2. }
  destruct up as [e|st body]; [intros [= <- <- <-]; split_and!; [done|done|by exists e]|].
  destruct (_ || _); [|destruct (st <? 400)].
  - rewrite bool_decide_eq_false_2 by done. intros [= <- <- <-]. done.
  - destruct (mbind _ body) as [[[m1 ws1] c]|e] eqn:Er; intros [= <- <- <-];
      [right|left; split_and!; [done|done|by exists e]].
    apply bind_Ok in Er as (b & _ & Er). apply bind_Ok in Er as (u & _ & Er).
    apply record_Ok in Er as (it & _ & Hc & Hl & Hv & _). rewrite Hv, Hl. split_and!; [done..|].
    exists c. split; [done|]. by apply record_call_fields in Hc as (_ & _ & ? & _).
  - intros [= <- <- <-]. done.
Qed.

(** Reconciliation settles every ambiguous request at its full reservation: it
    needs the acknowledgement and at least one reservation; afterwards nothing is in
    flight, the circuit is closed, every request that was in flight has a ledger call
    at its reserved cost, the spend has grown by exactly what was pending, and a
    conserved ledger within budget stays so. *)
Theorem reconcile_settles ack d now ws r l v :
  d_ledger d = Some l -> d_value d = Some v -> reconcile ack d now = Ok (ws, r) ->
  exists l' v', atomic_jsons ws d = {| d_ledger := Some l'; d_value := Some v' |} /\
    ack = true /\ vl_in_flight v <> [] /\
    vl_in_flight v' = [] /\ vl_circuit_open v' = false /\
    lg_provider_spent_usd l' = f_add (lg_provider_spent_usd l) (q_pending any_item (vl_in_flight v)) /\
    lg_guard l' = lg_guard l /\
    (forall rid it, (rid, it) ∈ vl_in_flight v ->
       exists c, c ∈ lg_calls l' /\ cl_request_id c = rid /\ cl_cost_usd c = item_cost it /\
         cl_scope c = it_scope it /\ cl_period c = it_period it) /\
    (conserved l -> conserved l') /\
    (within_budget l (vl_in_flight v) -> within_budget l' (vl_in_flight v')).
Proof.
  intros El Ev Hr. apply reconcile_Ok in Hr as (l0 & v0 & Hack & El0 & Ev0 & Hne & v' & -> & Hq & Ho & _).
  simplify_eq. do 2 eexists. split; [done|]. simpl.
  change (vl_in_flight (with_in_flight (dsort (vl_in_flight v')) v')) with (dsort (vl_in_flight v')).
  rewrite Hq. simpl. split_and!; try done.
  - f_equal. apply q_pending_perm, dsort_Permutation.
  - intros rid it Hin. exists (reconcile_call now rid it). split_and!; [|done..].
    apply elem_of_app. right. apply (list_elem_of_fmap_2 (fun kv => reconcile_call now kv.1 kv.2) _ (rid, it)).
    by rewrite dsort_Permutation.
  - apply reconcile_conserved.
  - intros Hw. apply reconcile_within. apply (within_budget_perm _ _ _ (symmetry (dsort_Permutation _)) Hw).
Qed.

(** Only a provider-authentication failure can be reset, with nothing in
    flight, by a fresh token: a reset that succeeds found an open circuit whose
    reason is a 401 or a 402 of the provider, leaves the ledger file alone, closes
    the circuit, and the same token is refused in every later state that remembers
    the consumed ones. *)
Theorem reset_is_one_shot ack tok d now ws r :
  reset_provider_auth_circuit ack tok d now = Ok (ws, r) ->
  exists v v', d_value d = Some v /\ ack = true /\
    atomic_jsons ws d = {| d_ledger := d_ledger d; d_value := Some v' |} /\
    vl_circuit_open v = true /\ vl_in_flight v = [] /\
    (vl_reason v = Some "provider returned 401"%string \/ vl_reason v = Some "provider returned 402"%string) /\
    vl_circuit_open v' = false /\ vl_in_flight v' = [] /\
    forall d2 v2 ack2 now2, d_value d2 = Some v2 ->
      vl_consumed_reset_tokens v' ⊆ vl_consumed_reset_tokens v2 ->
      exists e, reset_provider_auth_circuit ack2 tok d2 now2 = Raise e.
Proof.
  intros Hr. apply reset_Ok in Hr as (v & v1 & Hack & Ev & Ho & Hq & Hre & Hnew & -> & Hq1 & Ho1 & _ & Hct).
  exists v, (file_of v1). split_and!; [done..| | | |].
  - destruct (vl_reason v) as [x|]; simpl in Hre; unfold RESETTABLE_REASONS in Hre;
      rewrite !elem_of_cons, elem_of_nil in Hre; naive_solver.
  - done.
  - simpl. by rewrite Hq1.
  - intros d2 v2 ack2 now2 Ev2 Hsub.
    destruct (reset_provider_auth_circuit ack2 tok d2 now2) as [[ws2 r2]|e] eqn:E2; [|by eexists].
    exfalso. apply reset_Ok in E2 as (v3 & v4 & _ & Ev3 & _ & _ & _ & Hn & _). simplify_eq.
    apply Hn, Hsub. simpl. rewrite Hct. apply elem_of_app. right. by apply list_elem_of_singleton.
Qed.

(** What the proxy forwards for a chat request: the requested model is the
    one allowed, no stream, no strict structured output, no reasoning beyond
    "low", a completion ceiling between 1 and 8192 taken from the request, the
    prompt counted at its serialized size; the four guarded fields are pinned and
    every other field is passed on unchanged. *)
Theorem chat_payload_guarded hm (b p : odict (json F)) i o :
  NoDup (dkeys b) -> prepare_chat_payload hm (JObj b) = Ok (p, i, o) -> chat_payload_spec hm b p i o.
Proof. apply chat_payload_ok. Qed.

(** What the proxy forwards for an embedding request: the allowed model, one
    to sixty-four texts (a lone string counts as one), dimensions within 1..4096
    when given and then normalised to an integer, everything else unchanged, and
    no completion tokens. *)
Theorem embedding_payload_guarded qm (b p : odict (json F)) i o :
  prepare_embedding_payload qm (JObj b) = Ok (p, i, o) -> embedding_payload_spec qm b p i o.
Proof. apply embedding_payload_ok. Qed.
End operations.

(** ** Behaviour that only shows in binary64 *)

Module Binary.
(** The environment of the demo with one more variable set. *)
Definition env_with (name val : string) : environ := fun n =>
  if bool_decide (n = name) then Some val else Demo.env n.

Definition nan_settings : result (Settings spec_float) :=
  from_env (env_with "PROVIDER_TOTAL_LIMIT_USD" "nan").

Lemma nan_ok : is_ok nan_settings = true.
Proof. vm_compute. reflexivity. Qed.
Lemma demo_ok : is_ok (from_env (F := spec_float) Demo.env) = true.
Proof. vm_compute. reflexivity. Qed.

(** A provider limit of "nan" passes every check of [Settings.from_env] and
    then switches the provider ceiling off: with it, a process accepts a request
    after ten million dollars of recorded spend. *)
Theorem nan_limit_disables_ceiling :
  exists s, nan_settings = Ok s /\
    reserve_guard s
      {| m_ledger := {| lg_guard := guard_fingerprint s; lg_initial_provider_spend_usd := f_of_Z 0;
                        lg_provider_spent_usd := f_of_Z 10000000; lg_calls := [] |};
         m_value := fresh_value |}
      (f_of_Z 20) "hindsight_backfill" "all" (hindsight_backfill_limit_usd s) = Ok tt.
Proof.
  exists (get_ok nan_settings nan_ok). split; [apply get_ok_eq|]. vm_compute. reflexivity.
Qed.

(** A completion ceiling of 1e999 is neither accepted nor rejected with a
    400: its conversion overflows, and the handler dies without an answer. *)
Theorem infinite_ceiling_aborts :
  exists msg s, from_env Demo.env = Ok s /\
    post_prepare (F := spec_float) Demo.hm Demo.qm s
      {| rq_path := "/v1/chat/completions"; rq_authorization := "Bearer proxy";
         rq_content_length := "60";
         rq_body := Ok (JObj [("model", JStr Demo.hm); ("max_tokens", JFloat (S754_infinity false))])%string |}
      0 = inl (RAborted (OverflowError msg)).
Proof.
  eexists. exists (get_ok _ demo_ok). split; [apply get_ok_eq|]. vm_compute. reflexivity.
Qed.
End Binary.

Section witnesses.
Import Demo.

Lemma chat_payload_guarded_witness :
  exists p i o, chat_payload_spec (F := Qc) hm [("model", JStr hm); ("max_tokens", JInt 1000)]%string p i o.
Proof.
  do 3 eexists. apply chat_payload_guarded; [|vm_compute; reflexivity].
  apply (bool_decide_unpack _). vm_compute. reflexivity.
Defined.

Lemma embedding_payload_guarded_witness :
  exists p i o, embedding_payload_spec (F := Qc) qm [("model", JStr qm); ("input", JStr "text")]%string p i o.
Proof. do 3 eexists. apply embedding_payload_guarded. vm_compute. reflexivity. Defined.

Lemma admission_checked_witness : rq_authorization rq = "Bearer " +:+ proxy_api_key s.
Proof.
  refine (proj1 (admission_checked hm qm s rq now (mem_of y1) now "r1" (mem_of y2) reserve_writes "r1" j
    _ prepared reserve_result)).
  intros b Hb. injection Hb as <-. apply (bool_decide_unpack _). vm_compute. reflexivity.
Defined.

Lemma reservation_loop_returns_witness :
  exists r, reserve_loop s (mem_of y2) "chat" hm 9 1000 (j_quote j)
    [now + 1; now + seconds 30; now + seconds 60] "r2" = Some r.
Proof.
  apply (reservation_loop_returns s (mem_of y2) "chat" hm 9 1000 (j_quote j)
    [now + 1; now + seconds 30; now + seconds 60] "r2" (now + seconds 60)).
  - vm_compute. reflexivity.
  - apply (bool_decide_unpack _). vm_compute. reflexivity.
  - split; apply (bool_decide_unpack _); vm_compute; reflexivity.
Defined.

Definition demo_item : item Qc :=
  default {| it_model := ""; it_endpoint := ""; it_scope := ""; it_period := ""; it_started_at := 0;
             it_reservation := {| rs_input_tokens := 0; rs_output_tokens := 0; rs_total_tokens := 0;
                                  rs_cost_usd := 0%Qc |} |}
    (dget "r1" (vl_in_flight (m_value (mem_of y2)))).

Lemma recorded_ok : is_ok (record_call s "r1" demo_item usage now) = true.
Proof. vm_compute. reflexivity. Qed.
Definition demo_call : call Qc := get_ok _ recorded_ok.
Definition demo_price : Qc * Qc := default (0%Qc, 0%Qc) (dget hm (prices s)).
Lemma priced_ok : is_ok (_token_cost demo_price (cl_input_tokens demo_call) (cl_output_tokens demo_call)) = true.
Proof. vm_compute. reflexivity. Qed.

Lemma usage_ok : is_ok (reported_cost usage) = true.
Proof. vm_compute. reflexivity. Qed.

Lemma recorded_charge_witness :
  f_leb (get_ok _ priced_ok) (cl_cost_usd demo_call) = true.
Proof.
  refine (proj1 (recorded_charge s "r1" demo_item usage now demo_call demo_price (get_ok _ priced_ok)
    (get_ok (reported_cost usage) usage_ok) _ _ (get_ok_eq _ _) (get_ok_eq _ _) (get_ok_eq _ _))).
  - apply (from_env_nonneg env). apply get_ok_eq.
  - vm_compute. reflexivity.
Defined.

Lemma provider_outcomes_witness :
  dmem "r1" (vl_in_flight (m_value (post_finish s (mem_of y2) "r1" (UpResponse 402 (Ok JNull)) now).1.1)) = false.
Proof.
  destruct (post_finish s (mem_of y2) "r1" (UpResponse 402 (Ok JNull)) now) as [[m' ws] r] eqn:E.
  refine (proj1 (proj2 (provider_outcomes s (mem_of y2) "r1" (UpResponse 402 (Ok JNull)) now m' ws r _ _ _ E))).
  - vm_compute. reflexivity.
  - apply (bool_decide_unpack _). vm_compute. reflexivity.
  - discriminate.
Defined.

Definition demo_reconciled : list (write Qc) * reconciled Qc :=
  get_ok (reconcile true (y_disk y4) now) ltac:(vm_compute; reflexivity).
Lemma reconcile_settles_witness :
  exists l' v', atomic_jsons demo_reconciled.1 (y_disk y4) = {| d_ledger := Some l'; d_value := Some v' |} /\
    vl_in_flight v' = [].
Proof.
  destruct (reconcile_settles true (y_disk y4) now demo_reconciled.1 demo_reconciled.2
    (m_ledger (mem_of y4)) (default fresh_value (d_value (y_disk y4)))) as (l' & v' & E & _ & _ & Hq & _).
  - vm_compute. reflexivity.
  - vm_compute. reflexivity.
  - rewrite <- surjective_pairing. apply get_ok_eq.
  - exists l', v'. split; [exact E | exact Hq].
Defined.

Definition denied_disk : disk Qc := y_disk (acted y2 (AFinish "r1" (UpResponse 401 (Ok JNull)) now)).
Definition demo_reset : list (write Qc) * reset_result :=
  get_ok (reset_provider_auth_circuit true "token" denied_disk now) ltac:(vm_compute; reflexivity).
Lemma reset_is_one_shot_witness :
  exists v, d_value denied_disk = Some v /\ vl_circuit_open v = true.
Proof.
  destruct (reset_is_one_shot true "token" denied_disk now demo_reset.1 demo_reset.2)
    as (v & v' & Hv & _ & _ & Ho & _).
  - rewrite <- surjective_pairing. apply get_ok_eq.
  - exists v. split; [exact Hv | exact Ho].
Defined.

Definition y5 : sys Qc := torn y2 finish 1.
Definition y6 : sys Qc := tooled y5 (TReconcile true now).

(** A crash between the two file writes of [record], followed by the operator's
    reconciliation, charges one request twice: the conservative side, but the
    recorded spend is no longer what the requests cost. *)
Theorem torn_record_charged_twice :
  reachable anything y6 /\
  map cl_request_id (default [] (lg_calls <$> d_ledger (y_disk y6))) = ["r1"; "r1"]%string.
Proof.
  split; [|vm_compute; reflexivity].
  apply (reachable_step _ y5 (LTool (TReconcile true now))); [|done|].
  - apply (reachable_step _ y2 (LTornAct s (mem_of y2) finish 1)); [apply (reach_anything ordinary), reach2|done|].
    assert (y2 = {| y_proc := Some (s, mem_of y2); y_disk := y_disk y2 |}) as E.
    { rewrite <- running2. by destruct y2. }
    assert (y5 = {| y_proc := None; y_disk := atomic_jsons (take 1 (act s (mem_of y2) finish).2) (y_disk y2) |}) as ->.
    { unfold y5, torn. by rewrite running2. }
    rewrite E at 1. by apply (step_torn_act s (mem_of y2) _ finish (act s (mem_of y2) finish).1);
      [|apply surjective_pairing].
  - assert (y5 = {| y_proc := None; y_disk := y_disk y5 |}) as E by (unfold y5, torn; by rewrite running2).
    rewrite E at 1. apply step_tool.
Qed.
End witnesses.
