(* ===== verification/Recovery.v ===== *)
(** * Hindsight recovery: settings and decisions

    [deploy/hindsight-recovery/recovery.py], the part without effects: the settings, the
    phase, and the functions that decide whether the staged backfill may go on. *)

From stdpp Require Import base option list strings.
From Stdlib Require Import ZArith Lia Ascii.
From S2P Require Import Prelude PyStr PyFloat Json Decimal.

Local Open Scope Z_scope.
Local Open Scope py_scope.

Definition HELD_DOCUMENT : string := "a58b5c6d950f7e0ebd79e6b166639f2b9cb6ff931092ec00cc6dacd9ad2ddea4".
Definition HELD_PARENT : string := "2856afaf-3c10-4f3d-9759-d9add33e1823".
Definition HELD_CHILD : string := "87f56f9b-8b06-4b68-9e8a-91e83313c696".
Definition OPEN_BUDGET_REASON : string := "ambiguous upstream failure: ReadTimeout".

(** Start time, status and model of the known failures. *)
Definition fugu_failure : Type := (string * Z * string)%type.
Definition BASELINE_FUGU_FAILURES : list fugu_failure := [
  ("2026-07-13T10:17:39.904527+00:00", 502, "openai/gpt-oss-120b");
  ("2026-07-13T10:47:44.852290+00:00", 401, "openai/gpt-oss-120b");
  ("2026-07-13T10:47:47.376422+00:00", 401, "openai/gpt-oss-120b");
  ("2026-07-13T12:58:02.360195+00:00", 401, "openai/gpt-oss-120b");
  ("2026-07-13T14:29:05.181051+00:00", 401, "openai/gpt-oss-120b");
  ("2026-07-13T14:29:05.565413+00:00", 401, "openai/gpt-oss-120b");
  ("2026-07-13T15:10:15.314732+00:00", 401, "openai/gpt-oss-120b");
  ("2026-07-14T05:08:06.566399+00:00", 401, "openai/gpt-oss-120b")]%string.

Record proof := {
  pf_document : string;
  pf_parent : string;
  pf_child : string;
  pf_payload_hash : string;
  pf_source_id : Z;
}.
Definition PROVIDER_AUTH_FAILURE_ROWS : list proof := [
  {| pf_document := "b351931e6c08d4912e84885c45c819761463992a1dc22f38391950ffddedf6ff";
     pf_parent := "d4068c32-d268-4115-bfbb-c9cfd3941582";
     pf_child := "24947151-ce00-40a4-9a4c-6a74593f4261";
     pf_payload_hash := "0acec449b504c8ed1c043a36f0eedc90b578c06e482ba63d18c45cba7202d339";
     pf_source_id := 3867 |};
  {| pf_document := "b35f93dd699cca294d7f90c12a76cb47e934db391409233fff1dc592d331648a";
     pf_parent := "694de3a3-9e9c-41ed-af9c-93e8f635da9d";
     pf_child := "3b18b42c-fc1c-44f1-8177-d21d1d88503e";
     pf_payload_hash := "fc9ca8e9a53f76d0a0e6dc5aa6f67320c4fafdd61b3127784c1a86c5a34eda78";
     pf_source_id := 2279 |}].

Definition ATTEMPTED_STATES : list string := ["submitting"; "submitted"; "succeeded"; "failed"; "blocked"].
Definition ACTIVE_STATES : list string := ["submitting"; "submitted"].
Definition ERROR_STATES : list string := ["failed"; "blocked"].

Definition InvariantError (msg : string) : exn := OtherError "InvariantError" msg.

(** ** Settings *)

Definition env_file_line (result : odict string) (raw : string) : odict string :=
  let line := strip raw in
  if bool_decide (line = EmptyString) || startswith "#" line then result
  else match partition "=" line with
       | None => result
       | Some (key, value) =>
           dset (strip key) (strip_char "'" (strip_char "034" (strip value))) result
       end.
Definition env_file (text : string) : odict string :=
  foldl env_file_line [] (splitlines text).

Definition getenv (env : odict string) (name d : string) : string := default d (dget name env).
Definition int_of (s : string) : result Z :=
  match parse_int s with
  | Some z => Ok z
  | None => Raise (ValueError "invalid literal for int() with base 10")
  end.
Definition int_env (env : odict string) (name : string) (d : Z) : result Z :=
  int_of (getenv env name (str_of_Z d)).

Section recovery.
Context {F : Type} `{PyFloat F}.

Record config := {
  cf_root : string;
  cf_state_dir : string;
  cf_ssh_target : string;
  cf_pg_local_ports : list Z;
  cf_pg_remote_hosts : list string;
  cf_hindsight_port : Z;
  cf_budget_port : Z;
  cf_fugu_port : Z;
  cf_patroni_ports : list Z;
  cf_approved_total : Z;
  cf_stage_cap : Z;
  cf_max_agent_active : Z;
  cf_max_provider_in_flight : Z;
  cf_expected_hindsight_failed : Z;
  cf_conservative_remaining_cost : dec;
  cf_hard_budget : dec;
  cf_quick_seconds : F;
  cf_full_seconds : F;
  cf_watchdog_seconds : F;
  cf_heartbeat_max_age : F;
}.

Fixpoint ints_of (l : list string) : result (list Z) :=
  match l with
  | [] => Ok []
  | s :: l => z ← int_of s; zs ← ints_of l; Ok (z :: zs)
  end.
Definition float_of (s : string) : result F := json_float (JStr s).

(** [home] is [Path.home()]. *)
Definition from_env (home : string) (env : odict string) : result config :=
  let root := getenv env "RECOVERY_ROOT" "/home/ubuntu/teemesh" in
  let state_dir := getenv env "RECOVERY_STATE_DIR" (home +:+ "/.local/state/hindsight-recovery") in
  pg_ports ← ints_of (split_char "," (getenv env "PG_LOCAL_PORTS" "55439,55440,55441"));
  let pg_hosts := split_char "," (getenv env "PG_REMOTE_HOSTS" "10.18.147.86,10.18.251.71,10.18.172.186") in
  patroni_ports ← ints_of (split_char "," (getenv env "PATRONI_LOCAL_PORTS" "18081,18082,18083"));
  raise! ValueError "PG and Patroni host/port lists must each contain exactly three entries"
    when negb (length pg_ports =? 3)%nat || negb (length pg_hosts =? 3)%nat ||
         negb (length patroni_ports =? 3)%nat;
  hindsight_port ← int_env env "HINDSIGHT_LOCAL_PORT" 18898;
  budget_port ← int_env env "BUDGET_LOCAL_PORT" 18899;
  fugu_port ← int_env env "FUGU_LOCAL_PORT" 18419;
  approved_total ← int_env env "APPROVED_TOTAL" 5142;
  stage_cap ← int_env env "STAGE_CAP" 3823;
  max_agent_active ← int_env env "MAX_AGENT_ACTIVE" 2;
  max_provider_in_flight ← int_env env "MAX_PROVIDER_IN_FLIGHT" 6;
  expected_hindsight_failed ← int_env env "EXPECTED_HINDSIGHT_FAILED" 60;
  cost ← dec_of_str (getenv env "CONSERVATIVE_REMAINING_COST_USD" "0.00543");
  budget ← dec_of_str (getenv env "HARD_BUDGET_USD" "30");
  quick ← float_of (getenv env "GUARD_QUICK_SECONDS" "2");
  full ← float_of (getenv env "GUARD_FULL_SECONDS" "60");
  watchdog ← float_of (getenv env "WATCHDOG_SECONDS" "5");
  max_age ← float_of (getenv env "HEARTBEAT_MAX_AGE_SECONDS" "60");
  Ok {| cf_root := root; cf_state_dir := state_dir;
        cf_ssh_target := getenv env "RECOVERY_SSH_TARGET" "attestmesh-mesh-node";
        cf_pg_local_ports := pg_ports; cf_pg_remote_hosts := pg_hosts;
        cf_hindsight_port := hindsight_port; cf_budget_port := budget_port; cf_fugu_port := fugu_port;
        cf_patroni_ports := patroni_ports; cf_approved_total := approved_total; cf_stage_cap := stage_cap;
        cf_max_agent_active := max_agent_active; cf_max_provider_in_flight := max_provider_in_flight;
        cf_expected_hindsight_failed := expected_hindsight_failed;
        cf_conservative_remaining_cost := cost; cf_hard_budget := budget;
        cf_quick_seconds := quick; cf_full_seconds := full; cf_watchdog_seconds := watchdog;
        cf_heartbeat_max_age := max_age |}.

(** ** The phase *)

Abbreviation phase := (odict (json F)).
Definition DEFAULT_PHASE : phase := [
  ("name", JStr "maintenance");
  ("budget", JStr "open");
  ("expected_retry", JInt 17);
  ("expected_succeeded", JInt 3263);
  ("watchdog_armed", JBool false)]%string.
(** [{**DEFAULT_PHASE, **loaded}] *)
Definition merge_phase (loaded : json F) : result phase :=
  match loaded with
  | JObj d => Ok (dupdate DEFAULT_PHASE d)
  | _ => Raise (TypeError "object is not a mapping")
  end.
(** [str(phase["name"])] *)
Definition phase_name (p : phase) : result string := n ← item "name" p; Ok (json_str n).

(** ** Decisions *)

(** [sum(int(counts.get(state, 0)) for state in states)] *)
Definition count (state : string) (counts : odict Z) : Z := default 0 (dget state counts).
Definition sum_states (states : list string) (counts : odict Z) : Z :=
  foldr (fun s n => count s counts + n) 0 states.

Definition compute_projection (spent : json F) (succeeded : Z) (cfg : config) : result dec :=
  let remaining := Z.max (cf_approved_total cfg - succeeded) 0 in
  s ← dec_of_str (json_str spent);
  r ← dec_mul (DF (dec_of_Z remaining)) (cf_conservative_remaining_cost cfg);
  dec_add s r.

Definition stage_action (attempted : Z) (phase_name : string) (cap : Z) : string :=
  if cap <? attempted then "violation"
  else if bool_decide (phase_name = "running"%string) && (attempted =? cap) then "open"
  else "continue".

Record resume := {
  rs_phase_name : string;
  rs_agent_open : bool;
  rs_attempted : Z;
  rs_succeeded : Z;
  rs_submitting : Z;
  rs_submitted : Z;
  rs_errors : Z;
  rs_hindsight_active : Z;
  rs_provider_in_flight : Z;
  rs_remote_documents : Z;
  rs_max_agent_active : Z;
  rs_cap : Z;
}.
Definition precap_resume_failure (r : resume) : option string :=
  if negb (bool_decide (rs_phase_name r = "running"%string)) then Some "pre-cap resume requires running phase"
  else if negb (rs_agent_open r) then Some "pre-cap resume requires Agent circuit open"
  else if rs_cap r <=? rs_attempted r then Some "pre-cap resume cannot run at or above stage cap"
  else if negb (rs_submitting r =? 0) ||
          negb ((1 <=? rs_submitted r) && (rs_submitted r <=? rs_max_agent_active r)) ||
          negb (rs_errors r =? 0) then
    Some "pre-cap resume requires one to the configured maximum submitted Agent rows and no other active/error row"
  else if negb (rs_attempted r =? rs_succeeded r + rs_submitted r) then
    Some "pre-cap attempted count is not exactly succeeded plus submitted"
  else if negb (rs_hindsight_active r =? 0) then
    Some "pre-cap resume requires zero Hindsight pending/processing"
  else if negb (rs_provider_in_flight r =? 0) then Some "pre-cap resume requires zero provider in-flight"
  else if negb (rs_remote_documents r =? rs_succeeded r + rs_submitted r) then
    Some "pre-cap remote-document count is not exactly succeeded plus submitted"
  else None%string.

Definition watchdog_failure (armed : bool) (heartbeat_age : option F)
    (tunnel_ports_ready guard_active tunnel_active : bool) (max_age : F) : option string :=
  if negb armed then None
  else if (match heartbeat_age with None => true | Some age => f_ltb max_age age end)
  then Some "guard heartbeat missing or stale"
  else if negb tunnel_ports_ready then Some "shared tunnel path unavailable"
  else if negb guard_active then Some "guard service inactive"
  else if negb tunnel_active then Some "tunnel service inactive"
  else None%string.

(** ** The quick checks *)

Record circuit := { ci_open : bool; ci_reason : option string }.
Record snapshot := {
  sn_runtime : odict string;
  sn_agent_counts : odict Z;
  sn_agent_circuit : option circuit;
  sn_pocket_counts : odict Z;
  sn_pocket_circuit : option circuit;
  sn_operations : odict Z;
  sn_documents : Z;
  sn_hindsight_health : json F;
  sn_fugu_health : json F;
  sn_budget : json F;
}.

Definition note (b : bool) (m : string) : list string := if b then [m] else [].
(** [row["circuit_open"]]: [fetchone] returned [None] when there is no row. *)
Definition is_open (c : option circuit) : result bool :=
  match c with Some c => Ok (ci_open c) | None => Raise (TypeError "'NoneType' object is not subscriptable") end.
Definition healthy_status (budget : odict (json F)) : result bool :=
  in_strs ["healthy"; "ok"]%string (dget "status" budget).

Definition budget_failures (p : phase) (budget : odict (json F)) : result (list string) :=
  if is_str "open" (dget "budget" p) then
    Ok (note (negb (otruthy (dget "circuit_open" budget)) ||
              negb (is_str OPEN_BUDGET_REASON (dget "circuit_reason" budget)))
         "budget open-circuit reason drift")
  else if is_str "closed" (dget "budget" p) then
    if otruthy (dget "circuit_open" budget) then Ok ["budget circuit is not healthy/closed"%string]
    else ok ← healthy_status budget; Ok (note (negb ok) "budget circuit is not healthy/closed")
  else Ok [].

Definition circuit_failures (cfg : config) (name : string) (attempted : Z) (c : option circuit)
    : result (list string) :=
  if negb (bool_decide (name = "running"%string)) then
    o ← is_open c; Ok (note (negb o) "Agent circuit is closed outside running phase")
  else if cf_stage_cap cfg <=? attempted then
    o ← is_open c; Ok (note (negb o) "Agent circuit remained closed at stage cap")
  else Ok [].

Definition quick_failures (cfg : config) (s : snapshot) (p : phase) : result (list string) :=
  let ac := sn_agent_counts s in
  let pc := sn_pocket_counts s in
  let attempted := sum_states ATTEMPTED_STATES ac in
  let active := sum_states ACTIVE_STATES ac in
  let errors := sum_states ERROR_STATES ac in
  name ← phase_name p;
  circuit ← circuit_failures cfg name attempted (sn_agent_circuit s);
  pocket_open ← is_open (sn_pocket_circuit s);
  let hop := sn_operations s in
  budget ← obj (sn_budget s);
  in_flight ← int_or0 "in_flight" budget;
  circuit_of_budget ← budget_failures p budget;
  projection ← compute_projection (default (JInt 0) (dget "hindsight_backfill_spent_usd" budget))
                 (count "succeeded" ac) cfg;
  over ← dltb (cf_hard_budget cfg) projection;
  health ← obj (sn_hindsight_health s);
  Ok (note (negb (foldr Z.add 0 (dvalues ac) =? cf_approved_total cfg)) "Agent approved batch total drift" ++
      note (cf_stage_cap cfg <? attempted) "Agent attempted count exceeds stage cap" ++
      note (cf_max_agent_active cfg <? active)
        ("Agent active rows exceed configured limit " +:+ str_of_Z (cf_max_agent_active cfg)) ++
      note (negb (errors =? 0)) "Agent failed/blocked row present" ++
      circuit ++
      note (negb pocket_open) "Pocket circuit is closed" ++
      note (negb (sum_states (ACTIVE_STATES ++ ERROR_STATES) pc =? 0)) "Pocket has active/error work" ++
      note (negb (bool_decide (dget "HINDSIGHT_OUTBOX_MAX_IN_FLIGHT" (sn_runtime s) =
                               Some (str_of_Z (cf_max_agent_active cfg)))))
        ("Agent persistent max_in_flight is not " +:+ str_of_Z (cf_max_agent_active cfg)) ++
      note (negb (bool_decide (dget "HINDSIGHT_OUTBOX_RUN_LIMIT" (sn_runtime s) =
                               Some (str_of_Z (cf_stage_cap cfg)))))
        "Agent persistent cap drift" ++
      note (negb (count "failed" hop =? cf_expected_hindsight_failed cfg))
        "Hindsight failed-operation count drift" ++
      note (negb (bool_decide (name = "running"%string)) &&
            negb (sum_states ["pending"; "processing"]%string hop =? 0))
        "Hindsight active work outside running phase" ++
      note (cf_max_provider_in_flight cfg <? in_flight)
        ("provider in_flight exceeds configured limit " +:+ str_of_Z (cf_max_provider_in_flight cfg)) ++
      circuit_of_budget ++
      note over ("projected full batch " +:+ dec_str projection +:+ " exceeds hard budget") ++
      note (negb (is_str "healthy" (dget "status" health)) ||
            negb (is_str "connected" (dget "database" health)))
        "Hindsight health degraded").
End recovery.
Arguments config F : clear implicits.
Arguments snapshot F : clear implicits.
