(* ===== verification/RecoveryAudit.v ===== *)
(** * Hindsight recovery: what it asks and the audits

    The actions of recovery.py, and the snapshot and the full audit it takes before it
    acts.  A query answers with its rows; opening the connection is part of the query.
    The server that owns the outbox is another repository: [RefreshSubmitted] and
    [RetryDocument] are its [OutboxWorker._refresh_submitted] and [retry_document]. *)

From stdpp Require Import base option list strings.
From Stdlib Require Import ZArith Lia Ascii.
From S2P Require Import Prelude PyStr PyFloat Json Decimal Sha256 Effects Recovery.

Local Open Scope Z_scope.
Local Open Scope py_scope.

Section audit.
Context {F : Type} `{PyFloat F}.
Abbreviation phase := (odict (json F)).

(** ** Rows *)

Record audit_row := {
  ar_document_id : string;
  ar_source_kind : string;
  ar_payload_hash : string;
  ar_submitted_hash : option string;
  ar_item : odict (json F);
  ar_state : string;
  ar_operation_id : option string;
  ar_source_document : option string;
}.
(** A row of the outbox, with what the recovery of provider failures reads of it. *)
Record outbox_row := {
  or_document_id : string;
  or_operation_id : option string;
  or_state : string;
  or_payload_hash : string;
  or_submitted_hash : option string;
  or_item : odict (json F);
  or_source_kind : string;
  or_source_id : Z;
  or_available_at : string;
  or_source_document : option string;
}.
Record history_row := {
  hs_document_id : string;
  hs_operation_id : option string;
  hs_previous_state : string;
  hs_payload_hash : string;
  hs_submitted_hash : option string;
  hs_item : odict (json F);
}.
Record operation_row := {
  op_id : string;
  op_type : string;
  op_status : string;
  op_error : option string;
  op_metadata : option (odict (json F));
  op_payload : option (odict (json F));
  op_created_at : string;
  op_updated_at : string;
}.
(** The status and the HTTP status of a call in the ledger of the router. *)
Definition fugu_call : Type := (string * option Z)%type.

Inductive file := Phase | Heartbeat | Watchdog.

Inductive raction :=
  (* the database of the agent *)
  | AgentCounts | AgentCircuit | AgentCircuitFlag
  | AuditRows | RetryCount | ClaimCount | AdoptionCount
  | OutboxRow (document : string) | OutboxRows (documents : list string)
  | RetryHistory (documents : list string) | OtherActiveRow (documents : list string)
  | SubmittedRows
  (* the databases of the pocket, of the memory service and of the router *)
  | PocketCounts | PocketCircuit
  | HindsightCounts | HindsightDocumentCount | RemoteDocuments
  | Operations (ids : list string) | OperationStatus (id : string)
  | DocumentsPresent (ids : list string) | DocumentPresent (id : string)
  | FuguFailures | FuguCalls (from to : string)
  (* services, files, clocks, processes *)
  | HttpGet (url : string)
  | FileExists (f : file) | ReadFile (f : file) | WriteFile (f : file) (value : odict (json F))
  | AppendEvent (kind : string) (fields : odict (json F))
  | Now | Monotonic | Sleep (seconds : F)
  | FreePorts (n : Z) | PortReady (port : Z) | ServiceActive (name : string)
  | LockFile | UnlockFile
  | StartTunnel (command : list string) | TunnelExited | TunnelError | StopTunnel
  | LoadSecrets
  (* what changes the outbox and the circuit *)
  | BankTryLock | BankUnlock | BankClose
  | Begin | Commit | Rollback
  | CloseCircuit
  | OpenCircuit (ports : list Z) (reason : string)
  | MakeWorker
  | RefreshSubmitted (allowed : option (list (string * string)))
  | RetryDocument (document reason : string) (preserve_queue_position : bool).

Definition ranswer (a : raction) : Type :=
  match a with
  | AgentCounts | PocketCounts | HindsightCounts => odict Z
  | AgentCircuit | PocketCircuit => option circuit
  | AgentCircuitFlag => option bool
  | AuditRows => list audit_row
  | RetryCount | ClaimCount | AdoptionCount | HindsightDocumentCount | CloseCircuit => Z
  | OutboxRow _ => option outbox_row
  | OutboxRows _ | SubmittedRows => list outbox_row
  | RetryHistory _ => list history_row
  | OtherActiveRow _ => bool
  | RemoteDocuments => list string
  | Operations _ => list operation_row
  | OperationStatus _ => option string
  | DocumentsPresent _ => list string
  | FuguFailures => list (string * option Z * string)
  | FuguCalls _ _ => list fugu_call
  | HttpGet _ => Z * json F
  | DocumentPresent _ | FileExists _ | PortReady _ | ServiceActive _ | TunnelExited | BankTryLock | RetryDocument _ _ _ => bool
  | ReadFile _ => json F
  | Now | Monotonic => F
  | FreePorts _ => list Z
  | TunnelError => string
  | RefreshSubmitted _ => Z * Z
  | WriteFile _ _ | AppendEvent _ _ | Sleep _ | LockFile | UnlockFile | StartTunnel _ | StopTunnel
  | LoadSecrets | BankUnlock | BankClose | Begin | Commit | Rollback | OpenCircuit _ _ | MakeWorker => unit
  end.

#[global] Instance recovery_effect : Effect := {| action := raction; answer := ranswer |}.

Abbreviation prog := (@prog recovery_effect).
Abbreviation ask a := (@act recovery_effect a).

(** ** Files and events *)

Definition load_phase : prog phase :=
  there ← ask (FileExists Phase);
  (if there : bool then mret tt else ask (WriteFile Phase DEFAULT_PHASE));;
  loaded ← ask (ReadFile Phase);
  PRet (merge_phase loaded).
Definition save_phase (p : phase) : prog unit :=
  now ← ask Now;
  ask (WriteFile Phase (dset "updated_at" (JFloat now) p)).
Definition event (kind : string) (fields : odict (json F)) : prog unit :=
  now ← ask Now;
  ask (AppendEvent kind (dupdate [("at", JFloat now); ("kind", JStr kind)]%string fields)).

(** ** The snapshot *)

Definition local (port : Z) (path : string) : string :=
  "http://127.0.0.1:" +:+ str_of_Z port +:+ path.
Definition http_json (url : string) : prog (json F) :=
  '(status, body) ← ask (HttpGet url);
  if status =? 200 then mret body
  else raise (InvariantError (url +:+ " returned HTTP " +:+ str_of_Z status)).

(** [runtime] is the environment file read when the program started. *)
Definition quick_snapshot (cfg : config F) (runtime : odict string) : prog (snapshot F) :=
  agent ← ask AgentCounts;
  agent_circuit ← ask AgentCircuit;
  pocket ← ask PocketCounts;
  pocket_circuit ← ask PocketCircuit;
  operations ← ask HindsightCounts;
  documents ← ask HindsightDocumentCount;
  health ← http_json (local (cf_hindsight_port cfg) "/health");
  fugu ← http_json (local (cf_fugu_port cfg) "/health/process");
  budget ← http_json (local (cf_budget_port cfg) "/health");
  mret {| sn_runtime := runtime; sn_agent_counts := agent; sn_agent_circuit := agent_circuit;
          sn_pocket_counts := pocket; sn_pocket_circuit := pocket_circuit;
          sn_operations := operations; sn_documents := documents;
          sn_hindsight_health := health; sn_fugu_health := fugu; sn_budget := budget |}.

(** ** The full audit *)

Record audit := {
  au_snapshot : snapshot F;
  au_histories : Z * Z * Z;
  au_remote_documents : Z;
  au_failures : list string;
}.

Definition canonical_hash (item : odict (json F)) : string := sha256_hex (dumps_canonical (JObj item)).

(** The first failure of a row, in the order of the checks. *)
Definition row_failure (r : audit_row) : option string :=
  let doc := ar_document_id r in
  let context := match dget "context" (ar_item r) with
                 | Some j => if truthy j then json_str j else EmptyString
                 | None => EmptyString
                 end in
  if negb (bool_decide (canonical_hash (ar_item r) = ar_payload_hash r)) then
    Some ("payload hash mismatch for " +:+ doc)
  else if negb (is_str doc (dget "document_id" (ar_item r))) then
    Some ("item/document mismatch for " +:+ doc)
  else if negb (contains "source:agent_sessions" context) ||
          negb (contains ("document:" +:+ doc) context) then
    Some ("item source/context mismatch for " +:+ doc)
  else if negb (bool_decide (ar_source_kind r = "agent_session"%string)) ||
          negb (bool_decide (ar_source_document r = Some doc)) then
    Some ("source lineage mismatch for " +:+ doc)
  else if bool_decide (ar_state r ∈ ACTIVE_STATES) &&
          negb (bool_decide (ar_submitted_hash r = Some (ar_payload_hash r))) then
    Some ("active submitted hash mismatch for " +:+ doc)
  else None.
(** The loop over the rows stops at the first failure. *)
Fixpoint rows_failure (rows : list audit_row) : option string :=
  match rows with
  | [] => None
  | r :: rows => match row_failure r with Some m => Some m | None => rows_failure rows end
  end.

Definition rows_in (states : list string) (rows : list audit_row) : list string :=
  map ar_document_id (List.filter (fun r => bool_decide (ar_state r ∈ states)) rows).
(** [a - b] is not empty. *)
Definition exceeds (a b : list string) : bool := existsb (fun x => negb (bool_decide (x ∈ b))) a.

Definition triple (h : Z * Z * Z) : string :=
  let '(a, b, c) := h in
  "(" +:+ str_of_Z a +:+ ", " +:+ str_of_Z b +:+ ", " +:+ str_of_Z c +:+ ")".

Definition operation_ids (rows : list audit_row) : list string :=
  omap (fun r => match ar_operation_id r with
                 | Some o => if bool_decide (o = EmptyString) then None else Some o
                 | None => None
                 end) rows.
Definition local_failures (cfg : config F) (rows : list audit_row) : list string :=
  let documents := map ar_document_id rows in
  note (negb (bool_decide (NoDup documents)) || negb (Z.of_nat (length documents) =? cf_approved_total cfg))
    "Agent duplicate/missing document ID" ++
  note (negb (bool_decide (NoDup (operation_ids rows)))) "duplicate Agent operation ID" ++
  option_list (rows_failure rows).
Definition remote_failures (rows : list audit_row) (remote : list string) : list string :=
  note (negb (bool_decide (NoDup remote))) "duplicate Hindsight document ID" ++
  note (exceeds remote (map ar_document_id rows)) "Hindsight contains document outside approved batch" ++
  note (exceeds (rows_in ["succeeded"%string] rows) remote) "succeeded Agent document missing from Hindsight" ++
  note (exceeds remote (rows_in ["succeeded"; "submitting"; "submitted"]%string rows))
    "Hindsight document has invalid Agent state provenance".

(** [int(row["http_status"])] of every row, then the comparison with the baseline. *)
Fixpoint typed_failures (rows : list (string * option Z * string)) : result (list fugu_failure) :=
  match rows with
  | [] => Ok []
  | (t, Some s, m) :: rows => l ← typed_failures rows; Ok ((t, s, m) :: l)
  | (_, None, _) :: _ => Raise (TypeError "int() argument must be a string, a bytes-like object or a real number")
  end.

Definition fetch_patroni (port : Z) : prog (bool * list string) :=
  body ← http_json (local port "/patroni");
  d ← PRet (obj body);
  role_ok ← (if is_str "running" (dget "state" d)
             then PRet (in_strs ["primary"; "replica"]%string (dget "role" d)) else mret false);
  mret (is_str "primary" (dget "role" d),
        note (negb role_ok) ("Patroni degradation on local forward " +:+ str_of_Z port)).
Fixpoint fetch_patronis (ports : list Z) : prog (Z * list string) :=
  match ports with
  | [] => mret (0, [])
  | port :: ports =>
      '(primary, f) ← fetch_patroni port;
      '(n, fs) ← fetch_patronis ports;
      mret ((if primary : bool then 1 else 0) + n, f ++ fs)
  end.

Definition full_audit (cfg : config F) (runtime : odict string) (p : phase) : prog audit :=
  snap ← quick_snapshot cfg runtime;
  quick ← PRet (quick_failures cfg snap p);
  rows ← ask AuditRows;
  retry ← ask RetryCount;
  claim ← ask ClaimCount;
  adoption ← ask AdoptionCount;
  expected ← PRet (item "expected_retry" p ≫= json_int);
  let histories := (retry, claim, adoption) in
  let expected_histories := (expected, 12, 1) in
  remote ← ask RemoteDocuments;
  fugu ← ask FuguFailures;
  actual ← PRet (typed_failures fugu);
  '(primaries, patroni) ← fetch_patronis (cf_patroni_ports cfg);
  mret {| au_snapshot := snap; au_histories := histories;
          au_remote_documents := Z.of_nat (length remote);
          au_failures :=
            quick ++ local_failures cfg rows ++
            note (negb (bool_decide (histories = expected_histories)))
              ("history drift: " +:+ triple histories +:+ " != " +:+ triple expected_histories) ++
            remote_failures rows remote ++
            note (negb (bool_decide (actual = BASELINE_FUGU_FAILURES)))
              "authenticated Fugu failure ledger drift" ++
            patroni ++
            note (negb (primaries =? 1)) "Patroni does not have exactly one primary" |}.
End audit.
Arguments raction F : clear implicits.
Arguments audit F : clear implicits.
Arguments outbox_row F : clear implicits.
Arguments operation_row F : clear implicits.
Arguments history_row F : clear implicits.
Arguments audit_row F : clear implicits.

(** Perform an action of the recovery program. *)
Abbreviation ask a := (@act (@recovery_effect _) a).
