(* ===== verification/RecoveryOps.v ===== *)
(** * Hindsight recovery: the operator commands

    The methods of class [Recovery] that change the outbox, the circuit or the phase, and
    [emergency_open].  [fuel] bounds the turns of the polling loops; a loop that needs
    more is cut off, so what is proved for every [fuel] holds of the loops of the code. *)

From stdpp Require Import base option list strings.
From Stdlib Require Import ZArith Lia Ascii.
From S2P Require Import Prelude PyStr PyFloat Json Decimal Effects Recovery RecoveryAudit.

Local Open Scope Z_scope.
Local Open Scope py_scope.

Section ops.
Context {F : Type} `{PyFloat F}.
Abbreviation phase := (odict (json F)).
Abbreviation prog := (@prog (@recovery_effect F)).
Variable cfg : config F.
Variable runtime : odict string.
Variable fuel : nat.

Definition invariant {A} (msg : string) : prog A := raise (InvariantError msg).
Definition require (b : bool) (msg : string) : prog unit := PRet (raise_if (negb b) (InvariantError msg)).

(** [with conn.transaction(): p] *)
Definition transaction {A} (p : prog A) : prog A :=
  ask Begin;;
  pbind p (fun r => match r with
                    | Ok a => ask Commit;; mret a
                    | Raise e => ask Rollback;; raise e
                    end).
Definition bank_lock {A} (body : prog A) : prog A :=
  locked ← ask BankTryLock;
  if negb locked then ask BankClose;; invariant "could not acquire Agent bank advisory lock"
  else finally body (suppress (ask BankUnlock);; ask BankClose).

(** ** [emergency_open] *)

Fixpoint all_ready (ports : list Z) : prog bool :=
  match ports with
  | [] => mret true
  | p :: ports => ok ← ask (PortReady p); if ok : bool then all_ready ports else mret false
  end.
Fixpoint wait_ports_until (n : nat) (ports : list Z) (deadline : F) : prog bool :=
  match n with
  | O => PHalt
  | S n =>
      now ← ask Monotonic;
      if f_ltb now deadline then
        ready ← all_ready ports;
        if ready : bool then mret true
        else ask (Sleep (f_lit 1 (-1)));; wait_ports_until n ports deadline
      else mret false
  end.
Definition wait_ports (ports : list Z) : prog bool :=
  start ← ask Monotonic;
  wait_ports_until fuel ports (f_add start (f_of_Z 8)).

Definition tunnel_command (ports : list Z) : list string :=
  ["ssh"; "-o"; "BatchMode=yes"; "-o"; "ConnectTimeout=8"; "-o"; "ExitOnForwardFailure=yes";
   "-o"; "ServerAliveInterval=5"; "-o"; "ServerAliveCountMax=2"; "-N"]%string ++
  flat_map (fun '(port, host) => ["-L"; "127.0.0.1:" +:+ str_of_Z port +:+ ":" +:+ host +:+ ":5432"]%string)
    (zip ports (cf_pg_remote_hosts cfg)) ++
  [cf_ssh_target cfg].
Definition open_through (ports : list Z) (reason : string) : prog unit :=
  ready ← wait_ports ports;
  dead ← (if ready : bool then ask TunnelExited else mret true);
  (if dead : bool then
     detail ← ask TunnelError;
     raise (RuntimeError ("emergency PG tunnel failed: " +:+ detail))
   else mret tt);;
  ask LoadSecrets;;
  ask (OpenCircuit ports (stake 1000 reason));;
  event "emergency_open" [("reason", JStr (stake 1000 reason))]%string.
Definition emergency_open (reason : string) : prog unit :=
  ask LockFile;;
  finally
    (ports ← ask (FreePorts 3);
     ask (StartTunnel (tunnel_command ports));;
     finally (open_through ports reason) (ask StopTunnel))
    (ask UnlockFile).

(** ** Helpers of the commands *)

Definition counts_json (c : odict Z) : json F := JObj (map (fun kv => (kv.1, JInt kv.2)) c).
(** Two dictionaries of counts are equal. *)
Definition counts_eq (a b : odict Z) : bool :=
  (length a =? length b)%nat && forallb (fun kv => bool_decide (dget kv.1 b = Some kv.2)) a.
Definition histories_json (h : Z * Z * Z) : json F :=
  let '(retry, claim, adoption) := h in
  JObj [("retry", JInt retry); ("claim", JInt claim); ("adoption", JInt adoption)]%string.
Definition no_failures (failures : list string) : prog unit :=
  require (bool_decide (failures = [])) (join "; " failures).
Definition agent_counts (a : audit F) : odict Z := sn_agent_counts (au_snapshot a).
Definition hindsight_active (operations : odict Z) : Z := sum_states ["pending"; "processing"]%string operations.
Definition in_flight (s : snapshot F) : prog Z := PRet (obj (sn_budget s) ≫= int_or0 "in_flight").
Definition settled_counts (succeeded : Z) : odict Z :=
  [("queued", cf_approved_total cfg - succeeded); ("succeeded", succeeded)]%string.
(** [str(x)] of a nullable column *)
Definition str_opt (o : option string) : string := default "None"%string o.
Definition pair_of (r : outbox_row F) : string * string := (or_document_id r, str_opt (or_operation_id r)).
Definition same_set {A} `{EqDecision A} (a b : list A) : bool :=
  forallb (fun x => bool_decide (x ∈ b)) a && forallb (fun x => bool_decide (x ∈ a)) b.
Definition hash_matches (r : outbox_row F) : bool :=
  bool_decide (or_submitted_hash r = Some (or_payload_hash r)).
Definition find_operation (id : string) (rows : list (operation_row F)) : option (operation_row F) :=
  List.find (fun r => bool_decide (op_id r = id)) rows.

(** ** [prove_held_failure] and [refresh_retry] *)

Definition call_failed (c : fugu_call) : bool :=
  negb (bool_decide (c.1 = "success"%string)) || negb (default 0 c.2 =? 200).
Definition prove_held_failure : prog unit :=
  p ← load_phase;
  audit ← full_audit cfg runtime p;
  no_failures (au_failures audit);;
  idle ← (if is_str "closed" (dget "budget" p)
          then n ← in_flight (au_snapshot audit); mret (n =? 0) else mret false);
  require idle "budget must be healthy/closed with zero in-flight before retry";;
  row ← ask (OutboxRow HELD_DOCUMENT);
  match row with
  | None => invariant "preserved Agent row is not the exact submitted parent"
  | Some row =>
      require (bool_decide (or_state row = "submitted"%string) &&
               bool_decide (or_operation_id row = Some HELD_PARENT))
        "preserved Agent row is not the exact submitted parent";;
      require (hash_matches row && is_str HELD_DOCUMENT (dget "document_id" (or_item row)))
        "preserved Agent row hash/item proof failed"
  end;;
  operations ← ask (Operations [HELD_PARENT; HELD_CHILD]);
  present ← ask (DocumentPresent HELD_DOCUMENT);
  match find_operation HELD_PARENT operations, find_operation HELD_CHILD operations with
  | Some parent, Some child =>
      require (bool_decide (op_type parent = "batch_retain"%string) &&
               bool_decide (op_type child = "retain"%string))
        "preserved parent/child operation types are not exact";;
      require (bool_decide (op_status parent = "failed"%string) &&
               bool_decide (op_status child = "failed"%string) && negb present)
        "preserved parent/child must be failed and document absent";;
      require (contains "APITimeoutError" (str_opt (op_error parent)) &&
               contains "APITimeoutError" (str_opt (op_error child)))
        "preserved parent/child failure class drift";;
      let metadata := default [] (op_metadata child) in
      require (is_str HELD_PARENT (dget "parent_operation_id" metadata) &&
               match dget "document_ids" metadata with
               | Some j => py_eq j (JArr [JStr HELD_DOCUMENT])
               | None => false
               end) "preserved child lineage drift";;
      calls ← ask (FuguCalls (op_created_at parent) (op_updated_at child));
      require (negb (bool_decide (length calls = 0%nat)) && negb (existsb call_failed calls))
        "upstream calls in the failed-operation window are not terminal HTTP200 successes"
  | _, _ => invariant "preserved parent/child operation types are not exact"
  end.

Definition refresh_retry : prog (audit F) :=
  prove_held_failure;;
  ask MakeWorker;;
  bank_lock (
    '(completed, failed) ← ask (RefreshSubmitted None);
    require ((completed =? 0) && (failed =? 1))
      ("refresh-only result (" +:+ str_of_Z completed +:+ ", " +:+ str_of_Z failed +:+ ") != (0, 1)");;
    retried ← transaction (ask (RetryDocument HELD_DOCUMENT
                "authorized one-shot retry after max-charge ReadTimeout reconciliation" false));
    require retried "exact failed document was not requeued");;
  p ← load_phase;
  let p := dupdate p [("name", JStr "ready"); ("budget", JStr "closed");
                      ("expected_retry", JInt 18); ("expected_succeeded", JInt 3263)]%string in
  save_phase p;;
  audit ← full_audit cfg runtime p;
  require (counts_eq (agent_counts audit) [("queued", 1879); ("succeeded", 3263)]%string &&
           bool_decide (au_histories audit = (18, 12, 1)) && (au_remote_documents audit =? 3263))
    ("post-retry baseline mismatch: counts=" +:+ py_repr (counts_json (agent_counts audit)) +:+
     " histories=" +:+ py_repr (histories_json (au_histories audit)) +:+
     " docs=" +:+ str_of_Z (au_remote_documents audit));;
  no_failures (au_failures audit);;
  event "refresh_retry_complete" [("document_id", JStr HELD_DOCUMENT)]%string;;
  mret audit.

(** ** [close_agent], [release] *)

Definition close_agent (reason : string) : prog unit :=
  bank_lock (transaction (
    rowcount ← ask CloseCircuit;
    require (rowcount =? 1) "Agent circuit was not exactly one open row"));;
  event "agent_closed" [("reason", JStr reason)]%string.

(** The check of one turn of the stability window; [prior] is the spend of the turn
    before, and the new one is returned. *)
Definition release_check (p : phase) (index : nat) (prior : option (json F))
    : prog (snapshot F * option (json F)) :=
  snap ← quick_snapshot cfg runtime;
  failures ← PRet (quick_failures cfg snap p);
  require (bool_decide (failures = []))
    ("release check " +:+ str_of_Z (Z.of_nat index + 1) +:+ ": " +:+ join "; " failures);;
  budget ← PRet (obj (sn_budget snap));
  let current := jget "hindsight_backfill_spent_usd" budget in
  require (match prior, current with
           | None, _ => true
           | Some a, Some b => py_eq b a
           | Some _, None => false
           end) "spend changed during release stability window";;
  (if (index =? 0)%nat || (index =? 9)%nat
   then full ← full_audit cfg runtime p; no_failures (au_failures full)
   else mret tt);;
  (if (index <? 9)%nat then ask (Sleep (f_of_Z 2)) else mret tt);;
  mret (snap, current).
(** The turns from [index] on; the snapshot of the last one is returned. *)
Fixpoint release_checks (p : phase) (index n : nat) (prior : option (json F)) (last : snapshot F)
    : prog (snapshot F) :=
  match n with
  | O => mret last
  | S n =>
      '(snap, current) ← release_check p index prior;
      release_checks p (S index) n current snap
  end.
Definition ten_checks (p : phase) : prog (snapshot F) :=
  '(snap, current) ← release_check p 0 None;
  release_checks p 1 9 current snap.

Fixpoint first_claim (n : nat) (deadline : F) (baseline : Z) : prog (snapshot F) :=
  match n with
  | O => PHalt
  | S n =>
      now ← ask Monotonic;
      if f_ltb now deadline then
        current ← quick_snapshot cfg runtime;
        let counts := sn_agent_counts current in
        let attempted := sum_states ATTEMPTED_STATES counts in
        let active := sum_states ACTIVE_STATES counts in
        let target := cf_max_agent_active cfg in
        provider ← in_flight current;
        if attempted =? baseline + target then
          if negb (active =? target) || (cf_max_provider_in_flight cfg <? provider) then
            emergency_open ("first-claim bound failed: active=" +:+ str_of_Z active +:+
                            " provider=" +:+ str_of_Z provider);;
            invariant "first post-release wave did not reach the configured Agent/provider bounds"
          else
            event "first_claim_verified" [("attempted", JInt attempted); ("active", JInt active);
                                          ("provider_in_flight", JInt provider)]%string;;
            mret current
        else if (baseline + target <? attempted) || (target <? active) ||
                (cf_max_provider_in_flight cfg <? provider) then
          emergency_open "first-claim count/fan-out exceeded";;
          invariant "post-release work exceeded first-claim bound"
        else ask (Sleep (f_of_Z 2));; first_claim n deadline baseline
      else
        emergency_open "first claim did not appear within 90 seconds";;
        invariant "first post-release claim timed out"
  end.

Definition release : prog (snapshot F) :=
  p ← load_phase;
  name ← PRet (item "name" p);
  require (eq_str "ready" name && is_str "closed" (dget "budget" p))
    "release requires ready phase and closed budget";;
  snap ← ten_checks p;
  let baseline := count "succeeded" (sn_agent_counts snap) in
  close_agent "authorized staged recovery release";;
  released ← ask Now;
  save_phase (dupdate p [("name", JStr "running"); ("watchdog_armed", JBool true);
                         ("released_at", JFloat released)]%string);;
  start ← ask Monotonic;
  first_claim fuel (f_add start (f_of_Z 90)) baseline.

(** ** [prepare_resume] *)

Definition resume_of (p : phase) (audit : audit F) : prog resume :=
  let counts := agent_counts audit in
  name ← PRet (phase_name p);
  agent_open ← PRet (is_open (sn_agent_circuit (au_snapshot audit)));
  provider ← in_flight (au_snapshot audit);
  mret {| rs_phase_name := name; rs_agent_open := agent_open;
          rs_attempted := sum_states ATTEMPTED_STATES counts;
          rs_succeeded := count "succeeded" counts; rs_submitting := count "submitting" counts;
          rs_submitted := count "submitted" counts; rs_errors := sum_states ERROR_STATES counts;
          rs_hindsight_active := hindsight_active (sn_operations (au_snapshot audit));
          rs_provider_in_flight := provider; rs_remote_documents := au_remote_documents audit;
          rs_max_agent_active := cf_max_agent_active cfg; rs_cap := cf_stage_cap cfg |}.

Definition has_operation (r : outbox_row F) : bool :=
  match or_operation_id r with Some o => negb (bool_decide (o = EmptyString)) | None => false end.
Definition prove_completed (pair : string * string) : prog unit :=
  status ← ask (OperationStatus pair.2);
  present ← ask (DocumentPresent pair.1);
  require (bool_decide (status = Some "completed"%string) && present)
    "pre-cap submitted operation is not completed with its document present".

Definition refresh_proven (proofs : list (string * string)) : prog unit :=
  bank_lock (
    circuit ← ask AgentCircuitFlag;
    locked ← ask SubmittedRows;
    require (default false circuit) "Agent circuit closed before pre-cap refresh";;
    require (length locked =? length proofs)%nat "submitted-row count changed before pre-cap refresh";;
    require (same_set (map pair_of (List.filter hash_matches locked)) proofs)
      "submitted row changed before pre-cap refresh";;
    '(completed, failed) ← ask (RefreshSubmitted None);
    require ((completed =? Z.of_nat (length proofs)) && (failed =? 0))
      ("pre-cap refresh-only result (" +:+ str_of_Z completed +:+ ", " +:+ str_of_Z failed +:+ ") != (" +:+
       str_of_Z (Z.of_nat (length proofs)) +:+ ", 0)")).

Definition prepare_resume : prog (audit F) :=
  p ← load_phase;
  audit ← full_audit cfg runtime p;
  no_failures (au_failures audit);;
  gate ← resume_of p audit;
  match precap_resume_failure gate with Some m => invariant m | None => mret tt end;;
  rows ← ask SubmittedRows;
  require (negb (bool_decide (length rows = 0%nat)) &&
           forallb (fun r => has_operation r && hash_matches r) rows)
    "pre-cap submitted-row operation/hash proof failed";;
  let proofs := map pair_of rows in
  each proofs prove_completed;;
  ask MakeWorker;;
  refresh_proven proofs;;
  let succeeded := count "succeeded" (agent_counts audit) + Z.of_nat (length proofs) in
  let p := dupdate p [("name", JStr "ready"); ("budget", JStr "closed");
                      ("expected_succeeded", JInt succeeded)]%string in
  save_phase p;;
  settled ← full_audit cfg runtime p;
  require (counts_eq (agent_counts settled) (settled_counts succeeded))
    ("pre-cap reconciliation counts mismatch: " +:+ py_repr (counts_json (agent_counts settled)) +:+ " != " +:+
     py_repr (counts_json (settled_counts succeeded)));;
  require ((au_remote_documents settled =? succeeded) && bool_decide (au_failures settled = []))
    ("pre-cap reconciliation audit failed: " +:+ py_repr (JArr (map (@JStr F) (au_failures settled))));;
  event "precap_hold_reconciled"
    [("document_ids", JArr (map (fun x => JStr x.1) proofs));
     ("operation_ids", JArr (map (fun x => JStr x.2) proofs));
     ("succeeded", JInt succeeded)]%string;;
  mret settled.

(** ** [preprove_cap_refresh] and [settle_cap] *)

Fixpoint all_completed (rows : list (outbox_row F)) : prog bool :=
  match rows with
  | [] => mret true
  | r :: rows =>
      if negb (has_operation r) || negb (hash_matches r) then mret false
      else
        status ← ask (OperationStatus (str_opt (or_operation_id r)));
        present ← ask (DocumentPresent (or_document_id r));
        if bool_decide (status = Some "completed"%string) && present then all_completed rows else mret false
  end.
Definition preprove_cap_refresh : prog bool :=
  snap ← quick_snapshot cfg runtime;
  let counts := sn_agent_counts snap in
  if negb (sum_states ATTEMPTED_STATES counts =? cf_stage_cap cfg) then mret false
  else if negb (hindsight_active (sn_operations snap) =? 0) then mret false
  else
    provider ← in_flight snap;
    if negb (provider =? 0) then mret false
    else
      rows ← ask SubmittedRows;
      match rows with
      | [] => mret (count "succeeded" counts =? cf_stage_cap cfg)
      | _ => all_completed rows
      end.

Definition settle_cap : prog (option (audit F)) :=
  p ← load_phase;
  name ← PRet (item "name" p);
  ready ← (if eq_str "cap_hold" name then preprove_cap_refresh else mret false);
  if negb ready then mret None
  else
    ask MakeWorker;;
    completed ← bank_lock (
      '(completed, failed) ← ask (RefreshSubmitted None);
      require (failed =? 0) "cap refresh encountered a failed remote operation";;
      mret completed);
    let p := dupdate p [("name", JStr "settled"); ("expected_succeeded", JInt (cf_stage_cap cfg))]%string in
    save_phase p;;
    audit ← full_audit cfg runtime p;
    require (counts_eq (agent_counts audit) (settled_counts (cf_stage_cap cfg)))
      ("cap settlement counts mismatch: " +:+ py_repr (counts_json (agent_counts audit)));;
    require ((au_remote_documents audit =? cf_stage_cap cfg) && bool_decide (au_failures audit = []))
      ("cap settlement audit failed: " +:+ py_repr (JArr (map (@JStr F) (au_failures audit))));;
    event "stage_settled" [("completed", JInt completed); ("succeeded", JInt (cf_stage_cap cfg))]%string;;
    mret (Some audit).
End ops.
