(* ===== verification/RecoveryAuth.v ===== *)
(** * Hindsight recovery: the two documents refused by the provider

    [Recovery.recover_provider_auth_failures]: two documents whose operations ended with a
    provider error 401 go back to the queue, if every database still tells the story that
    was recorded about them. *)

From stdpp Require Import base option list strings.
From Stdlib Require Import ZArith Lia Ascii.
From S2P Require Import Prelude PyStr PyFloat Json Decimal Effects Recovery RecoveryAudit RecoveryOps.

Local Open Scope Z_scope.
Local Open Scope py_scope.

Section auth.
Context {F : Type} `{PyFloat F}.
Abbreviation phase := (odict (json F)).
Abbreviation prog := (@prog (@recovery_effect F)).
Variable cfg : config F.
Variable runtime : odict string.

Definition ensure (b : bool) (msg : string) : result unit := raise_if (negb b) (InvariantError msg).
Fixpoint each_ok {A} (f : A -> result unit) (l : list A) : result unit :=
  match l with
  | [] => Ok tt
  | x :: l => f x;; each_ok f l
  end.

Definition document_ids : list string := ssort (map pf_document PROVIDER_AUTH_FAILURE_ROWS).
Definition parent_ids : list string := map pf_parent PROVIDER_AUTH_FAILURE_ROWS.
Definition recovery_operation_ids : list string :=
  flat_map (fun p => [pf_parent p; pf_child p]) PROVIDER_AUTH_FAILURE_ROWS.
(** [expected[document_id]] *)
Definition proof_of (document : string) : result proof :=
  match List.find (fun p => bool_decide (pf_document p = document)) PROVIDER_AUTH_FAILURE_ROWS with
  | Some p => Ok p
  | None => Raise (KeyError document)
  end.

(** What the audit and the phase must say before anything is looked at. *)
Definition tolerated (failure : string) : bool :=
  bool_decide (failure = "Agent failed/blocked row present"%string) || startswith "history drift:" failure.
Definition provider_gate (p : phase) (a : audit F) : result unit :=
  let unexpected := List.filter (fun f => negb (tolerated f)) (au_failures a) in
  let snap := au_snapshot a in
  ensure (bool_decide (unexpected = [])) (join "; " unexpected);;
  ensure (is_str "closed" (dget "budget" p)) "provider failure recovery requires closed budget phase";;
  agent_open ← is_open (sn_agent_circuit snap);
  ensure agent_open "provider failure recovery requires Agent circuit open";;
  budget ← obj (sn_budget snap);
  provider ← int_or0 "in_flight" budget;
  ensure (provider =? 0) "provider failure recovery requires zero provider in-flight";;
  healthy ← (if otruthy (dget "circuit_open" budget) then Ok false else healthy_status budget);
  ensure healthy "provider failure recovery requires healthy budget circuit";;
  ensure (hindsight_active (sn_operations snap) =? 0)
    "provider failure recovery requires zero Hindsight activity".

Definition history_exact (p : proof) (row : outbox_row F) (h : history_row F) : bool :=
  bool_decide (hs_operation_id h = Some (pf_parent p)) &&
  bool_decide (hs_previous_state h = "failed"%string) &&
  bool_decide (hs_payload_hash h = pf_payload_hash p) &&
  bool_decide (hs_submitted_hash h = Some (pf_payload_hash p)) &&
  py_eq (JObj (hs_item h)) (JObj (or_item row)).
Definition provenance_exact (p : proof) (row : outbox_row F) : bool :=
  (bool_decide (or_operation_id row = Some (pf_parent p)) || bool_decide (or_operation_id row = None)) &&
  bool_decide (or_payload_hash row = pf_payload_hash p) &&
  bool_decide (or_source_kind row = "agent_session"%string) &&
  (or_source_id row =? pf_source_id p) &&
  bool_decide (or_source_document row = Some (or_document_id row)) &&
  is_str (or_document_id row) (dget "document_id" (or_item row)).
Definition check_local_row (histories : list (history_row F)) (row : outbox_row F) : result unit :=
  let doc := or_document_id row in
  p ← proof_of doc;
  let own := List.filter (fun h => bool_decide (hs_document_id h = doc)) histories in
  let in_progress := bool_decide (or_state row ∈ ["submitted"; "failed"]%string) in
  ensure (in_progress || bool_decide (or_state row = "queued"%string))
    ("provider recovery state drift for " +:+ doc);;
  ensure (provenance_exact p row) ("provider recovery Agent provenance drift for " +:+ doc);;
  if in_progress then
    ensure (bool_decide (or_operation_id row = Some (pf_parent p)) &&
            bool_decide (or_submitted_hash row = Some (pf_payload_hash p)))
      ("provider recovery submitted hash/operation drift for " +:+ doc);;
    ensure (bool_decide (length own = 0%nat)) ("provider recovery premature history for " +:+ doc)
  else
    match own with
    | [h] => ensure (history_exact p row h) ("provider recovery history provenance drift for " +:+ doc)
    | _ => Raise (InvariantError ("provider recovery history count drift for " +:+ doc))
    end.

Definition unauthorized (r : operation_row F) : bool :=
  bool_decide (op_status r = "failed"%string) && contains "provider returned 401" (str_opt (op_error r)).
(** The item a retain operation carried, with the public name of its time stamp. *)
Definition canonical_item (contents : list (json F)) : result (odict (json F)) :=
  match contents with
  | [JObj d] =>
      Ok (match dget "event_date" d, dget "timestamp" d with
          | Some v, None => dset "timestamp" v (dpop "event_date" d)
          | _, _ => d
          end)
  | [JArr []] | [JStr EmptyString] => Ok []
  | [_] => Raise (TypeError "cannot convert dictionary update sequence element")
  | _ => Ok []
  end.
Definition check_remote (operations : list (operation_row F)) (row : outbox_row F) : result unit :=
  let doc := or_document_id row in
  p ← proof_of doc;
  match find_operation (pf_parent p) operations, find_operation (pf_child p) operations with
  | Some parent, Some child =>
      ensure (bool_decide (op_type parent = "batch_retain"%string) &&
              bool_decide (op_type child = "retain"%string) && unauthorized parent && unauthorized child)
        ("provider recovery terminal failure drift for " +:+ doc);;
      let metadata := default [] (op_metadata child) in
      let payload := default [] (op_payload child) in
      contents ← match dget "contents" payload with
                 | Some j => if truthy j then py_list j else Ok []
                 | None => Ok []
                 end;
      canonical ← canonical_item contents;
      ensure (is_str (pf_parent p) (dget "parent_operation_id" metadata) &&
              match dget "document_ids" metadata with
              | Some j => py_eq j (JArr [JStr doc])
              | None => false
              end &&
              is_str "agent-sessions" (dget "bank_id" payload) &&
              is_str (pf_child p) (dget "operation_id" payload) &&
              (length contents =? 1)%nat &&
              py_eq (JObj canonical) (JObj (or_item row)))
        ("provider recovery remote lineage drift for " +:+ doc);;
      ensure (bool_decide (canonical_hash canonical = pf_payload_hash p))
        ("provider recovery canonical hash drift for " +:+ doc)
  | _, _ => Raise (KeyError doc)
  end.

(** The local and the remote evidence, as read before the lock is taken. *)
Definition gather_evidence : prog (list (outbox_row F)) :=
  rows ← ask (OutboxRows document_ids);
  histories ← ask (RetryHistory document_ids);
  other ← ask (OtherActiveRow document_ids);
  require (negb other) "unexpected active Agent row during provider recovery";;
  require (same_set (map or_document_id rows) document_ids) "provider recovery document set drift";;
  PRet (each_ok (check_local_row histories) rows);;
  operations ← ask (Operations recovery_operation_ids);
  present ← ask (DocumentsPresent document_ids);
  require (same_set (map op_id operations) recovery_operation_ids && bool_decide (length present = 0%nat))
    "provider recovery remote operation/document set drift";;
  PRet (each_ok (check_remote operations) rows);;
  mret rows.

Definition retry_failed (document : string) : prog unit :=
  current ← ask (OutboxRow document);
  match current with
  | Some row =>
      if bool_decide (or_state row = "failed"%string) then
        retried ← transaction (ask (RetryDocument document
                    "authorized retry after terminal provider-401 recovery" true));
        require retried ("provider recovery retry failed for " +:+ document)
      else mret tt
  | None => mret tt
  end.

(** Under the lock: refresh what is still submitted, then requeue what has failed. *)
Definition submitted_pairs (locked : list (outbox_row F)) : list (string * string) :=
  remove_dups (map pair_of (List.filter (fun r => bool_decide (or_state r = "submitted"%string)) locked)).
Definition requeue : prog (list (outbox_row F) * list (history_row F)) :=
  circuit ← ask AgentCircuitFlag;
  locked ← ask (OutboxRows document_ids);
  all_submitted ← ask SubmittedRows;
  require (default false circuit) "Agent circuit closed before provider recovery";;
  let pairs := submitted_pairs locked in
  require (same_set pairs (map pair_of all_submitted)) "submitted row set changed before provider recovery";;
  (if bool_decide (pairs = []) then mret tt
   else
     '(completed, failed) ← ask (RefreshSubmitted (Some pairs));
     require ((completed =? 0) && (failed =? Z.of_nat (length pairs)))
       ("provider recovery refresh result (" +:+ str_of_Z completed +:+ ", " +:+ str_of_Z failed +:+ ")"));;
  each document_ids retry_failed;;
  rows ← ask (OutboxRows document_ids);
  histories ← ask (RetryHistory document_ids);
  mret (rows, histories).

Definition position (rows : list (outbox_row F)) (document : string) : option string :=
  or_available_at <$> List.find (fun r => bool_decide (or_document_id r = document)) rows.
Definition requeued_in_place (before : list (outbox_row F)) (row : outbox_row F) : bool :=
  bool_decide (or_state row = "queued"%string) &&
  bool_decide (position before (or_document_id row) = Some (or_available_at row)).

Definition recover_provider_auth_failures : prog (audit F) :=
  p ← load_phase;
  audit ← full_audit cfg runtime p;
  PRet (provider_gate p audit);;
  rows ← gather_evidence;
  ask MakeWorker;;
  '(final_rows, final_histories) ← bank_lock requeue;
  require (forallb (requeued_in_place rows) final_rows) "provider recovery queue position/state drift";;
  require (same_set (map (fun h => (hs_document_id h, str_opt (hs_operation_id h))) final_histories)
                    (map (fun p => (pf_document p, pf_parent p)) PROVIDER_AUTH_FAILURE_ROWS))
    "provider recovery final history drift";;
  let succeeded := count "succeeded" (agent_counts audit) in
  let p := dupdate p [("name", JStr "ready"); ("budget", JStr "closed"); ("expected_retry", JInt 20);
                      ("expected_succeeded", JInt succeeded)]%string in
  save_phase p;;
  settled ← full_audit cfg runtime p;
  require (counts_eq (agent_counts settled) (settled_counts cfg succeeded))
    ("provider recovery counts mismatch: " +:+ py_repr (counts_json (agent_counts settled)) +:+ " != " +:+
     py_repr (counts_json (settled_counts cfg succeeded)));;
  require (bool_decide (au_histories settled = (20, 12, 1)) && (au_remote_documents settled =? succeeded) &&
           bool_decide (au_failures settled = []))
    ("provider recovery audit failed: " +:+ py_repr (JArr (map (@JStr F) (au_failures settled))));;
  event "provider_auth_failures_requeued"
    [("document_ids", JArr (map JStr document_ids)); ("operation_ids", JArr (map JStr parent_ids))]%string;;
  mret settled.
End auth.
