(* ===== verification/RecoveryGuard.v ===== *)
(** * Hindsight recovery: the guard, the watchdog and the command line

    The two services of recovery.py and its commands.  A service is a loop without end:
    [run_guard n] and [run_watchdog n] are its first [n] turns. *)

From stdpp Require Import base option list strings.
From Stdlib Require Import ZArith Lia Ascii.
From S2P Require Import Prelude PyStr PyFloat Json Decimal Effects Recovery RecoveryAudit RecoveryOps RecoveryAuth.

Local Open Scope Z_scope.
Local Open Scope py_scope.

Section guard.
Context {F : Type} `{PyFloat F}.
Abbreviation phase := (odict (json F)).
Abbreviation prog := (@prog (@recovery_effect F)).
Variable cfg : config F.
Variable runtime : odict string.
Variable fuel : nat.

Definition agent_circuit_is_open : prog bool :=
  row ← ask AgentCircuitFlag; mret (default false row).

(** ** [run_guard] *)

Definition write_heartbeat (fields : odict (json F)) : prog unit :=
  now ← ask Now;
  ask (WriteFile Heartbeat (dupdate [("at", JFloat now)]%string fields)).

(** The checks of one turn, up to the full audit: the failures found, the attempted
    count and the time of the last full audit. *)
Definition guard_checks (p : phase) (last_full : F) : prog (list string * Z * F) :=
  snap ← quick_snapshot cfg runtime;
  failures ← PRet (quick_failures cfg snap p);
  let counts := sn_agent_counts snap in
  let attempted := sum_states ATTEMPTED_STATES counts in
  name ← PRet (phase_name p);
  let action := stage_action attempted name (cf_stage_cap cfg) in
  p ← (if bool_decide (action = "open"%string) || bool_decide (action = "violation"%string) then
         emergency_open cfg fuel ("stage cap guard: attempted=" +:+ str_of_Z attempted +:+
                                  " cap=" +:+ str_of_Z (cf_stage_cap cfg));;
         if bool_decide (action = "open"%string) then
           let p := dupdate p [("name", JStr "cap_hold");
                               ("expected_succeeded", JInt (count "succeeded" counts))]%string in
           save_phase p;; mret p
         else mret p
       else mret p);
  now ← ask Monotonic;
  if f_leb (cf_full_seconds cfg) (f_sub now last_full) then
    name ← PRet (item "name" p);
    write_heartbeat [("healthy", JBool true); ("phase", name); ("attempted", JInt attempted);
                     ("full_audit", JStr "running")]%string;;
    p ← load_phase;
    full ← full_audit cfg runtime p;
    mret (failures ++ au_failures full, attempted, now)
  else mret (failures, attempted, last_full).
(** What a turn does with them. *)
Definition guard_verdict (failures : list string) (attempted : Z) : prog unit :=
  require (bool_decide (failures = [])) (join "; " (sorted_set failures));;
  p ← load_phase;
  name ← PRet (item "name" p);
  (if eq_str "cap_hold" name then settle_cap cfg runtime;; mret tt else mret tt);;
  now ← ask Now;
  p ← load_phase;
  name ← PRet (item "name" p);
  ask (WriteFile Heartbeat [("at", JFloat now); ("healthy", JBool true); ("phase", name);
                            ("attempted", JInt attempted)]%string).
Definition report_failure (reason : string) (last_reason : option string) : prog (option string) :=
  write_heartbeat [("healthy", JBool false); ("reason", JStr reason)]%string;;
  (if bool_decide (last_reason = Some reason) then mret tt
   else event "guard_failure" [("reason", JStr reason)]%string);;
  mret (Some reason).
Definition guard_failed (e : exn) (last_reason : option string) : prog (option string) :=
  let reason := ("guard failure: " +:+ exn_name e +:+ ": " +:+ exn_msg e)%string in
  proven ← attempt agent_circuit_is_open;
  (if match proven with Ok b => b | Raise _ => false end then mret tt
   else suppress (emergency_open cfg fuel reason));;
  report_failure reason last_reason.

Definition end_turn (last_full : F) (outcome : result unit) (last_reason : option string)
    : prog (F * option string) :=
  last_reason ← match outcome with Ok _ => mret None | Raise e => guard_failed e last_reason end;
  ask (Sleep (cf_quick_seconds cfg));;
  mret (last_full, last_reason).
(** One turn: the new time of the last full audit and the last reason of a failure. *)
Definition guard_turn (last_full : F) (last_reason : option string) : prog (F * option string) :=
  p ← load_phase;
  checks ← attempt (guard_checks p last_full);
  '(last_full, outcome) ← match checks with
                          | Raise e => mret (last_full, Raise e)
                          | Ok (failures, attempted, last_full) =>
                              r ← attempt (guard_verdict failures attempted);
                              mret (last_full, r)
                          end;
  end_turn last_full outcome last_reason.
Fixpoint guard_turns (n : nat) (last_full : F) (last_reason : option string) : prog unit :=
  match n with
  | O => PHalt
  | S n =>
      '(last_full, last_reason) ← guard_turn last_full last_reason;
      guard_turns n last_full last_reason
  end.
Definition run_guard (n : nat) : prog unit :=
  ask LoadSecrets;;
  guard_turns n (f_of_Z 0) None.

(** ** [run_watchdog] *)

Definition heartbeat_age : prog (option F) :=
  there ← ask (FileExists Heartbeat);
  if negb there then mret None
  else
    age ← attempt (now ← ask Now;
                   beat ← ask (ReadFile Heartbeat);
                   at_ ← PRet (d ← match beat with
                                   | JObj d => Ok d
                                   | _ => Raise (TypeError "indices must be integers")
                                   end;
                               j ← item "at" d; json_float j);
                   mret (f_sub now at_));
    mret (match age with Ok a => Some a | Raise _ => None end).
Definition watchdog_turn : prog unit :=
  p ← load_phase;
  age ← heartbeat_age;
  ready ← all_ready (cf_pg_local_ports cfg ++
                     [cf_hindsight_port cfg; cf_budget_port cfg; cf_fugu_port cfg] ++
                     cf_patroni_ports cfg);
  guard ← ask (ServiceActive "hindsight-recovery-guard.service");
  tunnel ← ask (ServiceActive "hindsight-recovery-tunnel.service");
  let armed := otruthy (dget "watchdog_armed" p) in
  let failure := watchdog_failure armed age ready guard tunnel (cf_heartbeat_max_age cfg) in
  match failure with
  | Some f =>
      suppress (emergency_open cfg fuel ("watchdog failure: " +:+ f));;
      event "watchdog_failure" [("reason", JStr f)]%string
  | None => mret tt
  end;;
  now ← ask Now;
  ask (WriteFile Watchdog
    [("at", JFloat now); ("healthy", JBool (bool_decide (failure = None)));
     ("reason", match failure with Some f => JStr f | None => JNull end);
     ("armed", JBool armed)]%string);;
  ask (Sleep (cf_watchdog_seconds cfg)).
Fixpoint watchdog_turns (n : nat) : prog unit :=
  match n with
  | O => PHalt
  | S n => watchdog_turn;; watchdog_turns n
  end.
Definition run_watchdog (n : nat) : prog unit :=
  emergency_open cfg fuel "restart-safe watchdog startup hold";;
  watchdog_turns n.

(** ** The command line *)

Record phase_args := {
  pa_name : option string;
  pa_budget : option string;
  pa_expected_retry : option Z;
  pa_expected_succeeded : option Z;
  pa_arm : bool;
  pa_disarm : bool;
}.
Definition set_opt (k : string) (v : option (json F)) (p : phase) : phase :=
  match v with Some v => dset k v p | None => p end.
Definition phase_command (a : phase_args) : prog phase :=
  p ← load_phase;
  let p := set_opt "expected_succeeded" (JInt <$> pa_expected_succeeded a)
             (set_opt "expected_retry" (JInt <$> pa_expected_retry a)
               (set_opt "budget" (JStr <$> pa_budget a) (set_opt "name" (JStr <$> pa_name a) p))) in
  if pa_arm a && pa_disarm a then raise (SystemExit "--arm and --disarm are mutually exclusive")
  else
    let p := if pa_arm a then dset "watchdog_armed" (JBool true) p else p in
    let p := if pa_disarm a then dset "watchdog_armed" (JBool false) p else p in
    save_phase p;; mret p.

Inductive command :=
  | CmdAudit (full : bool) | CmdEmergencyOpen (reason : string) | CmdPhase (a : phase_args)
  | CmdRefreshRetry | CmdRecoverProviderFailures | CmdPrepareResume | CmdRelease | CmdSettleCap
  | CmdGuard (turns : nat) | CmdWatchdog (turns : nat).
Definition ignore {A} (p : prog A) : prog unit := p;; mret tt.
(** The commands that use the databases first read the secrets; results are printed. *)
Definition main (c : command) : prog unit :=
  match c with
  | CmdEmergencyOpen reason => emergency_open cfg fuel reason
  | CmdPhase a => ignore (phase_command a)
  | CmdGuard n => run_guard n
  | CmdWatchdog n => run_watchdog n
  | CmdAudit full =>
      ask LoadSecrets;;
      p ← load_phase;
      if full : bool then
        a ← full_audit cfg runtime p;
        if bool_decide (au_failures a = []) then mret tt else raise (SystemExit "2")
      else ignore (quick_snapshot cfg runtime)
  | CmdRefreshRetry => ask LoadSecrets;; ignore (refresh_retry cfg runtime)
  | CmdRecoverProviderFailures => ask LoadSecrets;; ignore (recover_provider_auth_failures cfg runtime)
  | CmdPrepareResume => ask LoadSecrets;; ignore (prepare_resume cfg runtime)
  | CmdRelease => ask LoadSecrets;; ignore (release cfg runtime fuel)
  | CmdSettleCap => ask LoadSecrets;; ignore (settle_cap cfg runtime)
  end.
End guard.
