(* ===== verification/RecoveryFacts.v ===== *)
(** * Hindsight recovery: theorems

    What every run of the recovery program does and does not do, whatever the databases,
    the services and the clocks answer. *)

From stdpp Require Import base option list strings.
From Stdlib Require Import ZArith Lia Ascii.
From S2P Require Import Prelude PyStr PyFloat Json Decimal Effects Recovery RecoveryAudit RecoveryOps RecoveryAuth RecoveryGuard.

Local Open Scope Z_scope.

Section facts.
Context {F : Type} `{PyFloat F}.
Abbreviation prog := (@prog (@recovery_effect F)).
Abbreviation hist := (@Effects.hist (@recovery_effect F)).
Abbreviation event := (@Effects.event (@recovery_effect F)).
Abbreviation ract := (@action (@recovery_effect F)).
Variable cfg : config F.
Variable runtime : odict string.

(** ** Which programs touch the outbox, the circuit or the lock *)

Definition closes (a : raction F) : bool := match a with CloseCircuit => true | _ => false end.
(** Actions that need the advisory lock of the bank *)
Definition needs_lock (a : raction F) : bool :=
  match a with CloseCircuit | RefreshSubmitted _ | RetryDocument _ _ _ => true | _ => false end.
Definition locks (a : raction F) : bool :=
  match a with BankTryLock | BankUnlock | BankClose => true | _ => false end.
Definition quiet (a : ract) : Prop := needs_lock a = false /\ locks a = false.

(** Quiet, and the only file written is the phase it starts with. *)
Definition mild (a : ract) : Prop :=
  quiet a /\ match a with WriteFile f v => f = Phase /\ v = DEFAULT_PHASE | _ => True end.
Lemma mild_quiet {A} (p : prog A) : only mild p -> only quiet p.
Proof. apply only_mono. by intros a []. Qed.
#[local] Hint Resolve mild_quiet : effects.

Lemma load_phase_mild : only mild (load_phase (F := F)).
Proof. unfold load_phase. only_auto. Qed.
Lemma save_phase_quiet p : only quiet (save_phase (F := F) p).
Proof. unfold save_phase. only_auto. Qed.
Lemma event_mild k f : only mild (RecoveryAudit.event (F := F) k f).
Proof. unfold RecoveryAudit.event. only_auto. Qed.
Lemma http_json_mild u : only mild (http_json (F := F) u).
Proof. unfold http_json. only_auto. Qed.
#[local] Hint Resolve load_phase_mild save_phase_quiet event_mild http_json_mild : effects.
Lemma quick_snapshot_mild : only mild (quick_snapshot cfg runtime).
Proof. unfold quick_snapshot. only_auto. Qed.
Lemma fetch_patronis_mild ports : only mild (fetch_patronis (F := F) ports).
Proof. induction ports; cbn [fetch_patronis]; unfold fetch_patroni; only_auto. Qed.
#[local] Hint Resolve quick_snapshot_mild fetch_patronis_mild : effects.
Lemma full_audit_mild p : only mild (full_audit cfg runtime p).
Proof. unfold full_audit. only_auto. Qed.
#[local] Hint Resolve full_audit_mild : effects.
Lemma wait_ports_until_mild n ports d : only mild (wait_ports_until (F := F) n ports d).
Proof.
  assert (forall ports, only mild (all_ready (F := F) ports)) as Hall.
  { clear. induction ports; cbn [all_ready]; only_auto. }
  induction n; cbn [wait_ports_until]; only_auto.
Qed.
#[local] Hint Resolve wait_ports_until_mild : effects.
Lemma emergency_open_mild fuel r : only mild (emergency_open cfg fuel r).
Proof. unfold emergency_open, open_through, wait_ports. only_auto. Qed.
#[local] Hint Resolve emergency_open_mild : effects.

(** ** The lock *)

Fixpoint lock_held (h : hist) : bool :=
  match h with
  | [] => false
  | Ev a r :: h =>
      match a as a return result (ranswer a) -> bool with
      | BankTryLock => fun r => match r with Ok b => b | Raise _ => false end
      | BankUnlock | BankClose => fun _ => false
      | _ => fun _ => lock_held h
      end r
  end.
Definition locked_guard (h : hist) (a : ract) : Prop := needs_lock a = true -> lock_held h = true.
Abbreviation held := (fun h => lock_held h = true).
Abbreviation always := (fun _ : hist => True).

Lemma lock_held_other (a : ract) r h : locks a = false -> lock_held (Ev a r :: h) = lock_held h.
Proof. by destruct a. Qed.
Lemma quiet_held {A} (p : prog A) : only quiet p -> keeps locked_guard held p.
Proof.
  intros Hp. eapply keeps_only; [exact Hp| |].
  - intros h a _ [Ha _] Hn. congruence.
  - intros h a r Hh [_ Ha]. by rewrite lock_held_other.
Qed.
Lemma lockfree_always {A} (p : prog A) :
  only (fun a : ract => needs_lock a = false) p -> keeps locked_guard always p.
Proof. intros Hp. eapply keeps_only; [exact Hp| |done]. intros h a _ Ha Hn. congruence. Qed.
Lemma quiet_always {A} (p : prog A) : only quiet p -> keeps locked_guard always p.
Proof. intros Hp. apply lockfree_always. eapply only_mono; [|exact Hp]. by intros a []. Qed.
#[local] Hint Resolve quiet_held quiet_always : effects.

Lemma transaction_held {A} (p : prog A) : keeps locked_guard held p -> keeps locked_guard held (transaction p).
Proof.
  intros Hp. unfold transaction. apply keeps_bind; [by apply quiet_held, only_act|]. intros _.
  apply keeps_pbind; [done|]. intros [a|e]; apply quiet_held; only_auto.
Qed.
(** The rule of [with self.bank_lock()]: the body runs with the lock. *)
Lemma bank_lock_always {A} (body : prog A) :
  keeps locked_guard held body -> keeps locked_guard always (bank_lock body).
Proof.
  intros Hb h _. unfold bank_lock. apply wp_bind. split; [done|].
  intros [[]|e]; [|split; [done|by intros []]|done]. apply wp_finally. eapply wp_post; [by apply Hb|].
  intros h' r _. eapply wp_post; [apply lockfree_always; [only_auto|done]|]. by intros h'' [].
Qed.
Lemma locked_act (a : ract) : locks a = false -> keeps locked_guard held (act a).
Proof. intros Ha. apply keeps_act; [by intros h Hh ?|]. intros. by rewrite lock_held_other. Qed.
Lemma require_quiet b m : only quiet (require (F := F) b m).
Proof. apply only_ret. Qed.
#[local] Hint Resolve transaction_held bank_lock_always locked_act require_quiet : effects.
Lemma invariant_quiet {A} m : only quiet (invariant (F := F) (A := A) m).
Proof. apply only_ret. Qed.
#[local] Hint Resolve invariant_quiet : effects.

Lemma prove_held_failure_quiet : only quiet (prove_held_failure cfg runtime).
Proof. unfold prove_held_failure, no_failures, in_flight. only_auto. Qed.
#[local] Hint Resolve prove_held_failure_quiet : effects.
Ltac locked_auto :=
  repeat first [solve [auto with effects] | apply locked_act; reflexivity
    | apply quiet_always, only_act; by split | apply bank_lock_always | apply transaction_held | keeps_step].
Lemma refresh_retry_locked : keeps locked_guard always (refresh_retry cfg runtime).
Proof. unfold refresh_retry, no_failures. locked_auto. Qed.
Lemma close_agent_locked r : keeps locked_guard always (close_agent (F := F) r).
Proof. unfold close_agent. locked_auto. Qed.
#[local] Hint Resolve close_agent_locked : effects.
Lemma release_check_quiet p i prior : only quiet (release_check cfg runtime p i prior).
Proof. unfold release_check, no_failures. only_auto. Qed.
#[local] Hint Resolve release_check_quiet : effects.
Lemma release_checks_quiet p i n prior last : only quiet (release_checks cfg runtime p i n prior last).
Proof. revert i prior last. induction n; intros; cbn [release_checks]; only_auto. Qed.
#[local] Hint Resolve release_checks_quiet : effects.
Lemma ten_checks_quiet p : only quiet (ten_checks cfg runtime p).
Proof. unfold ten_checks. only_auto. Qed.
#[local] Hint Resolve ten_checks_quiet : effects.
Lemma first_claim_quiet fuel n d b : only quiet (first_claim cfg runtime fuel n d b).
Proof. induction n; cbn [first_claim]; unfold in_flight; only_auto. Qed.
#[local] Hint Resolve first_claim_quiet : effects.
Lemma release_locked fuel : keeps locked_guard always (release cfg runtime fuel).
Proof. unfold release. locked_auto. Qed.
Lemma refresh_proven_locked proofs : keeps locked_guard always (refresh_proven (F := F) proofs).
Proof. unfold refresh_proven. locked_auto. Qed.
#[local] Hint Resolve refresh_proven_locked : effects.
Lemma prepare_resume_locked : keeps locked_guard always (prepare_resume cfg runtime).
Proof. unfold prepare_resume, no_failures, resume_of, in_flight, prove_completed. locked_auto. Qed.
Lemma all_completed_mild rows : only mild (all_completed (F := F) rows).
Proof. induction rows; cbn [all_completed]; only_auto. Qed.
#[local] Hint Resolve all_completed_mild : effects.
Lemma preprove_mild : only mild (preprove_cap_refresh cfg runtime).
Proof. unfold preprove_cap_refresh, in_flight. only_auto. Qed.
#[local] Hint Resolve preprove_mild : effects.
Lemma settle_cap_locked : keeps locked_guard always (settle_cap cfg runtime).
Proof. unfold settle_cap. locked_auto. Qed.
Lemma gather_evidence_quiet : only quiet (gather_evidence (F := F)).
Proof. unfold gather_evidence. only_auto. Qed.
#[local] Hint Resolve gather_evidence_quiet settle_cap_locked : effects.
Lemma requeue_locked : keeps locked_guard held (requeue (F := F)).
Proof. unfold requeue, retry_failed. locked_auto. Qed.
#[local] Hint Resolve requeue_locked : effects.
Lemma recover_locked : keeps locked_guard always (recover_provider_auth_failures cfg runtime).
Proof. unfold recover_provider_auth_failures. locked_auto. Qed.
#[local] Hint Resolve refresh_retry_locked release_locked prepare_resume_locked recover_locked : effects.

Lemma guard_turn_locked fuel lf lr : keeps locked_guard always (guard_turn cfg runtime fuel lf lr).
Proof.
  unfold guard_turn, end_turn, guard_checks, guard_verdict, guard_failed, report_failure, write_heartbeat, agent_circuit_is_open.
  locked_auto.
Qed.
Lemma guard_turns_locked fuel n lf lr : keeps locked_guard always (guard_turns cfg runtime fuel n lf lr).
Proof.
  revert lf lr. induction n; intros; cbn [guard_turns]; [apply keeps_halt|].
  apply keeps_bind; [apply guard_turn_locked|]. intros []. auto.
Qed.
Lemma watchdog_turns_quiet fuel n : only quiet (watchdog_turns cfg fuel n).
Proof.
  assert (forall ports, only quiet (all_ready (F := F) ports)) as Hall.
  { clear. induction ports; cbn [all_ready]; only_auto. }
  induction n; cbn [watchdog_turns]; unfold watchdog_turn, heartbeat_age; only_auto.
Qed.
#[local] Hint Resolve guard_turns_locked watchdog_turns_quiet : effects.

Lemma main_locked fuel c : keeps locked_guard always (main cfg runtime fuel c).
Proof. destruct c; cbn [main]; unfold run_guard, run_watchdog, phase_command, ignore; locked_auto. Qed.

(** C12: Whatever the command, the circuit is closed, submitted work is refreshed and a
    document is requeued only while the advisory lock of the bank is held: it was
    acquired and has not been released since. *)
Theorem changes_hold_the_lock fuel (c : command) (h h' : hist) (a : ract) k :
  steps (main cfg runtime fuel c) h (POp a k) h' -> needs_lock a = true -> lock_held h' = true.
Proof. intros Hs. apply (wp_guard _ _ _ _ _ _ _ (main_locked fuel c h I) Hs). Qed.

(** ** Who closes the circuit *)

Definition keeps_open (a : ract) : Prop := closes a = false.
Lemma quiet_keeps_open {A} (p : prog A) : only quiet p -> only keeps_open p.
Proof. intros Hp. eapply only_mono; [|exact Hp]. intros [] []; done. Qed.
#[local] Hint Resolve quiet_keeps_open : effects.
Ltac open_auto :=
  repeat first [solve [auto with effects] | apply only_act; reflexivity | only_step
    | apply only_pbind; [|intros ?] | progress unfold bank_lock, transaction, finally].
Lemma settle_cap_keeps_open : only keeps_open (settle_cap cfg runtime).
Proof. unfold settle_cap. open_auto. Qed.
#[local] Hint Resolve settle_cap_keeps_open : effects.
Lemma guard_turns_keep_open fuel n lf lr : only keeps_open (guard_turns cfg runtime fuel n lf lr).
Proof.
  revert lf lr. induction n; intros; cbn [guard_turns]; [apply only_halt|].
  apply only_bind; [|intros []; auto].
  unfold guard_turn, end_turn, guard_checks, guard_verdict, guard_failed, report_failure, write_heartbeat, agent_circuit_is_open.
  open_auto.
Qed.
#[local] Hint Resolve guard_turns_keep_open : effects.
Definition is_release (c : command) : bool := match c with CmdRelease => true | _ => false end.

Lemma closing_is_release fuel (c : command) (h h' : hist) (a : ract) k :
  is_release c = false -> steps (main cfg runtime fuel c) h (POp a k) h' -> closes a = false.
Proof.
  intros Hc Hs. apply (only_performs keeps_open _ _ _ _ _) with (2 := Hs).
  destruct c; try discriminate Hc; cbn [main];
    unfold run_guard, run_watchdog, phase_command, ignore, refresh_retry, prepare_resume,
      recover_provider_auth_failures, refresh_proven, requeue, retry_failed, no_failures, resume_of,
      in_flight, prove_completed; open_auto.
Qed.

(** Only the command that releases closes the circuit of the agent; the guard, the
    watchdog, the audits and the other repairs never do. *)
Theorem only_release_closes fuel (c : command) (h h' : hist) (a : ract) k :
  is_release c = false -> steps (main cfg runtime fuel c) h (POp a k) h' -> closes a = false.
Proof. exact (closing_is_release fuel c h h' a k). Qed.

(** ** The stability window before a release *)

Abbreviation phase := (odict (json F)).
Definition spend (s : snapshot F) : option (json F) :=
  match sn_budget s with JObj d => jget "hindsight_backfill_spent_usd" d | _ => None end.
Definition same_spend (prior current : option (json F)) : Prop :=
  match prior, current with
  | None, _ => True
  | Some a, Some b => py_eq b a = true
  | Some _, None => False
  end.
(** The first and the tenth check go on from [h1] with a full audit without a failure; the
    others do nothing more. *)
Definition audited (p : phase) (n : nat) (h1 h2 : hist) : Prop :=
  if (n =? 0)%nat || (n =? 9)%nat
  then exists a, runs (full_audit cfg runtime p) h1 h2 (Ok a) /\ au_failures a = []
  else h2 = h1.
(** Two seconds pass after every check but the tenth. *)
Definition slept (n : nat) (h2 h3 : hist) : Prop :=
  if (n <? 9)%nat then h3 = Ev (Sleep (f_of_Z 2) : ract) (Ok tt) :: h2 else h3 = h2.
(** [window p h0 n prior h]: what has happened since [h0] is [n] snapshots taken one after the
    other under phase [p], all without a failure and with the same spend [prior], the first
    and the tenth followed by a full audit without a failure, and nothing else but the sleep
    between two of them. *)
Inductive window (p : phase) (h0 : hist) : nat -> option (json F) -> hist -> Prop :=
  | window_0 : window p h0 0 None h0
  | window_S n prior h h1 h2 h3 s :
      window p h0 n prior h ->
      runs (quick_snapshot cfg runtime) h h1 (Ok s) ->
      quick_failures cfg s p = Ok [] ->
      same_spend prior (spend s) ->
      audited p n h1 h2 ->
      slept n h2 h3 ->
      window p h0 (S n) (spend s) h3.

Section close.
Context (Good : hist -> Prop).
Definition close_guard (h : hist) (a : ract) : Prop := a = CloseCircuit -> Good h.
Lemma quiet_close {A} (q : prog A) h (Q : hist -> result A -> Prop) :
  only quiet q ->
  (forall evs r, Forall (fun e => quiet (ev_action e)) evs -> runs q h (evs ++ h) r -> Q (evs ++ h) r) ->
  wp close_guard q h Q.
Proof. intros Hq. apply wp_only; [exact Hq|]. by intros h' a [Ha _] ->. Qed.

Lemma release_check_window p h0 n prior h : (n < 10)%nat -> window p h0 n prior h ->
  wp close_guard (release_check cfg runtime p n prior) h
    (fun h' r => match r with Ok (s, current) => window p h0 (S n) current h' | Raise _ => True end).
Proof.
  intros Hn Hw. unfold release_check. apply wp_bind, quiet_close; [auto with effects|].
  intros evs [s|e] Hevs Hs; [|done].
  destruct (quick_failures cfg s p) as [fs|e] eqn:Ef; [|done]. cbn [wp pbind mbind prog_bind].
  unfold require. destruct (bool_decide (fs = [])) eqn:Efs; [|done]. apply bool_decide_eq_true in Efs. subst fs.
  cbn [negb raise_if wp pbind mbind prog_bind]. destruct (sn_budget s) as [| | | | | |budget] eqn:Eb; try done.
  cbn [obj wp pbind]. unfold no_failures, require.
  set (current := jget _ budget). assert (spend s = current) as <- by (unfold spend; by rewrite Eb).
  destruct (match prior with None => true | Some a => match spend s with Some b => py_eq b a | None => false end end) eqn:Es;
    [|done].
  assert (same_spend prior (spend s)) as Hsame.
  { destruct prior, (spend s); simpl in *; done. }
  cbn [negb raise_if pbind].
  assert (forall h2 Q, audited p n (evs ++ h) h2 ->
    (forall h3, window p h0 (S n) (spend s) h3 -> Q h3 (Ok (s, spend s))) -> (forall h3 e, Q h3 (Raise e)) ->
    wp close_guard ((if (n <? 9)%nat then ask (Sleep (f_of_Z 2)) else mret tt);; mret (s, spend s)) h2 Q) as Hend.
  { intros h2 Q Ha HQ HR. assert (forall h3, slept n h2 h3 -> Q h3 (Ok (s, spend s))) as Hdone.
    { intros h3 Hs3. apply HQ. by eapply (window_S p h0 n prior h (evs ++ h) h2 h3 s). }
    unfold slept in Hdone. apply wp_bind. destruct (n <? 9)%nat.
    - split; [by intros ?|]. intros [[]|e]; [by apply Hdone|apply HR].
    - by apply Hdone. }
  unfold audited in Hend. destruct ((n =? 0)%nat || (n =? 9)%nat) eqn:En.
  - apply wp_bind. apply wp_bind, quiet_close; [auto with effects|].
    intros evs2 [a|e] Hq2 Ha; [|done]. unfold require.
    destruct (bool_decide (au_failures a = [])) eqn:Ea; [|done]. apply bool_decide_eq_true in Ea.
    apply Hend; [by exists a|done|done].
  - apply wp_bind. by apply Hend.
Qed.
Lemma release_checks_window p h0 n i prior last h : (i + n <= 10)%nat -> window p h0 i prior h ->
  wp close_guard (release_checks cfg runtime p i n prior last) h
    (fun h' r => match r with Ok s => exists prior, window p h0 (i + n) prior h' | Raise _ => True end).
Proof.
  revert i prior last h. induction n as [|n IH]; intros i prior last h Hi Hw; cbn [release_checks].
  - rewrite Nat.add_0_r. by exists prior.
  - apply wp_bind. eapply wp_post; [apply release_check_window; [lia|exact Hw]|].
    intros h' [[s current]|e]; [|done]. intros Hw'. replace (i + S n)%nat with (S i + n)%nat by lia.
    apply IH; [lia|done].
Qed.
Lemma ten_checks_window p h :
  wp close_guard (ten_checks cfg runtime p) h
    (fun h' r => match r with Ok s => exists prior, window p h 10 prior h' | Raise _ => True end).
Proof.
  unfold ten_checks. apply wp_bind. eapply wp_post; [apply (release_check_window p h 0); [lia|constructor]|].
  intros h' [[s current]|e]; [|done]. apply (release_checks_window p h 9 1). lia.
Qed.
End close.

(** The phase was read, then the window was passed, and since then nothing but the lock and
    the start of the transaction has happened. *)
Definition released (h : hist) : Prop :=
  exists p prior hs h0 hw, runs load_phase hs h0 (Ok p) /\ window p h0 10 prior hw /\
    is_str "ready" (dget "name" p) = true /\ is_str "closed" (dget "budget" p) = true /\
    h = Ev (Begin : ract) (Ok tt) :: Ev (BankTryLock : ract) (Ok true) :: hw.

Lemma then_open {A B} (q : prog A) (f : result A -> prog B) h :
  (forall r, only keeps_open (f r)) ->
  wp (close_guard released) q h (fun _ _ => True) ->
  wp (close_guard released) (pbind q f) h (fun _ _ => True).
Proof. apply wp_then. by intros h' a Ha ->. Qed.

Lemma close_agent_released p prior hs h0 h r :
  runs load_phase hs h0 (Ok p) -> window p h0 10 prior h -> is_str "ready" (dget "name" p) = true -> is_str "closed" (dget "budget" p) = true ->
  wp (close_guard released) (close_agent (F := F) r) h (fun _ _ => True).
Proof.
  intros Hp Hw Hn Hb. unfold close_agent.
  apply then_open; [intros []; open_auto|]. unfold bank_lock.
  apply wp_bind. split; [done|]. intros [[]|e]; [|split; [done|by intros []]|done].
  apply then_open; [intros; open_auto|]. unfold transaction.
  apply wp_bind. split; [done|]. intros [[]|e]; [|done].
  apply then_open; [intros []; open_auto|].
  apply then_open; [intros []; open_auto|].
  split; [|done]. intros _. by exists p, prior, hs, h0, h.
Qed.

Lemma release_released fuel h :
  wp (close_guard released) (release cfg runtime fuel) h (fun _ _ => True).
Proof.
  unfold release. apply wp_bind, quiet_close; [auto with effects|]. intros evs [p|e] _ Hp; [|done].
  apply wp_bind. destruct (item "name" p) as [name|e] eqn:En; [|done]. cbn [wp].
  assert (dget "name" p = Some name) as Hname.
  { unfold item in En. destruct (dget "name" p); [congruence|done]. }
  apply wp_bind. unfold require. destruct (eq_str "ready" name && is_str "closed" (dget "budget" p)) eqn:E; [|done].
  apply andb_true_iff in E as [Er Ec]. cbn [negb raise_if wp].
  apply wp_bind. eapply wp_post; [apply ten_checks_window|]. intros h' [s|e]; [|done]. intros (prior & Hw).
  apply then_open.
  - intros [u|e]; [|apply only_ret]. open_auto.
  - eapply close_agent_released; [exact Hp|exact Hw| |done]. by rewrite Hname.
Qed.

(** C11: Whatever happened before, the history at which the circuit of the agent is closed
    ends with: the phase read, which is "ready" with a closed budget; ten snapshots without
    a failure and with an unchanged spend, two seconds apart, the first and the tenth each
    followed by a clean full audit; the lock and the start of the transaction; and nothing
    else in between. *)
Theorem release_after_clean_window fuel (c : command) (h h' : hist) k :
  steps (main cfg runtime fuel c) h (POp (CloseCircuit : ract) k) h' -> released h'.
Proof.
  intros Hs. destruct (is_release c) eqn:Ec.
  - destruct c; try discriminate Ec. clear Ec.
    assert (wp (close_guard released) (main cfg runtime fuel CmdRelease) h (fun _ _ => True)) as Hw.
    { cbn [main]. unfold ignore. apply wp_bind. split; [done|]. intros [[]|e]; [|done].
      apply then_open; [intros []; apply only_ret|]. apply release_released. }
    by apply (wp_guard _ _ _ _ _ _ _ Hw Hs).
  - pose proof (closing_is_release _ _ _ _ _ _ Ec Hs). done.
Qed.

End facts.

#[export] Hint Resolve load_phase_mild save_phase_quiet event_mild http_json_mild quick_snapshot_mild
  fetch_patronis_mild full_audit_mild wait_ports_until_mild emergency_open_mild mild_quiet
  all_completed_mild preprove_mild require_quiet invariant_quiet : effects.
