(* ===== verification/RecoveryRules.v ===== *)
(** * Hindsight recovery: the checks, the guard and the loops

    What a clean check says, what the guard's heartbeat says, and that the polling loops
    end once the clock has passed their deadline. *)

From stdpp Require Import base option list sets strings.
From Stdlib Require Import ZArith Lia Ascii SpecFloat.
From S2P Require Import Prelude PyStr PyFloat Json Sha256 Effects Decimal Recovery RecoveryAudit RecoveryOps.
From S2P Require Import RecoveryAuth RecoveryGuard RecoveryFacts.

Local Open Scope Z_scope.

Section rules.
Context {F : Type} `{PyFloat F}.
Abbreviation prog := (@prog (@recovery_effect F)).
Abbreviation event := (@Effects.event (@recovery_effect F)).
Abbreviation hist := (@Effects.hist (@recovery_effect F)).
Abbreviation ract := (@action (@recovery_effect F)).
Abbreviation phase := (odict (json F)).
Variable cfg : config F.
Variable runtime : odict string.

(** ** What a clean check says *)

(** The circuits, the service and the budget, for phase [p] of name [name]. *)
Record clean_services (s : snapshot F) (p : phase) (name : string) : Prop := {
  cl_agent : name <> "running"%string \/ cf_stage_cap cfg <= sum_states ATTEMPTED_STATES (sn_agent_counts s) ->
    exists c, sn_agent_circuit s = Some c /\ ci_open c = true;
  cl_pocket : exists c, sn_pocket_circuit s = Some c /\ ci_open c = true;
  cl_pocket_idle : sum_states (ACTIVE_STATES ++ ERROR_STATES) (sn_pocket_counts s) = 0;
  cl_failed : count "failed" (sn_operations s) = cf_expected_hindsight_failed cfg;
  cl_idle : name <> "running"%string -> hindsight_active (sn_operations s) = 0;
  cl_health : exists d, sn_hindsight_health s = JObj d /\
    dget "status" d = Some (JStr "healthy") /\ dget "database" d = Some (JStr "connected");
}.
Record clean_work (s : snapshot F) : Prop := {
  cl_total : foldr Z.add 0 (dvalues (sn_agent_counts s)) = cf_approved_total cfg;
  cl_attempted : sum_states ATTEMPTED_STATES (sn_agent_counts s) <= cf_stage_cap cfg;
  cl_active : sum_states ACTIVE_STATES (sn_agent_counts s) <= cf_max_agent_active cfg;
  cl_errors : sum_states ERROR_STATES (sn_agent_counts s) = 0;
  cl_limit : dget "HINDSIGHT_OUTBOX_RUN_LIMIT" (sn_runtime s) = Some (str_of_Z (cf_stage_cap cfg));
  cl_in_flight : dget "HINDSIGHT_OUTBOX_MAX_IN_FLIGHT" (sn_runtime s) =
    Some (str_of_Z (cf_max_agent_active cfg));
}.
Record clean_budget (s : snapshot F) (p : phase) : Prop := {
  cl_budget : exists d n x, sn_budget s = JObj d /\
    int_or0 "in_flight" d = Ok n /\ n <= cf_max_provider_in_flight cfg /\
    compute_projection (default (JInt 0) (dget "hindsight_backfill_spent_usd" d))
      (count "succeeded" (sn_agent_counts s)) cfg = Ok x /\
    dltb (cf_hard_budget cfg) x = Ok false /\
    (dget "budget" p = Some (JStr "open") ->
       otruthy (dget "circuit_open" d) = true /\ dget "circuit_reason" d = Some (JStr OPEN_BUDGET_REASON)) /\
    (dget "budget" p = Some (JStr "closed") ->
       otruthy (dget "circuit_open" d) = false /\ healthy_status d = Ok true);
}.

Lemma note_nil b m : note b m = [] <-> b = false.
Proof. by destruct b. Qed.
Lemma is_str_true s o : is_str s o = true <-> o = Some (JStr s : json F).
Proof. destruct o as [j|]; simpl; [rewrite eq_str_true; naive_solver|naive_solver]. Qed.
Lemma is_open_Ok c b : is_open c = Ok b <-> exists x, c = Some x /\ ci_open x = b.
Proof. destruct c; simpl; naive_solver. Qed.

Lemma must_be_open c m :
  (o ← is_open c; Ok (note (negb o) m)) = Ok [] <-> exists x, c = Some x /\ ci_open x = true.
Proof.
  destruct c as [x|]; simpl.
  - destruct (ci_open x) eqn:E; simpl; split; try done; [by exists x|]. intros (y & [= ->] & E'). congruence.
  - split; [done|]. by intros (y & ? & _).
Qed.
Lemma circuit_failures_nil name attempted c :
  circuit_failures cfg name attempted c = Ok [] <->
  (name <> "running"%string \/ cf_stage_cap cfg <= attempted -> exists x, c = Some x /\ ci_open x = true).
Proof.
  unfold circuit_failures. case_bool_decide as Hn; simpl.
  - destruct (Z.leb_spec (cf_stage_cap cfg) attempted); [rewrite must_be_open|]; intuition lia.
  - rewrite must_be_open. intuition.
Qed.

Lemma budget_failures_nil p d :
  budget_failures (F := F) p d = Ok [] <->
  (dget "budget" p = Some (JStr "open") ->
     otruthy (dget "circuit_open" d) = true /\ dget "circuit_reason" d = Some (JStr OPEN_BUDGET_REASON)) /\
  (dget "budget" p = Some (JStr "closed") ->
     otruthy (dget "circuit_open" d) = false /\ healthy_status d = Ok true).
Proof.
  unfold budget_failures. destruct (is_str "open" (dget "budget" p)) eqn:Eo.
  - apply is_str_true in Eo. rewrite Eo, <- (is_str_true OPEN_BUDGET_REASON).
    destruct (otruthy _), (is_str OPEN_BUDGET_REASON _); simpl; split; try congruence; intuition congruence.
  - destruct (is_str "closed" (dget "budget" p)) eqn:Ec.
    + apply is_str_true in Ec. rewrite Ec.
      destruct (otruthy (dget "circuit_open" d)); [|destruct (healthy_status d) as [[]|]]; simpl;
        split; try congruence; intuition congruence.
    + split; [intros _|done]. split; intros E; rewrite <- is_str_true in E; congruence.
Qed.
Lemma bind_eq_Ok {A B} (m : result A) (f : A -> result B) b : (x ← m; f x) = Ok b <-> exists a, m = Ok a /\ f a = Ok b.
Proof. apply bind_Ok. Qed.

(** The quick checks find nothing exactly when the phase has a name, the counts of the
    outbox, the circuits, the remote operations, the providers and the health are as the
    settings and the phase demand, and the projected cost of the whole batch is within
    the hard budget. *)
Theorem quick_checks_exact (s : snapshot F) (p : phase) :
  quick_failures cfg s p = Ok [] <->
  exists name, phase_name p = Ok name /\ clean_work s /\ clean_services s p name /\ clean_budget s p.
Proof.
  unfold quick_failures. split.
  - intros (name & Hn & (fc & Hc & (po & Hp & (d & Hd & (n & Hi & (fb & Hb & (x & Hx & (over & Ho & (h & Hh & Hall)
      %bind_eq_Ok)%bind_eq_Ok)%bind_eq_Ok)%bind_eq_Ok)%bind_eq_Ok)%bind_eq_Ok)%bind_eq_Ok)%bind_eq_Ok)%bind_eq_Ok.
    injection Hall as Hall.
    repeat (apply app_eq_nil in Hall as [?Hf Hall]).
    rewrite !note_nil in *. subst fc fb. exists name. split; [done|].
    rewrite circuit_failures_nil in Hc. apply budget_failures_nil in Hb. apply is_open_Ok in Hp.
    rewrite ?negb_false_iff, ?Z.ltb_ge, ?Z.eqb_eq, ?bool_decide_eq_true in *. subst.
    apply orb_false_iff in Hall as [Hs Hdb]. rewrite negb_false_iff, is_str_true in Hs, Hdb.
    unfold obj in Hd, Hh. destruct (sn_budget s) eqn:Eb; try discriminate Hd. injection Hd as ->.
    destruct (sn_hindsight_health s) eqn:Eh; try discriminate Hh. injection Hh as ->.
    split; [by split|]. split.
    + split; try done; [|by exists h].
      intros Hr. match goal with H : _ && _ = false |- _ => rewrite bool_decide_eq_false_2 in H by done;
        simpl in H; apply negb_false_iff, Z.eqb_eq in H; exact H end.
    + split. by exists d, n, x.
  - intros (name & -> & [] & [] & [(d & n & x & Ed & Hi & Hn & Hx & Ho & Hb)]).
    apply circuit_failures_nil in cl_agent0. apply budget_failures_nil in Hb.
    destruct cl_pocket0 as (c & -> & Hc). destruct cl_health0 as (h & -> & Hs & Hdb).
    apply is_str_true in Hs, Hdb.
    cbn [mbind result_bind]. rewrite cl_agent0. cbn [mbind result_bind is_open]. rewrite Ed.
    cbn [mbind result_bind obj]. rewrite Hi. cbn [mbind result_bind]. rewrite Hb. cbn [mbind result_bind].
    rewrite Hx. cbn [mbind result_bind]. rewrite Ho. cbn [mbind result_bind]. f_equal.
    rewrite Hs, Hdb, Hc.
    rewrite cl_total0, cl_errors0, cl_limit0, cl_in_flight0, cl_pocket_idle0, cl_failed0, !Z.eqb_refl by done.
    rewrite (bool_decide_eq_true_2 (Some _ = Some (str_of_Z (cf_max_agent_active cfg)))) by done.
    rewrite (bool_decide_eq_true_2 (Some _ = Some (str_of_Z (cf_stage_cap cfg)))) by done.
    destruct (Z.ltb_spec (cf_stage_cap cfg) (sum_states ATTEMPTED_STATES (sn_agent_counts s))); [lia|].
    destruct (Z.ltb_spec (cf_max_agent_active cfg) (sum_states ACTIVE_STATES (sn_agent_counts s))); [lia|].
    destruct (Z.ltb_spec (cf_max_provider_in_flight cfg) n); [lia|].
    unfold hindsight_active in cl_idle0.
    case_bool_decide as Hr; [done|]. by rewrite cl_idle0.
Qed.

(** ** What a clean audit says *)

(** The stored payload is the one that was approved, about this document of the agent's
    sessions; in flight, it is the payload that was submitted. *)
Record row_sound (r : audit_row F) : Prop := {
  rs_hash : canonical_hash (ar_item r) = ar_payload_hash r;
  rs_item : dget "document_id" (ar_item r) = Some (JStr (ar_document_id r));
  rs_context : let context := match dget "context" (ar_item r) with
                              | Some j => if truthy j then json_str j else EmptyString
                              | None => EmptyString
                              end in
    contains "source:agent_sessions" context = true /\ contains ("document:" +:+ ar_document_id r) context = true;
  rs_lineage : ar_source_kind r = "agent_session"%string /\ ar_source_document r = Some (ar_document_id r);
  rs_submitted_as : ar_state r ∈ ACTIVE_STATES -> ar_submitted_hash r = Some (ar_payload_hash r);
}.
Lemma row_failure_None (r : audit_row F) : row_failure r = None <-> row_sound r.
Proof.
  unfold row_failure. split.
  - case_bool_decide as Hh; [|done]. simpl. destruct (is_str _ _) eqn:Hi; [|done]. apply is_str_true in Hi. simpl.
    destruct (contains "source:agent_sessions" _) eqn:Hs; [|done].
    destruct (contains ("document:" +:+ _) _) eqn:Hd; [|done]. simpl.
    case_bool_decide as Hk; [|done]. case_bool_decide as Hl; [|done]. simpl.
    case_bool_decide as Ha; [case_bool_decide as Hp; [|done]|]; by split.
  - intros [Hh Hi%is_str_true [Hs Hd] [Hk Hl] Ha]. cbv zeta in *.
    rewrite bool_decide_eq_true_2 by done. simpl. rewrite Hi. simpl. rewrite Hs, Hd. simpl.
    rewrite !bool_decide_eq_true_2 by done. simpl. case_bool_decide; [|done].
    by rewrite bool_decide_eq_true_2 by auto.
Qed.
Lemma rows_failure_None (rows : list (audit_row F)) : rows_failure rows = None <-> Forall row_sound rows.
Proof.
  induction rows as [|r rows IH]; simpl; [by split|]. rewrite Forall_cons, <- IH, <- row_failure_None.
  destruct (row_failure r); split; [done| |done|]; by intros [].
Qed.
Lemma exceeds_false (a b : list string) : exceeds a b = false <-> a ⊆ b.
Proof.
  unfold exceeds. induction a as [|x a IH]; simpl; [split; [set_solver|done]|].
  rewrite orb_false_iff, negb_false_iff, bool_decide_eq_true, IH. set_solver.
Qed.
Lemma rows_in_elem d states (rows : list (audit_row F)) :
  d ∈ rows_in states rows <-> exists r, r ∈ rows /\ ar_document_id r = d /\ ar_state r ∈ states.
Proof.
  unfold rows_in. rewrite list_elem_of_In, in_map_iff. split.
  - intros (r & <- & [Hr Hs%bool_decide_eq_true]%filter_In). exists r. by rewrite list_elem_of_In.
  - intros (r & Hr & <- & Hs). exists r. split; [done|]. apply filter_In.
    by rewrite <- list_elem_of_In, bool_decide_eq_true.
Qed.

(** The audit of the rows and of the remote documents finds nothing exactly when the
    rows are the approved number of distinct documents, each with the payload that was
    approved, no operation is shared, and the remote bank holds every document that has
    succeeded and otherwise only documents that are in flight. *)
Theorem audit_provenance (rows : list (audit_row F)) (remote : list string) :
  local_failures cfg rows = [] /\ remote_failures rows remote = [] <->
  NoDup (map ar_document_id rows) /\ Z.of_nat (length rows) = cf_approved_total cfg /\
  NoDup (operation_ids rows) /\ Forall row_sound rows /\ NoDup remote /\
  (forall d, (exists r, r ∈ rows /\ ar_document_id r = d /\ ar_state r = "succeeded"%string) -> d ∈ remote) /\
  (forall d, d ∈ remote -> exists r, r ∈ rows /\ ar_document_id r = d /\
     ar_state r ∈ ["succeeded"; "submitting"; "submitted"]%string).
Proof.
  unfold local_failures, remote_failures. rewrite <- rows_failure_None.
  assert (forall o : option string, option_list o = [] <-> o = None) as Ho by by intros [].
  rewrite !app_nil, !note_nil, !orb_false_iff, !negb_false_iff, !bool_decide_eq_true, Z.eqb_eq, Ho, length_map,
    !exceeds_false.
  assert (forall d, d ∈ rows_in ["succeeded"%string] rows <->
    exists r, r ∈ rows /\ ar_document_id r = d /\ ar_state r = "succeeded"%string) as Hs.
  { intros d. rewrite rows_in_elem. setoid_rewrite list_elem_of_singleton. done. }
  assert (rows_in ["succeeded"; "submitting"; "submitted"]%string rows ⊆ map ar_document_id rows) as Hsub.
  { intros d (r & Hr & <- & _)%rows_in_elem. rewrite list_elem_of_In. apply in_map. by rewrite <- list_elem_of_In. }
  unfold subseteq, list_subseteq in *. setoid_rewrite Hs.
  setoid_rewrite (rows_in_elem _ ["succeeded"; "submitting"; "submitted"]%string) in Hsub.
  setoid_rewrite (rows_in_elem _ ["succeeded"; "submitting"; "submitted"]%string).
  split.
  - intros [([? ?] & ? & ?) (? & ? & ? & ?)]. split_and!; auto.
  - intros (? & ? & ? & ? & ? & ? & ?). split_and!; auto.
Qed.

(** ** The heartbeat of the guard *)

(** An event since [h0]. *)
Definition since (h0 h : hist) (P : event -> Prop) : Prop := exists evs, h = evs ++ h0 /\ Exists P evs.
Definition extends (h0 h : hist) : Prop := exists evs, h = evs ++ h0.
Definition circuit_opened (e : event) : Prop :=
  exists ports reason, e = Ev (OpenCircuit ports reason : ract) (Ok tt).
Definition circuit_seen_open (e : event) : Prop := e = Ev (AgentCircuitFlag : ract) (Ok (Some true)).

Lemma extends_same h : extends h h.
Proof. by exists []. Qed.
Lemma extends_cons h0 h e : extends h0 h -> extends h0 (e :: h).
Proof. intros [evs ->]. by exists (e :: evs). Qed.
Lemma extends_app h0 h evs : extends h0 h -> extends h0 (evs ++ h).
Proof. intros [evs' ->]. exists (evs ++ evs'). by rewrite app_assoc. Qed.
Lemma since_here h0 h (P : event -> Prop) e : extends h0 h -> P e -> since h0 (e :: h) P.
Proof. intros [evs ->] He. exists (e :: evs). split; [done|by left]. Qed.
Lemma since_app h0 h (P : event -> Prop) evs : since h0 h P -> since h0 (evs ++ h) P.
Proof. intros (evs' & -> & He). exists (evs ++ evs'). rewrite app_assoc. split; [done|]. apply Exists_app. by right. Qed.
Lemma since_cons h0 h (P : event -> Prop) e : since h0 h P -> since h0 (e :: h) P.
Proof. apply (since_app h0 h P [e]). Qed.
Hint Resolve extends_same extends_cons extends_app since_here since_app since_cons : effects.

Section opens.
Variable h0 : hist.
(** A run of [p] that ends well has opened the circuit. *)
Definition opens {A} (p : prog A) : Prop :=
  forall h, extends h0 h ->
    wp (fun _ _ => True) p h (fun h' r => is_ok r = true -> since h0 h' circuit_opened).

Lemma opens_after {A B} (p : prog A) (f : A -> prog B) : (forall a, opens (f a)) -> opens (x ← p; f x).
Proof.
  intros Hf h Hh. apply wp_bind. eapply wp_post; [apply (wp_stable (extends h0)); auto with effects|].
  intros h' [a|e] Hh'; [by apply Hf|done].
Qed.
Lemma opens_then {A B} (p : prog A) (f : A -> prog B) : opens p -> opens (x ← p; f x).
Proof.
  intros Hp h Hh. apply wp_bind. eapply wp_post; [by apply Hp|]. intros h' [a|e] Ho; [|done].
  specialize (Ho eq_refl).
  eapply wp_post; [apply (wp_stable (fun h => since h0 h circuit_opened)); auto with effects|]. done.
Qed.
Lemma opens_finally {A} (p : prog A) c : opens p -> opens (finally p c).
Proof.
  intros Hp h Hh. apply wp_finally. eapply wp_post; [by apply Hp|]. intros h' [a|e] Ho.
  - specialize (Ho eq_refl).
    eapply wp_post; [apply (wp_stable (fun h => since h0 h circuit_opened)); auto with effects|]. by intros h'' [].
  - eapply wp_post; [by apply (wp_stable (fun _ => True))|]. by intros h'' [].
Qed.
Lemma emergency_opens fuel reason : opens (emergency_open cfg fuel reason).
Proof.
  unfold emergency_open. apply opens_after. intros _. apply opens_finally, opens_after. intros ports.
  apply opens_after. intros _. apply opens_finally. unfold open_through.
  do 4 (apply opens_after; intros ?). apply opens_then. intros h Hh. split; [done|].
  intros [[]|e]; [|done]. intros _. apply since_here; [done|]. by eexists _, _.
Qed.
Lemma emergency_runs fuel reason h h' : extends h0 h -> runs (emergency_open cfg fuel reason) h h' (Ok tt) ->
  since h0 h' circuit_opened.
Proof. intros Hh Hr. by apply (wp_runs _ _ _ _ _ _ (emergency_opens fuel reason h Hh) Hr). Qed.
End opens.

Definition unhealthy (v : odict (json F)) : Prop := dget "healthy" v = Some (JBool false).
(** The heartbeat at the end of a turn, not the one before a full audit *)
Definition healthy (v : odict (json F)) : Prop :=
  dget "healthy" v = Some (JBool true) /\ dget "full_audit" v = None.
(** A snapshot taken since [h0] in which the quick checks found nothing *)
Definition clean_since (h0 h : hist) : Prop :=
  exists p s h1 h2, extends h0 h1 /\ runs (quick_snapshot cfg runtime) h1 h2 (Ok s) /\ extends h2 h /\
    quick_failures cfg s p = Ok [].
Section turn.
Variable fuel : nat.
Variable h0 : hist.
(** An attempt to open the circuit that failed *)
Definition opening_failed (h : hist) : Prop :=
  exists reason h1 h2 e, runs (emergency_open cfg fuel reason) h1 h2 (Raise e) /\ extends h2 h.
Definition guard_rule (h : hist) (a : ract) : Prop :=
  match a with
  | WriteFile Heartbeat v =>
      (unhealthy v -> since h0 h circuit_seen_open \/ since h0 h circuit_opened \/ opening_failed h) /\
      (healthy v -> clean_since h0 h)
  | WriteFile Phase v => is_str "cap_hold" (dget "name" v) = true -> since h0 h circuit_opened
  | _ => True
  end.
(** What writes neither file, or a phase that is no "cap_hold" *)
Definition neutral (a : ract) : Prop :=
  match a with
  | WriteFile Heartbeat _ => False
  | WriteFile Phase v => is_str "cap_hold" (dget "name" v) = false
  | _ => True
  end.
Lemma neutral_rule h a : neutral a -> guard_rule h a.
Proof. destruct a; simpl; try done. destruct f; try done. congruence. Qed.
Lemma mild_neutral {A} (p : prog A) : only mild p -> only neutral p.
Proof. apply only_mono. intros a [_ Ha]. destruct a; simpl; try done. by destruct Ha as [-> ->]. Qed.
Hint Resolve mild_neutral : effects.
Lemma save_phase_neutral p : is_str "cap_hold" (dget "name" p) = false -> only neutral (save_phase (F := F) p).
Proof.
  intros Hp. unfold save_phase. apply only_bind; [by apply only_act|]. intros now. apply only_act.
  simpl. by rewrite dget_dset_ne.
Qed.
Lemma settle_cap_neutral : only neutral (settle_cap cfg runtime).
Proof.
  unfold settle_cap, bank_lock, finally, require, invariant.
  repeat first [solve [auto with effects] | apply only_act; done | apply save_phase_neutral | only_step
    | apply only_pbind; [|intros ?]].
  unfold dupdate. cbn [foldl fst snd]. by rewrite dget_dset_ne, dget_dset_eq.
Qed.
Lemma wp_neutral {A} (p : prog A) h (Q : hist -> result A -> Prop) : only neutral p ->
  (forall evs r, runs p h (evs ++ h) r -> Q (evs ++ h) r) -> wp guard_rule p h Q.
Proof. intros Hp HQ. eapply wp_only; [exact Hp|apply neutral_rule|]. intros; by apply HQ. Qed.

Lemma clean_since_app h evs : clean_since h0 h -> clean_since h0 (evs ++ h).
Proof. intros (p & s & h1 & h2 & ? & ? & ? & ?). exists p, s, h1, h2. split_and!; auto with effects. Qed.

Lemma save_cap_hold p h Q : since h0 h circuit_opened ->
  (forall evs r, Q (evs ++ h) r) -> wp guard_rule (save_phase (F := F) p) h Q.
Proof.
  intros Ho HQ. unfold save_phase. apply wp_bind. split; [done|]. intros [now|e]; [|by apply (HQ [_])].
  split; [intros _; auto with effects|]. intros r. apply (HQ [_; _]).
Qed.

Abbreviation checked := (fun h (r : result (list string * Z * F)) =>
  extends h0 h /\ match r with Ok (fs, _, _) => fs = [] -> clean_since h0 h | Raise _ => True end).

(** From the full audit on, when the quick failures are known *)
Lemma audit_part_rule p attempted now lf h fs :
  extends h0 h -> (fs = [] -> clean_since h0 h) ->
  wp guard_rule
    (if f_leb (cf_full_seconds cfg) (f_sub now lf) then
       name ← PRet (item "name" p);
       write_heartbeat [("healthy", JBool true); ("phase", name); ("attempted", JInt attempted);
                        ("full_audit", JStr "running")]%string;;
       p ← load_phase;
       full ← full_audit cfg runtime p;
       mret (fs ++ au_failures full, attempted, now)
     else mret (fs, attempted, lf)) h checked.
Proof.
  intros Hh Hc. destruct (f_leb _ _); [|done].
  apply wp_bind. destruct (item "name" p) as [name|e]; [|done]. cbn [wp].
  apply wp_bind. unfold write_heartbeat. apply wp_bind. split; [done|]. intros [t|e]; [|split; [auto with effects|done]].
  split.
  { split; [by intros ?|]. intros [_ Hf]. discriminate Hf. }
  intros [[]|e]; [|split; [auto with effects|done]].
  apply wp_bind, wp_neutral; [auto with effects|]. intros evs [p'|e] _; [|split; [auto with effects|done]].
  apply wp_bind, wp_neutral; [auto with effects|]. intros evs2 [full|e] _; [|split; [auto with effects|done]].
  split; [auto with effects|]. intros [Hf _]%app_eq_nil.
  apply clean_since_app, clean_since_app, (clean_since_app _ [_; _]), Hc, Hf.
Qed.

Lemma guard_checks_rule p lf h : extends h0 h ->
  wp guard_rule (guard_checks cfg runtime fuel p lf) h checked.
Proof.
  intros Hh. unfold guard_checks. apply wp_bind, wp_neutral; [auto with effects|].
  intros evs [s|e] Hs; [|split; [auto with effects|done]].
  assert (forall fs, quick_failures cfg s p = Ok fs -> fs = [] -> clean_since h0 (evs ++ h)) as Hc.
  { intros fs Hf ->. exists p, s, h, (evs ++ h). split_and!; auto with effects. }
  apply (extends_app _ _ evs) in Hh. clear Hs. revert Hh Hc. generalize (evs ++ h). clear h evs. intros h Hh Hc.
  apply wp_bind. destruct (quick_failures cfg s p) as [fs|e]; [|done]. specialize (Hc fs eq_refl). cbn [wp].
  apply wp_bind. destruct (phase_name p) as [name|e]; [|done]. cbn [wp].
  apply wp_bind. apply wp_post with (Q := fun h' r => extends h0 h' /\ (fs = [] -> clean_since h0 h')).
  - destruct (_ || _); [|done]. apply wp_bind, wp_neutral; [auto with effects|].
    intros evs [[]|e] He; [|split; [auto with effects|intros Hf; by apply clean_since_app, Hc]].
    destruct (bool_decide _); [|split; [auto with effects|intros Hf; by apply clean_since_app, Hc]].
    apply wp_bind, save_cap_hold; [by eapply emergency_runs; eauto with effects|].
    intros evs' [[]|e]; (split; [auto with effects|intros Hf; by apply clean_since_app, clean_since_app, Hc]).
  - intros h' [p'|e] [Hh' Hc']; [|done].
    apply wp_bind. split; [done|]. intros [now|e]; [|split; [auto with effects|done]].
    apply audit_part_rule; [auto with effects|]. intros Hf. by apply (clean_since_app _ [_]), Hc'.
Qed.

Lemma guard_verdict_rule fs attempted h : extends h0 h -> (fs = [] -> clean_since h0 h) ->
  wp guard_rule (guard_verdict cfg runtime fs attempted) h (fun h' _ => extends h0 h').
Proof.
  intros Hh Hc. unfold guard_verdict, require. apply wp_bind.
  destruct (bool_decide (fs = [])) eqn:Ef; [|done]. apply bool_decide_eq_true in Ef. specialize (Hc Ef).
  cbn [negb raise_if wp].
  apply wp_bind, wp_neutral; [auto with effects|]. intros evs [p|e] _; [|intros; cbn [wp]; auto 10 with effects].
  apply wp_bind. destruct (item "name" p) as [name|e]; [|intros; cbn [wp]; auto 10 with effects]. cbn [wp].
  apply wp_bind, wp_neutral.
  { destruct (eq_str "cap_hold" name); [|apply only_ret]. apply only_bind; [apply settle_cap_neutral|]. intros; apply only_ret. }
  intros evs1 [[]|e] _; [|intros; cbn [wp]; auto 10 with effects].
  apply wp_bind. split; [done|]. intros [now|e]; [|intros; cbn [wp]; auto 10 with effects].
  apply wp_bind, wp_neutral; [auto with effects|]. intros evs2 [p2|e] _; [|intros; cbn [wp]; auto 10 with effects].
  apply wp_bind. destruct (item "name" p2) as [name2|e]; [|intros; cbn [wp]; auto 10 with effects]. cbn [wp].
  split; [|intros; cbn [wp]; auto 10 with effects]. split; [by intros ?|]. intros _.
  by apply clean_since_app, (clean_since_app _ [_]), clean_since_app, clean_since_app.
Qed.

Lemma report_failure_rule reason lr h :
  since h0 h circuit_seen_open \/ since h0 h circuit_opened \/ opening_failed h ->
  wp guard_rule (report_failure (F := F) reason lr) h (fun _ _ => True).
Proof.
  intros Hw. unfold report_failure. apply wp_bind. unfold write_heartbeat. apply wp_bind. split; [done|].
  intros [t|e]; [|done]. split.
  - split; [intros _|by intros [Hf _]]. destruct Hw as [?|[?|(rs & h1 & h2 & e & ? & ?)]]; [auto with effects..|].
    right. right. exists rs, h1, h2, e. auto with effects.
  - intros [[]|e]; [|done]. apply wp_bind, wp_neutral; [destruct (bool_decide _); [apply only_ret|auto with effects]|].
    by intros evs [[]|e].
Qed.
Lemma guard_failed_rule e lr h : extends h0 h ->
  wp guard_rule (guard_failed cfg fuel e lr) h (fun _ _ => True).
Proof.
  intros Hh. unfold guard_failed. set (reason := _ +:+ _). apply wp_bind, wp_attempt.
  unfold agent_circuit_is_open. apply wp_bind. split; [done|].
  assert (forall h, extends h0 h ->
    wp guard_rule (suppress (emergency_open cfg fuel reason);; report_failure reason lr) h (fun _ _ => True)) as Hopen.
  { intros h' Hh'. apply wp_bind, wp_try, wp_neutral; [auto with effects|]. intros evs [[]|e'] He.
    - apply report_failure_rule. right. left. by eapply emergency_runs; eauto with effects.
    - destruct (is_exception e'); [|done]. apply report_failure_rule.
      right. right. exists reason, h', (evs ++ h'), e'. auto with effects. }
  intros [[[]|]|e'].
  - apply report_failure_rule. left. by apply since_here.
  - apply Hopen. auto with effects.
  - apply Hopen. auto with effects.
  - cbn [wp]. destruct (is_exception e'); [|done]. apply Hopen. auto with effects.
Qed.
End turn.
#[local] Hint Resolve mild_neutral : effects.

(** In a turn of the guard, a heartbeat that says "healthy" comes after a snapshot
    without a failure; one that says "unhealthy" comes after the circuit was seen open, or
    was opened, or after an attempt to open it failed; and the phase becomes "cap_hold"
    only after the circuit was opened. *)
Theorem guard_heartbeat_true fuel lf lr h0 h' f v k :
  steps (guard_turn cfg runtime fuel lf lr) h0 (POp (WriteFile f v : ract) k) h' ->
  (f = Heartbeat -> healthy v -> clean_since h0 h') /\
  (f = Heartbeat -> unhealthy v ->
     since h0 h' circuit_seen_open \/ since h0 h' circuit_opened \/ opening_failed fuel h') /\
  (f = Phase -> is_str "cap_hold" (dget "name" v) = true -> since h0 h' circuit_opened).
Proof.
  intros Hs.
  assert (wp (guard_rule fuel h0) (guard_turn cfg runtime fuel lf lr) h0 (fun _ _ => True)) as Hw.
  { unfold guard_turn. apply wp_bind, wp_neutral; [auto with effects|]. intros evs [p|e] _; [|done].
    apply wp_bind, wp_attempt. eapply wp_post; [apply guard_checks_rule; auto with effects|].
    assert (forall h e lf, extends h0 h ->
      wp (guard_rule fuel h0) (end_turn cfg fuel lf (Raise e) lr) h (fun _ _ => True)) as Hfail.
    { intros h e lf2 Hh. unfold end_turn. apply wp_bind. eapply wp_post; [by apply guard_failed_rule|].
      intros h2 [lr2|e2] _; [|done]. apply wp_bind. split; [done|]. by intros [[]|]. }
    intros h [[[fs n] lf2]|e] [Hh Hc].
    - apply wp_bind, wp_bind, wp_attempt. eapply wp_post; [by apply guard_verdict_rule|].
      intros h2 [[]|e] Hh2; cbn [wp].
      + unfold end_turn. apply wp_bind. cbn [wp]. apply wp_bind. split; [done|]. by intros [[]|].
      + destruct (is_exception e); [|done]. cbn [wp]. by apply Hfail.
    - destruct (is_exception e); [|done]. cbn [wp]. by apply Hfail. }
  pose proof (wp_guard _ _ _ _ _ _ _ Hw Hs) as Hg. split_and!; intros ->; by apply Hg.
Qed.

(** ** The polling loops end *)

(** The answers of the monotonic clock since [h0], newest first *)
Fixpoint clock (h : hist) : list F :=
  match h with
  | [] => []
  | Ev a r :: h =>
      match a as a return result (ranswer a) -> list F with
      | Monotonic => fun r => match r with Ok t => t :: clock h | Raise _ => clock h end
      | _ => fun _ => clock h
      end r
  end.
Lemma clock_app h1 h2 : clock (h1 ++ h2) = clock h1 ++ clock h2.
Proof. induction h1 as [|[a r] h1 IH]; [done|]. destruct a; simpl; try done. destruct r; simpl; by rewrite IH. Qed.
Definition silent (a : ract) : Prop := a <> Monotonic.
Lemma clock_silent evs h : Forall (fun e : event => silent (ev_action e)) evs -> clock (evs ++ h) = clock h.
Proof. induction 1 as [|[a r] evs Ha _ IH]; [done|]. destruct a; simpl; done. Qed.

(** The clock was read [n] times in a row, always before the deadline. *)
Definition waited (n : nat) (h : hist) : Prop :=
  exists deadline ts before, clock h = ts ++ before /\ length ts = n /\
    Forall (fun t => f_ltb t deadline = true) ts.
Definition waiting (n m : nat) (deadline : F) (h : hist) : Prop :=
  exists ts before, clock h = ts ++ before /\ (length ts + n = m)%nat /\
    Forall (fun t => f_ltb t deadline = true) ts.
Lemma waiting_read n m d t h r : waiting (S n) m d h -> f_ltb t d = true -> r = Ok t ->
  waiting n m d (Ev (Monotonic : ract) r :: h).
Proof.
  intros (ts & before & Hc & Hl & Hf) Ht ->. exists (t :: ts), before. simpl. rewrite Hc.
  split; [done|]. split; [lia|by constructor].
Qed.
Lemma waiting_silent n m d evs h : Forall (fun e : event => silent (ev_action e)) evs ->
  waiting n m d h -> waiting n m d (evs ++ h).
Proof. intros He (ts & b & Hc & ?). exists ts, b. by rewrite clock_silent. Qed.
Lemma waiting_done m d h : waiting 0 m d h -> waited m h.
Proof. intros (ts & b & Hc & Hl & Hf). exists d, ts, b. split; [done|]. split; [lia|done]. Qed.
Lemma waiting_start m d h : waiting m m d h.
Proof. exists [], (clock h). split; [done|]. split; [done|constructor]. Qed.

Lemma all_ready_sure ports : sure silent (all_ready (F := F) ports).
Proof. induction ports; cbn [all_ready]; sure_auto. Qed.
Lemma http_json_sure u : sure silent (http_json (F := F) u).
Proof. unfold http_json. sure_auto. Qed.
Lemma load_phase_sure : sure silent (load_phase (F := F)).
Proof. unfold load_phase. sure_auto. Qed.
Lemma save_phase_sure p : sure silent (save_phase (F := F) p).
Proof. unfold save_phase. sure_auto. Qed.
Lemma event_sure k f : sure silent (RecoveryAudit.event (F := F) k f).
Proof. unfold RecoveryAudit.event. sure_auto. Qed.
Hint Resolve all_ready_sure http_json_sure load_phase_sure save_phase_sure event_sure : effects.
Lemma quick_snapshot_sure : sure silent (quick_snapshot cfg runtime).
Proof. unfold quick_snapshot. sure_auto. Qed.
Lemma fetch_patronis_sure ports : sure silent (fetch_patronis (F := F) ports).
Proof. induction ports; cbn [fetch_patronis]; unfold fetch_patroni; sure_auto. Qed.
Hint Resolve quick_snapshot_sure fetch_patronis_sure : effects.
Lemma full_audit_sure p : sure silent (full_audit cfg runtime p).
Proof. unfold full_audit. sure_auto. Qed.
Hint Resolve full_audit_sure : effects.
Lemma release_check_sure p n prior : sure silent (release_check cfg runtime p n prior).
Proof. unfold release_check, require, no_failures, require. sure_auto. Qed.
Hint Resolve release_check_sure : effects.
Lemma release_checks_sure p i n prior last : sure silent (release_checks cfg runtime p i n prior last).
Proof. revert i prior last. induction n; intros; cbn [release_checks]; sure_auto. Qed.
Hint Resolve release_checks_sure : effects.
Lemma close_agent_sure r : sure silent (close_agent (F := F) r).
Proof. unfold close_agent, bank_lock, transaction, invariant, require. sure_auto. Qed.
Hint Resolve close_agent_sure : effects.

Lemma wait_ports_halts n m ports d h (Q : hist -> result bool -> Prop) : waiting n m d h ->
  (forall h r, Q h r) -> halts (waited m) (wait_ports_until n ports d) h Q.
Proof.
  revert h. induction n as [|n IH]; intros h Hw HQ; cbn [wait_ports_until]; [by eapply waiting_done|].
  apply halts_bind. intros [t|e]; [|apply HQ]. cbn [halts].
  change (answer (Monotonic : ract)) with F in t. destruct (f_ltb t d) eqn:Et; [|apply HQ].
  apply halts_bind, (halts_sure silent); [auto with effects|]. intros evs [[]|e] He; [apply HQ| |apply HQ].
  apply halts_bind. intros r. destruct r; cbn [halts]; [|apply HQ]. apply IH; [|done].
  apply (waiting_silent _ _ _ [_]); [by repeat constructor|]. apply waiting_silent; [done|]. by eapply waiting_read.
Qed.
Lemma halts_finally {A} X (q : prog A) c h : halts X q h (fun _ _ => True) ->
  sure silent c -> halts X (finally q c) h (fun _ _ => True).
Proof.
  intros Hq Hc. apply halts_pbind. eapply halts_post; [exact Hq|]. intros h' r _.
  apply halts_pbind, (halts_sure silent); [done|]. by intros evs [] _.
Qed.
Lemma halts_then {A B} X (q : prog A) (g : A -> prog B) h : sure silent q ->
  (forall a h, halts X (g a) h (fun _ _ => True)) -> halts X (x ← q; g x) h (fun _ _ => True).
Proof. intros Hq Hg. apply halts_bind, (halts_sure silent); [done|]. by intros evs [a|e] _. Qed.
Lemma sure_halts {A} X (q : prog A) h : sure silent q -> halts X q h (fun _ _ => True).
Proof. intros Hq. by apply (halts_sure silent). Qed.

Lemma emergency_halts fuel reason h :
  halts (waited fuel) (emergency_open cfg fuel reason) h (fun _ _ => True).
Proof.
  unfold emergency_open. apply halts_then; [sure_auto|]. intros _ h1. apply halts_finally; [|sure_auto].
  apply halts_then; [sure_auto|]. intros ports h2. apply halts_then; [sure_auto|]. intros _ h3.
  apply halts_finally; [|sure_auto]. unfold open_through. apply halts_bind. unfold wait_ports. apply halts_bind.
  intros [t|e]; [|done]. cbn [halts]. apply wait_ports_halts; [apply waiting_start|].
  intros h' [ready|e]; [|done]. apply sure_halts. sure_auto.
Qed.
Lemma first_claim_halts fuel n d b h : waiting n fuel d h ->
  halts (waited fuel) (first_claim cfg runtime fuel n d b) h (fun _ _ => True).
Proof.
  assert (forall r m h, halts (waited fuel) (emergency_open cfg fuel r;; invariant (F := F) (A := snapshot F) m) h
    (fun _ _ => True)) as He.
  { intros r m h'. apply halts_bind. eapply halts_post; [apply emergency_halts|]. by intros ? [[]|]. }
  revert h. induction n as [|n IH]; intros h Hw; cbn [first_claim]; [by eapply waiting_done|].
  apply halts_bind. intros [t|e]; [|done]. cbn [halts].
  change (answer (Monotonic : ract)) with F in t. destruct (f_ltb t d) eqn:Et; [|apply He].
  apply halts_bind, (halts_sure silent); [auto with effects|]. intros evs [s|e] Hevs; [|done].
  apply halts_bind. unfold in_flight. cbn [halts]. destruct (_ ≫= _) as [provider|e]; [|done].
  destruct (_ =? _); [destruct (_ || _); [apply He|apply sure_halts; sure_auto]|].
  destruct (_ || _ || _); [apply He|]. apply halts_bind. intros r. destruct r; cbn [halts]; [|done].
  apply IH. apply (waiting_silent _ _ _ [_]); [by repeat constructor|].
  apply waiting_silent; [done|]. by eapply waiting_read.
Qed.

(** The release ends: a run of it that is still going after [fuel] turns of a polling
    loop has read the clock [fuel] times in a row before the deadline of that loop, so a
    clock that reaches the deadline ends it. *)
Theorem release_ends fuel h h' : steps (release cfg runtime fuel) h PHalt h' -> waited fuel h'.
Proof.
  intros Hs. eapply halts_steps; [|exact Hs]. unfold release.
  apply (halts_then (waited fuel)); [auto with effects|]. intros p h1.
  apply halts_then; [sure_auto|]. intros name h2. apply halts_then; [unfold require; sure_auto|]. intros _ h3.
  apply halts_then; [unfold ten_checks; sure_auto|]. intros s h4. apply halts_then; [auto with effects|]. intros _ h5.
  apply halts_then; [sure_auto|]. intros t h6. apply halts_then; [auto with effects|]. intros _ h7.
  apply halts_bind. intros [start|e]; [|done]. cbn [halts]. apply first_claim_halts, waiting_start.
Qed.

(** ** What the resume refreshes *)

Definition completed_event (pair : string * string) (e : event) : Prop :=
  e = Ev (OperationStatus pair.2 : ract) (Ok (Some "completed"%string)).
Definition present_event (pair : string * string) (e : event) : Prop :=
  e = Ev (DocumentPresent pair.1 : ract) (Ok true).
Definition proven (h : hist) (pair : string * string) : Prop :=
  happened (completed_event pair) h /\ happened (present_event pair) h.
(** Under the lock, with the circuit open, the submitted rows were read again. *)
Definition refreshable (h : hist) : Prop :=
  exists proofs locked h1,
    Forall (proven h) proofs /\
    length locked = length proofs /\
    same_set (map pair_of (List.filter hash_matches locked)) proofs = true /\
    h = Ev (SubmittedRows : ract) (Ok locked) :: Ev (AgentCircuitFlag : ract) (Ok (Some true)) ::
        Ev (BankTryLock : ract) (Ok true) :: h1.
Definition refresh_guard (h : hist) (a : ract) : Prop :=
  match a with RefreshSubmitted _ => refreshable h | _ => True end.

Lemma quiet_refresh {A} (q : prog A) h (Q : hist -> result A -> Prop) : only quiet q ->
  (forall evs r, Q (evs ++ h) r) -> wp refresh_guard q h Q.
Proof. intros Hq HQ. eapply wp_only; [exact Hq| |intros; apply HQ]. intros h' a [Ha _]. by destruct a. Qed.
Lemma proven_app evs h pair : proven h pair -> proven (evs ++ h) pair.
Proof. intros []. split; by apply happened_app. Qed.
Lemma prove_completed_ok pair h :
  wp refresh_guard (prove_completed (F := F) pair) h
    (fun h' r => exists evs, h' = evs ++ h /\ (r = Ok tt -> proven h' pair)).
Proof.
  unfold prove_completed. apply wp_bind. split; [done|]. intros [status|e]; [|by eexists [_]].
  apply wp_bind. split; [done|]. intros [present|e]; [|by eexists [_; _]].
  eexists [_; _]. split; [done|]. unfold require.
  intros Hr. apply raise_if_Ok, negb_false_iff, andb_true_iff in Hr as [Es%bool_decide_eq_true Ep].
  subst status. destruct present; [|done].
  split; [by right; left|by left].
Qed.
Lemma prove_all_ok proofs h :
  wp refresh_guard (each proofs (prove_completed (F := F))) h
    (fun h' r => exists evs, h' = evs ++ h /\ (r = Ok tt -> Forall (proven h') proofs)).
Proof.
  revert h. induction proofs as [|pair proofs IH]; intros h; [by exists []|].
  cbn [each]. apply wp_bind. eapply wp_post; [apply prove_completed_ok|].
  intros h' [[]|e] (evs & -> & Hp); [|by exists evs]. specialize (Hp eq_refl).
  eapply wp_post; [apply IH|]. intros h2 r (evs2 & -> & Hr). exists (evs2 ++ evs).
  split; [by rewrite app_assoc|]. intros ->. constructor; [by apply proven_app|auto].
Qed.
Lemma wp_require {A} G b m (q : prog A) h (Q : hist -> result A -> Prop) :
  (b = true -> wp G q h Q) -> (b = false -> Q h (Raise (InvariantError m))) -> wp G (require b m;; q) h Q.
Proof. intros Ht Hf. apply wp_bind. destruct b; [by apply Ht|by apply Hf]. Qed.
Lemma refresh_proven_guarded proofs h : Forall (proven h) proofs ->
  wp refresh_guard (refresh_proven (F := F) proofs) h (fun _ _ => True).
Proof.
  intros Hp.
  assert (forall A B (q : prog A) (g : result A -> prog B) h, (forall r, only (fun a : ract => needs_lock a = false) (g r)) ->
    wp refresh_guard q h (fun _ _ => True) -> wp refresh_guard (pbind q g) h (fun _ _ => True)) as Hthen.
  { intros A B q g h1. apply wp_then. intros h2 a Ha. by destruct a. }
  unfold refresh_proven, bank_lock. apply wp_bind. split; [done|].
  intros [[]|e]; [|split; [done|by intros []]|done].
  apply Hthen; [intros; only_auto; apply only_pbind; [only_auto|intros []; only_auto]|].
  apply wp_bind. split; [done|]. intros [circuit|e]; [|done].
  apply wp_bind. split; [done|]. intros [locked|e]; [|done].
  apply wp_require; [intros Ec|done].
  apply wp_require; [intros El%Nat.eqb_eq|done]. apply wp_require; [intros Es|done].
  apply Hthen; [intros [[]|]; only_auto|]. split; [|done].
  destruct circuit as [[]|]; try discriminate Ec. exists proofs, locked, h.
  split; [|done]. eapply Forall_impl; [exact Hp|]. intros pair. apply (proven_app [_; _; _]).
Qed.

(** Before the agent's circuit is released again, submitted work is refreshed only
    under the lock, with the circuit read as open and the submitted rows read again; they
    are as many as before, and those with a confirmed payload are exactly the ones whose
    operation was read as completed and whose document was read as present. *)
Theorem resume_refreshes_proven_work h h' allowed k :
  steps (prepare_resume cfg runtime) h (POp (RefreshSubmitted allowed : ract) k) h' -> refreshable h'.
Proof.
  intros Hs.
  assert (wp refresh_guard (prepare_resume cfg runtime) h (fun _ _ => True)) as Hw.
  { unfold prepare_resume. apply wp_bind, quiet_refresh; [auto with effects|]. intros evs [p|e]; [|done].
    apply wp_bind, quiet_refresh; [auto with effects|]. intros evs2 [a|e]; [|done].
    apply wp_bind, quiet_refresh; [apply only_ret|]. intros evs3 [[]|e]; [|done].
    apply wp_bind, quiet_refresh; [unfold resume_of, in_flight; only_auto|]. intros evs4 [gate|e]; [|done].
    apply wp_bind, quiet_refresh; [only_auto|]. intros evs5 [[]|e]; [|done].
    apply wp_bind. split; [done|]. intros [rows|e]; [|done].
    apply wp_bind, quiet_refresh; [apply only_ret|]. intros evs6 [[]|e]; [|done].
    apply wp_bind. eapply wp_post; [apply prove_all_ok|]. intros h1 [[]|e] (evs7 & -> & Hp); [|done].
    apply wp_bind. split; [done|]. intros [[]|e]; [|done].
    apply wp_then with (P := fun a : ract => needs_lock a = false); [by intros h2 b Hb; destruct b| |].
    - intros [[]|e]; [|apply only_ret]. unfold require, save_phase, RecoveryAudit.event.
      repeat first [only_step | done | apply only_mono with (P := quiet); [by intros b []|auto with effects]].
    - apply refresh_proven_guarded. eapply Forall_impl; [by apply Hp|]. intros pair. apply (proven_app [_]). }
  by apply (wp_guard _ _ _ _ _ _ _ Hw Hs).
Qed.
End rules.

(** ** Hindsight recovery: a concrete installation

    A small backfill, one document done and two queued, with services that answer as they
    should: the theorems of the recovery applied to it. *)

Abbreviation F := spec_float.
Abbreviation action := (@action (@recovery_effect F)).

Definition demo : config F := {|
  cf_root := "/repo"; cf_state_dir := "/state"; cf_ssh_target := "mesh";
  cf_pg_local_ports := [1; 2; 3]; cf_pg_remote_hosts := ["a"; "b"; "c"]%string;
  cf_hindsight_port := 4; cf_budget_port := 5; cf_fugu_port := 6; cf_patroni_ports := [7; 8; 9];
  cf_approved_total := 3; cf_stage_cap := 3; cf_max_agent_active := 1; cf_max_provider_in_flight := 6;
  cf_expected_hindsight_failed := 60; cf_conservative_remaining_cost := DFin 543 (-5);
  cf_hard_budget := DFin 30 0; cf_quick_seconds := B64.of_Z 2; cf_full_seconds := B64.of_Z 60;
  cf_watchdog_seconds := B64.of_Z 5; cf_heartbeat_max_age := B64.of_Z 60 |}.
Definition demo_runtime : odict string :=
  [("HINDSIGHT_OUTBOX_MAX_IN_FLIGHT", "1"); ("HINDSIGHT_OUTBOX_RUN_LIMIT", "3")]%string.

(** The test of the repository. *)
Example projection_of_the_tests :
  compute_projection (JStr "16.267805999999982" : json F) 3263
    {| cf_root := ""; cf_state_dir := ""; cf_ssh_target := ""; cf_pg_local_ports := []; cf_pg_remote_hosts := [];
       cf_hindsight_port := 4; cf_budget_port := 5; cf_fugu_port := 6; cf_patroni_ports := [];
       cf_approved_total := 5142; cf_stage_cap := 3823; cf_max_agent_active := 2; cf_max_provider_in_flight := 6;
       cf_expected_hindsight_failed := 60; cf_conservative_remaining_cost := DFin 543 (-5);
       cf_hard_budget := DFin 30 0; cf_quick_seconds := B64.of_Z 2; cf_full_seconds := B64.of_Z 60;
       cf_watchdog_seconds := B64.of_Z 5; cf_heartbeat_max_age := B64.of_Z 7 |}
  = Ok (DFin 26470775999999982 (-15)).
Proof. vm_compute. reflexivity. Qed.
Example default_settings :
  cf_heartbeat_max_age <$> from_env (F := F) "/home/u" [] = Ok (B64.of_Z 60).
Proof. vm_compute. reflexivity. Qed.

Record world := {
  wd_open : bool;
  wd_phase : json F;
  wd_clock : Z;
  wd_beat : bool;      (* the claim of the worker has appeared *)
}.
Definition set_open (b beat : bool) (w : world) : world :=
  {| wd_open := b; wd_phase := wd_phase w; wd_clock := wd_clock w; wd_beat := beat |}.
Definition set_phase (p : json F) (w : world) : world :=
  {| wd_open := wd_open w; wd_phase := p; wd_clock := wd_clock w; wd_beat := wd_beat w |}.
Definition tick (w : world) : world :=
  {| wd_open := wd_open w; wd_phase := wd_phase w; wd_clock := wd_clock w + 1; wd_beat := wd_beat w |}.

Definition demo_item (doc : string) : odict (json F) :=
  [("context", JStr ("source:agent_sessions | document:" +:+ doc)); ("document_id", JStr doc)]%string.
Definition demo_row (doc state : string) : audit_row F := {|
  ar_document_id := doc; ar_source_kind := "agent_session"; ar_payload_hash := canonical_hash (demo_item doc);
  ar_submitted_hash := if bool_decide (state = "submitted"%string) then Some (canonical_hash (demo_item doc)) else None;
  ar_item := demo_item doc; ar_state := state; ar_operation_id := None;
  ar_source_document := Some doc |}.
Definition demo_submitted : outbox_row F := {|
  or_document_id := "d2"; or_operation_id := Some "op2"; or_state := "submitted"; or_payload_hash := "h";
  or_submitted_hash := Some "h"; or_item := []; or_source_kind := "agent_session"; or_source_id := 2;
  or_available_at := "t"; or_source_document := Some "d2" |}%string.
Definition demo_body (url : string) : json F :=
  if endswith "/patroni" url then
    JObj [("state", JStr "running"); ("role", JStr (if contains ":7/" url then "primary" else "replica"))]%string
  else if contains ":4/" url then JObj [("status", JStr "healthy"); ("database", JStr "connected")]%string
  else JObj [("status", JStr "healthy"); ("circuit_open", JBool false); ("in_flight", JInt 0);
             ("hindsight_backfill_spent_usd", JStr "16.25")]%string.

Definition demo_answers (a : raction F) (w : world) : result (ranswer a) * world :=
  match a as a return result (ranswer a) * world with
  | AgentCounts =>
      (Ok (if wd_beat w then [("queued", 1); ("submitted", 1); ("succeeded", 1)]
           else [("queued", 2); ("succeeded", 1)])%string, w)
  | AgentCircuit => (Ok (Some {| ci_open := wd_open w; ci_reason := None |}), w)
  | AgentCircuitFlag => (Ok (Some (wd_open w)), w)
  | PocketCounts => (Ok [], w)
  | PocketCircuit => (Ok (Some {| ci_open := true; ci_reason := None |}), w)
  | HindsightCounts => (Ok [("completed", 1); ("failed", 60)]%string, w)
  | AuditRows => (Ok [demo_row "d1" "succeeded"; demo_row "d2" "queued";
                      demo_row "d3" "queued"]%string, w)
  | RetryCount => (Ok 17, w)
  | ClaimCount => (Ok 12, w)
  | AdoptionCount => (Ok 1, w)
  | RemoteDocuments => (Ok ["d1"%string], w)
  | FuguFailures => (Ok (map (fun '(t, s, m) => (t, Some s, m)) BASELINE_FUGU_FAILURES), w)
  | HindsightDocumentCount => (Ok 1, w)
  | HttpGet url => (Ok (200, demo_body url), w)
  | FileExists _ => (Ok true, w)
  | ReadFile Phase => (Ok (wd_phase w), w)
  | ReadFile _ => (Ok (JObj []), w)
  | WriteFile Phase v => (Ok tt, set_phase (JObj v) w)
  | Now => (Ok (B64.of_Z (wd_clock w)), tick w)
  | Monotonic => (Ok (B64.of_Z (wd_clock w)), tick w)
  | FreePorts _ => (Ok [101; 102; 103], w)
  | PortReady _ => (Ok true, w)
  | BankTryLock => (Ok true, w)
  | CloseCircuit => (Ok 1, set_open false true w)
  | OpenCircuit _ _ => (Ok tt, set_open true (wd_beat w) w)
  | SubmittedRows => (Ok [demo_submitted], w)
  | OperationStatus _ => (Ok (Some "completed"%string), w)
  | DocumentPresent _ => (Ok true, w)
  | RefreshSubmitted _ => (Ok (1, 0), w)
  | AppendEvent _ _ => (Ok tt, w)
  | WriteFile _ _ => (Ok tt, w)
  | Sleep _ => (Ok tt, w)
  | LockFile | UnlockFile | StartTunnel _ | StopTunnel | LoadSecrets | BankUnlock | BankClose
  | Begin | Commit | Rollback | MakeWorker => (Ok tt, w)
  | TunnelExited => (Ok false, w)
  | _ => (Raise (OtherError "OperationalError" "not in this world"), w)
  end.

Definition ready_phase : json F := JObj [("name", JStr "ready"); ("budget", JStr "closed")]%string.
Definition world0 : world := {| wd_open := true; wd_phase := ready_phase; wd_clock := 100; wd_beat := false |}.

(** The release of this installation succeeds. *)
Example demo_release :
  match (exec (E := recovery_effect) demo_answers (release demo demo_runtime 5) world0 []).1 with
  | (Some (Ok s), w) => sum_states ATTEMPTED_STATES (sn_agent_counts s) = 2 /\ wd_open w = false
  | _ => False
  end.
Proof. vm_compute. done. Qed.

(** ** The theorems at this installation *)

Definition stop_at (f : action -> bool) (c : command) : prog unit * hist :=
  reach (E := recovery_effect) f demo_answers (main demo demo_runtime 5 c) world0 [].
Lemma stops_at (f : action -> bool) (c : command) (a : action) :
  next_action (stop_at f c).1 = Some a ->
  exists k, steps (main demo demo_runtime 5 c) [] (POp a k) (stop_at f c).2.
Proof. apply reach_performs. Qed.

Lemma changes_hold_the_lock_witness :
  next_action (stop_at closes CmdRelease).1 = Some CloseCircuit /\ lock_held (stop_at closes CmdRelease).2 = true.
Proof.
  assert (next_action (stop_at closes CmdRelease).1 = Some CloseCircuit) as Hn by (vm_compute; reflexivity).
  split; [exact Hn|]. destruct (stops_at closes CmdRelease CloseCircuit Hn) as [k Hk].
  exact (changes_hold_the_lock demo demo_runtime 5 CmdRelease _ _ CloseCircuit k Hk eq_refl).
Defined.

Definition opens_circuit (a : action) : bool := match a with OpenCircuit _ _ => true | _ => false end.
Lemma only_release_closes_witness :
  exists a, next_action (stop_at opens_circuit (CmdEmergencyOpen "stop")).1 = Some a /\
    opens_circuit a = true /\ closes a = false.
Proof.
  destruct (next_action (stop_at opens_circuit (CmdEmergencyOpen "stop")).1) as [a|] eqn:Hn;
    [|vm_compute in Hn; discriminate Hn].
  exists a. split; [reflexivity|]. split; [vm_compute in Hn; injection Hn as <-; reflexivity|].
  destruct (stops_at _ _ a Hn) as [k Hk].
  exact (only_release_closes demo demo_runtime 5 (CmdEmergencyOpen "stop") _ _ a k eq_refl Hk).
Defined.

Lemma release_after_clean_window_witness : released demo demo_runtime (stop_at closes CmdRelease).2.
Proof.
  assert (next_action (stop_at closes CmdRelease).1 = Some CloseCircuit) as Hn by (vm_compute; reflexivity).
  destruct (stops_at closes CmdRelease CloseCircuit Hn) as [k Hk].
  exact (release_after_clean_window demo demo_runtime 5 CmdRelease _ _ k Hk).
Defined.

Definition writes_heartbeat (a : action) : bool :=
  match a with WriteFile Heartbeat _ => true | _ => false end.
Definition turn_at (w : world) : prog (F * option string) * hist :=
  reach (E := recovery_effect) writes_heartbeat demo_answers (guard_turn demo demo_runtime 5 (B64.of_Z 90) None) w [].
Definition phase_world (p : odict (json F)) : world :=
  {| wd_open := true; wd_phase := JObj p; wd_clock := 100; wd_beat := false |}.
(** The budget of this phase should be open, and is not. *)
Definition wrong_budget : world := phase_world [("name", JStr "ready"); ("budget", JStr "open")]%string.
Lemma heartbeat_written (w : world) (v : odict (json F)) :
  next_action (turn_at w).1 = Some (WriteFile Heartbeat v : action) ->
  exists k, steps (guard_turn demo demo_runtime 5 (B64.of_Z 90) None) [] (POp (WriteFile Heartbeat v : action) k) (turn_at w).2.
Proof. exact (reach_performs writes_heartbeat demo_answers _ w [] (WriteFile Heartbeat v : action)). Qed.

Lemma guard_heartbeat_true_witness :
  clean_since demo demo_runtime [] (turn_at world0).2 /\
  (since [] (turn_at wrong_budget).2 circuit_seen_open \/ since [] (turn_at wrong_budget).2 circuit_opened \/
   opening_failed demo 5 (turn_at wrong_budget).2).
Proof.
  split.
  - destruct (next_action (turn_at world0).1) as [a|] eqn:Hn; [|vm_compute in Hn; discriminate Hn].
    assert (exists v, a = (WriteFile Heartbeat v : action) /\ healthy v) as (v & -> & Hv).
    { vm_compute in Hn. injection Hn as <-. eexists. split; [reflexivity|]. split; reflexivity. }
    destruct (heartbeat_written world0 v Hn) as [k Hk].
    exact (proj1 (guard_heartbeat_true demo demo_runtime 5 (B64.of_Z 90) None [] _ Heartbeat v k Hk) eq_refl Hv).
  - destruct (next_action (turn_at wrong_budget).1) as [a|] eqn:Hn; [|vm_compute in Hn; discriminate Hn].
    assert (exists v, a = (WriteFile Heartbeat v : action) /\ unhealthy v) as (v & -> & Hv).
    { vm_compute in Hn. injection Hn as <-. eexists. split; reflexivity. }
    destruct (heartbeat_written wrong_budget v Hn) as [k Hk].
    exact (proj1 (proj2 (guard_heartbeat_true demo demo_runtime 5 (B64.of_Z 90) None [] _ Heartbeat v k Hk)) eq_refl Hv).
Defined.

(** A worker that never claims: the release is still polling after two turns. *)
Definition idle_answers (a : raction F) (w : world) : result (ranswer a) * world :=
  match a as a return result (ranswer a) * world with
  | CloseCircuit => (Ok 1, set_open false false w)
  | a => demo_answers a w
  end.
Lemma release_ends_witness :
  let r := reach (E := recovery_effect) (fun _ => false) idle_answers (release demo demo_runtime 2) world0 [] in
  r.1 = PHalt /\ waited 2 r.2.
Proof.
  intros r. assert (r.1 = PHalt) as Hn by (vm_compute; reflexivity). split; [exact Hn|].
  apply (release_ends demo demo_runtime 2 []). rewrite <- Hn. apply reach_steps.
Defined.

(** The document in flight has been completed remotely. *)
Definition resume_answers (a : raction F) (w : world) : result (ranswer a) * world :=
  match a as a return result (ranswer a) * world with
  | AgentCounts => (Ok [("queued", 1); ("submitted", 1); ("succeeded", 1)]%string, w)
  | AuditRows => (Ok [demo_row "d1" "succeeded"; demo_row "d2" "submitted"; demo_row "d3" "queued"]%string, w)
  | RemoteDocuments => (Ok ["d1"; "d2"]%string, w)
  | a => demo_answers a w
  end.
Definition running_world : world :=
  phase_world [("name", JStr "running"); ("budget", JStr "closed"); ("expected_succeeded", JInt 1)]%string.
Definition refreshes (a : action) : bool := match a with RefreshSubmitted _ => true | _ => false end.
Definition resume_run : prog (audit F) * hist :=
  reach (E := recovery_effect) refreshes resume_answers (prepare_resume demo demo_runtime) running_world [].
Lemma resume_refreshes_proven_work_witness :
  next_action resume_run.1 = Some (RefreshSubmitted None : action) /\ refreshable resume_run.2.
Proof.
  assert (next_action resume_run.1 = Some (RefreshSubmitted None : action)) as Hn by (vm_compute; reflexivity).
  split; [exact Hn|].
  destruct (reach_performs refreshes resume_answers _ running_world [] (RefreshSubmitted None : action) Hn) as [k Hk].
  exact (resume_refreshes_proven_work demo demo_runtime [] _ None k Hk).
Defined.
