(* ===== verification/Canary.v ===== *)
(** * Hindsight canary: records, keys and the safety guard

    canary.py: reading rows, stable keys, the preflight checks of the provider key and of
    the service, and the actions the program performs. *)

From stdpp Require Import base option list strings.
From Stdlib Require Import ZArith Lia Ascii.
From S2P Require Import Prelude PyStr PyFloat Json Sha256 Effects.

Local Open Scope Z_scope.
Local Open Scope py_scope.

Definition CATEGORIES : list string :=
  ["exact_identifiers_errors"; "semantic_troubleshooting"; "decisions_outcomes"; "temporal_updates";
   "cross_session_patterns"]%string.
Definition MAX_CONTENT_CHARS : nat := 3000.
Definition CARD_CHUNK_MAX_CHARS : Z := 80000.
Definition MAX_IN_FLIGHT : Z := 8.
Definition newline : string := String "010" EmptyString.
Definition SafetyStop (msg : string) : exn := OtherError "SafetyStop" msg.

(** [text.split()] *)
Fixpoint words_go (cur : string) (s : string) : list string :=
  match s with
  | EmptyString => if bool_decide (cur = EmptyString) then [] else [cur]
  | String c s =>
      if is_space c then
        if bool_decide (cur = EmptyString) then words_go EmptyString s else cur :: words_go EmptyString s
      else words_go (cur +:+ String c EmptyString) s
  end.
Definition words (s : string) : list string := words_go EmptyString s.
Definition _one_line (text : string) (limit : nat) : string :=
  let compact := join " " (words text) in
  if (String.length compact <=? limit)%nat then compact else stake (limit - 1) compact +:+ "…".

Section canary.
Context {F : Type} `{PyFloat F}.
Abbreviation row := (odict (json F)).

(** The SQL statements of evaluation.py *)
Inductive statement :=
  | MessageVector | SessionVector | MessageText
  | SegmentVector | RecordingVector | SegmentText.
Inductive caction :=
  | ReadText (path : string)
  | ReadRows (path : string)
  | ReadJson (path : string)
  | WriteJson (path : string) (value : json F)
  | WriteRows (path : string) (rows : list row)
  | AppendRow (path : string) (r : row)
  | Request (method url : string) (params : odict string) (body : option (json F))
  | Search (dsn : string) (s : statement) (parameter : string) (ids : option (list string))
  | NowIso
  | NowStamp
  | Nonce
  | Wait (seconds : F).
(** A file that is not there is [None]; a row file is its lines, blank ones [None]; a
    response is its status and its JSON, [None] when it has no content; a search is for a
    vector literal or a query, among the documents of a list when one is given. *)
Definition canswer (a : caction) : Type :=
  match a with
  | ReadText _ => option string
  | ReadRows _ => option (list (option (json F)))
  | ReadJson _ => option (json F)
  | WriteJson _ _ | WriteRows _ _ | AppendRow _ _ | Wait _ => unit
  | Request _ _ _ _ => Z * option (json F)
  | Search _ _ _ _ => list row
  | NowIso | Nonce => string
  | NowStamp => F
  end.
#[global] Instance canary_effect : Effect := {| action := caction; answer := canswer |}.
Abbreviation prog := (@prog canary_effect).
Abbreviation ask a := (@act canary_effect a).
Definition check (b : bool) (e : exn) : prog unit := PRet (raise_if b e).

(** ** Rows *)

Fixpoint rows_of (number : Z) (path : string) (lines : list (option (json F))) : result (list row) :=
  match lines with
  | [] => Ok []
  | None :: lines => rows_of (number + 1) path lines
  | Some (JObj d) :: lines => rows ← rows_of (number + 1) path lines; Ok (d :: rows)
  | Some _ :: _ => Raise (ValueError (path +:+ ":" +:+ str_of_Z number +:+ ": expected a JSON object"))
  end.
Definition read_jsonl (path : string) : prog (list row) :=
  lines ← ask (ReadRows path);
  match lines with
  | Some lines => PRet (rows_of 1 path lines)
  | None => raise (OtherError "FileNotFoundError" path)
  end.
(** [json.dumps(value, sort_keys=True, ensure_ascii=False)] hashed *)
Definition stable_key (j : json F) : string := sha256_hex (dumps_sorted j).

(** Keys of dictionaries that come out of JSON *)
Definition hashable (j : json F) : bool := match j with JArr _ | JObj _ => false | _ => true end.
Fixpoint jlookup {V} (k : json F) (d : list (json F * V)) : option V :=
  match d with
  | [] => None
  | (k', v) :: d => if py_eq k k' then Some v else jlookup k d
  end.
Definition key_of (k : string) (r : row) : result (json F) :=
  j ← item k r;
  raise! TypeError "unhashable type" when negb (hashable j);
  Ok j.
(** [{row[key]: row for row in rows if row.get("status") == "ok"}], newest first *)
Fixpoint ok_rows_by (key : string) (acc : list (json F * row)) (rows : list row) : result (list (json F * row)) :=
  match rows with
  | [] => Ok acc
  | r :: rows =>
      if is_str "ok" (dget "status" r) then
        k ← key_of key r;
        ok_rows_by key ((k, r) :: acc) rows
      else ok_rows_by key acc rows
  end.
(** [str(r.get(k) or "")] *)
Definition str_or (k : string) (r : row) : string :=
  match dget k r with Some j => if truthy j then json_str j else EmptyString | None => EmptyString end.
(** [str(r[k])] *)
Definition str_at (k : string) (r : row) : result string := j ← item k r; Ok (json_str j).
Definition get_or_null (k : string) (r : row) : json F := default JNull (dget k r).

(** ** The guard on key, budget, limits and prices *)

Record guard := {
  gd_hard_budget : F;
  gd_safety_margin : F;
  gd_effective : F;
  gd_rpm : Z;
  gd_tpm : Z;
  gd_prices : odict F;
}.
Section env.
Variable env : odict string.
Definition getenv (name d : string) : string := default d (dget name env).
Definition env_set (name : string) : bool := negb (bool_decide (strip (getenv name EmptyString) = EmptyString)).
Definition env_float (name d : string) : result F := json_float (JStr (getenv name d)).
Definition env_int (name d : string) : result Z := json_int (JStr (getenv name d) : json F).

Definition price_name (family direction : string) : string :=
  "CANARY_" +:+ family +:+ "_" +:+ direction +:+ "_USD_PER_M".
Definition guard_price (family direction : string) : result F :=
  let name := price_name family direction in
  price ← match parse_number (strip (getenv name EmptyString)) with
          | Some l => Ok (f_of_lit l)
          | None => Raise (SystemExit (name +:+ " must be an explicit numeric price"))
          end;
  raise! SystemExit (name +:+ " must not be negative") when f_ltb price (f_of_Z 0);
  Ok price.
Definition family_prices (family : string) : result (odict F) :=
  input ← guard_price family "INPUT";
  output ← guard_price family "OUTPUT";
  raise! SystemExit ("CANARY_" +:+ family +:+ " prices cannot both be zero")
    when f_leb (f_add (f_add (f_of_Z 0) input) output) (f_of_Z 0);
  Ok [(price_name family "INPUT", input); (price_name family "OUTPUT", output)].

(** What follows the comparison of the key with the normal one. *)
Definition guard_limits (require_stack : bool) : result guard :=
  hard ← env_float "CANARY_HARD_BUDGET_USD" "0";
  raise! SystemExit "CANARY_HARD_BUDGET_USD must be >0 and <=2"
    when f_leb hard (f_of_Z 0) || f_ltb (f_of_Z 2) hard;
  margin ← env_float "CANARY_SAFETY_MARGIN_USD" "0.05";
  raise! SystemExit "CANARY_SAFETY_MARGIN_USD must be >=0 and below the hard budget"
    when f_ltb margin (f_of_Z 0) || f_leb hard margin;
  rpm ← env_int "CANARY_RPM_LIMIT" "0";
  tpm ← env_int "CANARY_TPM_LIMIT" "0";
  raise! SystemExit "CANARY_RPM_LIMIT and CANARY_TPM_LIMIT must be positive" when (rpm <=? 0) || (tpm <=? 0);
  (if require_stack then
     raise! SystemExit "CANARY_QWEN_API_KEY is required" when negb (env_set "CANARY_QWEN_API_KEY");
     raise! SystemExit "CANARY_POSTGRES_PASSWORD is required" when negb (env_set "CANARY_POSTGRES_PASSWORD");
     raise_if (negb (env_set "CANARY_HINDSIGHT_TOKEN")) (SystemExit "CANARY_HINDSIGHT_TOKEN is required")
   else Ok tt);;
  twenty ← family_prices "20B";
  control ← family_prices "120B";
  Ok {| gd_hard_budget := hard; gd_safety_margin := margin; gd_effective := f_sub hard margin;
        gd_rpm := rpm; gd_tpm := tpm; gd_prices := twenty ++ control |}.
Definition key_preflight (require_stack : bool) : prog guard :=
  let key := strip (getenv "CANARY_REDPILL_API_KEY" EmptyString) in
  check (bool_decide (key = EmptyString)) (SystemExit "CANARY_REDPILL_API_KEY is required");;
  normal ← ask (ReadText (getenv "NORMAL_REDPILL_KEY_FILE" "~/.attestmesh/redpill-key"));
  check (match normal with Some text => bool_decide (key = strip text) | None => false end)
    (SystemExit "refusing the normal Redpill key; create a dedicated canary virtual key");;
  PRet (guard_limits require_stack).

(** [response.raise_for_status()], then [response.json()] *)
Definition raise_for_status (status : Z) : result unit :=
  raise_if (negb ((200 <=? status) && (status <? 300))) (OtherError "HTTPStatusError" (str_of_Z status)).
Definition json_content (body : option (json F)) : result (json F) :=
  match body with Some j => Ok j | None => Raise (OtherError "JSONDecodeError" "Expecting value") end.

Definition retain_preflight : prog unit :=
  let mode := lower (strip (getenv "CANARY_RETAIN_GUARD" "redpill")) in
  if bool_decide (mode = "redpill"%string) then key_preflight true;; mret tt
  else
    check (negb (bool_decide (mode = "frontier"%string)))
      (SystemExit "CANARY_RETAIN_GUARD must be redpill or frontier");;
    let url := strip (getenv "CANARY_FRONTIER_PROXY_HEALTH_URL" EmptyString) in
    check (bool_decide (url = EmptyString))
      (SystemExit "CANARY_FRONTIER_PROXY_HEALTH_URL is required for the frontier guard");;
    '(status, body) ← ask (Request "GET" url [] None);
    PRet (raise_for_status status);;
    health ← PRet (j ← json_content body; obj j);
    check (negb (is_str "healthy" (dget "status" health)))
      (SystemExit ("frontier proxy is not healthy: " +:+ json_str (get_or_null "status" health)));;
    check (otruthy (dget "circuit_open" health) || negb (otruthy (dget "provider_egress_enabled" health)))
      (SystemExit "frontier proxy circuit/egress guard is closed").

(** *** The live catalogue *)

Definition catalog_rows (body : json F) : result (list (json F)) :=
  match (match body with JObj d => jget "data" d | JNull => None | j => Some j end) with
  | Some (JArr rows) => Ok rows
  | _ => Raise (SystemExit "Redpill model catalog returned an unexpected shape")
  end.
(** The last row with this id *)
Definition catalog_model (rows : list (json F)) (model : string) : option row :=
  foldl (fun found j =>
    match j with
    | JObj r => if otruthy (dget "id" r) && bool_decide (json_str (get_or_null "id" r) = model) then Some r else found
    | _ => found
    end) None rows.
(** [float(a.get(k) or a.get(l)) * 1_000_000] *)
Definition live_price (pricing : row) (k l : string) : result F :=
  x ← json_float (if otruthy (dget k pricing) then get_or_null k pricing else get_or_null l pricing);
  Ok (f_mul x (f_of_Z 1000000)).
Definition configured_price (g : guard) (family direction : string) : result F :=
  match dget (price_name family direction) (gd_prices g) with
  | Some x => Ok x
  | None => Raise (KeyError (price_name family direction))
  end.
Definition differs (a b : F) : bool := f_ltb (f_lit 1 (-9)) (f_abs (f_sub a b)).
Definition verify_price (g : guard) (rows : list (json F)) (family model : string) : result (string * (F * F)) :=
  r ← match catalog_model rows model with
      | Some r => if bool_decide (length r = 0%nat) then Raise (SystemExit ("Redpill catalog omitted " +:+ model))
                  else Ok r
      | None => Raise (SystemExit ("Redpill catalog omitted " +:+ model))
      end;
  pricing ← (if otruthy (dget "pricing" r) then obj (get_or_null "pricing" r) else Ok []);
  input ← live_price pricing "input" "prompt";
  output ← live_price pricing "output" "completion";
  configured_input ← configured_price g family "INPUT";
  configured_output ← configured_price g family "OUTPUT";
  raise! SystemExit ("live pricing changed for " +:+ model +:+ "; update the explicit ledger prices")
    when differs input configured_input || differs output configured_output;
  Ok (model, (input, output)).
Definition provider_preflight : prog (guard * list (string * (F * F))) :=
  g ← key_preflight true;
  let base := rstrip_char "/" (getenv "CANARY_REDPILL_BASE_URL" "https://api.redpill.ai/v1") in
  '(status, body) ← ask (Request "GET" (base +:+ "/models") [] None);
  PRet (raise_for_status status);;
  rows ← PRet (j ← json_content body; catalog_rows j);
  twenty ← PRet (verify_price g rows "20B" "openai/gpt-oss-20b");
  control ← PRet (verify_price g rows "120B" "openai/gpt-oss-120b");
  nonce ← ask Nonce;
  '(status, _) ← ask (Request "GET" (base +:+ "/attestation/report")
                        [("model", "openai/gpt-oss-20b"); ("nonce", nonce)]%string None);
  check ((status =? 401) || (status =? 402))
    (SystemExit ("dedicated Redpill key preflight returned " +:+ str_of_Z status));;
  PRet (raise_for_status status);;
  mret (g, [twenty; control]).
End env.
End canary.
Arguments caction F : clear implicits.
Arguments guard F : clear implicits.

(** Perform an action of the canary. *)
Abbreviation ask a := (@act (@canary_effect _) a).
