(* ===== verification/CanaryRetain.v ===== *)
(** * Hindsight canary: the retain run

    canary.py: class [HindsightAPI], the items of a corpus, and [retain_canary], which
    posts every item once, keeps a state file and can be run again after it stopped. *)

From stdpp Require Import base option list strings.
From Stdlib Require Import ZArith Lia Ascii.
From S2P Require Import Prelude PyStr PyFloat Json Sha256 Regex Effects Canary.

Local Open Scope Z_scope.
Local Open Scope py_scope.

Section retain.
Context {F : Type} `{PyFloat F}.
Abbreviation row := (odict (json F)).
Abbreviation prog := (@prog (@canary_effect F)).

(** ** [HindsightAPI] *)

Section api.
(** [self.url] *)
Variable base : string.

Definition circuit_opened (status : Z) : prog unit :=
  check ((status =? 401) || (status =? 402))
    (SafetyStop ("Hindsight returned " +:+ str_of_Z status +:+ "; circuit opened")).
Definition request (method endpoint : string) (params : odict string) (body : option (json F)) : prog (json F) :=
  '(status, content) ← ask (Request method (base +:+ "/" +:+ endpoint) params body);
  circuit_opened status;;
  PRet (raise_for_status status);;
  mret (default (JObj []) content).
Definition ensure_bank : prog (json F) :=
  '(status, content) ← ask (Request "PUT" base [] (Some (JObj [])));
  circuit_opened status;;
  PRet (raise_for_status status);;
  mret (default (JObj []) content).

Definition page_of (status : string) : prog (list (json F)) :=
  page ← request "GET" "operations"
           [("status", status); ("type", "retain"); ("limit", "100"); ("offset", "0");
            ("exclude_parents", "true")]%string None;
  d ← PRet (obj page);
  total ← PRet (int_or0 "total" d);
  check (MAX_IN_FLIGHT <? total)
    (SafetyStop ("remote queue has " +:+ str_of_Z total +:+ " " +:+ status +:+ " retains; cap is " +:+
                 str_of_Z MAX_IN_FLIGHT));;
  PRet (if otruthy (dget "operations" d) then py_list (get_or_null "operations" d) else Ok []).
Definition active : prog (list (json F)) :=
  pending ← page_of "pending";
  processing ← page_of "processing";
  let operations := pending ++ processing in
  check (MAX_IN_FLIGHT <? Z.of_nat (length operations))
    (SafetyStop ("remote queue has " +:+ str_of_Z (Z.of_nat (length operations)) +:+
                 " active retains; cap is " +:+ str_of_Z MAX_IN_FLIGHT));;
  mret operations.
Definition status (operation_id : string) (include_payload : bool) : prog (json F) :=
  request "GET" ("operations/" +:+ operation_id)
    (if include_payload then [("include_payload", "true")]%string else []) None.
Definition retain_body (it : row) : json F := JObj [("async", JBool true); ("items", JArr [JObj it])]%string.
(** [str(d.get("operation_id") or d.get("id") or "")] *)
Definition first_str (k l : string) (d : row) : string :=
  if otruthy (dget k d) then str_or k d else str_or l d.
Definition retain (it : row) : prog string :=
  body ← request "POST" "memories" [] (Some (retain_body it));
  d ← PRet (obj body);
  let operation_id := first_str "operation_id" "id" d in
  check (bool_decide (operation_id = EmptyString)) (SafetyStop "retain response omitted operation_id");;
  mret operation_id.
End api.

(** ** What an operation says *)

Fixpoint first_some (l : list (option string)) : option string :=
  match l with
  | [] => None
  | Some s :: l => if bool_decide (s = EmptyString) then first_some l else Some s
  | None :: l => first_some l
  end.
Definition nested_keys : list string := ["result_metadata"; "task_payload"; "payload"; "items"; "contents"]%string.
Fixpoint operation_document_id (value : json F) : option string :=
  match value with
  | JObj d =>
      let below := map (fun kv => (kv.1, operation_document_id kv.2)) d in
      if otruthy (dget "document_id" d) then Some (json_str (get_or_null "document_id" d))
      else if otruthy (dget "documentId" d) then Some (json_str (get_or_null "documentId" d))
      else
        match dget "document_ids" d with
        | Some (JArr [j]) => Some (json_str j)
        | _ => first_some (map (fun k => default None (dget k below)) nested_keys)
        end
  | JArr l =>
      match remove_dups (omap (fun o => o) (map operation_document_id l)) with
      | [found] => Some found
      | _ => None
      end
  | _ => None
  end.
Definition child_operation_ids (value : json F) : list string :=
  match value with
  | JObj d =>
      match dget "child_operations" d with
      | Some (JArr children) =>
          omap (fun child =>
            match child with
            | JObj c => if otruthy (dget "operation_id" c) || otruthy (dget "id" c)
                        then Some (first_str "operation_id" "id" c) else None
            | _ => None
            end) children
      | _ => []
      end
  | _ => []
  end.

(** ** The items of a corpus *)

Definition content_of (variant : string) (cards : list (json F * row)) (record : row) : result (option (json F)) :=
  if bool_decide (variant = "summary"%string) then Ok (dget "summary" record)
  else
    document ← key_of "document_id" record;
    Ok (match jlookup document cards with Some card => dget "card" card | None => None end).
Definition canary_item (variant : string) (cards : list (json F * row)) (seen : list string) (record : row)
    : result (string * row) :=
  content ← content_of variant cards record;
  (if otruthy content then Ok tt
   else document ← item "document_id" record;
        Raise (SafetyStop (variant +:+ " content missing for " +:+ json_str document)));;
  source ← item "source" record;
  document ← item "document_id" record;
  let source := json_str source in
  let document := json_str document in
  let document_id := "canary:" +:+ variant +:+ ":" +:+ source +:+ ":" +:+ document in
  raise! SafetyStop ("duplicate document_id: " +:+ document_id) when bool_decide (document_id ∈ seen);
  Ok (document_id,
      [("content", JStr (stake MAX_CONTENT_CHARS (json_str (default JNull content))));
       ("context", JStr ("source:" +:+ source +:+ " | source_document:" +:+ document));
       ("document_id", JStr document_id);
       ("timestamp", get_or_null "started_at" record);
       ("tags", JArr [JStr "hindsight-canary"; JStr ("variant:" +:+ variant); JStr ("source:" +:+ source)])]%string).
Fixpoint items_of (variant : string) (cards : list (json F * row)) (seen : list string) (corpus : list row)
    : result (odict row) :=
  match corpus with
  | [] => Ok []
  | record :: corpus =>
      i ← canary_item variant cards seen record;
      l ← items_of variant cards (i.1 :: seen) corpus;
      Ok (i :: l)
  end.
(** The items, each under its document id *)
Definition canary_items (corpus cards : list row) (variant : string) : result (odict row) :=
  by_id ← ok_rows_by "document_id" [] cards;
  items_of variant by_id [] corpus.

(** ** The state file *)

Definition docs : Type := odict row.
Section run.
Variable state_path : string.
(** The other fields of the state file are written back as they were read. *)
Definition save (state : row) (documents : docs) : prog unit :=
  ask (WriteJson state_path (JObj (dset "documents" (JObj (map (fun kv => (kv.1, JObj kv.2)) documents)) state))).

(** [bool(value.get("explicit_retries") or 0)] as a number *)
Definition retries_of (v : row) : result Z := int_or0 "explicit_retries" v.
Definition history_of (v : row) : result (list (json F)) :=
  if otruthy (dget "retry_history" v) then py_list (get_or_null "retry_history" v) else Ok [].
Definition state_is (s : string) (v : row) : bool := is_str s (dget "state" v).

Definition stage_explicit_retry (v : row) : prog row :=
  retries ← PRet (retries_of v);
  if 1 <=? retries then mret v
  else
    history ← PRet (history_of v);
    now ← ask NowIso;
    let entry := JObj [("operation_id", get_or_null "operation_id" v); ("error", get_or_null "error" v);
                       ("failed_at", JStr now)]%string in
    let v := dupdate v [("state", JStr "retry_pending"); ("explicit_retries", JInt (retries + 1));
                        ("retry_history", JArr (history ++ [entry]))]%string in
    mret (foldl (fun v k => dpop k v) v ["operation_id"; "worker_operation_ids"; "error"; "completed_at"]%string).

Section turns.
Variable base : string.
Variable variant : string.
Variable items : odict row.
Variable retry_failed : bool.
Variable state : row.

(** The documents of the state file must be of this corpus and carry its payloads. *)
Definition check_document (document_id : string) (value : json F) : prog row :=
  v ← PRet (obj value);
  it ← PRet (match dget document_id items with Some it => Ok it | None => Raise (KeyError document_id) end);
  let expected := stable_key (JObj it) in
  let prior := get_or_null "payload_hash" v in
  check (truthy prior && negb (eq_str expected prior))
    (SafetyStop ("payload changed for stateful document " +:+ document_id));;
  let v := dset "payload_hash" (JStr expected) v in
  if retry_failed && state_is "failed" v then stage_explicit_retry v else mret v.
Fixpoint check_documents (l : row) : prog docs :=
  match l with
  | [] => mret []
  | (document_id, value) :: l =>
      v ← check_document document_id value;
      rest ← check_documents l;
      mret ((document_id, v) :: rest)
  end.

(** *** The remote queue *)

Record queue := {
  qu_active : list string;              (* operation ids *)
  qu_by_document : odict string;
  qu_documents : docs;
}.
Definition worker_ids (v : row) (operation_id : string) : result (list (json F)) :=
  ids ← (if otruthy (dget "worker_operation_ids" v) then py_list (get_or_null "worker_operation_ids" v) else Ok []);
  raise! TypeError "'<' not supported between instances" when negb (forallb (fun j => bool_decide (is_Some (as_str j))) ids);
  Ok (map JStr (sorted_set (operation_id :: omap as_str ids))).
Definition adopt (document_id operation_id : string) (it : row) (documents : docs) : prog docs :=
  let existing := default [] (dget document_id documents) in
  terminal ← PRet (in_strs ["succeeded"; "failed"]%string (dget "state" existing));
  check terminal (SafetyStop ("active operation reappeared for terminal document " +:+ document_id));;
  let existing_operation := str_or "operation_id" existing in
  let hash := JStr (stable_key (JObj it)) in
  if negb (bool_decide (existing_operation = EmptyString)) && negb (bool_decide (existing_operation = operation_id)) then
    parent ← status base existing_operation false;
    check (negb (bool_decide (operation_id ∈ child_operation_ids parent)))
      (SafetyStop ("operation identity changed for " +:+ document_id));;
    ids ← PRet (worker_ids existing operation_id);
    mret (dset document_id
            (dupdate existing [("state", JStr "submitted"); ("payload_hash", hash);
                               ("worker_operation_ids", JArr ids); ("adopted", JBool true)]%string) documents)
  else
    mret (dset document_id
            (dupdate existing [("state", JStr "submitted"); ("operation_id", JStr operation_id);
                               ("payload_hash", hash); ("adopted", JBool true)]%string) documents).
Definition see_operation (operation : json F) (q : queue) : prog queue :=
  d ← PRet (obj operation);
  let operation_id := first_str "id" "operation_id" d in
  check (bool_decide (operation_id = EmptyString)) (SafetyStop "active Hindsight operation omitted its ID");;
  let q := {| qu_active := operation_id :: qu_active q; qu_by_document := qu_by_document q;
              qu_documents := qu_documents q |} in
  document ← (match first_some [operation_document_id operation] with
              | Some s => mret (Some s)
              | None => full ← status base operation_id true; mret (operation_document_id full)
              end);
  match document with
  | None => mret q
  | Some document_id =>
      match dget document_id items with
      | None => mret q
      | Some it =>
          let prior := default EmptyString (dget document_id (qu_by_document q)) in
          check (negb (bool_decide (prior = EmptyString)) && negb (bool_decide (prior = operation_id)))
            (SafetyStop ("duplicate active operations for " +:+ document_id));;
          documents ← adopt document_id operation_id it (qu_documents q);
          mret {| qu_active := qu_active q; qu_by_document := dset document_id operation_id (qu_by_document q);
                  qu_documents := documents |}
      end
  end.
Fixpoint see_operations (l : list (json F)) (q : queue) : prog queue :=
  match l with
  | [] => mret q
  | operation :: l => q ← see_operation operation q; see_operations l q
  end.

(** *** What was submitted *)

Definition auth_error : re := literal false "(?:^|\D)(401|402)(?:\D|$)".
Definition settle (document_id : string) (documents : docs) : prog docs :=
  let v := default [] (dget document_id documents) in
  operation_id ← PRet (item "operation_id" v);
  reply ← status base (json_str operation_id) false;
  d ← PRet (obj reply);
  let remote := lower (str_or "status" d) in
  if bool_decide (remote = "completed"%string) then
    now ← ask NowIso;
    mret (dset document_id (dupdate v [("state", JStr "succeeded"); ("completed_at", JStr now)]%string) documents)
  else if bool_decide (remote ∈ ["failed"; "cancelled"; "not_found"]%string) then
    let error := if otruthy (dget "error_message" d) then get_or_null "error_message" d else JStr remote in
    let v := dupdate v [("state", JStr "failed"); ("error", error)]%string in
    again ← PRet (if retry_failed then retries ← retries_of v; Ok (retries <? 1) else Ok false);
    if again : bool then v ← stage_explicit_retry v; mret (dset document_id v documents)
    else if found (re_search auth_error (json_str error)) then
      save state (dset document_id v documents);;
      raise (SafetyStop (json_str error))
    else mret (dset document_id v documents)
  else mret documents.
Fixpoint settle_all (ids : list string) (documents : docs) : prog docs :=
  match ids with
  | [] => mret documents
  | document_id :: ids => documents ← settle document_id documents; settle_all ids documents
  end.

(** *** What is submitted next *)

Definition submit (document_id : string) (it : row) (documents : docs) : prog docs :=
  let prior := default [] (dget document_id documents) in
  now ← ask NowIso;
  retries ← PRet (retries_of prior);
  history ← PRet (history_of prior);
  let v := [("state", JStr "submitting"); ("payload_hash", JStr (stable_key (JObj it)));
            ("started_at", JStr now); ("explicit_retries", JInt retries);
            ("retry_history", JArr history)]%string in
  save state (dset document_id v documents);;
  posted ← attempt (retain base it);
  match posted with
  | Raise e =>
      save state (dset document_id (dupdate v [("state", JStr "failed");
                    ("error", JStr ("ambiguous submission: " +:+ exn_msg e))]%string) documents);;
      raise (SafetyStop (exn_msg e))
  | Ok operation_id =>
      let documents := dset document_id (dupdate v [("state", JStr "submitted");
                                                    ("operation_id", JStr operation_id)]%string) documents in
      save state documents;;
      mret documents
  end.
Fixpoint submit_all (l : odict row) (documents : docs) : prog docs :=
  match l with
  | [] => mret documents
  | (document_id, it) :: l => documents ← submit document_id it documents; submit_all l documents
  end.

(** *** One turn *)

Record outcome := {
  oc_variant : string;
  oc_documents : Z;
  oc_succeeded : Z;
  oc_failed : Z;
  oc_failure_rate : F;
}.
Definition ids_in (s : string) (documents : docs) : list string :=
  dkeys (List.filter (fun kv => state_is s kv.2) documents).
Definition count_in (s : string) (documents : docs) : Z := Z.of_nat (length (ids_in s documents)).
(** [x["state"] in {...}] of every value: lists and objects are not hashable. *)
Fixpoint states_hashable (documents : docs) : result unit :=
  match documents with
  | [] => Ok tt
  | (_, v) :: documents => in_strs [] (dget "state" v);; states_hashable documents
  end.
(** The result when every document has ended; the rate is left out of the message. *)
Definition verdict (documents : docs) : result (option outcome) :=
  states_hashable documents;;
  let n := Z.of_nat (length items) in
  let failed := count_in "failed" documents in
  let succeeded := count_in "succeeded" documents in
  raise! OtherError "ZeroDivisionError" "division by zero" when n =? 0;
  let rate := f_div (f_of_Z failed) (f_of_Z n) in
  raise! SafetyStop "terminal failure rate exceeds 1%" when f_ltb (f_lit 1 (-2)) rate;
  Ok (if (succeeded =? n) || (succeeded + failed =? n) then
        Some {| oc_variant := variant; oc_documents := n; oc_succeeded := succeeded; oc_failed := failed;
                oc_failure_rate := rate |}
      else None).
Definition unrepresented (by_document : odict string) (documents : docs) : Z :=
  Z.of_nat (length (List.filter (fun id => negb (dmem id by_document)) (ids_in "submitted" documents))).
Definition in_flight (q : queue) (documents : docs) : Z :=
  Z.of_nat (length (remove_dups (qu_active q))) + unrepresented (qu_by_document q) documents.
Definition available (documents : docs) : odict row :=
  List.filter (fun kv => match dget kv.1 documents with
                         | None => true
                         | Some v => state_is "retry_pending" v
                         end) items.
Definition capacity (q : queue) (documents : docs) : nat := Z.to_nat (MAX_IN_FLIGHT - in_flight q documents).

Definition turn (documents : docs) : prog (docs + outcome) :=
  operations ← active base;
  q ← see_operations operations {| qu_active := []; qu_by_document := []; qu_documents := documents |};
  let documents := qu_documents q in
  save state documents;;
  check (0 <? count_in "submitting" documents)
    (SafetyStop (str_of_Z (count_in "submitting" documents) +:+ " ambiguous submission(s) require explicit review"));;
  documents ← settle_all (ids_in "submitted" documents) documents;
  save state documents;;
  done ← PRet (verdict documents);
  match done with
  | Some o => mret (inr o)
  | None =>
      documents ← submit_all (take (capacity q documents) (available documents)) documents;
      ask (Wait (f_of_Z 5));;
      mret (inl documents)
  end.
Fixpoint turns (fuel : nat) (documents : docs) : prog outcome :=
  match fuel with
  | O => PHalt
  | S fuel =>
      r ← turn documents;
      match r with inr o => mret o | inl documents => turns fuel documents end
  end.
End turns.

Definition load_state : prog row :=
  loaded ← ask (ReadJson state_path);
  PRet (match loaded with Some j => obj j | None => Ok [("documents", JObj [])]%string end).
End run.

Record retain_args := {
  ra_corpus : string;
  ra_cards : option string;
  ra_variant : string;
  ra_url : string;
  ra_bank : string;
  ra_state : string;
  ra_limit : option Z;
  ra_retry_failed : bool;
}.
Definition bank_url (a : retain_args) : string :=
  rstrip_char "/" (ra_url a) +:+ "/v1/default/banks/" +:+ ra_bank a.
Definition retain_items (env : odict string) (a : retain_args) : prog (odict row) :=
  retain_preflight env;;
  check (negb (env_set env "CANARY_HINDSIGHT_TOKEN")) (SystemExit "CANARY_HINDSIGHT_TOKEN is required");;
  cards ← (match ra_cards a with
           | Some path => if bool_decide (path = EmptyString) then mret [] else read_jsonl path
           | None => mret []
           end);
  check (bool_decide (ra_variant a = "card"%string) && bool_decide (cards = []))
    (SystemExit "--cards is required for the card variant");;
  corpus ← read_jsonl (ra_corpus a);
  items ← PRet (canary_items corpus cards (ra_variant a));
  match ra_limit a with
  | None => mret items
  | Some limit =>
      check (limit <=? 0) (SystemExit "--limit must be positive");;
      mret (take (Z.to_nat limit) items)
  end.
Definition retain_canary (env : odict string) (fuel : nat) (a : retain_args) : prog outcome :=
  items ← retain_items env a;
  let base := bank_url a in
  ensure_bank base;;
  state ← load_state (ra_state a);
  stored ← PRet (match dget "documents" state with Some j => obj j | None => Ok [] end);
  let unknown := List.filter (fun id => negb (dmem id items)) (dkeys stored) in
  check (negb (bool_decide (unknown = [])))
    (SafetyStop ("state contains documents outside this corpus: " +:+ str_of_Z (Z.of_nat (length unknown))));;
  documents ← check_documents items (ra_retry_failed a) stored;
  save (ra_state a) state documents;;
  turns (ra_state a) base (ra_variant a) items (ra_retry_failed a) state fuel documents.
End retain.

Example auth_error_seen :
  map (fun s => found (re_search auth_error s)) ["HTTP 401"; "402"; "error 1401x"; "code:401;"; "timeout"]%string =
  [true; true; false; true; false].
Proof. vm_compute. reflexivity. Qed.
