(* ===== verification/CanaryFacts.v ===== *)
(** * Hindsight canary: theorems about the retain run

    What holds of every sequence of runs over one state file, whatever the service, the
    file system and the clock answer, and wherever a run is killed. *)

From stdpp Require Import base option list sets strings.
From Stdlib Require Import ZArith Lia Ascii.
From S2P Require Import Prelude PyStr PyFloat Json Sha256 Regex Effects Canary CanaryRetain.

Local Open Scope Z_scope.

Section facts.
Context {F : Type} `{PyFloat F}.
Abbreviation row := (odict (json F)).
Abbreviation prog := (@prog (@canary_effect F)).
Abbreviation hist := (@Effects.hist (@canary_effect F)).
Abbreviation event := (@Effects.event (@canary_effect F)).
Abbreviation cact := (@action (@canary_effect F)).
Abbreviation docs := (@docs F).

(** ** What is posted *)

(** The document and the item of a retain request *)
Definition posted (a : cact) : option (string * row) :=
  match a with
  | Request method _ _ (Some (JObj body)) =>
      if bool_decide (method = "POST"%string) then
        match dget "items" body with
        | Some (JArr [JObj it]) => match dget "document_id" it with Some (JStr d) => Some (d, it) | _ => None end
        | _ => None
        end
      else None
  | _ => None
  end.
(** The items of a document posted so far, answered or not *)
Definition posts_of (d : string) (a : cact) : list row :=
  match posted a with Some (d', it) => if bool_decide (d' = d) then [it] else [] | None => [] end.
Fixpoint posts (d : string) (h : hist) : list row :=
  match h with
  | [] => []
  | e :: h => posts_of d (ev_action e) ++ posts d h
  end.
Definition writes (a : cact) : bool := match a with WriteJson _ _ => true | _ => false end.
Definition reads (a : cact) : bool := match a with ReadJson _ => true | _ => false end.
(** Neither a retain request nor an access to a state file *)
Definition calm (a : cact) : Prop := posted a = None /\ writes a = false /\ reads a = false.

Lemma posts_app d h1 h2 : posts d (h1 ++ h2) = posts d h1 ++ posts d h2.
Proof. induction h1 as [|e h1 IH]; simpl; [done|]. by rewrite IH, app_assoc. Qed.
Lemma posts_calm d h : Forall (fun e : event => calm (ev_action e)) h -> posts d h = [].
Proof.
  induction 1 as [|[a r] h [Ha _] _ IH]; [done|]. simpl in *. rewrite IH. unfold posts_of. by rewrite Ha.
Qed.
Lemma posts_none d (a : cact) r h : posted a = None -> posts d (Ev a r :: h) = posts d h.
Proof. simpl. unfold posts_of. by intros ->. Qed.

(** ** Documents of the state file *)

Definition key_of_item (it : row) : json F := JStr (stable_key (JObj it)).
(** [value_ok retry l v]: of a document with entry [v] the items [l] were posted: one more
    than the retries of the entry at most, one less when a retry is pending; all had the
    recorded payload. *)
Record value_ok (retry : bool) (l : list row) (v : row) : Prop := {
  vo_posts : exists r, retries_of v = Ok r /\ 0 <= r <= Z.b2z retry /\
    Z.of_nat (length l) <= (if state_is "retry_pending" v then r else r + 1);
  vo_payload : Forall (fun it => dget "payload_hash" v = Some (key_of_item it)) l;
}.
Record docs_ok (retry : bool) (n : string -> list row) (documents : docs) : Prop := {
  do_values : Forall (fun kv => value_ok retry (n kv.1) kv.2) documents;
  do_absent : forall d, dget d documents = None -> n d = [];
  do_keys : NoDup (dkeys documents);
}.
Definition file_of (state : row) (documents : docs) : json F :=
  JObj (dset "documents" (JObj (map (fun kv => (kv.1, JObj kv.2)) documents)) state).
Definition file_ok (retry : bool) (n : string -> list row) (content : option (json F)) : Prop :=
  match content with
  | None => forall d, n d = []
  | Some j => exists state documents, j = file_of state documents /\ docs_ok retry n documents
  end.

Lemma value_ok_fewer retry l l' v : value_ok retry (l ++ l') v -> value_ok retry l' v.
Proof.
  intros [(r & Hr & Hb & Hl) Hp]. rewrite length_app in Hl. apply Forall_app in Hp as [_ Hp].
  split; [|done]. exists r. split; [done|]. split; [done|]. destruct (state_is _ v); lia.
Qed.
(** The contents of a file are as good for what was posted before. *)
Lemma file_ok_fewer retry (n m : string -> list row) content :
  (forall d, exists l, m d = l ++ n d) -> file_ok retry m content -> file_ok retry n content.
Proof.
  intros Hn. destruct content as [j|]; simpl.
  - intros (state & documents & -> & [Hv Ha Hk]). exists state, documents. split; [done|]. split.
    + eapply Forall_impl; [exact Hv|]. intros [d v]. destruct (Hn d) as [l Hl]. simpl. rewrite Hl. apply value_ok_fewer.
    + intros d Hd. destruct (Hn d) as [l Hl]. specialize (Ha d Hd). rewrite Hl in Ha. by apply app_eq_nil in Ha as [_ ?].
    + done.
  - intros Ha d. destruct (Hn d) as [l Hl]. specialize (Ha d). rewrite Hl in Ha. by apply app_eq_nil in Ha as [_ ?].
Qed.
Lemma docs_ok_ext retry (n m : string -> list row) documents :
  (forall d, n d = m d) -> docs_ok retry n documents -> docs_ok retry m documents.
Proof.
  intros Hn [Hv Ha Hk]. split; [|intros d; rewrite <- Hn; apply Ha|done].
  eapply Forall_impl; [exact Hv|]. intros [d v]. simpl. by rewrite Hn.
Qed.
Lemma docs_ok_dset retry n d v documents :
  value_ok retry (n d) v -> docs_ok retry n documents -> docs_ok retry n (dset d v documents).
Proof.
  intros Hv [Hvs Ha Hk]. split; [by apply (dset_Forall_key (fun kv => value_ok retry (n kv.1) kv.2))| |by apply dset_NoDup].
  intros d'. destruct (decide (d' = d)) as [->|Hd]; [by rewrite dget_dset_eq|]. rewrite dget_dset_ne by done. apply Ha.
Qed.
Lemma docs_ok_value retry n d documents :
  docs_ok retry n documents -> (forall v, dget d documents = Some v -> value_ok retry (n d) v).
Proof. intros [Hv _ _] v Hd. apply dget_Some_elem in Hd. rewrite Forall_forall in Hv. by apply (Hv (d, v)). Qed.

(** An entry that keeps its count and payload and has no pending retry *)
Lemma value_ok_update retry l v v' :
  value_ok retry l v -> dget "explicit_retries" v' = dget "explicit_retries" v ->
  dget "payload_hash" v' = dget "payload_hash" v -> state_is "retry_pending" v' = false ->
  value_ok retry l v'.
Proof.
  intros [(r & Hr & Hb & Hl) Hp] He Hh Hs. split.
  - exists r. unfold retries_of, int_or0 in *. rewrite He, Hs. split; [done|]. split; [done|].
    destruct (state_is "retry_pending" v); lia.
  - by rewrite Hh.
Qed.
Lemma value_ok_empty retry v : retries_of v = Ok 0 -> value_ok retry [] v.
Proof.
  intros Hv. split; [|constructor]. exists 0. split; [done|]. split; [destruct retry; simpl; lia|].
  destruct (state_is _ v); simpl; lia.
Qed.

(** ** Entries of documents during a run

    In a run every entry belongs to an item and carries its payload. *)
Section items.
Variable items : odict row.
Definition carries (kv : string * row) : Prop :=
  exists it, dget kv.1 items = Some it /\ dget "payload_hash" kv.2 = Some (key_of_item it).
Definition run_ok (retry : bool) (n : string -> list row) (documents : docs) : Prop :=
  docs_ok retry n documents /\ Forall carries documents.
Lemma run_ok_dset retry n d v documents :
  value_ok retry (n d) v -> carries (d, v) -> run_ok retry n documents -> run_ok retry n (dset d v documents).
Proof. intros Hv Hc [Hd Hs]. split; [by apply docs_ok_dset|by apply (dset_Forall_key carries)]. Qed.
Lemma run_ok_get retry n d v documents : run_ok retry n documents -> dget d documents = Some v ->
  value_ok retry (n d) v /\ carries (d, v).
Proof.
  intros [Hd Hs] Hg. split; [by eapply docs_ok_value|]. apply dget_Some_elem in Hg. by rewrite Forall_forall in Hs; apply Hs.
Qed.

(** ** What the operations that post nothing return *)

Abbreviation no_retry_of := (fun v => state_is "retry_pending" v = false).
Lemma stage_ok l v : state_is "failed" v = true -> value_ok true l v ->
  yields (stage_explicit_retry v)
    (fun v' => value_ok true l v' /\ dget "payload_hash" v' = dget "payload_hash" v /\ state_is "submitting" v' = false).
Proof.
  intros Hs [(r & Hr & Hb & Hl) Hp]. unfold state_is in Hs. unfold stage_explicit_retry. apply yields_pure. intros r' Hr'.
  assert (r' = r) as -> by congruence.
  assert (state_is "retry_pending" v = false /\ state_is "submitting" v = false) as [Hn Hn'].
  { unfold state_is in *. destruct (dget "state" v) as [[]|]; try done. simpl in *.
    apply bool_decide_eq_true in Hs as ->. done. }
  rewrite Hn in Hl. destruct (Z.leb_spec 1 r).
  - apply yields_mret. split; [|done]. split; [|done]. exists r. by rewrite Hn.
  - apply yields_pure. intros history _. apply yields_then. intros now. apply yields_mret.
    set (v' := foldl _ _ _).
    assert (forall k, k <> "operation_id"%string -> k <> "worker_operation_ids"%string -> k <> "error"%string ->
      k <> "completed_at"%string -> k <> "retry_history"%string ->
      dget k v' = dget k (dset "explicit_retries" (JInt (r + 1)) (dset "state" (JStr "retry_pending") v))) as Hk.
    { intros k ? ? ? ? ?. unfold v', dupdate. cbn [foldl fst snd]. by rewrite !dget_dpop_ne, dget_dset_ne by done. }
    unfold state_is. rewrite !Hk, !dget_dset_ne, dget_dset_eq by done. split; [|done]. split.
    + exists (r + 1). unfold retries_of, int_or0, state_is. rewrite !Hk, dget_dset_eq, dget_dset_ne, dget_dset_eq by done.
      simpl. destruct (Z.eqb_spec (r + 1) 0); simpl; (split; [congruence|lia]).
    + by rewrite Hk, !dget_dset_ne by done.
Qed.

Variable retry_failed : bool.
Variable retry : bool.
Hypothesis Hretry : retry_failed = true -> retry = true.

Lemma check_document_ok l d v : value_ok retry l v ->
  yields (check_document items retry_failed d (JObj v)) (fun v' => value_ok retry l v' /\ carries (d, v')).
Proof.
  intros Hv. unfold check_document. apply yields_pure. intros v0 [= <-].
  apply yields_pure. intros it Hit. destruct (dget d items) as [it'|] eqn:Ed; [|done]. injection Hit as <-.
  set (expected := stable_key (JObj it')).
  apply yields_pure. intros u Hc%raise_if_Ok.
  set (v1 := dset "payload_hash" (JStr expected) v).
  assert (value_ok retry l v1) as Hv1.
  { destruct Hv as [(r & Hr & Hb & Hl) Hp]. split.
    - exists r. unfold retries_of, int_or0, state_is, v1 in *. by rewrite !dget_dset_ne by done.
    - unfold v1. rewrite dget_dset_eq. eapply Forall_impl; [exact Hp|]. intros it Hit. simpl in Hit.
      unfold get_or_null in Hc. rewrite Hit in Hc. simpl in Hc.
      rewrite bool_decide_eq_false_2 in Hc by apply sha256_hex_nonempty. simpl in Hc.
      apply negb_false_iff, bool_decide_eq_true in Hc. unfold key_of_item. by rewrite Hc. }
  assert (dget "payload_hash" v1 = Some (JStr expected)) as Hk by apply dget_dset_eq.
  destruct (retry_failed && state_is "failed" v1) eqn:Er.
  - apply andb_true_iff in Er as [Er Hf]. rewrite (Hretry Er) in *.
    eapply yields_mono; [|by eapply stage_ok]. intros v' (? & Hp & _). split; [done|]. exists it'.
    split; [done|]. simpl. by rewrite Hp.
  - apply yields_mret. split; [done|]. by exists it'.
Qed.
Lemma check_documents_ok n (documents : docs) :
  docs_ok retry n documents ->
  yields (check_documents items retry_failed (map (fun kv => (kv.1, JObj kv.2)) documents)) (run_ok retry n).
Proof.
  intros [Hv Ha Hkeys].
  assert (yields (check_documents items retry_failed (map (fun kv => (kv.1, JObj kv.2)) documents))
    (fun out => dkeys out = dkeys documents /\
       Forall (fun kv => value_ok retry (n kv.1) kv.2) out /\ Forall carries out)) as Hall.
  { clear Ha Hkeys. induction Hv as [|[d v] documents Hd _ IH]; cbn [map check_documents fst snd]; [by apply yields_mret|].
    eapply yields_bind; [by apply check_document_ok|]. intros v' [Hv' Hc].
    eapply yields_bind; [exact IH|]. intros rest (Hk & Hr & Hc'). apply yields_mret.
    split; [simpl; by rewrite <- Hk|]. split; by constructor. }
  eapply yields_mono; [|exact Hall]. intros out (Hk & Ho & Hc). split; [|done]. split; [done| |by rewrite Hk].
  intros d Hd. apply Ha. apply dget_None. rewrite <- Hk. by apply dget_None.
Qed.

(** A document whose operation is active: its entry becomes "submitted". *)
Definition idle (documents : docs) : Prop := Forall (fun kv => state_is "submitting" kv.2 = false) documents.
Section turn_facts.
Variable base : string.
Lemma adopted_ok n d it v' (documents : docs) :
  dget d items = Some it -> run_ok retry n documents ->
  dget "payload_hash" v' = Some (key_of_item it) -> state_is "retry_pending" v' = false ->
  dget "explicit_retries" v' = dget "explicit_retries" (default [] (dget d documents)) ->
  run_ok retry n (dset d v' documents).
Proof.
  intros Hit Hd Hh Hs Hr. apply run_ok_dset; [|by exists it|done].
  destruct (dget d documents) as [v|] eqn:E; simpl in Hr.
  - destruct (run_ok_get _ _ _ _ _ Hd E) as [Hv (it2 & Hi & Hp)]. simpl in *.
    eapply value_ok_update; [exact Hv|done| |done]. congruence.
  - destruct Hd as [[_ Ha _] _]. rewrite (Ha d E). apply value_ok_empty. unfold retries_of, int_or0. by rewrite Hr.
Qed.
Lemma adopt_ok n d operation_id it (documents : docs) :
  dget d items = Some it -> run_ok retry n documents ->
  yields (adopt base d operation_id it documents) (run_ok retry n).
Proof.
  intros Hit Hd. unfold adopt.
  apply yields_pure. intros terminal _. apply yields_then. intros u.
  destruct (_ && _).
  - apply yields_then. intros parent. apply yields_then. intros u'. apply yields_then. intros ids. apply yields_mret.
    apply (adopted_ok n d it); try done; unfold dupdate; cbn [foldl fst snd]; unfold state_is;
      repeat first [rewrite dget_dset_eq; done | rewrite dget_dset_ne by done]; done.
  - apply yields_mret.
    apply (adopted_ok n d it); try done; unfold dupdate; cbn [foldl fst snd]; unfold state_is;
      repeat first [rewrite dget_dset_eq; done | rewrite dget_dset_ne by done]; done.
Qed.

(** The operation ids of the remote queue *)
Definition operation_id_of (j : json F) : string :=
  match j with JObj d => first_str "id" "operation_id" d | _ => EmptyString end.
Lemma see_operation_ok n operation q : run_ok retry n (qu_documents q) ->
  yields (see_operation base items operation q)
    (fun q' => qu_active q' = operation_id_of operation :: qu_active q /\ run_ok retry n (qu_documents q')).
Proof.
  intros Hd. unfold see_operation. apply yields_pure. intros d Ho. destruct operation; try discriminate Ho.
  injection Ho as ->. apply yields_then. intros u. apply yields_then. intros [document_id|]; [|by apply yields_mret].
  destruct (dget document_id items) as [it|] eqn:Ei; [|by apply yields_mret].
  apply yields_then. intros u'. eapply yields_bind; [by eapply adopt_ok|]. intros documents Hd'. by apply yields_mret.
Qed.
Lemma see_operations_ok n l q : run_ok retry n (qu_documents q) ->
  yields (see_operations base items l q)
    (fun q' => qu_active q' = rev (map operation_id_of l) ++ qu_active q /\ run_ok retry n (qu_documents q')).
Proof.
  revert q. induction l as [|operation l IH]; intros q Hd; cbn [see_operations]; [by apply yields_mret|].
  eapply yields_bind; [by apply see_operation_ok|]. intros q1 [Ha1 Hd1].
  eapply yields_mono; [|by apply IH]. intros q2 [Ha2 Hd2]. split; [|done].
  rewrite Ha2, Ha1. simpl. by rewrite <- app_assoc.
Qed.
End turn_facts.

(** These operations post nothing and do not write. *)
Lemma request_calm base endpoint params body : only calm (request (F := F) base "GET" endpoint params body).
Proof.
  unfold request, circuit_opened, check. only_auto.
  unfold calm, posted. simpl. split; [|done]. by destruct body as [[]|].
Qed.
Hint Resolve request_calm : effects.
Lemma status_calm base id b : only calm (status (F := F) base id b).
Proof. apply request_calm. Qed.
Hint Resolve status_calm : effects.
Lemma check_calm b e : only calm (check (F := F) b e).
Proof. apply only_ret. Qed.
Hint Resolve check_calm : effects.
Lemma page_calm base s : only calm (page_of (F := F) base s).
Proof. unfold page_of. only_auto. Qed.
Hint Resolve page_calm : effects.
Lemma active_calm base : only calm (active (F := F) base).
Proof. unfold active. only_auto. Qed.
Lemma stage_calm v : only calm (stage_explicit_retry (F := F) v).
Proof. unfold stage_explicit_retry. only_auto. Qed.
Hint Resolve active_calm stage_calm : effects.
Lemma adopt_calm base d o it documents : only calm (adopt (F := F) base d o it documents).
Proof. unfold adopt. only_auto. Qed.
Hint Resolve adopt_calm : effects.
Lemma see_operation_calm base o q : only calm (see_operation (F := F) base items o q).
Proof. unfold see_operation. only_auto. Qed.
Hint Resolve see_operation_calm : effects.
Lemma see_operations_calm base l q : only calm (see_operations (F := F) base items l q).
Proof. revert q. induction l; intros; cbn [see_operations]; only_auto. Qed.
Lemma check_document_calm d v : only calm (check_document (F := F) items retry_failed d v).
Proof. unfold check_document. only_auto. Qed.
Hint Resolve see_operations_calm check_document_calm : effects.
Lemma check_documents_calm l : only calm (check_documents (F := F) items retry_failed l).
Proof. induction l as [|[d v] l IH]; cbn [check_documents]; only_auto. Qed.
End items.
#[local] Hint Resolve request_calm status_calm check_calm page_calm active_calm stage_calm adopt_calm see_operation_calm
  see_operations_calm check_document_calm check_documents_calm : effects.

(** ** The guard of a run *)

Section run.
Variable retry : bool.
(** What was posted in earlier runs *)
Variable before : string -> list row.
Variable path : string.
Definition total (h : hist) (d : string) : list row := posts d h ++ before d.
Definition also (d : string) (it : row) (n : string -> list row) : string -> list row :=
  fun d' => if bool_decide (d' = d) then it :: n d' else n d'.
(** The state file was written just now; it says "submitting" of this document and of no
    other, and leaves room for the post. *)
Definition announced (h : hist) (d : string) (it : row) : Prop :=
  exists state documents v h',
    h = Ev (WriteJson path (file_of state documents) : cact) (Ok tt) :: h' /\
    docs_ok retry (also d it (total h)) documents /\
    dget d documents = Some v /\ state_is "submitting" v = true /\ dget "payload_hash" v = Some (key_of_item it) /\
    forall d' v', (d', v') ∈ documents -> state_is "submitting" v' = true -> d' = d.
Definition run_guard (h : hist) (a : cact) : Prop :=
  match a with
  | WriteJson p j => p = path /\ file_ok retry (total h) (Some j)
  | a => forall d it, posted a = Some (d, it) -> announced h d it
  end.

Lemma calm_guard h a : calm a -> run_guard h a.
Proof. intros (Hp & Hw & _). destruct a; simpl; try (intros ? ? Hp2; unfold posted in *; congruence); done. Qed.
Lemma total_calm evs h d : Forall (fun e : event => calm (ev_action e)) evs -> total (evs ++ h) d = total h d.
Proof. intros He. unfold total. by rewrite posts_app, posts_calm. Qed.
Lemma total_step (a : cact) r h d : posted a = None -> total (Ev a r :: h) d = total h d.
Proof. intros Ha. unfold total. by rewrite posts_none. Qed.

Section turns.
Variable items : odict row.
Variable retry_failed : bool.
Hypothesis Hretry : retry_failed = true -> retry = true.
Hypothesis Hitems : forall d it, dget d items = Some it -> dget "document_id" it = Some (JStr d).
Hypothesis Hkeys : NoDup (dkeys items).
Variable state : row.
Variable base : string.

Lemma run_ok_calm evs h documents : Forall (fun e : event => calm (ev_action e)) evs ->
  run_ok items retry (total h) documents -> run_ok items retry (total (evs ++ h)) documents.
Proof. intros He [Hd Hc]. split; [|done]. eapply docs_ok_ext; [|exact Hd]. intros d. by rewrite total_calm. Qed.
Lemma run_ok_step (a : cact) r h documents : posted a = None ->
  run_ok items retry (total h) documents -> run_ok items retry (total (Ev a r :: h)) documents.
Proof. intros Ha [Hd Hc]. split; [|done]. eapply docs_ok_ext; [|exact Hd]. intros d. by rewrite total_step. Qed.

(** Calm programs, and writes of the state file *)
Lemma wpo_calm {A} (p : prog A) R h (Q : hist -> A -> Prop) :
  only calm p -> yields p R ->
  (forall evs a, Forall (fun e => calm (ev_action e)) evs -> R a -> Q (evs ++ h) a) ->
  wpo run_guard p h Q.
Proof. intros Hp HR HQ. eapply wpo_only_yields; [exact Hp|exact HR|apply calm_guard|]. auto. Qed.
Lemma wp_save documents h (Q : hist -> result unit -> Prop) :
  docs_ok retry (total h) documents ->
  (forall r, Q (Ev (WriteJson path (file_of state documents) : cact) r :: h) r) ->
  wp run_guard (save path state documents) h Q.
Proof. intros Hd HQ. split; [|done]. split; [done|]. by exists state, documents. Qed.
Lemma wpo_save documents h (Q : hist -> unit -> Prop) :
  docs_ok retry (total h) documents ->
  Q (Ev (WriteJson path (file_of state documents) : cact) (Ok tt) :: h) tt ->
  wpo run_guard (save path state documents) h Q.
Proof. intros Hd HQ. apply wp_save; [done|]. by intros [[]|e]. Qed.

Lemma idle_dset d v documents : state_is "submitting" v = false -> idle documents -> idle (dset d v documents).
Proof. intros Hv Hi. by apply (dset_Forall_key (fun kv => state_is "submitting" kv.2 = false)). Qed.
(** A new state of an entry *)
Lemma new_state_ok n d v v' s (documents : docs) :
  run_ok items retry n documents -> dget d documents = Some v ->
  dget "state" v' = Some (JStr s) -> s <> "retry_pending"%string ->
  dget "explicit_retries" v' = dget "explicit_retries" v -> dget "payload_hash" v' = dget "payload_hash" v ->
  run_ok items retry n (dset d v' documents).
Proof.
  intros Hd Hg Hs Hn Hr Hp. destruct (run_ok_get _ _ _ _ _ _ Hd Hg) as [Hv (it & Hi & Hh)].
  apply run_ok_dset; [|exists it; simpl in *; by rewrite Hp|done].
  eapply value_ok_update; [exact Hv|done|done|]. unfold state_is. rewrite Hs. simpl. by apply bool_decide_eq_false.
Qed.

Definition known (documents out : docs) : Prop :=
  forall d, dget d documents <> None -> dget d out <> None.
Lemma known_dset d v documents : known documents (dset d v documents).
Proof. intros d' Hd. rewrite dget_dset. by case_bool_decide. Qed.
(** After the events of this step nothing new is posted and the entries are in order. *)
Definition settled (h : hist) (documents : docs) (h' : hist) (out : docs) : Prop :=
  (exists evs, h' = evs ++ h /\ Forall (fun e : event => calm (ev_action e)) evs) /\
  run_ok items retry (total h') out /\ idle out /\ known documents out.
Lemma settle_guarded d documents h : dget d documents <> None ->
  run_ok items retry (total h) documents -> idle documents ->
  wpo run_guard (settle path base retry_failed state d documents) h (settled h documents).
Proof.
  intros Hg Hd Hi. destruct (dget d documents) as [v|] eqn:Hv; [clear Hg|done].
  unfold settle. rewrite Hv. change (default [] (Some v)) with v.
  apply wpo_bind, wpo_ret. intros operation_id _.
  apply wpo_bind. eapply wpo_calm; [auto with effects|apply yields_any|]. intros evs reply He _.
  apply wpo_bind, wpo_ret. intros dd _.
  pose proof (run_ok_calm evs h documents He Hd) as Hd1.
  assert (forall evs2 out, Forall (fun e : event => calm (ev_action e)) evs2 -> run_ok items retry (total (evs ++ h)) out ->
    idle out -> known documents out -> settled h documents (evs2 ++ evs ++ h) out) as Hend.
  { intros evs2 out He2 Ho Hio Hk. split; [exists (evs2 ++ evs); rewrite <- app_assoc; split; [done|by apply Forall_app]|].
    split; [by apply run_ok_calm|done]. }
  destruct (bool_decide _); [|destruct (bool_decide _)].
  - apply wpo_bind, (wpo_act run_guard (NowIso : cact)); [by apply calm_guard|]. intros now. apply wpo_mret.
    apply (Hend [_]); [by repeat constructor|..|apply known_dset].
    + eapply new_state_ok; [exact Hd1|exact Hv|unfold dupdate; cbn [foldl fst snd]..]; try done;
        repeat first [rewrite dget_dset_eq; done | rewrite dget_dset_ne by done]; done.
    + apply idle_dset; [|done]. unfold state_is, dupdate; cbn [foldl fst snd]. by rewrite dget_dset_ne, dget_dset_eq.
  - set (error := if otruthy _ then _ else _). set (v2 := dupdate v _).
    assert (forall k, k <> "state"%string -> k <> "error"%string -> dget k v2 = dget k v) as Hk2.
    { intros k ? ?. unfold v2, dupdate. cbn [foldl fst snd]. by rewrite !dget_dset_ne. }
    assert (dget "state" v2 = Some (JStr "failed")) as Hs2.
    { unfold v2, dupdate. cbn [foldl fst snd]. by rewrite dget_dset_ne, dget_dset_eq. }
    assert (run_ok items retry (total (evs ++ h)) (dset d v2 documents)) as Hd2.
    { eapply new_state_ok; [exact Hd1|exact Hv|exact Hs2|done|by apply Hk2|by apply Hk2]. }
    assert (state_is "submitting" v2 = false) as Hn2 by (unfold state_is; by rewrite Hs2).
    apply wpo_bind, wpo_ret. intros again Ha. destruct again.
    + assert (retry_failed = true) as Hf by (by destruct retry_failed).
      assert (value_ok true (total (evs ++ h) d) v2 /\ carries items (d, v2)) as [Hv2 (it & Hit & Hp)].
      { rewrite <- (Hretry Hf). eapply run_ok_get; [exact Hd2|apply dget_dset_eq]. }
      apply wpo_bind. eapply wpo_calm; [apply stage_calm|apply stage_ok; [unfold state_is; by rewrite Hs2|exact Hv2]|].
      intros evs2 v3 He2 (Hv3 & Hp3 & Hs3). apply wpo_mret. apply Hend; [done|..|apply known_dset].
      * apply run_ok_dset; [by rewrite (Hretry Hf)|exists it; simpl in *; by rewrite Hp3|done].
      * by apply idle_dset.
    + destruct (found _).
      * apply wpo_bind, wpo_save; [apply Hd2|]. by apply wpo_ret.
      * apply wpo_mret. apply (Hend []); [constructor|done|by apply idle_dset|apply known_dset].
  - apply wpo_mret. apply (Hend []); [constructor|done|done|by intros d'].
Qed.
Lemma settle_all_guarded ids documents h : Forall (fun d => dget d documents <> None) ids ->
  run_ok items retry (total h) documents -> idle documents ->
  wpo run_guard (settle_all path base retry_failed state ids documents) h (settled h documents).
Proof.
  revert documents h. induction ids as [|d ids IH]; intros documents h Hg Hd Hi; cbn [settle_all].
  - apply wpo_mret. split; [by exists []|]. split; [done|]. split; [done|by intros d].
  - apply Forall_cons in Hg as [Hg Hgs]. apply wpo_bind. eapply wpo_post; [by apply settle_guarded|].
    intros h1 out ((evs & -> & He) & Ho & Hio & Hk). eapply wpo_post.
    + apply IH; [|done|done]. eapply Forall_impl; [exact Hgs|]. exact Hk.
    + intros h2 out2 ((evs2 & -> & He2) & Ho2 & Hio2 & Hk2). split; [exists (evs2 ++ evs); rewrite <- app_assoc; split; [done|by apply Forall_app]|].
      split; [done|]. split; [done|]. intros d' Hd'. by apply Hk2, Hk.
Qed.

(** The request of an item *)
Lemma posted_retain url d it : dget "document_id" it = Some (JStr d) ->
  posted (Request "POST" url [] (Some (retain_body it)) : cact) = Some (d, it).
Proof. intros Hd. unfold posted, retain_body. simpl. by rewrite Hd. Qed.
Lemma retain_guarded d it h (Q : hist -> result string -> Prop) :
  dget "document_id" it = Some (JStr d) -> announced h d it ->
  (forall r r', Q (Ev (Request "POST" (base +:+ "/memories") [] (Some (retain_body it)) : cact) r :: h) r') ->
  wp run_guard (retain base it) h Q.
Proof.
  intros Hd Ha HQ. unfold retain, request.
  assert (forall (p : prog string) h', only (fun _ => False) p -> (forall r', Q h' r') -> wp run_guard p h' Q) as Hpure.
  { intros p h' Hp HQ'. eapply wp_only; [exact Hp|done|]. intros evs r Hf _. destruct evs; [apply HQ'|]. by inversion Hf. }
  split.
  - intros d' it' Hp.
    rewrite (posted_retain _ d it Hd) in Hp. by injection Hp as <- <-.
  - intros r. apply Hpure; [|apply HQ]. destruct r as [[st content]|e]; [|apply only_ret].
    unfold circuit_opened, check. repeat first [apply only_pbind; [|intros ?; cbv beta] | only_step].
Qed.
Lemma total_post url d it r h : dget "document_id" it = Some (JStr d) ->
  forall d', total (Ev (Request "POST" url [] (Some (retain_body it)) : cact) r :: h) d' = also d it (total h) d'.
Proof.
  intros Hd d'. unfold total, also. simpl posts. unfold posts_of.
  change (ev_action (Ev (Request "POST" url [] (Some (retain_body it)) : cact) r)) with (Request "POST" url [] (Some (retain_body it)) : cact).
  rewrite (posted_retain _ d it Hd). destruct (decide (d' = d)) as [->|Hn].
  - by rewrite !bool_decide_eq_true_2.
  - by rewrite !bool_decide_eq_false_2 by congruence.
Qed.
Lemma docs_ok_also n d it v documents :
  docs_ok retry n documents -> dget d documents = Some v ->
  value_ok retry (it :: n d) v -> docs_ok retry (also d it n) documents.
Proof.
  intros [Hv Ha Hk] Hg Hn. split; [| |done].
  - rewrite Forall_forall in *. intros [d' v'] Hin. unfold also. simpl. case_bool_decide as E; [|by apply (Hv (d', v'))].
    subst d'. apply dget_elem in Hin; [|done]. congruence.
  - intros d' Hd'. unfold also. rewrite bool_decide_eq_false_2 by congruence. by apply Ha.
Qed.

(** A document that may be posted: it has no entry, or a retry is pending. *)
Definition waiting (documents : docs) (d : string) : Prop :=
  match dget d documents with None => True | Some v => state_is "retry_pending" v = true end.
Definition submitted_from (d : string) (documents : docs) (h' : hist) (out : docs) : Prop :=
  run_ok items retry (total h') out /\ idle out /\ forall d', d' <> d -> dget d' out = dget d' documents.

Lemma prior_room n d it (documents : docs) v :
  run_ok items retry n documents -> waiting documents d -> dget d items = Some it ->
  retries_of (default [] (dget d documents)) = retries_of v -> state_is "retry_pending" v = false ->
  dget "payload_hash" v = Some (key_of_item it) ->
  value_ok retry (n d) v /\ value_ok retry (it :: n d) v.
Proof.
  intros [[Hv Ha _] Hc] Hw Hit Hr Hs Hp. unfold waiting in Hw. destruct (dget d documents) as [w|] eqn:E; simpl in Hr.
  - apply dget_Some_elem in E. rewrite Forall_forall in Hv, Hc. destruct (Hv _ E) as [(r & Hr' & Hb & Hl) Hpay].
    destruct (Hc _ E) as (it2 & Hi2 & Hp2). simpl in *. assert (it2 = it) as -> by congruence. rewrite Hw in Hl.
    assert (Forall (fun it' => dget "payload_hash" v = Some (key_of_item it')) (n d)) as Hpay'.
    { eapply Forall_impl; [exact Hpay|]. intros it'. simpl. congruence. }
    split; (split; [exists r; rewrite <- Hr, Hs; simpl; split; [done|lia]|]); [done|by constructor].
  - rewrite (Ha d E). split; [apply value_ok_empty; by rewrite <- Hr|]. split; [|by repeat constructor].
    exists 0. rewrite <- Hr, Hs. split; [done|]. destruct retry; simpl; lia.
Qed.
Lemma dget_dupdate_ne k (d e : row) : k ∉ dkeys e -> dget k (dupdate d e) = dget k d.
Proof.
  unfold dupdate. revert d. induction e as [|[k' v] e IH]; intros d Hk; [done|]. cbn [foldl fst snd].
  apply not_elem_of_cons in Hk as [Hn Hk]. rewrite IH by done. by rewrite dget_dset_ne.
Qed.
(** The entry of a document that is being submitted, and what becomes of it *)
Definition entry (it : row) (now : string) (retries : Z) (history : list (json F)) : row :=
  [("state", JStr "submitting"); ("payload_hash", JStr (stable_key (JObj it)));
   ("started_at", JStr now); ("explicit_retries", JInt retries); ("retry_history", JArr history)]%string.
Record entry_ok (it : row) (prior : row) (s : string) (v : row) : Prop := {
  eo_pending : state_is "retry_pending" v = false;
  eo_state : dget "state" v = Some (JStr s);
  eo_payload : dget "payload_hash" v = Some (key_of_item it);
  eo_retries : retries_of prior = retries_of v;
}.
Lemma entry_submitting it now retries history prior :
  retries_of prior = Ok retries -> entry_ok it prior "submitting" (entry it now retries history).
Proof.
  intros Hr. split; try done. rewrite Hr. unfold retries_of, int_or0, entry. simpl.
  by destruct (Z.eqb_spec retries 0) as [->|].
Qed.
Lemma entry_update it prior s s' k j v :
  entry_ok it prior s v -> s' <> "retry_pending"%string ->
  k <> "payload_hash"%string -> k <> "explicit_retries"%string -> k <> "state"%string ->
  entry_ok it prior s' (dupdate v [("state"%string, JStr s'); (k, j)]).
Proof.
  intros [Hp Hst Hh Hr] Hs H1 H2 H3. unfold dupdate. cbn [foldl fst snd].
  split; unfold state_is, retries_of, int_or0 in *; rewrite ?(dget_dset_ne k), ?dget_dset_eq, ?(dget_dset_ne "state") by done; try done.
  simpl. by apply bool_decide_eq_false.
Qed.
Lemma submit_guarded d it documents h :
  run_ok items retry (total h) documents -> idle documents -> waiting documents d -> dget d items = Some it ->
  wpo run_guard (submit path base state d it documents) h (submitted_from d documents).
Proof.
  intros Hd Hi Hw Hit. unfold submit. set (prior := default [] (dget d documents)).
  apply wpo_bind, (wpo_act run_guard (NowIso : cact)); [by apply calm_guard|]. intros now.
  apply wpo_bind, wpo_ret. intros retries Hr. apply wpo_bind, wpo_ret. intros history _.
  change [("state"%string, JStr "submitting"); _; _; _; _] with (entry it now retries history).
  set (v := entry it now retries history). set (h1 := Ev (NowIso : cact) (Ok now) :: h).
  assert (run_ok items retry (total h1) documents) as Hd1 by by apply (run_ok_step (NowIso : cact)).
  assert (entry_ok it prior "submitting" v) as Hv by by apply entry_submitting. destruct (Hv) as [Hs0 Hs1 Hs2 Hs3].
  destruct (prior_room (total h1) d it documents v Hd1 Hw Hit Hs3 Hs0 Hs2) as [Hroom Hroom'].
  assert (run_ok items retry (total h1) (dset d v documents)) as Hd2 by (apply run_ok_dset; [done|by exists it|done]).
  apply wpo_bind, wpo_save; [apply Hd2|]. set (h2 := Ev _ _ :: h1).
  assert (forall d', total h2 d' = total h1 d') as Ht by (intros d'; by apply total_step).
  assert (docs_ok retry (total h2) (dset d v documents)) as Hd3 by (eapply docs_ok_ext; [|apply Hd2]; done).
  apply wpo_bind. apply wp_attempt, (retain_guarded d); [by apply Hitems| |].
  { exists state, (dset d v documents), v, h1. split; [done|]. split.
    - apply (docs_ok_also _ d it v); [done|apply dget_dset_eq|by rewrite Ht].
    - split; [apply dget_dset_eq|]. split; [unfold state_is; by rewrite Hs1|]. split; [done|]. intros d' v' Hin Hsub.
      assert (Forall (fun kv => state_is "submitting" kv.2 = true -> kv.1 = d) (dset d v documents)) as Hall.
      { apply dset_Forall_key; [done|]. eapply Forall_impl; [exact Hi|]. intros [d2 v2] E. simpl in *. congruence. }
      rewrite Forall_forall in Hall. by apply (Hall _ Hin). }
  intros r r'. set (h3 := Ev _ r :: h2).
  assert (forall d', total h3 d' = also d it (total h2) d') as Ht3 by (intros d'; apply total_post; by apply Hitems).
  assert (forall s v', entry_ok it prior s v' -> run_ok items retry (total h3) (dset d v' documents)) as Hd4.
  { intros s v' [Hs' _ Hp' Hr']. split; [|apply dset_Forall_key; [by exists it|apply Hd1]].
    eapply docs_ok_ext; [intros d'; symmetry; apply Ht3|].
    destruct (prior_room (total h1) d it documents v' Hd1 Hw Hit Hr' Hs' Hp') as [Hr1 Hr2].
    apply (docs_ok_also _ d it v'); [|apply dget_dset_eq|by rewrite Ht].
    eapply docs_ok_ext; [intros d'; symmetry; apply Ht|]. apply docs_ok_dset; [done|apply Hd1]. }
  destruct r' as [operation_id|e]; cbn [wp].
  - assert (entry_ok it prior "submitted" (dupdate v [("state"%string, JStr "submitted"); ("operation_id"%string, JStr operation_id)])) as Hv'
      by by apply (entry_update _ _ "submitting").
    apply wpo_bind, wpo_save; [by eapply Hd4|]. apply wpo_mret. split; [by eapply run_ok_step, Hd4|]. split.
    + apply idle_dset; [unfold state_is; by rewrite (eo_state _ _ _ _ Hv')|done].
    + intros d' Hn. by rewrite dget_dset_ne.
  - destruct (is_exception e); [|done]. cbn [wp]. apply wpo_bind, wpo_save; [|by apply wpo_ret].
    eapply Hd4. by apply (entry_update _ _ "submitting").
Qed.
Lemma submit_all_guarded l documents h :
  NoDup (dkeys l) -> Forall (fun kv => dget kv.1 items = Some kv.2 /\ waiting documents kv.1) l ->
  run_ok items retry (total h) documents -> idle documents ->
  wpo run_guard (submit_all path base state l documents) h (fun h' out => run_ok items retry (total h') out).
Proof.
  revert documents h. induction l as [|[d it] l IH]; intros documents h Hk Hl Hd Hi; cbn [submit_all]; [by apply wpo_mret|].
  apply Forall_cons in Hl as [[Hit Hw] Hl]. apply NoDup_cons in Hk as [Hn Hk]. simpl in *.
  apply wpo_bind. eapply wpo_post; [by apply submit_guarded|]. intros h1 out (Ho & Hio & Hsame).
  apply IH; [done| |done|done]. rewrite Forall_forall in *. intros [d' it'] Hin. destruct (Hl _ Hin) as [? Hw']. split; [done|].
  unfold waiting in *. simpl in *. rewrite Hsame; [done|]. intros ->. apply Hn. by apply (list_elem_of_fmap_2 fst _ (d, it')).
Qed.

Lemma idle_counted (documents : docs) : (0 <? count_in "submitting" documents) = false -> idle documents.
Proof.
  intros Hc. apply Z.ltb_ge in Hc. unfold count_in, ids_in, dkeys in Hc.
  apply Forall_forall. intros kv Hin. destruct (state_is "submitting" kv.2) eqn:E; [|done]. exfalso.
  assert (In kv (List.filter (fun kv => state_is "submitting" kv.2) documents)) as Hf.
  { apply filter_In. split; [by apply list_elem_of_In|done]. }
  rewrite length_fmap in Hc. destruct (List.filter _ _); [done|]. simpl in Hc. lia.
Qed.
Lemma ids_in_known s (documents : docs) : Forall (fun d => dget d documents <> None) (ids_in s documents).
Proof.
  apply Forall_forall. intros d Hd Hn. unfold ids_in in Hd. apply dget_None in Hn. apply Hn. unfold dkeys in *.
  apply list_elem_of_fmap in Hd as (kv & -> & Hin). apply list_elem_of_In, filter_In in Hin as [Hin _].
  apply list_elem_of_fmap_2. by apply list_elem_of_In.
Qed.
Lemma available_ok n (documents : docs) :
  let l := take n (available items documents) in
  NoDup (dkeys l) /\ Forall (fun kv => dget kv.1 items = Some kv.2 /\ waiting documents kv.1) l.
Proof.
  assert (forall P (d : odict row), NoDup (dkeys d) -> NoDup (dkeys (List.filter P d))) as Hf.
  { clear. intros P d. unfold dkeys. induction d as [|[k v] d IH]; simpl; [done|]. intros [Hk Hd]%NoDup_cons.
    destruct (P (k, v)); [|auto]. simpl. constructor; [|auto]. intros Hin. apply Hk.
    apply list_elem_of_fmap in Hin as (kv & -> & Hin). apply list_elem_of_In, filter_In in Hin as [Hin _].
    apply list_elem_of_fmap_2. by apply list_elem_of_In. }
  split.
  - unfold dkeys. rewrite fmap_take. eapply sublist_NoDup; [by apply Hf|apply sublist_take].
  - apply Forall_take, Forall_forall. intros [d it] Hin. apply list_elem_of_In, filter_In in Hin as [Hin Hw].
    split; [by apply dget_elem; [|apply list_elem_of_In]|]. unfold waiting. simpl in *. by destruct (dget d documents).
Qed.
Variable variant : string.
Lemma turn_guarded documents h : run_ok items retry (total h) documents ->
  wpo run_guard (turn path base variant items retry_failed state documents) h
    (fun h' r => match r with inl out => run_ok items retry (total h') out | inr _ => True end).
Proof.
  intros Hd. unfold turn. apply wpo_bind. eapply wpo_calm; [auto with effects|apply yields_any|]. intros evs ops He _.
  apply (run_ok_calm evs h) in Hd; [|done]. revert Hd. generalize (evs ++ h). clear h evs He. intros h Hd.
  apply wpo_bind. eapply wpo_calm; [auto with effects|by apply (see_operations_ok items retry base (total h))|].
  intros evs q He [_ Hq]. apply (run_ok_calm evs h) in Hq; [|done]. revert Hq. generalize (evs ++ h). clear h Hd evs He. intros h Hq.
  apply wpo_bind, wpo_save; [apply Hq|]. apply (run_ok_step (WriteJson path (file_of state (qu_documents q)) : cact) (Ok tt)) in Hq; [|done].
  revert Hq. generalize (Ev (WriteJson path (file_of state (qu_documents q)) : cact) (Ok tt) :: h). clear h. intros h Hq.
  apply wpo_bind, wpo_ret. intros [] Hc%raise_if_Ok%idle_counted.
  apply wpo_bind. eapply wpo_post; [apply settle_all_guarded; [apply ids_in_known|done|done]|].
  intros h1 out (_ & Ho & Hio & _).
  apply wpo_bind, wpo_save; [apply Ho|]. apply (run_ok_step (WriteJson path (file_of state out) : cact) (Ok tt)) in Ho; [|done].
  apply wpo_bind, wpo_ret. intros [o|] _; [by apply wpo_mret|].
  destruct (available_ok (capacity q out) out) as [Hn Ha].
  apply wpo_bind. eapply wpo_post; [by apply submit_all_guarded|]. intros h2 out2 Ho2.
  apply wpo_bind, (wpo_act run_guard (Wait (f_of_Z 5) : cact)); [by apply calm_guard|]. intros []. apply wpo_mret.
  by apply run_ok_step.
Qed.
Lemma turns_guarded fuel documents h : run_ok items retry (total h) documents ->
  wpo run_guard (turns path base variant items retry_failed state fuel documents) h (fun _ _ => True).
Proof.
  revert documents h. induction fuel as [|fuel IH]; intros documents h Hd; cbn [turns]; [done|].
  apply wpo_bind. eapply wpo_post; [by apply turn_guarded|]. intros h' [out|o] Ho; [by apply IH|done].
Qed.
End turns.

(** ** A whole run *)

#[local] Opaque stake.
Lemma items_ok variant cards seen corpus (items : odict row) :
  items_of variant cards seen corpus = Ok items ->
  (forall d it, (d, it) ∈ items -> dget "document_id" it = Some (JStr d) /\ d ∉ seen) /\ NoDup (dkeys items).
Proof.
  revert seen items. induction corpus as [|record corpus IH]; intros seen items Hi; cbn [items_of] in Hi.
  - injection Hi as <-. split; [set_solver|constructor].
  - apply bind_Ok in Hi as ([d it] & Hc & (l & Hl & [= <-])%bind_Ok). apply IH in Hl as [Hl Hn].
    unfold canary_item in Hc.
    apply bind_Ok in Hc as (content & _ & (u1 & _ & (source & _ & (document & _ & (u2 & Hs & [= <- <-])%bind_Ok)%bind_Ok)%bind_Ok)%bind_Ok).
    apply raise_if_Ok, bool_decide_eq_false in Hs.
    split.
    + cbn [fst] in Hl. intros d' it' [[= -> ->]|Hin]%elem_of_cons; [done|]. destruct (Hl _ _ Hin) as [? Hd].
      split; [done|]. set_solver.
    + simpl. constructor; [|done]. intros Hin. apply list_elem_of_fmap in Hin as ([d' it'] & Hd' & Hin). simpl in Hd'. subst d'.
      destruct (Hl _ _ Hin) as [_ Hd]. set_solver.
Qed.

Variable env : odict string.
Definition proper (items : odict row) : Prop :=
  (forall d it, dget d items = Some it -> dget "document_id" it = Some (JStr d)) /\ NoDup (dkeys items).
Lemma proper_prefix n items : proper items -> proper (take n items).
Proof.
  intros [Hi Hk]. split.
  - intros d it Hd. apply Hi. apply dget_Some_elem in Hd. apply dget_elem; [done|].
    rewrite <- (take_drop n items). apply elem_of_app. by left.
  - unfold dkeys. rewrite fmap_take. eapply sublist_NoDup; [exact Hk|apply sublist_take].
Qed.
Lemma retain_items_proper a : yields (retain_items env a) proper.
Proof.
  unfold retain_items. apply yields_then. intros u. apply yields_then. intros u1. apply yields_then. intros cards.
  apply yields_then. intros u2. apply yields_then. intros corpus. apply yields_pure. intros items Hi.
  assert (proper items) as Hp.
  { unfold canary_items in Hi. apply bind_Ok in Hi as (by_id & _ & Hi). apply items_ok in Hi as [Hd Hn].
    split; [|done]. intros d it Hg. by eapply Hd, dget_Some_elem. }
  destruct (ra_limit a) as [limit|]; [|by apply yields_mret]. apply yields_then. intros u3. by apply yields_mret, proper_prefix.
Qed.
Lemma read_jsonl_calm p : only calm (read_jsonl (F := F) p).
Proof. unfold read_jsonl. only_auto. Qed.
Lemma retain_preflight_calm : only calm (retain_preflight (F := F) env).
Proof. unfold retain_preflight, key_preflight. only_auto. Qed.
Hint Resolve read_jsonl_calm retain_preflight_calm : effects.
Lemma retain_items_calm a : only calm (retain_items (F := F) env a).
Proof. unfold retain_items. only_auto. Qed.
Lemma ensure_bank_calm base : only calm (ensure_bank (F := F) base).
Proof. unfold ensure_bank, circuit_opened. only_auto. Qed.
Hint Resolve retain_items_calm ensure_bank_calm : effects.

(** Every state file this run has read so far is as it should be. *)
Definition reading (e : event) : option (option (json F)) :=
  let 'Ev a r := e in
  match a as a return result (canswer a) -> option (option (json F)) with
  | ReadJson p => fun r => match r with Ok content => if bool_decide (p = path) then Some content else None | Raise _ => None end
  | _ => fun _ => None
  end r.
Definition read_well (h : hist) : Prop :=
  forall e content, e ∈ h -> reading e = Some content -> file_ok retry before content.
Lemma read_well_tail e h : read_well (e :: h) -> read_well h.
Proof. intros Hr e' content Hin. apply Hr. by right. Qed.

(** From the state file on *)
Lemma loaded_guarded fuel a h items content :
  ra_state a = path -> (ra_retry_failed a = true -> retry = true) -> proper items -> file_ok retry before content ->
  (forall d, total h d = before d) ->
  wpo run_guard
    (state ← PRet (match content with Some j => obj j | None => Ok [("documents"%string, JObj [])] end);
     stored ← PRet (match dget "documents" state with Some j => obj j | None => Ok [] end);
     check (negb (bool_decide (List.filter (fun id => negb (dmem id items)) (dkeys stored) = [])))
       (SafetyStop ("state contains documents outside this corpus: " +:+
          str_of_Z (Z.of_nat (length (List.filter (fun id => negb (dmem id items)) (dkeys stored))))));;
     documents ← check_documents items (ra_retry_failed a) stored;
     save path state documents;;
     turns path (bank_url a) (ra_variant a) items (ra_retry_failed a) state fuel documents) h (fun _ _ => True).
Proof.
  intros Hp Hr [Hi Hk] Hf Ht. apply wpo_bind, wpo_ret. intros state Hst. apply wpo_bind, wpo_ret. intros stored Hso.
  assert (exists documents, stored = map (fun kv => (kv.1, JObj kv.2)) documents /\ docs_ok retry (total h) documents) as (documents & -> & Hd).
  { destruct content as [j|]; simpl in Hf.
    - destruct Hf as (st & documents & -> & Hd). injection Hst as <-. rewrite dget_dset_eq in Hso. injection Hso as <-.
      exists documents. split; [done|]. eapply docs_ok_ext; [|exact Hd]. intros d. by rewrite Ht.
    - injection Hst as <-. injection Hso as <-. exists []. split; [done|]. split; [constructor| |constructor].
      intros d _. by rewrite Ht. }
  apply wpo_bind, wpo_ret. intros [] _.
  apply wpo_bind. eapply wpo_calm; [auto with effects|by apply (check_documents_ok items _ retry Hr (total h))|].
  intros evs out He Ho. apply (run_ok_calm items evs h) in Ho; [|done].
  apply wpo_bind, wpo_save; [apply Ho|]. apply turns_guarded; [done..|]. by apply run_ok_step.
Qed.
Lemma retain_guarded_run fuel a :
  ra_state a = path -> (ra_retry_failed a = true -> retry = true) ->
  wp (fun h a => read_well h -> run_guard h a) (retain_canary env fuel a) [] (fun _ _ => True).
Proof.
  intros Hp Hr. unfold retain_canary. rewrite Hp.
  apply wp_post with (Q := fun h r => match r with Ok a => True | Raise _ => True end); [|done].
  apply wpo_bind. eapply wpo_only_yields; [apply retain_items_calm|apply retain_items_proper|by intros; apply calm_guard|].
  intros evs items He _ Hi. rewrite app_nil_r.
  apply wpo_bind. eapply wpo_only; [apply ensure_bank_calm|by intros; apply calm_guard|]. intros evs2 u He2 _.
  set (h := evs2 ++ evs). assert (forall d, posts d h = []) as Hn.
  { intros d. unfold h. by rewrite posts_app, !posts_calm. }
  unfold load_state. apply wpo_bind, wpo_bind. split; [by intros _|]. intros [content|e]; [|done].
  set (h1 := Ev _ _ :: h).
  assert (read_well h1 -> file_ok retry before content) as Hf.
  { intros Hw. apply (Hw (Ev (ReadJson path : cact) (Ok content))); [left|]. simpl. by rewrite bool_decide_eq_true_2. }
  assert (forall d, total h1 d = before d) as Ht.
  { intros d. unfold h1. rewrite total_step by done. unfold total. by rewrite Hn. }
  pose proof (fun Hw => loaded_guarded fuel a h1 items content Hp Hr Hi (Hf Hw) Ht) as Hl.
  cbn [wp]. destruct (match content with Some j => obj j | None => _ end) as [state|e]; [|done].
  apply wpo_mret. eapply wp_post; [apply (wp_given read_well run_guard)|by intros ? []]; [apply read_well_tail|exact Hl].
Qed.

(** ** One life of the program *)

(** [disk d h x]: after the history [h] of a run that found [d], the state file may be
    [x]; a write that raised may or may not have replaced it, and a read tells the truth. *)
Fixpoint disk (d : option (json F)) (h : hist) (x : option (json F)) : Prop :=
  match h with
  | [] => x = d
  | Ev a r :: h =>
      match a as a return result (canswer a) -> Prop with
      | WriteJson p j => fun r =>
          if bool_decide (p = path) then
            exists y, disk d h y /\ (x = Some j \/ (is_ok r = false /\ x = y))
          else disk d h x
      | ReadJson p => fun r =>
          disk d h x /\ (p = path -> match r with Ok content => content = x | Raise _ => True end)
      | _ => fun _ => disk d h x
      end r
  end.

(** What was posted when [p] is left of a run with history [h]: an action that was
    started may have happened. *)
Definition posted_by (p : prog (outcome (F := F))) (h : hist) (d : string) : list row :=
  match next_action p with Some a => posts_of d a ++ posts d h | None => posts d h end.
(** What the state file may be then *)
Definition left_on_disk (d : option (json F)) (p : prog (outcome (F := F))) (h : hist) (x : option (json F)) : Prop :=
  disk d h x \/ exists j y, next_action p = Some (WriteJson path j : cact) /\ disk d h y /\ x = Some j.

Lemma announced_also h d it x d0 : announced h d it -> disk d0 h x -> file_ok retry (also d it (total h)) x.
Proof.
  intros (state & documents & v & h' & -> & Hd & _). cbn [disk]. rewrite bool_decide_eq_true_2 by done.
  intros (y & _ & [->|[Hr _]]); [|discriminate Hr]. by exists state, documents.
Qed.
(** The state file keeps track of what was posted. *)
Definition tracked (d : option (json F)) (h : hist) : Prop :=
  forall x, disk d h x -> file_ok retry (total h) x /\ read_well h.
Lemma posts_of_some d (a : cact) it d' : posted a = Some (d, it) -> posts_of d' a = if bool_decide (d = d') then [it] else [].
Proof. unfold posts_of. by intros ->. Qed.
Lemma disk_before d h (a : cact) r x : disk d (Ev a r :: h) x -> exists y, disk d h y.
Proof. destruct a; simpl; try (by exists x); [intros [? _]; by exists x|]. case_bool_decide; [|by exists x]. intros (y & ? & _). by exists y. Qed.
(** An action that is guarded leaves the file as it should be, done or not. *)
Lemma tracked_file d h (a : cact) x y : run_guard h a -> disk d h y -> file_ok retry (total h) y ->
  x = y \/ (exists j, a = WriteJson path j /\ x = Some j) ->
  file_ok retry (fun d' => posts_of d' a ++ total h d') x.
Proof.
  intros Hg Hy Hok Hx. destruct (posted a) as [[d1 it]|] eqn:Hp.
  - assert (x = y) as ->. { destruct Hx as [->|(j & -> & _)]; [done|discriminate Hp]. }
    assert (announced h d1 it) as Ha by (destruct a; try discriminate Hp; by apply Hg).
    pose proof (announced_also _ _ _ _ _ Ha Hy) as Hf. eapply file_ok_fewer; [|exact Hf]. intros d'. exists [].
    rewrite (posts_of_some _ _ _ _ Hp). unfold also. destruct (decide (d' = d1)) as [->|Hn].
    + by rewrite !bool_decide_eq_true_2.
    + by rewrite !bool_decide_eq_false_2 by congruence.
  - eapply (file_ok_fewer retry _ (total h)); [intros d'; exists []; unfold posts_of; by rewrite Hp|].
    destruct Hx as [->|(j & -> & ->)]; [done|]. by apply Hg.
Qed.
Lemma tracked_step d h (a : cact) r : tracked d h -> (read_well h -> run_guard h a) -> tracked d (Ev a r :: h).
Proof.
  intros Ht Hg x Hx. destruct (disk_before _ _ _ _ _ Hx) as [y Hy]. destruct (Ht y Hy) as [Hok Hrw]. specialize (Hg Hrw).
  assert (x = y \/ (exists j, a = WriteJson path j /\ x = Some j) \/ disk d h x) as Hcase.
  { destruct a; simpl in Hx; try (by right; right).
    - destruct Hx as [Hx _]. by right; right.
    - destruct Hg as [-> _]. rewrite bool_decide_eq_true_2 in Hx by done. destruct Hx as (z & Hz & [->|[_ ->]]); [|by right; right].
      right. left. by eexists. }
  assert (file_ok retry (total (Ev a r :: h)) x) as Hfile.
  { change (total (Ev a r :: h)) with (fun d' => (posts_of d' a ++ posts d' h) ++ before d').
    eapply (file_ok_fewer retry _ (fun d' => posts_of d' a ++ total h d')).
    { intros d'. exists []. unfold total. by rewrite app_assoc. }
    destruct Hcase as [->|[Hw|Hx']]; [by apply (tracked_file d h a y y); auto|by apply (tracked_file d h a x y); auto|].
    apply (tracked_file d h a x x); auto. by apply Ht. }
  split; [done|]. intros e content [->|Hin]%elem_of_cons Hr; [|by eapply Hrw].
  destruct a; simpl in Hr; try discriminate Hr. destruct r as [c|?]; [|discriminate Hr].
  case_bool_decide as Hpath; [|discriminate Hr]. injection Hr as ->. simpl in Hx. destruct Hx as [Hx Hc]. specialize (Hc Hpath). subst.
  eapply file_ok_fewer; [|exact Hfile]. intros d'. by eexists.
Qed.

Lemma run_tracked fuel a d p h :
  ra_state a = path -> (ra_retry_failed a = true -> retry = true) -> file_ok retry before d ->
  steps (retain_canary env fuel a) [] p h -> tracked d h /\ forall b, next_action p = Some b -> read_well h -> run_guard h b.
Proof.
  intros Hp Hr Hd Hs. pose proof (retain_guarded_run fuel a Hp Hr) as Hw. split.
  - apply (wp_invariant (tracked d) _ _ _ _ _ _ (tracked_step d) Hw Hs).
    intros x ->. split; [done|]. by intros e content Hin%not_elem_of_nil.
  - intros b Hb. destruct p as [|b' k|]; try discriminate Hb. injection Hb as ->. apply (wp_guard _ _ _ _ _ _ _ Hw Hs).
Qed.
End run.

(** ** All lives of the program over one state file *)

(** [lives path retry x n]: after some runs over the state file at [path], each one ended
    or killed anywhere, the file is [x] and [n] was posted; [retry] says whether a run
    was started with --retry-failed. *)
Inductive lives (path : string) (retry : bool) : option (json F) -> (string -> list row) -> Prop :=
  | lives_none : lives path retry None (fun _ => [])
  | lives_run d n env fuel a p h x :
      lives path retry d n -> ra_state a = path -> (ra_retry_failed a = true -> retry = true) ->
      steps (retain_canary env fuel a) [] p h -> left_on_disk path d p h x ->
      lives path retry x (fun d => posted_by p h d ++ n d).

Lemma lives_tracked path retry x n : lives path retry x n -> file_ok retry n x.
Proof.
  induction 1 as [|d n env fuel a p h x _ Hd Hp Hr Hs Hx]; [done|].
  destruct (run_tracked retry n path env fuel a d p h Hp Hr Hd Hs) as [Ht Hg].
  assert (exists y, disk path d h y /\ (x = y \/ exists j, next_action p = Some (WriteJson path j : cact) /\ x = Some j)) as (y & Hy & Hxy).
  { destruct Hx as [Hx|(j & y & Ha & Hy & ->)]; [exists x; by auto|exists y; split; [done|right; by exists j]]. }
  destruct (Ht y Hy) as [Hok Hrw]. unfold posted_by. destruct (next_action p) as [b|] eqn:Hb.
  - eapply (file_ok_fewer retry _ (fun d' => posts_of d' b ++ total n h d')).
    + intros d'. exists []. unfold total. by rewrite app_assoc.
    + apply (tracked_file retry n path d h b x y); auto. destruct Hxy as [->|(j & [= ->] & ->)]; [by left|right; by exists j].
  - destruct Hxy as [->|(j & ? & _)]; [|done]. done.
Qed.
Lemma same_payload retry n documents d it it' : docs_ok retry n documents -> it ∈ n d -> it' ∈ n d -> key_of_item it = key_of_item it'.
Proof.
  intros [Hv Ha _] Hi Hi'. destruct (dget d documents) as [v|] eqn:E; [|rewrite (Ha d E) in Hi; by apply not_elem_of_nil in Hi].
  apply dget_Some_elem in E. rewrite Forall_forall in Hv. destruct (Hv _ E) as [_ Hp]. simpl in Hp. rewrite Forall_forall in Hp.
  apply Hp in Hi, Hi'. congruence.
Qed.

(** C13: Over all runs that share a state file, ended or killed at any point, a document is
    posted at most once, or twice when a run may retry what failed, and always with the
    payload whose hash the file records. *)
Theorem posted_at_most_once path retry x n d :
  lives path retry x n ->
  Z.of_nat (length (n d)) <= 1 + Z.b2z retry /\
  (forall it it', it ∈ n d -> it' ∈ n d -> stable_key (JObj it) = stable_key (JObj it')).
Proof.
  intros Hl%lives_tracked. destruct x as [j|]; simpl in Hl.
  - destruct Hl as (state & documents & _ & Hd). split.
    + destruct Hd as [Hv Ha _]. destruct (dget d documents) as [v|] eqn:E.
      * apply dget_Some_elem in E. rewrite Forall_forall in Hv. destruct (Hv _ E) as [(r & _ & Hb & Hn) _]. simpl in Hn.
        destruct (state_is _ v); lia.
      * rewrite (Ha d E). simpl. destruct retry; simpl; lia.
    + intros it it' Hi Hi'. pose proof (same_payload _ _ _ _ _ _ Hd Hi Hi') as Hk. by injection Hk.
  - rewrite Hl. split; [destruct retry; simpl; lia|]. by intros it it' Hi%not_elem_of_nil.
Qed.

(** C14: Before a document is posted, the state file has just been written, and says of this
    document, and of no other, that it is being submitted, with the hash of what is posted. *)
Theorem post_is_announced path retry x n env fuel a h y d it (act : cact) k :
  lives path retry x n -> ra_state a = path -> (ra_retry_failed a = true -> retry = true) ->
  steps (retain_canary env fuel a) [] (POp act k) h ->
  disk path x h y -> posted act = Some (d, it) ->
  exists state documents v h',
    h = Ev (WriteJson path (file_of state documents) : cact) (Ok tt) :: h' /\
    dget d documents = Some v /\ state_is "submitting" v = true /\
    dget "payload_hash" v = Some (JStr (stable_key (JObj it))) /\
    forall d' v', (d', v') ∈ documents -> state_is "submitting" v' = true -> d' = d.
Proof.
  intros Hl Hp Hr Hs Hy Hact.
  destruct (run_tracked retry n path env fuel a x (POp act k) h Hp Hr (lives_tracked _ _ _ _ Hl) Hs) as [Ht Hg].
  destruct (Ht y Hy) as [_ Hrw]. specialize (Hg act eq_refl Hrw).
  assert (announced retry n path h d it) as (state & documents & v & h' & Hh & _ & Hrest) by (destruct act; try discriminate Hact; by apply Hg).
  by exists state, documents, v, h'.
Qed.
End facts.
