(* ===== verification/CanaryGate.v ===== *)
(** * Hindsight canary: the production gate

    canary.py: [gate_decision] decides from the metrics which model and which variant are
    used and whether the memory service is kept. *)

From stdpp Require Import base option list strings.
From Stdlib Require Import ZArith Lia Ascii.
From S2P Require Import Prelude PyStr PyFloat Json.

Local Open Scope Z_scope.
Local Open Scope py_scope.

Section gate.
Context {F : Type} `{PyFloat F}.

(** [j[k]] for a string [k] *)
Definition sub (k : string) (j : json F) : result (json F) :=
  match j with
  | JObj d => item k d
  | _ => Raise (TypeError "object is not subscriptable with a string")
  end.
Definition float_at (k : string) (j : json F) : result F := x ← sub k j; json_float x.
Definition int_at (k : string) (j : json F) : result Z := x ← sub k j; json_int x.
Definition truth_at (k : string) (j : json F) : result bool := x ← sub k j; Ok (truthy x).
(** [a and b], [a or b] where the second may raise *)
Definition and_then (a b : result bool) : result bool := x ← a; if x : bool then b else Ok false.
Definition or_else (a b : result bool) : result bool := x ← a; if x : bool then Ok true else b.
(** [float(a) >= float(b) - slack] *)
Definition at_least (a b : result F) : result bool := x ← a; y ← b; Ok (f_leb y x).
Definition less (a : result F) (slack : F) : result F := x ← a; Ok (f_sub x slack).
Definition slack : F := f_lit 2 (-2).
Definition temporal_goal : F := f_sub (f_lit 10 (-2)) (f_lit 1 (-9)).
Definition context_goal : F := f_sub (f_lit 30 (-2)) (f_lit 1 (-9)).

Record decision := {
  dc_selected_model : string;
  dc_selected_variant : option string;
  dc_keep_hindsight : bool;
  dc_use_20b : bool;
  dc_correctness_ok : bool;
  dc_temporal_gain : F;
  dc_context_reduction : F;
}.
Definition dc_production_backend (d : decision) : string :=
  if dc_keep_hindsight d then "hybrid"%string else "postgres"%string.

Definition model_gate (twenty control : json F) : result bool :=
  and_then (d ← obj twenty; Ok (match dget "qualified" d with Some j => truthy j | None => true end))
  (and_then (at_least (float_at "fact_coverage" twenty) (less (float_at "fact_coverage" control) slack))
  (and_then (x ← float_at "schema_retry_failure_rate" twenty; Ok (f_leb x (f_lit 1 (-2))))
            (n ← int_at "critical_misses" twenty; Ok (n =? 0)))).
Definition variant_gate (summary card : json F) : result (option string) :=
  chosen ← and_then (truth_at "utility_pass" summary)
             (at_least (float_at "score" summary) (less (float_at "score" card) slack));
  if chosen : bool then Ok (Some "summary"%string)
  else
    pass ← truth_at "utility_pass" card;
    Ok (if pass : bool then Some "session_card"%string else None).
Definition correctness_gate (postgres hybrid : json F) : result bool :=
  and_then (at_least (float_at "overall_correctness" hybrid) (float_at "overall_correctness" postgres))
  (and_then (at_least (float_at "exact_correctness" hybrid) (float_at "exact_correctness" postgres))
  (and_then (n ← int_at "unsupported_answers" hybrid; Ok (n =? 0))
            (x ← float_at "provenance_completeness" hybrid; Ok (f_eqb x (f_of_Z 1))))).
Definition gate_decision (metrics : json F) : result decision :=
  models ← sub "models" metrics;
  twenty ← sub "20b" models;
  control ← sub "120b" models;
  use_20b ← model_gate twenty control;
  variants ← sub "variants" metrics;
  summary ← sub "summary" variants;
  card ← sub "session_card" variants;
  selected ← variant_gate summary card;
  routes ← sub "routes" metrics;
  postgres ← sub "postgres" routes;
  hybrid ← sub "hybrid" routes;
  correct ← correctness_gate postgres hybrid;
  hybrid_temporal ← float_at "temporal_cross_correctness" hybrid;
  postgres_temporal ← float_at "temporal_cross_correctness" postgres;
  hybrid_chars ← float_at "mean_context_chars" hybrid;
  postgres_chars ← float_at "mean_context_chars" postgres;
  let gain := f_sub hybrid_temporal postgres_temporal in
  let reduction := f_sub (f_of_Z 1) (f_div hybrid_chars (f_max postgres_chars (f_of_Z 1))) in
  Ok {| dc_selected_model := if use_20b : bool then "20b" else "120b";
        dc_selected_variant := selected;
        dc_keep_hindsight := match selected with Some _ => true | None => false end && correct &&
                             (f_leb temporal_goal gain || f_leb context_goal reduction);
        dc_use_20b := use_20b; dc_correctness_ok := correct;
        dc_temporal_gain := gain; dc_context_reduction := reduction |}.
End gate.
Arguments decision F : clear implicits.
