(* ===== verification/Eval.v ===== *)
(** * Hindsight evaluation

    evaluation.py: fusing the arms of a search, what a recall says, whether an answer is
    supported, and the metrics the gate consumes. *)

From stdpp Require Import base option list strings.
From Stdlib Require Import ZArith Lia Ascii.
From S2P Require Import Prelude PyStr PyFloat Json Regex Canary CanaryGate.

Local Open Scope Z_scope.
Local Open Scope py_scope.

(** [list(dict.fromkeys(l))] *)
Definition uniq {A} `{EqDecision A} (l : list A) : list A :=
  rev (foldl (fun seen x => if bool_decide (x ∈ seen) then seen else x :: seen) [] l).

Section eval.
Context {F : Type} `{PyFloat F}.
Abbreviation row := (odict (json F)).

(** ** Reciprocal rank fusion *)

Definition RRF_K : Z := 60.
(** A row of a search, under its source and document id *)
Definition key : Type := (string * string)%type.
Definition hit : Type := (key * row)%type.
Record fused_row := {
  fr_row : row;
  fr_score : F;
  fr_arms : odict Z;
}.
Definition fused : Type := list (key * fused_row).
Fixpoint lookup_key (k : key) (f : fused) : option fused_row :=
  match f with
  | [] => None
  | (k', x) :: f => if bool_decide (k = k') then Some x else lookup_key k f
  end.
Fixpoint insert_key (k : key) (x : fused_row) (f : fused) : fused :=
  match f with
  | [] => [(k, x)]
  | (k', y) :: f => if bool_decide (k = k') then (k', x) :: f else (k', y) :: insert_key k x f
  end.
Definition rank_score (rank : Z) : F := f_div (f_of_Z 1) (f_of_Z (RRF_K + rank)).
Definition add_hit (arm rank : Z) (h : hit) (f : fused) : fused :=
  let item := default {| fr_row := h.2; fr_score := f_of_Z 0; fr_arms := [] |} (lookup_key h.1 f) in
  let r := if negb (otruthy (dget "context" (fr_row item))) && otruthy (dget "context" h.2)
           then dset "context" (get_or_null "context" h.2) (fr_row item) else fr_row item in
  insert_key h.1 {| fr_row := r; fr_score := f_add (fr_score item) (rank_score rank);
                    fr_arms := dset (str_of_Z arm) rank (fr_arms item) |} f.
Fixpoint fuse_arm (arm rank : Z) (seen : list key) (rows : list hit) (f : fused) : fused :=
  match rows with
  | [] => f
  | h :: rows =>
      if bool_decide (h.1 ∈ seen) then fuse_arm arm (rank + 1) seen rows f
      else fuse_arm arm (rank + 1) (h.1 :: seen) rows (add_hit arm rank h f)
  end.
Fixpoint fuse_arms (arm : Z) (arms : list (list hit)) (f : fused) : fused :=
  match arms with
  | [] => f
  | rows :: arms => fuse_arms (arm + 1) arms (fuse_arm arm 1 [] rows f)
  end.
(** The order of [(-score, source, document_id)] *)
Definition str_ltb (a b : string) : bool := bool_decide (String.compare a b = Lt).
Definition before (a b : key * fused_row) : bool :=
  let x := f_opp (fr_score a.2) in
  let y := f_opp (fr_score b.2) in
  if negb (f_eqb x y) then f_ltb x y
  else if negb (bool_decide (a.1.1 = b.1.1)) then str_ltb a.1.1 b.1.1
  else str_ltb a.1.2 b.1.2.
Fixpoint insert_fused (a : key * fused_row) (l : fused) : fused :=
  match l with
  | [] => [a]
  | b :: l => if before b a then b :: insert_fused a l else a :: b :: l
  end.
Definition sort_fused (f : fused) : fused := foldr insert_fused [] f.
Definition _fuse (arms : list (list hit)) (limit : nat) : fused :=
  take limit (sort_fused (fuse_arms 0 arms [])).

(** ** What a recall says *)

Definition recall_keys : list string := ["content"; "text"; "fact"; "memory"]%string.
Fixpoint recall_texts (value : json F) : list string :=
  match value with
  | JObj d =>
      uniq (omap (fun k => match dget k d with
                           | Some (JStr s) => if bool_decide (strip s = EmptyString) then None else Some (strip s)
                           | _ => None
                           end) recall_keys ++
            concat (map (fun kv => recall_texts kv.2) d))
  | JArr l => uniq (concat (map recall_texts l))
  | _ => []
  end.
Definition canary_id : re := literal false "^canary:(?:summary|card):(?:agent_sessions|pocket):(.*)$".
Definition _strip_canary_id (value : string) : string :=
  match re_match canary_id value with
  | Some m => default EmptyString (dget "1" (mt_groups m))
  | None => value
  end.
Fixpoint recall_document_ids (value : json F) : list string :=
  match value with
  | JObj d =>
      uniq (omap (fun k => if otruthy (dget k d) then Some (_strip_canary_id (json_str (get_or_null k d))) else None)
              ["document_id"; "documentId"; "source_document_id"]%string ++
            concat (map (fun kv => recall_document_ids kv.2) d))
  | JArr l => uniq (concat (map recall_document_ids l))
  | _ => []
  end.

(** ** Whether an answer is supported *)

(** [re.sub("[^...]+", " ", s)]: every run outside [keep] becomes a space. *)
Fixpoint sub_runs (keep : ascii -> bool) (inside : bool) (s : string) : string :=
  match s with
  | EmptyString => EmptyString
  | String c s =>
      if keep c then String c (sub_runs keep false s)
      else if inside then sub_runs keep true s
      else String " " (sub_runs keep true s)
  end.
Definition answer_char (c : ascii) : bool := is_word c || sany (eqc c) "./:#@-".
Definition normalize_text (value : string) : string :=
  strip (sub_runs (fun c => negb (is_space c)) false (sub_runs answer_char false (lower value))).
Definition ANSWER_STOPWORDS : list string :=
  ["a"; "an"; "and"; "as"; "at"; "be"; "by"; "for"; "from"; "in"; "is"; "it"; "of"; "on"; "or"; "that"; "the";
   "to"; "was"; "were"; "with"]%string.
Definition coverage_goal : F := f_sub (f_lit 70 (-2)) (f_lit 1 (-9)).
Definition answer_terms (normalized : string) : list string :=
  remove_dups (List.filter (fun t => negb (bool_decide (t ∈ ANSWER_STOPWORDS)) && (1 <? String.length t)%nat)
                 (words normalized)).
Definition answer_supported (answer : string) (contexts : list string) (exact : bool) : bool :=
  let answer := normalize_text answer in
  let context := normalize_text (join (String "010" EmptyString) contexts) in
  if bool_decide (answer = EmptyString) || bool_decide (context = EmptyString) then false
  else if contains answer context then true
  else if exact then false
  else
    let terms := answer_terms answer in
    if bool_decide (terms = []) then false
    else
      let shared := List.filter (fun t => bool_decide (t ∈ words context)) terms in
      f_leb coverage_goal
        (f_div (f_of_Z (Z.of_nat (length shared))) (f_of_Z (Z.of_nat (length terms)))).

(** ** The metrics of a run *)

Record score := {
  sc_correct : bool;
  sc_exact_correct : bool;
  sc_category : json F;
  sc_critical_miss : bool;
  sc_context_chars : Z;
  sc_provenance_complete : bool;
}.
(** [x or []] as a list *)
Definition list_or_empty (k : string) (d : row) : result (list (json F)) :=
  if otruthy (dget k d) then py_list (get_or_null k d) else Ok [].
Fixpoint mapM_ok {A B} (f : A -> result B) (l : list A) : result (list B) :=
  match l with
  | [] => Ok []
  | x :: l => y ← f x; ys ← mapM_ok f l; Ok (y :: ys)
  end.
Definition evidence_ids (question : row) : result (list string) :=
  evidence ← list_or_empty "evidence" question;
  Ok (omap (fun j : json F => match j with
                     | JObj d => if otruthy (dget "document_id" d) then Some (json_str (get_or_null "document_id" d)) else None
                     | _ => None
                     end) (evidence : list (json F))).
Definition complete_item (d : row) : result bool :=
  and_then (Ok (otruthy (dget "document_id" d)))
    (and_then (in_strs ["agent_sessions"; "pocket"]%string (dget "source" d))
              (Ok (match jget "source_id" d with Some _ => true | None => false end))).
Fixpoint all_complete (l : list row) : result bool :=
  match l with
  | [] => Ok true
  | d :: l => and_then (complete_item d) (all_complete l)
  end.
Definition score_route (question : row) (expected : list string) (category route : json F) : result score :=
  r ← obj route;
  provenance ← list_or_empty "provenance" r;
  provenance ← mapM_ok obj provenance;
  let retrieved := omap (fun d : row => if otruthy (dget "document_id" d) then Some (json_str (get_or_null "document_id" d)) else None)
                     (provenance : list row) in
  let document_correct := negb (bool_decide (expected = [])) && forallb (fun d => bool_decide (d ∈ retrieved)) expected in
  contexts ← list_or_empty "contexts" r;
  let contexts := map json_str contexts in
  let is_exact := eq_str "exact_identifiers_errors" category in
  let supported := answer_supported (str_or "answer" question) contexts is_exact in
  let correct := document_correct && supported in
  complete ← and_then (Ok (negb (bool_decide (length provenance = 0%nat)))) (all_complete provenance);
  Ok {| sc_correct := correct; sc_exact_correct := (if is_exact then supported else true) && document_correct;
        sc_category := category; sc_critical_miss := otruthy (dget "critical" question) && negb correct;
        sc_context_chars := foldr Z.add 0 (map (fun c => Z.of_nat (String.length c)) contexts);
        sc_provenance_complete := complete |}.
(** The scores of every route, in the order the routes were first seen *)
Definition route_scores : Type := odict (list score).
Fixpoint score_routes (question : row) (expected : list string) (category : json F) (routes : row) (acc : route_scores)
    : result route_scores :=
  match routes with
  | [] => Ok acc
  | (name, route) :: routes =>
      s ← score_route question expected category route;
      score_routes question expected category routes (dset name (default [] (dget name acc) ++ [s]) acc)
  end.
Fixpoint score_rows (rows : list row) (acc : route_scores) : result route_scores :=
  match rows with
  | [] => Ok acc
  | r :: rows =>
      q ← item "question" r;
      question ← obj q;
      expected ← evidence_ids question;
      category ← item "category" question;
      routes ← item "routes" r;
      routes ← obj routes;
      acc ← score_routes question expected category routes acc;
      score_rows rows acc
  end.

Definition _mean (values : list F) : F :=
  match values with
  | [] => f_of_Z 0
  | _ => f_div (f_sum values) (f_of_Z (Z.of_nat (length values)))
  end.
Definition of_bool (b : bool) : F := f_of_Z (if b then 1 else 0).
Record route_metrics := {
  rm_overall : F;
  rm_exact : F;
  rm_temporal : F;
  rm_mean_context : F;
  rm_provenance : F;
  rm_critical_misses : Z;
  rm_fact_coverage : F;
  rm_questions : Z;
}.
Definition count_true (l : list bool) : Z := Z.of_nat (length (List.filter (fun b => b) l)).
Definition metrics_of (scores : list score) : route_metrics :=
  let exact := List.filter (fun s => eq_str "exact_identifiers_errors" (sc_category s)) scores in
  let temporal := List.filter (fun s => eq_str "temporal_updates" (sc_category s) ||
                                        eq_str "cross_session_patterns" (sc_category s)) scores in
  {| rm_overall := _mean (map (fun s => of_bool (sc_correct s)) scores);
     rm_exact := _mean (map (fun s => of_bool (sc_exact_correct s)) exact);
     rm_temporal := _mean (map (fun s => of_bool (sc_correct s)) temporal);
     rm_mean_context := _mean (map (fun s => f_of_Z (sc_context_chars s)) scores);
     rm_provenance := _mean (map (fun s => of_bool (sc_provenance_complete s)) scores);
     rm_critical_misses := count_true (map sc_critical_miss scores);
     rm_fact_coverage := _mean (map (fun s => of_bool (sc_correct s)) scores);
     rm_questions := Z.of_nat (length scores) |}.
Definition score_run (rows : list row) : result (odict route_metrics) :=
  scores ← score_rows rows [];
  raise! TypeError "unhashable type"
    when negb (forallb (fun kv : string * list score => forallb (fun s => hashable (sc_category s)) kv.2) scores);
  Ok (map (fun kv => (kv.1, metrics_of kv.2)) scores).
End eval.

Lemma mapM_ok_length {A B} (f : A -> result B) l k : mapM_ok f l = Ok k -> length k = length l.
Proof.
  revert k. induction l as [|x l IH]; intros k; simpl; [by intros [= <-]|].
  intros (y & _ & (ys & Hys & [= <-])%bind_Ok)%bind_Ok. simpl. by rewrite (IH ys).
Qed.
