(* ===== verification/EvalFacts.v ===== *)
(** * Hindsight evaluation: the metrics of the gate

    evaluation.py: [utility_pass] and [evaluate_spec], which builds from the runs of two
    models the metrics that [gate_decision] of canary.py consumes. *)

From stdpp Require Import base option list strings sets sorting.
From Stdlib Require Import ZArith Lia Ascii Qcanon Sorted.
From S2P Require Import Prelude PyStr PyFloat Json Canary CanaryGate Eval.

Local Open Scope Z_scope.
Local Open Scope py_scope.

Section spec.
Context {F : Type} `{PyFloat F}.
Abbreviation row := (odict (json F)).
Abbreviation routes := (odict (route_metrics (F := F))).
(** [read_jsonl] *)
Variable read : string -> result (list row).

Definition of_dict {V} (k : string) (d : odict V) : result V :=
  match dget k d with Some v => Ok v | None => Raise (KeyError k) end.

Definition utility_pass (r : routes) : result bool :=
  postgres ← of_dict "postgres" r;
  hybrid ← of_dict "hybrid" r;
  let gain := f_sub (rm_temporal hybrid) (rm_temporal postgres) in
  let reduction := f_sub (f_of_Z 1) (f_div (rm_mean_context hybrid) (f_max (rm_mean_context postgres) (f_of_Z 1))) in
  Ok (f_leb (rm_overall postgres) (rm_overall hybrid) && f_leb (rm_exact postgres) (rm_exact hybrid) &&
      f_eqb (rm_provenance hybrid) (f_of_Z 1) &&
      (f_leb temporal_goal gain || f_leb context_goal reduction)).

(** ** The runs of the specification *)

Record run := { rn_routes : routes; rn_failure_rate : F }.
Definition RATE : string := "schema_retry_failure_rate".
Definition run_of (model variant : string) (config : json F) : result run :=
  c ← obj config;
  raise! ValueError (model +:+ "/" +:+ variant +:+ " must report schema_retry_failure_rate") when negb (dmem RATE c);
  rate ← (j ← item RATE c; json_float j);
  raise! ValueError (model +:+ "/" +:+ variant +:+ " schema_retry_failure_rate is outside [0, 1]")
    when negb (f_leb (f_of_Z 0) rate && f_leb rate (f_of_Z 1));
  path ← item "path" c;
  path ← match path with JStr p => Ok p | _ => Raise (TypeError "expected str, bytes or os.PathLike object") end;
  rows ← read path;
  scored ← score_run rows;
  Ok {| rn_routes := scored; rn_failure_rate := rate |}.
Fixpoint variants_of (model : string) (l : row) : result (odict run) :=
  match l with
  | [] => Ok []
  | (variant, config) :: l =>
      r ← run_of model variant config;
      rs ← variants_of model l;
      Ok ((variant, r) :: rs)
  end.
Fixpoint runs_of (l : row) : result (odict (odict run)) :=
  match l with
  | [] => Ok []
  | (model, variants) :: l =>
      vs ← obj variants;
      rs ← variants_of model vs;
      rest ← runs_of l;
      Ok ((model, rs) :: rest)
  end.

(** ** The metrics of a model *)

Record model_metrics := {
  mm_fact_coverage : F;
  mm_failure_rate : F;
  mm_critical_misses : Z;
  mm_qualified : bool;
  mm_reason : option string;
}.
Definition get_default (k : string) (d : json F) (r : row) : json F := default d (dget k r).
Definition disqualified (model : string) (disqualified_models : json F) : result model_metrics :=
  d ← obj disqualified_models;
  raise! ValueError ("spec has no usable run for " +:+ model) when negb (otruthy (dget model d));
  entry ← obj (get_or_null model d);
  rate ← json_float (get_default RATE (JFloat (f_of_Z 1)) entry);
  misses ← json_int (get_default "critical_misses" (JInt 1) entry);
  Ok {| mm_fact_coverage := f_of_Z 0; mm_failure_rate := rate; mm_critical_misses := misses; mm_qualified := false;
        mm_reason := Some (if otruthy (dget "reason" entry) then str_or "reason" entry
                           else "candidate did not complete") |}.
Definition metrics_of_model (model : string) (runs : odict (odict run)) (disqualified_models : json F)
    : result model_metrics :=
  match default [] (dget model runs) with
  | [] => disqualified model disqualified_models
  | first :: rest =>
      hindsight ← mapM_ok (fun kv => of_dict "hindsight" (rn_routes kv.2)) (first :: rest);
      Ok {| mm_fact_coverage := _mean (map rm_fact_coverage hindsight);
            mm_failure_rate := foldl (fun m kv => f_max m (rn_failure_rate kv.2)) (rn_failure_rate first.2) rest;
            mm_critical_misses :=
              match map rm_critical_misses hindsight with n :: l => foldl Z.max n l | [] => 0 end;
            mm_qualified := true; mm_reason := None |}
  end.
Definition select_model (twenty control : model_metrics) : string :=
  if mm_qualified twenty && f_leb (f_sub (mm_fact_coverage control) slack) (mm_fact_coverage twenty) &&
     f_leb (mm_failure_rate twenty) (f_lit 1 (-2)) && (mm_critical_misses twenty =? 0)
  then "20b"%string else "120b"%string.

(** ** The metrics of a variant *)

Record variant_metrics := {
  vm_utility_pass : bool;
  vm_score : F;
  vm_available : bool;
}.
Definition metrics_of_variant (variant : string) (runs : odict run) : result variant_metrics :=
  match dget variant runs with
  | None => Ok {| vm_utility_pass := false; vm_score := f_of_Z 0; vm_available := false |}
  | Some r =>
      pass ← utility_pass (rn_routes r);
      hybrid ← of_dict "hybrid" (rn_routes r);
      Ok {| vm_utility_pass := pass; vm_score := rm_overall hybrid; vm_available := true |}
  end.
Definition select_variant (summary card : variant_metrics) : string :=
  if vm_utility_pass summary && (negb (vm_available card) || f_leb (f_sub (vm_score card) slack) (vm_score summary))
  then "summary"%string
  else if vm_utility_pass card then "session_card"%string
  else "summary"%string.

Record evaluation := {
  ev_20b : model_metrics;
  ev_120b : model_metrics;
  ev_summary : variant_metrics;
  ev_card : variant_metrics;
  ev_routes : routes;
  ev_model : string;
  ev_variant : string;
  ev_disqualified : json F;
  ev_unavailable : json F;
}.
(** [x or {}] *)
Definition obj_or_empty (k : string) (d : row) : json F := if otruthy (dget k d) then get_or_null k d else JObj [].
Definition evaluate_spec (spec : json F) : result evaluation :=
  s ← obj spec;
  let disqualified_models := obj_or_empty "disqualified_models" s in
  listed ← item "runs" s;
  listed ← obj listed;
  runs ← runs_of listed;
  twenty ← metrics_of_model "20b" runs disqualified_models;
  control ← metrics_of_model "120b" runs disqualified_models;
  let model := select_model twenty control in
  chosen ← of_dict model runs;
  summary ← metrics_of_variant "summary" chosen;
  card ← metrics_of_variant "session_card" chosen;
  let variant := select_variant summary card in
  r ← of_dict variant chosen;
  Ok {| ev_20b := twenty; ev_120b := control; ev_summary := summary; ev_card := card; ev_routes := rn_routes r;
        ev_model := model; ev_variant := variant; ev_disqualified := disqualified_models;
        ev_unavailable := obj_or_empty "unavailable_variants" s |}.

(** ** The file the gate reads *)

Definition model_json (m : model_metrics) : json F :=
  JObj ([("fact_coverage", JFloat (mm_fact_coverage m)); ("schema_retry_failure_rate", JFloat (mm_failure_rate m));
         ("critical_misses", JInt (mm_critical_misses m)); ("qualified", JBool (mm_qualified m))]%string ++
        match mm_reason m with Some r => [("reason"%string, JStr r)] | None => [] end).
Definition variant_json (v : variant_metrics) : json F :=
  JObj ([("utility_pass", JBool (vm_utility_pass v)); ("score", JFloat (vm_score v));
         ("available", JBool (vm_available v))]%string ++
        if vm_available v then [] else [("reason", JStr "variant did not pass artifact/schema gate")]%string).
Definition route_json (r : route_metrics) : json F :=
  JObj [("overall_correctness", JFloat (rm_overall r)); ("exact_correctness", JFloat (rm_exact r));
        ("temporal_cross_correctness", JFloat (rm_temporal r)); ("mean_context_chars", JFloat (rm_mean_context r));
        ("provenance_completeness", JFloat (rm_provenance r)); ("unsupported_answers", JInt 0);
        ("critical_misses", JInt (rm_critical_misses r)); ("fact_coverage", JFloat (rm_fact_coverage r));
        ("questions", JInt (rm_questions r))]%string.
Definition metrics_json (e : evaluation) : json F :=
  JObj [("models", JObj [("20b", model_json (ev_20b e)); ("120b", model_json (ev_120b e))]);
        ("variants", JObj [("summary", variant_json (ev_summary e)); ("session_card", variant_json (ev_card e))]);
        ("routes", JObj (map (fun kv => (kv.1, route_json kv.2)) (ev_routes e)));
        ("selection_basis", JObj [("model", JStr (ev_model e)); ("variant", JStr (ev_variant e))]);
        ("disqualified_models", ev_disqualified e); ("unavailable_variants", ev_unavailable e)]%string.
End spec.

(** ** Hindsight evaluation: theorems

    The metrics that are written and the gate that reads them agree; the fused ranking is
    reciprocal rank fusion. *)

(** ** The gate *)
Section gate.
Context {F : Type} `{ExactFloat F}.
Abbreviation row := (odict (json F)).
Abbreviation routes := (odict (route_metrics (F := F))).

Lemma mean_nonneg (l : list bool) : f_leb (f_of_Z 0) (_mean (map (of_bool (F := F)) l)) = true.
Proof.
  unfold _mean. destruct l as [|b l]; [apply fleb_refl|]. cbn [map].
  apply fdiv_nonneg; [simpl; lia|]. apply fsum_nonneg. apply Forall_forall. intros x Hx.
  change (of_bool b :: map of_bool l) with (map (of_bool (F := F)) (b :: l)) in Hx.
  apply list_elem_of_fmap in Hx as (c & -> & _). unfold of_bool. rewrite fof_Z_leb. by destruct c.
Qed.
Definition scored (r : routes) : Prop := Forall (fun kv => f_leb (f_of_Z 0) (rm_overall kv.2) = true) r.
Lemma score_run_scored rows r : score_run rows = Ok r -> scored r.
Proof.
  unfold score_run. intros (scores & _ & (_ & _ & [= <-])%bind_Ok)%bind_Ok. apply Forall_forall. intros kv Hin.
  apply list_elem_of_fmap in Hin as (kv' & -> & _). simpl.
  rewrite <- (map_map (sc_correct (F := F)) of_bool). apply mean_nonneg.
Qed.

Variable read : string -> result (list row).
Definition runs_scored (runs : odict (run (F := F))) : Prop := Forall (fun kv => scored (rn_routes kv.2)) runs.
Lemma variants_scored model l runs : variants_of read model l = Ok runs -> runs_scored runs.
Proof.
  revert runs. induction l as [|[variant config] l IH]; intros runs; cbn [variants_of]; [by intros [= <-]; constructor|].
  intros (r & Hr & (rs & Hrs & [= <-])%bind_Ok)%bind_Ok. constructor; [|by apply IH].
  unfold run_of in Hr. repeat (apply bind_Ok in Hr as (? & ? & Hr)). injection Hr as <-. by eapply score_run_scored.
Qed.
Lemma runs_of_scored l runs : runs_of read l = Ok runs -> Forall (fun kv => runs_scored kv.2) runs.
Proof.
  revert runs. induction l as [|[model variants] l IH]; intros runs; cbn [runs_of]; [by intros [= <-]; constructor|].
  intros (vs & _ & (rs & Hrs & (rest & Hrest & [= <-])%bind_Ok)%bind_Ok)%bind_Ok.
  constructor; [by eapply variants_scored|by apply IH].
Qed.
Lemma of_dict_elem {V} k (d : odict V) v : of_dict k d = Ok v -> (k, v) ∈ d.
Proof. unfold of_dict. destruct (dget k d) eqn:E; [|done]. intros [= <-]. by apply dget_Some_elem. Qed.

(** What the metrics of a variant say *)
Lemma variant_cases variant runs v : runs_scored runs -> metrics_of_variant variant runs = Ok v ->
  (vm_available v = false /\ vm_utility_pass v = false /\ dget variant runs = None) \/
  (vm_available v = true /\ f_leb (f_of_Z 0) (vm_score v) = true /\
   exists r, dget variant runs = Some r /\ utility_pass (rn_routes r) = Ok (vm_utility_pass v)).
Proof.
  intros Hs. unfold metrics_of_variant. destruct (dget variant runs) as [r|] eqn:E; [|by intros [= <-]; left].
  intros (pass & Hp & (hybrid & Hh & [= <-])%bind_Ok)%bind_Ok. right. split; [done|]. split; [|by exists r].
  apply dget_Some_elem in E. unfold runs_scored in Hs. rewrite Forall_forall in Hs. specialize (Hs _ E).
  unfold scored in Hs. rewrite Forall_forall in Hs. apply (Hs _ (of_dict_elem _ _ _ Hh)).
Qed.

Lemma obj_of d : obj (F := F) (JObj d) = Ok d.
Proof. done. Qed.
(** What the gate reads of the written metrics *)
Lemma model_gate_read twenty control :
  model_gate (model_json (F := F) twenty) (model_json control) =
  Ok (bool_decide (select_model twenty control = "20b"%string)).
Proof.
  unfold model_gate, select_model, at_least, less, float_at, int_at, model_json. simpl.
  destruct (mm_qualified twenty); [|done]. simpl. destruct (f_leb (f_sub _ _) _); [|done]. simpl.
  destruct (f_leb (mm_failure_rate twenty) _); [|done]. simpl. by destruct (_ =? 0).
Qed.
Lemma select_model_cases twenty control : select_model (F := F) twenty control = "20b"%string \/ select_model twenty control = "120b"%string.
Proof. unfold select_model. destruct (_ && _); auto. Qed.
Lemma variant_gate_read summary card :
  variant_gate (variant_json (F := F) summary) (variant_json card) =
  Ok (if vm_utility_pass summary && f_leb (f_sub (vm_score card) slack) (vm_score summary) then Some "summary"%string
      else if vm_utility_pass card then Some "session_card"%string else None).
Proof.
  unfold variant_gate, at_least, less, float_at, truth_at, variant_json. simpl.
  destruct (vm_utility_pass summary); simpl; [destruct (f_leb _ _); simpl|]; done.
Qed.
Lemma route_read r postgres hybrid : dget "postgres" r = Some postgres -> dget "hybrid" r = Some hybrid ->
  let routes := JObj (map (fun kv => (kv.1, route_json (F := F) kv.2)) r) in
  sub "postgres" routes = Ok (route_json postgres) /\ sub "hybrid" routes = Ok (route_json hybrid).
Proof.
  intros Hp Hh. simpl. unfold item.
  assert (forall k, dget k (map (fun kv => (kv.1, route_json (F := F) kv.2)) r) = route_json <$> dget k r) as ->.
  { intros k. clear. induction r as [|[k' v] r IH]; [done|]. simpl. by case_bool_decide. }
  assert (forall k, dget k (map (fun kv => (kv.1, route_json (F := F) kv.2)) r) = route_json <$> dget k r) as ->.
  { intros k. clear. induction r as [|[k' v] r IH]; [done|]. simpl. by case_bool_decide. }
  by rewrite Hp, Hh.
Qed.
Lemma correctness_read postgres hybrid :
  correctness_gate (route_json (F := F) postgres) (route_json hybrid) =
  Ok (f_leb (rm_overall postgres) (rm_overall hybrid) && f_leb (rm_exact postgres) (rm_exact hybrid) &&
      f_eqb (rm_provenance hybrid) (f_of_Z 1)).
Proof.
  unfold correctness_gate, at_least, float_at, int_at, route_json. simpl.
  destruct (f_leb (rm_overall postgres) _); [|done]. simpl. by destruct (f_leb (rm_exact postgres) _).
Qed.
Lemma utility_pass_routes (r : routes) b : utility_pass r = Ok b ->
  exists postgres hybrid, dget "postgres" r = Some postgres /\ dget "hybrid" r = Some hybrid /\
    b = f_leb (rm_overall postgres) (rm_overall hybrid) && f_leb (rm_exact postgres) (rm_exact hybrid) &&
        f_eqb (rm_provenance hybrid) (f_of_Z 1) &&
        (f_leb temporal_goal (f_sub (rm_temporal hybrid) (rm_temporal postgres)) ||
         f_leb context_goal (f_sub (f_of_Z 1) (f_div (rm_mean_context hybrid) (f_max (rm_mean_context postgres) (f_of_Z 1))))).
Proof.
  unfold utility_pass, of_dict. destruct (dget "postgres" r) as [p|]; [|done]. destruct (dget "hybrid" r) as [h|]; [|done].
  intros [= <-]. by exists p, h.
Qed.

(** The gate on the metrics of chosen routes *)
Lemma gate_read (e : evaluation (F := F)) b : utility_pass (ev_routes e) = Ok b ->
  exists d, gate_decision (metrics_json e) = Ok d /\
    dc_selected_model d = select_model (ev_20b e) (ev_120b e) /\
    dc_selected_variant d = (if vm_utility_pass (ev_summary e) && f_leb (f_sub (vm_score (ev_card e)) slack) (vm_score (ev_summary e))
                             then Some "summary"%string
                             else if vm_utility_pass (ev_card e) then Some "session_card"%string else None) /\
    dc_keep_hindsight d = (match dc_selected_variant d with Some _ => true | None => false end && b).
Proof.
  intros (postgres & hybrid & Hp & Hh & ->)%utility_pass_routes.
  destruct (route_read _ _ _ Hp Hh) as [Hrp Hrh].
  unfold gate_decision, metrics_json.
  change (sub "models" _) with (Ok (JObj [("20b", model_json (ev_20b e)); ("120b", model_json (ev_120b e))]%string)). cbn [mbind result_bind].
  change (sub "20b" _) with (Ok (model_json (ev_20b e))). change (sub "120b" _) with (Ok (model_json (ev_120b e))).
  cbn [mbind result_bind]. rewrite model_gate_read. cbn [mbind result_bind].
  change (sub "variants" _) with (Ok (JObj [("summary", variant_json (ev_summary e)); ("session_card", variant_json (ev_card e))]%string)).
  cbn [mbind result_bind].
  change (sub "summary" _) with (Ok (variant_json (ev_summary e))). change (sub "session_card" _) with (Ok (variant_json (ev_card e))).
  cbn [mbind result_bind]. rewrite variant_gate_read. cbn [mbind result_bind].
  change (sub "routes" _) with (Ok (JObj (map (fun kv => (kv.1, route_json (F := F) kv.2)) (ev_routes e)))). cbn [mbind result_bind].
  rewrite Hrp, Hrh. cbn [mbind result_bind]. rewrite correctness_read. cbn [mbind result_bind].
  eexists. split; [reflexivity|]. cbn [dc_selected_model dc_selected_variant dc_keep_hindsight]. split.
  - destruct (select_model_cases (ev_20b e) (ev_120b e)) as [-> | ->]; done.
  - split; [done|]. by rewrite !andb_assoc.
Qed.

Lemma sub_slack_nonneg x : f_leb (f_of_Z 0) x = true -> f_leb (f_sub (f_of_Z 0) slack) x = true.
Proof.
  intros Hx. rewrite <- (fadd_leb _ _ (slack (F := F))), fsub_add. apply fadd_nonneg; [done|].
  destruct (fleb_total (f_of_Z 0) (slack (F := F))) as [|Hc]; [done|]. unfold slack in Hc. by rewrite flit_pos in Hc.
Qed.
(** The two choices of a variant *)
Definition gate_choice (summary card : variant_metrics (F := F)) : option string :=
  if vm_utility_pass summary && f_leb (f_sub (vm_score card) slack) (vm_score summary) then Some "summary"%string
  else if vm_utility_pass card then Some "session_card"%string else None.
Lemma choices_agree summary card v :
  (vm_available card = false -> vm_score card = f_of_Z 0) -> f_leb (f_of_Z 0) (vm_score summary) = true ->
  gate_choice summary card = Some v ->
  v = select_variant summary card /\ vm_utility_pass (if String.eqb v "summary" then summary else card) = true.
Proof.
  intros Hc Hs. unfold gate_choice, select_variant.
  destruct (vm_utility_pass summary) eqn:Es; destruct (vm_utility_pass card) eqn:Ec;
    destruct (vm_available card) eqn:Ea; simpl; try rewrite (Hc eq_refl), sub_slack_nonneg by done;
    try destruct (f_leb (f_sub _ _) (vm_score summary)); simpl; intros Hv; try discriminate Hv; injection Hv as <-; simpl; auto.
Qed.
Lemma of_dict_dget {V} k (d : odict V) v : of_dict k d = Ok v -> dget k d = Some v.
Proof. unfold of_dict. by destruct (dget k d) as [w|]; [intros [= ->]|]. Qed.
Lemma select_variant_cases summary card :
  select_variant (F := F) summary card = "summary"%string \/ select_variant (F := F) summary card = "session_card"%string.
Proof. unfold select_variant. destruct (_ && _); [auto|]. destruct (vm_utility_pass card); auto. Qed.
(** A variant the gate chooses was written, with routes that pass *)
Lemma chosen_passes chosen summary card v :
  runs_scored chosen -> metrics_of_variant "summary" chosen = Ok summary ->
  metrics_of_variant "session_card" chosen = Ok card -> gate_choice summary card = Some v ->
  v = select_variant summary card /\ exists r, dget v chosen = Some r /\ utility_pass (rn_routes r) = Ok true.
Proof.
  intros Hs Hsum Hcard Hg.
  assert (Hc : vm_available card = false -> vm_score card = f_of_Z 0).
  { unfold metrics_of_variant in Hcard. destruct (dget _ chosen); [|by injection Hcard as <-].
    apply bind_Ok in Hcard as (? & _ & Hcard). by apply bind_Ok in Hcard as (? & _ & [= <-]). }
  assert (Hp : f_leb (f_of_Z 0) (vm_score summary) = true).
  { destruct (variant_cases _ _ _ Hs Hsum) as [(_ & _ & Hn)|(_ & Hsc & _)]; [|done].
    unfold metrics_of_variant in Hsum. rewrite Hn in Hsum. injection Hsum as <-. apply fleb_refl. }
  destruct (choices_agree _ _ _ Hc Hp Hg) as [-> Hu]. split; [done|].
  destruct (select_variant_cases summary card) as [E|E]; rewrite E in *; simpl in Hu;
    [destruct (variant_cases _ _ _ Hs Hsum) as [(_ & Hu' & _)|(_ & _ & r & Hr & Hr')]
    |destruct (variant_cases _ _ _ Hs Hcard) as [(_ & Hu' & _)|(_ & _ & r & Hr & Hr')]];
    try congruence; exists r; by rewrite Hr', Hu.
Qed.
(** The routes of a written variant can be read *)
Lemma chosen_reads chosen summary card r :
  runs_scored chosen -> metrics_of_variant "summary" chosen = Ok summary ->
  metrics_of_variant "session_card" chosen = Ok card -> dget (select_variant summary card) chosen = Some r ->
  exists b, utility_pass (rn_routes r) = Ok b.
Proof.
  intros Hs Hsum Hcard Hr.
  destruct (select_variant_cases summary card) as [E|E]; rewrite E in Hr;
    [destruct (variant_cases _ _ _ Hs Hsum) as [(_ & _ & Hn)|(_ & _ & r' & Hr' & Hu)]
    |destruct (variant_cases _ _ _ Hs Hcard) as [(_ & _ & Hn)|(_ & _ & r' & Hr' & Hu)]];
    try congruence; rewrite Hr' in Hr; injection Hr as ->; by eexists.
Qed.

(** C29: The gate can read the metrics that are written for it, chooses the same model, and
    keeps the memory service exactly when it chooses a variant; then this is the variant
    whose routes were written, and these routes pass the test of usefulness. *)
Theorem gate_agrees_with_evaluation (spec : json F) (e : evaluation) :
  evaluate_spec read spec = Ok e ->
  exists d, gate_decision (metrics_json e) = Ok d /\
    dc_selected_model d = ev_model e /\
    match dc_selected_variant d with
    | Some v => v = ev_variant e /\ utility_pass (ev_routes e) = Ok true /\ dc_keep_hindsight d = true
    | None => dc_keep_hindsight d = false
    end.
Proof.
  unfold evaluate_spec. intros He. apply bind_Ok in He as (s & _ & He). apply bind_Ok in He as (l0 & _ & He).
  apply bind_Ok in He as (l & _ & He). apply bind_Ok in He as (runs & Hruns & He).
  apply bind_Ok in He as (twenty & _ & He). apply bind_Ok in He as (control & _ & He).
  apply bind_Ok in He as (chosen & Hc & He). apply bind_Ok in He as (summary & Hsum & He).
  apply bind_Ok in He as (card & Hcard & He). apply bind_Ok in He as (r & Hr & He). injection He as <-.
  apply runs_of_scored in Hruns. rewrite Forall_forall in Hruns. specialize (Hruns _ (of_dict_elem _ _ _ Hc)). simpl in Hruns.
  assert (exists b, utility_pass (rn_routes r) = Ok b /\
    match gate_choice summary card with
    | Some v => v = select_variant summary card /\ b = true
    | None => True end) as (b & Hb & Hv).
  { apply of_dict_dget in Hr. destruct (gate_choice summary card) as [v|] eqn:Eg.
    - destruct (chosen_passes _ _ _ _ Hruns Hsum Hcard Eg) as (-> & r' & Hr' & Hu).
      rewrite Hr' in Hr. injection Hr as ->. by exists true.
    - destruct (chosen_reads _ _ _ _ Hruns Hsum Hcard Hr) as [b Hb]. by exists b. }
  match goal with |- context [metrics_json ?x] => set (e := x) end.
  destruct (gate_read e b Hb) as (d & Hg & Hm & Hd & Hk).
  exists d. split; [exact Hg|]. split; [exact Hm|]. rewrite Hk.
  change (dc_selected_variant d = gate_choice summary card) in Hd. rewrite Hd.
  destruct (gate_choice summary card) as [v|]; [|done]. destruct Hv as [Hv ->]. by subst e.
Qed.
End gate.

(** ** Hindsight evaluation: reciprocal rank fusion

    [_fuse] ranks the documents of several searches by the sum of the reciprocals of their
    ranks; [rrf_score] states that sum without the accumulator. *)

Section fusion.
Context {F : Type} `{ExactFloat F}.

(** The first position of a document in a search *)
Fixpoint first_rank (k : key) (rank : Z) (rows : list (hit (F := F))) : option Z :=
  match rows with
  | [] => None
  | h :: rows => if bool_decide (h.1 = k) then Some rank else first_rank k (rank + 1) rows
  end.
Definition rrf_score (arms : list (list (hit (F := F)))) (k : key) : F :=
  foldl (fun s rows => match first_rank k 1 rows with Some r => f_add s (rank_score r) | None => s end)
        (f_of_Z 0) arms.
Definition found (arms : list (list (hit (F := F)))) : list key := arms ≫= fun rows => rows.*1.
Definition score_of (k : key) (f : fused (F := F)) : F := default (f_of_Z 0) (fr_score <$> lookup_key k f).

(** ** The table of scores *)

Lemma lookup_insert k k' x (f : fused (F := F)) :
  lookup_key k (insert_key k' x f) = if bool_decide (k = k') then Some x else lookup_key k f.
Proof.
  induction f as [|[k2 y] f IH]; simpl; repeat case_bool_decide; simpl;
    repeat case_bool_decide; subst; try congruence.
Qed.
Lemma insert_keys k x (f : fused (F := F)) k' : k' ∈ (insert_key k x f).*1 <-> k' = k \/ k' ∈ f.*1.
Proof.
  induction f as [|[k2 y] f IH]; simpl; [set_solver|]. case_bool_decide; subst; simpl; set_solver.
Qed.
Lemma insert_nodup k x (f : fused (F := F)) : NoDup f.*1 -> NoDup (insert_key k x f).*1.
Proof.
  induction f as [|[k2 y] f IH]; simpl; intros Hn; [constructor; [set_solver|constructor]|].
  apply NoDup_cons in Hn as [Hk Hn]. case_bool_decide; subst; simpl; constructor; auto.
  rewrite insert_keys. intros [->|]; done.
Qed.
Lemma lookup_elem k x (f : fused (F := F)) : NoDup f.*1 -> (k, x) ∈ f -> lookup_key k f = Some x.
Proof.
  induction f as [|[k2 y] f IH]; simpl; intros Hn Hin; [set_solver|].
  apply NoDup_cons in Hn as [Hk Hn]. apply elem_of_cons in Hin as [[= -> ->]|Hin].
  - by rewrite bool_decide_eq_true_2.
  - rewrite bool_decide_eq_false_2; [auto|]. intros ->. apply Hk. by apply (list_elem_of_fmap_2' _ _ _ _ Hin).
Qed.

(** ** One search, then all *)

Lemma add_hit_score arm rank h k (f : fused (F := F)) :
  score_of k (add_hit arm rank h f) = if bool_decide (h.1 = k) then f_add (score_of k f) (rank_score rank) else score_of k f.
Proof.
  unfold add_hit, score_of. rewrite lookup_insert. repeat case_bool_decide; subst; try congruence; simpl.
  by destruct (lookup_key h.1 f).
Qed.
Lemma fuse_arm_score arm rows : forall rank seen k (f : fused (F := F)),
  score_of k (fuse_arm arm rank seen rows f) =
  if bool_decide (k ∈ seen) then score_of k f
  else match first_rank k rank rows with Some r => f_add (score_of k f) (rank_score r) | None => score_of k f end.
Proof.
  induction rows as [|h rows IH]; intros rank seen k f; cbn [fuse_arm first_rank]; [by case_bool_decide|].
  case_bool_decide as Hs; rewrite IH; repeat case_bool_decide; subst; rewrite ?add_hit_score, ?bool_decide_eq_true_2 by done;
    try done; rewrite ?bool_decide_eq_false_2 by set_solver; try done; set_solver.
Qed.
Lemma fuse_arm_keys arm rows : forall rank seen (f : fused (F := F)) k,
  NoDup f.*1 -> (forall k, k ∈ seen -> k ∈ f.*1) ->
  NoDup (fuse_arm arm rank seen rows f).*1 /\
  (k ∈ (fuse_arm arm rank seen rows f).*1 <-> k ∈ f.*1 \/ k ∈ rows.*1).
Proof.
  induction rows as [|h rows IH]; intros rank seen f k Hn Hs; cbn [fuse_arm]; [set_solver|].
  case_bool_decide as Hk.
  - destruct (IH (rank + 1) seen f k Hn Hs) as [Hd ->]. split; [done|]. apply Hs in Hk. set_solver.
  - destruct (IH (rank + 1) (h.1 :: seen) (add_hit arm rank h f) k) as [Hd ->].
    + by apply insert_nodup.
    + intros k'. unfold add_hit. rewrite insert_keys. set_solver.
    + split; [done|]. unfold add_hit. rewrite insert_keys. set_solver.
Qed.
Lemma fuse_arms_spec arms : forall arm (f : fused (F := F)) k,
  NoDup f.*1 ->
  NoDup (fuse_arms arm arms f).*1 /\
  (k ∈ (fuse_arms arm arms f).*1 <-> k ∈ f.*1 \/ k ∈ found arms) /\
  score_of k (fuse_arms arm arms f) =
  foldl (fun s rows => match first_rank k 1 rows with Some r => f_add s (rank_score r) | None => s end) (score_of k f) arms.
Proof.
  induction arms as [|rows arms IH]; intros arm f k Hn; cbn [fuse_arms foldl]; [set_solver|].
  destruct (fuse_arm_keys arm rows 1 [] f k Hn) as [Hd Hk]; [set_solver|].
  destruct (IH (arm + 1) (fuse_arm arm 1 [] rows f) k Hd) as (Hd' & Hk' & Hs).
  split; [done|]. rewrite Hk', Hk, Hs, fuse_arm_score. split; [|done].
  unfold found. cbn [mbind list_bind]. set_solver.
Qed.

(** ** The order *)

Lemma fopp_leb (a b : F) : f_leb (f_opp a) (f_opp b) = f_leb b a.
Proof.
  unfold f_opp. rewrite <- (fadd_leb _ _ (f_add a b)), <- fadd_assoc, fsub_add, (fadd_comm a b), <- fadd_assoc, fsub_add.
  by rewrite !fadd_0_l.
Qed.
Definition better (a b : key * fused_row (F := F)) : Prop := f_leb (fr_score b.2) (fr_score a.2) = true.
#[local] Instance better_trans : Transitive better.
Proof. intros a b c Hab Hbc. unfold better in *. by eapply fleb_trans. Qed.
Lemma before_better a b : before a b = true -> better a b.
Proof.
  unfold before, better. destruct (f_eqb _ _) eqn:E; simpl.
  - apply feqb_true in E. intros _. rewrite <- fopp_leb, E. apply fleb_refl.
  - intros Hl. rewrite <- fopp_leb. by apply fltb_true_leb.
Qed.
Lemma not_before_better a b : before a b = false -> better b a.
Proof.
  unfold before, better. destruct (f_eqb _ _) eqn:E; simpl.
  - apply feqb_true in E. intros _. rewrite <- fopp_leb, E. apply fleb_refl.
  - intros Hl. rewrite <- fopp_leb. by apply fltb_false_leb.
Qed.
Lemma insert_fused_perm a (l : fused (F := F)) : insert_fused a l ≡ₚ a :: l.
Proof. induction l as [|b l IH]; simpl; [done|]. destruct (before b a); [|done]. rewrite IH. constructor. Qed.
Lemma sort_fused_perm (l : fused (F := F)) : sort_fused l ≡ₚ l.
Proof. induction l as [|a l IH]; simpl; [done|]. by rewrite insert_fused_perm, IH. Qed.
Lemma insert_fused_sorted a (l : fused (F := F)) : StronglySorted better l -> StronglySorted better (insert_fused a l).
Proof.
  induction 1 as [|b l Hs IH Hb]; simpl; [repeat constructor|].
  destruct (before b a) eqn:E.
  - apply before_better in E. constructor; [done|]. by rewrite insert_fused_perm; constructor.
  - apply not_before_better in E. constructor; [by constructor|]. constructor; [done|].
    eapply Forall_impl; [exact Hb|]. intros c Hc. by eapply better_trans.
Qed.
Lemma sort_fused_sorted (l : fused (F := F)) : StronglySorted better (sort_fused l).
Proof. induction l; simpl; [constructor|]. by apply insert_fused_sorted. Qed.
Lemma sorted_take {A} (R : A -> A -> Prop) (l : list A) n x y :
  StronglySorted R l -> x ∈ take n l -> y ∈ drop n l -> R x y.
Proof.
  intros Hs. revert n. induction Hs as [|a l Hs IH Ha]; intros [|n]; simpl; try set_solver.
  intros Hx Hy. apply elem_of_cons in Hx as [->|Hx]; [|by eapply IH].
  rewrite Forall_forall in Ha. apply Ha. eapply elem_of_submseteq; [exact Hy|].
  apply sublist_submseteq, sublist_drop.
Qed.

(** C33: Fusing searches gives at most [limit] documents, each once, each found by a search,
    scored by the sum of 1/(60 + its first rank) over the searches that found it, in an order
    of descending score; a document that is left out has no better score than one that is
    kept, and none is left out while there is room. *)
Theorem fuse_is_reciprocal_rank (arms : list (list (hit (F := F)))) limit :
  let out := _fuse arms limit in
  (length out <= limit)%nat /\ NoDup out.*1 /\ StronglySorted better out /\
  (forall k x, (k, x) ∈ out -> k ∈ found arms /\ fr_score x = rrf_score arms k) /\
  (forall k, k ∈ found arms -> k ∉ out.*1 ->
     length out = limit /\ forall k' x, (k', x) ∈ out -> f_leb (rrf_score arms k) (fr_score x) = true).
Proof.
  unfold _fuse. set (f := fuse_arms 0 arms []). cbn zeta.
  assert (Hf : forall k, NoDup f.*1 /\ (k ∈ f.*1 <-> k ∈ found arms) /\ score_of k f = rrf_score arms k).
  { intros k. destruct (fuse_arms_spec arms 0 [] k) as (? & ? & ?); [constructor|]. unfold f. set_solver. }
  assert (Hn : NoDup f.*1) by apply (Hf (EmptyString, EmptyString)).
  assert (Hp : (sort_fused f).*1 ≡ₚ f.*1) by by rewrite sort_fused_perm.
  assert (Hscore : forall k x, (k, x) ∈ sort_fused f -> k ∈ found arms /\ fr_score x = rrf_score arms k).
  { intros k x Hx. rewrite sort_fused_perm in Hx. destruct (Hf k) as (_ & Hk & <-). split.
    - apply Hk. by apply (list_elem_of_fmap_2' _ _ _ _ Hx).
    - unfold score_of. by rewrite (lookup_elem k x). }
  pose proof (sort_fused_sorted f) as Hs.
  rewrite <- (take_drop limit (sort_fused f)) in Hs, Hp, Hscore.
  split; [|split; [|split; [|split]]].
  - rewrite length_take. lia.
  - rewrite <- Hp, fmap_app in Hn. by apply NoDup_app in Hn as (? & _).
  - by apply StronglySorted_app_1_l in Hs.
  - intros k x Hx. apply Hscore. set_solver.
  - intros k Hk Hout. apply Hf in Hk. rewrite <- Hp, fmap_app, elem_of_app in Hk.
    destruct Hk as [|Hk]; [done|]. apply list_elem_of_fmap in Hk as ([k2 x] & -> & Hx). simpl in *. split.
    + rewrite length_take. enough (limit < length (sort_fused f))%nat by lia.
      destruct (decide (limit < length (sort_fused f))%nat); [done|].
      rewrite drop_ge in Hx by lia. set_solver.
    + intros k' x' Hx'. destruct (Hscore k2 x) as [_ <-]; [set_solver|].
      apply (sorted_take better (sort_fused f) limit (k', x') (k2, x)); [apply sort_fused_sorted|done|done].
Qed.
End fusion.
