(* ===== verification/CanaryRules.v ===== *)
(** * Hindsight canary: the bound on work in flight

    How many documents are posted after the remote queue was read. *)

From stdpp Require Import base option list sets strings.
From Stdlib Require Import ZArith Lia Ascii SpecFloat Qcanon.
From S2P Require Import Prelude PyStr PyFloat Json Sha256 Effects Canary CanaryRetain CanaryFacts CanaryGate.
From S2P Require Import Eval EvalFacts.

Local Open Scope Z_scope.

Section rules.
Context {F : Type} `{PyFloat F}.
Abbreviation row := (odict (json F)).
Abbreviation prog := (@prog (@canary_effect F)).
Abbreviation hist := (@Effects.hist (@canary_effect F)).
Abbreviation event := (@Effects.event (@canary_effect F)).
Abbreviation cact := (@action (@canary_effect F)).
Abbreviation docs := (@docs F).

Definition posting (a : cact) : bool := match posted a with Some _ => true | None => false end.
Fixpoint count_posts (h : hist) : Z :=
  match h with
  | [] => 0
  | e :: h => (if posting (ev_action e) then 1 else 0) + count_posts h
  end.
Definition still (a : cact) : Prop := posting a = false.
Lemma calm_still {A} (p : prog A) : only calm p -> only still p.
Proof. apply only_mono. intros a (Ha & _). unfold still, posting. by rewrite Ha. Qed.
#[local] Hint Resolve calm_still request_calm status_calm check_calm page_calm active_calm stage_calm see_operations_calm
  check_documents_calm retain_items_calm ensure_bank_calm : effects.
Lemma count_still h : Forall (fun e : event => still (ev_action e)) h -> count_posts h = 0.
Proof. induction 1 as [|e h He _ IH]; [done|]. cbn [count_posts]. by rewrite He, IH. Qed.
Lemma count_app h1 h2 : count_posts (h1 ++ h2) = count_posts h1 + count_posts h2.
Proof. induction h1 as [|e h1 IH]; [done|]. cbn [count_posts app]. rewrite IH. lia. Qed.
Lemma count_nonneg h : 0 <= count_posts h.
Proof. induction h as [|e h IH]; cbn [count_posts]; [lia|]. destruct (posting _); lia. Qed.

Variable base : string.
(** The remote queue as it was read last, and what was posted since *)
Definition remote_load (ops : list (json F)) : Z :=
  Z.of_nat (length (remove_dups (map operation_id_of ops))).
Definition within (h : hist) (room : Z) : Prop :=
  exists h0 h1 ops evs, runs (active base) h0 h1 (Ok ops) /\ h = evs ++ h1 /\
    count_posts evs + remote_load ops + room <= MAX_IN_FLIGHT.
Definition bounded (h : hist) (a : cact) : Prop := posting a = true -> within h 1.

Lemma still_bounded h a : still a -> bounded h a.
Proof. unfold still, bounded. congruence. Qed.
Lemma within_still evs h room : Forall (fun e : event => still (ev_action e)) evs -> within h room -> within (evs ++ h) room.
Proof.
  intros He (h0 & h1 & ops & evs1 & Hr & -> & Hl). exists h0, h1, ops, (evs ++ evs1). split; [done|].
  split; [by rewrite app_assoc|]. rewrite count_app, count_still by done. lia.
Qed.
Lemma within_post (a : cact) r h room : within h (room + 1) -> within (Ev a r :: h) room.
Proof.
  intros (h0 & h1 & ops & evs1 & Hr & -> & Hl). exists h0, h1, ops, (Ev a r :: evs1). split; [done|]. split; [done|].
  cbn [count_posts]. destruct (posting _); lia.
Qed.
Lemma within_less h room room' : room' <= room -> within h room -> within h room'.
Proof. intros Hle (h0 & h1 & ops & evs1 & Hr & -> & Hl). exists h0, h1, ops, evs1. split; [done|]. split; [done|]. lia. Qed.
Lemma wpo_still {A} (p : prog A) h (Q : hist -> A -> Prop) :
  only still p ->
  (forall evs a, Forall (fun e : event => still (ev_action e)) evs -> Q (evs ++ h) a) -> wpo bounded p h Q.
Proof. intros Hp HQ. eapply wpo_only; [exact Hp|apply still_bounded|]. auto. Qed.
(** A step that keeps the room for later posts *)
Lemma wpo_room {A} (p : prog A) h room (Q : hist -> A -> Prop) :
  only still p -> within h room -> (forall h' a, within h' room -> Q h' a) -> wpo bounded p h Q.
Proof. intros Hp Hw HQ. eapply wpo_still; [exact Hp|]. intros evs a He. by apply HQ, within_still. Qed.

Section turns.
Variable path variant : string.
Variable items : odict row.
Variable retry_failed : bool.
Variable state : row.

Lemma save_still documents : only still (save path state documents).
Proof. by apply only_act. Qed.
Hint Resolve save_still : effects.
Lemma settle_still d documents : only still (settle path base retry_failed state d documents).
Proof. unfold settle. only_auto. Qed.
Hint Resolve settle_still : effects.
Lemma settle_all_still ids documents : only still (settle_all path base retry_failed state ids documents).
Proof. revert documents. induction ids; intros; cbn [settle_all]; only_auto. Qed.
Hint Resolve settle_all_still : effects.

Lemma retain_room it h room (Q : hist -> result string -> Prop) : 0 <= room -> within h (room + 1) ->
  (forall h' r, within h' room -> Q h' r) -> wp bounded (retain base it) h Q.
Proof.
  intros Hr Hw HQ. unfold retain, request. split; [intros _; eapply within_less; [|exact Hw]; lia|]. intros r.
  apply (within_post (Request "POST" (base +:+ "/" +:+ "memories") [] (Some (retain_body it)) : cact) r) in Hw.
  eapply wp_only with (P := still).
  - destruct r as [[st content]|e]; [|apply only_ret]. unfold circuit_opened, check.
    repeat first [apply only_pbind; [|intros ?; cbv beta] | only_step].
  - apply still_bounded.
  - intros evs r' He _. by apply HQ, within_still.
Qed.
Lemma submit_room d it documents h room : 0 <= room -> within h (room + 1) ->
  wpo bounded (submit path base state d it documents) h (fun h' _ => within h' room).
Proof.
  intros Hr Hw. unfold submit.
  apply wpo_bind. eapply (wpo_room _ _ (room + 1)); [by apply only_act|done|]. clear h Hw. intros h now Hw.
  apply wpo_bind, wpo_ret. intros retries _. apply wpo_bind, wpo_ret. intros history _.
  apply wpo_bind. eapply (wpo_room _ _ (room + 1)); [auto with effects|done|]. clear h Hw. intros h [] Hw.
  apply wpo_bind, wp_attempt, (retain_room _ _ room); [done..|]. clear h Hw. intros h [id|e] Hw; cbn [wp].
  - apply wpo_bind. eapply (wpo_room _ _ room); [auto with effects|done|]. intros h' [] Hw'. by apply wpo_mret.
  - destruct (is_exception e); [|done]. apply wpo_bind. eapply (wpo_room _ _ room); [auto with effects|done|].
    intros h' [] _. by apply wpo_ret.
Qed.
Lemma submit_all_room l documents h : within h (Z.of_nat (length l)) ->
  wpo bounded (submit_all path base state l documents) h (fun _ _ => True).
Proof.
  revert documents h. induction l as [|[d it] l IH]; intros documents h Hw; cbn [submit_all]; [by apply wpo_mret|].
  apply wpo_bind. eapply wpo_post; [apply (submit_room _ _ _ _ (Z.of_nat (length l)))|].
  - lia.
  - eapply within_less; [|exact Hw]. simpl. lia.
  - intros h' out Hw'. by apply IH.
Qed.

(** What the queue lists is what was counted. *)
Lemma queue_ids l q :
  yields (see_operations base items l q) (fun q' => qu_active q' = rev (map operation_id_of l) ++ qu_active q).
Proof.
  revert q. induction l as [|operation l IH]; intros q; cbn [see_operations]; [by apply yields_mret|].
  apply yields_bind with (P := fun q1 => qu_active q1 = operation_id_of operation :: qu_active q).
  - unfold see_operation. apply yields_pure. intros d Ho. destruct operation; try discriminate Ho. injection Ho as ->.
    apply yields_then. intros u. apply yields_then. intros [document_id|]; [|by apply yields_mret].
    destruct (dget document_id items) as [it|]; [|by apply yields_mret].
    apply yields_then. intros u'. apply yields_then. intros documents. by apply yields_mret.
  - intros q1 Hq1. eapply yields_mono; [|apply IH]. intros q2 ->. rewrite Hq1. simpl. by rewrite <- app_assoc.
Qed.
Lemma capacity_room ops q (documents : docs) : qu_active q = rev (map operation_id_of ops) ->
  Z.of_nat (capacity q documents) + remote_load ops <= Z.max MAX_IN_FLIGHT (remote_load ops).
Proof.
  intros Hq. unfold capacity, in_flight, remote_load, unrepresented. rewrite Hq.
  assert (length (remove_dups (rev (map operation_id_of ops))) = length (remove_dups (map operation_id_of ops))) as ->; [|lia].
  apply Permutation_length, NoDup_Permutation; [apply NoDup_remove_dups..|]. intros x.
  rewrite !elem_of_remove_dups, !list_elem_of_In. symmetry. apply in_rev.
Qed.
Lemma active_bound : yields (active base) (fun ops => remote_load ops <= MAX_IN_FLIGHT).
Proof.
  unfold active. apply yields_then. intros pending. apply yields_then. intros processing.
  apply yields_pure. intros [] Hc%raise_if_Ok. apply Z.ltb_ge in Hc. apply yields_mret. unfold remote_load.
  assert (forall l : list string, (length (remove_dups l) <= length l)%nat) as Hl.
  { induction l as [|x l IHl]; simpl; [done|]. case_decide; simpl; lia. }
  specialize (Hl (map operation_id_of (pending ++ processing))). rewrite length_map in Hl. lia.
Qed.
Lemma turn_bounded documents h :
  wpo bounded (turn path base variant items retry_failed state documents) h (fun _ _ => True).
Proof.
  unfold turn. apply wpo_bind. eapply wpo_only_yields; [apply active_calm|apply active_bound|intros; apply still_bounded|].
  { unfold still, posting. match goal with Hc : calm _ |- _ => destruct Hc as [-> _] end. done. }
  intros evs ops He Hruns Hl.
  assert (forall room, room + remote_load ops <= MAX_IN_FLIGHT -> within (evs ++ h) room) as Hw.
  { intros room Hr. exists h, (evs ++ h), ops, []. split; [done|]. split; [done|]. simpl. lia. }
  clear He Hruns. revert Hw. generalize (evs ++ h). clear h evs. intros h Hw.
  apply wpo_bind. eapply wpo_only_yields; [apply see_operations_calm|apply queue_ids|intros; apply still_bounded|].
  { unfold still, posting. match goal with Hc : calm _ |- _ => destruct Hc as [-> _] end. done. }
  intros evs q He _ Hq. cbn [qu_active] in Hq. rewrite app_nil_r in Hq.
  assert (forall room, room + remote_load ops <= MAX_IN_FLIGHT -> within (evs ++ h) room) as Hw1.
  { intros room Hr. apply within_still; [|by apply Hw]. eapply Forall_impl; [exact He|]. intros e (Hp & _). unfold still, posting. by rewrite Hp. }
  clear Hw He. revert Hw1. generalize (evs ++ h). clear h evs. intros h Hw.
  apply wpo_bind. eapply wpo_still; [auto with effects|]. intros evs [] He.
  apply wpo_bind, wpo_ret. intros [] _.
  apply wpo_bind. eapply wpo_still; [auto with effects|]. intros evs2 out He2.
  apply wpo_bind. eapply wpo_still; [auto with effects|]. intros evs3 [] He3.
  apply wpo_bind, wpo_ret. intros [o|] _; [by apply wpo_mret|].
  apply wpo_bind. eapply wpo_post; [apply submit_all_room|].
  - do 3 (apply within_still; [done|]). apply Hw. rewrite length_take. cbn beta in Hl. pose proof (capacity_room ops q out Hq). lia.
  - intros h' out2 _. apply wpo_bind, wpo_act; [done|]. intros []. by apply wpo_mret.
Qed.
Lemma turns_bounded fuel documents h :
  wpo bounded (turns path base variant items retry_failed state fuel documents) h (fun _ _ => True).
Proof.
  revert documents h. induction fuel as [|fuel IH]; intros documents h; cbn [turns]; [done|].
  apply wpo_bind. eapply wpo_post; [apply turn_bounded|]. intros h' [out|o] _; [apply IH|done].
Qed.
End turns.
End rules.

Section bound.
Context {F : Type} `{PyFloat F}.
#[local] Hint Resolve calm_still check_documents_calm retain_items_calm ensure_bank_calm : effects.

(** When a document is posted, the active operations the service listed last, and the
    documents posted since, this one included, are at most [MAX_IN_FLIGHT]. *)
Theorem in_flight_is_bounded (env : odict string) fuel (a : retain_args) h' (b : @action (@canary_effect F)) k :
  steps (retain_canary env fuel a) [] (POp b k) h' -> posting b = true ->
  exists h0 h1 ops evs,
    runs (active (bank_url a)) h0 h1 (Ok ops) /\ h' = evs ++ h1 /\
    count_posts evs + 1 + Z.of_nat (length (remove_dups (map operation_id_of ops))) <= MAX_IN_FLIGHT.
Proof.
  intros Hs Hb.
  assert (wp (bounded (bank_url a)) (retain_canary env fuel a) [] (fun _ _ => True)) as Hw.
  { apply wp_post with (Q := fun h r => match r with Ok a => True | Raise _ => True end); [|done].
    unfold retain_canary.
    apply wpo_bind. eapply wpo_still; [auto with effects|]. intros evs items _.
    apply wpo_bind. eapply wpo_still; [auto with effects|]. intros evs2 u _.
    apply wpo_bind. unfold load_state. apply wpo_bind. eapply wpo_still; [by apply only_act|]. intros evs3 content _.
    apply wpo_ret. intros state _. apply wpo_bind, wpo_ret. intros stored _. apply wpo_bind, wpo_ret. intros [] _.
    apply wpo_bind. eapply wpo_still; [auto with effects|]. intros evs4 documents _.
    apply wpo_bind. eapply wpo_still; [apply save_still|]. intros evs5 [] _. apply turns_bounded. }
  destruct (wp_guard _ _ _ _ _ _ _ Hw Hs Hb) as (h0 & h1 & ops & evs & Hr & -> & Hl).
  exists h0, h1, ops, evs. unfold remote_load in Hl. split; [done|]. split; [done|]. lia.
Qed.
End bound.

(** ** Hindsight canary: concrete runs

    A corpus of one document, a service that answers as it should, and one that times out;
    the theorems of the canary applied to them. *)

Abbreviation F := spec_float.
Abbreviation cact := (@action (@canary_effect F)).
Abbreviation chist := (@hist (@canary_effect F)).

(** ** A retain run *)

Definition demo_env : odict string :=
  [("CANARY_RETAIN_GUARD", "frontier"); ("CANARY_FRONTIER_PROXY_HEALTH_URL", "http://proxy/health");
   ("CANARY_HINDSIGHT_TOKEN", "token")]%string.
Definition demo_args (retry_failed : bool) : retain_args := {|
  ra_corpus := "corpus.jsonl"; ra_cards := None; ra_variant := "summary"; ra_url := "http://hindsight/";
  ra_bank := "canary"; ra_state := "state.json"; ra_limit := None; ra_retry_failed := retry_failed |}.
Definition demo_record : json F :=
  JObj [("source", JStr "agent_sessions"); ("document_id", JStr "d1"); ("summary", JStr "what was done");
        ("started_at", JStr "2026-01-01")]%string.
Definition demo_id : string := "canary:summary:agent_sessions:d1".

Record cworld := {
  cw_file : option (json F);
  cw_healthy : bool;          (* whether a retain request is answered *)
}.
Definition demo_answer (a : caction F) (w : cworld) : result (canswer a) * cworld :=
  match a as a return result (canswer a) * cworld with
  | ReadText _ => (Ok None, w)
  | ReadRows _ => (Ok (Some [Some demo_record]), w)
  | ReadJson _ => (Ok (cw_file w), w)
  | WriteJson _ j => (Ok tt, {| cw_file := Some j; cw_healthy := cw_healthy w |})
  | WriteRows _ _ => (Ok tt, w)
  | AppendRow _ _ => (Ok tt, w)
  | Request "POST" _ _ _ =>
      (if cw_healthy w then Ok (200, Some (JObj [("operation_id", JStr "op1")]%string))
       else Raise (OtherError "ReadTimeout" "timed out"), w)
  | Request "PUT" _ _ _ => (Ok (200, None), w)
  | Request _ url _ _ =>
      (Ok (200, Some (if bool_decide (url = "http://proxy/health"%string)
                      then JObj [("status", JStr "healthy"); ("circuit_open", JBool false);
                                 ("provider_egress_enabled", JBool true)]%string
                      else if bool_decide (url = "http://hindsight/v1/default/banks/canary/operations"%string)
                      then JObj [("total", JInt 0); ("operations", JArr [])]%string
                      else JObj [("status", JStr "completed")]%string)), w)
  | Search _ _ _ _ => (Ok [], w)
  | NowIso => (Ok "2026-01-02"%string, w)
  | Nonce => (Ok "nonce"%string, w)
  | NowStamp => (Ok (B64.of_Z 0), w)
  | Wait _ => (Ok tt, w)
  end.
Definition world_of (healthy : bool) : cworld := {| cw_file := None; cw_healthy := healthy |}.
Definition demo_run (retry_failed : bool) := retain_canary (F := F) demo_env 3 (demo_args retry_failed).

Example demo_succeeds :
  match (exec (E := canary_effect) demo_answer (demo_run false) (world_of true) []).1.1 with
  | Some (Ok o) => oc_succeeded o = 1 /\ oc_failed o = 0
  | _ => False
  end.
Proof. vm_compute. done. Qed.

(** The run that is about to post *)
Definition at_post : @prog (@canary_effect F) (outcome (F := F)) * chist :=
  reach (E := canary_effect) posting demo_answer (demo_run false) (world_of true) [].
Definition demo_payload : odict (json F) :=
  [("content", JStr "what was done"); ("context", JStr "source:agent_sessions | source_document:d1");
   ("document_id", JStr demo_id); ("timestamp", JStr "2026-01-01");
   ("tags", JArr [JStr "hindsight-canary"; JStr "variant:summary"; JStr "source:agent_sessions"])]%string.
Definition demo_post : cact :=
  Request "POST" "http://hindsight/v1/default/banks/canary/memories" [] (Some (retain_body demo_payload)).
Lemma next_is_post : next_action at_post.1 = Some demo_post.
Proof. vm_compute. reflexivity. Qed.
Lemma post_performs : exists k, steps (demo_run false) [] (POp demo_post k) at_post.2.
Proof. apply reach_performs, next_is_post. Qed.
Lemma at_post_steps : steps (demo_run false) [] at_post.1 at_post.2.
Proof. apply reach_steps. Qed.

(** The state file as it is then *)
Definition demo_file : json F :=
  match at_post.2 with Ev (WriteJson _ j) _ :: _ => j | _ => JNull end.
Lemma demo_disk : disk "state.json" None at_post.2 (Some demo_file).
Proof.
  vm_compute. repeat first [split; [|by intros]|eexists; split; [|left; reflexivity]|split].
Qed.

Lemma posted_at_most_once_witness :
  exists x n, lives "state.json" false x n /\ n demo_id = [demo_payload] /\ Z.of_nat (length (n demo_id)) <= 1.
Proof.
  exists (Some demo_file), (fun d => posted_by at_post.1 at_post.2 d ++ []).
  assert (Hl : lives "state.json" false (Some demo_file) (fun d => posted_by at_post.1 at_post.2 d ++ [])).
  { eapply (lives_run _ _ None (fun _ => []) demo_env 3 (demo_args false)); [constructor|reflexivity|done|apply at_post_steps|].
    left. apply demo_disk. }
  split; [exact Hl|]. split; [vm_compute; reflexivity|].
  exact (proj1 (posted_at_most_once "state.json" false _ _ demo_id Hl)).
Defined.

Lemma post_is_announced_witness :
  exists state documents v h',
    at_post.2 = Ev (WriteJson "state.json" (file_of state documents) : cact) (Ok tt) :: h' /\
    dget demo_id documents = Some v /\ state_is "submitting" v = true.
Proof.
  destruct post_performs as [k Hk].
  destruct (post_is_announced "state.json" false None (fun _ => []) demo_env 3 (demo_args false) at_post.2 (Some demo_file)
              demo_id demo_payload demo_post k (lives_none _ _) eq_refl (fun Hr => Hr) Hk demo_disk eq_refl)
    as (state & documents & v & h' & Hh & Hv & Hs & _).
  exists state, documents, v, h'. split; [exact Hh|]. split; [exact Hv|exact Hs].
Defined.

Lemma in_flight_is_bounded_witness :
  exists h0 h1 ops evs,
    runs (active (bank_url (demo_args false))) h0 h1 (Ok (A := list (json F)) ops) /\ at_post.2 = evs ++ h1.
Proof.
  destruct post_performs as [k Hk].
  destruct (in_flight_is_bounded demo_env 3 (demo_args false) at_post.2 demo_post k Hk eq_refl)
    as (h0 & h1 & ops & evs & Hr & Hh & _).
  exists h0, h1, ops, evs. split; [exact Hr|exact Hh].
Defined.

(** ** An answer that was lost *)

(** A request that raises, be it after the service took the document, is recorded as a
    failure, and the next run with --retry-failed posts the document again. *)
Theorem ambiguous_submission_is_posted_again :
  let first := exec (E := canary_effect) demo_answer (demo_run false) (world_of false) [] in
  first.1.1 = Some (Raise (SafetyStop "timed out")) /\ length (posts demo_id first.2) = 1%nat /\
  next_action (reach (E := canary_effect) posting demo_answer (demo_run true) first.1.2 []).1 = Some demo_post.
Proof. vm_compute. done. Qed.

(** ** The evaluation of two runs *)

Abbreviation Q := Qc.
Definition demo_route_of (found : bool) : json Q :=
  JObj [("contexts", JArr (if found then [JStr "the cause was alpha"] else [JStr "a longer text without the cause"]));
        ("provenance", JArr [JObj [("document_id", JStr (if found then "d1" else "d2"));
                                   ("source", JStr "pocket"); ("source_id", JStr "p1")]])]%string.
Definition demo_scored (found : bool) : list (odict (json Q)) :=
  [[("question", JObj [("answer", JStr "alpha"); ("category", JStr "temporal_updates");
                       ("evidence", JArr [JObj [("document_id", JStr "d1")]])]);
    ("routes", JObj [("postgres", demo_route_of false); ("hindsight", demo_route_of found);
                     ("hybrid", demo_route_of found)])]]%string.
Definition demo_read (path : string) : result (list (odict (json Q))) :=
  Ok (demo_scored (bool_decide (path = "good.jsonl"%string))).
Definition demo_config (path : string) : json Q :=
  JObj [("path", JStr path); ("schema_retry_failure_rate", JInt 0)]%string.
Definition demo_spec (variants : odict (json Q)) : json Q :=
  JObj [("runs", JObj [("20b", JObj variants)]);
        ("disqualified_models", JObj [("120b", JObj [("reason", JStr "not run")])])]%string.

Lemma gate_agrees_with_evaluation_witness :
  exists e d, evaluate_spec demo_read (demo_spec [("summary", demo_config "good.jsonl")]%string) = Ok e /\
    gate_decision (metrics_json e) = Ok d /\ dc_selected_model d = ev_model e /\ ev_model e = "20b"%string.
Proof.
  destruct (evaluate_spec demo_read (demo_spec [("summary", demo_config "good.jsonl")]%string)) as [e|] eqn:E;
    [|vm_compute in E; discriminate E].
  destruct (gate_agrees_with_evaluation demo_read _ e E) as (d & Hg & Hm & _).
  exists e, d. split; [reflexivity|]. split; [exact Hg|]. split; [exact Hm|].
  vm_compute in E. injection E as <-. reflexivity.
Defined.

(** With a session card run alone, the metrics are written when it is useful; when it is
    not, they are not written for the gate to reject: the evaluation looks for the routes
    of a summary run that is not there. *)
Theorem rejected_card_aborts_evaluation :
  (ev_variant <$> evaluate_spec demo_read (demo_spec [("session_card", demo_config "good.jsonl")]%string)
     = Ok "session_card"%string) /\
  evaluate_spec demo_read (demo_spec [("session_card", demo_config "bad.jsonl")]%string) = Raise (KeyError "summary").
Proof. split; vm_compute; reflexivity. Qed.
