(* ===== verification/EvalCollect.v ===== *)
(** * Hindsight evaluation: collecting the routes

    evaluation.py: embedding the questions, searching the two databases, asking the memory
    service, and writing for every question what each route finds. The SQL statements are
    actions; their rows carry text document ids. *)

From stdpp Require Import base option list strings.
From Stdlib Require Import ZArith Lia Ascii SpecFloat.
From S2P Require Import Prelude PyStr PyFloat Json Effects Canary CanaryRetain CanaryGate Eval.

Local Open Scope Z_scope.
Local Open Scope py_scope.

(** [math.sqrt] *)
Class PySqrt (F : Type) := f_sqrt : F -> F.
#[global] Instance binary64_sqrt : PySqrt spec_float := SFsqrt 53 1024.

Section collect.
Context {F : Type} `{PyFloat F} `{PySqrt F}.
Abbreviation row := (odict (json F)).
Abbreviation prog := (@prog (@canary_effect F)).

(** ** Vectors *)

Definition vector_literal (vector : list F) : string := "[" +:+ join "," (map f_repr vector) +:+ "]".
Definition fit_vector (dim : nat) (vector : list F) : result (list F) :=
  raise! ValueError ("embedding has " +:+ str_of_Z (Z.of_nat (length vector)) +:+ " dimensions, expected at least " +:+
                     str_of_Z (Z.of_nat dim))
    when (length vector <? dim)%nat;
  let head := take dim vector in
  let root := f_sqrt (f_sum (map (fun x => f_mul x x) head)) in
  let norm := if f_truthy root then root else f_of_Z 1 in
  Ok (map (fun x => f_div x norm) head).

Definition QWEN_QUERY_INSTRUCTION (query : string) : string :=
  "Instruct: Retrieve authoritative session evidence that answers the query. Preserve exact " +:+
  "identifiers, errors, decisions, outcomes, artifacts, and temporal context." +:+ String "010" ("Query: " +:+ query).
Definition DIMENSIONS : nat := 1024.
Definition BATCH : nat := 16.
(** [sorted(l, key=lambda item: item.get("index", 0))], for indices that are numbers *)
Definition num_ltb (a b : Z + F) : bool :=
  match a, b with
  | inl a, inl b => a <? b
  | inl a, inr b => f_ltb (f_of_Z a) b
  | inr a, inl b => f_ltb a (f_of_Z b)
  | inr a, inr b => f_ltb a b
  end.
Fixpoint insert_index (x : (Z + F) * row) (l : list ((Z + F) * row)) : list ((Z + F) * row) :=
  match l with
  | [] => [x]
  | y :: l => if num_ltb y.1 x.1 then y :: insert_index x l else x :: y :: l
  end.
Definition indexed (j : json F) : result ((Z + F) * row) :=
  d ← obj j;
  match num_of (default (JInt 0) (dget "index" d)) with
  | Some n => Ok (n, d)
  | None => Raise (TypeError "'<' not supported between instances")
  end.
Definition by_index (l : list (json F)) : result (list row) :=
  l ← mapM_ok indexed l;
  Ok (map snd (foldr insert_index [] l)).
Definition vector_of (d : row) : result (list F) :=
  e ← item "embedding" d;
  l ← py_list e;
  l ← mapM_ok json_float l;
  fit_vector DIMENSIONS l.
Definition vectors_of (batch : list string) (body : json F) : result (list (list F)) :=
  d ← obj body;
  data ← list_or_empty "data" d;
  data ← by_index data;
  raise! ValueError "embedding response count mismatch" when negb (length data =? length batch)%nat;
  mapM_ok vector_of data.
Section env.
Variable env : odict string.
Definition embed_batch (base model : string) (batch : list string) : prog (list (list F)) :=
  '(status, content) ← ask (Request "POST" (base +:+ "/embeddings") []
                              (Some (JObj [("model", JStr model); ("input", JArr (map JStr batch))]%string)));
  check ((status =? 401) || (status =? 402))
    (RuntimeError ("Qwen preflight/call returned " +:+ str_of_Z status));;
  PRet (raise_for_status status);;
  PRet (body ← json_content content; vectors_of batch body).
(** [range(0, len(queries), 16)] *)
Fixpoint embed_batches (fuel : nat) (base model : string) (queries : list string) : prog (list (list F)) :=
  match fuel with
  | O => mret []
  | S fuel =>
      match queries with
      | [] => mret []
      | _ =>
          vectors ← embed_batch base model (map QWEN_QUERY_INSTRUCTION (take BATCH queries));
          rest ← embed_batches fuel base model (drop BATCH queries);
          mret (vectors ++ rest)
      end
  end.
Definition embed_queries (queries : list string) : prog (list (list F)) :=
  check (negb (env_set env "CANARY_QWEN_API_KEY")) (SystemExit "CANARY_QWEN_API_KEY is required");;
  let base := rstrip_char "/" (getenv env "CANARY_QWEN_BASE_URL" "https://api.redpill.ai/v1") in
  let model := getenv env "CANARY_QWEN_MODEL" "qwen/qwen3-embedding-8b" in
  embed_batches (length queries) base model queries.

(** ** The searches *)

Definition limit : nat := 12.
(** The rows of a statement, under their source and document id *)
Definition hit_of (source : string) (r : row) : result (hit (F := F)) :=
  document ← item "document_id" r;
  match document with
  | JStr document => Ok (source, document, dset "source" (JStr source) r)
  | _ => Raise (TypeError "document_id is not a string")
  end.
Definition arm (source : string) (rows : list row) : prog (list (hit (F := F))) := PRet (mapM_ok (hit_of source) rows).
Definition agent_search (dsn : string) (vector : list F) (query : string) (ids : option (list string))
    : prog (fused (F := F)) :=
  let value := vector_literal vector in
  match ids with
  | Some [] => mret []
  | _ =>
      messages ← ask (Search dsn MessageVector value ids);
      summaries ← ask (Search dsn SessionVector value ids);
      text ← ask (Search dsn MessageText query ids);
      messages ← arm "agent_sessions" messages;
      summaries ← arm "agent_sessions" summaries;
      text ← arm "agent_sessions" text;
      mret (_fuse [messages; summaries; text] limit)
  end.
Definition pocket_search (dsn : string) (vector : list F) (query : string) (ids : option (list string))
    : prog (fused (F := F)) :=
  let value := vector_literal vector in
  match ids with
  | Some [] => mret []
  | _ =>
      let native_ids := map (removeprefix "pocket:") <$> ids in
      segments ← ask (Search dsn SegmentVector value native_ids);
      summaries ← ask (Search dsn RecordingVector value native_ids);
      text ← ask (Search dsn SegmentText query native_ids);
      segments ← arm "pocket" segments;
      summaries ← arm "pocket" summaries;
      text ← arm "pocket" text;
      mret (_fuse [segments; summaries; text] limit)
  end.
(** A fused row as a row of the next fusion *)
Definition arms_json (arms : odict Z) : json F := JObj (map (fun kv => (kv.1, JInt kv.2)) arms).
Definition fused_json (x : fused_row (F := F)) : row :=
  dset "arms" (arms_json (fr_arms x)) (dset "score" (JFloat (fr_score x)) (fr_row x)).
Definition refuse (f : fused (F := F)) : list (hit (F := F)) := map (fun kv => (kv.1, fused_json kv.2)) f.
Definition is_pocket (id : string) : bool := startswith "pocket:" id.
Definition postgres_search (agent_dsn pocket_dsn : string) (vector : list F) (query : string) (ids : option (list string))
    : prog (list row) :=
  agent ← agent_search agent_dsn vector query (List.filter (fun id => negb (is_pocket id)) <$> ids);
  pocket ← pocket_search pocket_dsn vector query (List.filter is_pocket <$> ids);
  mret (map (fun kv => fused_json kv.2) (_fuse [refuse agent; refuse pocket] limit)).

(** ** The routes *)

Definition provenance_of (r : row) : result (json F) :=
  source ← item "source" r;
  document ← item "document_id" r;
  Ok (JObj [("source", source); ("document_id", document); ("source_id", get_or_null "source_id" r);
            ("evidence_id", get_or_null "evidence_id" r); ("seq", get_or_null "seq" r);
            ("source_path", get_or_null "source_path" r)]%string).
Definition route_from_postgres (rows : list row) : result row :=
  provenance ← mapM_ok provenance_of rows;
  Ok [("contexts", JArr (map (fun r => JStr (str_or "context" r)) rows)); ("provenance", JArr provenance)]%string.
(** A string that is concatenated *)
Definition text_at (k : string) (r : row) : result string :=
  j ← item k r;
  match j with JStr s => Ok s | _ => Raise (TypeError "can only concatenate str") end.

Fixpoint each_question {A} (l : list (row * A)) (body : row -> A -> prog row) : prog (list row) :=
  match l with
  | [] => mret []
  | (question, x) :: l =>
      r ← body question x;
      rest ← each_question l body;
      mret (r :: rest)
  end.
Definition zip_strict {A B} (l : list A) (k : list B) : result (list (A * B)) :=
  raise! ValueError "zip() arguments have different lengths" when negb (length l =? length k)%nat;
  Ok (zip l k).
Definition build_postgres_baseline (questions_path corpus_path agent_dsn pocket_dsn output_path : string) : prog unit :=
  questions ← read_jsonl questions_path;
  corpus ← read_jsonl corpus_path;
  corpus_ids ← PRet (mapM_ok (str_at "document_id") corpus);
  queries ← PRet (mapM_ok (str_at "question") questions);
  vectors ← embed_queries queries;
  pairs ← PRet (zip_strict questions vectors);
  output ← each_question (pairs : list (row * list F)) (fun question vector =>
    query ← PRet (str_at "question" question);
    rows ← postgres_search agent_dsn pocket_dsn vector query (Some corpus_ids);
    id ← PRet (str_at "id" question);
    route ← PRet (route_from_postgres rows);
    mret [("question_id", JStr id); ("route", JObj route)]%string);
  ask (WriteRows output_path output).

(** ** The memory service *)

Definition recall (base : string) (question : row) : prog (json F) :=
  query ← PRet (item "question" question);
  request base "POST" "memories/recall" []
    (Some (JObj [("query", query); ("budget", JStr "mid"); ("max_tokens", JInt 4096)]%string)).
(** The requests of the pool run in any order; all are made before the first result is
    looked at. *)
Fixpoint recall_all (base : string) (questions : list row) : prog (list (result (json F))) :=
  match questions with
  | [] => mret []
  | question :: questions =>
      r ← attempt (recall base question);
      rest ← recall_all base questions;
      mret (r :: rest)
  end.
Definition collect_recalls (base : string) (questions : list row) : prog (list (json F)) :=
  workers ← PRet (env_int (F := F) env "CANARY_RECALL_CONCURRENCY" "8");
  check (negb ((1 <=? workers) && (workers <=? 16))) (ValueError "CANARY_RECALL_CONCURRENCY must be between 1 and 16");;
  replies ← recall_all base questions;
  PRet (mapM_ok (fun r : result (json F) => r) replies).

(** ** [collect] *)

Definition expanded (question : row) (raw : json F) : result string :=
  let hints := stake 4000 (join newline (recall_texts raw)) in
  query ← text_at "question" question;
  Ok (query +:+ (if bool_decide (hints = EmptyString) then EmptyString
                 else newline +:+ "Memory hints:" +:+ newline +:+ hints)).
Definition baseline_of (path : string) (questions : list row) : prog (odict (json F)) :=
  rows ← read_jsonl path;
  pairs ← PRet (mapM_ok (fun r => id ← str_at "question_id" r; route ← item "route" r; Ok (id, route)) (rows : list row));
  expected ← PRet (mapM_ok (str_at "id") questions);
  let baseline := foldl (fun d kv => dset kv.1 kv.2 d) [] (pairs : list (string * json F)) in
  check (negb (forallb (fun id => bool_decide (id ∈ expected)) (dkeys baseline) &&
               forallb (fun id => dmem id baseline) expected))
    (ValueError "Postgres baseline cache does not match the question set");;
  mret baseline.
Section rows.
Variables (agent_dsn pocket_dsn : string) (corpus_ids : list string) (baseline : odict (json F)).
Definition hindsight_route (raw : json F) : json F :=
  JObj [("contexts", JArr (map JStr (recall_texts raw)));
        ("provenance", JArr (map (fun id => JObj [("source", JStr "hindsight"); ("document_id", JStr id)]%string)
                               (recall_document_ids raw)));
        ("raw", raw)]%string.
Definition candidate_ids (raw : json F) : list string :=
  List.filter (fun id => bool_decide (id ∈ corpus_ids)) (recall_document_ids raw).
Definition postgres_route (question : row) (vector : option (list F)) : prog (json F) :=
  match baseline with
  | _ :: _ => PRet (id ← str_at "id" question; item id baseline)
  | [] =>
      match vector with
      | None => raise (OtherError "AssertionError" "raw query vector is missing")
      | Some vector =>
          query ← PRet (text_at "question" question);
          rows ← postgres_search agent_dsn pocket_dsn vector query (Some corpus_ids);
          PRet (r ← route_from_postgres rows; Ok (JObj r))
      end
  end.
Definition collect_row (question : row) (x : json F * option (list F) * list F) : prog row :=
  let '(raw, vector, expanded_vector) := x in
  postgres ← postgres_route question vector;
  query ← PRet (text_at "question" question);
  rows ← postgres_search agent_dsn pocket_dsn expanded_vector query
           (Some (match candidate_ids raw with [] => corpus_ids | ids => ids end));
  hybrid ← PRet (match rows with [] => obj postgres | _ => route_from_postgres rows end);
  let chars := foldr Z.add 0 (map (fun t => Z.of_nat (String.length t)) (recall_texts raw)) in
  mret [("question", JObj question);
        ("routes", JObj [("postgres", postgres); ("hindsight", hindsight_route raw);
                         ("hybrid", JObj (dset "hindsight_candidate_context_chars" (JInt chars) hybrid))])]%string.
End rows.
Record collect_args := {
  co_questions : string;
  co_corpus : string;
  co_agent_dsn : string;
  co_pocket_dsn : string;
  co_url : string;
  co_bank : string;
  co_output : string;
  co_baseline : option string;
}.
Definition collect (a : collect_args) : prog unit :=
  questions ← read_jsonl (co_questions a);
  corpus ← read_jsonl (co_corpus a);
  corpus_ids ← PRet (mapM_ok (str_at "document_id") corpus);
  baseline ← (match co_baseline a with
              | Some path => if bool_decide (path = EmptyString) then mret [] else baseline_of path questions
              | None => mret []
              end);
  check (negb (env_set env "CANARY_HINDSIGHT_TOKEN")) (SystemExit "CANARY_HINDSIGHT_TOKEN is required");;
  let base := rstrip_char "/" (co_url a) +:+ "/v1/default/banks/" +:+ co_bank a in
  recalls ← collect_recalls base questions;
  pairs ← PRet (zip_strict questions recalls);
  queries ← PRet (mapM_ok (fun p => expanded p.1 p.2) (pairs : list (row * json F)));
  raw_vectors ← (match baseline with
                 | _ :: _ => mret (map (fun _ => None) (questions : list row))
                 | [] =>
                     texts ← PRet (mapM_ok (text_at "question") (questions : list row));
                     vectors ← embed_queries texts;
                     mret (map Some (vectors : list (list F)))
                 end);
  expanded_vectors ← embed_queries queries;
  vectors ← PRet (zip_strict (raw_vectors : list (option (list F))) (expanded_vectors : list (list F)));
  rows ← PRet (zip_strict (pairs : list (row * json F)) vectors);
  output ← each_question (map (fun p => (p.1.1, (p.1.2, p.2.1, p.2.2))) (rows : list ((row * json F) * (option (list F) * list F))))
             (collect_row (co_agent_dsn a) (co_pocket_dsn a) corpus_ids baseline);
  ask (WriteRows (co_output a) output).
End env.
End collect.

(** ** Hindsight evaluation: theorems about collecting

    Searches stay inside the corpus under evaluation, and the vectors have the shape the
    searches need. *)

Section facts.
Context {F : Type} `{PyFloat F} `{PySqrt F}.
Abbreviation row := (odict (json F)).
Abbreviation prog := (@prog (@canary_effect F)).
Abbreviation hist := (@Effects.hist (@canary_effect F)).
Abbreviation cact := (@action (@canary_effect F)).

(** ** Vectors *)

Lemma mapM_ok_Forall {A B} (f : A -> result B) (P : B -> Prop) l k :
  (forall x y, f x = Ok y -> P y) -> mapM_ok f l = Ok k -> Forall P k.
Proof.
  intros HP. revert k. induction l as [|x l IH]; intros k; simpl; [by intros [= <-]|].
  intros (y & Hy & (ys & Hys & [= <-])%bind_Ok)%bind_Ok. constructor; [by eapply HP|by apply IH].
Qed.
Definition shaped (v : list F) : Prop := length v = DIMENSIONS.
Lemma fit_vector_shaped v w : fit_vector DIMENSIONS v = Ok w -> shaped w.
Proof.
  unfold fit_vector. intros (u & Hl%raise_if_Ok & [= <-])%bind_Ok. unfold shaped.
  rewrite length_map, length_take. apply Nat.ltb_ge in Hl. lia.
Qed.
Lemma vectors_of_shaped batch body vs :
  vectors_of (F := F) batch body = Ok vs -> length vs = length batch /\ Forall shaped vs.
Proof.
  unfold vectors_of. intros (d & _ & (data0 & _ & (data & _ & (u & Hl%raise_if_Ok & Hv)%bind_Ok)%bind_Ok)%bind_Ok)%bind_Ok.
  apply negb_false_iff, Nat.eqb_eq in Hl. split; [by rewrite (mapM_ok_length _ _ _ Hv)|].
  eapply mapM_ok_Forall; [|exact Hv]. intros x y. unfold vector_of.
  intros (e & _ & (l & _ & (k & _ & Hk)%bind_Ok)%bind_Ok)%bind_Ok. by eapply fit_vector_shaped.
Qed.
Lemma embed_batch_shaped base model batch :
  yields (embed_batch (F := F) base model batch) (fun vs => length vs = length batch /\ Forall shaped vs).
Proof.
  apply yields_then. intros [status content]. apply yields_then. intros []. apply yields_then. intros [].
  apply yields_ret. intros vs (body & _ & Hv)%bind_Ok. by eapply vectors_of_shaped.
Qed.
Lemma embed_batches_shaped base model fuel : forall queries, (length queries <= fuel)%nat ->
  yields (embed_batches (F := F) fuel base model queries) (fun vs => length vs = length queries /\ Forall shaped vs).
Proof.
  induction fuel as [|fuel IH]; intros queries Hf; cbn [embed_batches].
  - apply yields_mret. destruct queries; [done|]. simpl in Hf. lia.
  - destruct queries as [|q queries]; [by apply yields_mret|].
    eapply yields_bind; [apply embed_batch_shaped|]. intros vs [Hl Hs].
    eapply yields_bind; [apply IH; rewrite length_drop; cbn [length] in *; unfold BATCH; lia|]. intros rest [Hl' Hs'].
    apply yields_mret. split; [|by apply Forall_app].
    rewrite length_app, Hl, Hl', length_map, length_take, length_drop. cbn [length]. unfold BATCH. lia.
Qed.

(** Embedding returns one vector for every query, each with the 1024 components the
    database columns have. *)
Theorem embeddings_have_the_column_type env (queries : list string) h h' vs :
  runs (embed_queries env queries) h h' (Ok vs) ->
  length vs = length queries /\ Forall (fun v : list F => length v = DIMENSIONS) vs.
Proof.
  assert (yields (embed_queries (F := F) env queries) (fun vs => length vs = length queries /\ Forall shaped vs)) as Hy.
  { apply yields_then. intros []. by apply embed_batches_shaped. }
  intros Hr. exact (wp_runs _ _ _ _ _ _ (Hy h) Hr).
Qed.

(** ** The searches *)

Definition of_agents (s : statement) : bool :=
  match s with MessageVector | SessionVector | MessageText => true | _ => false end.
(** The documents a search is restricted to are of the corpus. *)
Definition restricted (corpus : list string) (s : statement) (ids : option (list string)) : Prop :=
  exists l, ids = Some l /\ l <> [] /\
    forall id, id ∈ l -> if of_agents s then id ∈ corpus /\ is_pocket id = false else ("pocket:" +:+ id)%string ∈ corpus.
Definition inside (corpus : list string) (a : cact) : Prop :=
  match a with Search _ s _ ids => restricted corpus s ids | _ => True end.

Lemma removeprefix_app p s : startswith p s = true -> (p +:+ removeprefix p s)%string = s.
Proof.
  unfold removeprefix. intros Hp. rewrite Hp. apply startswith_spec in Hp as [r ->]. f_equal. by induction p.
Qed.
Lemma elem_of_List_filter {A} (f : A -> bool) x l : x ∈ List.filter f l -> f x = true /\ x ∈ l.
Proof. rewrite !list_elem_of_In. intros [? ?]%filter_In. by split. Qed.
Lemma pocket_ids_restricted corpus l :
  (forall id, id ∈ l -> id ∈ corpus /\ is_pocket id = true) -> l <> [] ->
  restricted corpus SegmentVector (Some (map (removeprefix "pocket:") l)).
Proof.
  intros Hl Hn. eexists. split; [done|]. split; [by destruct l|]. intros id Hid. cbn [of_agents].
  apply list_elem_of_fmap in Hid as (id' & -> & Hid). apply Hl in Hid as [Hc Hp]. by rewrite removeprefix_app.
Qed.
Lemma agent_search_inside corpus dsn vector query l :
  (forall id, id ∈ l -> id ∈ corpus /\ is_pocket id = false) ->
  only (inside corpus) (agent_search dsn vector query (Some l)).
Proof.
  intros Hl. unfold agent_search. destruct l as [|id l]; [apply only_ret|].
  assert (restricted corpus MessageVector (Some (id :: l))) as Hr by (eexists; split; [done|]; by split).
  do 3 (apply only_bind; [apply only_act, Hr|intros ?]). only_auto.
Qed.
Lemma pocket_search_inside corpus dsn vector query l :
  (forall id, id ∈ l -> id ∈ corpus /\ is_pocket id = true) ->
  only (inside corpus) (pocket_search dsn vector query (Some l)).
Proof.
  intros Hl. unfold pocket_search. destruct l as [|id l]; [apply only_ret|].
  pose proof (pocket_ids_restricted corpus (id :: l) Hl ltac:(done)) as Hr.
  do 3 (apply only_bind; [apply only_act, Hr|intros ?]). only_auto.
Qed.
Lemma postgres_search_inside corpus agent_dsn pocket_dsn vector query l :
  (forall id, id ∈ l -> id ∈ corpus) ->
  only (inside corpus) (postgres_search agent_dsn pocket_dsn vector query (Some l)).
Proof.
  intros Hl. unfold postgres_search. cbn [fmap option_fmap option_map].
  apply only_bind; [apply agent_search_inside|intros agent].
  { intros id (Hp & Hid)%elem_of_List_filter. apply negb_true_iff in Hp. by auto. }
  apply only_bind; [apply pocket_search_inside|intros pocket; apply only_ret].
  intros id (Hp & Hid)%elem_of_List_filter. by auto.
Qed.
Definition quiet (a : cact) : Prop := match a with Search _ _ _ _ => False | _ => True end.
Lemma quiet_inside {A} corpus (p : prog A) : only quiet p -> only (inside corpus) p.
Proof. apply only_mono. by intros []. Qed.
Lemma read_quiet path : only quiet (read_jsonl (F := F) path).
Proof. unfold read_jsonl. only_auto. Qed.
Lemma embed_batches_quiet base model fuel : forall queries, only quiet (embed_batches (F := F) fuel base model queries).
Proof.
  induction fuel as [|fuel IH]; intros queries; cbn [embed_batches]; [apply only_ret|].
  destruct queries; [apply only_ret|]. unfold embed_batch, check. only_auto.
Qed.
Lemma embed_quiet env queries : only quiet (embed_queries (F := F) env queries).
Proof. unfold embed_queries, check. apply only_bind; [apply only_ret|intros _]. apply embed_batches_quiet. Qed.
Lemma recall_all_quiet base questions : only quiet (recall_all (F := F) base questions).
Proof.
  induction questions as [|q questions IH]; cbn [recall_all]; [apply only_ret|].
  unfold recall, request, circuit_opened, check. only_auto.
Qed.
Lemma collect_recalls_quiet env base questions : only quiet (collect_recalls (F := F) env base questions).
Proof. unfold collect_recalls, check. only_auto. apply recall_all_quiet. Qed.
Lemma baseline_quiet path questions : only quiet (baseline_of (F := F) path questions).
Proof. unfold baseline_of, check. pose proof read_quiet. only_auto. Qed.
Lemma each_question_only {A} P (l : list (row * A)) body :
  (forall q x, only P (body q x)) -> only P (each_question (F := F) l body).
Proof. intros Hb. induction l as [|[q x] l IH]; cbn [each_question]; only_auto. Qed.
Lemma collect_row_inside corpus agent_dsn pocket_dsn baseline question x :
  only (inside corpus) (collect_row (F := F) agent_dsn pocket_dsn corpus baseline question x).
Proof.
  destruct x as [[raw vector] expanded_vector]. unfold collect_row. apply only_bind; [|intros postgres].
  - unfold postgres_route. destruct baseline; [|apply only_ret]. destruct vector; [|apply only_ret].
    apply only_bind; [apply only_ret|intros query]. apply only_bind; [|intros rows; apply only_ret].
    by apply postgres_search_inside.
  - apply only_bind; [apply only_ret|intros query]. apply only_bind; [|intros rows; only_auto].
    apply postgres_search_inside. intros id. destruct (candidate_ids corpus raw) eqn:E; [done|]. rewrite <- E.
    unfold candidate_ids. intros (Hid & _)%elem_of_List_filter. by apply bool_decide_eq_true in Hid.
Qed.

(** ** The corpus that was read *)

Definition corpus_of (lines : list (option (json F))) (path : string) : result (list string) :=
  rows ← rows_of 1 path lines; mapM_ok (str_at "document_id") rows.
Definition known (path : string) (h : hist) (corpus : list string) : Prop :=
  exists lines, Ev (ReadRows path : cact) (Ok (Some lines)) ∈ h /\ corpus_of lines path = Ok corpus.
Definition in_read_corpus (path : string) (h : hist) (a : cact) : Prop :=
  quiet a \/ exists corpus, known path h corpus /\ inside corpus a.
Lemma known_later path e h corpus : known path h corpus -> known path (e :: h) corpus.
Proof. intros (lines & Hin & Hc). exists lines. split; [by right|done]. Qed.
Lemma wpo_quiet {A} path (p : prog A) h (Q : hist -> A -> Prop) :
  only quiet p -> (forall h' a, Q h' a) -> wpo (in_read_corpus path) p h Q.
Proof. intros Hp HQ. eapply wpo_only; [exact Hp| |]; [by left|by intros]. Qed.
(** Reading the corpus, and then searching inside it *)
Lemma read_then_inside {A} path (f : list row -> list string -> prog A) h :
  (forall rows corpus, only (inside corpus) (f rows corpus)) ->
  wpo (in_read_corpus path)
    (rows ← read_jsonl path; corpus ← PRet (mapM_ok (str_at "document_id") rows); f rows corpus) h (fun _ _ => True).
Proof.
  intros Hf. apply wpo_bind. unfold read_jsonl. apply wpo_bind.
  apply (wpo_act (in_read_corpus path) (ReadRows path : cact)); [by left|]. intros [lines|]; [|done]. apply wpo_ret. intros rows Hr.
  apply wpo_bind, wpo_ret. intros corpus Hc.
  assert (keeps (in_read_corpus path) (fun h => known path h corpus) (f rows corpus)) as Hk.
  { eapply keeps_only; [apply Hf| |].
    - intros h' a Hk Ha. right. by exists corpus.
    - intros h' a r Hk _. by apply known_later. }
  eapply wp_post; [apply Hk|by intros ? []].
  exists lines. split; [by left|]. unfold corpus_of. by rewrite Hr.
Qed.
#[local] Hint Resolve read_quiet embed_quiet collect_recalls_quiet baseline_quiet quiet_inside each_question_only
  collect_row_inside postgres_search_inside : effects.

(** Whatever the databases, the memory service and the files answer, every search of a
    collection is restricted to a list of documents, none empty, and every one of them a
    document of the corpus file that was read; sessions are looked up in one database and
    recordings, without their prefix, in the other. *)
Theorem searches_stay_in_the_corpus env (a : collect_args) h dsn s parameter ids k :
  steps (collect env a) [] (POp (Search dsn s parameter ids : cact) k) h ->
  exists corpus, known (co_corpus a) h corpus /\ restricted corpus s ids.
Proof.
  intros Hs.
  assert (wp (in_read_corpus (co_corpus a)) (collect env a) [] (fun _ _ => True)) as Hw.
  { eapply wp_post with (Q := fun h r => match r with Ok a => True | Raise _ => True end); [|done].
    unfold collect. apply wpo_bind. apply wpo_quiet; [auto with effects|]. intros h' questions.
    apply read_then_inside. intros rows corpus.
    apply only_bind; [destruct (co_baseline a); only_auto|intros baseline].
    apply only_bind; [apply only_ret|intros _].
    apply only_bind; [auto with effects|intros recalls]. apply only_bind; [apply only_ret|intros pairs].
    apply only_bind; [apply only_ret|intros queries]. apply only_bind; [destruct baseline; only_auto|intros raw_vectors].
    apply only_bind; [auto with effects|intros vectors]. apply only_bind; [apply only_ret|intros vectors'].
    apply only_bind; [apply only_ret|intros zipped]. apply only_bind; [|intros output; by apply only_act].
    apply each_question_only. intros q x. apply collect_row_inside. }
  destruct (wp_guard _ _ _ _ _ _ _ Hw Hs) as [[]|(corpus & Hk & Hi)]. by exists corpus.
Qed.
End facts.

(** ** Hindsight evaluation: a concrete collection

    One question, one session in the corpus, services that answer: the theorems about
    collecting applied to it. *)

Abbreviation F := spec_float.
Abbreviation cact := (@action (@canary_effect F)).

Definition demo_env : odict string :=
  [("CANARY_HINDSIGHT_TOKEN", "token"); ("CANARY_QWEN_API_KEY", "key")]%string.
Definition demo_collect : collect_args := {|
  co_questions := "questions.jsonl"; co_corpus := "corpus.jsonl"; co_agent_dsn := "agents"; co_pocket_dsn := "pocket";
  co_url := "http://hindsight"; co_bank := "canary"; co_output := "routes.jsonl"; co_baseline := None |}.
Definition demo_question : json F :=
  JObj [("id", JStr "q1"); ("question", JStr "what failed"); ("category", JStr "temporal_updates");
        ("answer", JStr "the migration")]%string.
Definition embedding (index : Z) : json F :=
  JObj [("index", JInt index); ("embedding", JArr (replicate 1024 (JInt 0)))]%string.
Definition found_row : odict (json F) :=
  [("document_id", JStr "d1"); ("source_id", JInt 7); ("context", JStr "the migration failed")]%string.
Definition demo_answer (a : caction F) (w : unit) : result (canswer a) * unit :=
  match a as a return result (canswer a) * unit with
  | ReadText _ => (Ok None, w)
  | ReadRows path =>
      (Ok (Some [Some (if bool_decide (path = "corpus.jsonl"%string)
                       then JObj [("document_id", JStr "d1")]%string else demo_question)]), w)
  | ReadJson _ => (Ok None, w)
  | WriteJson _ _ | WriteRows _ _ | AppendRow _ _ | Wait _ => (Ok tt, w)
  | Request _ url _ _ =>
      (Ok (200, Some (if endswith "/embeddings" url then JObj [("data", JArr [embedding 0])]%string
                      else JObj [("results", JArr [JObj [("text", JStr "a migration");
                                                         ("document_id", JStr "canary:summary:agent_sessions:d1")]])]%string)), w)
  | Search _ _ _ _ => (Ok [found_row], w)
  | NowIso | Nonce => (Ok EmptyString, w)
  | NowStamp => (Ok (B64.of_Z 0), w)
  end.

(** The collection ends, and both routes found the session. *)
Example demo_collects :
  match (exec (E := canary_effect) demo_answer (collect demo_env demo_collect) tt []) with
  | (Some (Ok _), _, Ev (WriteRows path [r]) _ :: _) => path = "routes.jsonl"%string /\ dkeys r = ["question"; "routes"]%string
  | _ => False
  end.
Proof. vm_compute. done. Qed.

Definition embedded : option (result (list (list F))) * unit * hist :=
  exec (E := canary_effect) demo_answer (embed_queries demo_env ["what failed"%string]) tt [].
Definition embedded_vectors : list (list F) :=
  match embedded.1.1 with Some (Ok vs) => vs | _ => [] end.
Lemma embedded_runs : embedded.1.1 = Some (Ok embedded_vectors).
Proof. vm_compute. reflexivity. Qed.
Lemma embeddings_have_the_column_type_witness :
  length embedded_vectors = 1%nat /\ Forall (fun v : list F => length v = DIMENSIONS) embedded_vectors.
Proof.
  exact (embeddings_have_the_column_type demo_env ["what failed"%string] [] _ _ (exec_runs _ _ _ _ _ embedded_runs)).
Defined.

Definition searching (a : cact) : bool := match a with Search _ _ _ _ => true | _ => false end.
Definition at_search : @prog (@canary_effect F) unit * hist :=
  reach (E := canary_effect) searching demo_answer (collect demo_env demo_collect) tt [].
Definition parameter : string :=
  match next_action at_search.1 with Some (Search _ _ p _) => p | _ => EmptyString end.
Lemma next_is_search :
  next_action at_search.1 = Some (Search "agents" MessageVector parameter (Some ["d1"%string])).
Proof. vm_compute. reflexivity. Qed.
Lemma searches_stay_in_the_corpus_witness :
  exists corpus, known "corpus.jsonl" at_search.2 corpus /\ restricted corpus MessageVector (Some ["d1"%string]).
Proof.
  destruct (reach_performs (E := canary_effect) searching demo_answer (collect demo_env demo_collect) tt [] _ next_is_search) as [k Hk].
  exact (searches_stay_in_the_corpus demo_env demo_collect _ _ _ _ _ k Hk).
Defined.
