(* ===== verification/CanaryText.v ===== *)
(** * Hindsight canary: the text of prompts and cards

    canary.py: reading one JSON object out of a model's reply, cutting a transcript into
    chunks, and the text and the checks of a session card. *)

From stdpp Require Import base option list strings sets.
From Stdlib Require Import ZArith Lia Ascii.
From S2P Require Import Prelude PyStr PyFloat Json JsonParse StrFacts Canary Eval.

Local Open Scope Z_scope.
Local Open Scope py_scope.

Section text.
Context {F : Type} `{PyFloat F}.
Abbreviation row := (odict (json F)).

(** ** [parse_json_object] *)

Definition JSONDecodeError (msg : string) : exn := OtherError "JSONDecodeError" msg.
(** [re.sub(r"^```(?:json)?\s*", "", text, flags=re.IGNORECASE)] of a text with the fence *)
Definition strip_fence (text : string) : string :=
  let s := sdrop 3 text in
  dropwhile is_space (if startswith "json" (lower s) then sdrop 4 s else s).
(** The offsets of the text, in order; [errors] says whether a brace was tried before. *)
Fixpoint first_object (errors : bool) (text : string) : result row :=
  match text with
  | EmptyString =>
      if errors then Raise (JSONDecodeError "no brace opens a JSON object")
      else Raise (ValueError "LLM response does not contain a JSON object")
  | String c rest =>
      if eqc c "{" then
        match raw_decode (F := F) text with
        | Some (JObj d, _) => Ok d
        | Some _ => first_object errors rest
        | None => first_object true rest
        end
      else first_object errors rest
  end.
Definition parse_json_object (content : string) : result row :=
  let text := strip content in
  first_object false (if startswith "```" text then strip_fence text else text).

(** ** Chunks *)

Definition message_text (m : row) : string := str_or "text" m.
Definition message_size (m : row) : Z := Z.of_nat (String.length (message_text m)) + 80.
Definition capped (max_chars : Z) (m : row) : row :=
  if max_chars <? message_size m
  then dset "text" (JStr (stake (Z.to_nat (max_chars - 200)) (message_text m) +:+ newline +:+ "[TRUNCATED SINGLE MESSAGE]")) m
  else m.
Fixpoint chunks_from (max_chars : Z) (messages : list row) (chunks : list (list row)) (current : list row) (size : Z)
    : list (list row) :=
  match messages with
  | [] => match current with [] => chunks | _ => chunks ++ [current] end
  | m :: messages =>
      let n := message_size m in
      let full := negb (bool_decide (length current = 0%nat)) && (max_chars <? size + n) in
      let chunks := if full then chunks ++ [current] else chunks in
      let current := if full then [] else current in
      let size := if full then 0 else size in
      chunks_from max_chars messages chunks (current ++ [capped max_chars m]) (size + Z.min n max_chars)
  end.
Definition message_chunks (messages : list row) (max_chars : Z) : list (list row) :=
  match chunks_from max_chars messages [] [] 0 with [] => [[]] | chunks => chunks end.
Definition format_message (m : row) : string :=
  "[seq=" +:+ json_str (get_or_null "seq" m) +:+ " role=" +:+ json_str (get_or_null "role" m) +:+ " tool=" +:+
  str_or "tool_name" m +:+ "]" +:+ newline +:+ str_or "text" m.
Definition format_messages (messages : list row) : string := join (newline +:+ newline) (map format_message messages).

(** ** The text of a card *)

Definition card_fields (value : row) : list (string * option (json F)) :=
  [("Objective", dget "objective" value);
   ("Outcome/status", oor (dget "outcome_status" value) (dget "outcome" value));
   ("Decisions", dget "decisions" value); ("Errors/blockers", dget "errors_blockers" value);
   ("Artifacts", dget "artifacts" value); ("Follow-ups", dget "follow_ups" value);
   ("Source sequences", dget "source_sequences" value)]%string.
Definition rendered (raw : option (json F)) : string :=
  match raw with
  | Some (JArr l) => join "; " (map json_str l)
  | Some (JObj d) => dumps_sorted (JObj d)
  | Some j => if truthy j then json_str j else EmptyString
  | None => EmptyString
  end.
Definition card_lines (value : row) : list string :=
  map (fun f => f.1 +:+ ": " +:+ rendered f.2)%string (card_fields value).
Definition card_text (value : row) : string :=
  let lines := card_lines value in
  let text := join newline lines in
  if (String.length text <=? MAX_CONTENT_CHARS)%nat then text
  else
    let source := stake 500 (List.last lines EmptyString) in
    stake MAX_CONTENT_CHARS
      (rdropwhile is_space (stake (MAX_CONTENT_CHARS - String.length source - 2) (join newline (removelast lines))) +:+
       newline +:+ source).

(** ** The checks of a card *)

Definition card_required : list string :=
  ["objective"; "outcome_status"; "decisions"; "errors_blockers"; "artifacts"; "follow_ups"; "source_sequences"]%string.
Definition list_fields : list string :=
  ["decisions"; "errors_blockers"; "artifacts"; "follow_ups"; "source_sequences"]%string.
Definition is_list (o : option (json F)) : bool := match o with Some (JArr _) => true | _ => false end.
(** The elements of a set, [TypeError] when one is not hashable *)
Definition set_of (l : list (json F)) : result (list (json F)) :=
  raise! TypeError "unhashable type" when negb (forallb hashable l);
  Ok l.
Definition set_mem (j : json F) (l : list (json F)) : result bool :=
  raise! TypeError "unhashable type" when negb (hashable j);
  Ok (existsb (py_eq j) l).
(** [any(x not in known for x in l)] *)
Fixpoint any_unknown (known l : list (json F)) : result bool :=
  match l with
  | [] => Ok false
  | j :: l => x ← set_mem j known; if x : bool then any_unknown known l else Ok true
  end.
Definition messages_of (record : row) : result (list row) :=
  l ← (if otruthy (dget "messages" record) then py_list (get_or_null "messages" record) else Ok []);
  mapM_ok obj l.
Fixpoint check_lists (value : row) (fields : list string) : result unit :=
  match fields with
  | [] => Ok tt
  | field :: fields =>
      raise! ValueError ("session card field " +:+ field +:+ " must be a list") when negb (is_list (dget field value));
      check_lists value fields
  end.
Definition validate_card (record value : row) : result unit :=
  let missing := List.filter (fun k => negb (dmem k value)) card_required in
  raise! ValueError ("session card is missing required fields: " +:+ join ", " (ssort missing))
    when negb (bool_decide (missing = []));
  check_lists value list_fields;;
  sequences ← (j ← item "source_sequences" value; py_list j);
  messages ← messages_of record;
  known ← set_of (map (get_or_null "seq") messages);
  raise! ValueError "session card must cite at least one source sequence"
    when negb (bool_decide (length known = 0%nat)) && bool_decide (length sequences = 0%nat);
  unknown ← any_unknown known sequences;
  raise! ValueError "session card cited an unknown source sequence" when unknown;
  Ok tt.
End text.

(** ** Hindsight canary: theorems about text

    The object a model prints is read back, chunks keep the transcript and the limit, and a
    card fits its field. *)

Section facts.
Context {F : Type} `{PyFloat F}.
Abbreviation row := (odict (json F)).
Implicit Types j : json F.

(** ** The printed object is read back *)

Lemma join_length sep l : l <> [] ->
  String.length (join sep l) = (list_sum (map String.length l) + String.length sep * (length l - 1))%nat.
Proof.
  induction l as [|x [|y l] IH]; intros Hl; [done| |].
  - simpl. lia.
  - change (join sep (x :: y :: l)) with (x +:+ sep +:+ join sep (y :: l))%string.
    rewrite !string_length_app, IH by done. simpl. lia.
Qed.
Lemma list_sum_le {A} (f g : A -> nat) l : Forall (fun x => f x <= g x)%nat l ->
  (list_sum (map f l) <= list_sum (map g l))%nat.
Proof. induction 1; simpl; lia. Qed.
Lemma list_sum_S {A} (f : A -> nat) l : list_sum (map (fun x => S (f x)) l) = (length l + list_sum (map f l))%nat.
Proof. induction l; simpl; lia. Qed.
Lemma jsize_length j : plain j -> (jsize j <= String.length (dumps j))%nat.
Proof.
  induction j as [|b|z|f|s|l IH|d IH] using json_nested_ind; intros Hp.
  - simpl. lia.
  - destruct b; simpl; lia.
  - destruct (dumps_first (JInt z : json F) Hp) as (c & t & Hc & _). rewrite Hc. simpl. lia.
  - done.
  - simpl. lia.
  - apply plain_arr in Hp. change (dumps (JArr l)) with ("[" +:+ join ", " (map dumps l) +:+ "]")%string.
    rewrite !string_length_app. cbn [jsize String.length]. rewrite list_sum_S.
    destruct l as [|x l]; [simpl; lia|]. rewrite join_length by done. rewrite map_map, length_map.
    assert (list_sum (map jsize (x :: l)) <= list_sum (map (fun x => String.length (dumps x)) (x :: l)))%nat.
    { apply list_sum_le. rewrite Forall_forall in IH, Hp |- *. auto. }
    cbn [length String.length]. lia.
  - apply plain_obj in Hp as [_ Hp]. change (dumps (JObj d)) with ("{" +:+ join ", " (map member_text d) +:+ "}")%string.
    rewrite !string_length_app. cbn [jsize String.length]. rewrite list_sum_S.
    destruct d as [|x d]; [simpl; lia|]. rewrite join_length by done. rewrite map_map, length_map.
    assert (list_sum (map (fun kv => jsize kv.2) (x :: d)) <= list_sum (map (fun kv => String.length (member_text kv)) (x :: d)))%nat.
    { apply list_sum_le. rewrite Forall_forall in IH, Hp |- *. intros kv Hkv. specialize (IH _ Hkv (Hp _ Hkv)).
      unfold member_text. rewrite !string_length_app. lia. }
    cbn [length String.length]. lia.
Qed.
Lemma raw_decode_dumps j rest : plain j -> ends j rest -> raw_decode (dumps j +:+ rest) = Some (j, rest).
Proof.
  intros Hp Hr. apply scan_dumps; [done| |done]. rewrite string_length_app. pose proof (jsize_length j Hp). lia.
Qed.
Lemma first_object_dumps e d rest : plain (JObj d) ->
  first_object (F := F) e (dumps (JObj d) +:+ rest) = Ok d.
Proof.
  intros Hp. pose proof (raw_decode_dumps _ rest Hp I) as Hd. revert Hd.
  change (dumps (JObj d)) with ("{" +:+ join ", " (map member_text d) +:+ "}")%string. rewrite !app_cons. intros Hd.
  cbn [first_object]. change (eqc "{" "{") with true. cbn iota. by rewrite Hd.
Qed.
(** Stripping a text that starts with the printed object keeps the object. *)
Lemma rdropwhile_app_l p a b : rdropwhile p a = a -> a <> EmptyString -> exists t, rdropwhile p (a +:+ b) = (a +:+ t)%string.
Proof.
  intros Ha Hn. destruct (decide (rdropwhile p b = EmptyString)) as [Hb|Hb].
  - exists EmptyString. rewrite string_app_nil_r. rewrite <- Ha at 2. clear Hn Ha. induction a as [|c a IH]; [done|].
    rewrite app_cons. simpl. by rewrite IH.
  - exists (rdropwhile p b). clear Ha Hn. induction a as [|c a IH]; [done|]. rewrite !app_cons. simpl. rewrite IH.
    destruct (a +:+ rdropwhile p b)%string eqn:E; [|done]. exfalso. apply Hb. destruct a; [exact E|discriminate E].
Qed.
Lemma dumps_object_ends d : exists t, dumps (JObj d : json F) = (t +:+ "}")%string.
Proof. exists ("{" +:+ join ", " (map member_text d))%string. by rewrite string_app_assoc. Qed.
Lemma rdropwhile_object d : rdropwhile is_space (dumps (JObj d : json F)) = dumps (JObj d : json F).
Proof. destruct (dumps_object_ends d) as [t ->]. by apply rdropwhile_app_keep. Qed.
(** A text without an opening brace goes before the object. *)
Definition braceless : string -> bool := sall (fun c => negb (eqc c "{")).
Lemma sall_sdrop p n b : sall p b = true -> sall p (sdrop n b) = true.
Proof. revert b. induction n as [|n IH]; intros [|c b]; simpl; try done. intros [_ Hb]%andb_true_iff. by apply IH. Qed.
Lemma sall_dropwhile p q b : sall p b = true -> sall p (dropwhile q b) = true.
Proof. induction b as [|c b IH]; simpl; [done|]. intros [Hc Hb]%andb_true_iff. destruct (q c); [by apply IH|]. simpl. by rewrite Hc. Qed.
Lemma dropwhile_before q b c t : q c = false -> dropwhile q (b +:+ String c t) = (dropwhile q b +:+ String c t)%string.
Proof. intros Hq. induction b as [|a b IH]; [simpl; by rewrite Hq|]. rewrite app_cons. simpl. by destruct (q a). Qed.
Lemma sdrop_before n b t : (n <= String.length b)%nat -> sdrop n (b +:+ t) = (sdrop n b +:+ t)%string.
Proof. revert b. induction n as [|n IH]; intros [|c b] Hn; simpl in Hn; try lia; [done..|]. apply IH. lia. Qed.
Lemma startswith_before w b c t :
  startswith w (b +:+ String c t) = true -> sall (fun x => negb (eqc x c)) w = true -> (String.length w <= String.length b)%nat.
Proof.
  revert b. induction w as [|x w IH]; intros b Hs Hw; [simpl; lia|]. simpl in Hw. apply andb_true_iff in Hw as [Hx Hw].
  destruct b as [|a b].
  - simpl in Hs. apply andb_true_iff in Hs as [Hs _]. by rewrite Hs in Hx.
  - rewrite app_cons in Hs. simpl in Hs. apply andb_true_iff in Hs as [_ Hs]. simpl. specialize (IH b Hs Hw). lia.
Qed.
Lemma smap_app f b t : smap f (b +:+ t) = (smap f b +:+ smap f t)%string.
Proof. induction b as [|c b IH]; [done|]. rewrite !app_cons. simpl. by rewrite IH. Qed.
Lemma smap_length f b : String.length (smap f b) = String.length b.
Proof. induction b as [|c b IH]; [done|]. simpl. by rewrite IH. Qed.
Lemma first_object_before e b d t : plain (JObj d) -> braceless b = true ->
  first_object (F := F) e (b +:+ dumps (JObj d) +:+ t) = Ok d.
Proof.
  intros Hp. induction b as [|c b IH]; intros Hb; [by apply first_object_dumps|].
  unfold braceless in Hb. simpl in Hb. apply andb_true_iff in Hb as [Hc%negb_true_iff Hb]. rewrite app_cons. cbn [first_object].
  rewrite Hc. by apply IH.
Qed.
Lemma strip_fence_before b t : braceless b = true -> startswith "```" (b +:+ String "{" t) = true ->
  exists b', strip_fence (b +:+ String "{" t) = (b' +:+ String "{" t)%string /\ braceless b' = true.
Proof.
  intros Hb Hf%startswith_before; [|done]. unfold strip_fence. rewrite sdrop_before by done.
  destruct (startswith "json" (lower (sdrop 3 b +:+ String "{" t))) eqn:Ej.
  - unfold lower in Ej. rewrite smap_app in Ej. change (smap lower_char (String "{" t)) with (String "{" (smap lower_char t)) in Ej.
    apply startswith_before in Ej; [|done]. rewrite smap_length in Ej. rewrite sdrop_before, dropwhile_before by done.
    eexists. split; [done|]. by repeat first [apply sall_dropwhile|apply sall_sdrop].
  - rewrite dropwhile_before by done. eexists. split; [done|]. by repeat first [apply sall_dropwhile|apply sall_sdrop].
Qed.

(** C35: A reply whose first opening brace begins a printed object without floating-point
    numbers, whatever text, white space or fence is before it and whatever follows it, is
    read as that object. *)
Theorem printed_object_is_read_back (d : row) (before rest : string) :
  plain (JObj d) -> braceless before = true -> parse_json_object (before +:+ dumps (JObj d) +:+ rest) = Ok d.
Proof.
  intros Hp Hb. assert (exists t, dumps (JObj d : json F) = String "{" t) as [u Hu].
  { by exists (join ", " (map member_text d) +:+ "}")%string. }
  assert (exists b t, strip (before +:+ dumps (JObj d) +:+ rest) = (b +:+ dumps (JObj d : json F) +:+ t)%string /\ braceless b = true)
    as (b & t & Hs & Hb').
  { unfold strip, strip_by. rewrite Hu, app_cons, dropwhile_before by done. rewrite <- app_cons, <- Hu, <- string_app_assoc.
    destruct (rdropwhile_app_l is_space (dropwhile is_space before +:+ dumps (JObj d : json F)) rest) as [t Ht].
    { apply rdropwhile_app_keep; [apply rdropwhile_object|by rewrite Hu]. }
    { rewrite Hu. by destruct (dropwhile is_space before). }
    exists (dropwhile is_space before), t. rewrite Ht, string_app_assoc. split; [done|]. by apply sall_dropwhile. }
  unfold parse_json_object. rewrite Hs. destruct (startswith "```" _) eqn:Ef; [|by apply first_object_before].
  rewrite Hu, app_cons in Ef |- *. destruct (strip_fence_before b (u +:+ t) Hb' Ef) as (b' & -> & Hb'').
  rewrite <- app_cons, <- Hu. by apply first_object_before.
Qed.

(** ** Chunks *)

(** What the messages of a chunk come to *)
Definition chunk_size (chunk : list row) : Z := foldr Z.add 0 (map message_size chunk).
Lemma chunk_size_app a b : chunk_size (a ++ b) = chunk_size a + chunk_size b.
Proof. unfold chunk_size. rewrite map_app. induction (map message_size a) as [|x l IH]; simpl; lia. Qed.
Lemma capped_size limit m : 200 <= limit -> message_size (capped limit m) <= Z.min (message_size m) limit.
Proof.
  intros Hl. unfold capped. destruct (limit <? message_size m) eqn:E; [|apply Z.ltb_ge in E; lia].
  apply Z.ltb_lt in E. unfold message_size at 1, message_text at 1, str_or. rewrite dget_dset_eq.
  destruct (truthy _) eqn:Et; [|simpl in *; lia]. cbn [json_str]. rewrite !string_length_app.
  pose proof (stake_length (Z.to_nat (limit - 200)) (message_text m)). cbn [newline String.length]. lia.
Qed.
Definition good_chunk (limit : Z) (chunk : list row) : Prop := chunk <> [] /\ chunk_size chunk <= limit.
Lemma chunks_from_spec limit messages : 200 <= limit -> forall chunks current size,
  Forall (good_chunk limit) chunks -> chunk_size current <= size <= limit -> (current = [] -> size = 0) ->
  concat (chunks_from limit messages chunks current size) = concat chunks ++ current ++ map (capped limit) messages /\
  Forall (good_chunk limit) (chunks_from limit messages chunks current size).
Proof.
  intros Hl. induction messages as [|m messages IH]; intros chunks current size Hc Hs He; cbn [chunks_from map].
  - rewrite app_nil_r. destruct current as [|x current]; [by rewrite app_nil_r|].
    rewrite concat_app. cbn [concat]. rewrite app_nil_r. split; [done|]. apply Forall_app. split; [done|].
    repeat constructor; [done|lia].
  - pose proof (capped_size limit m Hl) as Hm. assert (0 <= message_size m) by (unfold message_size; lia).
    assert (chunk_size [capped limit m] = message_size (capped limit m)) as H1 by (unfold chunk_size; simpl; lia).
    destruct (negb (bool_decide (length current = 0%nat)) && (limit <? size + message_size m)) eqn:Ef.
    + apply andb_true_iff in Ef as [Hn%negb_true_iff%bool_decide_eq_false _].
      destruct (IH (chunks ++ [current]) ([] ++ [capped limit m]) (0 + Z.min (message_size m) limit)) as [-> Hg].
      * apply Forall_app. split; [done|]. repeat constructor; [by intros ->|lia].
      * cbn [app]. lia.
      * done.
      * split; [|done]. rewrite concat_app. cbn [concat app]. rewrite app_nil_r, <- !app_assoc. done.
    + destruct (IH chunks (current ++ [capped limit m]) (size + Z.min (message_size m) limit)) as [-> Hg].
      * done.
      * rewrite chunk_size_app, H1. apply andb_false_iff in Ef as [Ef%negb_false_iff%bool_decide_eq_true|Ef%Z.ltb_ge]; [|lia].
        apply nil_length_inv in Ef. specialize (He Ef). lia.
      * intros Hn. by apply app_eq_nil in Hn as [_ ?].
      * split; [|done]. by rewrite <- app_assoc.
Qed.

(** The chunks of a transcript are, one after the other, its messages, each as it was or
    cut when it alone is over the limit; no chunk is empty and none is over the limit. *)
Theorem chunks_keep_the_transcript (messages : list row) limit :
  200 <= limit -> messages <> [] ->
  concat (message_chunks messages limit) = map (capped limit) messages /\
  Forall (fun chunk => chunk <> [] /\ chunk_size chunk <= limit) (message_chunks messages limit).
Proof.
  intros Hl Hn. unfold message_chunks.
  destruct (chunks_from_spec limit messages Hl [] [] 0) as [Hc Hg]; [apply Forall_nil_2|unfold chunk_size; simpl; lia|done|].
  destruct (chunks_from limit messages [] [] 0) as [|c l] eqn:E; [|done].
  destruct messages; [done|]. by simpl in Hc.
Qed.

(** ** Cards *)

Lemma stake_short n s : (String.length s <= n)%nat -> stake n s = s.
Proof. revert s. induction n as [|n IH]; intros [|c s] Hn; simpl in *; try done; [lia|]. f_equal. apply IH. lia. Qed.
Lemma rdropwhile_length p s : (String.length (rdropwhile p s) <= String.length s)%nat.
Proof. destruct (rdropwhile_suffix p s) as (t & E & _). rewrite E at 2. rewrite string_length_app. lia. Qed.
(** The text of a card fits the content field of the memory service; a card that is cut
    still ends with its line of source sequences, up to 500 characters of it. *)
Theorem card_fits_with_its_sources (value : row) :
  (String.length (card_text value) <= MAX_CONTENT_CHARS)%nat /\
  exists start, card_text value =
    (start +:+ newline +:+
       (let source := "Source sequences: " +:+ rendered (dget "source_sequences" value) in
        if (String.length (join newline (card_lines value)) <=? MAX_CONTENT_CHARS)%nat then source else stake 500 source))%string.
Proof.
  set (source := ("Source sequences: " +:+ rendered (dget "source_sequences" value))%string).
  assert (exists first, card_lines value = first ++ [source] /\ first <> []) as (first & Hl & Hf).
  { eexists [_; _; _; _; _; _]. split; [reflexivity|done]. }
  assert (join newline (card_lines value) = join newline first +:+ newline +:+ source)%string as Hj.
  { rewrite Hl. clear Hl. induction first as [|x [|y first] IH]; [done|done|].
    change ((x :: y :: first) ++ [source]) with (x :: y :: (first ++ [source])).
    change (join newline (x :: y :: ?l)) with (x +:+ newline +:+ join newline (y :: l))%string.
    change (y :: first ++ [source]) with ((y :: first) ++ [source]). rewrite IH by done. by rewrite !string_app_assoc. }
  unfold card_text. destruct (String.length (join newline (card_lines value)) <=? MAX_CONTENT_CHARS)%nat eqn:E.
  - apply Nat.leb_le in E. split; [done|]. by exists (join newline first).
  - assert (List.last (card_lines value) EmptyString = source) as -> by by (rewrite Hl; apply last_last).
    split; [apply stake_length|]. eexists. rewrite stake_short; [reflexivity|].
    rewrite !string_length_app. pose proof (stake_length 500 source).
    match goal with |- context [rdropwhile is_space (stake ?n ?s)] =>
      pose proof (rdropwhile_length is_space (stake n s)); pose proof (stake_length n s) end.
    unfold MAX_CONTENT_CHARS in *. cbn [newline String.length]. lia.
Qed.
End facts.
