(* ===== verification/CanaryLedger.v ===== *)
(** * Hindsight canary: the token ledger and the model client

    canary.py: class [BudgetLedger], [rate_capacity_delay] and
    [LLMClient.json_completion]. The ledger lives in memory and is written to its file
    after every call. *)

From stdpp Require Import base option list strings.
From Stdlib Require Import ZArith Lia Ascii.
From S2P Require Import Prelude PyStr PyFloat Json Effects Canary CanaryText CanaryGate.

Local Open Scope Z_scope.
Local Open Scope py_scope.

Section ledger.
Context {F : Type} `{PyFloat F}.
Abbreviation row := (odict (json F)).
Abbreviation prog := (@prog (@canary_effect F)).
Variable env : odict string.
(** [datetime.fromisoformat(s).timestamp()], [None] for [ValueError] *)
Variable timestamp_of : string -> option F.

(** ** [BudgetLedger] *)

Record ledger := {
  lg_path : string;
  lg_guard : guard F;
  lg_data : row;
}.
Definition with_data (l : ledger) (d : row) : ledger := {| lg_path := lg_path l; lg_guard := lg_guard l; lg_data := d |}.
Definition float_field (k : string) (d : row) : result F := j ← item k d; json_float j.
Definition float_or0 (k : string) (d : row) : result F := json_float (default (JInt 0) (dget k d)).
Definition open_ledger (path : string) : prog ledger :=
  g ← key_preflight env false;
  stored ← ask (ReadJson path);
  data ← PRet (match stored with
               | Some j => obj j
               | None => Ok [("spent_usd", JFloat (f_of_Z 0)); ("calls", JArr []);
                             ("hard_budget_usd", JFloat (gd_hard_budget g))]%string
               end);
  hard ← PRet (float_or0 "hard_budget_usd" data);
  check (negb (f_eqb hard (gd_hard_budget g)))
    (RuntimeError "ledger hard budget does not match the current canary guard");;
  spent ← PRet (float_or0 "spent_usd" data);
  check (f_ltb (gd_hard_budget g) spent) (RuntimeError "existing ledger already exceeds the canary guard");;
  mret {| lg_path := path; lg_guard := g; lg_data := data |}.

Definition model_family (model : string) : result string :=
  let normalized := lower model in
  if contains "20b" normalized then Ok "20B"%string
  else if contains "120b" normalized then Ok "120B"%string
  else Raise (SystemExit ("unsupported canary model for explicit pricing: " +:+ model)).
Definition env_price (name : string) : result F :=
  match dget name env with
  | Some raw => json_float (JStr raw)
  | None => Raise (SystemExit ("missing explicit canary price: " +:+ name))
  end.
Definition prices (model : string) : result (F * F) :=
  family ← model_family model;
  input_price ← env_price (price_name family "INPUT");
  output_price ← env_price (price_name family "OUTPUT");
  Ok (input_price, output_price).
Definition effective_budget (l : ledger) : F := gd_effective (lg_guard l).
(** [(input * input_price + output * output_price) / 1_000_000] *)
Definition token_cost (p : F * F) (input_tokens output_tokens : Z) : result F :=
  i ← f_int input_tokens;
  o ← f_int output_tokens;
  Ok (f_div (f_add (f_mul i p.1) (f_mul o p.2)) (f_of_Z 1000000)).

Record reservation := {
  rs_input_tokens : Z;
  rs_output_tokens : Z;
  rs_cost_usd : F;
}.
Definition reserve (l : ledger) (model : string) (prompt_bytes max_completion_tokens : Z) : result reservation :=
  p ← prices model;
  let input_tokens := Z.max 1 prompt_bytes in
  estimate ← token_cost p input_tokens max_completion_tokens;
  spent ← float_field "spent_usd" (lg_data l);
  raise! RuntimeError "local worst-case reservation would exceed the effective guard"
    when f_ltb (effective_budget l) (f_add spent estimate);
  Ok {| rs_input_tokens := input_tokens; rs_output_tokens := max_completion_tokens; rs_cost_usd := estimate |}.

(** What the provider reports, [None] when it is missing *)
Definition reported (k k' : string) (usage : row) : option (json F) :=
  match oor (dget k usage) (dget k' usage) with Some JNull => None | o => o end.
Definition tokens_or (d : Z) (r : option (json F)) : result Z := match r with None => Ok d | Some j => json_int j end.
Definition record (l : ledger) (model : string) (usage : row) (purpose : string) (r : reservation) (started_at : string)
    : prog ledger :=
  let reported_input := reported "prompt_tokens" "input_tokens" usage in
  let reported_output := reported "completion_tokens" "output_tokens" usage in
  let estimated := match reported_input, reported_output with Some _, Some _ => false | _, _ => true end in
  input_tokens ← PRet (tokens_or (rs_input_tokens r) reported_input);
  output_tokens ← PRet (tokens_or (rs_output_tokens r) reported_output);
  p ← PRet (prices model);
  cost ← PRet (token_cost p input_tokens output_tokens);
  spent ← PRet (float_field "spent_usd" (lg_data l));
  let data := dset "spent_usd" (JFloat (f_add spent cost)) (lg_data l) in
  calls ← PRet (j ← item "calls" data; match j with JArr calls => Ok calls | _ => Raise (OtherError "AttributeError" "append") end);
  now ← ask NowIso;
  let call := JObj [("at", JStr now); ("started_at", JStr started_at); ("model", JStr model); ("purpose", JStr purpose);
                    ("input_tokens", JInt input_tokens); ("output_tokens", JInt output_tokens);
                    ("cost_usd", JFloat cost); ("estimated_from_reservation", JBool estimated)]%string in
  let data := dset "calls" (JArr (calls ++ [call])) data in
  check (f_ltb (effective_budget l) (f_add spent cost)) (RuntimeError "local token ledger crossed the hard canary budget");;
  ask (WriteJson (lg_path l) (JObj data));;
  mret (with_data l data).

(** ** The rate limit *)

(** [min] of two values, of a list *)
Definition f_min (a b : F) : F := if f_ltb b a then b else a.
Definition minimum (x : F) (l : list F) : F := foldl f_min x l.
Definition call_stamp (call : row) : option F := timestamp_of (json_str (default JNull (oor (dget "started_at" call) (dget "at" call)))).
Definition call_tokens (call : row) : result Z :=
  i ← int_or0 "input_tokens" call;
  o ← int_or0 "output_tokens" call;
  Ok (i + o).
(** The calls of the last minute: when and how many tokens *)
Fixpoint recent_calls (now : F) (calls : list (json F)) : result (list (F * Z)) :=
  match calls with
  | [] => Ok []
  | j :: calls =>
      call ← obj j;
      match call_stamp call with
      | None => recent_calls now calls
      | Some stamp =>
          let age := f_sub now stamp in
          if f_leb (f_of_Z 0) age && f_ltb age (f_of_Z 60) then
            tokens ← call_tokens call;
            rest ← recent_calls now calls;
            Ok ((stamp, tokens) :: rest)
          else recent_calls now calls
      end
  end.
Definition rate_capacity_delay (calls : list (json F)) (r : reservation) (rpm_limit tpm_limit : Z) (now : F) : result F :=
  recent ← recent_calls now calls;
  let reserved_tokens := rs_input_tokens r + rs_output_tokens r in
  let used := foldr Z.add 0 (map snd recent) in
  if (Z.of_nat (length recent) <? rpm_limit) && (used + reserved_tokens <=? tpm_limit) then Ok (f_of_Z 0)
  else
    match map (fun c => f_sub (f_add c.1 (f_of_Z 60)) now) recent with
    | [] => Raise (RuntimeError "one request reservation exceeds CANARY_TPM_LIMIT; reduce the request")
    | x :: l => Ok (f_max (f_lit 5 (-2)) (minimum x l))
    end.
Fixpoint wait_for_rate_capacity (fuel : nat) (l : ledger) (r : reservation) : prog unit :=
  match fuel with
  | O => PHalt
  | S fuel =>
      calls ← PRet (if otruthy (dget "calls" (lg_data l)) then py_list (get_or_null "calls" (lg_data l)) else Ok []);
      now ← ask NowStamp;
      delay ← PRet (rate_capacity_delay calls r (gd_rpm (lg_guard l)) (gd_tpm (lg_guard l)) now);
      if f_leb delay (f_of_Z 0) then mret tt
      else
        ask (Wait (f_min (f_add delay (f_lit 5 (-2))) (f_of_Z 1)));;
        wait_for_rate_capacity fuel l r
  end.

(** ** [LLMClient] *)

Record client := {
  cl_ledger : ledger;
  cl_model : string;
}.
Definition provider_url : string := rstrip_char "/" (getenv env "CANARY_REDPILL_BASE_URL" "https://api.redpill.ai/v1").
Definition request_body (model system user : string) (max_completion_tokens : Z) (schema : option (string * json F)) : json F :=
  JObj [("model", JStr model);
        ("messages", JArr [JObj [("role", JStr "system"); ("content", JStr system)];
                           JObj [("role", JStr "user"); ("content", JStr user)]]);
        ("reasoning_effort", JStr "low"); ("include_reasoning", JBool false);
        ("max_completion_tokens", JInt max_completion_tokens);
        ("response_format",
          match schema with
          | Some (name, s) =>
              JObj [("type", JStr "json_schema");
                    ("json_schema", JObj [("name", JStr (if bool_decide (name = EmptyString) then "canary_output" else name));
                                          ("strict", JBool false); ("schema", s)])]
          | None => JObj [("type", JStr "json_object")]
          end)]%string.
(** [body["choices"][0]["message"]["content"]] as text *)
Definition first_choice (body : json F) : result (json F) :=
  choices ← sub "choices" body;
  match choices with
  | JArr (c :: _) => m ← sub "message" c; sub "content" m
  | JArr [] => Raise (OtherError "IndexError" "list index out of range")
  | _ => Raise (TypeError "choices is not a list")
  end.
Definition content_text (content : json F) : string :=
  match content with
  | JArr parts => String.concat "" (omap (fun p => match p with JObj d => Some (str_or "text" d) | _ => None end) parts)
  | j => json_str j
  end.
Definition json_completion (fuel : nat) (c : client) (system user purpose : string) (schema : option (string * json F))
    (max_completion_tokens : Z) : prog (client * row) :=
  let prompt_bytes := Z.of_nat (String.length system) + Z.of_nat (String.length user) in
  reserved ← PRet (reserve (cl_ledger c) (cl_model c) prompt_bytes max_completion_tokens);
  wait_for_rate_capacity fuel (cl_ledger c) reserved;;
  started_at ← ask NowIso;
  '(status, content) ← ask (Request "POST" (provider_url +:+ "/chat/completions") []
                              (Some (request_body (cl_model c) system user max_completion_tokens schema)));
  check ((status =? 401) || (status =? 402)) (RuntimeError ("circuit open: Redpill returned " +:+ str_of_Z status));;
  PRet (raise_for_status status);;
  body ← PRet (json_content content);
  d ← PRet (obj body);
  usage ← PRet (if otruthy (dget "usage" d) then obj (get_or_null "usage" d) else Ok []);
  ledger ← record (cl_ledger c) (cl_model c) usage purpose reserved started_at;
  content ← PRet (first_choice body);
  value ← PRet (parse_json_object (content_text content));
  mret ({| cl_ledger := ledger; cl_model := cl_model c |}, value).
End ledger.
