(* ===== verification/CanaryCards.v ===== *)
(** * Hindsight canary: generating cards

    canary.py: [generate_card] and [generate_cards]. What the model returned for a chunk is
    appended to a file of partial cards, so that a run that stopped does not pay twice. *)

From stdpp Require Import base option list strings.
From Stdlib Require Import ZArith Lia Ascii.
From S2P Require Import Prelude PyStr PyFloat Json Effects Canary Eval CanaryText CanaryLedger.

Local Open Scope Z_scope.
Local Open Scope py_scope.

Section cards.
Context {F : Type} `{PyFloat F}.
Abbreviation row := (odict (json F)).
Abbreviation prog := (@prog (@canary_effect F)).
Variable env : odict string.
Variable timestamp_of : string -> option F.
(** Turns of a wait for rate capacity *)
Variable fuel : nat.

Definition CARD_SYSTEM : string :=
  "You create concise, evidence-grounded archival session cards. Return one JSON object only." +:+ newline +:+
  "Required keys: objective, outcome_status, decisions, errors_blockers, artifacts, follow_ups, source_sequences." +:+ newline +:+
  "Every factual item must be supported by the supplied messages. source_sequences must list the supporting message seq values. Do not invent completion, success, files, identifiers, or decisions." +:+ newline +:+
  "Keep the entire JSON response under 2,000 characters. Keep objective and outcome_status under 300 characters. Use at most 8 short strings in each array and no more than 160 characters per string. Summarize; never copy logs or long source passages. Do not include analysis or markdown.".
Definition typed (t : string) : json F := JObj [("type", JStr t)]%string.
Definition string_list : json F :=
  JObj [("type", JStr "array"); ("items", typed "string"); ("maxItems", JInt 8)]%string.
Definition CARD_SCHEMA : json F :=
  JObj [("type", JStr "object");
        ("properties",
          JObj [("objective", typed "string"); ("outcome_status", typed "string"); ("decisions", string_list);
                ("errors_blockers", string_list); ("artifacts", string_list); ("follow_ups", string_list);
                ("source_sequences", JObj [("type", JStr "array"); ("items", typed "integer")])]);
        ("required", JArr (map JStr card_required)); ("additionalProperties", JBool false)]%string.

(** A dictionary with JSON keys, in the order the keys were first set *)
Definition jdict (V : Type) : Type := list (json F * V).
Fixpoint jset {V} (k : json F) (v : V) (d : jdict V) : jdict V :=
  match d with
  | [] => [(k, v)]
  | (k', x) :: d => if py_eq k k' then (k', v) :: d else (k', x) :: jset k v d
  end.
Definition cache : Type := jdict row.
(** A file that may be missing *)
Definition read_existing (path : string) : prog (list row) :=
  lines ← ask (ReadRows path);
  PRet (match lines with Some lines => rows_of 1 path lines | None => Ok [] end).
(** [{row[key]: row for row in rows if row.get("status") == "ok" and row.get(key)}] *)
Fixpoint cache_of (key : string) (acc : cache) (rows : list row) : result cache :=
  match rows with
  | [] => Ok acc
  | r :: rows =>
      if is_str "ok" (dget "status" r) && otruthy (dget key r) then
        k ← key_of key r; cache_of key (jset k r acc) rows
      else cache_of key acc rows
  end.

(** ** One card *)

Section card.
Variable partial_path : string.
Variable record : row.
Definition card_prompt (source document : string) (index total : Z) (chunk : list row) : string :=
  "Source=" +:+ source +:+ " document_id=" +:+ document +:+ " title=" +:+ str_or "title" record +:+ newline +:+
  "Summarize chunk " +:+ str_of_Z (index + 1) +:+ "/" +:+ str_of_Z total +:+
  " without losing exact errors, identifiers, artifacts, or sequence references." +:+ newline +:+ newline +:+
  format_messages chunk.
Definition prompt_hash (prompt : string) : string := stable_key (JArr [JStr CARD_SYSTEM; CARD_SCHEMA; JStr prompt]).
Definition card_chunk (c : client) (partials : cache) (index total : Z) (chunk : list row) : prog (client * cache * row) :=
  source ← PRet (str_at "source" record);
  document ← PRet (item "document_id" record);
  let prompt := card_prompt source (json_str document) index total chunk in
  let cache_key := json_str document +:+ ":" +:+ str_of_Z index in
  let hash := prompt_hash prompt in
  match jlookup (JStr cache_key) partials with
  | Some ((_ :: _) as cached) =>
      check (negb (eq_str hash (get_or_null "prompt_hash" cached)))
        (SafetyStop ("partial-card prompt changed for " +:+ cache_key));;
      match dget "structured" cached with
      | Some (JObj partial) => mret (c, partials, partial)
      | _ => raise (SafetyStop ("partial-card cache is malformed for " +:+ cache_key))
      end
  | _ =>
      '(c, partial) ← json_completion env timestamp_of fuel c CARD_SYSTEM prompt
                        ("card-chunk:" +:+ json_str document +:+ ":" +:+ str_of_Z index)
                        (Some ("session_card_chunk"%string, CARD_SCHEMA)) 8192;
      let cached := [("cache_key", JStr cache_key); ("document_id", document); ("chunk_index", JInt index);
                     ("chunk_count", JInt total); ("prompt_hash", JStr hash); ("structured", JObj partial);
                     ("status", JStr "ok")]%string in
      ask (AppendRow partial_path cached);;
      mret (c, jset (JStr cache_key) cached partials, partial)
  end.
Fixpoint card_chunks (c : client) (partials : cache) (index total : Z) (chunks : list (list row))
    : prog (client * cache * list row) :=
  match chunks with
  | [] => mret (c, partials, [])
  | chunk :: chunks =>
      '(c, partials, partial) ← card_chunk c partials index total chunk;
      '(c, partials, rest) ← card_chunks c partials (index + 1) total chunks;
      mret (c, partials, partial :: rest)
  end.
Definition merge_prompt (partials : list row) : string :=
  "Merge these bounded chunk cards into one session card. Resolve later updates by sequence order and retain all source sequence references:"
  +:+ newline +:+ dumps (JArr (map JObj partials)).
Definition generate_card (c : client) (partials : cache) : prog (client * cache * (string * row)) :=
  messages ← PRet (messages_of record);
  let chunks := message_chunks messages CARD_CHUNK_MAX_CHARS in
  '(c, partials, cards) ← card_chunks c partials 0 (Z.of_nat (length chunks)) chunks;
  '(c, final) ← (match cards with
                 | [card] => mret (c, card)
                 | _ =>
                     document ← PRet (str_at "document_id" record);
                     json_completion env timestamp_of fuel c CARD_SYSTEM (merge_prompt cards) ("card-merge:" +:+ document)
                       (Some ("session_card"%string, CARD_SCHEMA)) 8192
                 end);
  PRet (validate_card record final);;
  mret (c, partials, (card_text final, final)).
End card.

(** ** All cards *)

Section cards.
Variables partial_path output_path : string.
Definition card_row (record : row) (card : string * row) : result row :=
  document ← item "document_id" record;
  source ← item "source" record;
  Ok [("document_id", document); ("source", source); ("card", JStr card.1); ("structured", JObj card.2);
      ("status", JStr "ok")]%string.
Definition failed_row (record : row) (e : exn) : result row :=
  document ← item "document_id" record;
  source ← item "source" record;
  Ok [("document_id", document); ("source", source); ("status", JStr "failed"); ("error", JStr (exn_msg e))]%string.
Definition card_attempt (c : client) (partials : cache) (record : row) : prog (client * cache * row) :=
  '(c, partials, card) ← generate_card partial_path record c partials;
  r ← PRet (card_row record card);
  mret (c, partials, r).
Fixpoint cards_of (existing : list (json F)) (c : client) (partials : cache) (corpus : list row) : prog unit :=
  match corpus with
  | [] => mret tt
  | record :: corpus =>
      document ← PRet (key_of "document_id" record);
      if existsb (py_eq document) existing then cards_of existing c partials corpus
      else
        done ← attempt (card_attempt c partials record);
        match done with
        | Raise e =>
            r ← PRet (failed_row record e);
            ask (AppendRow output_path r);;
            raise e
        | Ok (c, partials, r) =>
            ask (AppendRow output_path r);;
            cards_of existing c partials corpus
        end
  end.
End cards.
Definition generate_cards (corpus_path output_path ledger_path model : string) : prog unit :=
  rows ← read_existing output_path;
  existing ← PRet (ok_rows_by "document_id" [] rows);
  let partial_path := (output_path +:+ ".partials.jsonl")%string in
  rows ← read_existing partial_path;
  partials ← PRet (cache_of "cache_key" [] rows);
  ledger ← open_ledger env ledger_path;
  corpus ← read_jsonl corpus_path;
  cards_of partial_path output_path (map fst (existing : list (json F * row)))
    {| cl_ledger := ledger; cl_model := model |} partials corpus.
End cards.
