(* ===== verification/CanaryQuestions.v ===== *)
(** * Hindsight canary: generating questions

    canary.py: [question_source], [validate_questions], [build_cross_session_questions] and
    [generate_questions]. The aliases of documents are never used: the one category that
    would use them is built without a model. *)

From stdpp Require Import base option list strings.
From Stdlib Require Import ZArith Lia Ascii.
From S2P Require Import Prelude PyStr PyFloat Json Regex Effects Canary Eval EvalCollect CanaryText CanaryLedger CanaryCards.

Local Open Scope Z_scope.
Local Open Scope py_scope.

Section questions.
Context {F : Type} `{PyFloat F}.
Abbreviation row := (odict (json F)).
Abbreviation prog := (@prog (@canary_effect F)).

(** ** [question_source] *)

Fixpoint insert_by {A} (x : string * A) (l : list (string * A)) : list (string * A) :=
  match l with
  | [] => [x]
  | y :: l => if str_ltb y.1 x.1 then y :: insert_by x l else x :: y :: l
  end.
(** [sorted(l, key=...)] for keys that are strings *)
Definition sort_by {A} (l : list (string * A)) : list A := map snd (foldr insert_by [] l).
Definition category_key (category : string) (record : row) : result (string * row) :=
  document ← item "document_id" record;
  Ok (stable_key (JArr [JStr category; document]), record).
Definition EXACT : string := "exact_identifiers_errors".
Definition CROSS : string := "cross_session_patterns".
Definition exact_terms : re := literal true "\b(error|failed|exception|0x[0-9a-f]+|[A-Z_]{3,}|/[\w./-]+)\b".
Definition last_n {A} (n : nat) (l : list A) : list A := drop (length l - n) l.
Definition selected_messages (category : string) (record : row) : result (list row) :=
  messages ← list_or_empty "messages" record;
  if bool_decide (category = EXACT) then
    rows ← mapM_ok obj messages;
    Ok (take 4 (List.filter (fun m : row => found (re_search exact_terms (str_or "text" m))) rows))
  else mapM_ok obj (take 2 messages ++ last_n 2 messages).
Definition piece_of (category : string) (cards : list (json F * json F)) (record : row) : result string :=
  selected ← selected_messages category record;
  document ← key_of "document_id" record;
  source ← item "source" record;
  Ok (dumps (JObj [("document_id", document); ("source", source); ("started_at", get_or_null "started_at" record);
                   ("summary", get_or_null "summary" record); ("card", default JNull (jlookup document cards));
                   ("allowed_source_sequences", JArr (map (get_or_null "seq") selected));
                   ("messages", JArr (map JObj selected))]%string)).
(** Pieces are taken while they fit. *)
Fixpoint take_pieces (category : string) (cards : list (json F * json F)) (size : Z) (corpus : list row) : result (list string) :=
  match corpus with
  | [] => Ok []
  | record :: corpus =>
      rendered ← piece_of category cards record;
      let n := Z.of_nat (String.length rendered) in
      if 90000 <? size + n then Ok []
      else rest ← take_pieces category cards (size + n) corpus; Ok (rendered :: rest)
  end.
Definition question_source (corpus : list row) (cards : list (json F * json F)) (category : string) : result string :=
  keyed ← mapM_ok (category_key category) corpus;
  pieces ← take_pieces category cards 0 (sort_by keyed);
  Ok (join newline pieces).

Definition QUESTION_SYSTEM : string :=
  "Create evidence-backed retrieval evaluation questions. Return JSON only as {" +:+ quote "questions" +:+ ": [...]}." +:+ newline +:+
  "Every question object must have: question, answer, evidence (a nonempty list of {document_id, source_sequences}), critical (boolean)." +:+ newline +:+
  "Use only supplied evidence; every cited sequence must appear in that document's allowed_source_sequences list. Answers must be concise and independently checkable. Do not refer to 'the transcript' in the question.".
Definition strict_object (properties : row) : json F :=
  JObj [("type", JStr "object"); ("properties", JObj properties);
        ("required", JArr (map (fun kv => JStr kv.1) properties)); ("additionalProperties", JBool false)]%string.
Definition QUESTION_SCHEMA : json F :=
  strict_object
    [("questions",
      JObj [("type", JStr "array"); ("minItems", JInt 25); ("maxItems", JInt 25);
            ("items", strict_object
               [("question", typed "string"); ("answer", typed "string");
                ("evidence",
                 JObj [("type", JStr "array"); ("minItems", JInt 1);
                       ("items", strict_object
                          [("document_id", typed "string");
                           ("source_sequences", JObj [("type", JStr "array"); ("minItems", JInt 1); ("items", typed "integer")])])]);
                ("critical", typed "boolean")])])]%string.

(** ** [validate_questions] *)

(** The sequences of every document of the corpus *)
Definition sequences : Type := jdict (F := F) (list (json F)).
Section validate.
Variables (category : string) (known : sequences).
(** The evidence of a question, [None] when it is not valid *)
Fixpoint clean_evidence (evidence : list (json F)) : result (option (list (string * json F))) :=
  match evidence with
  | [] => Ok (Some [])
  | JObj it :: evidence =>
      if negb (otruthy (dget "document_id" it)) then Ok None
      else
        let document_id := json_str (get_or_null "document_id" it) in
        match dget "source_sequences" it with
        | Some (JArr ((_ :: _) as cited)) =>
            match jlookup (JStr document_id) known with
            | None => Ok None
            | Some allowed =>
                unknown ← any_unknown allowed cited;
                if unknown : bool then Ok None
                else
                  rest ← clean_evidence evidence;
                  Ok (match rest with Some l => Some ((document_id, JArr cited) :: l) | None => None end)
            end
        | _ => Ok None
        end
  | _ :: _ => Ok None
  end.
Definition evidence_json (l : list (string * json F)) : json F :=
  JArr (map (fun e => JObj [("document_id", JStr e.1); ("source_sequences", e.2)]%string) l).
Definition normalized_question (question : row) : string := lower (_one_line (str_or "question" question) 2000).
Definition valid_question (seen : list string) (question : json F) : result (option (string * row)) :=
  match question with
  | JObj q =>
      match dget "evidence" q with
      | Some (JArr ((_ :: _) as evidence)) =>
          clean ← clean_evidence evidence;
          Ok (match clean with
              | None => None
              | Some clean =>
                  let normalized := normalized_question q in
                  if bool_decide (category = CROSS) && (length (remove_dups (map fst (clean : list (string * json F)))) <? 2)%nat then None
                  else if bool_decide (normalized = EmptyString) || bool_decide (normalized ∈ seen) then None
                  else Some (normalized, dset "evidence" (evidence_json clean) q)
              end)
      | _ => Ok None
      end
  | _ => Ok None
  end.
Fixpoint valid_questions (seen : list string) (questions : list (json F)) : result (list row) :=
  match questions with
  | [] => Ok []
  | question :: questions =>
      v ← valid_question seen question;
      match v with
      | Some (normalized, q) => rest ← valid_questions (normalized :: seen) questions; Ok (q :: rest)
      | None => valid_questions seen questions
      end
  end.
Definition validate_questions (questions : option (json F)) : result (list row) :=
  l ← match questions with
      | Some (JArr l) => if (length l =? 20)%nat || (length l =? 25)%nat then Ok l
                         else Raise (ValueError (category +:+ ": expected 25 candidates or 20 cached validated questions"))
      | _ => Raise (ValueError (category +:+ ": expected 25 candidates or 20 cached validated questions"))
      end;
  validated ← valid_questions [] l;
  raise! ValueError (category +:+ ": only " +:+ str_of_Z (Z.of_nat (length validated)) +:+ " of 25 candidates had valid evidence")
    when (length validated <? 20)%nat;
  Ok (take 20 validated).
End validate.

(** ** [build_cross_session_questions] *)

Definition token_char (c : ascii) : bool := is_lower c || is_digit c || sany (eqc c) "_./:#@-".
(** [re.findall(r"[a-z0-9_./:#@-]+", text)] *)
Fixpoint tokens_go (cur : string) (s : string) : list string :=
  match s with
  | EmptyString => if bool_decide (cur = EmptyString) then [] else [cur]
  | String c s =>
      if token_char c then tokens_go (cur +:+ String c EmptyString) s
      else if bool_decide (cur = EmptyString) then tokens_go EmptyString s else cur :: tokens_go EmptyString s
  end.
Definition question_documents (question : row) : result (list string) :=
  l ← evidence_ids question; Ok (remove_dups l).
Definition question_terms (question : row) : list string :=
  remove_dups (List.filter (fun t => (2 <? String.length t)%nat)
    (tokens_go EmptyString (lower (_one_line (str_or "question" question +:+ " " +:+ str_or "answer" question) 4000)))).
Definition overlap (left_terms right_terms : list string) : F :=
  let shared := length (List.filter (fun t => bool_decide (t ∈ right_terms)) left_terms) in
  let union := length (remove_dups (left_terms ++ right_terms)) in
  f_div (f_of_Z (Z.of_nat shared)) (f_of_Z (Z.of_nat (Nat.max union 1))).
Definition meta_of (metadata : list (json F * row)) (id : string) : row := default [] (jlookup (JStr id) metadata).
Definition pair_related (left_meta right_meta : row) : F :=
  if otruthy (dget "project_path" left_meta) &&
     py_eq (get_or_null "project_path" left_meta) (get_or_null "project_path" right_meta) then f_lit 5 (-1)
  else if py_eq (get_or_null "tool" left_meta) (get_or_null "tool" right_meta) then f_lit 2 (-1)
  else f_of_Z 0.
Definition related (metadata : list (json F * row)) (left_ids right_ids : list string) : F :=
  foldl (fun m p => f_max m (pair_related (meta_of metadata p.1) (meta_of metadata p.2))) (f_of_Z 0)
    (left_ids ≫= fun l => map (fun r => (l, r)) right_ids).
Record candidate := {
  cd_score : F;
  cd_tie : string;
  cd_left : nat * row;
  cd_right : nat * row;
}.
Definition candidate_of (metadata : list (json F * row)) (left right : nat * row) : result (list candidate) :=
  left_ids ← question_documents left.2;
  right_ids ← question_documents right.2;
  if (length (remove_dups ((left_ids : list string) ++ right_ids)) <? 2)%nat then Ok []
  else
    let score := f_add (overlap (question_terms left.2) (question_terms right.2)) (related metadata left_ids right_ids) in
    Ok [{| cd_score := score;
           cd_tie := stable_key (JArr [get_or_null "question" left.2; get_or_null "question" right.2;
                                       JArr (map JStr (ssort left_ids)); JArr (map JStr (ssort right_ids))] : json F);
           cd_left := left; cd_right := right |}].
Fixpoint candidates_of (metadata : list (json F * row)) (questions : list (nat * row)) : result (list candidate) :=
  match questions with
  | [] => Ok []
  | q :: questions =>
      left_ids ← question_documents q.2;
      here ← (match left_ids with
              | [] => Ok []
              | _ => l ← mapM_ok (candidate_of metadata q) questions; Ok (concat l)
              end);
      rest ← candidates_of metadata questions;
      Ok (here ++ rest)
  end.
(** The order of [(-score, tie)] *)
Definition candidate_before (a b : candidate) : bool :=
  let x := f_opp (cd_score a) in
  let y := f_opp (cd_score b) in
  if negb (f_eqb x y) then f_ltb x y else str_ltb (cd_tie a) (cd_tie b).
Fixpoint insert_candidate (a : candidate) (l : list candidate) : list candidate :=
  match l with
  | [] => [a]
  | b :: l => if candidate_before b a then b :: insert_candidate a l else a :: b :: l
  end.
(** Adding elements to a set *)
Definition set_add (s : list (json F)) (x : json F) : list (json F) := if existsb (py_eq x) s then s else s ++ [x].
Fixpoint merge_evidence (acc : odict (list (json F))) (evidence : list (json F)) : result (odict (list (json F))) :=
  match evidence with
  | [] => Ok acc
  | JObj it :: evidence =>
      if otruthy (dget "document_id" it) then
        let id := json_str (get_or_null "document_id" it) in
        cited ← (if otruthy (dget "source_sequences" it) then py_list (get_or_null "source_sequences" it) else Ok []);
        cited ← set_of cited;
        merge_evidence (dset id (foldl set_add (default [] (dget id acc)) cited) acc) evidence
      else merge_evidence acc evidence
  | _ :: evidence => merge_evidence acc evidence
  end.
(** [sorted(sequences)] of numbers or of strings *)
Fixpoint insert_number (x : (Z + F) * json F) (l : list ((Z + F) * json F)) : list ((Z + F) * json F) :=
  match l with
  | [] => [x]
  | y :: l => if num_ltb y.1 x.1 then y :: insert_number x l else x :: y :: l
  end.
Definition sorted_values (l : list (json F)) : result (list (json F)) :=
  match l with
  | [] | [_] => Ok l
  | _ =>
      let numbers := omap (fun j => n ← num_of j; Some (n, j)) l in
      let texts := omap as_str l in
      if (length numbers =? length l)%nat then Ok (map snd (foldr insert_number [] numbers))
      else if (length texts =? length l)%nat then Ok (map JStr (ssort texts))
      else Raise (TypeError "'<' not supported between instances")
  end.
Definition evidence_entry (kv : string * list (json F)) : result (json F) :=
  l ← sorted_values kv.2;
  Ok (JObj [("document_id", JStr kv.1); ("source_sequences", JArr l)]%string).
Definition cross_question (left right : row) (evidence : list (json F)) : row :=
  [("question", JStr ("Across two related sessions, what were both findings: (1) " +:+ _one_line (str_or "question" left) 350 +:+
                      " (2) " +:+ _one_line (str_or "question" right) 350));
   ("answer", JStr ("(1) " +:+ _one_line (str_or "answer" left) 500 +:+ "; (2) " +:+ _one_line (str_or "answer" right) 500));
   ("evidence", JArr evidence);
   ("critical", JBool (otruthy (dget "critical" left) || otruthy (dget "critical" right)))]%string.
Fixpoint pick_pairs (selected : list row) (used : list nat) (l : list candidate) : result (list row) :=
  match l with
  | [] => Raise (ValueError ("could build only " +:+ str_of_Z (Z.of_nat (length selected)) +:+ " grounded cross-session questions"))
  | c :: l =>
      if bool_decide ((cd_left c).1 ∈ used) || bool_decide ((cd_right c).1 ∈ used) then pick_pairs selected used l
      else
        left ← list_or_empty "evidence" (cd_left c).2;
        right ← list_or_empty "evidence" (cd_right c).2;
        by_document ← merge_evidence [] (left ++ right);
        if (length by_document <? 2)%nat then pick_pairs selected used l
        else
          evidence ← mapM_ok evidence_entry (dsort by_document);
          let selected := selected ++ [cross_question (cd_left c).2 (cd_right c).2 evidence] in
          if (length selected =? 20)%nat then Ok selected
          else pick_pairs selected ((cd_left c).1 :: (cd_right c).1 :: used) l
  end.
Fixpoint keyed_by (key : string) (acc : jdict row) (rows : list row) : result (jdict (F := F) row) :=
  match rows with
  | [] => Ok acc
  | r :: rows => k ← key_of key r; keyed_by key (jset k r acc) rows
  end.
Fixpoint number_from {A} (n : nat) (l : list A) : list (nat * A) :=
  match l with [] => [] | x :: l => (n, x) :: number_from (S n) l end.
Definition build_cross_session_questions (questions : list (json F)) (corpus : list row) : result (list row) :=
  metadata ← keyed_by "document_id" [] corpus;
  questions ← mapM_ok obj questions;
  candidates ← candidates_of metadata (number_from 0 questions);
  pick_pairs [] [] (foldr insert_candidate [] candidates).

(** ** [generate_questions] *)

Variable env : odict string.
Variable timestamp_of : string -> option F.
Variable fuel : nat.
Section generate.
Variables (partial_path : string) (corpus : list row) (cards : list (json F * json F)) (known : sequences).
(** [{**question, "category": category, "id": ...}], numbered on from the output *)
Fixpoint numbered (category : string) (n : nat) (questions : list row) : list row :=
  match questions with
  | [] => []
  | q :: questions =>
      dset "id" (JStr (category +:+ "-" +:+ B64.pad2 (Z.of_nat n mod 20 + 1))) (dset "category" (JStr category) q)
      :: numbered category (S n) questions
  end.
Definition category_prompt (category source : string) : string :=
  "Create exactly 25 candidate questions in category " +:+ category +:+
  "; only 20 will be retained after evidence validation. For temporal questions, ground both old and new states. For cross-session questions, cite at least two document IDs."
  +:+ newline +:+ newline +:+ source.
Definition cached_row (category hash : string) (questions : list row) : row :=
  [("category", JStr category); ("prompt_hash", JStr hash); ("questions", JArr (map JObj questions)); ("status", JStr "ok")]%string.
Definition base_questions (cached : cache (F := F)) : result (list (json F)) :=
  l ← mapM_ok (fun kv : json F * row => list_or_empty "questions" kv.2)
        (List.filter (fun kv => negb (eq_str CROSS kv.1)) (cached : list (json F * row)));
  Ok (concat l).
(** The questions of the category, whether it was cached, and the hash of what it comes from *)
Definition cross_category (cached : cache (F := F)) : result (list row * bool * string) :=
  base ← base_questions cached;
  let hash := stable_key (JArr [JStr "deterministic-cross-session-v1"; JArr base]) in
  match jlookup (JStr CROSS) cached with
  | Some ((_ :: _) as c) =>
      raise! SafetyStop "cross-session source questions changed" when negb (eq_str hash (get_or_null "prompt_hash" c));
      validated ← validate_questions CROSS known (dget "questions" c);
      Ok (validated, true, hash)
  | _ =>
      built ← build_cross_session_questions base corpus;
      validated ← validate_questions CROSS known (Some (JArr (map JObj built)));
      Ok (validated, false, hash)
  end.
Definition model_category (c : client) (cached : cache (F := F)) (category : string)
    : prog (client * (list row * bool * string)) :=
  source ← PRet (question_source corpus cards category);
  let prompt := category_prompt category source in
  let hash := stable_key (JArr [JStr QUESTION_SYSTEM; QUESTION_SCHEMA; JStr prompt]) in
  match jlookup (JStr category) cached with
  | Some ((_ :: _) as stored) =>
      check (negb (eq_str hash (get_or_null "prompt_hash" stored))) (SafetyStop ("question prompt changed for " +:+ category));;
      validated ← PRet (validate_questions category known (dget "questions" stored));
      mret (c, (validated, true, hash))
  | _ =>
      '(c, value) ← json_completion env timestamp_of fuel c QUESTION_SYSTEM prompt ("questions:" +:+ category)
                      (Some ((category +:+ "_questions")%string, QUESTION_SCHEMA)) 8192;
      validated ← PRet (validate_questions category known (dget "questions" value));
      mret (c, (validated, false, hash))
  end.
Definition category_questions (c : client) (cached : cache (F := F)) (category : string)
    : prog (client * (list row * bool * string)) :=
  if bool_decide (category = CROSS) then r ← PRet (cross_category cached); mret (c, r)
  else model_category c cached category.
Fixpoint categories (c : client) (cached : cache (F := F)) (output : list row) (l : list string) : prog (list row) :=
  match l with
  | [] => mret output
  | category :: l =>
      '(c, (validated, was_cached, hash)) ← category_questions c cached category;
      (if was_cached : bool then mret tt else ask (AppendRow partial_path (cached_row category hash validated)));;
      let cached := if was_cached : bool then cached else jset (JStr category) (cached_row category hash validated) cached in
      categories c cached (output ++ numbered category (length output) validated) l
  end.
End generate.
Definition sequences_of (record : row) : result (list (json F)) :=
  messages ← messages_of record;
  set_of (map (get_or_null "seq") messages).
Fixpoint known_sequences (acc : sequences) (corpus : list row) : result sequences :=
  match corpus with
  | [] => Ok acc
  | record :: corpus =>
      document ← key_of "document_id" record;
      l ← sequences_of record;
      known_sequences (jset document l acc) corpus
  end.
Definition card_of (kv : json F * row) : json F * json F := (kv.1, default (JStr EmptyString) (dget "card" kv.2)).
Definition generate_questions (corpus_path : string) (cards_path : option string) (output_path ledger_path model : string)
    : prog unit :=
  corpus ← read_jsonl corpus_path;
  cards ← (match cards_path with
           | Some path => if bool_decide (path = EmptyString) then mret [] else read_jsonl path
           | None => mret []
           end);
  cards ← PRet (ok_rows_by "document_id" [] cards);
  known ← PRet (known_sequences [] corpus);
  ledger ← open_ledger env ledger_path;
  let partial_path := (output_path +:+ ".categories.jsonl")%string in
  rows ← read_existing partial_path;
  cached ← PRet (cache_of "category" [] rows);
  output ← categories partial_path corpus (map card_of (cards : list (json F * row))) known
             {| cl_ledger := ledger; cl_model := model |} cached [] CATEGORIES;
  check (negb (length output =? 100)%nat) (OtherError "AssertionError" "question set must contain exactly 100 items");;
  ask (WriteRows output_path output).
End questions.

Example exact_terms_found :
  map (fun s => found (re_search exact_terms s)) ["an ERROR"; "0xab"; "a b c"; "see /etc/hosts"]%string = [true; true; false; true].
Proof. vm_compute. reflexivity. Qed.
