(* ===== verification/CanarySpend.v ===== *)
(** * Hindsight canary: the spending limit

    Every paid request of the card and the question generator fits the budget in the worst
    case at the configured prices of the 20b models; the model of the control group is priced
    as one of these. *)

From stdpp Require Import base option list strings.
From Stdlib Require Import ZArith Lia Ascii.
From S2P Require Import Prelude PyStr PyFloat Json Effects Canary Eval CanaryText CanaryLedger CanaryCards CanaryQuestions.

Local Open Scope Z_scope.

(** ** Prices *)

Lemma contains_tail c s t : contains (String c s) t = true -> contains s t = true.
Proof.
  induction t as [|d t IH]; [done|]. cbn [contains startswith]. rewrite !orb_true_iff.
  intros [[_ Hs]%andb_true_iff|Ht]; right; [|by apply IH].
  destruct t; cbn [contains]; by rewrite Hs.
Qed.
(** Whatever the configuration, a model whose name says 120b is priced with the prices of
    the 20b family: the name contains 20b too, and that is tested first. *)
Theorem control_model_has_small_prices {F : Type} `{PyFloat F} (env : odict string) (model : string) :
  contains "120b" (lower model) = true ->
  prices (F := F) env model =
    (input ← env_price env "CANARY_20B_INPUT_USD_PER_M"; output ← env_price env "CANARY_20B_OUTPUT_USD_PER_M";
     Ok (input, output)).
Proof. intros Hc%contains_tail. unfold prices, model_family. by rewrite Hc. Qed.

Section spend.
Context {F : Type} `{ExactFloat F}.
Abbreviation row := (odict (json F)).
Abbreviation prog := (@prog (@canary_effect F)).
Abbreviation hist := (@Effects.hist (@canary_effect F)).
Abbreviation event := (@Effects.event (@canary_effect F)).
Abbreviation cact := (@action (@canary_effect F)).
Variable env : odict string.
Variable timestamp_of : string -> option F.

(** ** The worst case, by the configuration *)

(** The price of a million tokens in US dollars that a variable names *)
Definition usd_per_million (name : string) : option F :=
  match dget name env with Some raw => f_of_lit <$> parse_number raw | None => None end.
(** Every byte is a token, at least one is counted, and the answer is as long as it may be. *)
Definition worst_case (input output : F) (bytes tokens : Z) : F :=
  f_div (f_add (f_mul (f_of_Z (Z.max 1 bytes)) input) (f_mul (f_of_Z tokens) output)) (f_of_Z 1000000).
(** At the prices that are configured for the models of the 20b family, what was spent and
    the worst case are together at most two dollars. *)
Definition covered (spent : F) (bytes tokens : Z) : Prop :=
  exists input output,
    usd_per_million "CANARY_20B_INPUT_USD_PER_M" = Some input /\
    usd_per_million "CANARY_20B_OUTPUT_USD_PER_M" = Some output /\
    f_leb (f_add spent (worst_case input output bytes tokens)) (f_of_Z 2) = true.

Lemma env_price_configured name x : env_price env name = Ok x -> usd_per_million name = Some x.
Proof.
  unfold env_price, usd_per_million. destruct (dget name env) as [raw|]; [|done]. cbn [json_float].
  destruct (parse_number raw); [|done]. by injection 1 as <-.
Qed.
(** The larger family is never priced as such: its name contains the name of the smaller. *)
Lemma prices_small model p :
  prices env model = Ok p ->
  contains "20b" (lower model) = true /\ usd_per_million "CANARY_20B_INPUT_USD_PER_M" = Some p.1 /\
  usd_per_million "CANARY_20B_OUTPUT_USD_PER_M" = Some p.2.
Proof.
  unfold prices, model_family. destruct (contains "20b" (lower model)) eqn:Es.
  - cbn [mbind result_bind]. intros (i & Hi & (o & Ho & [= <-])%bind_Ok)%bind_Ok.
    split; [done|]. split; [exact (env_price_configured _ _ Hi)|exact (env_price_configured _ _ Ho)].
  - destruct (contains "120b" (lower model)) eqn:El; [|done]. apply contains_tail in El. congruence.
Qed.
Lemma token_cost_worst p bytes tokens cost :
  token_cost p (Z.max 1 bytes) tokens = Ok cost -> cost = worst_case p.1 p.2 bytes tokens.
Proof. unfold token_cost. rewrite !fint_Ok. by intros [= <-]. Qed.

(** ** What was spent, by the ledger file *)

Definition spent_of (d : row) : option F := match float_field "spent_usd" d with Ok x => Some x | Raise _ => None end.
Section file.
Variable path : string.
Fixpoint ledger_spent (h : hist) : option F :=
  match h with
  | [] => None
  | Ev a r :: h =>
      match a as a return result (canswer a) -> option F with
      | WriteJson p (JObj d) => fun _ => if bool_decide (p = path) then spent_of d else ledger_spent h
      | ReadJson p => fun r =>
          if bool_decide (p = path) then
            match r with Ok (Some (JObj d)) => spent_of d | Ok None => Some (f_of_Z 0) | _ => None end
          else ledger_spent h
      | _ => fun _ => ledger_spent h
      end r
  end.
Definition paid (a : cact) : option (json F) :=
  match a with Request m _ _ (Some body) => if bool_decide (m = "POST"%string) then Some body else None | _ => None end.
(** The request asks for at most [tokens] tokens of one answer to two messages; these tokens
    and the bytes of the messages are covered. *)
Definition fits (h : hist) (body : json F) : Prop :=
  exists model system user tokens schema spent,
    body = request_body model system user tokens schema /\ contains "20b" (lower model) = true /\
    ledger_spent h = Some spent /\
    covered spent (Z.of_nat (String.length system) + Z.of_nat (String.length user)) tokens.
Definition within_budget (h : hist) (a : cact) : Prop := match paid a with Some body => fits h body | None => True end.

(** Neither a paid request nor an access to a ledger *)
Definition quiet (a : cact) : Prop :=
  paid a = None /\ match a with WriteJson _ _ | ReadJson _ => False | _ => True end.
Lemma quiet_spent h (a : cact) r : quiet a -> ledger_spent (Ev a r :: h) = ledger_spent h.
Proof. by destruct a; intros [_ ?]. Qed.
Lemma quiet_spent_app evs h : Forall (fun e : event => quiet (ev_action e)) evs -> ledger_spent (evs ++ h) = ledger_spent h.
Proof. induction 1 as [|[a r] evs Ha _ IH]; [done|]. rewrite <- app_comm_cons, quiet_spent; done. Qed.
Lemma quiet_guard h a : quiet a -> within_budget h a.
Proof. intros [Hp _]. unfold within_budget. by rewrite Hp. Qed.
Lemma wpo_free {A} (p : prog A) h (Q : hist -> A -> Prop) :
  only quiet p -> (forall h' a, ledger_spent h' = ledger_spent h -> Q h' a) -> wpo within_budget p h Q.
Proof.
  intros Hp HQ. eapply wpo_only; [exact Hp|apply quiet_guard|]. intros evs a He _. apply HQ. by apply quiet_spent_app.
Qed.

(** ** The ledger in memory is the one of the file *)

Record tracks (l : ledger (F := F)) (h : hist) : Prop := {
  tr_path : lg_path l = path;
  tr_spent : ledger_spent h = spent_of (lg_data l);
  tr_limit : f_leb (gd_effective (lg_guard l)) (f_of_Z 2) = true;
}.
Lemma tracks_quiet l h h' : ledger_spent h' = ledger_spent h -> tracks l h -> tracks l h'.
Proof. intros Hh [Hp Hs Hl]. by split; [done|rewrite Hh|]. Qed.

Lemma fsub_leb (a b c : F) : f_leb (f_of_Z 0) b = true -> f_leb a c = true -> f_leb (f_sub a b) c = true.
Proof.
  intros Hb Ha. rewrite <- (fadd_leb _ _ b), fsub_add. eapply fleb_trans; [exact Ha|]. by apply fleb_add_nonneg.
Qed.
Lemma guard_limits_effective b g : guard_limits env b = Ok g -> f_leb (gd_effective g) (f_of_Z 2) = true.
Proof.
  unfold guard_limits. intros (hard & _ & (u & Hh%raise_if_Ok & (margin & _ & (v & Hm%raise_if_Ok & Hr)%bind_Ok)%bind_Ok)%bind_Ok)%bind_Ok.
  do 6 (apply bind_Ok in Hr as (? & _ & Hr)). injection Hr as <-. cbn [gd_effective].
  apply orb_false_iff in Hh as [_ Hh]. apply orb_false_iff in Hm as [Hm _]. apply fltb_false_leb in Hh, Hm. by apply fsub_leb.
Qed.
Lemma key_preflight_effective b : yields (key_preflight (F := F) env b) (fun g => f_leb (gd_effective g) (f_of_Z 2) = true).
Proof.
  unfold key_preflight. do 3 (apply yields_then; intros ?). apply yields_ret. intros g. apply guard_limits_effective.
Qed.
Lemma key_preflight_quiet b : only quiet (key_preflight (F := F) env b).
Proof. unfold key_preflight, check. only_auto. Qed.
Lemma jsonl_free p : only quiet (read_jsonl (F := F) p).
Proof. unfold read_jsonl. only_auto. Qed.
Lemma existing_free p : only quiet (read_existing (F := F) p).
Proof. unfold read_existing. only_auto. Qed.
Lemma check_quiet b e : only quiet (check (F := F) b e).
Proof. apply only_ret. Qed.

Lemma spent_of_default d x : float_or0 (F := F) "spent_usd" d = Ok x -> spent_of d = None \/ spent_of d = Some x.
Proof.
  unfold float_or0, spent_of, float_field, item. destruct (dget "spent_usd" d); simpl; [|by left].
  intros ->. by right.
Qed.
Lemma open_ledger_tracks h :
  wpo within_budget (open_ledger env path) h (fun h' l => tracks l h').
Proof.
  unfold open_ledger. apply wpo_bind.
  eapply wpo_only_yields; [apply key_preflight_quiet|apply key_preflight_effective|apply quiet_guard|]. intros evs g _ _ Hg.
  apply wpo_bind. apply (wpo_act within_budget (ReadJson path : cact)); [done|]. intros stored.
  apply wpo_bind, wpo_ret. intros data Hd. apply wpo_bind, wpo_ret. intros hard _. apply wpo_bind, wpo_ret. intros [] _.
  apply wpo_bind, wpo_ret. intros spent _. apply wpo_bind, wpo_ret. intros [] _. apply wpo_mret.
  split; [done| |done]. cbn [ledger_spent lg_data]. rewrite bool_decide_eq_true_2 by done.
  destruct stored as [j|].
  - destruct j; try discriminate Hd. by injection Hd as ->.
  - injection Hd as <-. unfold spent_of, float_field. done.
Qed.
Lemma wait_quiet fuel l r : only quiet (wait_for_rate_capacity timestamp_of fuel l r).
Proof.
  induction fuel as [|fuel IH]; cbn [wait_for_rate_capacity]; [apply only_halt|]. only_auto.
Qed.
Lemma reserve_covers l model bytes tokens r h :
  tracks l h -> reserve env l model bytes tokens = Ok r ->
  contains "20b" (lower model) = true /\ exists spent, ledger_spent h = Some spent /\ covered spent bytes tokens.
Proof.
  intros [Hp Hs Hl]. unfold reserve.
  intros (p & (H20 & Hi & Ho)%prices_small & (cost & ->%token_cost_worst & (spent & Hsp & (u & Hg%raise_if_Ok & _)%bind_Ok)%bind_Ok)%bind_Ok)%bind_Ok.
  apply fltb_false_leb in Hg. split; [done|]. exists spent. split; [rewrite Hs; unfold spent_of; by rewrite Hsp|].
  exists p.1, p.2. split; [done|]. split; [done|]. eapply fleb_trans; [exact Hg|exact Hl].
Qed.
Lemma reserve_fits l model system user tokens schema r h :
  tracks l h -> reserve env l model (Z.of_nat (String.length system) + Z.of_nat (String.length user)) tokens = Ok r ->
  fits h (request_body model system user tokens schema).
Proof. intros Hl (H20 & spent & Hs & Hc)%(reserve_covers _ _ _ _ _ h); [|done]. by exists model, system, user, tokens, schema, spent. Qed.
Lemma record_tracks l model usage purpose r started_at h :
  tracks l h -> wpo within_budget (record env l model usage purpose r started_at) h (fun h' l' => tracks l' h').
Proof.
  intros [Hp Hs Hl]. unfold record. do 4 (apply wpo_bind, wpo_ret; intros ? _). apply wpo_bind, wpo_ret. intros spent Hsp.
  apply wpo_bind, wpo_ret. intros calls _.
  apply wpo_bind. apply (wpo_act within_budget (NowIso : cact)); [done|]. intros now.
  apply wpo_bind, wpo_ret. intros [] _. apply wpo_bind. apply (wpo_act within_budget (WriteJson _ _ : cact)); [done|]. intros [].
  apply wpo_mret. split; [done| |done]. cbn [ledger_spent lg_data with_data]. by rewrite Hp, bool_decide_eq_true_2 by done.
Qed.
Lemma json_completion_tracks fuel c system user purpose schema tokens h :
  tracks (cl_ledger c) h ->
  wpo within_budget (json_completion env timestamp_of fuel c system user purpose schema tokens) h
    (fun h' r => tracks (cl_ledger r.1) h').
Proof.
  intros Ht. unfold json_completion. apply wpo_bind, wpo_ret. intros reserved Hr.
  apply wpo_bind. apply wpo_free; [apply wait_quiet|]. intros h1 [] H1. apply (tracks_quiet _ _ _ H1) in Ht.
  apply wpo_bind. apply (wpo_act within_budget (NowIso : cact)); [done|]. intros started_at.
  apply (tracks_quiet _ _ (Ev (NowIso : cact) (Ok started_at) :: h1)) in Ht; [|done].
  apply wpo_bind. apply (wpo_act within_budget (Request _ _ _ _ : cact)).
  { unfold within_budget, paid. rewrite bool_decide_eq_true_2 by done. by eapply reserve_fits. }
  intros [status content]. eapply tracks_quiet in Ht; [|instantiate (1 := Ev (Request _ _ _ _ : cact) _ :: _); reflexivity].
  apply wpo_bind, wpo_ret. intros [] _. do 4 (apply wpo_bind, wpo_ret; intros ? _).
  apply wpo_bind. eapply wpo_post; [by apply record_tracks|]. intros h2 ledger Hl.
  apply wpo_bind, wpo_ret. intros text _. apply wpo_bind, wpo_ret. intros value _. apply wpo_mret. exact Hl.
Qed.

(** ** The programs *)

(** [p] pays within the budget and hands the ledger on. *)
Definition pays {A} (p : prog A) (next : A -> ledger (F := F)) (l : ledger (F := F)) : Prop :=
  forall h, tracks l h -> wpo within_budget p h (fun h' a => tracks (next a) h').
Lemma pays_bind {A B} (p : prog A) (f : A -> prog B) next next' l :
  pays p next l -> (forall a, pays (f a) next' (next a)) -> pays (x ← p; f x) next' l.
Proof. intros Hp Hf h Hl. apply wpo_bind. eapply wpo_post; [by apply Hp|]. intros h' a. apply Hf. Qed.
Lemma pays_quiet {A B} (p : prog A) (f : A -> prog B) next l :
  only quiet p -> (forall a, pays (f a) next l) -> pays (x ← p; f x) next l.
Proof.
  intros Hp Hf h Hl. apply wpo_bind. apply wpo_free; [exact Hp|]. intros h' a Hh. apply Hf. by eapply tracks_quiet.
Qed.
Lemma pays_mret {A} (a : A) next : pays (mret a) next (next a).
Proof. intros h Hl. by apply wpo_mret. Qed.
Lemma pays_raise {A} e next l : pays (raise e : prog A) next l.
Proof. intros h Hl. by apply wpo_ret. Qed.
Lemma completion_pays fuel c system user purpose schema tokens :
  pays (json_completion env timestamp_of fuel c system user purpose schema tokens) (fun r => cl_ledger r.1) (cl_ledger c).
Proof. intros h Hl. by apply json_completion_tracks. Qed.
Lemma append_quiet p r : only quiet (ask (AppendRow p r) : prog unit).
Proof. by apply only_act. Qed.
#[local] Hint Resolve append_quiet check_quiet jsonl_free existing_free : effects.
Ltac quietly := repeat (apply pays_quiet; [solve [apply only_ret|auto with effects]|intros ?]).

Lemma card_chunk_pays fuel partial_path record c partials index total chunk :
  pays (card_chunk env timestamp_of fuel partial_path record c partials index total chunk)
    (fun r => cl_ledger r.1.1) (cl_ledger c).
Proof.
  unfold card_chunk. quietly.
  assert (forall prompt purpose row_of store, pays
    ('(c, partial) ← json_completion env timestamp_of fuel c CARD_SYSTEM prompt purpose
                       (Some ("session_card_chunk"%string, CARD_SCHEMA)) 8192;
     ask (AppendRow partial_path (row_of partial));; mret (c, store (row_of partial) : cache (F := F), partial))
    (fun r => cl_ledger r.1.1) (cl_ledger c)) as Hnew.
  { intros prompt purpose row_of store. eapply pays_bind; [apply completion_pays|]. intros [c' partial]. quietly.
    apply (pays_mret (c', _, partial)). }
  match goal with |- pays (match ?x with _ => _ end) _ _ => destruct x as [[|kv cached]|] end.
  - exact (Hnew _ _ (fun partial => _) (fun cached => jset _ cached partials)).
  - quietly. destruct (dget "structured" _) as [[]|]; try apply pays_raise. apply (pays_mret (c, partials, _)).
  - exact (Hnew _ _ (fun partial => _) (fun cached => jset _ cached partials)).
Qed.
Lemma card_chunks_pays fuel partial_path record total chunks : forall c partials index,
  pays (card_chunks env timestamp_of fuel partial_path record c partials index total chunks)
    (fun r => cl_ledger r.1.1) (cl_ledger c).
Proof.
  induction chunks as [|chunk chunks IH]; intros c partials index; cbn [card_chunks]; [apply (pays_mret (c, partials, []))|].
  eapply pays_bind; [apply card_chunk_pays|]. intros [[c1 partials1] partial]. eapply pays_bind; [apply IH|].
  intros [[c2 partials2] rest]. apply (pays_mret (c2, partials2, _)).
Qed.
Lemma generate_card_pays fuel partial_path record c partials :
  pays (generate_card env timestamp_of fuel partial_path record c partials) (fun r => cl_ledger r.1.1) (cl_ledger c).
Proof.
  unfold generate_card. quietly. eapply pays_bind; [apply card_chunks_pays|]. intros [[c1 partials1] cards]. cbn [fst snd].
  assert (forall cards, pays (document ← PRet (str_at "document_id" record);
     json_completion env timestamp_of fuel c1 CARD_SYSTEM (merge_prompt cards) ("card-merge:" +:+ document)
       (Some ("session_card"%string, CARD_SCHEMA)) 8192) (fun r => cl_ledger r.1) (cl_ledger c1)) as Hmerge.
  { intros cards'. apply pays_quiet; [apply only_ret|intros document]. apply completion_pays. }
  eapply (pays_bind _ _ (fun r : client * row => cl_ledger r.1)).
  - destruct cards as [|card [|]]; [apply Hmerge|apply (pays_mret (c1, card))|apply Hmerge].
  - intros [c2 final]. quietly. apply (pays_mret (c2, partials1, _)).
Qed.
Lemma cards_of_pays fuel partial_path output_path existing corpus : forall c partials h,
  tracks (cl_ledger c) h ->
  wp within_budget (cards_of env timestamp_of fuel partial_path output_path existing c partials corpus) h (fun _ _ => True).
Proof.
  induction corpus as [|record corpus IH]; intros c partials h Hl; cbn [cards_of]; [done|].
  apply wp_bind. cbn [wp]. destruct (key_of "document_id" record) as [document|]; [|done].
  destruct (existsb _ _); [by apply IH|]. apply wp_bind, wp_attempt.
  assert (pays (card_attempt env timestamp_of fuel partial_path c partials record) (fun r => cl_ledger r.1.1) (cl_ledger c)) as Hc.
  { unfold card_attempt. eapply pays_bind; [apply generate_card_pays|]. intros [[c1 partials1] card]. quietly.
    apply (pays_mret (c1, partials1, _)). }
  eapply wp_post; [by apply Hc|]. intros h1 [[[c1 partials1] r]|e] Ht.
  - apply wp_bind. split; [done|]. intros [[]|e]; [|done]. apply IH. exact (tracks_quiet _ h1 (Ev (AppendRow output_path r : cact) _ :: h1) eq_refl Ht).
  - destruct (is_exception e); [|done]. apply wp_bind. cbn [wp]. destruct (failed_row record e); [|done].
    apply wp_bind. split; [done|]. by intros [[]|].
Qed.
Lemma category_pays fuel corpus cards known c cached category :
  pays (category_questions env timestamp_of fuel corpus cards known c cached category) (fun r => cl_ledger r.1) (cl_ledger c).
Proof.
  unfold category_questions. case_bool_decide.
  - apply pays_quiet; [apply only_ret|intros r]. apply (pays_mret (c, r)).
  - unfold model_category. apply pays_quiet; [apply only_ret|intros source].
    set (hash := stable_key _).
    assert (pays ('(c, value) ← json_completion env timestamp_of fuel c QUESTION_SYSTEM (category_prompt category source)
                     ("questions:" +:+ category) (Some ((category +:+ "_questions")%string, QUESTION_SCHEMA)) 8192;
                   validated ← PRet (validate_questions category known (dget "questions" value));
                   mret (c, (validated, false, hash))) (fun r => cl_ledger r.1) (cl_ledger c)) as Hnew.
    { eapply pays_bind; [apply completion_pays|]. intros [c1 value]. apply pays_quiet; [apply only_ret|intros validated].
      apply (pays_mret (c1, _)). }
    destruct (jlookup _ cached) as [[|kv stored]|]; [exact Hnew| |exact Hnew].
    apply pays_quiet; [apply check_quiet|intros []]. apply pays_quiet; [apply only_ret|intros validated]. apply (pays_mret (c, _)).
Qed.
Lemma categories_pay fuel partial_path corpus cards known l : forall c cached output h,
  tracks (cl_ledger c) h ->
  wpo within_budget (categories env timestamp_of fuel partial_path corpus cards known c cached output l) h (fun _ _ => True).
Proof.
  induction l as [|category l IH]; intros c cached output h Hl; cbn [categories]; [by apply wpo_mret|].
  apply wpo_bind. eapply wpo_post; [by apply category_pays|]. intros h1 [c1 [[validated was_cached] hash]] H1.
  apply wpo_bind. apply wpo_free; [destruct was_cached; [apply only_ret|apply append_quiet]|]. intros h2 [] H2.
  apply IH. by eapply tracks_quiet.
Qed.
End file.

Definition paying (fuel : nat) (path : string) (p : prog unit) : Prop :=
  (exists corpus output model, p = generate_cards env timestamp_of fuel corpus output path model) \/
  (exists corpus cards output model, p = generate_questions env timestamp_of fuel corpus cards output path model).

End spend.
