(* ===== verification/CanaryQuestionFacts.v ===== *)
(** * Hindsight canary: theorems about the questions

    The question set that is written has its shape, and every question cites messages that
    are in the corpus. *)

From stdpp Require Import base option list sets strings.
From Stdlib Require Import ZArith Lia Ascii SpecFloat Qcanon.
From S2P Require Import Prelude PyStr PyFloat Json JsonParse Effects Canary Eval EvalFacts CanaryText.
From S2P Require Import CanaryLedger CanaryCards CanaryQuestions CanarySpend.

Local Open Scope Z_scope.

Section facts.
Context {F : Type} `{PyFloat F}.
Abbreviation row := (odict (json F)).
Abbreviation prog := (@prog (@canary_effect F)).
Abbreviation hist := (@Effects.hist (@canary_effect F)).
Abbreviation cact := (@action (@canary_effect F)).

(** ** Grounded questions *)

Section known.
Variable known : sequences (F := F).
(** A document of the corpus, and sequences of its messages *)
Definition cites (e : string * json F) : Prop :=
  exists allowed cited, jlookup (JStr e.1) known = Some allowed /\ e.2 = JArr cited /\ cited <> [] /\
    Forall (fun s => existsb (py_eq s) allowed = true) cited.
Record grounded (category : string) (q : row) : Prop := {
  gr_evidence : exists clean, dget "evidence" q = Some (evidence_json clean) /\ clean <> [] /\ Forall cites clean /\
    (category = CROSS -> (2 <= length (remove_dups (map fst clean)))%nat);
  gr_question : normalized_question q <> EmptyString;
}.

Lemma any_unknown_false allowed l : any_unknown (F := F) allowed l = Ok false -> Forall (fun s => existsb (py_eq s) allowed = true) l.
Proof.
  induction l as [|j l IH]; [constructor|]. cbn [any_unknown]. intros (x & Hx & Hl)%bind_Ok.
  unfold set_mem in Hx. apply bind_Ok in Hx as (u & _ & [= <-]). destruct (existsb _ _) eqn:E; [|done].
  constructor; [done|by apply IH].
Qed.
Lemma clean_evidence_cites evidence clean : evidence <> [] ->
  clean_evidence known evidence = Ok (Some clean) -> clean <> [] /\ Forall cites clean.
Proof.
  intros Hn Hc. assert (length clean = length evidence /\ Forall cites clean) as [Hl Hf].
  { clear Hn. revert clean Hc. induction evidence as [|j evidence IH]; intros clean; cbn [clean_evidence]; [by intros [= <-]|].
    destruct j as [| | | | | |it]; try done. destruct (negb _); [done|].
    destruct (dget "source_sequences" it) as [[| | | | |[|s cited]|]|]; try done.
    destruct (jlookup _ known) as [allowed|] eqn:Ea; [|done].
    intros (unknown & Hu & Hc)%bind_Ok. destruct unknown; [done|].
    apply bind_Ok in Hc as ([rest|] & Hr & [= <-]). destruct (IH _ Hr) as [Hl Hf]. split; [simpl; by rewrite Hl|].
    constructor; [|done]. exists allowed, (s :: cited). split; [exact Ea|]. split; [done|]. split; [done|]. by apply any_unknown_false. }
  split; [|done]. intros ->. by destruct evidence.
Qed.
Lemma valid_question_grounded category seen question normalized q :
  valid_question category known seen question = Ok (Some (normalized, q)) ->
  normalized = normalized_question q /\ (normalized ∉ seen) /\ grounded category q.
Proof.
  unfold valid_question. destruct question as [| | | | | |d]; try done.
  destruct (dget "evidence" d) as [[| | | | |[|e evidence]|]|] eqn:Ee; try done.
  intros ([clean|] & Hc & Hq)%bind_Ok; [|done].
  destruct (bool_decide (category = CROSS) && _) eqn:Ex; [done|]. destruct (bool_decide _ || _) eqn:Eo; [done|].
  injection Hq as <- <-. apply orb_false_iff in Eo as [Hne%bool_decide_eq_false Hs%bool_decide_eq_false].
  assert (normalized_question (dset "evidence" (evidence_json clean) d) = normalized_question d) as Hnq.
  { unfold normalized_question, str_or. by rewrite dget_dset_ne. }
  split; [by rewrite Hnq|]. split; [done|]. destruct (clean_evidence_cites (e :: evidence) clean ltac:(done) Hc) as [Hcl Hf]. split; [|by rewrite Hnq].
  exists clean. split; [apply dget_dset_eq|]. split; [done|]. split; [done|]. intros Hcat.
  apply andb_false_iff in Ex as [Ex%bool_decide_eq_false|Ex%Nat.ltb_ge]; [done|lia].
Qed.
Lemma valid_questions_grounded category l : forall seen out,
  valid_questions category known seen l = Ok out ->
  Forall (grounded category) out /\ NoDup (map normalized_question out) /\ Forall (fun q => (normalized_question q ∉ seen)) out.
Proof.
  induction l as [|question l IH]; intros seen out; cbn [valid_questions].
  - intros [= <-]. split; [constructor|]. split; constructor.
  - intros ([[normalized q]|] & Hv & Hr)%bind_Ok; [|by apply IH].
    apply bind_Ok in Hr as (rest & Hr & [= <-]). apply valid_question_grounded in Hv as (-> & Hs & Hg).
    destruct (IH _ _ Hr) as (Hgs & Hn & Hf). rewrite Forall_forall in Hf. split; [by constructor|]. split.
    + cbn [map]. constructor; [|done]. intros (q' & Hq & Hin)%list_elem_of_fmap. specialize (Hf q' Hin). rewrite Hq in Hf. set_solver.
    + constructor; [done|]. apply Forall_forall. intros q' Hin. specialize (Hf q' Hin). set_solver.
Qed.
Definition block_ok (category : string) (block : list row) : Prop :=
  length block = 20%nat /\ Forall (grounded category) block /\ NoDup (map normalized_question block).
Lemma validate_questions_ok category questions out :
  validate_questions category known questions = Ok out -> block_ok category out.
Proof.
  unfold validate_questions. intros (l & _ & (validated & Hv & (u & Hl%raise_if_Ok & [= <-])%bind_Ok)%bind_Ok)%bind_Ok.
  destruct (valid_questions_grounded _ _ _ _ Hv) as (Hg & Hn & _). apply Nat.ltb_ge in Hl. split; [|split].
  - rewrite length_take. lia.
  - by apply Forall_take.
  - change (map normalized_question (take 20 validated)) with (normalized_question <$> take 20 validated). rewrite fmap_take.
    rewrite <- (take_drop 20 (map normalized_question validated)) in Hn. by apply NoDup_app in Hn as (? & _).
Qed.

(** ** Numbered blocks *)

Definition question_id (category : string) (i : Z) : json F := JStr (category +:+ "-" +:+ B64.pad2 i).
Definition written_block (category : string) (block : list row) : Prop :=
  block_ok category block /\ Forall (fun q => dget "category" q = Some (JStr category)) block /\
  map (dget "id") block = map (fun i => Some (question_id category i)) (seqZ 1 20).
Lemma numbered_fields category n l :
  Forall (fun q => dget "category" q = Some (JStr category)) (numbered (F := F) category n l) /\
  length (numbered category n l) = length l /\
  map normalized_question (numbered category n l) = map normalized_question l /\
  (Forall (grounded category) l -> Forall (grounded category) (numbered category n l)).
Proof.
  revert n. induction l as [|q l IH]; intros n; cbn [numbered]; [done|]. destruct (IH (S n)) as (Hc & Hl & Hn & Hg).
  set (q' := dset "id" _ _).
  assert (forall k, k <> "id"%string -> k <> "category"%string -> dget k q' = dget k q) as Hk.
  { intros k H1 H2. unfold q'. by rewrite !dget_dset_ne. }
  assert (normalized_question q' = normalized_question q) as Hq by (unfold normalized_question, str_or; by rewrite Hk).
  split; [|split; [|split]].
  - constructor; [|done]. unfold q'. by rewrite dget_dset_ne, dget_dset_eq.
  - simpl. by rewrite Hl.
  - cbn [map]. by rewrite Hq, Hn.
  - intros [[He Hne] Hf]%Forall_cons_1. constructor; [|by apply Hg]. split; [by rewrite Hk|by rewrite Hq].
Qed.
Lemma numbered_ids category l : forall n, map (dget "id") (numbered (F := F) category n l) =
  map (fun i => Some (JStr (category +:+ "-" +:+ B64.pad2 (Z.of_nat i mod 20 + 1)))) (seq n (length l)).
Proof.
  induction l as [|q l IH]; intros n; cbn [numbered map seq length]; [done|]. rewrite IH. by rewrite dget_dset_eq.
Qed.
Lemma numbered_written category k block :
  block_ok category block -> written_block category (numbered category (20 * k) block).
Proof.
  intros (Hl & Hg & Hn). destruct (numbered_fields category (20 * k) block) as (Hc & Hl' & Hn' & Hg').
  split; [|split; [done|]].
  - split; [by rewrite Hl', Hl|]. split; [by apply Hg'|by rewrite Hn'].
  - rewrite numbered_ids, Hl.
    assert (forall i, (Z.of_nat (20 * k + i) mod 20 = Z.of_nat i mod 20)) as Hm.
    { intros i. replace (Z.of_nat (20 * k + i)) with (Z.of_nat i + Z.of_nat k * 20) by lia. apply Z.mod_add. lia. }
    replace (seq (20 * k) 20) with (map (fun i => (20 * k + i)%nat) (seq 0 20)).
    + rewrite map_map. unfold question_id. cbn [seq map seqZ]. rewrite !Hm. reflexivity.
    + change map with (@fmap list _). rewrite fmap_add_seq. f_equal. lia.
Qed.
(** ** The categories *)

Section run.
Variables (env : odict string) (timestamp_of : string -> option F) (fuel : nat).
Lemma cross_category_ok corpus cached r : cross_category corpus known cached = Ok r -> block_ok CROSS r.1.1.
Proof.
  unfold cross_category. intros (base & _ & Hr)%bind_Ok.
  assert (forall x, (built ← build_cross_session_questions base corpus;
     validated ← validate_questions CROSS known (Some (JArr (map JObj built)));
     Ok (validated, false, stable_key (JArr [JStr "deterministic-cross-session-v1"; JArr base]))) = Ok x -> block_ok CROSS x.1.1) as Hnew.
  { intros x (built & _ & (validated & Hv & [= <-])%bind_Ok)%bind_Ok. by eapply validate_questions_ok. }
  destruct (jlookup (JStr CROSS) cached) as [[|kv stored]|]; [by apply Hnew| |by apply Hnew].
  apply bind_Ok in Hr as (u & _ & (validated & Hv & [= <-])%bind_Ok). by eapply validate_questions_ok.
Qed.
Lemma category_ok corpus cards c cached category :
  yields (category_questions env timestamp_of fuel corpus cards known c cached category) (fun r => block_ok category r.2.1.1).
Proof.
  unfold category_questions. case_bool_decide as Hc.
  - subst. apply yields_pure. intros r Hr. apply yields_mret. by eapply cross_category_ok.
  - unfold model_category. apply yields_then. intros source.
    match goal with |- yields (match ?x with _ => _ end) _ => destruct x as [[|kv stored]|] end.
    1,3: apply yields_then; intros [c1 value]; apply yields_pure; intros validated Hv; apply yields_mret; by eapply validate_questions_ok.
    apply yields_then. intros []. apply yields_pure. intros validated Hv. apply yields_mret. by eapply validate_questions_ok.
Qed.
Definition written (output : list row) (l : list string) : Prop :=
  exists blocks, output = concat blocks /\ Forall2 written_block l blocks.
Lemma categories_written partial_path corpus cards l : forall c cached output k, length output = (20 * k)%nat ->
  yields (categories env timestamp_of fuel partial_path corpus cards known c cached output l)
    (fun out => exists rest, out = output ++ rest /\ written rest l).
Proof.
  induction l as [|category l IH]; intros c cached output k Hk; cbn [categories].
  - apply yields_mret. exists []. split; [by rewrite app_nil_r|]. exists []. by split; [|constructor].
  - eapply yields_bind; [apply category_ok|]. intros [c1 [[validated was_cached] hash]] Hb. cbn [fst snd] in Hb.
    apply yields_then. intros []. rewrite Hk. pose proof (numbered_written category k validated Hb) as Hw.
    eapply yields_mono; [|apply (IH _ _ _ (S k))].
    + intros out (rest & -> & blocks & -> & Hf). exists (numbered category (20 * k) validated ++ concat blocks).
      split; [by rewrite app_assoc|]. exists (numbered category (20 * k) validated :: blocks). split; [done|by constructor].
    + destruct Hw as [[Hl _] _]. rewrite length_app, Hk, Hl. lia.
Qed.
End run.
End known.

(** ** The file that is written *)

Definition known_of (lines : list (option (json F))) (path : string) : result (sequences (F := F)) :=
  rows ← rows_of 1 path lines; known_sequences [] rows.
Definition grounded_set (corpus_path : string) (h : hist) (rows : list row) : Prop :=
  exists lines known, Ev (ReadRows corpus_path : cact) (Ok (Some lines)) ∈ h /\ known_of lines corpus_path = Ok known /\
    length rows = 100%nat /\ written known rows CATEGORIES.
Definition writes_well (corpus_path : string) (h : hist) (a : cact) : Prop :=
  match a with WriteRows _ rows => grounded_set corpus_path h rows | _ => True end.
Definition other (a : cact) : Prop := match a with WriteRows _ _ => False | _ => True end.
Lemma other_writes corpus_path h a : other a -> writes_well corpus_path h a.
Proof. by destruct a. Qed.
Lemma completion_other env timestamp_of fuel c system user purpose schema tokens :
  only other (json_completion (F := F) env timestamp_of fuel c system user purpose schema tokens).
Proof.
  assert (forall fuel l r, only other (wait_for_rate_capacity (F := F) timestamp_of fuel l r)) as Hw.
  { clear. induction fuel as [|fuel IH]; intros l r; cbn [wait_for_rate_capacity]; [apply only_halt|]. only_auto. }
  unfold json_completion, record, check. only_auto.
Qed.
Lemma categories_other env timestamp_of fuel partial_path corpus cards known l : forall c cached output,
  only other (categories (F := F) env timestamp_of fuel partial_path corpus cards known c cached output l).
Proof.
  pose proof (completion_other env timestamp_of fuel) as Hc.
  induction l as [|category l IH]; intros c cached output; cbn [categories]; [apply only_ret|].
  unfold category_questions, model_category, check. apply only_bind; [only_auto|]. intros [c1 [[validated was_cached] hash]].
  apply only_bind; [destruct was_cached; only_auto|]. intros []. apply IH.
Qed.
Lemma ledger_other env path : only other (open_ledger (F := F) env path).
Proof. unfold open_ledger, key_preflight, check. only_auto. Qed.

(** C34: The question set that is written has a hundred questions, twenty of every category in
    order, numbered from 1 to 20, no two of a category the same up to case and white space;
    each cites, for documents of the corpus that was read, sequences of their messages, and
    each question across sessions cites two documents at least. *)
Theorem written_questions_are_grounded env timestamp_of fuel corpus cards output ledger model h path rows k :
  steps (generate_questions env timestamp_of fuel corpus cards output ledger model) [] (POp (WriteRows path rows : cact) k) h ->
  grounded_set corpus h rows.
Proof.
  intros Hs. refine (wp_guard (writes_well corpus) _ _ (fun _ _ => True) _ _ _ _ Hs).
  eapply wp_post with (Q := fun h r => match r with Ok a => True | Raise _ => True end); [|done].
  unfold generate_questions. apply wpo_bind. unfold read_jsonl at 1. apply wpo_bind.
  apply (wpo_act (writes_well corpus) (ReadRows corpus : cact)); [done|]. intros [lines|]; [|done].
  apply wpo_ret. intros corpus_rows Hrows.
  apply wpo_bind. eapply wpo_only with (P := other); [destruct cards; unfold read_jsonl; only_auto|apply other_writes|]. intros evs1 card_rows _ _.
  apply wpo_bind, wpo_ret. intros by_id _. apply wpo_bind, wpo_ret. intros known Hk.
  apply wpo_bind. eapply wpo_only; [apply ledger_other|apply other_writes|]. intros evs2 l _ _.
  apply wpo_bind. eapply wpo_only with (P := other); [unfold read_existing; only_auto|apply other_writes|]. intros evs3 stored _ _.
  apply wpo_bind, wpo_ret. intros cached _.
  apply wpo_bind. eapply wpo_only_yields; [apply categories_other|apply (categories_written known _ _ _ _ _ _ _ _ _ _ 0); reflexivity|apply other_writes|].
  intros evs4 out _ _ (rest & -> & Hw). apply wpo_bind, wpo_ret. intros [] Hl%raise_if_Ok.
  apply negb_false_iff, Nat.eqb_eq in Hl.
  apply (wpo_act (writes_well corpus) (WriteRows output _ : cact)); [|done].
  exists lines, known. split; [set_solver|]. split; [unfold known_of; by rewrite Hrows|]. by split.
Qed.
End facts.

(** ** Hindsight canary: cards and questions of a small corpus

    The theorems about prompts, the ledger and the question set applied to a corpus of two
    sessions. *)

Abbreviation F := Qc.
Abbreviation cact := (@action (@canary_effect F)).

Definition demo_env : odict string :=
  [("CANARY_REDPILL_API_KEY", "canary-key"); ("CANARY_HARD_BUDGET_USD", "1.5"); ("CANARY_RPM_LIMIT", "10");
   ("CANARY_TPM_LIMIT", "100000"); ("CANARY_20B_INPUT_USD_PER_M", "0.05"); ("CANARY_20B_OUTPUT_USD_PER_M", "0.2");
   ("CANARY_120B_INPUT_USD_PER_M", "0.1"); ("CANARY_120B_OUTPUT_USD_PER_M", "0.5")]%string.
Definition demo_message (seq : Z) (text : string) : json F :=
  JObj [("seq", JInt seq); ("role", JStr "user"); ("text", JStr text)]%string.
Definition demo_session (id text : string) : json F :=
  JObj [("document_id", JStr id); ("source", JStr "agent_sessions"); ("messages", JArr [demo_message 1 text])]%string.
Definition demo_lines : list (option (json F)) := [Some (demo_session "d1" "it failed"); None; Some (demo_session "d2" "fixed")]%string.
Definition demo_corpus : list (odict (json F)) := match rows_of 1 "corpus" demo_lines with Ok l => l | Raise _ => [] end.
(** The provider's answer *)
Definition demo_card : odict (json F) :=
  [("objective", JStr "o"); ("outcome_status", JStr "done"); ("decisions", JArr []); ("errors_blockers", JArr []);
   ("artifacts", JArr []); ("follow_ups", JArr []); ("source_sequences", JArr [JInt 1])]%string.
Definition demo_reply (tokens : Z) : json F :=
  JObj [("choices", JArr [JObj [("message", JObj [("content", JStr (dumps (JObj demo_card)))])]]);
        ("usage", JObj [("prompt_tokens", JInt 100); ("completion_tokens", JInt tokens)])]%string.

Definition answer_with (stored : string -> list (option (json F))) (tokens : Z) (a : caction F) (w : unit)
    : result (canswer a) * unit :=
  match a as a return result (canswer a) * unit with
  | ReadText _ => (Ok None, w)
  | ReadRows path => (Ok (if bool_decide (path = "corpus"%string) then Some demo_lines else Some (stored path)), w)
  | ReadJson _ => (Ok None, w)
  | WriteJson _ _ | WriteRows _ _ | AppendRow _ _ | Wait _ => (Ok tt, w)
  | Request _ _ _ _ => (Ok (200, Some (demo_reply tokens)), w)
  | Search _ _ _ _ => (Ok [], w)
  | NowIso | Nonce => (Ok "2026-01-01T00:00:00+00:00"%string, w)
  | NowStamp => (Ok (f_of_Z 0), w)
  end.
Definition no_stamp (s : string) : option F := None.
Definition demo_cards : @prog (@canary_effect F) unit :=
  generate_cards demo_env no_stamp 3 "corpus" "cards" "ledger" "openai/gpt-oss-20b".

(** ** The cards *)

Definition is_paid (a : cact) : bool := match paid a with Some _ => true | None => false end.
Definition at_request := reach (E := canary_effect) is_paid (answer_with (fun _ => []) 50) demo_cards tt [].
Definition demo_request : string * odict string * json F :=
  match next_action at_request.1 with
  | Some (Request _ url params (Some body)) => (url, params, body)
  | _ => (EmptyString, [], JNull)
  end.
Lemma next_is_request :
  next_action at_request.1 = Some (Request "POST" demo_request.1.1 demo_request.1.2 (Some demo_request.2)).
Proof. vm_compute. reflexivity. Qed.
Lemma request_performs (a : cact) : next_action at_request.1 = Some a -> exists k, steps demo_cards [] (POp a k) at_request.2.
Proof. apply reach_performs. Qed.

(** A call that costs more than the budget is not in the ledger file: the run ends before
    the file is written. *)
Example crossing_call_is_not_written :
  let run := exec (E := canary_effect) (answer_with (fun _ => []) 100000000) demo_cards tt [] in
  run.1.1 = Some (Raise (RuntimeError "local token ledger crossed the hard canary budget")) /\
  existsb (fun e => is_paid (ev_action e)) run.2 = true /\
  existsb (fun e => match ev_action e : cact with WriteJson _ _ => true | _ => false end) run.2 = false.
Proof. vm_compute. done. Qed.
Lemma control_model_has_small_prices_witness :
  prices (F := F) demo_env "openai/gpt-oss-120b" = prices demo_env "openai/gpt-oss-20b".
Proof. exact (control_model_has_small_prices (F := F) demo_env "openai/gpt-oss-120b" eq_refl). Defined.

(** ** The questions *)

(** A file of categories that were validated before, as a run would have left it *)
Definition demo_question (name : string) (documents : list string) (i : nat) : json F :=
  JObj [("question", JStr (name +:+ str_of_Z (Z.of_nat i)));
        ("evidence", JArr (map (fun d => JObj [("document_id", JStr d); ("source_sequences", JArr [JInt 1])]%string) documents))]%string.
Definition demo_questions (documents : list string) : list (json F) := map (demo_question "q" documents) (seq 0 20).
Definition model_hash (category : string) : string :=
  match question_source demo_corpus [] category with
  | Ok source => stable_key (JArr [JStr QUESTION_SYSTEM; QUESTION_SCHEMA; JStr (category_prompt category source)] : json F)
  | Raise _ => EmptyString
  end.
Definition cross_hash : string :=
  stable_key (JArr [JStr "deterministic-cross-session-v1"; JArr (concat (map (fun _ => demo_questions ["d1"%string]) (seq 0 4)))] : json F).
Definition stored_category (category : string) : option (json F) :=
  Some (JObj [("category", JStr category); ("status", JStr "ok");
              ("prompt_hash", JStr (if bool_decide (category = CROSS) then cross_hash else model_hash category));
              ("questions", JArr (demo_questions (if bool_decide (category = CROSS) then ["d1"; "d2"] else ["d1"])))]%string).
Definition stored_categories (path : string) : list (option (json F)) := map stored_category CATEGORIES.
Definition demo_generation : @prog (@canary_effect F) unit :=
  generate_questions demo_env no_stamp 3 "corpus" None "questions" "ledger" "openai/gpt-oss-20b".
Definition is_written (a : cact) : bool := match a with WriteRows _ _ => true | _ => false end.
Definition at_write : @prog (@canary_effect F) unit * @hist (@canary_effect F) :=
  reach (E := canary_effect) is_written (answer_with stored_categories 50) demo_generation tt [].
Definition rows_written (a : option cact) : list (odict (json F)) :=
  match a with Some (WriteRows _ rows) => rows | _ => [] end.
Definition demo_rows : list (odict (json F)) := rows_written (next_action at_write.1).
Lemma next_is_write : next_action at_write.1 = Some (WriteRows "questions" demo_rows).
Proof. vm_compute. reflexivity. Qed.
Lemma write_performs (a : cact) : next_action at_write.1 = Some a -> exists k, steps demo_generation [] (POp a k) at_write.2.
Proof. unfold at_write. exact (reach_performs is_written (answer_with stored_categories 50) demo_generation tt [] a). Qed.
Lemma written_questions_are_grounded_witness : grounded_set "corpus" at_write.2 demo_rows.
Proof.
  destruct (write_performs _ next_is_write) as [k Hk].
  exact (written_questions_are_grounded demo_env no_stamp 3 "corpus" None "questions" "ledger" "openai/gpt-oss-20b" _ _ _ k Hk).
Defined.

(** ** Text *)

Lemma printed_object_is_read_back_witness :
  parse_json_object ("Here it is:" +:+ newline +:+ "```json" +:+ newline +:+ dumps (JObj demo_card : json F) +:+
    newline +:+ "```" +:+ " That is all { of it.") = Ok demo_card.
Proof.
  refine (printed_object_is_read_back demo_card ("Here it is:" +:+ newline +:+ "```json" +:+ newline)
    (newline +:+ "```" +:+ " That is all { of it.") _ _); [|reflexivity].
  apply plain_obj. split; [|by repeat constructor]. apply (bool_decide_unpack _). vm_compute. exact I.
Defined.
Lemma chunks_keep_the_transcript_witness :
  concat (message_chunks [[("text", JStr "short" : json F)]; [("text", JStr "another" : json F)]]%string 200) =
  map (capped 200) [[("text", JStr "short" : json F)]; [("text", JStr "another" : json F)]]%string.
Proof. refine (proj1 (chunks_keep_the_transcript _ 200 _ _)); [lia|discriminate]. Defined.
(** ** Ranks *)

Definition demo_hit (id : string) : hit (F := F) := (("agent_sessions", id), [])%string.
Definition demo_arms : list (list (hit (F := F))) := [[demo_hit "a"; demo_hit "b"]; [demo_hit "b"; demo_hit "c"]]%string.
Lemma fuse_is_reciprocal_rank_witness :
  let out := _fuse demo_arms 2 in NoDup out.*1 /\ length out = 2%nat /\ f_leb (rrf_score demo_arms ("agent_sessions", "c")%string) (rrf_score demo_arms ("agent_sessions", "b")%string) = true.
Proof.
  destruct (fuse_is_reciprocal_rank demo_arms 2) as (_ & Hn & _). split; [exact Hn|]. split; vm_compute; reflexivity.
Defined.
