(* ===== verification/CanaryCorpus.v ===== *)
(** * Hindsight canary: the choice of the corpus, and the command line

    canary.py: [stratified_pick] chooses sessions evenly among strata of tool, project, time,
    length and kind of summary, and [select_corpus] reads the sessions and the recordings
    from two databases and puts the corpus together.  The statements are actions; the columns
    have the types that the statements give them. *)

From stdpp Require Import base option list sets strings.
From Stdlib Require Import ZArith Lia Ascii SpecFloat.
From S2P Require Import Prelude PyStr StrFacts PyFloat Json PyTime Sha256 Effects Canary CanaryRetain CanaryGate Eval CanaryCards CanaryQuestions.

Local Open Scope Z_scope.
Local Open Scope py_scope.

(** A column with a time: a datetime, its instant and its [isoformat], or a text *)
Inductive column_time := NoTime | At (t : instant) (iso : string) | TimeText (s : string).

Section corpus.
Context {F : Type} `{PyFloat F}.
Abbreviation row := (odict (json F)).
(** [datetime.fromisoformat(s).timestamp()], [None] for [ValueError] *)
Variable timestamp_of : string -> option F.

Record session := {
  se_id : Z;
  se_content_hash : option string;
  se_tool : option string;
  se_project_path : option string;
  se_host_id : option string;
  se_started_at : column_time;
  se_ended_at : column_time;
  se_title : option string;
  se_summary : option string;
  se_source_path : option string;
  se_meta : json F;
  se_transcript_chars : Z;
  se_first_user : option string;
  se_last_assistant : option string;
}.
Definition or_text (d : string) (o : option string) : string :=
  match o with Some s => if bool_decide (s = EmptyString) then d else s | None => d end.
Definition ojson (o : option string) : json F := match o with Some s => JStr s | None => JNull end.

(** ** Summaries *)

(** The row has no key [session_id]: [row.get] gives [None]. *)
Definition fallback_summary (r : session) : string :=
  let title := or_text (default "None"%string (se_tool r) +:+ " session None") (se_title r) in
  join newline
    (title ::
     (match or_text EmptyString (se_first_user r) with
      | EmptyString => []
      | s => ["First user turn: " +:+ _one_line s 600]
      end) ++
     (match or_text EmptyString (se_last_assistant r) with
      | EmptyString => []
      | s => ["Last assistant turn: " +:+ _one_line s 900]
      end)).
Definition with_summary (s : string) (r : session) : session :=
  {| se_id := se_id r; se_content_hash := se_content_hash r; se_tool := se_tool r; se_project_path := se_project_path r;
     se_host_id := se_host_id r; se_started_at := se_started_at r; se_ended_at := se_ended_at r; se_title := se_title r;
     se_summary := Some s; se_source_path := se_source_path r; se_meta := se_meta r;
     se_transcript_chars := se_transcript_chars r; se_first_user := se_first_user r;
     se_last_assistant := se_last_assistant r |}.
(** The row, whose summary is filled in, and what is returned *)
Definition annotate_summary (r : session) : session * string :=
  let fallback := strip (fallback_summary r) in
  let summary := strip (or_text EmptyString (se_summary r)) in
  if bool_decide (summary = EmptyString) then (with_summary fallback r, "fallback"%string)
  else (r, if bool_decide (summary = fallback) then "fallback"%string else "supplied"%string).

(** ** Strata *)

Definition _epoch (w : column_time) : result Z :=
  match w with
  | NoTime => Ok 0
  | At t _ => f_trunc (timestamp (F := F) t)
  | TimeText s =>
      match timestamp_of (replace_char "Z" "+00:00" s) with Some x => f_trunc x | None => Ok 0 end
  end.
(** [statistics.quantiles(data, n=4, method="inclusive")] of integers, whose products a float
    holds *)
Fixpoint insert_Z (x : Z) (l : list Z) : list Z :=
  match l with [] => [x] | y :: l => if y <? x then y :: insert_Z x l else x :: y :: l end.
Definition sorted_Z (l : list Z) : list Z := foldr insert_Z [] l.
Definition cut_at (data : list Z) (i : Z) : result F :=
  let j := (i * (Z.of_nat (length data) - 1)) / 4 in
  let delta := (i * (Z.of_nat (length data) - 1)) mod 4 in
  let at_ k := default 0 (data !! Z.to_nat k) in
  x ← f_int (at_ j * (4 - delta) + at_ (j + 1) * delta);
  Ok (f_div x (f_of_Z 4)).
Definition quartiles (values : list Z) : result (list F) :=
  let data := sorted_Z values in
  raise! (OtherError "StatisticsError" "must have at least two data points") when (length data <? 2)%nat;
  mapM_ok (cut_at data) [1; 2; 3].
Fixpoint quantile_bucket_from (index : Z) (value : Z) (cuts : list F) : string :=
  match cuts with
  | [] => str_of_Z index
  | cut :: cuts => if f_leb (f_of_Z value) cut then str_of_Z index else quantile_bucket_from (index + 1) value cuts
  end.
Definition quantile_bucket (value : Z) (cuts : list F) : string := quantile_bucket_from 0 value cuts.

Definition project_of (r : session) : string := or_text "(none)" (se_project_path r).
(** [Counter(l).most_common(n)]: in the order of the first occurrence, then by count *)
Definition tally (l : list string) : odict Z :=
  foldl (fun d x => dset x (default 0 (dget x d) + 1) d) [] l.
Fixpoint insert_count (x : string * Z) (l : odict Z) : odict Z :=
  match l with [] => [x] | y :: l => if x.2 <? y.2 then y :: insert_count x l else x :: y :: l end.
Definition most_common (n : nat) (d : odict Z) : odict Z := take n (foldr insert_count [] d).
Definition top_projects (rows : list session) : list string := map fst (most_common 20 (tally (map project_of rows))).
(** [int(text, 16)] of a hexadecimal digest *)
Definition hex_value (s : string) : Z :=
  foldl (fun n c => n * 16 + (let k := Z.of_N (code c) in if k <=? 57 then k - 48 else k - 87)) 0 (String.list_ascii_of_string s).
Definition shown_project (top : list string) (project : string) : string :=
  if bool_decide (project ∈ top) then project
  else "other-" +:+ str_of_Z (hex_value (stake 2 (stable_key (JStr project : json F))) mod 8).

Record picked := { pk_session : session; pk_summary_source : string; pk_stratum : list string }.
Definition tool_of (r : session) : string := or_text "unknown" (se_tool r).
Definition annotated_plainly (r : session) : picked :=
  let '(r', supplied) := annotate_summary r in
  {| pk_session := r'; pk_summary_source := supplied;
     pk_stratum := [tool_of r; project_of r; "all"; "all"; supplied]%string |}.
Definition annotated (top : list string) (time_cuts length_cuts : list F) (r : session) : result picked :=
  let '(r', supplied) := annotate_summary r in
  started ← _epoch (se_started_at r);
  Ok {| pk_session := r'; pk_summary_source := supplied;
        pk_stratum := [tool_of r; shown_project top (project_of r); quantile_bucket started time_cuts;
                       quantile_bucket (se_transcript_chars r) length_cuts; supplied] |}.
Definition content_key (p : picked) : string := stable_key (ojson (se_content_hash (pk_session p))).
Definition by_content (l : list picked) : list picked := sort_by (map (fun p => (content_key p, p)) l).
Definition stratum_key (s : list string) : string := stable_key (JArr (map JStr s) : json F).

Definition of_stratum (s : list string) (l : list picked) : list picked :=
  List.filter (fun p => bool_decide (pk_stratum p = s)) l.
(** The strata, by key *)
Definition strata_of (l : list picked) : list (list string) :=
  sort_by (map (fun s => (stratum_key s, s)) (uniq (map pk_stratum l))).
Definition queues_of (l : list picked) : list (list picked) := map (fun s => by_content (of_stratum s l)) (strata_of l).

(** ** The choice *)

(** One pass over the queues, which ends where there is no more room: what was taken, and
    the queues after it *)
Fixpoint pass {A} (room : nat) (queues : list (list A)) : list A * list (list A) :=
  match room, queues with
  | O, _ | _, [] => ([], queues)
  | S _, [] :: queues => let '(chosen, rest) := pass room queues in (chosen, [] :: rest)
  | S room, (x :: q) :: queues => let '(chosen, rest) := pass room queues in (x :: chosen, q :: rest)
  end.
(** Passes until there is no more room or nothing is left *)
Fixpoint passes {A} (fuel room : nat) (queues : list (list A)) : list A :=
  match fuel, room with
  | S fuel, S _ =>
      match pass room queues with
      | ([], _) => []
      | (chosen, rest) => chosen ++ passes fuel (room - length chosen) rest
      end
  | _, _ => []
  end.
(** All rows with their strata *)
Definition annotate_all (rows : list session) : result (list picked) :=
  starts ← mapM_ok (fun r => _epoch (se_started_at r)) rows;
  length_cuts ← quartiles (map se_transcript_chars rows);
  time_cuts ← quartiles starts;
  mapM_ok (annotated (top_projects rows) time_cuts length_cuts) rows.
Definition stratified_pick (rows : list session) (count : Z) : result (list picked) :=
  if Z.of_nat (length rows) <=? count then Ok (by_content (map annotated_plainly rows))
  else
    all ← annotate_all rows;
    let chosen := passes (Z.to_nat count) (Z.to_nat count) (queues_of all) in
    raise! (RuntimeError ("selected " +:+ str_of_Z (Z.of_nat (length chosen)) +:+ " rows, expected " +:+ str_of_Z count))
      when negb (Z.of_nat (length chosen) =? count);
    Ok chosen.

(** ** The corpus *)

Record message := { ms_session_id : Z; ms_row : row }.
Record recording := {
  rc_id : Z;
  rc_pocket_id : string;
  rc_title : option string;
  rc_created_at : column_time;
  rc_updated_at : column_time;
  rc_summary : option string;
  rc_tags : json F;
  rc_speakers : json F;
  rc_action_items : json F;
  rc_mind_map : json F;
}.
Record segment := { sg_recording_id : Z; sg_seq : json F; sg_speaker : option string; sg_text : option string }.
(** The statements, each with its database; a row of a message is as [_jsonable] gives it. *)
Inductive qaction :=
  | Sessions (dsn : string)
  | Messages (dsn : string) (ids : list Z)
  | Recordings (dsn : string)
  | Segments (dsn : string)
  | WriteCorpus (path : string) (rows : list row)
  | PrintCounts (value : row).
Definition qanswer (a : qaction) : Type :=
  match a with
  | Sessions _ => list session
  | Messages _ _ => list message
  | Recordings _ => list recording
  | Segments _ => list segment
  | WriteCorpus _ _ | PrintCounts _ => unit
  end.
Definition corpus_effect : Effect := {| action := qaction; answer := qanswer |}.
Abbreviation prog := (@prog corpus_effect).
Abbreviation ask a := (@act corpus_effect a).

Definition jtime (t : column_time) : json F := match t with NoTime => JNull | At _ iso => JStr iso | TimeText s => JStr s end.
Definition por_empty (j : json F) : json F := if truthy j then j else JObj [].
Definition short_summary (o : option string) : json F := JStr (stake MAX_CONTENT_CHARS (or_text EmptyString o)).
Definition agent_document (messages : list message) (p : picked) : row :=
  let r := pk_session p in
  [("source", JStr "agent_sessions"); ("source_id", JInt (se_id r)); ("document_id", ojson (se_content_hash r));
   ("tool", ojson (se_tool r)); ("project_path", ojson (se_project_path r)); ("host_id", ojson (se_host_id r));
   ("started_at", jtime (se_started_at r)); ("ended_at", jtime (se_ended_at r)); ("title", ojson (se_title r));
   ("summary", short_summary (se_summary r)); ("summary_source", JStr (pk_summary_source p));
   ("source_path", ojson (se_source_path r)); ("meta", por_empty (se_meta r));
   ("transcript_chars", JInt (se_transcript_chars r)); ("stratum", JArr (map JStr (pk_stratum p)));
   ("messages", JArr (map (fun m => JObj (ms_row m)) (List.filter (fun m => Z.eqb (ms_session_id m) (se_id r)) messages)))]%string.
Definition pocket_message (s : segment) : json F :=
  JObj [("seq", sg_seq s); ("role", JStr (or_text "speaker" (sg_speaker s))); ("ts", JNull); ("text", ojson (sg_text s));
        ("tool_name", JNull)]%string.
Definition text_size (s : segment) : Z := Z.of_nat (String.length (or_text EmptyString (sg_text s))).
Definition pocket_document (segments : list segment) (r : recording) : row :=
  let mine := List.filter (fun s => Z.eqb (sg_recording_id s) (rc_id r)) segments in
  [("source", JStr "pocket"); ("source_id", JInt (rc_id r)); ("document_id", JStr ("pocket:" +:+ rc_pocket_id r));
   ("pocket_id", JStr (rc_pocket_id r)); ("title", ojson (rc_title r)); ("started_at", jtime (rc_created_at r));
   ("ended_at", jtime (rc_updated_at r)); ("summary", short_summary (rc_summary r)); ("summary_source", JStr "supplied");
   ("meta", JObj [("tags", rc_tags r); ("speakers", rc_speakers r); ("action_items", rc_action_items r);
                  ("mind_map", rc_mind_map r)]);
   ("transcript_chars", JInt (foldr Z.add 0 (map text_size mine)));
   ("stratum", JArr [JStr "pocket"; JStr "all"; JStr "all"; JStr "all"; JStr "supplied"]);
   ("messages", JArr (map pocket_message mine))]%string.
Definition select_corpus (agent_dsn pocket_dsn : string) (agent_count : Z) : prog (list row) :=
  features ← ask (Sessions agent_dsn);
  chosen ← PRet (stratified_pick features (Z.min agent_count (Z.of_nat (length features))));
  messages ← ask (Messages agent_dsn (map (fun p => se_id (pk_session p)) chosen));
  recordings ← ask (Recordings pocket_dsn);
  segments ← ask (Segments pocket_dsn);
  mret (map (agent_document messages) chosen ++ map (pocket_document segments) recordings).
(** The command [select] *)
Definition of_source (source : string) (corpus : list row) : Z :=
  Z.of_nat (length (List.filter (fun r => is_str source (dget "source" r)) corpus)).
Definition select_command (agent_dsn pocket_dsn output : string) (agent_count : Z) : prog unit :=
  corpus ← select_corpus agent_dsn pocket_dsn agent_count;
  ask (WriteCorpus output corpus);;
  ask (PrintCounts [("agent_sessions", JInt (of_source "agent_sessions" corpus)); ("pocket", JInt (of_source "pocket" corpus))]%string).
End corpus.

(** ** The other commands *)

Section main.
Context {F : Type} `{PyFloat F}.
Variable env : odict string.
Variable timestamp_of : string -> option F.
(** The turns of the loops that wait for the memory service or for a rate limit *)
Variable fuel : nat.
Abbreviation prog := (@Effects.prog (canary_effect (F := F))).
Abbreviation ask a := (@act (canary_effect (F := F)) a).

Definition decision_json (d : decision F) : odict (json F) :=
  [("selected_model", JStr (dc_selected_model d)); ("selected_variant", ojson (dc_selected_variant d));
   ("keep_hindsight", JBool (dc_keep_hindsight d)); ("production_backend", JStr (dc_production_backend d));
   ("checks", JObj [("20b_model_gate", JBool (dc_use_20b d)); ("correctness_and_provenance", JBool (dc_correctness_ok d));
                    ("temporal_gain", JFloat (dc_temporal_gain d)); ("context_reduction", JFloat (dc_context_reduction d))])]%string.
(** The decision is written when an output is named, and printed in any case. *)
Definition gate_command (metrics : string) (output : option string) : prog (decision F) :=
  read ← ask (ReadJson metrics);
  j ← PRet (match read with Some j => Ok j | None => Raise (OtherError "FileNotFoundError" metrics) end);
  decision ← PRet (gate_decision j);
  match output with
  | None | Some EmptyString => mret decision
  | Some path => ask (WriteJson path (JObj (decision_json decision)));; mret decision
  end.
Inductive command :=
  | Preflight
  | Cards (corpus output ledger model : string)
  | Questions (corpus : string) (cards : option string) (output ledger model : string)
  | Retain (a : retain_args)
  | Gate (metrics : string) (output : option string).
(** What a command prints, before it is turned into text *)
Inductive printed :=
  | Nothing
  | Prices (p : guard F * list (string * (F * F)))
  | Retained (o : outcome (F := F))
  | Decided (d : decision F).
(** [main], but for [select], which talks to other servers *)
Definition main (c : command) : prog printed :=
  match c with
  | Preflight => p ← provider_preflight env; mret (Prices p)
  | Cards corpus output ledger model => generate_cards env timestamp_of fuel corpus output ledger model;; mret Nothing
  | Questions corpus cards output ledger model =>
      generate_questions env timestamp_of fuel corpus cards output ledger model;; mret Nothing
  | Retain a => o ← retain_canary env fuel a; mret (Retained o)
  | Gate metrics output => d ← gate_command metrics output; mret (Decided d)
  end.
End main.

(** ** The choice of the corpus: theorems *)

Section passing.
Context {A : Type}.
Implicit Types (queues : list (list A)).
Abbreviation zeros queues := (repeat 0%nat (length queues)).
Lemma zeros_all (P : nat -> list A -> Prop) queues : (forall q, P 0%nat q) -> Forall2 P (zeros queues) queues.
Proof. intros HP. induction queues; simpl; by constructor. Qed.
Lemma zeros_take queues : concat (zip_with take (zeros queues) queues) = [].
Proof. by induction queues. Qed.
Lemma zeros_drop queues : zip_with drop (zeros queues) queues = queues.
Proof. induction queues as [|q queues IH]; [done|]. simpl. by f_equal. Qed.
Lemma pass_spec queues room :
  exists bs, Forall2 (fun b q => (b <= 1 /\ b <= length q)%nat) bs queues /\
    (pass room queues).1 = concat (zip_with take bs queues) /\ (pass room queues).2 = zip_with drop bs queues /\
    (length (pass room queues).1 <= room)%nat /\
    ((length (pass room queues).1 < room)%nat -> Forall2 (fun b q => b = Nat.min 1 (length q)) bs queues).
Proof.
  revert room. induction queues as [|q queues IH]; intros room; [exists []; destruct room; simpl; split_and!; first [done | lia | constructor]|].
  destruct room as [|room].
  - exists (zeros (q :: queues)). rewrite zeros_take, zeros_drop. cbn [pass fst snd length].
    split_and!; [|done|done|lia|lia]. apply (zeros_all _ (q :: queues)). lia.
  - destruct q as [|x q]; cbn [pass].
    + destruct (IH (S room)) as (bs & Hb & H1 & H2 & H3 & H4). destruct (pass (S room) queues) as [chosen rest]. simpl in *.
      exists (0%nat :: bs). simpl. split_and!; [constructor; [simpl; lia|done]|done|by f_equal|done|].
      intros Hl. constructor; [done|by apply H4].
    + destruct (IH room) as (bs & Hb & H1 & H2 & H3 & H4). destruct (pass room queues) as [chosen rest]. simpl in *.
      exists (1%nat :: bs). simpl. split_and!; [by constructor; [simpl; lia|]|by f_equal|by f_equal|lia|].
      intros Hl. constructor; [done|]. apply H4. lia.
Qed.
Lemma taken_twice ns bs queues :
  Forall2 (fun b q => (b <= length q)%nat) bs queues -> length ns = length queues ->
  concat (zip_with take bs queues) ++ concat (zip_with take ns (zip_with drop bs queues)) ≡ₚ
  concat (zip_with take (zip_with Nat.add bs ns) queues).
Proof.
  intros Hb. revert ns. induction Hb as [|b q bs queues Hbq Hb IH]; intros ns Hl; [by destruct ns|].
  destruct ns as [|n ns]; [done|]. simpl in *. rewrite <- (IH ns) by lia. rewrite <- !app_assoc.
  replace (take (b + n) q) with (take b q ++ take n (drop b q)).
  - rewrite <- !app_assoc. apply Permutation_app_head. rewrite !app_assoc. apply Permutation_app_tail, Permutation_app_comm.
  - by rewrite <- take_take_drop.
Qed.
(** What the passes take: of every queue the first few, as many of one as of another but for
    one more, unless the queue is exhausted. *)
Lemma passes_spec fuel room queues :
  (room <= fuel)%nat ->
  exists ns k, Forall2 (fun n q => (Nat.min k (length q) <= n <= Nat.min (S k) (length q))%nat) ns queues /\
    passes fuel room queues ≡ₚ concat (zip_with take ns queues) /\
    length (passes fuel room queues) = Nat.min room (length (concat queues)).
Proof.
  revert room queues. induction fuel as [|fuel IH]; intros room queues Hf; [|destruct room as [|room]].
  1-2: exists (zeros queues), 0%nat; rewrite zeros_take; split_and!; [apply zeros_all; lia|done|cbn [passes length]; lia].
  cbn [passes]. destruct (pass_spec queues (S room)) as (bs & Hb & H1 & H2 & H3 & H4).
  destruct (pass (S room) queues) as [chosen rest]. simpl in H1, H2, H3, H4.
  destruct chosen as [|x chosen].
  { exists bs, 0%nat. split_and!; [|by rewrite <- H1|].
    - eapply Forall2_impl; [exact Hb|]. intros b q. simpl. destruct (length q); lia.
    - assert (concat queues = []) as ->; [|simpl; lia]. specialize (H4 ltac:(simpl; lia)). clear -H1 H4.
      revert H1. induction H4 as [|b q bs queues -> _ IHq]; [done|]. simpl. intros Hn. symmetry in Hn.
      apply app_eq_nil in Hn as [Hq Hn]. rewrite (IHq (eq_sym Hn)). by destruct q. }
  set (c := x :: chosen) in *. destruct (decide (length c = S room)) as [He|He].
  { exists bs, 0%nat. rewrite He, Nat.sub_diag. assert (passes fuel 0 rest = []) as -> by (by destruct fuel).
    rewrite app_nil_r. split_and!; [|by rewrite <- H1|].
    - eapply Forall2_impl; [exact Hb|]. intros b q. simpl. destruct (length q); lia.
    - rewrite He. assert (length c <= length (concat queues))%nat; [|lia]. rewrite H1. clear.
      revert queues. induction bs as [|b bs IHb]; intros [|q queues]; simpl; [lia..|]. rewrite !length_app, length_take.
      specialize (IHb queues). lia. }
  assert (length c < S room)%nat as Hlt by lia. specialize (H4 Hlt).
  destruct (IH (S room - length c)%nat rest) as (ns & k & Hn & Hp & Hl); [simpl in *; lia|]. subst rest.
  assert (length ns = length queues) as Hlen.
  { apply Forall2_length in Hn. rewrite length_zip_with in Hn. apply Forall2_length in Hb. lia. }
  assert (length (concat queues) = length c + length (concat (zip_with drop bs queues)))%nat as Hcount.
  { rewrite H1. clear -Hb. induction Hb as [|b q bs queues [_ Hbq] _ IHq]; [done|]. simpl. rewrite !length_app, IHq.
    rewrite length_take, length_drop. lia. }
  exists (zip_with Nat.add bs ns), (S k). split_and!.
  - clear -Hn H4 Hlen. revert ns Hn Hlen.
    induction H4 as [|b q bs queues -> _ IHq]; intros ns Hn Hlen; [destruct ns; [constructor|done]|].
    destruct ns as [|n ns]; [done|]. cbn [zip_with length] in *. apply Forall2_cons in Hn as [Hnq Hn]. constructor; [|apply IHq; [done|lia]].
    rewrite length_drop in Hnq. clear -Hnq. destruct (length q); lia.
  - rewrite Hp, H1. apply taken_twice; [|done]. eapply Forall2_impl; [exact Hb|]. simpl. lia.
  - rewrite length_app, Hl, Hcount. lia.
Qed.
End passing.

Lemma insert_by_perm {A} (x : string * A) l : insert_by x l ≡ₚ x :: l.
Proof.
  induction l as [|y l IH]; [done|]. cbn [insert_by]. destruct (str_ltb y.1 x.1); [|done]. rewrite IH. by apply perm_swap.
Qed.
Lemma sort_by_perm {A} (l : list (string * A)) : sort_by l ≡ₚ map snd l.
Proof.
  unfold sort_by. apply Permutation_map. induction l as [|x l IH]; [done|]. simpl. by rewrite insert_by_perm, IH.
Qed.
Lemma uniq_spec {A} `{EqDecision A} (l : list A) : NoDup (uniq l) /\ forall x, x ∈ uniq l <-> x ∈ l.
Proof.
  unfold uniq. assert (forall seen, NoDup seen ->
    let r := foldl (fun seen x => if bool_decide (x ∈ seen) then seen else x :: seen) seen l in
    NoDup r /\ forall x, x ∈ r <-> x ∈ seen \/ x ∈ l) as Hf.
  { induction l as [|y l IH]; intros seen Hs; simpl; [split; [done|]; set_solver|]. case_bool_decide as Hy.
    - destruct (IH seen Hs) as [Hn Hx]. split; [done|]. set_solver.
    - destruct (IH (y :: seen)) as [Hn Hx]; [by constructor|]. split; [done|]. set_solver. }
  destruct (Hf [] ltac:(constructor)) as [Hn Hx]. split; [by rewrite <- Permutation_rev|]. intros x.
  rewrite <- Permutation_rev, Hx. set_solver.
Qed.

Section choice.
Context {F : Type} `{PyFloat F}.
Variable timestamp_of : string -> option F.
Abbreviation picked := (picked (F := F)).
Abbreviation session := (session (F := F)).
Implicit Types (l : list picked) (s : list string).

(** *** Strata and queues *)

Lemma of_stratum_app s l l' : of_stratum s (l ++ l') = of_stratum s l ++ of_stratum s l'.
Proof. apply List.filter_app. Qed.
Lemma of_stratum_perm s l l' : l ≡ₚ l' -> of_stratum s l ≡ₚ of_stratum s l'.
Proof.
  unfold of_stratum. induction 1 as [|x l l' _ IH|x y l|]; simpl; [done| | |by etrans].
  - destruct (bool_decide _); by rewrite IH.
  - destruct (bool_decide (pk_stratum y = s)), (bool_decide (pk_stratum x = s)); try done. apply perm_swap.
Qed.
Lemma elem_of_stratum s l p : p ∈ of_stratum s l <-> p ∈ l /\ pk_stratum p = s.
Proof. unfold of_stratum. rewrite !list_elem_of_In, filter_In. by rewrite bool_decide_eq_true. Qed.
Lemma of_own_stratum s l : Forall (fun p => pk_stratum p = s) l -> of_stratum s l = l.
Proof.
  unfold of_stratum. induction 1 as [|p l Hp _ IH]; [done|]. simpl. rewrite bool_decide_true by done. by f_equal.
Qed.
Lemma of_other_stratum s l : Forall (fun p => pk_stratum p <> s) l -> of_stratum s l = [].
Proof.
  unfold of_stratum. induction 1 as [|p l Hp _ IH]; [done|]. simpl. by rewrite bool_decide_false.
Qed.
Lemma strata_split (strata : list (list string)) l :
  NoDup strata -> (forall p, p ∈ l -> pk_stratum p ∈ strata) -> concat (map (fun s => of_stratum s l) strata) ≡ₚ l.
Proof. apply (partition_by_key pk_stratum). Qed.
Lemma by_content_perm l : by_content l ≡ₚ l.
Proof. unfold by_content. rewrite sort_by_perm, map_map. by rewrite map_id. Qed.
Lemma strata_of_spec l : NoDup (strata_of l) /\ forall s, s ∈ strata_of l <-> exists p, p ∈ l /\ pk_stratum p = s.
Proof.
  destruct (uniq_spec (map pk_stratum l)) as [Hn Hx]. unfold strata_of.
  assert (sort_by (map (fun s => (stratum_key (F := F) s, s)) (uniq (map pk_stratum l))) ≡ₚ uniq (map pk_stratum l)) as Hp.
  { rewrite sort_by_perm, map_map. by rewrite map_id. }
  split; [by rewrite Hp|]. intros s. rewrite Hp, Hx, list_elem_of_fmap. naive_solver.
Qed.
Lemma queues_hold_all l : concat (queues_of l) ≡ₚ l.
Proof.
  destruct (strata_of_spec l) as [Hn Hx]. rewrite <- (strata_split (strata_of l) l Hn) at 2.
  2: { intros p Hp. apply Hx. by exists p. }
  unfold queues_of. generalize (strata_of l). intros strata. induction strata as [|s strata IH]; [done|].
  cbn [map concat]. by rewrite IH, by_content_perm.
Qed.
(** What is taken of a queue is what is chosen of its stratum. *)
Lemma chosen_of_stratum (q : list string -> list picked) strata ns i s n :
  NoDup strata -> length ns = length strata -> (forall s, Forall (fun p => pk_stratum p = s) (q s)) ->
  strata !! i = Some s -> ns !! i = Some n -> of_stratum s (concat (zip_with take ns (map q strata))) = take n (q s).
Proof.
  intros Hn Hl Hq. revert ns i Hl. induction Hn as [|s0 strata Hs0 Hn IH]; intros ns i Hl Hi Hni; [done|].
  destruct ns as [|n0 ns]; [done|]. cbn [map zip_with concat]. rewrite of_stratum_app. destruct i as [|i]; simpl in Hi, Hni.
  - injection Hi as ->. injection Hni as ->. rewrite of_own_stratum by (apply Forall_take, Hq).
    rewrite of_other_stratum; [apply app_nil_r|]. apply Forall_concat. clear -Hs0 Hq. revert ns.
    induction strata as [|s' strata IH]; intros [|n' ns]; simpl; try constructor.
    + apply not_elem_of_cons in Hs0 as [Hne _]. apply Forall_take. eapply Forall_impl; [apply Hq|]. simpl. congruence.
    + apply IH. by apply not_elem_of_cons in Hs0 as [_ Hs0].
  - rewrite of_other_stratum; [by apply (IH ns i); [simpl in Hl; lia|..]|]. apply Forall_take.
    eapply Forall_impl; [apply Hq|]. simpl. intros p Hp Hps. apply Hs0. rewrite <- Hp, Hps. by apply list_elem_of_lookup_2 in Hi.
Qed.

(** *** The theorem *)

Lemma passes_are_even l count :
  let chosen := passes count count (queues_of l) in
  exists rest, l ≡ₚ chosen ++ rest /\ length chosen = Nat.min count (length l) /\
    forall p s, p ∈ rest -> (length (of_stratum s chosen) <= S (length (of_stratum (pk_stratum p) chosen)))%nat.
Proof.
  cbv zeta. destruct (passes_spec count count (queues_of l)) as (ns & k & Hn & Hp & Hl); [lia|].
  set (chosen := passes count count (queues_of l)) in *. rewrite (queues_hold_all l) in Hl.
  assert (length ns = length (strata_of l)) as Hlen by (apply Forall2_length in Hn; unfold queues_of in Hn; by rewrite length_map in Hn).
  destruct (strata_of_spec l) as [Hnd Hx].
  assert (forall s, Forall (fun p => pk_stratum p = s) (by_content (of_stratum s l))) as Hq.
  { intros s. apply Forall_forall. intros p. rewrite by_content_perm, elem_of_stratum. by intros [_ Hs]. }
  assert (concat (zip_with take ns (queues_of l)) ++ concat (zip_with drop ns (queues_of l)) ≡ₚ l) as Hrest.
  { etrans; [|apply queues_hold_all]. clear -Hn. induction Hn as [|n q ns queues _ _ IH]; [done|]. simpl. rewrite <- IH.
    replace q with (take n q ++ drop n q) at 3 by apply take_drop. rewrite <- !app_assoc. apply Permutation_app_head. rewrite !app_assoc.
    apply Permutation_app_tail, Permutation_app_comm. }
  exists (concat (zip_with drop ns (queues_of l))). split; [by rewrite Hp, Hrest|]. split; [exact Hl|].
  assert (forall i s n, strata_of l !! i = Some s -> ns !! i = Some n ->
    length (of_stratum s chosen) = n /\ (Nat.min k (length (of_stratum s l)) <= n <= Nat.min (S k) (length (of_stratum s l)))%nat) as Hcount.
  { intros i s n Hi Hni. assert (queues_of l !! i = Some (by_content (of_stratum s l))) as Hqi.
    { unfold queues_of. rewrite list_lookup_fmap, Hi. done. }
    pose proof (Forall2_lookup_lr _ _ _ _ _ _ Hn Hni Hqi) as Hb. cbv beta in Hb. rewrite (by_content_perm (of_stratum s l)) in Hb.
    split; [|exact Hb]. rewrite (of_stratum_perm s _ _ Hp). unfold queues_of.
    rewrite (chosen_of_stratum (fun s => by_content (of_stratum s l)) (strata_of l) ns i s n) by done.
    rewrite length_take, (by_content_perm (of_stratum s l)). lia. }
  intros p s Hin. assert (p ∈ l) as Hpl by (rewrite <- Hrest, elem_of_app; by right).
  assert (exists i, strata_of l !! i = Some (pk_stratum p)) as [i Hi].
  { apply list_elem_of_lookup_1, Hx. by exists p. }
  destruct (lookup_lt_is_Some_2 ns i) as [n Hni]; [rewrite Hlen; by eapply lookup_lt_Some|].
  destruct (Hcount i _ n Hi Hni) as [Hc1 Hb1].
  assert (length (of_stratum (pk_stratum p) chosen) < length (of_stratum (pk_stratum p) l))%nat as Hlt.
  { rewrite <- (of_stratum_perm _ _ _ Hrest), of_stratum_app, length_app, <- (of_stratum_perm _ _ _ Hp).
    assert (p ∈ of_stratum (pk_stratum p) (concat (zip_with drop ns (queues_of l)))) as Hps by by apply elem_of_stratum.
    destruct (of_stratum _ (concat (zip_with drop _ _))); [by apply not_elem_of_nil in Hps|]. simpl. lia. }
  destruct (decide (s ∈ strata_of l)) as [Hs|Hs].
  - apply list_elem_of_lookup_1 in Hs as [j Hj]. destruct (lookup_lt_is_Some_2 ns j) as [m Hm]; [rewrite Hlen; by eapply lookup_lt_Some|].
    destruct (Hcount j s m Hj Hm) as [Hc2 Hb2]. lia.
  - assert (of_stratum s chosen = []) as ->; [|simpl; lia]. apply of_other_stratum, Forall_forall. intros x Hxc Hxs.
    apply Hs, Hx. exists x. split; [|done]. rewrite <- Hrest, <- Hp, elem_of_app. by left.
Qed.
Lemma annotate_all_length (rows : list session) all : annotate_all timestamp_of rows = Ok all -> length all = length rows.
Proof.
  unfold annotate_all. destruct (mapM_ok _ rows) as [starts|e]; [|done]. simpl.
  destruct (quartiles (map _ rows)) as [lc|e]; [|done]. simpl. destruct (quartiles starts) as [tc|e]; [|done]. simpl.
  apply mapM_ok_length.
Qed.

(** C39: from more rows than are wanted, the choice takes as many as are wanted, each of them
    once, and never reports that there were too few; and it is even: a row stays behind only
    when no other stratum has more than one row more among the chosen than its own has. *)
Theorem choice_is_even (rows : list session) count all :
  0 <= count < Z.of_nat (length rows) -> annotate_all timestamp_of rows = Ok all ->
  exists chosen rest, stratified_pick timestamp_of rows count = Ok chosen /\
    all ≡ₚ chosen ++ rest /\ Z.of_nat (length chosen) = count /\
    forall p s, p ∈ rest -> (length (of_stratum s chosen) <= S (length (of_stratum (pk_stratum p) chosen)))%nat.
Proof.
  intros Hc Hall. destruct (passes_are_even all (Z.to_nat count)) as (rest & Hp & Hl & He).
  apply annotate_all_length in Hall as Hn. eexists _, rest. split; [|split; [exact Hp|split; [|exact He]]]; [|lia].
  unfold stratified_pick. destruct (Z.leb_spec (Z.of_nat (length rows)) count); [lia|]. rewrite Hall. simpl.
  destruct (Z.eqb_spec (Z.of_nat (length (passes (Z.to_nat count) (Z.to_nat count) (queues_of all)))) count) as [E|E]; [done|lia].
Qed.
End choice.

(** *** Six sessions, four of them of one stratum *)

Definition demo_session (id : Z) (tool hash : string) : session (F := spec_float) := {|
  se_id := id; se_content_hash := Some hash; se_tool := Some tool; se_project_path := None; se_host_id := None;
  se_started_at := NoTime; se_ended_at := NoTime; se_title := Some "t"%string; se_summary := Some "s"%string;
  se_source_path := None; se_meta := JNull; se_transcript_chars := 10; se_first_user := None; se_last_assistant := None |}.
Definition demo_sessions : list session :=
  [demo_session 1 "codex" "a"; demo_session 2 "codex" "b"; demo_session 3 "codex" "c"; demo_session 4 "codex" "d";
   demo_session 5 "claude" "e"; demo_session 6 "claude" "f"].
Definition demo_all : list picked :=
  match annotate_all (fun _ => None) demo_sessions with Ok l => l | Raise _ => [] end.
Lemma choice_is_even_witness :
  match stratified_pick (fun _ => None) demo_sessions 4 with
  | Ok chosen => Z.of_nat (length chosen) = 4
  | Raise _ => False
  end.
Proof.
  destruct (choice_is_even (fun _ => None) demo_sessions 4 demo_all) as (chosen & rest & -> & _ & Hl & _);
    [vm_compute; split; [discriminate|reflexivity]|vm_compute; reflexivity|exact Hl].
Defined.
Example two_of_each_tool :
  (l ← stratified_pick (fun _ => None) demo_sessions 4; Ok (map tool_of (map pk_session l))) =
  Ok ["claude"; "codex"; "claude"; "codex"]%string.
Proof. vm_compute. reflexivity. Qed.
