(* ===== verification/Compare.v ===== *)
(** * Frontier canary: comparing candidates

    hindsight-frontier-canary/compare.py: what a ledger cost, whether a candidate beats the
    control, and which model is selected. *)

From stdpp Require Import base option list strings.
From Stdlib Require Import ZArith Lia Ascii Qcanon.
From S2P Require Import Prelude PyStr PyFloat Json Effects Canary CanaryGate Eval EvalCollect.

Local Open Scope Z_scope.
Local Open Scope py_scope.

Section compare.
Context {F : Type} `{PyFloat F}.
Abbreviation row := (odict (json F)).
Abbreviation prog := (@prog (@canary_effect F)).

(** ** Ledgers *)

Definition calls_of (ledger : json F) : result (list row) :=
  d ← obj ledger;
  calls ← (if otruthy (dget "calls" d) then py_list (get_or_null "calls" d) else Ok []);
  mapM_ok obj calls.
Definition float_of_or0 (k : string) (d : row) : result F :=
  json_float (if otruthy (dget k d) then get_or_null k d else JInt 0).
Definition sum_ints (k : string) (calls : list row) : result Z :=
  l ← mapM_ok (int_or0 k) calls; Ok (foldr Z.add 0 l).
Definition summary_of (synthetic : bool) (ledger : json F) : result (json F) :=
  calls ← calls_of ledger;
  input_tokens ← sum_ints "input_tokens" calls;
  output_tokens ← sum_ints "output_tokens" calls;
  costs ← mapM_ok (float_of_or0 "cost_usd") calls;
  Ok (JObj [("calls", JInt (Z.of_nat (length calls))); ("input_tokens", JInt input_tokens);
            ("output_tokens", JInt output_tokens); ("total_tokens", JInt (input_tokens + output_tokens));
            ("metered_units", match costs with [] => JInt 0 | _ => JFloat (f_sum costs) end);
            ("metering", JStr (if synthetic then "synthetic_$1_per_million_tokens_usage_gate"
                               else "official_xai_list_price_usd"))]%string).
Definition read_json (path : string) : prog (json F) :=
  j ← ask (ReadJson path);
  match j with Some j => mret j | None => raise (OtherError "FileNotFoundError" path) end.
Definition ledger_summary (path : string) (synthetic : bool) : prog (json F) :=
  ledger ← read_json path; PRet (summary_of synthetic ledger).

(** ** Candidates *)

Definition tiny : F := f_lit 1 (-9).
Definition delta (route control : json F) (field : string) : result (string * F) :=
  x ← float_at field route; y ← float_at field control; Ok (field, f_sub x y).
Definition delta_fields : list string := ["overall_correctness"; "exact_correctness"; "temporal_cross_correctness"]%string.
Definition at_delta (k : string) (deltas : odict F) : F := default (f_of_Z 0) (dget k deltas).
Definition no_regression (route : json F) (deltas : odict F) : result bool :=
  and_then (Ok (f_leb (f_opp tiny) (at_delta "overall_correctness" deltas) &&
                f_leb (f_opp tiny) (at_delta "exact_correctness" deltas)))
  (and_then (n ← int_at "unsupported_answers" route; Ok (n =? 0))
            (x ← float_at "provenance_completeness" route; Ok (f_eqb x (f_of_Z 1)))).
Definition meaningful_gain (route control : json F) (deltas : odict F) : result bool :=
  or_else (Ok (f_leb (f_sub (f_lit 5 (-2)) tiny) (at_delta "overall_correctness" deltas)))
    (n ← int_at "critical_misses" route; m ← int_at "critical_misses" control; Ok (n <? m)).
Definition candidate (name : string) (score baseline : json F) : result row :=
  route ← sub "hybrid" score;
  control ← sub "hybrid" baseline;
  deltas ← mapM_ok (delta route control) delta_fields;
  kept ← no_regression route deltas;
  gained ← meaningful_gain route control deltas;
  n ← int_at "critical_misses" route;
  m ← int_at "critical_misses" control;
  Ok [("model", JStr name); ("qualified", JBool (kept && gained)); ("no_regression", JBool kept);
      ("meaningful_gain", JBool gained);
      ("deltas_vs_120b", JObj (map (fun kv => (kv.1, JFloat kv.2)) (deltas : odict F)));
      ("critical_miss_delta", JInt (n - m)); ("routes", score)]%string.
Definition disqualified_candidate (name : string) (details : json F) : row :=
  [("model", JStr name); ("qualified", JBool false); ("no_regression", JNull); ("meaningful_gain", JNull);
   ("disqualified", JBool true); ("disqualification", details); ("routes", JNull)]%string.

(** ** Ranking *)

(** A tuple of numbers, and its order *)
Definition tuple : Type := list (Z + F).
Definition of_bool (b : bool) : Z + F := inl (if b then 1 else 0).
Definition minus_infinity : F := f_of_lit (NumInf true).
Fixpoint tuple_gtb (a b : tuple) : bool :=
  match a, b with
  | x :: a, y :: b => if num_eqb x y then tuple_gtb a b else num_ltb y x
  | _ :: _, [] => true
  | [], _ => false
  end.
Definition rank (value : row) : result tuple :=
  match get_or_null "routes" value with
  | JNull => Ok (of_bool false :: replicate 5 (inr minus_infinity))
  | routes =>
      route ← sub "hybrid" routes;
      qualified ← item "qualified" value;
      overall ← float_at "overall_correctness" route;
      exact ← float_at "exact_correctness" route;
      temporal ← float_at "temporal_cross_correctness" route;
      misses ← int_at "critical_misses" route;
      chars ← float_at "mean_context_chars" route;
      Ok [of_bool (truthy qualified); inr overall; inr exact; inr temporal; inl (- misses); inr (f_opp chars)]
  end.
(** [max(l, key=...)]: the first of the greatest *)
Definition best_of (first : tuple * row) (l : list (tuple * row)) : tuple * row :=
  foldl (fun best c => if tuple_gtb c.1 best.1 then c else best) first l.
Definition keyed (value : row) : result (tuple * row) := k ← rank value; Ok (k, value).

(** ** The comparison; [JNull] stands for [None] *)

Definition is_none (j : json F) : bool := match j with JNull => true | _ => false end.
Definition or_empty (j : json F) : json F := if truthy j then j else JObj [].
Definition candidates_of (baseline grok fugu fugu_out ultra_out : json F) : result (odict row) :=
  raise! ValueError "provide exactly one of fugu score or fugu disqualification"
    when Bool.eqb (is_none fugu) (is_none fugu_out);
  first ← candidate "grok-4.5" grok baseline;
  second ← (if is_none fugu then Ok (disqualified_candidate "fugu" (or_empty fugu_out)) else candidate "fugu" fugu baseline);
  let kept : odict row := [("grok-4.5", first); ("fugu", second)]%string in
  let extra : odict row := if is_none ultra_out then [] else [("fugu-ultra", disqualified_candidate "fugu-ultra" ultra_out)]%string in
  Ok (kept ++ extra).
Definition CONTROL : string := "gpt-oss-120b".
Definition selected (candidates : odict row) : result (json F) :=
  ranked ← mapM_ok keyed (dvalues candidates);
  match ranked with
  | [] => Raise (ValueError "max() iterable argument is empty")
  | first :: rest =>
      let best := (best_of first rest).2 in
      qualified ← item "qualified" best;
      if truthy qualified then item "model" best else Ok (JStr CONTROL)
  end.
Definition gate_json : json F :=
  JObj [("required_overall_gain", JFloat (f_lit 5 (-2))); ("alternative", JStr "fewer critical misses");
        ("requires_no_overall_or_exact_regression", JBool true); ("requires_full_provenance", JBool true);
        ("requires_zero_unsupported_answers", JBool true)]%string.
Definition compare (baseline grok fugu grok_ledger fugu_ledger fugu_out ultra_out ultra_ledger : json F) : result row :=
  candidates ← candidates_of baseline grok fugu fugu_out ultra_out;
  model ← selected candidates;
  let usage : odict (json F) := [("grok-4.5", grok_ledger); ("fugu", fugu_ledger)]%string in
  let extra : odict (json F) := if is_none ultra_out then [] else [("fugu-ultra", or_empty ultra_ledger)]%string in
  Ok [("selected_model", model); ("upgrade_from_120b", JBool (negb (eq_str CONTROL model))); ("gate", gate_json);
      ("baseline_120b", baseline); ("candidates", JObj (map (fun kv => (kv.1, JObj kv.2)) candidates));
      ("usage", JObj (usage ++ extra)%list)]%string.

(** ** The program *)

Record compare_args := {
  ca_baseline : string;
  ca_grok : string;
  ca_fugu : option string;
  ca_fugu_disqualification : option string;
  ca_grok_ledger : string;
  ca_fugu_ledger : string;
  ca_ultra_disqualification : option string;
  ca_ultra_ledger : option string;
  ca_output : string;
}.
(** [f(path) if path else None] *)
Definition if_path (path : option string) (f : string -> prog (json F)) : prog (json F) :=
  match path with
  | Some path => if bool_decide (path = EmptyString) then mret JNull else f path
  | None => mret JNull
  end.
Definition main (a : compare_args) : prog row :=
  baseline ← read_json (ca_baseline a);
  grok ← read_json (ca_grok a);
  fugu ← if_path (ca_fugu a) read_json;
  grok_ledger ← ledger_summary (ca_grok_ledger a) false;
  fugu_ledger ← ledger_summary (ca_fugu_ledger a) true;
  fugu_out ← if_path (ca_fugu_disqualification a) read_json;
  ultra_out ← if_path (ca_ultra_disqualification a) read_json;
  ultra_ledger ← if_path (ca_ultra_ledger a) (fun path => ledger_summary path true);
  r ← PRet (compare baseline grok fugu grok_ledger fugu_ledger fugu_out ultra_out ultra_ledger);
  ask (WriteJson (ca_output a) (JObj r));;
  mret r.
End compare.

(** ** Frontier canary comparison: theorems

    The selected model: a candidate that passes the gate, the best of those by overall
    correctness; the control when there is none. *)

Section facts.
Context {F : Type} `{ExactFloat F}.
Abbreviation row := (odict (json F)).

(** ** The gate, in numbers *)

(** The candidate's hybrid route loses nothing against the control's, answers nothing without
    support, and gains five points or misses less *)
Definition qualifies (score baseline : json F) : Prop :=
  exists route control (overall overall' exact exact' provenance : F) (misses misses' : Z),
    sub "hybrid" score = Ok route /\ sub "hybrid" baseline = Ok control /\
    float_at "overall_correctness" route = Ok overall /\ float_at "overall_correctness" control = Ok overall' /\
    float_at "exact_correctness" route = Ok exact /\ float_at "exact_correctness" control = Ok exact' /\
    int_at "unsupported_answers" route = Ok 0 /\
    float_at "provenance_completeness" route = Ok provenance /\ f_eqb provenance (f_of_Z 1) = true /\
    int_at "critical_misses" route = Ok misses /\ int_at "critical_misses" control = Ok misses' /\
    f_leb (f_opp tiny) (f_sub overall overall') = true /\ f_leb (f_opp tiny) (f_sub exact exact') = true /\
    (f_leb (f_sub (f_lit 5 (-2)) tiny) (f_sub overall overall') = true \/ misses < misses').
Definition overall_of (score : json F) : result F := route ← sub "hybrid" score; float_at "overall_correctness" route.

Lemma deltas_at route control deltas :
  mapM_ok (delta route control) delta_fields = Ok deltas ->
  exists o o' e e', float_at "overall_correctness" route = Ok o /\ float_at "overall_correctness" control = Ok o' /\
    float_at "exact_correctness" route = Ok e /\ float_at "exact_correctness" control = Ok e' /\
    at_delta "overall_correctness" deltas = f_sub o o' /\ at_delta "exact_correctness" deltas = f_sub e e'.
Proof.
  unfold delta_fields, delta. cbn [mapM_ok].
  intros (x & (o & Ho & (o' & Ho' & [= <-])%bind_Ok)%bind_Ok & (l & (y & (e & He & (e' & He' & [= <-])%bind_Ok)%bind_Ok &
    (l' & _ & [= <-])%bind_Ok)%bind_Ok & [= <-])%bind_Ok)%bind_Ok.
  by exists o, o', e, e'.
Qed.
Lemma no_regression_true route deltas b :
  no_regression route deltas = Ok b ->
  b = true <-> f_leb (f_opp tiny) (at_delta "overall_correctness" deltas) = true /\
    f_leb (f_opp tiny) (at_delta "exact_correctness" deltas) = true /\
    int_at "unsupported_answers" route = Ok 0 /\
    exists p : F, float_at "provenance_completeness" route = Ok p /\ f_eqb p (f_of_Z 1) = true.
Proof.
  unfold no_regression, and_then. simpl.
  destruct (f_leb _ (at_delta "overall_correctness" deltas)), (f_leb _ (at_delta "exact_correctness" deltas)); simpl; try by intros [= <-]; naive_solver.
  intros (c & (n & Hn & [= <-])%bind_Ok & Hb)%bind_Ok. rewrite Hn. destruct (n =? 0) eqn:E.
  - apply Z.eqb_eq in E as ->. apply bind_Ok in Hb as (p & Hp & [= <-]). rewrite Hp. naive_solver.
  - apply Z.eqb_neq in E. injection Hb as <-. naive_solver.
Qed.
Lemma meaningful_gain_true route control deltas b n m :
  meaningful_gain route control deltas = Ok b ->
  int_at "critical_misses" route = Ok n -> int_at "critical_misses" control = Ok m ->
  b = true <-> f_leb (f_sub (f_lit 5 (-2)) tiny) (at_delta "overall_correctness" deltas) = true \/ n < m.
Proof.
  unfold meaningful_gain, or_else. simpl. intros Hb Hn Hm. destruct (f_leb _ _); [injection Hb as <-; naive_solver|].
  rewrite Hn in Hb. simpl in Hb. rewrite Hm in Hb. injection Hb as <-. rewrite Z.ltb_lt. naive_solver.
Qed.
Lemma candidate_spec name score baseline c :
  candidate name score baseline = Ok c ->
  exists b o, dget "model" c = Some (JStr name) /\ dget "qualified" c = Some (JBool b) /\
    dget "routes" c = Some score /\ overall_of score = Ok o /\ (b = true <-> qualifies score baseline).
Proof.
  unfold candidate. intros (route & Hr & (control & Hc & (deltas & Hd & (kept & Hk & (gained & Hg & (n & Hn & (m & Hm & [= <-])%bind_Ok)%bind_Ok)%bind_Ok)%bind_Ok)%bind_Ok)%bind_Ok)%bind_Ok.
  destruct (deltas_at _ _ _ Hd) as (o & o' & e & e' & Ho & Ho' & He & He' & Hdo & Hde).
  exists (kept && gained), o. do 3 (split; [done|]). unfold overall_of. rewrite Hr. split; [exact Ho|].
  rewrite andb_true_iff, (no_regression_true _ _ _ Hk), (meaningful_gain_true _ _ _ _ _ _ Hg Hn Hm), Hdo, Hde.
  split.
  - intros ((Ha & Hb & Hu & p & Hp & Hp1) & Hgain). by exists route, control, o, o', e, e', p, n, m.
  - intros (route' & control' & x & x' & y & y' & p & n' & m' & Hr' & Hc' & Hx & Hx' & Hy & Hy' & Hu & Hp & Hp1 & Hn' & Hm' & Ha & Hb & Hgain).
    rewrite Hr in Hr'. injection Hr' as <-. rewrite Hc in Hc'. injection Hc' as <-.
    rewrite Ho in Hx. injection Hx as <-. rewrite Ho' in Hx'. injection Hx' as <-. rewrite He in Hy. injection Hy as <-.
    rewrite He' in Hy'. injection Hy' as <-. rewrite Hn in Hn'. injection Hn' as <-. rewrite Hm in Hm'. injection Hm' as <-.
    split; [|exact Hgain]. split; [exact Ha|]. split; [exact Hb|]. split; [exact Hu|]. by exists p.
Qed.

(** ** The order of the ranks *)

(** What decides first: the gate, then the overall correctness *)
Definition head_le (a b : tuple (F := F)) : Prop :=
  exists i j (x y : F) s t, a = inl i :: inr x :: s /\ b = inl j :: inr y :: t /\ (i < j \/ i = j /\ f_leb x y = true).
Definition headed (a : tuple (F := F)) : Prop := exists i (x : F) s, a = inl i :: inr x :: s.
Lemma head_refl a : headed a -> head_le a a.
Proof. intros (i & x & s & ->). exists i, i, x, x, s, s. split_and!; [done..|]. right. split; [done|apply fleb_refl]. Qed.
Lemma head_trans a b c : head_le a b -> head_le b c -> head_le a c.
Proof.
  intros (i & j & x & y & s & t & -> & -> & Hab) (j' & k & y' & z & t' & u & [= <- <- <-] & -> & Hbc).
  exists i, k, x, z, s, u. split_and!; [done..|].
  destruct Hab as [?|[-> Hx]], Hbc as [?|[-> Hy]]; [left; lia..|]. right. split; [done|]. by eapply fleb_trans.
Qed.
Lemma gtb_head a b : headed a -> headed b -> if tuple_gtb a b then head_le b a else head_le a b.
Proof.
  intros (i & x & s & ->) (j & y & t & ->). cbn [tuple_gtb num_eqb num_ltb].
  destruct (i =? j) eqn:E.
  - apply Z.eqb_eq in E as ->. destruct (f_eqb x y) eqn:Exy.
    + apply feqb_true in Exy as ->. destruct (tuple_gtb s t); repeat eexists; right; split; done || apply fleb_refl.
    + destruct (f_ltb y x) eqn:El; repeat eexists; right; (split; [done|]).
      * by apply fltb_true_leb.
      * by apply fltb_false_leb.
  - apply Z.eqb_neq in E. destruct (j <? i) eqn:El; repeat eexists; left; [apply Z.ltb_lt in El|apply Z.ltb_ge in El]; lia.
Qed.
Lemma best_of_greatest l first :
  headed first.1 -> Forall (fun c => headed c.1) l ->
  best_of first l ∈ first :: l /\ Forall (fun c => head_le c.1 (best_of first l).1) (first :: l).
Proof.
  revert first. induction l as [|c l IH]; intros first Hf Hl.
  - split; [apply list_elem_of_here|]. constructor; [by apply head_refl|constructor].
  - apply Forall_cons in Hl as [Hc Hl]. pose proof (gtb_head _ _ Hc Hf) as Hg. unfold best_of in *. cbn [foldl].
    destruct (tuple_gtb c.1 first.1).
    + destruct (IH c Hc Hl) as [Hin Hmax]. split; [by apply list_elem_of_further|]. constructor; [|done].
      apply Forall_cons in Hmax as [Hm _]. by eapply head_trans.
    + destruct (IH first Hf Hl) as [Hin Hmax]. split; [apply elem_of_cons; apply elem_of_cons in Hin as [Hin|Hin]; [left; exact Hin|right; by apply list_elem_of_further]|]. apply Forall_cons in Hmax as [Hm Hmax].
      constructor; [done|]. constructor; [by eapply head_trans|done].
Qed.

(** ** The candidates *)

(** A candidate that was scored, or one that was stopped before *)
Inductive entry (scored : odict (json F)) (baseline : json F) (c : row) : Prop :=
  | scored_entry name score b o : (name, score) ∈ scored ->
      dget "model" c = Some (JStr name) -> dget "qualified" c = Some (JBool b) -> dget "routes" c = Some score ->
      overall_of score = Ok o -> (b = true <-> qualifies score baseline) -> entry scored baseline c
  | stopped_entry name : dget "model" c = Some (JStr name) -> dget "qualified" c = Some (JBool false) ->
      dget "routes" c = Some JNull -> entry scored baseline c.
Lemma rank_entry scored baseline c k :
  entry scored baseline c -> rank c = Ok k ->
  exists b o s, dget "qualified" c = Some (JBool b) /\ k = of_bool b :: inr o :: s /\
    forall score o', dget "routes" c = Some score -> overall_of score = Ok o' -> o = o'.
Proof.
  intros [name score b o Hin Hm Hq Hr Ho Hb|name Hm Hq Hr]; unfold rank, get_or_null; rewrite Hr.
  - destruct score as [| | | | | |d]; try done. cbv [default id]. cbn iota. unfold item.
    pose proof Ho as (route & Hsub & Ho')%bind_Ok. rewrite Hsub, Hq. cbn. rewrite Ho'. cbn.
    intros (? & ? & (? & ? & (? & ? & (? & ? & [= <-])%bind_Ok)%bind_Ok)%bind_Ok)%bind_Ok.
    eexists b, o, _. split; [done|]. split; [done|]. intros ? o' [= <-] Ho2. rewrite Ho in Ho2. by injection Ho2.
  - cbn. intros [= <-]. eexists false, _, _. split; [done|]. split; [done|]. by intros ? ? [= <-].
Qed.
Definition scored_of (grok fugu : json F) : odict (json F) :=
  ("grok-4.5", grok)%string :: (if is_none fugu then [] else [("fugu", fugu)%string]).
Lemma candidates_are_entries baseline grok fugu fugu_out ultra_out l :
  candidates_of baseline grok fugu fugu_out ultra_out = Ok l ->
  Forall (entry (scored_of grok fugu) baseline) (dvalues l) /\
  forall name score, (name, score) ∈ scored_of grok fugu -> exists c, c ∈ dvalues l /\ candidate name score baseline = Ok c.
Proof.
  unfold candidates_of. intros (_ & _ & (first & Hf & (second & Hs & [= <-])%bind_Ok)%bind_Ok)%bind_Ok.
  assert (forall name score c, (name, score) ∈ scored_of grok fugu -> candidate name score baseline = Ok c ->
    entry (scored_of grok fugu) baseline c) as Hc.
  { intros name score c Hin (b & o & Hm & Hq & Hr & Ho & Hb)%candidate_spec. by eapply scored_entry. }
  match goal with |- context [dvalues (_ :: _ :: ?x)] =>
    change (dvalues (_ :: _ :: x)) with (first :: second :: dvalues x) end. split.
  - constructor; [eapply Hc; [apply list_elem_of_here|exact Hf]|].
    constructor; [|destruct (is_none ultra_out); repeat constructor; by eapply stopped_entry].
    unfold scored_of in *. destruct (is_none fugu).
    + injection Hs as <-. by eapply stopped_entry.
    + eapply Hc; [apply list_elem_of_further, list_elem_of_here|exact Hs].
  - intros name score Hin. unfold scored_of in Hin. apply elem_of_cons in Hin as [[= -> ->]|Hin].
    + exists first. split; [apply list_elem_of_here|exact Hf].
    + destruct (is_none fugu); [by apply not_elem_of_nil in Hin|]. apply elem_of_cons in Hin as [[= -> ->]|Hin]; [|by apply not_elem_of_nil in Hin].
      exists second. split; [apply list_elem_of_further, list_elem_of_here|exact Hs].
Qed.
Lemma mapM_keyed l ranked :
  mapM_ok keyed l = Ok ranked -> map snd ranked = l /\ Forall (fun c : tuple (F := F) * row => rank c.2 = Ok c.1) ranked.
Proof.
  revert ranked. induction l as [|x l IH]; intros ranked; cbn [mapM_ok]; [by intros [= <-]|].
  unfold keyed at 1. intros (y & (k & Hk & [= <-])%bind_Ok & (ys & Hys & [= <-])%bind_Ok)%bind_Ok.
  destruct (IH _ Hys) as [Hmap Hall]. split; [cbn; by rewrite Hmap|by constructor].
Qed.

(** C38: The candidates that were scored: the Grok one always, the Fugu one unless it was stopped.
    The control stays selected exactly when none of them passes the gate, and otherwise the
    selected model passes it and none that passes answers more questions correctly. *)
Theorem selected_model_is_the_best_qualified baseline grok fugu grok_ledger fugu_ledger fugu_out ultra_out ultra_ledger r :
  compare baseline grok fugu grok_ledger fugu_ledger fugu_out ultra_out ultra_ledger = Ok r ->
  let qualified name score := (name, score) ∈ scored_of grok fugu /\ qualifies score baseline in
  (dget "selected_model" r = Some (JStr CONTROL) /\ forall name score, ~ qualified name score) \/
  (exists name score o, dget "selected_model" r = Some (JStr name) /\ qualified name score /\ overall_of score = Ok o /\
     forall name' score' o', qualified name' score' -> overall_of score' = Ok o' -> f_leb o' o = true).
Proof.
  intros Hc qualified. unfold compare in Hc. apply bind_Ok in Hc as (cands & Hcands & Hc). apply bind_Ok in Hc as (model & Hsel & Heq).
  cbv zeta in Heq. injection Heq as <-.
  destruct (candidates_are_entries _ _ _ _ _ _ Hcands) as [Hall Hex].
  change (dget "selected_model" _) with (Some model). unfold selected in Hsel.
  apply bind_Ok in Hsel as (ranked & Hranked & Hsel). destruct (mapM_keyed _ _ Hranked) as [Hmap Hrank].
  destruct ranked as [|first rest]; [done|]. cbv zeta in Hsel.
  rewrite <- Hmap in Hall. rewrite <- Hmap in Hex.
  pose proof (proj1 (Forall_forall _ _) Hall) as Hall'. pose proof (proj1 (Forall_forall _ _) Hrank) as Hrank'. clear Hall Hrank.
  assert (Forall (fun c => headed c.1) (first :: rest)) as Hhead.
  { apply Forall_forall. intros c Hin.
    destruct (rank_entry _ _ _ _ (Hall' _ (list_elem_of_fmap_2 snd _ _ Hin)) (Hrank' _ Hin)) as (b & o & s & _ & -> & _).
    by repeat eexists. }
  apply Forall_cons in Hhead as [Hf Hr]. destruct (best_of_greatest rest first Hf Hr) as [Hin Hmax].
  set (best := best_of first rest) in *. pose proof (proj1 (Forall_forall _ _) Hmax) as Hmax'. clear Hmax.
  pose proof (Hall' _ (list_elem_of_fmap_2 snd _ _ Hin)) as Hbest. pose proof (Hrank' _ Hin) as Hbr.
  destruct (rank_entry _ _ _ _ Hbest Hbr) as (b & o & s & Hqb & Hk & Hov).
  assert (forall name score o', qualified name score -> overall_of score = Ok o' -> b = true /\ f_leb o' o = true) as Hbelow.
  { intros name score o' [Hs Hq] Ho'. destruct (Hex _ _ Hs) as (c & Hc & Hcand).
    apply list_elem_of_fmap in Hc as (kc & -> & Hkc).
    destruct (candidate_spec _ _ _ _ Hcand) as (b' & o2 & _ & Hqb' & Hr' & _ & Hb).
    destruct (rank_entry _ _ _ _ (Hall' _ (list_elem_of_fmap_2 snd _ _ Hkc)) (Hrank' _ Hkc)) as (b2 & o3 & s2 & Hq2 & Hk2 & Ho3).
    rewrite Hqb' in Hq2. injection Hq2 as <-. rewrite (proj2 Hb Hq) in Hk2. rewrite (Ho3 _ _ Hr' Ho') in Hk2.
    destruct (Hmax' _ Hkc) as (i & j & x & y & t & u & H1 & H2 & Hle). rewrite Hk2 in H1. rewrite Hk in H2.
    injection H1 as <- <- <-. injection H2 as <- <- <-. destruct b; [|destruct Hle as [?|[? _]]; lia].
    destruct Hle as [?|[_ ?]]; [lia|done]. }
  unfold item in Hsel. rewrite Hqb in Hsel. cbn in Hsel. destruct b.
  - right. destruct Hbest as [name score b o' Hs Hm Hqb2 Hr2 Ho Hb|? _ Hq2 _]; [|congruence].
    rewrite Hm in Hsel. injection Hsel as <-. exists name, score, o. split; [done|]. split.
    { split; [exact Hs|]. apply Hb. congruence. }
    split; [by rewrite (Hov _ _ Hr2 Ho)|]. intros name' score' o2 Hq2 Ho2. by eapply Hbelow.
  - left. injection Hsel as <-. split; [done|]. intros name score Hq. pose proof Hq as [Hs _].
    destruct (Hex _ _ Hs) as (c & _ & Hcand). destruct (candidate_spec _ _ _ _ Hcand) as (? & o' & _ & _ & _ & Ho' & _).
    by destruct (Hbelow _ _ _ Hq Ho').
Qed.
End facts.

(** ** Frontier canary comparison: concrete inputs

    A comparison with one scored candidate that gains enough and one that was stopped. *)

Definition percent (n : Z) : json Qc := JFloat (f_lit n (-2)).
Definition score_of (overall misses : Z) : json Qc :=
  JObj [("hybrid", JObj [("overall_correctness", percent overall); ("exact_correctness", percent 70);
    ("temporal_cross_correctness", percent 60); ("critical_misses", JInt misses); ("unsupported_answers", JInt 0);
    ("provenance_completeness", percent 100); ("mean_context_chars", JInt 900)])]%string.
Definition control_score : json Qc := score_of 80 2.
Definition stopped : json Qc := JObj [("reason", JStr "unsafe")]%string.
Definition compared (grok : json Qc) := compare control_score grok JNull (JObj []) (JObj []) stopped JNull JNull.
Definition model_of (r : result (odict (json Qc))) : option (json Qc) :=
  match r with Ok d => dget "selected_model" d | Raise _ => None end.

Example five_points_are_enough : model_of (compared (score_of 85 2)) = Some (JStr "grok-4.5").
Proof. vm_compute. reflexivity. Qed.
Example four_points_are_not : model_of (compared (score_of 84 2)) = Some (JStr "gpt-oss-120b").
Proof. vm_compute. reflexivity. Qed.
Example fewer_misses_are_enough : model_of (compared (score_of 80 1)) = Some (JStr "grok-4.5").
Proof. vm_compute. reflexivity. Qed.

Definition outcome : odict (json Qc) := match compared (score_of 85 2) with Ok d => d | Raise _ => [] end.
Lemma selected_model_is_the_best_qualified_witness :
  compared (score_of 85 2) = Ok outcome /\
  exists name score o, dget "selected_model" outcome = Some (JStr name) /\
    ((name, score) ∈ scored_of (score_of 85 2) JNull /\ qualifies score control_score) /\ overall_of score = Ok o /\
    forall name' score' o', (name', score') ∈ scored_of (score_of 85 2) JNull /\ qualifies score' control_score ->
      overall_of score' = Ok o' -> f_leb o' o = true.
Proof.
  assert (compared (score_of 85 2) = Ok outcome) as Hr by (vm_compute; reflexivity).
  split; [exact Hr|].
  destruct (selected_model_is_the_best_qualified control_score (score_of 85 2) JNull (JObj []) (JObj []) stopped JNull JNull outcome Hr) as [[Hc _]|H]; [|exact H].
  vm_compute in Hc. discriminate Hc.
Defined.
