(* ===== verification/AdminFormat.v ===== *)
(** * Admin agents: formatting of messages

    formatting.py, the same file in both agents: a subset of Markdown is turned into the
    HTML of a Matrix message. *)

From stdpp Require Import base option list strings.
From Stdlib Require Import ZArith Lia Ascii.
From S2P Require Import Prelude PyStr Regex StrFacts.

Local Open Scope string_scope.

Definition _LIST_RE : re := literal false "^\s*[-*]\s+(.*)$".
Definition _TABLE_SEP_RE : re := literal false "^\s*\|?\s*:?-{3,}:?\s*(\|\s*:?-{3,}:?\s*)+\|?\s*$".
Definition CODE_SPAN : re := literal false "(`[^`]*`)".
Definition BOLD : re := literal false "\*\*([^*]+)\*\*".

(** [html.escape] *)
Definition escape_html (c : ascii) : string :=
  if eqc c "&" then "&amp;" else if eqc c "<" then "&lt;" else if eqc c ">" then "&gt;"
  else if eqc c "034" then "&quot;" else if eqc c "'" then "&#x27;" else String c EmptyString.
Fixpoint html_escape (s : string) : string :=
  match s with String c s => escape_html c +:+ html_escape s | EmptyString => EmptyString end.

(** [<tag>body</tag>] *)
Definition tagged (tag body : string) : string := "<" +:+ tag +:+ ">" +:+ body +:+ "</" +:+ tag +:+ ">".

Definition bold (m : mtch) : string := "<strong>" +:+ group m +:+ "</strong>".
Definition is_code_span (part : string) : bool :=
  (2 <=? String.length part)%nat && startswith "`" part && endswith "`" part.
(** [part[1:-1]] *)
Definition inner (part : string) : string := stake (String.length part - 2) (sdrop 1 part).
Definition render_part (part : string) : string :=
  if is_code_span part then "<code>" +:+ html_escape (inner part) +:+ "</code>"
  else resub BOLD bold (html_escape part).
Definition _inline (text : string) : string := join "" (map render_part (re_split CODE_SPAN text)).

Definition _split_table_row (line : string) : list string :=
  let stripped := strip line in
  let stripped := if startswith "|" stripped then sdrop 1 stripped else stripped in
  let stripped := if endswith "|" stripped then stake (String.length stripped - 1) stripped else stripped in
  map strip (split_char "|" stripped).
Definition _looks_like_table_row (line : string) : bool :=
  let stripped := strip line in
  contains "|" stripped && (2 <=? length (_split_table_row stripped))%nat.
(** The lines from an index on stand for the index. *)
Definition _is_table_start (lines : list string) : bool :=
  match lines with
  | line :: next :: _ => _looks_like_table_row line && found (re_match _TABLE_SEP_RE next)
  | _ => false
  end.
Definition cells (tag : string) (row : list string) : string :=
  join "" (map (fun cell => "<" +:+ tag +:+ ">" +:+ _inline cell +:+ "</" +:+ tag +:+ ">") row).
Definition table_row (columns : nat) (row : list string) : string :=
  let padded := (row ++ replicate (columns - length row) "")%list in
  "<tr>" +:+ cells "td" (take columns padded) +:+ "</tr>".
Definition _table (rows : list (list string)) : string :=
  match rows with
  | [] => ""
  | header :: body =>
      "<table><thead><tr>" +:+ cells "th" header +:+ "</tr></thead>" +:+
      (match body with
       | [] => ""
       | _ => "<tbody>" +:+ join "" (map (table_row (length header)) body) +:+ "</tbody>"
       end) +:+ "</table>"
  end.

(** The lines of a fenced block, up to the closing fence, and what follows it *)
Definition is_fence (line : string) : bool := startswith "```" (strip line).
Fixpoint code_block (lines : list string) : list string * list string :=
  match lines with
  | [] => ([], [])
  | line :: rest =>
      if is_fence line then ([], rest)
      else let '(block, rest) := code_block rest in (line :: block, rest)
  end.
Fixpoint table_rows (lines : list string) : list (list string) * list string :=
  match lines with
  | [] => ([], [])
  | line :: rest =>
      if _looks_like_table_row line
      then let '(rows, rest) := table_rows rest in (_split_table_row line :: rows, rest)
      else ([], lines)
  end.
Fixpoint list_items (lines : list string) : list string * list string :=
  match lines with
  | [] => ([], [])
  | line :: rest =>
      match re_match _LIST_RE line with
      | Some m => let '(items, rest) := list_items rest in (group m :: items, rest)
      | None => ([], lines)
      end
  end.

Definition flush_para (para out : list string) : list string :=
  match para with
  | [] => out
  | _ => (out ++ ["<p>" +:+ join "<br />" (map _inline para) +:+ "</p>"])%list
  end.
(** The loop over the lines; [para] and [out] are its lists. *)
Fixpoint blocks (fuel : nat) (lines para out : list string) : list string :=
  match fuel, lines with
  | S fuel, line :: rest =>
      let stripped := strip line in
      if bool_decide (stripped = EmptyString) then blocks fuel rest [] (flush_para para out)
      else if startswith "```" stripped then
        let out := flush_para para out in
        let '(block, rest) := code_block rest in
        blocks fuel rest [] (out ++ ["<pre><code>" +:+ html_escape (join (String LF EmptyString) block) +:+ "</code></pre>"])
      else if _is_table_start lines then
        let out := flush_para para out in
        let '(rows, rest) := table_rows (tail rest) in
        blocks fuel rest [] (out ++ [_table (_split_table_row line :: rows)])
      else
        match re_match _LIST_RE line with
        | Some _ =>
            let out := flush_para para out in
            let '(items, rest) := list_items lines in
            blocks fuel rest [] (out ++ ["<ul>" +:+ join "" (map (fun item => "<li>" +:+ _inline item +:+ "</li>") items) +:+ "</ul>"])
        | None => blocks fuel rest (para ++ [line]) out
        end
  | _, _ => flush_para para out
  end.
(** Every turn takes a line, so their number bounds the turns. *)
Definition markdown_to_matrix_html (text : string) : string :=
  let lines := splitlines text in
  join (String LF EmptyString) (blocks (length lines) lines [] []).

Definition matrix_text_content (body : string) : odict string :=
  [("msgtype", "m.text"); ("body", body); ("format", "org.matrix.custom.html");
   ("formatted_body", markdown_to_matrix_html body)].

(** ** Admin agents: theorems about the formatting

    Whatever a message says, its HTML is well formed, with tags of a fixed list only, and
    the loop over its lines ends. *)

Definition TAGS : list string :=
  ["p"; "strong"; "code"; "pre"; "ul"; "li"; "table"; "thead"; "tbody"; "tr"; "th"; "td"].
(** Text without a bracket or a quote, so that it is text wherever it stands *)
Definition text_char (c : ascii) : bool := negb (eqc c "<" || eqc c ">" || eqc c "034" || eqc c "'").

(** Well-formed HTML: text, line breaks, and elements of the list that are closed *)
Inductive html : string -> Prop :=
  | html_text s : sall text_char s = true -> html s
  | html_break : html "<br />"
  | html_element tag s : tag ∈ TAGS -> html s -> html ("<" +:+ tag +:+ ">" +:+ s +:+ "</" +:+ tag +:+ ">")
  | html_app s t : html s -> html t -> html (s +:+ t).

Lemma html_nil : html "".
Proof. by apply html_text. Qed.
Lemma html_tag tag s : bool_decide (tag ∈ TAGS) = true -> html s -> html ("<" +:+ tag +:+ ">" +:+ s +:+ "</" +:+ tag +:+ ">").
Proof. intros Ht%bool_decide_eq_true. by apply html_element. Qed.
Create HintDb html discriminated.
#[export] Hint Resolve html_nil html_app : html.
(** An element written with its tags spelled out *)
Ltac element t := apply (html_tag t); [reflexivity|].

Lemma html_join sep l : html sep -> Forall html l -> html (join sep l).
Proof.
  intros Hs. induction 1 as [|s l Hh Hl IH]; [apply html_nil|]. destruct l as [|t l]; [done|].
  change (join sep (s :: t :: l)) with (s +:+ sep +:+ join sep (t :: l)). auto with html.
Qed.
Lemma html_map {A} (f : A -> string) sep l : html sep -> (forall x, html (f x)) -> html (join sep (map f l)).
Proof. intros Hs Hf. apply html_join; [done|]. apply Forall_forall. intros s Hin. apply list_elem_of_fmap in Hin as (x & -> & _). apply Hf. Qed.

(** ** Escaping *)

Lemma escape_html_text c : sall text_char (escape_html c) = true.
Proof.
  unfold escape_html. destruct (eqc c "&"); [done|]. destruct (eqc c "<") eqn:E1; [done|]. destruct (eqc c ">") eqn:E2; [done|].
  destruct (eqc c "034") eqn:E3; [done|]. destruct (eqc c "'") eqn:E4; [done|].
  simpl. unfold text_char. by rewrite E1, E2, E3, E4.
Qed.
Lemma html_escape_text s : sall text_char (html_escape s) = true.
Proof. induction s as [|c s IH]; [done|]. simpl. by rewrite sall_app, escape_html_text, IH. Qed.
Lemma html_escape_html s : html (html_escape s).
Proof. apply html_text, html_escape_text. Qed.
#[export] Hint Resolve html_escape_html : html.

(** ** Lines of text *)

Lemma html_char c s : text_char c = true -> html s -> html (String c s).
Proof. intros Hc Hs. apply (html_app (String c "") s); [apply html_text; simpl; by rewrite Hc|done]. Qed.
Lemma re_sub_html fuel r f x :
  (forall m, sall text_char (group m) = true -> html (f m)) -> sall text_char (after x) = true -> html (re_sub fuel r f x).
Proof.
  intros Hf. revert x. induction fuel as [|fuel IH]; intros [b s] Hx; simpl in *; [by apply html_text|].
  assert (html match s with String c s => String c (re_sub fuel r f (Pos (Some c) s)) | EmptyString => EmptyString end) as Hnext.
  { destruct s as [|c s]; [apply html_nil|]. simpl in Hx. apply andb_true_iff in Hx as [Hc Hx]. by apply html_char, IH. }
  destruct (match_at r (Pos b s)) as [m|] eqn:E; [|exact Hnext].
  destruct (match_at_sall _ _ _ _ E Hx) as [Hg Hm]. destruct (_ <? _)%nat; [|exact Hnext]. apply html_app; auto.
Qed.
Lemma render_part_html part : html (render_part part).
Proof.
  unfold render_part. destruct (is_code_span part).
  - element "code". auto with html.
  - apply re_sub_html; [|apply html_escape_text]. intros m Hm. element "strong". by apply html_text.
Qed.
Lemma inline_html text : html (_inline text).
Proof. apply html_map; [apply html_nil|apply render_part_html]. Qed.
#[export] Hint Resolve inline_html : html.

(** ** Tables and blocks *)

Lemma cells_html tag row : bool_decide (tag ∈ TAGS) = true -> html (cells tag row).
Proof. intros Ht. apply html_map; [apply html_nil|]. intros cell. apply html_tag; auto with html. Qed.
Lemma table_row_html n row : html (table_row n row).
Proof. element "tr". by apply cells_html. Qed.
Lemma table_html rows : html (_table rows).
Proof.
  destruct rows as [|header body]; [apply html_nil|].
  assert (html (match body with [] => "" | _ => "<tbody>" +:+ join "" (map (table_row (length header)) body) +:+ "</tbody>" end)) as Hb.
  { destruct body as [|row body]; [apply html_nil|]. element "tbody". apply html_map; [apply html_nil|apply table_row_html]. }
  assert (html ("<thead>" +:+ ("<tr>" +:+ cells "th" header +:+ "</tr>") +:+ "</thead>")) as Hh.
  { element "thead". element "tr". by apply cells_html. }
  pose proof (html_tag "table" _ eq_refl (html_app _ _ Hh Hb)) as Ht. revert Ht. rewrite !string_app_assoc. exact id.
Qed.
Lemma flush_html para out : Forall html out -> Forall html (flush_para para out).
Proof.
  intros Ho. destruct para as [|line para]; [done|]. apply Forall_app. split; [done|]. constructor; [|constructor].
  element "p". apply html_map; [apply html_break|apply inline_html].
Qed.
Lemma snoc_html out s : Forall html out -> html s -> Forall html (out ++ [s])%list.
Proof. intros Ho Hs. apply Forall_app. split; [done|]. constructor; [done|constructor]. Qed.
Lemma blocks_html fuel lines para out : Forall html out -> Forall html (blocks fuel lines para out).
Proof.
  revert lines para out. induction fuel as [|fuel IH]; intros lines para out Ho; [by apply flush_html|].
  destruct lines as [|line rest]; [by apply flush_html|]. cbn [blocks]. cbv zeta.
  case_bool_decide; [by apply IH, flush_html|]. destruct (startswith _ _).
  { destruct (code_block rest) as [block rest']. apply IH, snoc_html; [by apply flush_html|].
    pose proof (html_tag "pre" _ eq_refl (html_tag "code" _ eq_refl (html_escape_html (join (String LF EmptyString) block)))) as Hp.
    revert Hp. rewrite !string_app_assoc. exact id. }
  destruct (_is_table_start _).
  { destruct (table_rows (tail rest)) as [rows rest']. apply IH, snoc_html; [by apply flush_html|apply table_html]. }
  destruct (re_match _LIST_RE line); [|by apply IH].
  destruct (list_items _) as [items rest']. apply IH, snoc_html; [by apply flush_html|]. element "ul".
  apply html_map; [apply html_nil|]. intros item. element "li". auto with html.
Qed.

(** C28: Whatever the text of a message, its formatted body is well formed: every tag is of the
    list, opened and closed in order, and nothing of the text is read as a tag. *)
Theorem formatted_body_is_well_formed (text : string) : html (markdown_to_matrix_html text).
Proof. apply html_join; [by apply html_text|]. by apply blocks_html. Qed.

(** ** The loop ends *)

Lemma code_block_length lines : (length (code_block lines).2 <= length lines)%nat.
Proof.
  induction lines as [|line rest IH]; simpl; [done|]. destruct (is_fence line); simpl; [lia|].
  destruct (code_block rest). simpl in *. lia.
Qed.
Lemma table_rows_length lines : (length (table_rows lines).2 <= length lines)%nat.
Proof.
  induction lines as [|line rest IH]; simpl; [done|]. destruct (_looks_like_table_row line); simpl; [|lia].
  destruct (table_rows rest). simpl in *. lia.
Qed.
Lemma list_items_length lines : (length (list_items lines).2 <= length lines)%nat.
Proof.
  induction lines as [|line rest IH]; simpl; [done|]. destruct (re_match _LIST_RE line); simpl; [|lia].
  destruct (list_items rest). simpl in *. lia.
Qed.
(** With a turn for every line the loop is never cut off: more turns change nothing. *)
Lemma blocks_fuel fuel lines para out :
  (length lines <= fuel)%nat -> blocks fuel lines para out = blocks (length lines) lines para out.
Proof.
  revert lines para out. induction fuel as [fuel IH] using lt_wf_ind. intros lines para out Hl.
  assert (forall l n p o, (length l <= n)%nat -> (n < fuel)%nat -> blocks n l p o = blocks (length l) l p o) as Hn by auto.
  destruct fuel as [|fuel]; [by destruct lines; [|simpl in Hl; lia]|].
  destruct lines as [|line rest]; [done|]. simpl in Hl. cbn [blocks length]. cbv zeta.
  assert (forall l p o, (length l <= length rest)%nat -> blocks fuel l p o = blocks (length rest) l p o) as He.
  { intros l p o Hlen. by rewrite (Hn l fuel), (Hn l (length rest)) by lia. }
  case_bool_decide; [by apply He|]. destruct (startswith _ _).
  { pose proof (code_block_length rest). destruct (code_block rest). by apply He. }
  destruct (_is_table_start _).
  { pose proof (table_rows_length (tail rest)). destruct (table_rows (tail rest)). apply He. simpl in *. destruct rest; simpl in *; lia. }
  destruct (re_match _LIST_RE line) eqn:Em; [|by apply He].
  pose proof (list_items_length rest). cbn [list_items]. rewrite Em. destruct (list_items rest). by apply He.
Qed.

Example a_message :
  markdown_to_matrix_html ("Use `!tg login` & **wait**" +:+ String LF ("- a<b" +:+ String LF ("- `x`" +:+ String LF EmptyString))) =
  "<p>Use <code>!tg login</code> &amp; <strong>wait</strong></p>" +:+ String LF "<ul><li>a&lt;b</li><li><code>x</code></li></ul>".
Proof. vm_compute. reflexivity. Qed.
Example a_table :
  markdown_to_matrix_html ("a | b" +:+ String LF ("---|:---:" +:+ String LF "1 | 2 | 3")) =
  "<table><thead><tr><th>a</th><th>b</th></tr></thead><tbody><tr><td>1</td><td>2</td></tr></tbody></table>".
Proof. vm_compute. reflexivity. Qed.
