(* ===== verification/AdminCore.v ===== *)
(** * Admin agents: what the two agents share

    telegram_admin_agent and postgres_admin_agent are bots in a Matrix room: the reading of
    their settings, mentions, the loops that log in and join, the handling of a message, and
    the conversation with a model that may call tools.

    An agent is one asyncio process. A block of code without an await is one action
    [Atomic f]: [f] is given the time and the memory of the process and returns a value and
    the new memory. Every other action is something the outside answers; an awaited one may
    also answer with a cancellation, which is what [asyncio.wait_for] does to its task when
    time is up, and [wait_for] turns the cancellation it asked for into [TimeoutError].

    An agent says how its memory keeps what the shared code sets, as an instance of
    [AgentMemory], and brings its own actions. *)

From stdpp Require Import base option list strings.
From Stdlib Require Import ZArith Lia Ascii.
From S2P Require Import Prelude PyStr StrFacts PyFloat Json JsonParse Regex Effects AdminFormat.

Local Open Scope Z_scope.
Local Open Scope py_scope.

(** ** Settings *)

Section env.
Variable env : odict string.
Definition _env (name d : string) (required : bool) : result string :=
  let value := default d (dget name env) in
  raise! SystemExit ("missing required environment variable: " +:+ name)
    when required && bool_decide (value = EmptyString);
  Ok value.
Definition _bool_env (name : string) (d : bool) : bool :=
  match dget name env with
  | None => d
  | Some value => bool_decide (lower (strip value) ∈ ["1"; "true"; "yes"; "on"]%string)
  end.
(** [int(_env(name, default))] *)
Definition int_env (name d : string) (required : bool) : result Z :=
  value ← _env name d required;
  match parse_int value with
  | Some z => Ok z
  | None => Raise (ValueError ("invalid literal for int() with base 10: " +:+ repr_str value))
  end.
End env.
Definition non_empty (s : string) : bool := negb (bool_decide (s = EmptyString)).
Definition _csv (value : string) : list string := filter non_empty (map strip (split_char "," value)).

(** ** Mentions *)

Definition lstrip_char (c : ascii) (s : string) : string := dropwhile (eqc c) s.
Definition _mxid_localpart (mxid : string) : string :=
  if startswith "@" mxid && contains ":" mxid
  then match partition ":" (sdrop 1 mxid) with Some (a, _) => a | None => sdrop 1 mxid end
  else lstrip_char "@" mxid.
(** The aliases, each once whatever its case *)
Fixpoint unseen_aliases (seen : list string) (aliases : list string) : list string :=
  match aliases with
  | [] => []
  | alias :: aliases =>
      let alias := strip alias in
      let key := lower alias in
      if non_empty alias && negb (bool_decide (key ∈ seen)) then alias :: unseen_aliases (key :: seen) aliases
      else unseen_aliases seen aliases
  end.
Definition _mention_aliases (mxid : string) (extra_aliases : list string) : list string :=
  let localpart := _mxid_localpart mxid in
  unseen_aliases [] ([mxid; "@" +:+ localpart; localpart] ++ extra_aliases).

(** [sorted(l, key=len, reverse=True)]: equal lengths stay in order *)
Fixpoint insert_by_length (x : string) (l : list string) : list string :=
  match l with
  | [] => [x]
  | y :: l' => if (String.length y <? String.length x)%nat then x :: l else y :: insert_by_length x l'
  end.
Fixpoint longest_first (l : list string) : list string :=
  match l with [] => [] | x :: l => insert_by_length x (longest_first l) end.

(** [(?i)] and [re.escape(text)] *)
Fixpoint escaped (text : string) : re :=
  match text with EmptyString => REps | String c text => RCat (RSet (fold_case true (eqc c))) (escaped text) end.
Definition spaces : re := RStar (RSet is_space).
Definition is_separator (c : ascii) : bool := eqc c ":" || eqc c ",".
(** [(^|\s)alias(?=$|[\s,:])] and [^\s*alias\s*[:,]\s*] *)
Definition at_mention (alias : string) : re :=
  RCat (RGroup "1" (RAlt RBol (RSet is_space)))
    (RCat (escaped alias)
       (RAhead (fun s => at_end s || match s with String c _ => is_space c || is_separator c | EmptyString => false end))).
Definition name_prefix (alias : string) : re :=
  RCat RBol (RCat spaces (RCat (escaped alias) (RCat spaces (RCat (RSet is_separator) spaces)))).
(** [body[:match.start()]] *)
Definition before_match (body : string) (m : mtch) : string :=
  stake (String.length body - String.length (after (mt_start m))) body.
Definition or_help (help s : string) : string := if non_empty s then s else help.
Definition mention_char (c : ascii) : bool := eqc c " " || eqc c "009" || is_separator c.
Fixpoint strip_mentions (help body : string) (aliases : list string) : option string :=
  match aliases with
  | [] => None
  | alias :: aliases =>
      if startswith "@" alias then
        match re_search (at_mention alias) body with
        | Some m => Some (or_help help (strip_by mention_char (before_match body m +:+ " " +:+ after (mt_end m))))
        | None => strip_mentions help body aliases
        end
      else
        match re_match (name_prefix alias) body with
        | Some m => Some (or_help help (strip (after (mt_end m))))
        | None => strip_mentions help body aliases
        end
  end.
Definition strip_mention (help : string) (mentions : list string) (body : string) : option string :=
  strip_mentions help body (longest_first mentions).

(** ** Secrets *)

(** [text.replace(secret, "<redacted>")] for each secret that is not empty *)
Definition REDACTED : string := "<redacted>".
Definition redact_all (secrets : list string) (text : string) : string :=
  foldl (fun t secret => if non_empty secret then replace secret REDACTED t else t) text secrets.

(** ** Matrix *)

Inductive matrix_response :=
  | MatrixDone
  | MatrixError (message : string) (retry_after_ms : option Z)
  | MatrixUnexpected (cls : string).
Definition backoff (attempt : Z) : Z := Z.min 120 (Z.max 5 (attempt * 5)).
Definition _matrix_retry_delay (retry_after_ms : option Z) (attempt : Z) : Z :=
  match retry_after_ms with
  | Some ms => if 0 <? ms then Z.max 1 (Z.min 300 ((ms + 999) / 1000)) else backoff attempt
  | None => backoff attempt
  end.

Definition CONFIRM : re := literal false "(?i)\s*confirm\s+([a-f0-9]{6,12})\s*".
(** The token of a confirmation *)
Definition confirmation (body : string) : option string := lower ∘ group <$> re_fullmatch CONFIRM body.

Definition CancelledError (tag : string) : exn := OtherError "CancelledError" tag.
Definition TimeoutError : exn := OtherError "TimeoutError" EmptyString.
Definition is_class (cls : string) (e : exn) : bool := bool_decide (exn_name e = cls).
Definition is_timeout (e : exn) : bool := is_class "TimeoutError" e.
(** [f"{type(exc).__name__}: {exc}"] *)
Definition exn_text (e : exn) : string := exn_name e +:+ ": " +:+ exn_msg e.

(** ** Addresses and answers over HTTP *)

Definition newline : string := String LF EmptyString.
(** [text.rsplit(":", 1)] into a host and a port *)
Fixpoint last_colon (s : string) : option (string * string) :=
  match s with
  | EmptyString => None
  | String c s' =>
      match last_colon s' with
      | Some (a, b) => Some (String c a, b)
      | None => if eqc c ":" then Some (EmptyString, s') else None
      end
  end.
Definition host_port (text : string) : result (string * Z) :=
  match last_colon text with
  | Some (host, port) =>
      match parse_int port with
      | Some z => Ok (host, z)
      | None => Raise (ValueError ("invalid literal for int() with base 10: " +:+ repr_str port))
      end
  | None => Raise (ValueError "not enough values to unpack (expected 2, got 1)")
  end.
Definition request_path (words : list string) : string := match words with _ :: path :: _ => path | _ => "/" end.
Definition CRLF : string := String CR (String LF EmptyString).
Definition NOT_FOUND : string :=
  "HTTP/1.1 404 Not Found" +:+ CRLF +:+ "content-length: 10" +:+ CRLF +:+ CRLF +:+ "not found" +:+ newline.
Definition http_response (ok : bool) (body : string) : string :=
  (if ok then "HTTP/1.1 200 OK" else "HTTP/1.1 503 Service Unavailable") +:+ CRLF +:+
  "content-type: application/json" +:+ CRLF +:+ "content-length: " +:+ str_of_Z (Z.of_nat (String.length body)) +:+
  CRLF +:+ CRLF +:+ body.

(** ** The actions *)

(** What the shared code sets in the memory of an agent *)
Class AgentMemory (F M : Type) := {
  set_last_error : string -> M -> M;
  set_matrix_logged_in : M -> M;
  set_room_joined : M -> M;
  set_last_message_at : F -> M -> M;
  set_last_reply_at : F -> M -> M;
}.

(** A message of the model *)
Record tool_call := { tc_id : string; tc_name : string; tc_arguments : string }.
Record completion := { cm_content : option string; cm_tool_calls : list tool_call }.

Section core.
Context {F : Type} `{PyFloat F} {M : Type} `{!AgentMemory F M} {X : Type} {XA : X -> Type}.
Abbreviation row := (odict (json F)).

Inductive aaction :=
  | Atomic {B : Type} (f : F -> M -> B * M)
  | Own (x : X)
  | MatrixLogin (password device : string)
  | MatrixJoin (room : string)
  | MatrixSync (timeout : Z)
  | AddCallback
  | SyncForever (timeout : Z)
  | RoomSend (room : string) (content : odict string)
  | ReadMarkers (room event_id : string)
  | Typing (room : string) (on : bool)
  | Complete (model : string) (messages : list (json F)) (tools : list (json F))
  | TokenHex
  | Sleep (seconds : F).
Definition aanswer (a : aaction) : Type :=
  match a with
  | @Atomic B _ => B
  | Own x => XA x
  | MatrixLogin _ _ | MatrixJoin _ => matrix_response
  | Complete _ _ _ => completion
  | TokenHex => string
  | MatrixSync _ | AddCallback | SyncForever _ | RoomSend _ _ | ReadMarkers _ _ | Typing _ _ | Sleep _ => unit
  end.
Definition agent_effect : Effect := {| action := aaction; answer := aanswer |}.
Abbreviation prog := (@prog agent_effect).
Abbreviation ask a := (@act agent_effect a).
Definition own (x : X) : prog (XA x) := ask (Own x).

(** Blocks without an await: one that only reads, one that only writes, one that may raise *)
Definition read {B} (f : M -> B) : prog B := ask (Atomic (fun _ m => (f m, m))).
Definition update (f : M -> M) : prog unit := ask (Atomic (fun _ m => (tt, f m))).
Definition update_at (f : F -> M -> M) : prog unit := ask (Atomic (fun now m => (tt, f now m))).
Definition now : prog F := ask (Atomic (fun now m => (now, m))).
Definition atomic {B} (f : F -> M -> result B * M) : prog B := r ← ask (Atomic f); PRet r.

(** [asyncio.wait_for(p, timeout)]; the tag tells its cancellation from that of another. *)
Definition wait_for {A} (tag : string) (p : prog A) : prog A :=
  pbind p (fun r => match r with
                    | Raise e => if bool_decide (e = CancelledError tag) then raise TimeoutError else PRet r
                    | Ok _ => PRet r
                    end).

(** ** Logging in and joining *)

(** [transport] and [failed] begin the texts of the two kinds of error. *)
Fixpoint with_retry (fuel : nat) (n : Z) (request : prog matrix_response) (transport failed unexpected : string)
    : prog unit :=
  match fuel with
  | O => PHalt
  | S fuel =>
      response ← attempt request;
      match response with
      | Raise e =>
          let delay := backoff n in
          update (set_last_error (transport +:+ exn_text e +:+ "; retrying in " +:+ str_of_Z delay +:+ "s"));;
          ask (Sleep (f_of_Z delay));;
          with_retry fuel (n + 1) request transport failed unexpected
      | Ok MatrixDone => mret tt
      | Ok (MatrixUnexpected cls) => raise (RuntimeError (unexpected +:+ cls))
      | Ok (MatrixError message retry_after_ms) =>
          let delay := _matrix_retry_delay retry_after_ms n in
          update (set_last_error (failed +:+ message +:+ "; retrying in " +:+ str_of_Z delay +:+ "s"));;
          ask (Sleep (f_of_Z delay));;
          with_retry fuel (n + 1) request transport failed unexpected
      end
  end.

(** ** The conversation with the model *)

Section llm.
Variable model : string.
Variable system_prompt : string.
Variable tools : list (json F).
(** What is done when the model has answered, and a call of a tool *)
Variable answered : prog unit.
Variable call_tool : string -> string -> prog row.

Definition system_message (content : string) : json F := JObj [("role", JStr "system"); ("content", JStr content)]%string.
Definition user_message (content : string) : json F := JObj [("role", JStr "user"); ("content", JStr content)]%string.
Definition tool_call_json (c : tool_call) : json F :=
  JObj [("id", JStr (tc_id c)); ("type", JStr "function");
        ("function", JObj [("name", JStr (tc_name c)); ("arguments", JStr (tc_arguments c))])]%string.
Definition assistant_message (c : completion) : json F :=
  JObj [("role", JStr "assistant");
        ("content", match cm_content c with Some s => JStr s | None => JNull end);
        ("tool_calls", JArr (map tool_call_json (cm_tool_calls c)))]%string.
Definition tool_message (c : tool_call) (result : row) : json F :=
  JObj [("role", JStr "tool"); ("tool_call_id", JStr (tc_id c)); ("content", JStr (dumps (JObj result)))]%string.
Fixpoint call_tools (calls : list tool_call) : prog (list (json F)) :=
  match calls with
  | [] => mret []
  | c :: calls =>
      result ← call_tool (tc_name c) (tc_arguments c);
      rest ← call_tools calls;
      mret (tool_message c result :: rest)
  end.
Definition reply_of (c : completion) : string := or_help "No response." (strip (default EmptyString (cm_content c))).
Fixpoint llm_turns (n : nat) (messages : list (json F)) : prog string :=
  match n with
  | O => mret "I hit the tool-step limit before finishing. Please narrow the request."%string
  | S n =>
      c ← ask (Complete model messages tools);
      answered;;
      match cm_tool_calls c with
      | [] => mret (reply_of c)
      | calls =>
          results ← call_tools calls;
          llm_turns n (messages ++ assistant_message c :: results)
      end
  end.
Definition TOOL_STEPS : nat := 5.
Definition llm_handle (body : string) : prog string :=
  llm_turns TOOL_STEPS [system_message system_prompt; user_message body].
End llm.

(** A description of a tool *)
Definition json_strs (l : list string) : json F := JArr (map JStr l).
Definition tool (name description : string) (params : row) (required : list string) : json F :=
  JObj [("type", JStr "function");
        ("function", JObj [("name", JStr name); ("description", JStr description);
           ("parameters", JObj ([("type", JStr "object"); ("properties", JObj params)] ++
              (if bool_decide (required = []) then [] else [("required", json_strs required)]) ++
              [("additionalProperties", JBool false)]))])]%string.
(** [json.loads(raw_args or "{}")]; the texts of decoding errors are the library's *)
Definition json_loads (s : string) : result (json F) :=
  match raw_decode (ws s) with
  | Some (j, rest) => if bool_decide (ws rest = EmptyString) then Ok j else Raise (OtherError "JSONDecodeError" "Extra data")
  | None => Raise (OtherError "JSONDecodeError" "Expecting value")
  end.
Definition tool_args (raw_args : string) : result (json F) := json_loads (or_help "{}" raw_args).
(** [str(args.get(k, ""))] *)
Definition str_arg (k : string) (args : json F) : result string :=
  d ← obj args; Ok (json_str (default (JStr EmptyString) (dget k d))).
Definition error_row (message : string) : row := [("ok", JBool false); ("error", JStr message)]%string.
(** [except Exception as exc: return {"ok": False, "error": str(exc)}] *)
Definition or_error (p : prog row) : prog row := try_ p (fun e => mret (error_row (exn_msg e))).

(** ** Values of results *)

Definition get (k : string) (r : row) : json F := default JNull (dget k r).
Definition get_text (k : string) (r : row) : string := json_str (get k r).
Definition str_or_null (s : string) : json F := if bool_decide (s = EmptyString) then JNull else JStr s.
Definition type_name (j : json F) : string :=
  match j with
  | JNull => "NoneType" | JBool _ => "bool" | JInt _ => "int" | JFloat _ => "float" | JStr _ => "str"
  | JArr _ => "list" | JObj _ => "dict"
  end.
(** [**j] in a dictionary display *)
Definition mapping (j : json F) : result row :=
  match j with JObj d => Ok d | j => Raise (TypeError ("'" +:+ type_name j +:+ "' object is not a mapping")) end.

(** ** Messages *)

Section bot.
Variable room : string.
Variable redact : string -> prog string.
Variable handle : string -> string -> prog string.
(** The prefix of an error, and [response_timeout_seconds] is over *)
Variable error_prefix : string.

Definition _send (text : string) : prog unit :=
  redacted ← redact text;
  ask (RoomSend room (matrix_text_content redacted)).
Definition _begin_feedback (event_id : string) : prog unit :=
  suppress (ask (ReadMarkers room event_id);; ask (Typing room true)).
Definition _end_feedback : prog unit := suppress (ask (Typing room false)).
Definition reply_to (r : result string) : result string :=
  match r with
  | Ok reply => Ok reply
  | Raise e =>
      if is_timeout e then Ok (error_prefix +:+ "request timed out.")
      else if is_exception e then Ok (error_prefix +:+ exn_text e)
      else Raise e
  end.
Definition _process_message (sender text event_id : string) : prog unit :=
  update_at set_last_message_at;;
  _begin_feedback event_id;;
  reply ← finally (pbind (wait_for "response" (handle sender text)) (fun r => PRet (reply_to r))) _end_feedback;
  _send reply;;
  update_at set_last_reply_at.

(** [Bot.run], up to what the agents do between joining and the first sync *)
Definition bot_run (fuel : nat) (password device : string) (joined : prog unit) (announce : option string) : prog unit :=
  with_retry fuel 1 (ask (MatrixLogin password device)) "Matrix login transport failed: " "Matrix login failed: "
    "unexpected Matrix login response: ";;
  update set_matrix_logged_in;;
  with_retry fuel 1 (ask (MatrixJoin room)) "Matrix room join transport failed: " "Matrix room join failed: "
    "unexpected Matrix join response: ";;
  update set_room_joined;;
  joined;;
  ask (MatrixSync 0);;
  ask AddCallback;;
  (match announce with Some text => _send text | None => mret tt end);;
  ask (SyncForever 30000).
End bot.
End core.
Arguments aaction F M X : clear implicits.
Arguments aanswer {F M X XA} a.

(** ** Admin agents: theorems about what they share

    Redaction, the mentions, and the conversation with the model. *)

(** ** Redaction *)

(** A secret that "<redacted>" cannot make up: it has no bracket and is no part of "redacted" *)
Definition unbracketed (s : string) : bool := sall (fun c => negb (eqc c "<" || eqc c ">")) s.
Definition concealable (s : string) : bool := non_empty s && unbracketed s && negb (contains s "redacted").
(** One that is not: the marker and what was beside the secret make it up again. *)
Example bracketed_secret_reappears : contains ">a" (redact_all [">a"%string] ">>aa") = true.
Proof. vm_compute. reflexivity. Qed.

Lemma startswith_bracket s (w u : string) :
  unbracketed s = true -> startswith s (w +:+ String ">" u) = true -> startswith s w = true.
Proof.
  revert s. induction w as [|c w IH]; intros s Hs Hw; destruct s as [|a s]; try done.
  - simpl in *. apply andb_true_iff in Hs as [Ha _]. apply andb_true_iff in Hw as [Hw _].
    apply bool_decide_eq_true in Hw as ->. done.
  - simpl in *. apply andb_true_iff in Hs as [_ Hs]. apply andb_true_iff in Hw as [-> Hw]. by apply IH.
Qed.
Lemma startswith_opening s u : unbracketed s = true -> non_empty s = true -> startswith s (String "<" u) = false.
Proof.
  destruct s as [|a s]; [done|]. intros Hs _. simpl in *. apply andb_true_iff in Hs as [Ha _].
  by destruct (eqc a "<").
Qed.
Lemma replace_startswith fuel old s t :
  unbracketed s = true -> startswith s (replace_fuel fuel old REDACTED t) = true -> startswith s t = true.
Proof.
  revert s t. induction fuel as [|fuel IH]; intros s t Hs Hr; [done|]. destruct t as [|a t]; [done|]. simpl in Hr.
  destruct (startswith old (String a t)).
  - destruct s as [|c s]; [done|]. simpl in Hs, Hr. apply andb_true_iff in Hs as [Hc _]. apply andb_true_iff in Hr as [Hr _].
    apply bool_decide_eq_true in Hr as ->. done.
  - destruct s as [|c s]; [done|]. simpl in *. apply andb_true_iff in Hs as [_ Hs]. apply andb_true_iff in Hr as [-> Hr]. simpl.
    by eapply IH.
Qed.
Lemma contains_after_bracket s w u :
  unbracketed s = true -> non_empty s = true -> contains s w = false ->
  contains s (w +:+ String ">" u) = contains s u.
Proof.
  intros Hs Hn. induction w as [|c w IH]; intros Hw.
  - simpl. destruct (startswith s (String ">" u)) eqn:E; [|done].
    apply (startswith_bracket s EmptyString u) in E; [|done]. by destruct s.
  - simpl in Hw. apply orb_false_iff in Hw as [Hc Hw].
    change (contains s (String c (w +:+ String ">" u)) = contains s u). cbn [contains]. rewrite IH by done.
    destruct (startswith s (String c (w +:+ String ">" u))) eqn:E; [|done].
    apply (startswith_bracket s (String c w) u) in E; [|done]. by rewrite E in Hc.
Qed.
Lemma contains_redacted s u : concealable s = true -> contains s (REDACTED +:+ u) = contains s u.
Proof.
  unfold concealable. rewrite !andb_true_iff, negb_true_iff. intros [[Hn Hs] Hr].
  change (REDACTED +:+ u)%string with (String "<" ("redacted" +:+ String ">" u)). rewrite <- (contains_after_bracket s "redacted" u) by done.
  change (startswith s (String "<" ("redacted" +:+ String ">" u)) || contains s ("redacted" +:+ String ">" u) = contains s ("redacted" +:+ String ">" u))%string.
  by rewrite startswith_opening.
Qed.
Lemma contains_sdrop s n t : contains s t = false -> contains s (sdrop n t) = false.
Proof.
  revert t. induction n as [|n IH]; intros t Ht; [done|]. destruct t as [|a t]; [done|].
  simpl in *. apply orb_false_iff in Ht as [_ Ht]. by apply IH.
Qed.
(** Replacing one secret uncovers no other. *)
Lemma replace_keeps_out fuel old s t :
  concealable s = true -> contains s t = false -> contains s (replace_fuel fuel old REDACTED t) = false.
Proof.
  intros Hs. revert t. induction fuel as [|fuel IH]; intros t Ht; [done|]. destruct t as [|a t]; [done|].
  cbn [replace_fuel]. destruct (startswith old (String a t)).
  - rewrite contains_redacted by done. by apply IH, contains_sdrop.
  - cbn [contains] in *. apply orb_false_iff in Ht as [Hh Ht]. rewrite IH by done.
    rewrite orb_false_r. apply not_true_is_false. intros E. destruct s as [|c s]; [discriminate Hh|].
    unfold concealable in Hs. rewrite !andb_true_iff in Hs. destruct Hs as [[_ Hs] _].
    simpl in E, Hh, Hs. apply andb_true_iff in E as [Ea E]. apply andb_true_iff in Hs as [_ Hs].
    apply replace_startswith in E; [|done]. by rewrite Ea, E in Hh.
Qed.
Lemma sdrop_length n t : (String.length (sdrop n t) = String.length t - n)%nat.
Proof. revert t. induction n as [|n IH]; intros [|c t]; simpl; try lia. apply IH. Qed.
Lemma replace_removes fuel s t :
  concealable s = true -> (String.length t <= fuel)%nat -> contains s (replace_fuel fuel s REDACTED t) = false.
Proof.
  intros Hs. assert (non_empty s = true /\ unbracketed s = true) as [Hn Hu].
  { unfold concealable in Hs. rewrite !andb_true_iff in Hs. tauto. }
  assert (contains s EmptyString = false) as H0 by (by destruct s).
  revert t. induction fuel as [|fuel IH]; intros t Ht.
  { destruct t; [done|simpl in Ht; lia]. }
  destruct t as [|a t]; [done|]. simpl in Ht. cbn [replace_fuel]. destruct (startswith s (String a t)) eqn:E.
  - rewrite contains_redacted by done. apply IH. rewrite sdrop_length. destruct s; [done|]. simpl. lia.
  - cbn [contains]. rewrite IH by lia.
    rewrite orb_false_r. apply not_true_is_false. intros E'.
    assert (startswith s (replace_fuel (S fuel) s REDACTED (String a t)) = true) as Hr by (cbn [replace_fuel]; by rewrite E).
    apply replace_startswith in Hr; [|done]. by rewrite Hr in E.
Qed.
Lemma redact_keeps_out secrets s t : concealable s = true -> contains s t = false -> contains s (redact_all secrets t) = false.
Proof.
  intros Hs. unfold redact_all. revert t. induction secrets as [|x secrets IH]; intros t Ht; [done|]. simpl.
  apply IH. destruct (non_empty x); [|done]. by apply replace_keeps_out.
Qed.
Lemma redact_all_conceals secrets s t : s ∈ secrets -> concealable s = true -> contains s (redact_all secrets t) = false.
Proof.
  intros Hin Hs. unfold redact_all. revert t. induction secrets as [|x secrets IH]; intros t; [by apply not_elem_of_nil in Hin|]. simpl.
  apply elem_of_cons in Hin as [<-|Hin]; [|by apply IH].
  assert (non_empty s = true) as ->.
  { unfold concealable in Hs. rewrite !andb_true_iff in Hs. tauto. }
  by apply redact_keeps_out, replace_removes.
Qed.

(** A secret that begins another one: what is left of the longer one is sent. *)
Example shorter_secret_first : redact_all ["abc"; "abcdef"]%string "the key abcdef" = "the key <redacted>def"%string.
Proof. vm_compute. reflexivity. Qed.

(** ** The conversation with the model *)
Section llm.
Context {F : Type} `{PyFloat F} {M : Type} {X : Type} {XA : X -> Type}.
#[local] Abbreviation E := (agent_effect (F := F) (M := M) (XA := XA)).
Abbreviation act_of := (@action E).
Abbreviation hist_of := (@hist E).
Abbreviation prog_of := (@prog E).

Definition asks (a : act_of) : bool := match a with Complete _ _ _ => true | _ => false end.
Definition silent (a : act_of) : Prop := asks a = false.
(** How often the model was asked *)
Definition asked (h : hist_of) : nat := length (List.filter (fun e => asks (ev_action e)) h).
Lemma asked_app h h' : asked (h ++ h') = (asked h + asked h')%nat.
Proof. unfold asked. by rewrite List.filter_app, length_app. Qed.
Lemma asked_silent evs : Forall (fun e => silent (ev_action e)) evs -> asked evs = 0%nat.
Proof. unfold asked. induction 1 as [|e evs He Hevs IH]; [done|]. simpl. by rewrite He. Qed.

(** A conversation: the system and the user, then turns of the model, each followed by one
    result for each of its calls, in their order *)
Inductive conversation (system_prompt body : string) : list (json F) -> Prop :=
  | conversation_start : conversation system_prompt body [system_message system_prompt; user_message body]
  | conversation_turn ms c results :
      conversation system_prompt body ms -> cm_tool_calls c <> [] ->
      Forall2 (fun call m => exists result, m = tool_message call result) (cm_tool_calls c) results ->
      conversation system_prompt body (ms ++ assistant_message c :: results).

Variable model system_prompt : string.
Variable tools : list (json F).
Variable answered : prog_of unit.
Variable call_tool : string -> string -> prog_of (odict (json F)).
Hypothesis answered_silent : only silent answered.
Hypothesis call_tool_silent : forall name args, only silent (call_tool name args).

Lemma call_tools_silent calls : only silent (call_tools call_tool calls).
Proof.
  induction calls as [|c calls IH]; cbn [call_tools]; [apply only_ret|]. apply only_bind; [apply call_tool_silent|].
  intros result. apply only_bind; [exact IH|]. intros rest. apply only_ret.
Qed.
Lemma call_tools_results calls :
  yields (call_tools call_tool calls) (fun results =>
    Forall2 (fun call m => exists result, m = tool_message call result) calls results).
Proof.
  induction calls as [|c calls IH]; cbn [call_tools]; [apply yields_mret; constructor|].
  apply yields_then. intros result. eapply yields_bind; [exact IH|]. intros rest Hrest. apply yields_mret.
  constructor; [by exists result|done].
Qed.
(** What the model is asked, and when *)
Definition in_conversation (limit : nat) (body : string) (h : hist_of) (a : act_of) : Prop :=
  match a with
  | Complete _ ms _ => conversation system_prompt body ms /\ (asked h < limit)%nat
  | _ => True
  end.
Lemma silent_in_conversation limit body h a : silent a -> in_conversation limit body h a.
Proof. by destruct a. Qed.
Lemma llm_turns_conversation n limit body ms h :
  conversation system_prompt body ms -> (asked h + n <= limit)%nat ->
  wp (in_conversation limit body) (llm_turns model tools answered call_tool n ms) h (fun _ _ => True).
Proof.
  revert ms h. induction n as [|n IH]; intros ms h Hms Hn; [done|]. cbn [llm_turns]. apply wp_bind. split; [split; [done|lia]|].
  intros [c|e]; [|done]. cbn [wp].
  set (h1 := Ev (Complete model ms tools : act_of) (Ok c : result (@answer E (Complete model ms tools))) :: h).
  assert (asked h1 = S (asked h)) as Hh1 by done. clearbody h1.
  apply wp_bind. eapply wp_only; [apply answered_silent|intros ? ?; apply silent_in_conversation|].
  intros evs [[]|e] Hevs _; [|done]. assert (asked (evs ++ h1) = S (asked h)) as Hh2 by (rewrite asked_app, asked_silent; done).
  destruct (cm_tool_calls c) as [|call calls] eqn:Ec; [done|].
  apply wp_bind.
  apply (wpo_only_yields silent (fun results => Forall2 (fun call m => exists result, m = tool_message call result) (call :: calls) results)).
  - apply call_tools_silent.
  - apply call_tools_results.
  - intros ? ?. apply silent_in_conversation.
  - intros evs' results Hevs' _ Hres. apply IH; [|rewrite asked_app, asked_silent; [lia|done]].
    apply conversation_turn; [done|by rewrite Ec|by rewrite Ec].
Qed.
End llm.

(** ** Composition *)
Section compose.
Context {E : Effect}.
Implicit Types h : @hist E.

Lemma wp_both {A} G G' (p : prog A) h Q Q' :
  wp G p h Q -> wp G' p h Q' -> wp (fun h a => G h a /\ G' h a) p h (fun h r => Q h r /\ Q' h r).
Proof.
  revert h. induction p as [r|a k IH|]; intros h; simpl; [done| |done].
  intros [Hg Hk] [Hg' Hk']. split; [done|]. intros r. by apply IH.
Qed.
(** What stays true of longer histories holds at every action. *)
Lemma wp_stays {A} (K : @hist E -> Prop) (p : prog A) h :
  (forall e h, K h -> K (e :: h)) -> K h -> wp (fun h _ => K h) p h (fun h _ => K h).
Proof.
  intros HK. revert h. induction p as [r|a k IH|]; intros h Hh; simpl; [done| |done].
  split; [done|]. intros r. apply IH, HK, Hh.
Qed.
Lemma wp_any {A} G (p : prog A) h Q : wp G p h Q -> wp G p h (fun _ _ => True).
Proof. intros Hp. by eapply wp_post. Qed.
End compose.
Section wait.
Context {F M X : Type} {XA : X -> Type}.
Abbreviation E' := (agent_effect (F := F) (M := M) (XA := XA)).
Lemma wp_wait_for {A} G tag (p : @prog E' A) h :
  wp G p h (fun _ _ => True) -> wp G (wait_for tag p) h (fun _ _ => True).
Proof.
  intros Hp. apply wp_pbind. eapply wp_post; [exact Hp|]. intros h' [a|e] _; [done|]. by case_bool_decide.
Qed.
Lemma only_wait_for {A} P tag (p : @prog E' A) : only P p -> only P (wait_for tag p).
Proof. intros Hp h. by apply wp_wait_for. Qed.
End wait.

(** ** A message *)
Section message.
Context {F : Type} `{PyFloat F} {M : Type} `{!AgentMemory F M} {X : Type} {XA : X -> Type}.
#[local] Abbreviation E := (agent_effect (F := F) (M := M) (XA := XA)).
#[local] Abbreviation act_t := (@action E).
#[local] Abbreviation prog_t := (@prog E).

Lemma llm_turns_only (P : act_t -> Prop) (answered : prog_t unit) call_tool model tools n ms :
  (forall ms, P (Complete model ms tools : act_t)) -> only P answered -> (forall name raw, only P (call_tool name raw)) ->
  only P (llm_turns model tools answered call_tool n ms).
Proof.
  intros HP Ha Ht. revert ms. induction n as [|n IH]; intros ms; cbn [llm_turns]; [apply only_ret|].
  apply only_bind; [by apply only_act|]. intros c. apply only_bind; [exact Ha|]. intros _.
  assert (forall calls, only P (call_tools call_tool calls)) as Hcalls.
  { induction calls as [|call calls IHc]; cbn [call_tools]; [apply only_ret|]. apply only_bind; [apply Ht|]. intros result.
    apply only_bind; [exact IHc|]. intros rest. apply only_ret. }
  destruct (cm_tool_calls c) as [|call calls]; [apply only_ret|]. apply only_bind; [apply Hcalls|]. intros results. apply IH.
Qed.

(** A message is handled between steps that are all of one kind [P], such as to mark it as
    read: what a guard says of the handling and of the answer holds of the whole task. *)
Section guard.
Variables (room prefix : string) (redact : string -> prog_t string) (handle : string -> string -> prog_t string).
Variable P : act_t -> Prop.
Hypothesis P_message_at : P (Atomic (fun t (m : M) => (tt, set_last_message_at t m))).
Hypothesis P_reply_at : P (Atomic (fun t (m : M) => (tt, set_last_reply_at t m))).
Hypothesis P_marks : forall event, P (ReadMarkers room event : act_t).
Hypothesis P_typing : forall on, P (Typing room on : act_t).
Lemma begin_feedback_only event : only P (_begin_feedback room event : prog_t unit).
Proof using P_marks P_typing. apply only_suppress. apply only_bind; [by apply only_act|]. intros _. by apply only_act. Qed.
Lemma end_feedback_only : only P (_end_feedback room : prog_t unit).
Proof using P_typing. apply only_suppress. by apply only_act. Qed.
Lemma process_message_guard (G : @hist E -> act_t -> Prop) sender body event :
  (forall h a, P a -> G h a) ->
  (forall h text, wp G (_send room redact text) h (fun _ _ => True)) ->
  (forall evs, Forall (fun e => P (ev_action e)) evs -> wp G (handle sender body) evs (fun _ _ => True)) ->
  wp G (_process_message room redact handle prefix sender body event) [] (fun _ _ => True).
Proof using P_message_at P_reply_at P_marks P_typing.
  intros HG Hsend Hh. unfold _process_message.
  assert (forall A (p : prog_t A) h, only P p -> wp G p h (fun _ _ => True)) as HP.
  { intros A p h Hp. eapply wp_mono; [|done|apply Hp]. auto. }
  apply wp_bind. eapply wp_only; [by apply only_act|exact HG|]. intros evs [[]|e] Hevs _; [|done].
  apply wp_bind. eapply wp_only; [apply begin_feedback_only|exact HG|]. intros evs' [[]|e] Hevs' _; [|done].
  apply wp_bind. eapply wp_post with (Q := fun _ _ => True).
  - apply wp_finally. apply wp_pbind. eapply wp_post.
    { apply wp_wait_for. rewrite app_nil_r. apply Hh. by apply Forall_app. }
    intros h r _. cbn [wp]. eapply wp_post; [apply HP, end_feedback_only|]. by intros h' [].
  - intros h [reply|e] _; [|done]. apply wp_bind. eapply wp_post; [apply Hsend|]. intros h' [[]|e] _; [by apply HP, only_act|done].
Qed.
Lemma process_message_only sender body event :
  (forall content, P (RoomSend room content : act_t)) -> (forall text, only P (redact text)) -> only P (handle sender body) ->
  only P (_process_message room redact handle prefix sender body event).
Proof using P_message_at P_reply_at P_marks P_typing.
  intros Hs Hr Hh. unfold _process_message. apply only_bind; [by apply only_act|]. intros _.
  apply only_bind; [apply begin_feedback_only|]. intros _. apply only_bind.
  - apply only_finally; [|apply end_feedback_only]. apply only_pbind; [by apply only_wait_for|]. intros r. apply only_ret.
  - intros reply. apply only_bind; [|intros _; by apply only_act]. apply only_bind; [apply Hr|]. intros text. by apply only_act.
Qed.
End guard.
End message.
