(* ===== verification/TgAgent.v ===== *)
(** * Telegram admin agent: state, session and login

    telegram_admin_agent/__main__.py: the settings, the memory of the process, the view of
    the synchronisation daemon that shares the session file ([SyncService]), and
    [TelegramAuth], which drives a login in steps.

    The lock of [TelegramAuth] is two actions. A client of the Telegram library is a number;
    the actions on it are what the library does. *)

From stdpp Require Import base option list strings.
From Stdlib Require Import ZArith Lia Ascii.
From S2P Require Import Prelude PyStr PyFloat Json Regex Effects AdminCore.

Local Open Scope Z_scope.
Local Open Scope py_scope.

(** ** Settings *)

Record settings := {
  sg_tg_api_id : Z;
  sg_tg_api_hash : string;
  sg_tg_phone : string;
  sg_tg_session_path : string;
  sg_sync_health_url : string;
  sg_control_dir : string;
  sg_matrix_homeserver_url : string;
  sg_matrix_user_id : string;
  sg_matrix_password : string;
  sg_matrix_room_id : string;
  sg_matrix_admin_mxids : list string;
  sg_llm_base_url : string;
  sg_llm_api_key : string;
  sg_llm_model : string;
  sg_egress_canary : string;
  sg_health_http_addr : string;
  sg_response_timeout_seconds : Z;
  sg_llm_timeout_seconds : Z;
  sg_matrix_ssl_verify : bool;
  sg_announce_on_start : bool;
  sg_require_mention : bool;
  sg_mention_aliases : list string;
}.
Definition load (env : odict string) : result settings :=
  let get name d := _env env name d false in
  let need name := _env env name EmptyString true in
  api_id ← int_env env "TG_API_ID" EmptyString true;
  api_hash ← need "TG_API_HASH"%string;
  phone ← get "TG_PHONE"%string EmptyString;
  session_path ← get "TG_SESSION_PATH" "/data/telegram_session"%string;
  health_url ← get "SYNC_HEALTH_URL" "http://telegram-sync:8082/health"%string;
  control_dir ← get "CONTROL_DIR" "/control"%string;
  homeserver ← need "MATRIX_HOMESERVER_URL"%string;
  user_id ← need "MATRIX_USER_ID"%string;
  password ← need "MATRIX_PASSWORD"%string;
  room_id ← need "MATRIX_ROOM_ID"%string;
  admins ← get "MATRIX_ADMIN_MXIDS"%string EmptyString;
  base_url ← get "LLM_BASE_URL"%string EmptyString;
  api_key ← get "LLM_API_KEY"%string EmptyString;
  model ← get "LLM_MODEL"%string EmptyString;
  canary ← get "EGRESS_CANARY" "1.1.1.1:443"%string;
  health_addr ← get "HEALTH_HTTP_ADDR" "0.0.0.0:9100"%string;
  response_timeout ← int_env env "RESPONSE_TIMEOUT_SECONDS" "60" false;
  llm_timeout ← int_env env "LLM_TIMEOUT_SECONDS" "25" false;
  aliases ← get "MATRIX_MENTION_ALIASES"%string EmptyString;
  Ok {| sg_tg_api_id := api_id; sg_tg_api_hash := api_hash; sg_tg_phone := phone; sg_tg_session_path := session_path;
        sg_sync_health_url := rstrip_char "/" health_url; sg_control_dir := control_dir;
        sg_matrix_homeserver_url := rstrip_char "/" homeserver; sg_matrix_user_id := user_id;
        sg_matrix_password := password; sg_matrix_room_id := room_id; sg_matrix_admin_mxids := _csv admins;
        sg_llm_base_url := base_url; sg_llm_api_key := api_key; sg_llm_model := model; sg_egress_canary := canary;
        sg_health_http_addr := health_addr; sg_response_timeout_seconds := response_timeout;
        sg_llm_timeout_seconds := llm_timeout; sg_matrix_ssl_verify := _bool_env env "MATRIX_SSL_VERIFY" true;
        sg_announce_on_start := _bool_env env "ANNOUNCE_ON_START" false;
        sg_require_mention := _bool_env env "MATRIX_REQUIRE_MENTION" true; sg_mention_aliases := _csv aliases |}.
Definition llm_enabled (s : settings) : bool :=
  non_empty (sg_llm_base_url s) && non_empty (sg_llm_api_key s) && non_empty (sg_llm_model s).

(** ** The memory of the process *)

Definition client : Type := nat.
Inductive login_phase := PhaseCode | PhasePassword.
Definition phase_name (p : login_phase) : string := match p with PhaseCode => "code" | PhasePassword => "password" end.
#[export] Instance login_phase_eq_dec : EqDecision login_phase.
Proof. solve_decision. Defined.

Section agent.
Context {F : Type} `{PyFloat F}.
Abbreviation row := (odict (json F)).

Record pending_login := {
  pl_client : client;
  pl_phone : string;
  pl_phone_code_hash : string;
  pl_created_at : F;
  pl_phase : login_phase;
}.
Definition with_phase (p : login_phase) (l : pending_login) : pending_login :=
  {| pl_client := pl_client l; pl_phone := pl_phone l; pl_phone_code_hash := pl_phone_code_hash l;
     pl_created_at := pl_created_at l; pl_phase := p |}.
Record pending_action := { pa_token : string; pa_action : string; pa_created_at : F }.

(** [RuntimeState], [TelegramAuth._pending] and [Bot._pending] *)
Record memory := {
  mm_started_at : F;
  mm_matrix_logged_in : bool;
  mm_room_joined : bool;
  mm_egress_locked : bool;
  mm_llm_ok : option bool;
  mm_tg_authorized : option bool;
  mm_last_error : string;
  mm_last_message_at : F;
  mm_last_reply_at : F;
  mm_runtime_secrets : list string;
  mm_login : option pending_login;
  mm_actions : odict pending_action;
}.
Definition set_state (last_error : string) (logged_in joined : bool) (message_at reply_at : F) (m : memory) : memory :=
  {| mm_started_at := mm_started_at m; mm_matrix_logged_in := logged_in; mm_room_joined := joined;
     mm_egress_locked := mm_egress_locked m; mm_llm_ok := mm_llm_ok m; mm_tg_authorized := mm_tg_authorized m;
     mm_last_error := last_error; mm_last_message_at := message_at; mm_last_reply_at := reply_at;
     mm_runtime_secrets := mm_runtime_secrets m; mm_login := mm_login m; mm_actions := mm_actions m |}.
#[global] Instance telegram_memory : AgentMemory F memory := {
  set_last_error e m := set_state e (mm_matrix_logged_in m) (mm_room_joined m) (mm_last_message_at m) (mm_last_reply_at m) m;
  set_matrix_logged_in m := set_state (mm_last_error m) true (mm_room_joined m) (mm_last_message_at m) (mm_last_reply_at m) m;
  set_room_joined m := set_state (mm_last_error m) (mm_matrix_logged_in m) true (mm_last_message_at m) (mm_last_reply_at m) m;
  set_last_message_at t m := set_state (mm_last_error m) (mm_matrix_logged_in m) (mm_room_joined m) t (mm_last_reply_at m) m;
  set_last_reply_at t m := set_state (mm_last_error m) (mm_matrix_logged_in m) (mm_room_joined m) (mm_last_message_at m) t m;
}.
Definition set_probes (locked : bool) (llm authorized : option bool) (m : memory) : memory :=
  {| mm_started_at := mm_started_at m; mm_matrix_logged_in := mm_matrix_logged_in m; mm_room_joined := mm_room_joined m;
     mm_egress_locked := locked; mm_llm_ok := llm; mm_tg_authorized := authorized; mm_last_error := mm_last_error m;
     mm_last_message_at := mm_last_message_at m; mm_last_reply_at := mm_last_reply_at m;
     mm_runtime_secrets := mm_runtime_secrets m; mm_login := mm_login m; mm_actions := mm_actions m |}.
Definition set_egress_locked (b : bool) (m : memory) : memory := set_probes b (mm_llm_ok m) (mm_tg_authorized m) m.
Definition set_llm_ok (b : option bool) (m : memory) : memory := set_probes (mm_egress_locked m) b (mm_tg_authorized m) m.
Definition set_tg_authorized (b : bool) (m : memory) : memory := set_probes (mm_egress_locked m) (mm_llm_ok m) (Some b) m.
Definition set_private (secrets : list string) (login : option pending_login) (actions : odict pending_action) (m : memory)
    : memory :=
  {| mm_started_at := mm_started_at m; mm_matrix_logged_in := mm_matrix_logged_in m; mm_room_joined := mm_room_joined m;
     mm_egress_locked := mm_egress_locked m; mm_llm_ok := mm_llm_ok m; mm_tg_authorized := mm_tg_authorized m;
     mm_last_error := mm_last_error m; mm_last_message_at := mm_last_message_at m; mm_last_reply_at := mm_last_reply_at m;
     mm_runtime_secrets := secrets; mm_login := login; mm_actions := actions |}.
Definition set_login (l : option pending_login) (m : memory) : memory := set_private (mm_runtime_secrets m) l (mm_actions m) m.
Definition add_secret (s : string) (m : memory) : memory :=
  set_private (mm_runtime_secrets m ++ [s]) (mm_login m) (mm_actions m) m.
Definition set_actions (d : odict pending_action) (m : memory) : memory := set_private (mm_runtime_secrets m) (mm_login m) d m.

(** ** Actions of its own *)

Record tg_user := { us_id : json F; us_username : json F; us_first_name : json F }.
Record sent_code := { sc_phone_code_hash : string; sc_type : option string }.
Inductive taction :=
  | LockAuth | UnlockAuth
  | PauseExists | WritePause (text : string) | RemovePause
  | ReadFile (path : string)
  | GetHealth (url : string)
  | NewClient (session_path : string) (api_id : Z) (api_hash : string)
  | Connect (c : client) | Disconnect (c : client) | IsAuthorized (c : client) | GetMe (c : client)
  | SendCode (c : client) (phone : string)
  | SignInCode (c : client) (phone code phone_code_hash : string)
  | SignInPassword (c : client) (password : string)
  | LogOut (c : client)
  | RemoveFile (path : string)
  | ListModels
  | OpenConnection (host : string) (port : Z)
  | StageAction (sender token action : string)
  | TakeAction (sender token : string).
(** A file that cannot be opened is [None]; a file to remove may not be there. The two blocks
    on the staged actions have names, so that a log shows them, and answer with their time; a
    token that is taken gives the action, any other a reply. *)
Definition tanswer (a : taction) : Type :=
  match a with
  | PauseExists | IsAuthorized _ => bool
  | ReadFile _ => option string
  | GetHealth _ => json F
  | NewClient _ _ _ => client
  | GetMe _ => option tg_user
  | SendCode _ _ => sent_code
  | SignInCode _ _ _ _ | SignInPassword _ _ => tg_user
  | StageAction _ _ _ => F
  | TakeAction _ _ => F * (string + string)
  | _ => unit
  end.
#[global] Instance telegram_effect : Effect := agent_effect (F := F) (M := memory) (XA := tanswer).
Abbreviation prog := (@prog telegram_effect).
Abbreviation ask a := (@act telegram_effect a).
Definition tg (a : taction) : prog (tanswer a) := own (XA := tanswer) a.

Variable sg : settings.

(** ** [SyncService] *)

(** The lines of a text file *)
Definition file_lines (text : string) : list string := split_char LF (smap (fun c => if eqc c CR then LF else c) text).
(** [os.path.join] *)
Definition path_join (a b : string) : string :=
  if bool_decide (a = EmptyString) then b else if endswith "/" a then a +:+ b else a +:+ "/" +:+ b.
Definition paused : prog bool := tg PauseExists.
Definition wrapper_status : prog string :=
  text ← tg (ReadFile (path_join (sg_control_dir sg) "status"));
  mret (match text with Some text => strip text | None => "unknown (no status file yet)"%string end).
Definition provision_status : prog string :=
  text ← tg (ReadFile (path_join (sg_control_dir sg) "pg-provision.status"));
  mret (match text with
        | Some text => default "no entries"%string (list.last (filter non_empty (map strip (file_lines text))))
        | None => "unknown (no provision status yet)"%string
        end).
Definition health : prog row :=
  try_ (payload ← tg (GetHealth (sg_sync_health_url sg));
        d ← PRet (mapping payload);
        mret (dupdate [("reachable", JBool true)]%string d))
       (fun e => mret [("reachable", JBool false); ("error", JStr (exn_text e))]%string).
Definition pause : prog unit :=
  t ← now;
  seconds ← PRet (f_trunc t);
  tg (WritePause (str_of_Z seconds +:+ String LF EmptyString)).
(** [except FileNotFoundError: pass] *)
Definition unless_missing (p : prog unit) : prog unit :=
  pbind p (fun r => match r with
                    | Raise e => if is_class "FileNotFoundError" e then mret tt else PRet r
                    | Ok _ => PRet r
                    end).
Definition resume : prog unit := unless_missing (tg RemovePause).
Definition WAIT_SECONDS : Z := 60.
Definition is_paused_status (status : string) : bool := startswith "paused" status.
Definition row_ok (r : row) : bool := otruthy (dget "ok" r).
Fixpoint wait_paused (fuel : nat) (deadline : F) : prog row :=
  match fuel with
  | O => PHalt
  | S fuel =>
      t ← now;
      if f_ltb t deadline then
        status ← wrapper_status;
        if is_paused_status status
        then mret [("ok", JBool true); ("paused", JBool true); ("status", JStr status)]%string
        else
          ask (Sleep (f_lit 15 (-1)));;
          wait_paused fuel deadline
      else
        b ← paused;
        status ← wrapper_status;
        mret [("ok", JBool false); ("paused", JBool b); ("status", JStr status);
              ("error", JStr ("sync did not report paused within " +:+ str_of_Z WAIT_SECONDS +:+ "s"))]%string
  end.
Definition pause_and_wait (fuel : nat) : prog row :=
  pause;;
  start ← now;
  wait_paused fuel (f_add start (f_of_Z WAIT_SECONDS)).

(** ** [TelegramAuth] *)

Definition with_lock {A} (p : prog A) : prog A := tg LockAuth;; finally p (tg UnlockAuth).
Definition _new_client : prog client := tg (NewClient (sg_tg_session_path sg) (sg_tg_api_id sg) (sg_tg_api_hash sg)).
Definition _drop_pending : prog unit :=
  login ← read mm_login;
  match login with
  | Some l => suppress (tg (Disconnect (pl_client l)));; update (set_login None)
  | None => mret tt
  end.
Definition phase_text (t : F) (login : option pending_login) : result string :=
  match login with
  | None => Ok EmptyString
  | Some l =>
      age ← f_trunc (f_sub t (pl_created_at l));
      Ok (phase_name (pl_phase l) +:+ " (started " +:+ str_of_Z age +:+ "s ago)")
  end.
Definition pending_phase : prog string := atomic (fun t m => (phase_text t (mm_login m), m)).
Definition user_json (u : tg_user) : json F :=
  JObj [("id", us_id u); ("username", us_username u); ("first_name", us_first_name u)]%string.
Definition unknown_auth (out : row) (e : exn) : row := dset "error" (JStr (exn_text e)) (dset "authorized" JNull out).
(** The session is asked through a client of its own. *)
Definition ask_session (out : row) : prog row :=
  c ← _new_client;
  finally
    (try_ (tg (Connect c);;
           authorized ← tg (IsAuthorized c);
           let out := dset "authorized" (JBool authorized) out in
           if authorized : bool then
             me ← tg (GetMe c);
             mret (match me with Some me => dset "user" (user_json me) out | None => out end)
           else mret out)
          (fun e => mret (unknown_auth out e)))
    (suppress (tg (Disconnect c))).
Definition status_of (out : row) (health : row) : prog row :=
  login ← read mm_login;
  match login with
  | Some l =>
      try_ (authorized ← tg (IsAuthorized (pl_client l)); mret (dset "authorized" (JBool authorized) out))
           (fun e => mret (unknown_auth out e))
  | None =>
      if otruthy (dget "reachable" health) && otruthy (dget "connected" health)
      then mret (dset "authorized" (JBool true) out)
      else
        current ← wrapper_status;
        if is_paused_status current then ask_session out
        else
          mret (dset "authorized"
                  (match dget "sync_status" out with
                   | Some (JStr s) => if contains "waiting-auth" s then JBool false else JNull
                   | _ => JNull
                   end) out)
  end.
Definition status : prog row :=
  with_lock
    (b ← paused;
     current ← wrapper_status;
     phase ← pending_phase;
     h ← health;
     out ← status_of [("sync_paused", JBool b); ("sync_status", JStr current); ("pending_login", str_or_null phase);
                      ("sync_health", JObj h)]%string h;
     (match dget "authorized" out with Some (JBool b) => update (set_tg_authorized b) | _ => mret tt end);;
     mret out).

Definition already_authorized : row :=
  [("ok", JBool true); ("already_authorized", JBool true);
   ("note", JStr "session is already authorized; sync resumed. Use `!tg logout` first to re-auth.")]%string.
Definition code_sent (phone : string) (sent : sent_code) : row :=
  [("ok", JBool true); ("code_sent", JBool true); ("phone", JStr phone);
   ("via", JStr (default "unknown" (sc_type sent)));
   ("note", JStr "reply with `!tg code <code>` (sync stays paused until login finishes or `!tg cancel`)")]%string.
Definition not_ok (paused : row) : row := dupdate [("ok", JBool false)]%string paused.
Definition begin_login (fuel : nat) (phone : string) : prog row :=
  let phone := strip (if bool_decide (phone = EmptyString) then sg_tg_phone sg else phone) in
  if bool_decide (phone = EmptyString)
  then mret (error_row "no phone number: pass one, e.g. `!tg login +15551234567`")
  else
    with_lock
      (_drop_pending;;
       paused ← pause_and_wait fuel;
       if negb (row_ok paused) then resume;; mret (not_ok paused)
       else
         c ← _new_client;
         sent ← try_ (tg (Connect c);;
                      authorized ← tg (IsAuthorized c);
                      if authorized : bool then
                        tg (Disconnect c);;
                        resume;;
                        update (set_tg_authorized true);;
                        mret (inl already_authorized)
                      else sent ← tg (SendCode c phone); mret (inr sent))
                     (fun e => suppress (tg (Disconnect c));; resume;; mret (inl (error_row (exn_text e))));
         match sent with
         | inl r => mret r
         | inr sent =>
             update_at (fun t => set_login (Some {| pl_client := c; pl_phone := phone;
               pl_phone_code_hash := sc_phone_code_hash sent; pl_created_at := t; pl_phase := PhaseCode |}));;
             mret (code_sent phone sent)
         end).

Definition _finish_login (me : tg_user) : prog row :=
  _drop_pending;;
  resume;;
  update (set_tg_authorized true);;
  mret [("ok", JBool true); ("authorized", JBool true); ("user", user_json me);
        ("note", JStr "session saved; sync resumed and will backfill shortly")]%string.
Definition no_login : row := error_row "no login in progress — start with `!tg login [phone]`".
Definition needs_password : row :=
  [("ok", JBool true); ("needs_password", JBool true);
   ("note", JStr "two-step verification is on — reply with `!tg password <password>` (deterministic command; it never reaches the LLM)")]%string.
Definition code_refused (e : exn) : prog row :=
  if is_class "SessionPasswordNeededError" e then
    update (fun m => set_login (with_phase PhasePassword <$> mm_login m) m);;
    mret needs_password
  else if is_class "PhoneCodeInvalidError" e then
    mret (error_row "invalid code — try `!tg code <code>` again")
  else if is_class "PhoneCodeExpiredError" e then
    _drop_pending;;
    resume;;
    mret (error_row "code expired — start over with `!tg login`")
  else mret (error_row (exn_text e)).
Definition CODE_BLANKS : re := literal false "[\s-]".
Definition submit_code (code : string) : prog row :=
  let code := resub CODE_BLANKS (fun _ => EmptyString) code in
  if bool_decide (code = EmptyString) then mret (error_row "empty code")
  else
    with_lock
      (login ← read mm_login;
       match login with
       | None => mret no_login
       | Some l =>
           if negb (bool_decide (pl_phase l = PhaseCode))
           then mret (error_row "a 2FA password is expected now: `!tg password <password>`")
           else
             update (add_secret code);;
             me ← attempt (tg (SignInCode (pl_client l) (pl_phone l) code (pl_phone_code_hash l)));
             match me with
             | Ok me => _finish_login me
             | Raise e => code_refused e
             end
       end).
Definition submit_password (password : string) : prog row :=
  if bool_decide (password = EmptyString) then mret (error_row "empty password")
  else
    with_lock
      (login ← read mm_login;
       match login with
       | None => mret no_login
       | Some l =>
           if negb (bool_decide (pl_phase l = PhasePassword))
           then mret (error_row "no 2FA password expected right now")
           else
             update (add_secret password);;
             me ← attempt (tg (SignInPassword (pl_client l) password));
             match me with
             | Ok me => _finish_login me
             | Raise e => mret (error_row (exn_text e +:+ " — retry `!tg password <password>`"))
             end
       end).

Definition logout (fuel : nat) : prog row :=
  with_lock
    (_drop_pending;;
     paused ← pause_and_wait fuel;
     if negb (row_ok paused) then resume;; mret (not_ok paused)
     else
       c ← _new_client;
       note ← try_ (tg (Connect c);;
                    authorized ← tg (IsAuthorized c);
                    if authorized : bool then
                      tg (LogOut c);;
                      mret (inr "logged out; the server-side session is revoked"%string)
                    else
                      suppress (tg (Disconnect c));;
                      mret (inr "session was not authorized; nothing to revoke"%string))
                   (fun e => suppress (tg (Disconnect c));; mret (inl (error_row (exn_text e))));
       match note with
       | inl r => mret r
       | inr note =>
           each [".session"; ".session-journal"]%string
             (fun suffix => unless_missing (tg (RemoveFile (sg_tg_session_path sg +:+ suffix))));;
           update (set_tg_authorized false);;
           mret [("ok", JBool true); ("logged_out", JBool true);
                 ("note", JStr (note +:+ "; sync left PAUSED — `!tg login` to re-auth"))]%string
       end).
Definition cancel_login : prog row :=
  with_lock
    (login ← read mm_login;
     _drop_pending;;
     resume;;
     mret [("ok", JBool true); ("cancelled", JBool (match login with Some _ => true | None => false end));
           ("note", JStr "sync resumed")]%string).
End agent.
