(* ===== verification/TgBot.v ===== *)
(** * Telegram admin agent: commands, the model, and the health endpoint

    telegram_admin_agent/__main__.py: class [Llm], the commands of class [Bot], the formats
    of its answers, the probes and the health endpoint; and the process as tasks that share
    a memory, one per message. *)

From stdpp Require Import base option list strings.
From Stdlib Require Import ZArith Lia Ascii.
From S2P Require Import Prelude PyStr PyFloat Json Regex Effects AdminFormat AdminCore TgAgent.

Local Open Scope Z_scope.
Local Open Scope py_scope.

Section bot.
Context {F : Type} `{PyFloat F}.
Abbreviation row := (odict (json F)).
Abbreviation prog := (@prog (@telegram_effect F)).
Abbreviation ask a := (@act (@telegram_effect F) a).
Variable sg : settings.

(** ** Formats *)

(** [json.dumps(value, indent=2)] *)
Fixpoint dumps_indent (pad : string) (j : json F) : string :=
  let pad' := pad +:+ "  " in
  let sep := "," +:+ newline +:+ pad' in
  match j with
  | JArr ((_ :: _) as l) =>
      "[" +:+ newline +:+ pad' +:+ join sep (map (dumps_indent pad') l) +:+ newline +:+ pad +:+ "]"
  | JObj ((_ :: _) as d) =>
      "{" +:+ newline +:+ pad' +:+ join sep (map (fun kv => quote kv.1 +:+ ": " +:+ dumps_indent pad' kv.2) d) +:+
      newline +:+ pad +:+ "}"
  | j => dumps j
  end.
Definition auth_text (auth : json F) : string :=
  match auth with JBool true => "AUTHORIZED" | JBool false => "NOT authorized" | _ => "unknown" end.
(** [name (@username, id id)] *)
Definition account_text (user : row) : string :=
  get_text "first_name" user +:+ " (@" +:+ get_text "username" user +:+ ", id " +:+ get_text "id" user +:+ ")".
Definition health_line (health : row) : string :=
  if otruthy (dget "reachable" health) then
    "Sync health: connected=" +:+ get_text "connected" health +:+ " chats=" +:+ get_text "chats" health +:+
    " messages=" +:+ get_text "messages" health +:+ " latest=" +:+ get_text "latest_message" health
  else "Sync health: unreachable (" +:+ json_str (default (JStr "?") (dget "error" health)) +:+ ")".
Definition or_empty_obj (j : json F) : result row := if truthy j then obj j else Ok [].
Definition format_status (status : row) : prog string :=
  user ← PRet (or_empty_obj (get "user" status));
  health ← PRet (or_empty_obj (get "sync_health" status));
  provision ← provision_status sg;
  mret (join newline
    (["Telegram session: " +:+ auth_text (get "authorized" status)] ++
     (if otruthy (dget "user" status) then ["Account: " +:+ account_text user] else []) ++
     (if otruthy (dget "pending_login" status) then ["Login in progress: awaiting " +:+ get_text "pending_login" status] else []) ++
     ["Sync daemon: " +:+ (if otruthy (dget "sync_paused" status) then "PAUSED"
                           else json_str (default (JStr "?") (dget "sync_status" status)));
      health_line health; "DB provision: " +:+ provision] ++
     (if otruthy (dget "error" status) then ["Error: " +:+ get_text "error" status] else [])))%list.
Definition has (k : string) (r : row) : bool := otruthy (dget k r).
Definition format_result (r : row) : result string :=
  if has "error" r && negb (has "ok" r) then Ok ("Failed: " +:+ get_text "error" r)
  else
    user ← (if has "authorized" r && has "user" r then obj (get "user" r) else Ok []);
    let note := default (JStr EmptyString) (dget "note" r) in
    let bits :=
      ((if has "code_sent" r
        then ["Login code sent to " +:+ get_text "phone" r +:+ " (via " +:+ get_text "via" r +:+ ")."] else []) ++
       (if has "needs_password" r then ["Code accepted — two-step verification password required."%string] else []) ++
       (if has "already_authorized" r then ["Already authorized."%string] else []) ++
       (if has "authorized" r && has "user" r then ["Logged in as " +:+ account_text user +:+ "."] else []) ++
       (if has "logged_out" r then ["Logged out."%string] else []) ++
       match get "cancelled" r with
       | JNull => []
       | c => [if truthy c then "Login cancelled." else "No login was in progress."]%string
       end ++
       (if has "paused" r then ["Sync paused."%string] else []) ++
       (if has "resumed" r then ["Sync resumed."%string] else []) ++
       (if truthy note then [json_str note] else []))%list in
    Ok (or_help (dumps (JObj r)) (join " " bits)).

(** ** Redaction *)

Definition known_secrets (runtime_secrets : list string) : list string :=
  [sg_matrix_password sg; sg_llm_api_key sg; sg_tg_api_hash sg] ++ runtime_secrets.
Definition redact (text : string) : prog string :=
  secrets ← read mm_runtime_secrets;
  mret (redact_all (known_secrets secrets) text).

(** ** Staged actions *)

Definition stage (sender token action : string) (t : F) (m : memory (F := F)) : memory :=
  set_actions (dset sender {| pa_token := token; pa_action := action; pa_created_at := t |} (mm_actions m)) m.
Definition stage_action (sender action : string) : prog row :=
  token ← ask TokenHex;
  tg (StageAction sender token action);;
  mret [("ok", JBool false); ("confirmation_required", JBool true); ("confirm_with", JStr ("confirm " +:+ token));
        ("action", JStr action)]%string.
Definition EXPIRES : F := f_of_Z 900.
(** The block of [_confirm] before its await: a reply, or the action that is now taken *)
Definition take (sender token : string) (t : F) (m : memory (F := F)) : (string + string) * memory :=
  match dget sender (mm_actions m) with
  | Some pending =>
      if bool_decide (pa_token pending = token) then
        let m := set_actions (dpop sender (mm_actions m)) m in
        if f_ltb EXPIRES (f_sub t (pa_created_at pending))
        then (inl "That pending action expired. Stage it again if still needed."%string, m)
        else (inr (pa_action pending), m)
      else (inl "No matching pending action for that confirmation token."%string, m)
  | None => (inl "No matching pending action for that confirmation token."%string, m)
  end.

(** ** [Llm] *)

Variable fuel : nat.

Definition probe : prog unit :=
  if llm_enabled sg then
    try_ (tg ListModels;; update (set_llm_ok (Some true)))
         (fun e => update (fun m => set_last_error ("LLM probe failed: " +:+ exn_text e) (set_llm_ok (Some false) m)))
  else update (set_llm_ok None).
Definition _system_prompt : string :=
  "You are the Telegram-sync administrative agent on an AttestMesh node. " +:+
  "The node runs a headless daemon that syncs the operator's Telegram account " +:+
  "into Postgres; you manage its Telethon session: check auth state, run the " +:+
  "login flow (send code -> submit code -> maybe 2FA password), log out for " +:+
  "re-auth, and pause/resume the sync daemon. Login flow: tg_begin_login sends " +:+
  "a code to the operator's Telegram app/SMS; ask them for the code, then call " +:+
  "tg_submit_code. If two-step verification is enabled, tell the operator to " +:+
  "send `!tg password <password>` themselves — you have no password tool and " +:+
  "must never ask them to give the 2FA password to you in plain conversation. " +:+
  "Logging out revokes the session and interrupts syncing until re-auth, so it " +:+
  "is staged behind a confirmation token. Never reveal secrets, API hashes, " +:+
  "codes, passwords, or session contents. Keep answers concise.".
Definition _tools : list (json F) :=
  [tool "tg_status" "Auth + sync daemon status: authorized?, paused?, wrapper state, sync health/row counts." [] [];
   tool "tg_sync_health" "Raw health JSON from the sync daemon (connection state, chats/messages counts, last reconcile)." [] [];
   tool "tg_begin_login"
     "Start Telegram login: pauses sync and sends a login code to the phone (defaults to the configured one)."
     [("phone", JObj [("type", JStr "string"); ("description", JStr "phone number in international format, optional")])] [];
   tool "tg_submit_code" "Submit the login code the operator received from Telegram."
     [("code", JObj [("type", JStr "string")])] ["code"];
   tool "tg_logout" "Stage a logout (revokes the Telegram session). Returns a token the operator must confirm." [] [];
   tool "tg_cancel_login" "Abort an in-progress login and resume the sync daemon." [] [];
   tool "tg_pause_sync" "Pause the sync daemon (frees the session file)." [] [];
   tool "tg_resume_sync" "Resume the sync daemon." [] []]%string.
Definition resumed : row := [("ok", JBool true); ("resumed", JBool true)]%string.
Definition with_ok (r : row) : row := dupdate [("ok", JBool true)]%string r.
Definition dispatch (sender name : string) (args : json F) : prog row :=
  let named k := bool_decide (name = k) in
  if named "tg_status"%string then r ← status sg; mret (with_ok r)
  else if named "tg_sync_health"%string then r ← health sg; mret (with_ok r)
  else if named "tg_begin_login"%string then phone ← PRet (str_arg "phone" args); begin_login sg fuel phone
  else if named "tg_submit_code"%string then code ← PRet (str_arg "code" args); submit_code code
  else if named "tg_logout"%string then stage_action sender "logout"
  else if named "tg_cancel_login"%string then cancel_login
  else if named "tg_pause_sync"%string then pause_and_wait sg fuel
  else if named "tg_resume_sync"%string then resume;; mret resumed
  else mret (error_row ("unknown tool: " +:+ name)).
Definition _call_tool (sender name raw_args : string) : prog row :=
  or_error (args ← PRet (tool_args raw_args); dispatch sender name args).
Definition llm_handle (sender body : string) : prog string :=
  if llm_enabled sg
  then AdminCore.llm_handle (sg_llm_model sg) _system_prompt _tools (update (set_llm_ok (Some true))) (_call_tool sender) body
  else mret "LLM is not configured. Use `!tg status`, `!tg login`, `!tg code <code>`."%string.

(** ** [Bot] *)

Definition _on_message (room_id sender body : string) : option (string * string) :=
  let mentions := _mention_aliases (sg_matrix_user_id sg) (sg_mention_aliases sg) in
  if negb (bool_decide (room_id = sg_matrix_room_id sg)) then None
  else if bool_decide (sender = sg_matrix_user_id sg) then None
  else if negb (bool_decide (sender ∈ sg_matrix_admin_mxids sg)) then None
  else
    let body := strip body in
    if sg_require_mention sg then (fun b => (sender, b)) <$> strip_mention "!tg help" mentions body
    else Some (sender, body).

Definition _help_text : string :=
  "Telegram-sync admin. Auth: `!tg login [phone]` -> `!tg code <code>` " +:+
  "(-> `!tg password <2FA password>` if prompted). Re-auth: `!tg logout` " +:+
  "(staged; needs `confirm <token>`), then `!tg login`." +:+ newline +:+
  "Also: `!tg status`, `!tg health`, `!tg pause`, `!tg resume`, `!tg cancel`, " +:+
  "`!tg llm`. Free-text (not starting with `!tg`) goes to the LLM.".
Definition IndexError : exn := OtherError "IndexError" "list index out of range".
(** [body.split(word, 1)[1]] and [re.split("(?i)" + word, body, maxsplit=1)[1]] *)
Definition after_exactly (word body : string) : result string :=
  match partition word body with Some (_, b) => Ok b | None => Raise IndexError end.
Definition after_word (word body : string) : result string :=
  match re_search (literal true word) body with Some m => Ok (after (mt_end m)) | None => Raise IndexError end.
Definition BLANKS : re := literal false "\s+".
Definition lowered (body : string) : string := lower (strip (resub BLANKS (fun _ => " "%string) body)).
Definition _confirm (sender token : string) : prog string :=
  taken ← tg (TakeAction sender token);
  match taken.2 with
  | inl reply => mret reply
  | inr action =>
      if bool_decide (action = "logout"%string) then r ← logout sg fuel; PRet (format_result r)
      else mret ("Unknown staged action: " +:+ action)
  end.
Definition formatted (p : prog row) : prog string := r ← p; PRet (format_result r).
Definition PASSWORD_EXPECTED : string :=
  "A 2FA password is expected now. Reply `!tg password <password>` " +:+
  "(handled locally, never sent to the LLM) or `!tg cancel` to abort.".
(** The commands, and what is left for the model: [None] *)
Definition command (sender body : string) : prog (option string) :=
  let text := lowered body in
  let one_of l := bool_decide (text ∈ l) in
  let starts l := existsb (fun p => startswith p text) l in
  let reply (p : prog string) : prog (option string) := s ← p; mret (Some s) in
  if one_of ["!tg help"; "tg help"; "help"]%string then mret (Some _help_text)
  else if one_of ["!tg status"; "tg status"]%string then reply (r ← status sg; format_status r)
  else if one_of ["!tg health"; "tg health"]%string then
    reply (h ← health sg; mret ("```" +:+ newline +:+ stake 3000 (dumps_indent EmptyString (JObj h)) +:+ newline +:+ "```"))
  else if one_of ["!tg login"; "tg login"]%string || starts ["!tg login "; "tg login "]%string then
    reply (phone ← PRet (if contains "login" text then strip <$> after_exactly "login" body else Ok EmptyString);
           formatted (begin_login sg fuel phone))
  else if starts ["!tg code"; "tg code"]%string then
    reply (code ← PRet (strip <$> after_word "code" body); formatted (submit_code code))
  else if starts ["!tg password"; "tg password"]%string then
    reply (password ← PRet (strip <$> after_word "password" body); formatted (submit_password password))
  else if one_of ["!tg logout"; "tg logout"]%string then
    reply (staged ← stage_action sender "logout";
           mret ("Logout staged but not executed (it revokes the Telegram session and stops syncing " +:+
                 "until re-auth)." +:+ newline +:+ "Reply `" +:+ get_text "confirm_with" staged +:+
                 "` within 15 minutes to apply it."))
  else if one_of ["!tg cancel"; "tg cancel"]%string then reply (formatted cancel_login)
  else if one_of ["!tg pause"; "tg pause"]%string then reply (formatted (pause_and_wait sg fuel))
  else if one_of ["!tg resume"; "tg resume"]%string then reply (resume;; mret "Sync resumed."%string)
  else if one_of ["!tg llm"; "tg llm"]%string then
    reply (probe;;
           m ← read (fun m => m);
           mret ("LLM probe: " +:+ (match mm_llm_ok m with
                                    | Some true => "ok"
                                    | _ => "FAILED — " +:+ mm_last_error m
                                    end)))
  else
    phase ← pending_phase;
    if startswith "password" phase then mret (Some PASSWORD_EXPECTED)
    else if startswith "!tg" text then mret (Some ("Unrecognized command." +:+ newline +:+ _help_text))
    else mret None.
Definition LLM_TIMED_OUT : string := "The LLM request timed out. Direct commands like `!tg status` still work.".
Definition _handle (sender body : string) : prog string :=
  match confirmation body with
  | Some token => _confirm sender token
  | None =>
      r ← command sender body;
      match r with
      | Some reply => mret reply
      | None =>
          pbind (wait_for "llm" (llm_handle sender body))
            (fun r => match r with
                      | Raise e => if is_timeout e then mret LLM_TIMED_OUT else PRet r
                      | r => PRet r
                      end)
      end
  end.
Definition ERROR_PREFIX : string := "Telegram admin error: ".
Definition process (sender body event_id : string) : prog unit :=
  _process_message (sg_matrix_room_id sg) redact _handle ERROR_PREFIX sender body event_id.
Definition EMPTY_ALLOWLIST : string := "MATRIX_ADMIN_MXIDS empty — refusing all senders (misconfigured)".
Definition run : prog unit :=
  bot_run (sg_matrix_room_id sg) redact fuel (sg_matrix_password sg) "telegram-admin-agent"
    (if bool_decide (sg_matrix_admin_mxids sg = []) then update (set_last_error EMPTY_ALLOWLIST) else mret tt)
    (if sg_announce_on_start sg
     then Some "Telegram admin agent online. Use `!tg status` or just ask."%string else None).

(** ** Probes *)

Definition reachable_text : string := "egress NOT locked: canary " +:+ sg_egress_canary sg +:+ " reachable".
Definition canary_turn (host : string) (port : Z) : prog unit :=
  try_ (wait_for "canary" (tg (OpenConnection host port));;
        update (fun m => set_last_error reachable_text (set_egress_locked false m)))
       (fun _ => update (set_egress_locked true)).
Fixpoint canary_turns (n : nat) (host : string) (port : Z) : prog unit :=
  match n with
  | O => PHalt
  | S n => canary_turn host port;; ask (Sleep (f_of_Z 30));; canary_turns n host port
  end.
Definition egress_canary_loop : prog unit :=
  '(host, port) ← PRet (host_port (sg_egress_canary sg));
  canary_turns fuel host port.
Fixpoint probe_turns (n : nat) : prog unit :=
  match n with
  | O => PHalt
  | S n => probe;; ask (Sleep (f_of_Z 1800));; probe_turns n
  end.
Definition llm_probe_loop : prog unit := probe_turns fuel.

(** ** The health endpoint *)

Definition bool_or_null (b : option bool) : json F := match b with Some b => JBool b | None => JNull end.
Definition healthy (m : memory (F := F)) : bool := mm_matrix_logged_in m && mm_room_joined m && mm_egress_locked m.
Definition health_payload : prog (bool * row) :=
  ok ← (read healthy : prog bool);
  phase ← pending_phase;
  b ← paused;
  current ← wrapper_status sg;
  provision ← provision_status sg;
  t ← now;
  m ← (read (fun m => m) : prog memory);
  uptime ← PRet (f_trunc (f_sub t (mm_started_at m)));
  error ← redact (mm_last_error m);
  mret (ok,
        [("status", JStr (if ok : bool then "ok" else "starting")); ("matrix_logged_in", JBool (mm_matrix_logged_in m));
         ("room_joined", JBool (mm_room_joined m)); ("egress_locked", JBool (mm_egress_locked m));
         ("llm_configured", JBool (llm_enabled sg)); ("llm_ok", bool_or_null (mm_llm_ok m));
         ("tg_authorized", bool_or_null (mm_tg_authorized m)); ("pending_login", str_or_null phase);
         ("sync_paused", JBool b); ("sync_status", JStr current); ("pg_provision", JStr provision);
         ("uptime_s", JInt uptime); ("last_error", JStr error)]%string).
(** The answer to a request whose first line has these words *)
Definition health_response (words : list string) : prog string :=
  if negb (bool_decide (request_path words = "/healthz"%string)) then mret NOT_FOUND
  else '(ok, payload) ← health_payload; mret (http_response ok (dumps_sorted (JObj payload) +:+ newline)).

(** ** The process *)

(** A message of the room: its room, sender, text and event *)
Record message := { ms_room : string; ms_sender : string; ms_body : string; ms_event : string }.
Definition accepted (x : message) : option (string * string) := _on_message (ms_room x) (ms_sender x) (ms_body x).
(** The task of a message that is accepted *)
Definition message_task (x : message) : prog unit :=
  match accepted x with Some (sender, body) => process sender body (ms_event x) | None => mret tt end.
(** What an action does to the memory and the lock: a block runs at some time, the lock is
    taken when it is free, and the answers of everything else are free. *)
Abbreviation world := (memory (F := F) * bool)%type.
Definition allowed_own (s : world) (x : taction) : result (tanswer x) -> world -> Prop :=
  match x with
  | StageAction sender token action => fun r s' =>
      exists t, r = Ok t /\ s' = (stage sender token action t s.1, s.2)
  | TakeAction sender token => fun r s' =>
      exists t, r = Ok (t, (take sender token t s.1).1) /\ s' = ((take sender token t s.1).2, s.2)
  | LockAuth => fun r s' =>
      match r with Ok _ => s.2 = false /\ s' = (s.1, true) | Raise _ => s' = s end
  | UnlockAuth => fun r s' => r = Ok tt /\ s' = (s.1, false)
  | _ => fun _ s' => s' = s
  end.
Definition allowed (s : world) (a : @action (@telegram_effect F)) : result (answer a) -> world -> Prop :=
  match a with
  | Atomic f => fun r s' => exists t, r = Ok (f t s.1).1 /\ s' = ((f t s.1).2, s.2)
  | Own x => allowed_own s x
  | _ => fun _ s' => s' = s
  end.
End bot.
