(* ===== verification/TgFacts.v ===== *)
(** * Telegram admin agent: theorems

    What reaches the model, what the room is told, who can log the session out, and when
    the session file is opened. *)

From stdpp Require Import base option list strings.
From Stdlib Require Import ZArith Lia Ascii.
From S2P Require Import Prelude PyStr StrFacts PyFloat Json Regex Effects AdminFormat AdminCore.
From S2P Require Import TgAgent TgBot.

Local Open Scope Z_scope.

Section facts.
Context {F : Type} `{PyFloat F}.
Abbreviation row := (odict (json F)).
Abbreviation prog := (@prog (@telegram_effect F)).
Abbreviation act_t := (@action (@telegram_effect F)).
Abbreviation hist_t := (@hist (@telegram_effect F)).
Variable sg : settings.
Variable fuel : nat.

(** ** What the commands do not do *)

(** Neither asks the model nor writes to the room nor logs the session out nor takes a staged
    action, and leaves the staged actions as they are *)
Definition calm (a : act_t) : Prop :=
  match a with
  | Complete _ _ _ | RoomSend _ _ | Own (LogOut _) | Own (TakeAction _ _) => False
  | Atomic f => forall t m, mm_actions (f t m).2 = mm_actions m
  | _ => True
  end.
Lemma calm_silent (a : act_t) : calm a -> silent a.
Proof. by destruct a. Qed.
Lemma calm_mono {A} (p : prog A) : only calm p -> only silent p.
Proof. apply only_mono, calm_silent. Qed.
Ltac calm_auto := repeat first [solve [auto with effects] | only_step | apply only_act; exact I | apply only_pbind; [|intros ?; cbv beta]]; try done.

Lemma own_calm a : calm (Own a) -> only calm (tg (F := F) a).
Proof. apply only_act. Qed.
Lemma read_calm {B} (f : memory (F := F) -> B) : only calm (read f : prog B).
Proof. by apply only_act. Qed.
Lemma update_calm f : (forall m, mm_actions (f m) = mm_actions m) -> only calm (update f : prog unit).
Proof. intros Hf. apply only_act. intros t m. apply Hf. Qed.
Lemma update_at_calm f : (forall t m, mm_actions (f t m) = mm_actions m) -> only calm (update_at f : prog unit).
Proof. intros Hf. apply only_act. intros t m. apply Hf. Qed.
Lemma now_calm : only calm (now : prog F).
Proof. by apply only_act. Qed.
Lemma atomic_calm {B} (f : F -> memory (F := F) -> result B * memory) :
  (forall t m, mm_actions (f t m).2 = mm_actions m) -> only calm (atomic f : prog B).
Proof. intros Hf. apply only_bind; [by apply only_act|intros; apply only_ret]. Qed.
Lemma unless_missing_calm (p : prog unit) : only calm p -> only calm (unless_missing p).
Proof.
  intros Hp. apply only_pbind; [exact Hp|]. intros [u|e]; [apply only_ret|]. destruct (is_class _ e); apply only_ret.
Qed.

#[local] Hint Resolve own_calm read_calm now_calm unless_missing_calm : effects.
#[local] Hint Extern 1 (only calm (update _)) => (apply update_calm; reflexivity) : effects.
#[local] Hint Extern 1 (only calm (update_at _)) => (apply update_at_calm; reflexivity) : effects.
#[local] Hint Extern 1 (only calm (atomic _)) => (apply atomic_calm; reflexivity) : effects.
#[local] Hint Extern 1 (only calm (tg _)) => (apply own_calm; exact I) : effects.

Lemma wrapper_status_calm : only calm (wrapper_status (F := F) sg).
Proof. unfold wrapper_status. calm_auto. Qed.
Lemma provision_status_calm : only calm (provision_status (F := F) sg).
Proof. unfold provision_status. calm_auto. Qed.
Lemma health_calm : only calm (health (F := F) sg).
Proof. unfold health. calm_auto. Qed.
Lemma paused_calm : only calm (paused (F := F)).
Proof. unfold paused. calm_auto. Qed.
Lemma resume_calm : only calm (resume (F := F)).
Proof. unfold resume. calm_auto. Qed.
#[local] Hint Resolve wrapper_status_calm provision_status_calm health_calm paused_calm resume_calm : effects.
Lemma wait_paused_calm n deadline : only calm (wait_paused (F := F) sg n deadline).
Proof. induction n as [|n IH]; cbn [wait_paused]; calm_auto. Qed.
#[local] Hint Resolve wait_paused_calm : effects.
Lemma pause_and_wait_calm n : only calm (pause_and_wait (F := F) sg n).
Proof. unfold pause_and_wait, pause. calm_auto. Qed.
Lemma drop_pending_calm : only calm (_drop_pending (F := F)).
Proof. unfold _drop_pending. calm_auto. Qed.
#[local] Hint Resolve pause_and_wait_calm drop_pending_calm : effects.
Lemma with_lock_calm {A} (p : prog A) : only calm p -> only calm (with_lock p).
Proof. intros Hp. unfold with_lock. calm_auto. Qed.
#[local] Hint Resolve with_lock_calm : effects.
Lemma pending_phase_calm : only calm (pending_phase (F := F)).
Proof. unfold pending_phase. calm_auto. Qed.
#[local] Hint Resolve pending_phase_calm : effects.
Lemma session_status_calm : only calm (status (F := F) sg).
Proof. unfold status, status_of, ask_session, _new_client. apply with_lock_calm. calm_auto. Qed.
Lemma finish_login_calm me : only calm (_finish_login (F := F) me).
Proof. unfold _finish_login. calm_auto. Qed.
#[local] Hint Resolve session_status_calm finish_login_calm : effects.
Lemma begin_login_calm n phone : only calm (begin_login (F := F) sg n phone).
Proof. unfold begin_login, _new_client. cbv zeta. case_bool_decide; [calm_auto|]. apply with_lock_calm. calm_auto. Qed.
Lemma submit_code_calm code : only calm (submit_code (F := F) code).
Proof. unfold submit_code, code_refused. cbv zeta. case_bool_decide; [calm_auto|]. apply with_lock_calm. calm_auto. Qed.
Lemma submit_password_calm password : only calm (submit_password (F := F) password).
Proof. unfold submit_password. case_bool_decide; [calm_auto|]. apply with_lock_calm. calm_auto. Qed.
Lemma cancel_login_calm : only calm (cancel_login (F := F)).
Proof. unfold cancel_login. calm_auto. Qed.
Lemma stage_action_calm sender action : only calm (stage_action (F := F) sender action).
Proof. unfold stage_action. calm_auto. Qed.
Lemma probe_calm : only calm (probe (F := F) sg).
Proof. unfold probe. calm_auto. Qed.
Lemma redact_calm text : only calm (redact (F := F) sg text).
Proof. unfold redact. calm_auto. Qed.
#[local] Hint Resolve begin_login_calm submit_code_calm submit_password_calm cancel_login_calm stage_action_calm probe_calm redact_calm : effects.
Lemma call_tool_calm sender name raw : only calm (_call_tool (F := F) sg fuel sender name raw).
Proof. unfold _call_tool, or_error, dispatch. calm_auto. Qed.
Lemma command_calm sender body : only calm (command (F := F) sg fuel sender body).
Proof. unfold command, formatted, format_status. cbv zeta. calm_auto. Qed.

(** ** What reaches the model *)

Lemma logout_only P n :
  (forall a, calm a -> P a) -> (forall c, P (Own (LogOut c) : act_t)) -> only P (logout (F := F) sg n).
Proof.
  intros HP Hl. assert (forall A (p : prog A), only calm p -> only P p) as Hc by (intros A p; by apply only_mono).
  unfold logout, with_lock. apply only_bind; [by apply only_act, HP|]. intros _. apply only_finally; [|by apply only_act, HP].
  apply only_bind; [apply Hc; auto with effects|]. intros _. apply only_bind; [apply Hc; auto with effects|]. intros paused.
  destruct (negb (row_ok paused)).
  { apply Hc. calm_auto. }
  apply only_bind; [by apply only_act, HP|]. intros c. apply only_bind.
  { apply only_try; [|intros e; apply Hc; calm_auto]. apply only_bind; [by apply only_act, HP|]. intros _.
    apply only_bind; [by apply only_act, HP|]. intros [|]; [|apply Hc; calm_auto].
    apply only_bind; [by apply only_act|]. intros _. apply only_ret. }
  intros [r|note]; [apply only_ret|]. apply Hc. apply only_bind; [|intros _; calm_auto]. apply only_each. intros suffix.
  apply unless_missing_calm. by apply own_calm.
Qed.
Lemma confirm_only P sender token :
  (forall a, calm a -> P a) -> (forall c, P (Own (LogOut c) : act_t)) -> P (Own (TakeAction sender token) : act_t) ->
  only P (_confirm (F := F) sg fuel sender token).
Proof.
  intros HP Hl Ht. unfold _confirm. apply only_bind; [by apply only_act|]. intros [t [reply|action]]; cbn [snd]; [apply only_ret|].
  case_bool_decide; [|apply only_ret]. apply only_bind; [by apply logout_only|]. intros r. apply only_ret.
Qed.

(** The block of [pending_phase] *)
Definition phase_block : act_t := Atomic (fun t (m : memory (F := F)) => (phase_text t (mm_login m), m)).
(** When a login waits for its password, the text of the phase says so. *)
Lemma phase_text_password t l phase :
  phase_text (F := F) t (Some l) = Ok phase -> startswith "password" phase = bool_decide (pl_phase l = PhasePassword).
Proof.
  unfold phase_text. intros (age & _ & [= <-])%bind_Ok. by destruct (pl_phase l).
Qed.

(** A text is for the model when it is no command, while no login waits for a password. *)
Definition no_command (body : string) : Prop :=
  startswith "!tg" (lowered body) = false /\ startswith "tg password" (lowered body) = false.
Definition no_password_expected (h : hist_t) : Prop :=
  exists phase, Ev phase_block (Ok (Ok phase)) ∈ h /\ startswith "password" phase = false.
Lemma wpo_reply G (p : prog string) h (Q : hist_t -> option string -> Prop) :
  wp G p h (fun _ _ => True) -> (forall h' s, Q h' (Some s)) -> wpo G (s ← p; mret (Some s)) h Q.
Proof. intros Hp HQ. apply wpo_bind. eapply wp_post; [exact Hp|]. intros h' [s|e] _; [apply HQ|done]. Qed.
Definition for_model (body : string) (h : hist_t) (r : option string) : Prop :=
  r = None -> no_command body /\ no_password_expected h.
Lemma formatted_calm (p : prog row) : only calm p -> only calm (formatted p).
Proof. intros Hp. unfold formatted. calm_auto. Qed.
Lemma format_status_calm r : only calm (format_status (F := F) sg r).
Proof. unfold format_status. calm_auto. Qed.
#[local] Hint Resolve formatted_calm format_status_calm : effects.
Lemma command_for_model sender body h :
  wpo (fun _ a => silent a) (command (F := F) sg fuel sender body) h (fun h r => for_model body h r).
Proof.
  assert (forall (b : bool) (p q : prog (option string)),
    (b = true -> wpo (fun _ a => silent a) p h (for_model body)) ->
    (b = false -> wpo (fun _ a => silent a) q h (for_model body)) ->
    wpo (fun _ a => silent a) (if b then p else q) h (for_model body)) as Hif by (by intros []; auto).
  unfold command. cbv zeta.
  repeat (apply Hif; [intros _; first [by apply wpo_mret | apply wpo_reply; [apply calm_mono; calm_auto|done]]|intros ?]).
  unfold pending_phase, atomic. apply wpo_bind, wpo_bind. split; [done|]. intros [r|e]; [|done]. cbn [wp].
  apply wpo_ret. intros phase ->. destruct (startswith "password" phase) eqn:Ep; [by apply wpo_mret|].
  destruct (startswith "!tg" (lowered body)) eqn:Et; [by apply wpo_mret|]. apply wpo_mret. intros _. split.
  - split; [done|]. repeat match goal with H : existsb _ _ = false |- _ => revert H end. cbn [existsb]. rewrite !orb_false_iff. tauto.
  - exists phase. split; [left|done].
Qed.

(** What is true when the model is asked *)
Definition heard (body : string) (h : hist_t) (a : act_t) : Prop :=
  match a with
  | Complete _ ms _ =>
      confirmation body = None /\ no_command body /\ no_password_expected h /\
      conversation _system_prompt body ms /\ (asked h < TOOL_STEPS)%nat
  | _ => True
  end.
Lemma silent_heard body h a : silent a -> heard body h a.
Proof. by destruct a. Qed.
#[local] Hint Resolve silent_heard : effects.
Lemma asked_quiet (evs h : hist_t) : Forall (fun e => silent (ev_action e)) evs -> asked h = 0%nat -> asked (evs ++ h) = 0%nat.
Proof. intros Hevs Hh. etransitivity; [exact (asked_app evs h)|]. rewrite Hh, Nat.add_0_r. exact (asked_silent evs Hevs). Qed.
Lemma wp_silent {A} body (p : prog A) h (Q : hist_t -> result A -> Prop) :
  only silent p -> asked h = 0%nat -> (forall h' r, asked h' = 0%nat -> Q h' r) -> wp (heard body) p h Q.
Proof.
  intros Hp H0 HQ. eapply wp_only; [exact Hp|auto with effects|]. intros evs r Hevs _. apply HQ.
  by apply asked_quiet.
Qed.
Lemma llm_handle_heard sender body h :
  asked h = 0%nat -> confirmation body = None -> no_command body -> no_password_expected h ->
  wp (heard body) (llm_handle (F := F) sg fuel sender body) h (fun _ _ => True).
Proof.
  intros H0 Hc Hn Hp. unfold llm_handle. destruct (llm_enabled sg); [|done].
  assert (wp (in_conversation _system_prompt TOOL_STEPS body)
            (AdminCore.llm_handle (sg_llm_model sg) _system_prompt _tools (update (set_llm_ok (Some true)))
               (_call_tool sg fuel sender) body) h (fun _ _ => True)) as Hconv.
  { apply llm_turns_conversation; [by apply calm_mono, update_calm|intros name raw; apply calm_mono, call_tool_calm| |by rewrite H0].
    apply conversation_start. }
  eapply wp_mono; [| |exact (wp_both _ _ _ _ _ _ Hconv (wp_stays no_password_expected _ h
    (fun e h' Hk => match Hk with ex_intro _ phase (conj Hin Hph) => ex_intro _ phase (conj (list_elem_of_further _ _ _ Hin) Hph) end) Hp))];
    [|done].
  intros h' a [Hi Hk]. by destruct a.
Qed.
Lemma handle_heard sender body h :
  asked h = 0%nat -> wp (heard body) (_handle (F := F) sg fuel sender body) h (fun _ _ => True).
Proof.
  intros H0. unfold _handle. destruct (confirmation body) as [token|] eqn:Ec.
  { apply wp_silent; [apply confirm_only; [apply calm_silent|done|done]|done|done]. }
  assert (wp (fun _ a => silent a) (command (F := F) sg fuel sender body) h (fun h' _ => asked h' = 0%nat)) as Hz.
  { eapply wp_only; [apply calm_mono, command_calm|done|]. intros evs r Hevs _. exact (asked_quiet evs h Hevs H0). }
  apply wp_bind. eapply wp_mono; [apply silent_heard| |exact (wp_and _ _ _ _ _ (command_for_model sender body h) Hz)].
  intros h' [r|e]; [|done]. intros [Hr Ha]. destruct r as [reply|]; [done|]. destruct (Hr eq_refl) as [Hn Hp].
  apply wp_pbind. eapply wp_post; [by apply wp_wait_for, llm_handle_heard|]. intros h2 [s|e] _; [done|].
  by destruct (is_timeout e).
Qed.

(** A message is handled between steps that are calm: what the guard says of the handling
    holds of the whole task. *)
Lemma process_guard (G : hist_t -> act_t -> Prop) sender body event :
  (forall h a, calm a -> G h a) ->
  (forall h text, wp G (_send (sg_matrix_room_id sg) (redact sg) text) h (fun _ _ => True)) ->
  (forall evs, Forall (fun e => calm (ev_action e)) evs -> wp G (_handle (F := F) sg fuel sender body) evs (fun _ _ => True)) ->
  wp G (process sg fuel sender body event) [] (fun _ _ => True).
Proof. intros HG Hsend Hh. apply process_message_guard with (P := calm); [done..|exact HG|exact Hsend|exact Hh]. Qed.

(** When a message makes the agent ask the model, it is no confirmation and no command, no
    login waited for its password when the text was looked at, the messages are a
    conversation that begins with the text and has one result for every call of a tool, and
    the model was asked less than five times before. *)
Theorem model_hears_no_command sender body event model ms tools (h : hist_t) k :
  steps (process sg fuel sender body event) [] (POp (Complete model ms tools : act_t) k) h ->
  confirmation body = None /\ no_command body /\ no_password_expected h /\
  conversation _system_prompt body ms /\ (asked h < TOOL_STEPS)%nat.
Proof.
  intros Hs. assert (wp (heard body) (process sg fuel sender body event) [] (fun _ _ => True)) as Hw.
  { apply process_guard; [intros h' a Ha; by apply silent_heard, calm_silent| |].
    { intros h' text. eapply wp_mono; [apply silent_heard|done|]. apply only_bind; [apply calm_mono, redact_calm|]. intros t. by apply only_act. }
    intros evs Hevs. apply handle_heard.
    apply asked_silent. eapply Forall_impl; [exact Hevs|]. intros e. apply calm_silent. }
  exact (wp_guard _ _ _ _ _ _ _ Hw Hs).
Qed.

(** ** What the room is told *)

Lemma handle_only P sender body :
  (forall a, calm a -> P a) -> (forall m ms ts, P (Complete m ms ts : act_t)) ->
  (forall token, confirmation body = Some token -> only P (_confirm (F := F) sg fuel sender token)) ->
  only P (_handle (F := F) sg fuel sender body).
Proof.
  intros HP Hask Hc. unfold _handle. destruct (confirmation body) as [token|]; [by apply Hc|].
  apply only_bind; [apply (only_mono _ _ _ HP), command_calm|]. intros [reply|]; [apply only_ret|].
  apply only_pbind.
  - apply only_wait_for. unfold llm_handle. destruct (llm_enabled sg); [|apply only_ret].
    apply llm_turns_only; [intros; apply Hask|by apply (only_mono _ _ _ HP), update_calm|].
    intros name raw. apply (only_mono _ _ _ HP), call_tool_calm.
  - intros [s|e]; [apply only_ret|]. destruct (is_timeout e); apply only_ret.
Qed.

(** The block that reads the secrets learned so far *)
Definition secrets_block : act_t := Atomic (fun _ (m : memory (F := F)) => (mm_runtime_secrets m, m)).
Definition told (h : hist_t) (a : act_t) : Prop :=
  match a with
  | RoomSend room content =>
      room = sg_matrix_room_id sg /\
      exists secrets h' text, h = Ev secrets_block (Ok secrets) :: h' /\ dget "body" content = Some text /\
        dget "formatted_body" content = Some (markdown_to_matrix_html text) /\
        forall s, s ∈ known_secrets sg secrets -> concealable s = true -> contains s text = false
  | _ => True
  end.
Definition unsent (a : act_t) : Prop := match a with RoomSend _ _ => False | _ => True end.
Lemma unsent_told h a : unsent a -> told h a.
Proof. by destruct a. Qed.
Lemma calm_unsent a : calm a -> unsent a.
Proof. by destruct a. Qed.

(** C22: Whatever a message of the agent says, it goes to the configured room, its HTML is made
    of the text that was redacted with the secrets of the settings and those the agent had
    been given by then, and none of these secrets is in this text, as long as the secret has
    no angle bracket and is no part of the word "redacted": the marker that is put in for one
    secret could make up another that is not so ([concealable]). *)
Theorem room_hears_no_secret sender body event room content (h : hist_t) k :
  steps (process sg fuel sender body event) [] (POp (RoomSend room content : act_t) k) h ->
  room = sg_matrix_room_id sg /\
  exists secrets h' text, h = Ev secrets_block (Ok secrets) :: h' /\ dget "body" content = Some text /\
    dget "formatted_body" content = Some (markdown_to_matrix_html text) /\
    forall s, s ∈ known_secrets sg secrets -> concealable s = true -> contains s text = false.
Proof.
  intros Hs. assert (wp told (process sg fuel sender body event) [] (fun _ _ => True)) as Hw.
  { apply process_guard.
    - intros h' a Ha. by apply unsent_told, calm_unsent.
    - intros h' text. unfold _send, redact. apply wp_bind, wp_bind. split; [done|]. intros [secrets|e]; [|done].
      cbn [wp mret prog_ret]. split; [|done]. split; [done|].
      exists secrets, h', (redact_all (known_secrets sg secrets) text). split_and!; [done..|]. intros s Hin Hc. by apply redact_all_conceals.
    - intros evs _. eapply wp_mono; [apply unsent_told|done|]. apply (handle_only unsent); [apply calm_unsent|done|].
      intros token _. apply confirm_only; [apply calm_unsent|done..]. }
  exact (wp_guard _ _ _ _ _ _ _ Hw Hs).
Qed.
End facts.
