(* ===== verification/TgSafety.v ===== *)
(** * Telegram admin agent: the session

    Who can log the session out, over all interleavings of the tasks of the process; when
    the session file is opened; and what a login that fails leaves behind. *)

From stdpp Require Import base option list strings.
From Stdlib Require Import ZArith Lia Ascii Floats.
From S2P Require Import Prelude PyStr PyFloat Json Regex StrFacts Effects AdminFormat AdminCore TgAgent TgBot.
From S2P Require Import TgFacts.

Local Open Scope Z_scope.

Section safety.
Context {F : Type} `{PyFloat F}.
Abbreviation row := (odict (json F)).
Abbreviation prog := (@prog (@telegram_effect F)).
Abbreviation act_t := (@action (@telegram_effect F)).
Abbreviation event_t := (@event (@telegram_effect F)).
Abbreviation hist_t := (@hist (@telegram_effect F)).
Abbreviation mem_t := (memory (F := F)).
Variable sg : settings.
Variable fuel : nat.

(** ** Logging out *)

Definition took (sender token action : string) (t : F) : event_t :=
  Ev (Own (TakeAction sender token) : act_t) (Ok (t, inr action)).
Definition staged (sender token action : string) (t : F) : event_t :=
  Ev (Own (StageAction sender token action) : act_t) (Ok t).
(** A task logs the session out only after it took a logout with the token of its message. *)
Definition confirmed (sender body : string) (h : hist_t) (a : act_t) : Prop :=
  match a with
  | Own (LogOut _) => exists token t, confirmation body = Some token /\ took sender token "logout" t ∈ h
  | _ => True
  end.
Definition stays (a : act_t) : Prop := match a with Own (LogOut _) => False | _ => True end.
Lemma stays_confirmed sender body h a : stays a -> confirmed sender body h a.
Proof. by destruct a as [|[]| | | | | | | | | | |]. Qed.
Lemma calm_stays a : calm a -> stays a.
Proof. by destruct a as [|[]| | | | | | | | | | |]. Qed.
Lemma confirm_confirmed sender body token h :
  confirmation body = Some token -> wp (confirmed sender body) (_confirm (F := F) sg fuel sender token) h (fun _ _ => True).
Proof.
  intros Hb. unfold _confirm. apply wp_bind. split; [done|]. intros [[t [reply|action]]|e]; [done| |done]. cbn [wp snd].
  case_bool_decide as Ha; [|done]. subst action. apply wp_bind.
  set (h1 := Ev _ _ :: h). assert (took sender token "logout" t ∈ h1) as Hin by left. clearbody h1.
  eapply wp_mono; [| |exact (wp_both _ _ _ _ _ _
    (logout_only (F := F) sg (fun _ => True) fuel (fun _ _ => I) (fun _ => I) h1)
    (wp_stays (fun h => took sender token "logout" t ∈ h) (logout sg fuel) h1 (fun e h Hk => list_elem_of_further _ _ _ Hk) Hin))].
  - intros h' a [_ Hk]. destruct a as [|[]| | | | | | | | | | |]; try exact I. by exists token, t.
  - by intros h' [r|e] _.
Qed.
Lemma process_confirmed sender body event : wp (confirmed sender body) (process (F := F) sg fuel sender body event) [] (fun _ _ => True).
Proof.
  apply process_guard.
  - intros h a Ha. by apply stays_confirmed, calm_stays.
  - intros h text. eapply wp_mono; [apply stays_confirmed|done|].
    apply only_bind; [apply (only_mono _ _ _ calm_stays), redact_calm|]. intros t. by apply only_act.
  - intros evs _. destruct (confirmation body) as [token|] eqn:Eb.
    + unfold _handle. rewrite Eb. by apply confirm_confirmed.
    + eapply wp_mono; [apply stays_confirmed|done|]. apply (handle_only sg fuel stays); [apply calm_stays|done|].
      intros token. by rewrite Eb.
Qed.

(** *** The staged actions in the log *)

(** Every action of the agent but the two named blocks leaves the staged actions as they are. *)
Definition respects (a : act_t) : Prop :=
  match a with Atomic f => forall t m, mm_actions (f t m).2 = mm_actions m | _ => True end.
Lemma calm_respects a : calm a -> respects a.
Proof. by destruct a. Qed.
Lemma process_respects sender body event : only respects (process (F := F) sg fuel sender body event).
Proof.
  apply process_message_only; [done..| |].
  - intros text. apply (only_mono _ _ _ calm_respects), redact_calm.
  - apply handle_only; [apply calm_respects|done|]. intros token _. apply confirm_only; [apply calm_respects|done..].
Qed.
Lemma message_task_respects x : only respects (message_task (F := F) sg fuel x).
Proof. unfold message_task. destruct (accepted sg x) as [[sender body]|]; [apply process_respects|apply only_ret]. Qed.

(** The process: any message may arrive at any time *)
Abbreviation log_t := (list (nat * event_t)).
Abbreviation sys_t := (@sys (@telegram_effect F) (mem_t * bool) message).
Definition telegram_step : sys_t -> sys_t -> Prop := step allowed (fun _ => True) (message_task sg fuel).
Definition telegram_reachable (m : mem_t) : sys_t -> Prop :=
  reachable allowed (fun _ => True) (message_task sg fuel) (m, false).

(** The events that set or clear the slot of a sender *)
Definition touches (sender : string) (e : event_t) : Prop :=
  match e with
  | Ev (Own (StageAction s _ _)) (Ok _) => s = sender
  | Ev (Own (TakeAction s _)) (Ok (_, inr _)) => s = sender
  | _ => False
  end.
(** The log ends with the staging of an action, since when its sender's slot was left alone. *)
Definition last_staged (l : log_t) (sender token action : string) (t : F) : Prop :=
  exists l1 j l2, l = l1 ++ (j, staged sender token action t) :: l2 /\ Forall (fun e => ~ touches sender e.2) l1.
Lemma last_staged_cons e l sender token action t :
  ~ touches sender e.2 -> last_staged l sender token action t -> last_staged (e :: l) sender token action t.
Proof. intros He (l1 & j & l2 & -> & Hl). exists (e :: l1), j, l2. split; [done|]. by constructor. Qed.

Definition fresh (taken_at staged_at : F) : Prop := f_ltb EXPIRES (f_sub taken_at staged_at) = false.
Record accounted (s : sys_t) : Prop := {
  slots_distinct : NoDup (dkeys (mm_actions (sy_mem s).1));
  slots_staged : forall sender p, dget sender (mm_actions (sy_mem s).1) = Some p ->
    last_staged (sy_log s) sender (pa_token p) (pa_action p) (pa_created_at p);
  takes_staged : forall l1 i sender token action t l2, sy_log s = l1 ++ (i, took sender token action t) :: l2 ->
    exists t0, last_staged l2 sender token action t0 /\ fresh t t0;
}.
Lemma cons_split {A} (x y : A) l l1 l2 : x :: l = l1 ++ y :: l2 -> (l1 = [] /\ x = y /\ l = l2) \/ (exists l1', l1 = x :: l1' /\ l = l1' ++ y :: l2).
Proof. destruct l1 as [|z l1]; simpl; intros [= -> ->]; [by left|right; eauto]. Qed.
Definition taken_of (e : event_t) : option (string * string * string * F) :=
  match e with
  | Ev (Own (TakeAction sender token)) (Ok (t, inr action)) => Some (sender, token, action, t)
  | _ => None
  end.
(** An event that is no successful take and touches no slot *)
Lemma accounted_plain m m' ts ts' b b' l i e :
  accounted (Sys (m, b) ts l) -> mm_actions m' = mm_actions m ->
  (forall sender, ~ touches sender e) -> accounted (Sys (m', b') ts' ((i, e) :: l)).
Proof.
  intros [Hd Hs Ht] Hm He. split; simpl in *; [by rewrite Hm|..].
  - intros sender p Hp. rewrite Hm in Hp. apply last_staged_cons; [apply He|by apply Hs].
  - intros l1 i' sender token action t l2 Hl. apply cons_split in Hl as [(_ & [= -> ->] & ->)|(l1' & -> & ->)]; [|by eapply Ht].
    destruct (He sender). done.
Qed.
(** A block that takes a staged action *)
Lemma accounted_take m b ts ts' l i sender token t :
  accounted (Sys (m, b) ts l) ->
  accounted (Sys ((take sender token t m).2, b) ts'
               ((i, Ev (Own (TakeAction sender token) : act_t) (Ok (t, (take sender token t m).1))) :: l)).
Proof.
  intros Hacc. unfold take. destruct (dget sender (mm_actions m)) as [p|] eqn:Ep;
    [|eapply accounted_plain; [exact Hacc|done|by intros ? []]].
  case_bool_decide as Htok; [|eapply accounted_plain; [exact Hacc|done|by intros ? []]].
  destruct Hacc as [Hd Hs Ht]. simpl in *.
  assert (forall e sender' p', (forall s, touches s e -> s = sender) ->
    dget sender' (dpop sender (mm_actions m)) = Some p' ->
    last_staged ((i, e) :: l) sender' (pa_token p') (pa_action p') (pa_created_at p')) as Hslot.
  { intros e sender' p' He Hp'. rewrite dget_dpop in Hp' by done. case_bool_decide as Hne; [done|].
    apply last_staged_cons; [|by apply Hs]. simpl. intros Hto. by apply He in Hto. }
  destruct (f_ltb EXPIRES (f_sub t (pa_created_at p))) eqn:Ef; (split; simpl; [by apply dpop_NoDup|intros sender' p'; apply Hslot; by intros ? [] || done|]).
  - intros l1 i' sender' token' action' t' l2 Hl. apply cons_split in Hl as [(_ & Hx & _)|(l1' & -> & ->)]; [|by eapply Ht].
    by apply (f_equal (fun x => taken_of x.2)) in Hx.
  - intros l1 i' sender' token' action' t' l2 Hl. apply cons_split in Hl as [(_ & Hx & <-)|(l1' & -> & ->)]; [|by eapply Ht].
    apply (f_equal (fun x => taken_of x.2)) in Hx. injection Hx as <- <- <- <-.
    exists (pa_created_at p). split; [|exact Ef]. subst token. by apply Hs.
Qed.
Lemma telegram_accounted m s : mm_actions m = [] -> telegram_reachable m s -> accounted s.
Proof.
  intros Hm. apply reachable_invariant.
  - split; simpl; [rewrite Hm; constructor|intros sender p; by rewrite Hm|]. intros l1 i sender token action t l2 Hl. by destruct l1.
  - intros s1 s2 Hr IH Hs. destruct Hs as [m1 ts l j _|[m1 b1] [m2 b2] ts l i j a k h r Hi Ha]; [by destruct IH; split|].
    assert (respects a) as Hresp.
    { refine (reachable_guard _ _ _ _ _ i _ a k (fun _ a => respects a) _ Hr Hi eq_refl _). apply message_task_respects. }
    destruct a as [B f|x| | | | | | | | | | |];
      try (cbn in Ha; injection Ha as -> ->; eapply accounted_plain; [exact IH|done|by intros ? []]).
    { destruct Ha as (t & -> & [= -> ->]). eapply accounted_plain; [exact IH|apply Hresp|by intros ? []]. }
    destruct x; try (cbn in Ha; injection Ha as -> ->; eapply accounted_plain; [exact IH|done|by intros ? []]).
    + cbn in Ha. destruct r as [[]|e]; [destruct Ha as [_ [= -> ->]]|injection Ha as -> ->];
        (eapply accounted_plain; [exact IH|done|by intros ? []]).
    + destruct Ha as [-> [= -> ->]]. eapply accounted_plain; [exact IH|done|by intros ? []].
    + destruct Ha as (t & -> & [= -> ->]). destruct IH as [Hd Hsl Htk]. split; simpl in *; [by apply dset_NoDup|..].
      * intros sender' p. rewrite dget_dset. case_bool_decide as Hse; [subst sender'|].
        -- intros [= <-]. exists [], i, l. by split.
        -- intros Hp. apply last_staged_cons; [simpl; congruence|by apply Hsl].
      * intros l1 i' sender' token' action' t' l2 Hl. apply cons_split in Hl as [(_ & Hx & _)|(l1' & -> & ->)]; [|by eapply Htk].
        by apply (f_equal (fun x => taken_of x.2)) in Hx.
    + destruct Ha as (t & -> & [= -> ->]). exact (accounted_take _ _ ts _ _ _ _ _ _ IH).
Qed.

Lemma on_message_admin room_id sender body x :
  _on_message sg room_id sender body = Some x -> room_id = sg_matrix_room_id sg /\ x.1 = sender /\ sender ∈ sg_matrix_admin_mxids sg.
Proof.
  unfold _on_message. case_bool_decide as Hr; [|done]. simpl. case_bool_decide; [done|]. case_bool_decide as Ha; [|done]. simpl.
  destruct (sg_require_mention sg); [|by intros [= <-]]. destruct (strip_mention _ _ _); [|done]. by intros [= <-].
Qed.

(** C6: Over all interleavings: when a task is about to log the session out, its message came
    from an administrator in the room of the agent and is a confirmation; the task took, with
    the token of the message, a logout that this administrator had staged at most fifteen
    minutes before; and from the staging to the taking nothing else was staged or taken for
    that administrator, so that a staged logout is taken once. *)
Theorem logout_was_confirmed m (s : sys_t) i t c k :
  mm_actions m = [] -> telegram_reachable m s ->
  sy_tasks s !! i = Some t -> tk_rest t = POp (Own (LogOut c) : act_t) k ->
  exists body token taken_at staged_at l1 l2,
    accepted sg (tk_job t) = Some (ms_sender (tk_job t), body) /\
    ms_room (tk_job t) = sg_matrix_room_id sg /\ ms_sender (tk_job t) ∈ sg_matrix_admin_mxids sg /\
    confirmation body = Some token /\
    sy_log s = l1 ++ (i, took (ms_sender (tk_job t)) token "logout" taken_at) :: l2 /\
    last_staged l2 (ms_sender (tk_job t)) token "logout" staged_at /\ fresh taken_at staged_at.
Proof.
  intros Hm Hr Hi Hk.
  assert (match accepted sg (tk_job t) with
          | Some (sender, body) => confirmed sender body (tk_hist t) (Own (LogOut c))
          | None => False
          end) as Hc.
  { refine (reachable_guard _ _ _ _ _ i t _ k (fun h a => match accepted sg (tk_job t) with
      | Some (sender, body) => confirmed sender body h a | None => False end) (fun _ _ => True) Hr Hi Hk _).
    unfold message_task. destruct (accepted sg (tk_job t)) as [[sender body]|]; [apply process_confirmed|done]. }
  destruct (accepted sg (tk_job t)) as [[sender body]|] eqn:Eacc; [|done].
  destruct (on_message_admin _ _ _ _ Eacc) as (Hroom & Hsender & Hadmin). simpl in Hsender. subst sender.
  destruct Hc as (token & taken_at & Hb & Hin).
  destruct (proj1 (reachable_well_run _ _ _ _ _ Hr) i t Hi) as (_ & _ & Hh). rewrite Hh in Hin.
  apply seen_by_elem, list_elem_of_split in Hin as (l1 & l2 & Hl).
  destruct (takes_staged _ (telegram_accounted _ _ Hm Hr) _ _ _ _ _ _ _ Hl) as (staged_at & Hst & Hf).
  exists body, token, taken_at, staged_at, l1, l2. done.
Qed.

(** ** Opening the session file *)

(** [e] happened, and nothing that [stop] names since *)
Definition held (start : event_t -> Prop) (stop : act_t -> Prop) (h : hist_t) : Prop :=
  exists evs e h0, h = evs ++ e :: h0 /\ start e /\ Forall (fun e => ~ stop (ev_action e)) evs.
Lemma held_here start (stop : act_t -> Prop) e h : start e -> held start stop (e :: h).
Proof. intros He. by exists [], e, h. Qed.
Lemma held_later start stop e h : ~ stop (ev_action e) -> held start stop h -> held start stop (e :: h).
Proof. intros He (evs & e' & h0 & -> & Hs & Hf). exists (e :: evs), e', h0. split_and!; [done|done|]. by constructor. Qed.
Lemma held_app start stop evs h :
  Forall (fun e => ~ stop (ev_action e)) evs -> held start stop h -> held start stop (evs ++ h).
Proof. induction 1; [done|]. intros Hs. by apply held_later; auto. Qed.

Definition locks (e : event_t) : Prop := match e with Ev (Own LockAuth) (Ok _) => True | _ => False end.
Definition unlocks (a : act_t) : Prop := match a with Own UnlockAuth => True | _ => False end.
(** The wrapper of the daemon has just said that the daemon is gone. *)
Definition says_paused (e : event_t) : Prop :=
  match e with
  | Ev (Own (ReadFile path)) (Ok (Some text)) =>
      path = path_join (sg_control_dir sg) "status" /\ is_paused_status (strip text) = true
  | _ => False
  end.
Definition resumes (a : act_t) : Prop := match a with Own RemovePause => True | _ => False end.
Definition exclusive (h : hist_t) : Prop := held locks unlocks h.
Definition daemon_gone (h : hist_t) : Prop := held says_paused resumes h.
Definition opens (h : hist_t) (a : act_t) : Prop :=
  match a with Own (Connect _) => exclusive h /\ daemon_gone h | _ => True end.

(** Opens no session and keeps the lock *)
Definition harmless (a : act_t) : Prop := match a with Own (Connect _ | UnlockAuth) => False | _ => True end.
Lemma harmless_opens h a : harmless a -> opens h a.
Proof. by destruct a as [|[]| | | | | | | | | | |]. Qed.
Lemma harmless_keeps_lock a : harmless a -> ~ unlocks a.
Proof. destruct a as [|[]| | | | | | | | | | |]; simpl; tauto. Qed.
Ltac harmless_auto := repeat first [solve [auto with effects] | only_step | apply only_act; exact I | apply only_pbind; [|intros ?; cbv beta]]; try done.
Lemma unless_missing_harmless (p : prog unit) : only harmless p -> only harmless (unless_missing p).
Proof. intros Hp. apply only_pbind; [exact Hp|]. intros [u|e]; [apply only_ret|]. destruct (is_class _ e); apply only_ret. Qed.
Lemma read_file_harmless path : only harmless (tg (F := F) (ReadFile path)).
Proof. by apply only_act. Qed.
Lemma wrapper_status_harmless : only harmless (wrapper_status (F := F) sg).
Proof. unfold wrapper_status. harmless_auto. Qed.
Lemma resume_harmless : only harmless (resume (F := F)).
Proof. unfold resume. apply unless_missing_harmless. by apply only_act. Qed.
#[local] Hint Resolve wrapper_status_harmless resume_harmless : effects.
Lemma drop_pending_harmless : only harmless (_drop_pending (F := F)).
Proof. unfold _drop_pending, read, update. harmless_auto. Qed.
Lemma wait_paused_harmless n deadline : only harmless (wait_paused (F := F) sg n deadline).
Proof. induction n as [|n IH]; cbn [wait_paused]; unfold now, paused; harmless_auto. Qed.
#[local] Hint Resolve drop_pending_harmless wait_paused_harmless : effects.
Lemma pause_and_wait_harmless n : only harmless (pause_and_wait (F := F) sg n).
Proof. unfold pause_and_wait, pause, now. harmless_auto. Qed.
#[local] Hint Resolve pause_and_wait_harmless : effects.

Lemma wp_part {A} (p : prog A) h (Q : hist_t -> result A -> Prop) :
  only harmless p -> exclusive h -> (forall h' r, exclusive h' -> Q h' r) -> wp opens p h Q.
Proof.
  intros Hp Hh HQ. eapply wp_only; [exact Hp|intros ? ?; apply harmless_opens|]. intros evs r Hevs _. apply HQ.
  apply held_app; [|done]. eapply Forall_impl; [exact Hevs|]. intros e. apply harmless_keeps_lock.
Qed.
Lemma wpo_tg (G : hist_t -> act_t -> Prop) a h (Q : hist_t -> tanswer (F := F) a -> Prop) :
  G h (Own a) -> (forall v, Q (Ev (Own a : act_t) (Ok v) :: h) v) -> wpo G (tg (F := F) a) h Q.
Proof. intros HG HQ. split; [done|]. intros [v|e]; [apply HQ|done]. Qed.
Lemma wpo_block {B} (G : hist_t -> act_t -> Prop) (f : F -> mem_t -> B * mem_t) h (Q : hist_t -> B -> Prop) :
  G h (Atomic f) -> (forall v, Q (Ev (Atomic f : act_t) (Ok v) :: h) v) -> wpo G (act (Atomic f : act_t)) h Q.
Proof. intros HG HQ. split; [done|]. intros [v|e]; [apply HQ|done]. Qed.
Lemma wrapper_status_gone h :
  wpo (fun _ a => harmless a) (wrapper_status (F := F) sg) h (fun h' s => is_paused_status s = true -> daemon_gone h').
Proof.
  unfold wrapper_status. apply wpo_bind, wpo_tg; [done|]. intros [text|]; apply wpo_mret; intros Hp; [|done].
  by apply held_here.
Qed.
Lemma wait_paused_gone n deadline h :
  wpo (fun _ a => harmless a) (wait_paused (F := F) sg n deadline) h (fun h' r => row_ok r = true -> daemon_gone h').
Proof.
  revert h. induction n as [|n IH]; intros h; [done|]. cbn [wait_paused]. apply wpo_bind, wpo_block; [done|]. intros t.
  destruct (f_ltb _ _).
  - apply wpo_bind. eapply wpo_post; [apply wrapper_status_gone|]. intros h' s Hs. destruct (is_paused_status s) eqn:Es.
    + apply wpo_mret. auto.
    + apply wpo_bind. split; [done|]. intros [[]|e]; [apply IH|done].
  - unfold paused at 1. apply wpo_bind, wpo_tg; [done|]. intros b. apply wpo_bind. eapply wpo_post; [apply wrapper_status_gone|].
    intros h' s _. apply wpo_mret. discriminate.
Qed.
(** After a pause that succeeded the daemon is gone. *)
Lemma pause_and_wait_gone n h :
  exclusive h -> wpo opens (pause_and_wait (F := F) sg n) h (fun h' r => exclusive h' /\ (row_ok r = true -> daemon_gone h')).
Proof.
  intros Hh. unfold pause_and_wait. apply wpo_bind. eapply wp_part; [unfold pause, now; harmless_auto|exact Hh|].
  intros h1 [[]|e] H1; [|done]. apply wpo_bind. eapply wp_part; [by apply only_act|exact H1|]. intros h2 [t|e] H2; [|done].
  unfold wpo. eapply wp_mono; [| |apply wp_both; [apply (wp_part (wait_paused sg n _) h2 (fun h' _ => exclusive h'));
    [apply wait_paused_harmless|exact H2|done]|apply wait_paused_gone]].
  - by intros h' a [? _].
  - intros h' [r|e] [? ?]; done.
Qed.
Lemma wp_harmless {A} (p : prog A) h : only harmless p -> wp opens p h (fun _ _ => True).
Proof. intros Hp. eapply wp_mono; [apply harmless_opens|done|apply Hp]. Qed.
(** A client that is connected, used, and given up when something fails *)
Lemma session_opens {A} c (f : prog A) (g : exn -> prog A) h :
  exclusive h -> daemon_gone h -> only harmless f -> (forall e, only harmless (g e)) ->
  wp opens (try_ (tg (Connect c);; f) g) h (fun _ _ => True).
Proof.
  intros He Hd Hf Hg. apply wp_try. apply wp_bind. split; [by split|].
  assert (forall h' e, (if is_exception e then wp opens (g e) h' (fun _ _ => True) else True)) as Hh.
  { intros h' e. destruct (is_exception e); [by apply wp_harmless|done]. }
  intros [[]|e]; cbn [wp]; [|apply Hh].
  eapply wp_post; [by apply wp_harmless|]. intros h' [a|e] _; [done|apply Hh].
Qed.
Lemma new_client_opens {A} (f : client -> prog A) h :
  exclusive h -> daemon_gone h -> (forall c h', exclusive h' -> daemon_gone h' -> wp opens (f c) h' (fun _ _ => True)) ->
  wp opens (c ← _new_client (F := F) sg; f c) h (fun _ _ => True).
Proof. intros He Hd Hf. apply wp_bind. split; [done|]. intros [c|e]; [|done]. apply Hf; (apply held_later; [by intros []|done]). Qed.
Lemma with_lock_opens {A} (p : prog A) :
  (forall h, exclusive h -> wp opens p h (fun _ _ => True)) -> forall h, wp opens (with_lock p) h (fun _ _ => True).
Proof.
  intros Hp h. unfold with_lock. apply wp_bind. split; [done|]. intros [[]|e]; cbn [wp]; [|done].
  apply wp_finally. eapply wp_post; [by apply Hp, held_here|]. intros h' r _. split; [done|]. by intros [[]|e].
Qed.
(** The session is opened after the daemon was paused; otherwise the daemon goes on. *)
Lemma paused_opens {A} n (p q : row -> prog A) h :
  exclusive h -> (forall r, only harmless (p r)) ->
  (forall r h', exclusive h' -> daemon_gone h' -> wp opens (q r) h' (fun _ _ => True)) ->
  wp opens (_drop_pending (F := F);; paused ← pause_and_wait sg n; if negb (row_ok paused) then p paused else q paused) h
    (fun _ _ => True).
Proof.
  intros Hh Hp Hq. apply wp_bind. apply wp_part; [apply drop_pending_harmless|exact Hh|]. intros h1 [[]|e] H1; [|done].
  apply wp_bind. eapply wp_post; [by apply pause_and_wait_gone|]. intros h2 [r|e]; [|done]. intros [H2 Hg].
  destruct (row_ok r); simpl; [by apply Hq; auto|by apply wp_harmless].
Qed.
Lemma begin_login_opens n phone h : wp opens (begin_login (F := F) sg n phone) h (fun _ _ => True).
Proof.
  unfold begin_login. cbv zeta. case_bool_decide; [done|]. apply with_lock_opens. intros h1 H1.
  apply paused_opens; [exact H1|intros r; harmless_auto|]. intros r h2 H2 Hg. apply new_client_opens; [exact H2|exact Hg|].
  intros c h3 H3 Hg3. apply wp_bind. eapply wp_post.
  - apply session_opens; [exact H3|exact Hg3| |intros e]; unfold update; harmless_auto.
  - intros h4 [[r'|sent]|e] _; [done| |done]. apply wp_harmless. unfold update_at. harmless_auto.
Qed.
Lemma logout_opens n h : wp opens (logout (F := F) sg n) h (fun _ _ => True).
Proof.
  unfold logout. apply with_lock_opens. intros h1 H1.
  apply paused_opens; [exact H1|intros r; harmless_auto|]. intros r h2 H2 Hg. apply new_client_opens; [exact H2|exact Hg|].
  intros c h3 H3 Hg3. apply wp_bind. eapply wp_post.
  - apply session_opens; [exact H3|exact Hg3| |intros e]; harmless_auto.
  - intros h4 [[r'|note]|e] _; [done| |done]. apply wp_harmless. apply only_bind; [|intros _; unfold update; harmless_auto].
    apply only_each. intros suffix. apply unless_missing_harmless. by apply only_act.
Qed.
Lemma health_harmless : only harmless (health (F := F) sg).
Proof. unfold health. harmless_auto. Qed.
Lemma status_opens h : wp opens (status (F := F) sg) h (fun _ _ => True).
Proof.
  unfold status. apply with_lock_opens. intros h1 H1.
  apply wp_bind, wp_part; [by apply only_act|exact H1|]. intros h2 [b|e] H2; [|done].
  apply wp_bind, wp_part; [apply wrapper_status_harmless|exact H2|]. intros h3 [current|e] H3; [|done].
  apply wp_bind, wp_part; [unfold pending_phase, atomic; harmless_auto|exact H3|]. intros h4 [phase|e] H4; [|done].
  apply wp_bind, wp_part; [apply health_harmless|exact H4|]. intros h5 [hl|e] H5; [|done].
  apply wp_bind. eapply wp_post with (Q := fun _ _ => True).
  2: { intros h6 [out|e] _; [|done]. apply wp_harmless. unfold update. harmless_auto. }
  unfold status_of. apply wp_bind, wp_part; [by apply only_act|exact H5|]. intros h6 [login|e] H6; [|done].
  destruct login as [l|]; [apply wp_harmless; harmless_auto|]. destruct (_ && _); [done|].
  apply wp_bind. eapply wp_mono; [| |apply wp_both; [apply (wp_part (wrapper_status sg) h6 (fun h' _ => exclusive h'));
    [apply wrapper_status_harmless|exact H6|done]|apply wrapper_status_gone]].
  { by intros h' a [? _]. }
  intros h7 [s|e] [H7 Hg]; [|done]. destruct (is_paused_status s) eqn:Es; [|done]. specialize (Hg eq_refl).
  unfold ask_session. apply new_client_opens; [exact H7|exact Hg|]. intros c h8 H8 Hg8.
  apply wp_finally. eapply wp_post; [apply session_opens; [exact H8|exact Hg8| |intros e]; harmless_auto|].
  intros h9 r _. eapply wp_post; [apply wp_harmless; harmless_auto|]. by intros h10 [[]|e].
Qed.

(** *** The whole task of a message *)

Definition orderly {A} (p : prog A) : Prop := keeps opens (fun _ => True) p.
Lemma orderly_wp {A} (p : prog A) : (forall h, wp opens p h (fun _ _ => True)) -> orderly p.
Proof. intros Hp h _. apply Hp. Qed.
Lemma orderly_with_lock {A} (p : prog A) : orderly p -> orderly (with_lock p).
Proof.
  intros Hp. apply keeps_bind; [by apply keeps_act|]. intros []. apply keeps_finally; [exact Hp|by apply keeps_act].
Qed.
Lemma orderly_harmless {A} (p : prog A) : only harmless p -> orderly p.
Proof. intros Hp. apply orderly_wp. intros h. by apply wp_harmless. Qed.
Ltac orderly_hint :=
  match goal with |- keeps opens (fun _ => True) ?p => change (orderly p); solve [auto with effects] end.
Ltac orderly_auto :=
  repeat first [exact I | done | solve [auto with effects] | orderly_hint | progress unfold orderly | keeps_step
               | apply keeps_pbind; [|intros ?; cbv beta]].
Lemma begin_login_orderly n phone : orderly (begin_login (F := F) sg n phone).
Proof. apply orderly_wp, begin_login_opens. Qed.
Lemma logout_orderly n : orderly (logout (F := F) sg n).
Proof. apply orderly_wp, logout_opens. Qed.
Lemma status_orderly : orderly (status (F := F) sg).
Proof. apply orderly_wp, status_opens. Qed.
Lemma finish_login_orderly me : orderly (_finish_login (F := F) me).
Proof. apply orderly_harmless. unfold _finish_login, update. harmless_auto. Qed.
Lemma submit_code_orderly code : orderly (submit_code (F := F) code).
Proof.
  unfold submit_code. cbv zeta. case_bool_decide; [apply keeps_ret|]. apply orderly_with_lock. apply orderly_harmless.
  unfold code_refused, _finish_login, read, update. harmless_auto.
Qed.
Lemma submit_password_orderly password : orderly (submit_password (F := F) password).
Proof.
  unfold submit_password. case_bool_decide; [apply keeps_ret|]. apply orderly_with_lock. apply orderly_harmless.
  unfold _finish_login, read, update. harmless_auto.
Qed.
Lemma cancel_login_orderly : orderly (cancel_login (F := F)).
Proof. unfold cancel_login. apply orderly_with_lock, orderly_harmless. unfold read. harmless_auto. Qed.
Lemma format_status_orderly r : orderly (format_status (F := F) sg r).
Proof. apply orderly_harmless. unfold format_status, provision_status. harmless_auto. Qed.
Lemma pause_and_wait_orderly n : orderly (pause_and_wait (F := F) sg n).
Proof. apply orderly_harmless, pause_and_wait_harmless. Qed.
Lemma health_orderly : orderly (health (F := F) sg).
Proof. apply orderly_harmless, health_harmless. Qed.
Lemma probe_orderly : orderly (probe (F := F) sg).
Proof. apply orderly_harmless. unfold probe, update. harmless_auto. Qed.
Lemma pending_phase_orderly : orderly (pending_phase (F := F)).
Proof. apply orderly_harmless. unfold pending_phase, atomic. harmless_auto. Qed.
Lemma resume_orderly : orderly (resume (F := F)).
Proof. apply orderly_harmless, resume_harmless. Qed.
Lemma formatted_orderly (p : prog row) : orderly p -> orderly (formatted p).
Proof. intros Hp. unfold formatted. orderly_auto. Qed.
#[local] Hint Resolve begin_login_orderly logout_orderly status_orderly submit_code_orderly submit_password_orderly
  cancel_login_orderly format_status_orderly pause_and_wait_orderly health_orderly probe_orderly pending_phase_orderly
  resume_orderly formatted_orderly : effects.
Lemma call_tool_orderly sender name raw : orderly (_call_tool (F := F) sg fuel sender name raw).
Proof. unfold _call_tool, or_error, dispatch, stage_action. orderly_auto. Qed.
Lemma command_orderly sender body : orderly (command (F := F) sg fuel sender body).
Proof. unfold command, stage_action, read. cbv zeta. orderly_auto. Qed.
Lemma confirm_orderly sender token : orderly (_confirm (F := F) sg fuel sender token).
Proof. unfold _confirm. orderly_auto. Qed.
Lemma llm_orderly sender body : orderly (llm_handle (F := F) sg fuel sender body).
Proof.
  unfold llm_handle. destruct (llm_enabled sg); [|apply keeps_ret]. unfold AdminCore.llm_handle.
  generalize TOOL_STEPS, [system_message (F := F) _system_prompt; user_message body]. intros n.
  induction n as [|n IH]; intros ms; cbn [llm_turns]; [apply keeps_ret|].
  apply keeps_bind; [by apply keeps_act|]. intros c. apply keeps_bind; [by apply keeps_act|]. intros _.
  assert (forall calls, orderly (call_tools (_call_tool (F := F) sg fuel sender) calls)) as Hcalls.
  { induction calls as [|call calls IHc]; cbn [call_tools]; [apply keeps_ret|]. apply keeps_bind; [apply call_tool_orderly|].
    intros result. apply keeps_bind; [exact IHc|]. intros rest. apply keeps_ret. }
  destruct (cm_tool_calls c) as [|call calls]; [apply keeps_ret|]. apply keeps_bind; [apply Hcalls|]. intros results. apply IH.
Qed.
Lemma orderly_wait_for {A} tag (p : prog A) : orderly p -> orderly (wait_for tag p).
Proof. intros Hp. apply keeps_pbind; [exact Hp|]. intros [a|e]; [apply keeps_ret|]. case_bool_decide; apply keeps_ret. Qed.
Lemma handle_orderly sender body : orderly (_handle (F := F) sg fuel sender body).
Proof.
  unfold _handle. destruct (confirmation body) as [token|]; [apply confirm_orderly|].
  apply keeps_bind; [apply command_orderly|]. intros [reply|]; [apply keeps_ret|].
  apply keeps_pbind; [apply orderly_wait_for, llm_orderly|]. intros [s|e]; [apply keeps_ret|]. destruct (is_timeout e); apply keeps_ret.
Qed.
Lemma calm_or_connect sender body event : orderly (process (F := F) sg fuel sender body event).
Proof.
  unfold process, _process_message, _begin_feedback, _end_feedback, _send, redact. apply keeps_bind; [by apply keeps_act|]. intros _.
  apply keeps_bind; [orderly_auto|]. intros _. apply keeps_bind.
  - apply keeps_finally; [|orderly_auto]. apply keeps_pbind; [apply orderly_wait_for, handle_orderly|]. intros r. apply keeps_ret.
  - intros reply. unfold read. orderly_auto.
Qed.

(** C20: Whatever a message asks for, the agent connects a client to the session only while it
    holds the lock of [TelegramAuth], and after the wrapper of the daemon said that the
    daemon is paused; the task has not let the daemon go on since. *)
Theorem session_opened_while_paused sender body event (h : hist_t) c k :
  steps (process sg fuel sender body event) [] (POp (Own (Connect c) : act_t) k) h -> exclusive h /\ daemon_gone h.
Proof. intros Hs. exact (wp_guard _ _ _ _ _ _ _ (calm_or_connect sender body event [] I) Hs). Qed.

(** ** A login that fails *)

(** The pause file was removed, or was not written, since a moment *)
Definition pauses (a : act_t) : Prop := match a with Own (WritePause _) => True | _ => False end.
Definition removes (e : event_t) : Prop :=
  match e with Ev (Own RemovePause) (Ok _) => True | Ev (Own RemovePause) (Raise e) => is_class "FileNotFoundError" e = true | _ => False end.
Definition let_go (h : hist_t) : Prop := held removes pauses h.
Definition unpausing (a : act_t) : Prop := ~ pauses a.
Lemma resume_lets_go (h : hist_t) : wpo (fun _ _ => True) (resume (F := F)) h (fun h' _ => let_go h').
Proof.
  unfold resume, unless_missing. apply wp_pbind. split; [done|]. intros [[]|e].
  - by apply held_here.
  - cbn [wp]. destruct (is_class "FileNotFoundError" e) eqn:Ec; [|done]. apply held_here. exact Ec.
Qed.
(** A login that begins and answers that it failed has let the daemon go on; when no phone
    number is known it has not paused it. *)
Theorem failed_login_resumes n phone (h h' : hist_t) r :
  runs (begin_login (F := F) sg n phone) h h' (Ok r) -> row_ok r = false ->
  h' = h \/ let_go h'.
Proof.
  intros Hr Hf.
  assert (wpo (fun _ _ => True) (begin_login (F := F) sg n phone) h (fun h' r => row_ok r = false -> h' = h \/ let_go h')) as Hw;
    [|exact (wp_runs _ _ _ _ _ _ Hw Hr Hf)].
  unfold begin_login. cbv zeta. case_bool_decide; [apply wpo_mret; by left|].
  assert (forall (p : prog row) h0, (forall h1, wpo (fun _ _ => True) p h1 (fun h' r => row_ok r = false -> let_go h')) ->
    wpo (fun _ _ => True) (with_lock p) h0 (fun h' r => row_ok r = false -> h' = h \/ let_go h')) as Hlock.
  { intros p h0 Hp. unfold with_lock. apply wpo_bind. split; [done|]. intros [[]|e]; [|done]. unfold wpo. apply wp_finally.
    eapply wp_post; [apply Hp|]. intros h2 [r2|e] H2; (split; [done|]); [|by intros [[]|e']].
    intros [[]|e']; [|done]. intros Hr2. right. apply held_later; [by intros []|]. by apply H2. }
  apply Hlock. intros h1. apply wpo_bind. eapply wp_post; [by apply (wp_stable (fun _ => True))|]. intros h2 [[]|e] _; [|done].
  apply wpo_bind. eapply wp_post; [by apply (wp_stable (fun _ => True))|]. intros h3 [paused|e] _; [|done].
  destruct (negb (row_ok paused)).
  { apply wpo_bind. eapply wpo_post; [apply resume_lets_go|]. intros h4 [] H4. by apply wpo_mret. }
  apply wpo_bind. split; [done|]. intros [c|e]; [|done]. cbn [wp].
  apply wpo_bind. apply wp_try. eapply wp_post with (Q := fun h' r => match r with
    | Ok (inl r) => row_ok r = true | _ => True end).
  { apply wpo_bind. split; [done|]. intros [[]|e]; [|done]. cbn [wp]. apply wpo_bind. split; [done|]. intros [[|]|e]; [| |done].
    - cbn [wp]. apply wpo_bind. split; [done|]. intros [[]|e]; [|done]. cbn [wp]. apply wpo_bind.
      eapply wp_post; [by apply (wp_stable (fun _ => True))|]. intros h4 [[]|e] _; [|done]. apply wpo_bind. split; [done|].
      by intros [[]|e].
    - cbn [wp]. apply wpo_bind. split; [done|]. by intros [sent|e]. }
  intros h4 [[r4|sent]|e] H4.
  - apply wpo_mret. congruence.
  - apply wpo_bind. split; [done|]. intros [[]|e]; [|done]. apply wpo_mret. discriminate.
  - destruct (is_exception e); [|done]. apply wpo_bind. eapply wp_post; [by apply (wp_stable (fun _ => True))|].
    intros h5 [[]|e'] _; [|done]. apply wpo_bind. eapply wpo_post; [apply resume_lets_go|]. intros h6 [] H6. apply wpo_mret. by apply wpo_mret.
Qed.

(** ** Commands in capitals *)

(** A login typed in capitals is recognised as one, and then ends in an error instead of
    beginning: its text is split at the small letters. *)
Theorem login_in_capitals_is_an_error sender body :
  confirmation body = None -> (startswith "!tg login " (lowered body) = true \/ lowered body = "!tg login"%string) ->
  partition "login" body = None ->
  _handle (F := F) sg fuel sender body = PRet (Raise IndexError).
Proof.
  intros Hc Hl Hp. unfold _handle. rewrite Hc. unfold command. cbv zeta.
  assert (exists rest, lowered body = "!tg login" +:+ rest) as [rest Er].
  { destruct Hl as [Hl|Hl]; [apply startswith_spec in Hl as [rest ->]; by exists (" " +:+ rest)%string|by exists EmptyString]. }
  assert (bool_decide (lowered body ∈ ["!tg login"; "tg login"]%string) ||
          existsb (fun p => startswith p (lowered body)) ["!tg login "; "tg login "]%string = true) as Hlogin.
  { apply orb_true_iff. destruct Hl as [Hl|Hl]; [right; cbn [existsb]; by rewrite Hl|left; rewrite Hl; by vm_compute]. }
  rewrite Hlogin, Er. repeat rewrite bool_decide_false by (rewrite !elem_of_cons, elem_of_nil; simpl; naive_solver).
  unfold after_exactly. rewrite Hp. reflexivity.
Qed.
End safety.

(** ** Telegram admin agent: concrete runs

    One administrator, and an outside world that answers every action in one way; and what
    the runs show of a pause that a login or a logout leaves behind. *)

Abbreviation fl := spec_float.
Abbreviation world := (memory (F := fl) * bool)%type.
Abbreviation act_t := (@action (@telegram_effect fl)).
Abbreviation hist_t := (@hist (@telegram_effect fl)).

Definition demo : settings :=
  {| sg_tg_api_id := 1; sg_tg_api_hash := "hash-1"; sg_tg_phone := "+15550001"; sg_tg_session_path := "/data/s";
     sg_sync_health_url := "http://sync/health"; sg_control_dir := "/control"; sg_matrix_homeserver_url := "http://m";
     sg_matrix_user_id := "@bot:x"; sg_matrix_password := "matrix-pw"; sg_matrix_room_id := "!room:x";
     sg_matrix_admin_mxids := ["@ann:x"]; sg_llm_base_url := "http://llm"; sg_llm_api_key := "key-123"; sg_llm_model := "m";
     sg_egress_canary := "1.1.1.1:443"; sg_health_http_addr := "0.0.0.0:9100"; sg_response_timeout_seconds := 60;
     sg_llm_timeout_seconds := 25; sg_matrix_ssl_verify := true; sg_announce_on_start := false; sg_require_mention := false;
     sg_mention_aliases := [] |}%string.
Definition blank : memory (F := fl) :=
  {| mm_started_at := f_of_Z 0; mm_matrix_logged_in := true; mm_room_joined := true; mm_egress_locked := true;
     mm_llm_ok := None; mm_tg_authorized := None; mm_last_error := EmptyString; mm_last_message_at := f_of_Z 0;
     mm_last_reply_at := f_of_Z 0; mm_runtime_secrets := []; mm_login := None; mm_actions := [] |}.

(** ** Answers *)

Definition demo_user : tg_user (F := fl) := {| us_id := JInt 9; us_username := JStr "ann"; us_first_name := JStr "Ann" |}.
(** [status]: what the wrapper says; [authorized]: what the library says of the session *)
Definition demo_own (status : string) (authorized : result bool) (x : taction) (s : world) : result (tanswer (F := fl) x) * world :=
  match x with
  | StageAction sender token action => (Ok (f_of_Z 100), (stage sender token action (f_of_Z 100) s.1, s.2))
  | TakeAction sender token =>
      (Ok (f_of_Z 100, (take sender token (f_of_Z 100) s.1).1), ((take sender token (f_of_Z 100) s.1).2, s.2))
  | LockAuth => if s.2 then (Raise (CancelledError "lock"), s) else (Ok tt, (s.1, true))
  | UnlockAuth => (Ok tt, (s.1, false))
  | PauseExists => (Ok true, s)
  | IsAuthorized _ => (authorized, s)
  | ReadFile _ => (Ok (Some status), s)
  | GetHealth _ => (Raise (OtherError "URLError" "refused"), s)
  | NewClient _ _ _ => (Ok 7%nat, s)
  | GetMe _ => (Ok (Some demo_user), s)
  | SendCode _ _ => (Ok {| sc_phone_code_hash := "h"; sc_type := Some "app"%string |}, s)
  | SignInCode _ _ _ _ | SignInPassword _ _ => (Ok demo_user, s)
  | WritePause _ | RemovePause | Connect _ | Disconnect _ | LogOut _ | RemoveFile _ | ListModels | OpenConnection _ _ => (Ok tt, s)
  end.
Definition demo_answer (status : string) (authorized : result bool) (slept : result unit) (a : act_t) (s : world)
    : result (answer a) * world :=
  match a with
  | Atomic f => let '(b, m) := f (f_of_Z 100) s.1 in (Ok b, (m, s.2))
  | Own x => demo_own status authorized x s
  | MatrixLogin _ _ | MatrixJoin _ => (Ok MatrixDone, s)
  | Complete _ _ _ => (Ok {| cm_content := Some "the key is key-123"%string; cm_tool_calls := [] |}, s)
  | TokenHex => (Ok "abc123"%string, s)
  | Sleep _ => (slept, s)
  | MatrixSync _ | AddCallback | SyncForever _ | RoomSend _ _ | ReadMarkers _ _ | Typing _ _ => (Ok tt, s)
  end.
Lemma demo_answer_allowed status authorized slept (s : world) a :
  allowed s a (demo_answer status authorized slept a s).1 (demo_answer status authorized slept a s).2.
Proof.
  destruct a as [B f|x| | | | | | | | | | |]; try done.
  - unfold allowed, demo_answer. exists (f_of_Z 100). by destruct (f (f_of_Z 100) s.1).
  - destruct x; try done; [by destruct s as [m []]| |]; by eexists (f_of_Z 100).
Qed.
Definition well : forall a : act_t, world -> result (answer a) * world := demo_answer "paused" (Ok true) (Ok tt).
Definition logged_out : forall a : act_t, world -> result (answer a) * world := demo_answer "paused" (Ok false) (Ok tt).
Definition broken : forall a : act_t, world -> result (answer a) * world :=
  demo_answer "paused" (Raise (OtherError "ConnectionError" "gone")) (Ok tt).
(** The daemon does not stop, and the time for the answer is over. *)
Definition timed_out : forall a : act_t, world -> result (answer a) * world :=
  demo_answer "running" (Ok true) (Raise (CancelledError "response")).

Definition asks_model (a : act_t) : bool := asks a.
Definition sends (a : act_t) : bool := match a with RoomSend _ _ => true | _ => false end.
Definition logs_out (a : act_t) : bool := match a with Own (LogOut _) => true | _ => false end.
Definition connects (a : act_t) : bool := match a with Own (Connect _) => true | _ => false end.
Definition never (a : act_t) : bool := false.

(** ** Witnesses *)

Definition question : string := "what is the key?".
Definition asking := process (F := fl) demo 5 "@ann:x" question "$1".
Definition at_model := reach asks_model well asking (blank, false) [].
Definition question_messages : list (json fl) := [system_message _system_prompt; user_message question].
Lemma model_hears_no_command_witness : exists k,
  steps asking [] (POp (Complete "m" question_messages _tools : act_t) k) at_model.2 /\
  (confirmation question = None /\ no_command question /\ no_password_expected at_model.2 /\
   conversation _system_prompt question question_messages /\ (asked at_model.2 < TOOL_STEPS)%nat).
Proof.
  destruct (reach_performs asks_model well asking (blank, false) [] (Complete "m" question_messages _tools : act_t)) as [k Hk].
  { vm_compute. reflexivity. }
  exists k. split; [exact Hk|]. exact (model_hears_no_command demo 5 "@ann:x" question "$1" "m" question_messages _tools _ k Hk).
Defined.

Definition at_send := reach sends well asking (blank, false) [].
Definition said : odict string := matrix_text_content "the key is <redacted>".
Lemma room_hears_no_secret_witness : exists k,
  steps asking [] (POp (RoomSend "!room:x" said : act_t) k) at_send.2 /\
  ("!room:x"%string = sg_matrix_room_id demo /\
   exists secrets h' text, at_send.2 = Ev secrets_block (Ok secrets) :: h' /\ dget "body" said = Some text /\
     dget "formatted_body" said = Some (markdown_to_matrix_html text) /\
     forall s, s ∈ known_secrets demo secrets -> concealable s = true -> contains s text = false).
Proof.
  destruct (reach_performs sends well asking (blank, false) [] (RoomSend "!room:x" said : act_t)) as [k Hk].
  { vm_compute. reflexivity. }
  exists k. split; [exact Hk|]. exact (room_hears_no_secret demo 5 "@ann:x" question "$1" "!room:x" said _ k Hk).
Defined.

Definition said_by_ann (body : string) : message :=
  {| ms_room := "!room:x"; ms_sender := "@ann:x"; ms_body := body; ms_event := "$1" |}.
Definition body_of := message_task (F := fl) demo 5.
Definition start := Sys (E := @telegram_effect fl) (J := message) ((blank, false) : world) [] [].
Definition after_stage := run_task (E := @telegram_effect fl) 50 never well 0 (spawn body_of (said_by_ann "!tg logout") start).
Definition at_logout :=
  run_task (E := @telegram_effect fl) 50 logs_out well 1 (spawn body_of (said_by_ann "confirm abc123") after_stage).
Lemma at_logout_reachable : telegram_reachable demo 5 blank at_logout.
Proof.
  do 2 (apply run_task_reachable; [intros s a _; apply demo_answer_allowed|]; apply spawn_reachable; [exact I|]). apply reach_start.
Qed.
Lemma logout_was_confirmed_witness : exists t k,
  mm_actions blank = [] /\ telegram_reachable demo 5 blank at_logout /\ sy_tasks at_logout !! 1%nat = Some t /\
  tk_rest t = POp (Own (LogOut 7%nat) : act_t) k /\
  exists body token taken_at staged_at l1 l2,
    accepted demo (tk_job t) = Some (ms_sender (tk_job t), body) /\
    ms_room (tk_job t) = sg_matrix_room_id demo /\ ms_sender (tk_job t) ∈ sg_matrix_admin_mxids demo /\
    confirmation body = Some token /\
    sy_log at_logout = l1 ++ (1%nat, took (ms_sender (tk_job t)) token "logout" taken_at) :: l2 /\
    last_staged l2 (ms_sender (tk_job t)) token "logout" staged_at /\ fresh taken_at staged_at.
Proof.
  destruct (next_of_performs 1 at_logout (Own (LogOut 7%nat) : act_t)) as (t & k & Ht & Hk).
  { vm_compute. reflexivity. }
  exists t, k. split; [reflexivity|]. split; [exact at_logout_reachable|]. split; [exact Ht|]. split; [exact Hk|].
  exact (logout_was_confirmed demo 5 blank at_logout 1 t 7%nat k eq_refl at_logout_reachable Ht Hk).
Defined.

Definition logging_in := process (F := fl) demo 5 "@ann:x" "!tg login +15551234567" "$1".
Definition at_connect := reach connects well logging_in (blank, false) [].
Lemma session_opened_while_paused_witness : exists k,
  steps logging_in [] (POp (Own (Connect 7%nat) : act_t) k) at_connect.2 /\ exclusive at_connect.2 /\ daemon_gone demo at_connect.2.
Proof.
  destruct (reach_performs connects well logging_in (blank, false) [] (Own (Connect 7%nat) : act_t)) as [k Hk].
  { vm_compute. reflexivity. }
  exists k. split; [exact Hk|]. exact (session_opened_while_paused demo 5 "@ann:x" "!tg login +15551234567" "$1" _ _ k Hk).
Defined.

Definition failing := begin_login (F := fl) demo 5 "+15551234567".
Definition failed : odict (json fl) := error_row "ConnectionError: gone".
Definition failed_run := reach never broken failing (blank, false) [].
Lemma failed_run_returns : failed_run.1 = PRet (Ok failed).
Proof. vm_compute. reflexivity. Qed.
Lemma failed_login_resumes_witness :
  runs failing [] failed_run.2 (Ok failed) /\ row_ok failed = false /\ (failed_run.2 = [] \/ let_go failed_run.2).
Proof.
  assert (runs failing [] failed_run.2 (Ok failed)) as Hr.
  { unfold runs. rewrite <- failed_run_returns. apply reach_steps. }
  split; [exact Hr|]. split; [reflexivity|]. exact (failed_login_resumes demo 5 "+15551234567" [] failed_run.2 failed Hr eq_refl).
Defined.

Lemma login_in_capitals_is_an_error_witness :
  confirmation "!TG LOGIN" = None /\ lowered "!TG LOGIN" = "!tg login"%string /\ partition "login" "!TG LOGIN" = None /\
  _handle (F := fl) demo 5 "@ann:x" "!TG LOGIN" = PRet (Raise IndexError).
Proof.
  split; [reflexivity|]. split; [vm_compute; reflexivity|]. split; [reflexivity|].
  apply login_in_capitals_is_an_error; [reflexivity|right; vm_compute; reflexivity|reflexivity].
Defined.

(** ** What a pause leaves behind *)

(** The actions of a run that pause the daemon or let it go on, in their order *)
Definition on_pause (h : hist_t) : list string :=
  rev (omap (fun e => match (ev_action e : act_t) with
                      | Own (WritePause _) => Some "pause"
                      | Own RemovePause => Some "resume"
                      | Own (SendCode _ _) => Some "code sent"
                      | _ => None
                      end) h)%string.
Definition paused_by {A} (p : @prog (@telegram_effect fl) A) answer : list string :=
  on_pause (reach never answer p (blank, false) []).2.
(** A logout that fails leaves the daemon paused; a login that fails does not. *)
Example failed_logout_leaves_a_pause : paused_by (logout demo 5) broken = ["pause"]%string.
Proof. vm_compute. reflexivity. Qed.
Example failed_login_leaves_none : paused_by (begin_login demo 5 "+15551234567") broken = ["pause"; "resume"]%string.
Proof. vm_compute. reflexivity. Qed.
(** A login that is cancelled while it waits for the daemon leaves it paused. *)
Example cancelled_login_leaves_a_pause :
  paused_by (begin_login demo 5 "+15551234567") timed_out = ["pause"]%string.
Proof. vm_compute. reflexivity. Qed.
(** [!tg resume] lets the daemon go on although a login owns the session. *)
Definition after_code := run_task (E := @telegram_effect fl) 50 never logged_out 0 (spawn body_of (said_by_ann "!tg login") start).
Definition after_resume :=
  run_task (E := @telegram_effect fl) 50 never logged_out 1 (spawn body_of (said_by_ann "!tg resume") after_code).
Example resumed_during_a_login :
  on_pause (map snd (sy_log after_resume)) = ["pause"; "code sent"; "resume"]%string /\
  option_map pl_client (mm_login (sy_mem after_resume).1) = Some 7%nat.
Proof. vm_compute. done. Qed.
