(* ===== verification/PgAgent.v ===== *)
(** * Postgres admin agent: state, database, metrics and Patroni

    postgres_admin_agent/__main__.py: the settings, the memory of the process, [Db],
    [Metrics], [Patroni] and [stage_execution].

    The database, the files and the services are actions. The statements that [Db] writes
    itself answer with texts, numbers and lists of texts; a value of a row of a query is a
    [cell], as the driver hands it out. A thread runs to its end even when the task that
    waits for it is cancelled: [to_thread] shows what the thread does before the answer to
    the task, which may be the cancellation. The dictionary of staged statements is shared
    by threads, so each access to it is an action of its own, which the log shows. *)

From stdpp Require Import base option list strings.
From Stdlib Require Import ZArith Lia Ascii.
From S2P Require Import Prelude PyStr PyFloat Json Regex Effects OrchEnv AdminFormat AdminCore.

Local Open Scope Z_scope.
Local Open Scope py_scope.

(** ** Settings *)

Record settings := {
  sg_pg_dsn : string;
  sg_pg_password_file : string;
  sg_patroni_url : string;
  sg_patroni_username : string;
  sg_patroni_password_file : string;
  sg_matrix_homeserver_url : string;
  sg_matrix_user_id : string;
  sg_matrix_password : string;
  sg_matrix_room_id : string;
  sg_matrix_admin_mxids : list string;
  sg_llm_base_url : string;
  sg_llm_api_key : string;
  sg_llm_model : string;
  sg_prometheus_url : string;
  sg_metrics_window_minutes : Z;
  sg_health_http_addr : string;
  sg_response_timeout_seconds : Z;
  sg_llm_timeout_seconds : Z;
  sg_matrix_ssl_verify : bool;
  sg_statement_timeout_ms : Z;
  sg_row_limit : Z;
  sg_confirm_writes : bool;
  sg_announce_on_start : bool;
  sg_require_mention : bool;
  sg_mention_aliases : list string;
}.
Definition load (env : odict string) : result settings :=
  let get name d := _env env name d false in
  let need name := _env env name EmptyString true in
  dsn ← need "PG_DSN"%string;
  password_file ← get "PG_PASSWORD_FILE"%string EmptyString;
  patroni ← get "PATRONI_URL"%string EmptyString;
  patroni_user ← get "PATRONI_USERNAME" "patroni"%string;
  patroni_file ← get "PATRONI_PASSWORD_FILE"%string EmptyString;
  homeserver ← need "MATRIX_HOMESERVER_URL"%string;
  user_id ← need "MATRIX_USER_ID"%string;
  password ← need "MATRIX_PASSWORD"%string;
  room_id ← need "MATRIX_ROOM_ID"%string;
  admins ← get "MATRIX_ADMIN_MXIDS"%string EmptyString;
  base_url ← get "LLM_BASE_URL"%string EmptyString;
  api_key ← get "LLM_API_KEY"%string EmptyString;
  model ← get "LLM_MODEL"%string EmptyString;
  prometheus ← get "PROMETHEUS_URL"%string EmptyString;
  window ← int_env env "METRICS_WINDOW_MINUTES" "60" false;
  health_addr ← get "HEALTH_HTTP_ADDR" "0.0.0.0:9100"%string;
  response_timeout ← int_env env "RESPONSE_TIMEOUT_SECONDS" "60" false;
  llm_timeout ← int_env env "LLM_TIMEOUT_SECONDS" "25" false;
  statement_timeout ← int_env env "STATEMENT_TIMEOUT_MS" "15000" false;
  row_limit ← int_env env "ROW_LIMIT" "50" false;
  aliases ← get "MATRIX_MENTION_ALIASES"%string EmptyString;
  Ok {| sg_pg_dsn := dsn; sg_pg_password_file := password_file; sg_patroni_url := rstrip_char "/" patroni;
        sg_patroni_username := patroni_user; sg_patroni_password_file := patroni_file;
        sg_matrix_homeserver_url := rstrip_char "/" homeserver; sg_matrix_user_id := user_id;
        sg_matrix_password := password; sg_matrix_room_id := room_id; sg_matrix_admin_mxids := _csv admins;
        sg_llm_base_url := base_url; sg_llm_api_key := api_key; sg_llm_model := model;
        sg_prometheus_url := rstrip_char "/" prometheus; sg_metrics_window_minutes := window;
        sg_health_http_addr := health_addr; sg_response_timeout_seconds := response_timeout;
        sg_llm_timeout_seconds := llm_timeout; sg_matrix_ssl_verify := _bool_env env "MATRIX_SSL_VERIFY" true;
        sg_statement_timeout_ms := statement_timeout; sg_row_limit := row_limit;
        sg_confirm_writes := _bool_env env "CONFIRM_WRITES" true;
        sg_announce_on_start := _bool_env env "ANNOUNCE_ON_START" false;
        sg_require_mention := _bool_env env "MATRIX_REQUIRE_MENTION" true; sg_mention_aliases := _csv aliases |}.
Definition llm_enabled (s : settings) : bool :=
  non_empty (sg_llm_base_url s) && non_empty (sg_llm_api_key s) && non_empty (sg_llm_model s).

(** ** SQL texts *)

Definition READ_PREFIXES : list string := ["select"; "with"; "show"; "explain"; "values"]%string.
Definition WRITE_WORDS : re :=
  literal true "\b(insert|update|delete|merge|drop|alter|create|grant|revoke|truncate|copy|call|do|vacuum|analyze|refresh|reindex)\b".
Definition SECRET_WORDS : re := literal true "\b(pg_authid|pg_shadow|rolpassword|password|passwd)\b".
Definition _clean_sql (sql : string) : result string :=
  let sql := strip sql in
  let sql := if endswith ";" sql then strip (stake (String.length sql - 1) sql) else sql in
  raise! ValueError "empty SQL" when bool_decide (sql = EmptyString);
  raise! ValueError "only one SQL statement is allowed" when contains ";" sql;
  Ok sql.
Definition is_opening (c : ascii) : bool := eqc c " " || eqc c LF || eqc c "009" || eqc c "(".
Definition _is_read_only (sql : string) : bool :=
  let lowered := lower (dropwhile is_opening sql) in
  existsb (fun p => startswith p lowered) READ_PREFIXES && negb (found (re_search WRITE_WORDS sql)).
Definition names_secrets (sql : string) : bool := found (re_search SECRET_WORDS sql).
(** What [Db.query] and [Db.execute] send of a text *)
Definition query_text (sql : string) : result string :=
  sql ← _clean_sql sql;
  raise! ValueError "read-only query required; use !pg exec for writes/admin SQL" when negb (_is_read_only sql);
  raise! ValueError "query refused because it targets password/role-secret fields" when names_secrets sql;
  Ok sql.
Definition execute_text (sql : string) : result string :=
  sql ← _clean_sql sql;
  raise! ValueError "statement refused because it targets password/role-secret fields" when names_secrets sql;
  Ok sql.

(** ** Addresses *)

(** [urllib.parse.quote_plus] *)
Definition unreserved (c : ascii) : bool := is_word c || eqc c "." || eqc c "-" || eqc c "~".
Definition HEXDIGIT (n : N) : ascii := ascii_of_N (if (n <? 10)%N then 48 + n else 55 + n).
Fixpoint quote_plus (s : string) : string :=
  match s with
  | EmptyString => EmptyString
  | String c s =>
      (if unreserved c then String c EmptyString
       else if eqc c " " then "+"%string
       else String "%" (String (HEXDIGIT (code c / 16)) (String (HEXDIGIT (code c mod 16)) EmptyString))) +:+ quote_plus s
  end.
(** [s.hex()] of bytes *)
Fixpoint hex_of (s : string) : string :=
  match s with
  | EmptyString => EmptyString
  | String c s => String (hexdigit (code c / 16)) (String (hexdigit (code c mod 16)) (hex_of s))
  end.
(** [l[:n]] *)
Definition slice_to {A} (n : Z) (l : list A) : list A :=
  take (Z.to_nat (if n <? 0 then Z.of_nat (length l) + n else n)) l.

Section agent.
Context {F : Type} `{PyFloat F}.
Abbreviation row := (odict (json F)).

(** ** Values of a row *)

Inductive cell :=
  | CNull
  | CBool (b : bool)
  | CInt (z : Z)
  | CFloat (f : F)
  | CStr (s : string)
  | CTime (isoformat : string)
  | CDecimal (text : string)
  | CBytes (bytes : string)
  | CList (l : list cell)
  | CTuple (l : list cell)
  | CDict (d : odict cell)              (* a key is given by its [str] *)
  | COther (text : string).
Fixpoint _jsonable (c : cell) : json F :=
  match c with
  | CNull => JNull | CBool b => JBool b | CInt z => JInt z | CFloat f => JFloat f | CStr s => JStr s
  | CTime text | CDecimal text | COther text => JStr text
  | CBytes bytes => JStr ("0x" +:+ hex_of bytes)
  | CList l | CTuple l => JArr (map _jsonable l)
  | CDict d => JObj (foldl (fun out kv => dset kv.1 kv.2 out) [] (map (fun kv => (kv.1, _jsonable kv.2)) d))
  end.

(** ** The memory of the process *)

Record pending_execution := { pe_token : string; pe_sql : string; pe_created_at : F; pe_kind : string }.
(** [RuntimeState] and [Bot._pending] *)
Record memory := {
  mm_started_at : F;
  mm_matrix_logged_in : bool;
  mm_room_joined : bool;
  mm_last_error : string;
  mm_last_message_at : F;
  mm_last_reply_at : F;
  mm_pending : odict pending_execution;
}.
Definition set_state (last_error : string) (logged_in joined : bool) (message_at reply_at : F) (m : memory) : memory :=
  {| mm_started_at := mm_started_at m; mm_matrix_logged_in := logged_in; mm_room_joined := joined;
     mm_last_error := last_error; mm_last_message_at := message_at; mm_last_reply_at := reply_at;
     mm_pending := mm_pending m |}.
#[global] Instance postgres_memory : AgentMemory F memory := {
  set_last_error e m := set_state e (mm_matrix_logged_in m) (mm_room_joined m) (mm_last_message_at m) (mm_last_reply_at m) m;
  set_matrix_logged_in m := set_state (mm_last_error m) true (mm_room_joined m) (mm_last_message_at m) (mm_last_reply_at m) m;
  set_room_joined m := set_state (mm_last_error m) (mm_matrix_logged_in m) true (mm_last_message_at m) (mm_last_reply_at m) m;
  set_last_message_at t m := set_state (mm_last_error m) (mm_matrix_logged_in m) (mm_room_joined m) t (mm_last_reply_at m) m;
  set_last_reply_at t m := set_state (mm_last_error m) (mm_matrix_logged_in m) (mm_room_joined m) (mm_last_message_at m) t m;
}.
Definition set_pending (d : odict pending_execution) (m : memory) : memory :=
  {| mm_started_at := mm_started_at m; mm_matrix_logged_in := mm_matrix_logged_in m; mm_room_joined := mm_room_joined m;
     mm_last_error := mm_last_error m; mm_last_message_at := mm_last_message_at m; mm_last_reply_at := mm_last_reply_at m;
     mm_pending := d |}.

(** ** Actions of its own *)

Definition conn : Type := nat.
(** The cursor after a statement: its status message and the names of its columns *)
Record cursor := { cr_statusmessage : option string; cr_description : option (list string) }.
Inductive paction :=
  | ReadFile (path : string)
  | ConnectDb (dsn : string) (password : option string)
  | Execute (c : conn) (sql : string)
  | FetchOne (c : conn)
  | FetchMany (c : conn) (size : Z)
  | LeaveConn (c : conn)
  | HttpGet (url : string) (timeout : Z)
  | HttpPost (url body : string) (headers : odict string) (timeout : Z)
  | GetPending (sender : string)
  | PutPending (sender : string) (p : pending_execution)
  | PopPending (sender : string)
  | ThreadDone.
(** An answer with an HTTP error has its status and its body. *)
Definition panswer (a : paction) : Type :=
  match a with
  | ReadFile _ => string
  | ConnectDb _ _ => conn
  | Execute _ _ => cursor
  | FetchOne _ => option (list (json F))
  | FetchMany _ _ => list (list cell)
  | HttpGet _ _ => string
  | HttpPost _ _ _ _ => string + Z * string
  | GetPending _ => option pending_execution
  | LeaveConn _ | PutPending _ _ | PopPending _ | ThreadDone => unit
  end.
#[global] Instance postgres_effect : Effect := agent_effect (F := F) (M := memory) (XA := panswer).
Abbreviation prog := (@prog postgres_effect).
Abbreviation ask a := (@act postgres_effect a).
Definition pg (a : paction) : prog (panswer a) := own (XA := panswer) a.
(** [asyncio.to_thread(p)], awaited *)
Definition to_thread {A} (p : prog A) : prog A := pbind p (fun r => pg ThreadDone;; PRet r).

Variable sg : settings.

(** ** Secret files *)

Definition OS_ERRORS : list string :=
  ["OSError"; "FileNotFoundError"; "PermissionError"; "IsADirectoryError"; "NotADirectoryError"; "FileExistsError";
   "BlockingIOError"; "InterruptedError"; "ConnectionError"; "TimeoutError"]%string.
Definition is_os_error (e : exn) : bool := bool_decide (exn_name e ∈ OS_ERRORS).
Definition _read_secret_file (path : string) : prog string :=
  text ← pbind (pg (ReadFile path)) (fun r =>
    match r with
    | Raise e =>
        if is_os_error e then raise (ValueError ("secret file not readable yet: " +:+ path +:+ " (" +:+ exn_name e +:+ ")"))
        else PRet r
    | Ok _ => PRet r
    end);
  let value := strip text in
  if non_empty value then mret value else raise (ValueError ("secret file is empty: " +:+ path)).

(** ** [Db] *)

Definition timeout_ms : Z := Z.max 1 (Z.min 300000 (sg_statement_timeout_ms sg)).
Definition SET_TIMEOUT : string := "SET statement_timeout = " +:+ str_of_Z timeout_ms.
Definition _connect : prog conn :=
  password ← (if non_empty (sg_pg_password_file sg)
              then p ← _read_secret_file (sg_pg_password_file sg); mret (Some p) else mret None);
  c ← pg (ConnectDb (sg_pg_dsn sg) password);
  pg (Execute c SET_TIMEOUT);;
  mret c.
(** [with self._connect() as conn: ...] *)
Definition with_connection {A} (f : conn -> prog A) : prog A := c ← _connect; finally (f c) (pg (LeaveConn c)).
Definition ping : prog bool :=
  try_ (with_connection (fun c =>
          pg (Execute c "SELECT 1");;
          r ← pg (FetchOne c);
          mret (match r with Some [j] => py_eq j (JInt 1) | _ => false end)))
       (fun _ => mret false).
(** [cur.execute(sql); cur.fetchone()[0]] *)
Definition first_value (c : conn) (sql : string) : prog (json F) :=
  pg (Execute c sql);;
  r ← pg (FetchOne c);
  match r with
  | Some (j :: _) => mret j
  | Some [] => raise (OtherError "IndexError" "tuple index out of range")
  | None => raise (TypeError "'NoneType' object is not subscriptable")
  end.
Definition SELECT_VERSION : string := "SELECT version()".
Definition SELECT_DATABASE : string := "SELECT current_database()".
Definition SELECT_SIZE : string := "SELECT pg_size_pretty(pg_database_size(current_database()))".
Definition SELECT_DATABASES : string := "SELECT count(*) FROM pg_database WHERE NOT datistemplate".
Definition SELECT_CONNECTIONS : string := "SELECT count(*) FROM pg_stat_activity".
Definition SELECT_NAMES : string :=
  "SELECT coalesce(array_agg(datname ORDER BY datname), '{}') FROM pg_database WHERE NOT datistemplate".
Definition status : prog row :=
  with_connection (fun c =>
    version ← first_value c SELECT_VERSION;
    current_database ← first_value c SELECT_DATABASE;
    database_size ← first_value c SELECT_SIZE;
    database_count ← first_value c SELECT_DATABASES;
    connection_count ← first_value c SELECT_CONNECTIONS;
    databases ← first_value c SELECT_NAMES;
    mret [("ok", JBool true); ("version", version); ("current_database", current_database);
          ("database_size", database_size); ("database_count", database_count);
          ("connection_count", connection_count); ("databases", databases)]%string).
Definition rows_json (rows : list (list cell)) : json F := JArr (map (fun r => JArr (map _jsonable r)) rows).
Definition rows_result (status : row) (columns : list string) (rows : list (list cell)) : row :=
  let truncated := sg_row_limit sg <? Z.of_nat (length rows) in
  let rows := slice_to (sg_row_limit sg) rows in
  [("ok", JBool true)]%string ++ status ++
  [("columns", json_strs columns); ("rows", rows_json rows); ("row_count", JInt (Z.of_nat (length rows)));
   ("truncated", JBool truncated)]%string.
Definition fetch_rows (c : conn) (columns : list string) : prog (list (list cell)) :=
  match columns with [] => mret [] | _ => pg (FetchMany c (sg_row_limit sg + 1)) end.
Definition query (sql : string) : prog row :=
  sql ← PRet (query_text sql);
  '(columns, rows) ← with_connection (fun c =>
     cur ← pg (Execute c sql);
     let columns := default [] (cr_description cur) in
     rows ← fetch_rows c columns;
     mret (columns, rows));
  mret (rows_result [] columns rows).
Definition execute (sql : string) : prog row :=
  sql ← PRet (execute_text sql);
  '(status, columns, rows) ← with_connection (fun c =>
     cur ← pg (Execute c sql);
     let columns := default [] (cr_description cur) in
     rows ← fetch_rows c columns;
     mret (cr_statusmessage cur, columns, rows));
  mret (rows_result [("status", match status with Some s => JStr s | None => JNull end)]%string columns rows).

(** ** [Metrics] *)

Definition SUMMARY_QUERIES : list (string * string * string) :=
  [("CPU used", "100 * (1 - avg(rate(node_cpu_seconds_total{mode=" +:+ quote "idle" +:+ "}[5m])))", "%");
   ("Memory used", "100 * (1 - node_memory_MemAvailable_bytes / node_memory_MemTotal_bytes)", "%");
   ("Root disk used",
    "100 * (1 - node_filesystem_avail_bytes{mountpoint=" +:+ quote "/" +:+ "} / node_filesystem_size_bytes{mountpoint=" +:+
    quote "/" +:+ "})", "%");
   ("Load 1m", "node_load1", "");
   ("Containers seen", "count(container_last_seen)", "")]%string.
Definition metrics_enabled : bool := non_empty (sg_prometheus_url sg).
Definition PROMQL_LIMIT : nat := 500.
Definition promql_url (promql : string) : string := sg_prometheus_url sg +:+ "/api/v1/query?query=" +:+ quote_plus promql.
(** [j[1]] *)
Definition second (j : json F) : result (json F) :=
  match j with
  | JArr (_ :: x :: _) => Ok x
  | JArr _ => Raise (OtherError "IndexError" "list index out of range")
  | JStr (String _ (String c _)) => Ok (JStr (String c EmptyString))
  | JStr _ => Raise (OtherError "IndexError" "string index out of range")
  | JObj _ => Raise (KeyError "1")
  | j => Raise (TypeError ("'" +:+ type_name j +:+ "' object is not subscriptable"))
  end.
Definition truthy_or (d : json F) (o : option (json F)) : json F := if otruthy o then default JNull o else d.
Definition sample (j : json F) : result (json F) :=
  d ← obj j;
  value ← second (truthy_or (JArr [JNull; JNull]) (dget "value" d));
  Ok (JObj [("metric", truthy_or (JObj []) (dget "metric" d)); ("value", value)]%string).
Fixpoint all_ok {A B} (f : A -> result B) (l : list A) : result (list B) :=
  match l with [] => Ok [] | x :: l => y ← f x; l ← all_ok f l; Ok (y :: l) end.
(** [result[:10]] and [len(result)] *)
Definition SAMPLES : nat := 10.
Definition sliceable (j : json F) : result (list (json F)) :=
  match j with
  | JObj _ => Raise (TypeError "unhashable type: 'slice'")
  | JArr _ | JStr _ => py_list j
  | j => Raise (TypeError ("'" +:+ type_name j +:+ "' object is not subscriptable"))
  end.
Definition samples_of (payload : json F) : result row :=
  d ← obj payload;
  raise! ValueError (json_str (truthy_or (JStr "Prometheus query failed") (dget "error" d)))
    when negb (is_str "success" (dget "status" d));
  data ← obj (truthy_or (JObj []) (dget "data" d));
  result ← sliceable (truthy_or (JArr []) (dget "result" data));
  samples ← all_ok sample (take SAMPLES result);
  Ok [("ok", JBool true); ("result_type", default JNull (dget "resultType" data)); ("result", JArr samples);
      ("truncated", JBool (SAMPLES <? length result)%nat)]%string.
Definition metrics_query (promql : string) : prog row :=
  if negb metrics_enabled then raise (ValueError "Prometheus is not configured")
  else
    let promql := strip promql in
    if bool_decide (promql = EmptyString) then raise (ValueError "empty PromQL")
    else if (PROMQL_LIMIT <? String.length promql)%nat then raise (ValueError "PromQL is too long")
    else
      text ← pg (HttpGet (promql_url promql) 2);
      payload ← PRet (json_loads text);
      PRet (samples_of payload).
(** The value of the first sample, as a float *)
Definition first_sample (r : row) : result (option F) :=
  match dget "result" r with
  | Some (JArr (j :: _)) =>
      d ← obj j;
      match default JNull (dget "value" d) with
      | JNull => Ok None
      | j => f ← json_float j; Ok (Some f)
      end
  | _ => Ok None
  end.
Fixpoint summary_of (queries : list (string * string * string)) : prog (list (string * option F * string)) :=
  match queries with
  | [] => mret []
  | (label, promql, unit) :: queries =>
      value ← try_ (r ← metrics_query promql; PRet (first_sample r)) (fun _ => mret None);
      rest ← summary_of queries;
      mret ((label, value, unit) :: rest)
  end.
Definition summary : prog (list (string * option F * string)) := summary_of SUMMARY_QUERIES.

(** ** [Patroni] *)

Definition patroni_enabled : bool := non_empty (sg_patroni_url sg).
Definition NOT_CONFIGURED : exn := ValueError "Patroni is not configured on this node".
Definition cluster : prog (json F) :=
  if negb patroni_enabled then raise NOT_CONFIGURED
  else
    text ← pg (HttpGet (sg_patroni_url sg +:+ "/cluster") 5);
    PRet (json_loads text).
(** The name of the first member whose role is leader *)
Fixpoint leader_of (members : list (json F)) : result (json F) :=
  match members with
  | [] => Ok JNull
  | m :: members =>
      d ← obj m;
      if is_str "leader" (dget "role" d) then Ok (default JNull (dget "name" d)) else leader_of members
  end.
Definition members_of (cluster : json F) : result (list (json F)) :=
  d ← obj cluster;
  py_list (truthy_or (JArr []) (dget "members" d)).
Definition switchover_payload (leader : json F) (candidate : string) : json F :=
  JObj (("leader"%string, leader) :: if non_empty candidate then [("candidate"%string, JStr candidate)] else []).
Definition SWITCHOVER_DETAIL : nat := 300.
Definition switchover (candidate : string) : prog string :=
  if negb patroni_enabled then raise NOT_CONFIGURED
  else
    j ← cluster;
    members ← PRet (members_of j);
    leader ← PRet (leader_of members);
    if negb (truthy leader) then
      raise (ValueError "no current leader — cannot switch over (failover in progress?)")
    else if non_empty candidate && eq_str candidate leader then raise (ValueError (candidate +:+ " is already the leader"))
    else
      password ← _read_secret_file (sg_patroni_password_file sg);
      let credentials := b64encode (sg_patroni_username sg +:+ ":" +:+ password) in
      response ← pg (HttpPost (sg_patroni_url sg +:+ "/switchover") (dumps (switchover_payload leader candidate))
        [("content-type", "application/json"); ("authorization", "Basic " +:+ credentials)]%string 30);
      match response with
      | inl text => mret (or_help "Switchover accepted." (strip text))
      | inr (code, text) =>
          raise (ValueError ("Patroni switchover failed: HTTP " +:+ str_of_Z code +:+ ": " +:+ stake SWITCHOVER_DETAIL text))
      end.

(** ** Staged statements *)

Definition stage (sender sql kind : string) : prog string :=
  token ← ask TokenHex;
  t ← now;
  pg (PutPending sender {| pe_token := token; pe_sql := sql; pe_created_at := t; pe_kind := kind |});;
  mret token.
Definition stage_execution (sender sql : string) : prog row :=
  let sql := strip sql in
  if bool_decide (sql = EmptyString) then raise (ValueError "empty SQL")
  else if sg_confirm_writes sg then
    token ← stage sender sql "sql";
    mret [("ok", JBool false); ("confirmation_required", JBool true); ("confirm_with", JStr ("confirm " +:+ token));
          ("sql", JStr sql)]%string
  else
    r ← execute sql;
    mret (dupdate [("confirmation_required", JBool false)]%string r).
End agent.
