(* ===== verification/PgBot.v ===== *)
(** * Postgres admin agent: commands, the model, and the health endpoint

    postgres_admin_agent/__main__.py: class [Llm], the commands of class [Bot], the formats
    of its answers, redaction and the health endpoint; and the process as tasks that share a
    memory, one per message. *)

From stdpp Require Import base option list strings.
From Stdlib Require Import ZArith Lia Ascii.
From S2P Require Import Prelude PyStr PyFloat Json Regex Effects AdminFormat AdminCore PgAgent.

Local Open Scope Z_scope.
Local Open Scope py_scope.

Section bot.
Context {F : Type} `{PyFloat F}.
Abbreviation row := (odict (json F)).
Abbreviation prog := (@prog (@postgres_effect F)).
Abbreviation ask a := (@act (@postgres_effect F) a).
Variable sg : settings.

(** ** Formats *)

Definition as_text (j : json F) : result string :=
  match j with JStr s => Ok s | _ => Raise (TypeError "sequence item 0: expected str instance") end.
Definition format_status (status : row) : result string :=
  version ← item "version" status;
  first ← (match splitlines (json_str version) with
           | line :: _ => Ok line
           | [] => Raise (OtherError "IndexError" "list index out of range")
           end);
  names ← item "databases" status;
  names ← py_list names;
  names ← all_ok as_text names;
  Ok (join newline
    ["Postgres is up."; "Version: " +:+ first;
     "Current database: " +:+ get_text "current_database" status +:+ " (" +:+ get_text "database_size" status +:+ ")";
     "Databases: " +:+ join ", " names +:+ " (" +:+ get_text "database_count" status +:+ ")";
     "Connections: " +:+ get_text "connection_count" status]%string).
(** [f"{d.get(k, default)}"] *)
Definition text_or (d : string) (k : string) (r : row) : string := json_str (default (JStr d) (dget k r)).
Definition is_leader (m : row) : bool := is_str "leader" (dget "role" m).
Definition member_line (j : json F) : result string :=
  m ← obj j;
  let lag_text := match get "lag" m with
                  | JNull => EmptyString
                  | lag => if is_leader m then EmptyString else ", lag " +:+ json_str lag
                  end in
  Ok ((if is_leader m then "★" else "·") +:+ " " +:+ text_or "?" "name" m +:+ ": " +:+ text_or "?" "role" m +:+ ", " +:+
      text_or "?" "state" m +:+ " (tl " +:+ text_or "?" "timeline" m +:+ lag_text +:+ ")").
Definition format_pgha_cluster (cluster : json F) : result string :=
  members ← members_of cluster;
  d ← obj cluster;
  match members with
  | [] => Ok "Patroni reports no cluster members (bootstrap in progress?)."%string
  | _ =>
      lines ← all_ok member_line members;
      Ok (join newline (("HA cluster `" +:+ text_or "pg-ha" "scope" d +:+ "`: " +:+
                         str_of_Z (Z.of_nat (length members)) +:+ " members") :: lines))
  end.
Definition lag_line (m : row) : string :=
  let lag_text := match get "lag" m with
                  | JNull => "unknown"%string
                  | lag => if eq_str "unknown" lag then "unknown"%string else json_str lag +:+ " bytes"
                  end in
  "- " +:+ text_or "?" "name" m +:+ " (" +:+ text_or "?" "state" m +:+ "): " +:+ lag_text.
Definition format_pgha_lag (cluster : json F) : result string :=
  members ← members_of cluster;
  members ← all_ok obj members;
  match filter (fun m => negb (is_leader m)) members with
  | [] => Ok "No replicas found."%string
  | replicas => Ok (join newline ("Replication lag:"%string :: map lag_line replicas))
  end.
Definition metric_text (value : option F) (unit : string) : string :=
  match value with
  | None => "unavailable"
  | Some value =>
      if bool_decide (unit = "%"%string) then f_fixed 1 value +:+ "%"
      else if f_leb (f_of_Z 10) value then f_fixed 0 value +:+ unit
      else f_fixed 2 value +:+ unit
  end.
Definition format_metrics (rows : list (string * option F * string)) : string :=
  join newline ("Node metrics:"%string :: map (fun '(label, value, unit) => "- " +:+ label +:+ ": " +:+ metric_text value unit) rows).
Definition CELL : nat := 200.
Definition _cell (value : json F) : string := stake CELL (smap (fun c => if eqc c LF then " "%char else c) (json_str value)).
Definition FENCE : string := "```".
Definition LINES : nat := 80.
Definition row_line (value : json F) : result string := cells ← py_list value; Ok (join " | " (map _cell cells)).
(** The lines of a table, before they are cut to [LINES] *)
Definition table_lines (r : row) (columns rows : list (json F)) : result (list string) :=
  body ← all_ok row_line rows;
  Ok ([join " | " (map json_str columns); join " | " (map (fun _ => "---"%string) columns)] ++ body ++
      (if otruthy (dget "truncated" r)
       then ["... truncated at " +:+ str_of_Z (Z.of_nat (length rows)) +:+ " rows"] else []))%list.
Definition format_query_result (r : row) : result string :=
  if otruthy (dget "status" r) && negb (otruthy (dget "columns" r)) then Ok (get_text "status" r)
  else
    columns ← py_list (truthy_or (JArr []) (dget "columns" r));
    rows ← py_list (truthy_or (JArr []) (dget "rows" r));
    match columns with
    | [] => Ok "No row output."%string
    | _ =>
        lines ← table_lines r columns rows;
        Ok (FENCE +:+ newline +:+ join newline (take LINES lines) +:+ newline +:+ FENCE)
    end.
Definition format_staged (r : row) : result string :=
  if otruthy (dget "confirmation_required" r) then
    confirm_with ← item "confirm_with" r;
    sql ← item "sql" r;
    Ok ("SQL staged but not executed." +:+ newline +:+ "Reply `" +:+ json_str confirm_with +:+
        "` within 15 minutes to apply it." +:+ newline +:+ "Statement: `" +:+ json_str sql +:+ "`")
  else format_query_result r.

(** ** Redaction *)

Definition fixed_secrets : list string := [sg_pg_dsn sg; sg_matrix_password sg; sg_llm_api_key sg].
Definition SECRET_FILES : list string := filter non_empty [sg_pg_password_file sg; sg_patroni_password_file sg].
Fixpoint file_secrets (paths : list string) : prog (list string) :=
  match paths with
  | [] => mret []
  | path :: paths =>
      secret ← try_ (s ← _read_secret_file path; mret [s]) (fun _ => mret []);
      rest ← file_secrets paths;
      mret (secret ++ rest)%list
  end.
Definition redact (text : string) : prog string :=
  secrets ← file_secrets SECRET_FILES;
  mret (redact_all (fixed_secrets ++ secrets)%list text).

(** ** [Llm] *)

Definition _system_prompt : string :=
  (if patroni_enabled sg then
     "You are a PostgreSQL administrative agent for one node of a Patroni-managed " +:+
     "HA cluster on the AttestMesh wireguard mesh. You may inspect database status, " +:+
     "the Patroni cluster topology (pgha_cluster), run read-only SQL, and inspect " +:+
     "bounded machine metrics. Failover is automatic; a manual switchover requires " +:+
     "the human to run `!pgha switchover` and confirm a token — you cannot do it. "
   else
     "You are a PostgreSQL administrative agent for one standalone Postgres instance. " +:+
     "You may inspect database status, run read-only SQL, and inspect bounded machine metrics. ") +:+
  "For writes or admin SQL, " +:+
  "call pg_execute; the runtime will stage the statement and require an explicit " +:+
  "confirmation token before it is applied. Never reveal secrets, passwords, DSNs, " +:+
  "tokens, or password hashes. Keep answers concise and include relevant query output.".
Definition string_param (k : string) : row := [(k, JObj [("type"%string, JStr "string")])].
Definition _tools : list (json F) :=
  ((if patroni_enabled sg then
      [tool "pgha_cluster"
         "Return the Patroni HA cluster topology: members, roles (leader/replica), states, timelines, and replication lag." [] []]
    else []) ++
   [tool "pg_status" "Return server version, current database, size, database list, and connection count." [] [];
    tool "pg_query" "Run one read-only SQL statement and return up to the configured row limit." (string_param "sql") ["sql"];
    tool "pg_execute"
      "Stage one write/admin SQL statement. The user must confirm the returned token before execution."
      (string_param "sql") ["sql"];
    tool "query_metrics" "Run one instant PromQL query against the node-local Prometheus."
      (string_param "promql") ["promql"]])%list%string.
Definition dispatch (sender name : string) (args : json F) : prog row :=
  let named k := bool_decide (name = k) in
  if named "pgha_cluster"%string then
    if negb (patroni_enabled sg) then mret (error_row "Patroni is not configured on this node")
    else j ← cluster sg; d ← PRet (mapping j); mret (dupdate [("ok", JBool true)]%string d)
  else if named "pg_status"%string then status sg
  else if named "pg_query"%string then sql ← PRet (str_arg "sql" args); query sg sql
  else if named "pg_execute"%string then sql ← PRet (str_arg "sql" args); stage_execution sg sender sql
  else if named "query_metrics"%string then promql ← PRet (str_arg "promql" args); metrics_query sg promql
  else mret (error_row ("unknown tool: " +:+ name)).
Definition _call_tool (sender name raw_args : string) : prog row :=
  to_thread (or_error (args ← PRet (tool_args raw_args); dispatch sender name args)).
Definition llm_handle (sender body : string) : prog string :=
  if llm_enabled sg
  then AdminCore.llm_handle (sg_llm_model sg) _system_prompt _tools (mret tt) (_call_tool sender) body
  else mret "LLM is not configured. Use `!pg status`, `!pg query <SQL>`, or `!pg exec <SQL>`."%string.

(** ** [Bot] *)

(** An empty list of administrators admits everybody. *)
Definition _on_message (room_id sender body : string) : option (string * string) :=
  let mentions := _mention_aliases (sg_matrix_user_id sg) (sg_mention_aliases sg) in
  if negb (bool_decide (room_id = sg_matrix_room_id sg)) then None
  else if bool_decide (sender = sg_matrix_user_id sg) then None
  else if negb (bool_decide (sg_matrix_admin_mxids sg = [])) && negb (bool_decide (sender ∈ sg_matrix_admin_mxids sg)) then None
  else
    let body := strip body in
    if sg_require_mention sg then (fun b => (sender, b)) <$> strip_mention "!pg help" mentions body
    else Some (sender, body).
Definition _help_text : string :=
  "Commands: `!pg status`, `!pg metrics`, `!pg query <read-only SQL>`, `!pg exec <SQL>`, " +:+
  "then `confirm <token>` for staged writes/admin SQL." +:+
  (if patroni_enabled sg then
     newline +:+ "HA: `!pgha status` (cluster topology), `!pgha lag` (replication lag), " +:+
     "`!pgha switchover [candidate]` (staged; requires `confirm <token>`)."
   else EmptyString).
Definition EXPIRES : F := f_of_Z 900.
Definition no_match : string := "No matching pending action for that confirmation token.".
(** [_confirm], in a thread *)
Definition apply_pending (p : pending_execution (F := F)) : prog string :=
  if bool_decide (pe_kind p = "switchover"%string) then
    outcome ← switchover sg (pe_sql p);
    j ← cluster sg;
    text ← PRet (format_pgha_cluster j);
    mret ("Switchover requested: " +:+ outcome +:+ newline +:+ text)
  else
    r ← execute sg (pe_sql p);
    text ← PRet (format_query_result r);
    mret ("Executed." +:+ newline +:+ text).
Definition _confirm (sender token : string) : prog string :=
  pending ← pg (GetPending sender);
  match pending with
  | None => mret no_match
  | Some p =>
      if negb (bool_decide (pe_token p = token)) then mret no_match
      else
        t ← now;
        pg (PopPending sender);;
        if f_ltb EXPIRES (f_sub t (pe_created_at p))
        then mret "That pending action expired. Stage it again if still needed."%string
        else apply_pending p
  end.
Definition SWITCHOVER_WORD : re := literal true "switchover".
Definition METRICS_TIMED_OUT : string := "Node metrics are unavailable: Prometheus query timed out.".
(** The commands, and what is left for the model: [None] *)
Definition command (sender body : string) : prog (option string) :=
  let lowered := lower body in
  let one_of l := bool_decide (lowered ∈ l) in
  let starts p := startswith p lowered in
  let reply (p : prog string) : prog (option string) := s ← p; mret (Some s) in
  if one_of ["!pg help"; "pg help"; "!pgha help"; "pgha help"]%string then mret (Some _help_text)
  else if one_of ["!pgha status"; "pgha status"; "!pgha cluster"; "pgha cluster"]%string then
    reply (j ← to_thread (cluster sg); PRet (format_pgha_cluster j))
  else if one_of ["!pgha lag"; "pgha lag"]%string then reply (j ← to_thread (cluster sg); PRet (format_pgha_lag j))
  else if starts "!pgha switchover"%string || starts "pgha switchover"%string then
    reply (if negb (patroni_enabled sg) then mret "Patroni is not configured on this node."%string
           else
             let candidate := match re_search SWITCHOVER_WORD body with
                              | Some m => strip (after (mt_end m))
                              | None => EmptyString
                              end in
             token ← stage sender candidate "switchover";
             mret ("Switchover " +:+ (if non_empty candidate then "to `" +:+ candidate +:+ "`" else "to the healthiest replica") +:+
                   " staged but not executed." +:+ newline +:+ "Reply `confirm " +:+ token +:+
                   "` within 15 minutes to apply it."))
  else if one_of ["!pg status"; "pg status"]%string then reply (r ← to_thread (status sg); PRet (format_status r))
  else if one_of ["!pg metrics"; "pg metrics"]%string then
    reply (pbind (wait_for "metrics" (to_thread (summary sg)))
             (fun r => match r with
                       | Ok rows => mret (format_metrics rows)
                       | Raise e => if is_timeout e then mret METRICS_TIMED_OUT else PRet (Raise e)
                       end))
  else if starts "!pg query "%string then
    reply (r ← to_thread (query sg (sdrop 10 body)); PRet (format_query_result r))
  else if starts "!pg exec "%string then
    reply (staged ← stage_execution sg sender (sdrop 9 body); PRet (format_staged staged))
  else mret None.
Definition LLM_TIMED_OUT : string := "The LLM request timed out. Direct commands like `!pg status` still work.".
Definition _handle (sender body : string) : prog string :=
  match confirmation body with
  | Some token => to_thread (_confirm sender token)
  | None =>
      r ← command sender body;
      match r with
      | Some reply => mret reply
      | None =>
          pbind (wait_for "llm" (llm_handle sender body))
            (fun r => match r with
                      | Raise e => if is_timeout e then mret LLM_TIMED_OUT else PRet r
                      | r => PRet r
                      end)
      end
  end.
Definition ERROR_PREFIX : string := "Postgres admin error: ".
Definition process (sender body event_id : string) : prog unit :=
  _process_message (sg_matrix_room_id sg) redact _handle ERROR_PREFIX sender body event_id.
Definition run (fuel : nat) : prog unit :=
  bot_run (sg_matrix_room_id sg) redact fuel (sg_matrix_password sg) "postgres-admin-agent" (mret tt)
    (if sg_announce_on_start sg
     then Some "Postgres admin agent online. Use `!pg status` or ask a database question."%string else None).

(** ** The health endpoint *)

Definition health_payload : prog (bool * row) :=
  db_ok ← to_thread (ping sg);
  t ← now;
  m ← (read (fun m => m) : prog memory);
  uptime ← PRet (f_trunc (f_sub t (mm_started_at m)));
  let ok := (db_ok : bool) && mm_matrix_logged_in m && mm_room_joined m in
  mret (ok,
        [("status", JStr (if ok then "ok" else "starting")); ("db_ok", JBool db_ok);
         ("matrix_logged_in", JBool (mm_matrix_logged_in m)); ("room_joined", JBool (mm_room_joined m));
         ("llm_configured", JBool (llm_enabled sg)); ("metrics_configured", JBool (non_empty (sg_prometheus_url sg)));
         ("patroni_configured", JBool (patroni_enabled sg)); ("uptime_s", JInt uptime);
         ("last_error", JStr (mm_last_error m))]%string).
(** The answer to a request whose first line has these words *)
Definition health_response (words : list string) : prog string :=
  if negb (bool_decide (request_path words = "/healthz"%string)) then mret NOT_FOUND
  else '(ok, payload) ← health_payload; mret (http_response ok (dumps_sorted (JObj payload) +:+ newline)).

(** ** The process *)

(** A message of the room: its room, sender, text and event *)
Record message := { ms_room : string; ms_sender : string; ms_body : string; ms_event : string }.
Definition accepted (x : message) : option (string * string) := _on_message (ms_room x) (ms_sender x) (ms_body x).
(** The task of a message that is accepted *)
Definition message_task (x : message) : prog unit :=
  match accepted x with Some (sender, body) => process sender body (ms_event x) | None => mret tt end.
(** What an action does to the memory: the dictionary of staged statements is read and
    written as it says, a block runs at some time, and the answers of everything else are free. *)
Definition allowed_own (s : memory (F := F)) (x : paction) : result (panswer x) -> memory (F := F) -> Prop :=
  match x with
  | GetPending sender => fun r s' => r = Ok (dget sender (mm_pending s)) /\ s' = s
  | PutPending sender p => fun r s' => r = Ok tt /\ s' = set_pending (dset sender p (mm_pending s)) s
  | PopPending sender => fun r s' => r = Ok tt /\ s' = set_pending (dpop sender (mm_pending s)) s
  | _ => fun _ s' => s' = s
  end.
Definition allowed (s : memory (F := F)) (a : @action (@postgres_effect F)) : result (answer a) -> memory (F := F) -> Prop :=
  match a with
  | Atomic f => fun r s' => exists t, r = Ok (f t s).1 /\ s' = (f t s).2
  | Own x => allowed_own s x
  | _ => fun _ s' => s' = s
  end.
End bot.
