(* ===== verification/PgSqlFacts.v ===== *)
(** * Postgres admin agent: the SQL that is let through

    The two word lists are regular expressions in the source. They find a text exactly when
    one of its words is in the list, whatever its case; so what [query_text] returns is one
    statement, begins with a word that reads, and has neither a word that writes nor one that
    names a secret. *)

From stdpp Require Import base option list strings.
From Stdlib Require Import ZArith Lia Ascii.
From S2P Require Import Prelude PyStr StrFacts PyFloat Json Regex Effects AdminCore PgAgent.

Local Open Scope Z_scope.

(** ** Words *)

(** [w] is a word of [s]: a run of word characters with none before and none after *)
Fixpoint last_char (b : option ascii) (s : string) : option ascii :=
  match s with EmptyString => b | String c s => last_char (Some c) s end.
Definition word_of (s w : string) : Prop :=
  exists a b, s = (a +:+ w +:+ b)%string /\ w <> EmptyString /\ sall is_word w = true /\
    oword (last_char None a) = false /\ oword (head b) = false.
Definition WRITE_LIST : list string :=
  ["insert"; "update"; "delete"; "merge"; "drop"; "alter"; "create"; "grant"; "revoke"; "truncate"; "copy"; "call"; "do";
   "vacuum"; "analyze"; "refresh"; "reindex"]%string.
Definition SECRET_LIST : list string := ["pg_authid"; "pg_shadow"; "rolpassword"; "password"; "passwd"]%string.

(** A word of the list, in any case, between two word boundaries *)
Fixpoint any_case (w : string) : re :=
  match w with EmptyString => REps | String c w => RCat (RSet (fold_case true (eqc c))) (any_case w) end.
Fixpoint one_of_words (w : string) (l : list string) : re :=
  match l with [] => any_case w | w' :: l => RAlt (any_case w) (one_of_words w' l) end.
Definition words_re (l : list string) : re :=
  match l with [] => REps | w :: l => RCat RWord (RCat (RGroup "1" (one_of_words w l)) (RCat RWord REps)) end.
Lemma WRITE_WORDS_shape : WRITE_WORDS = words_re WRITE_LIST.
Proof. reflexivity. Qed.
Lemma SECRET_WORDS_shape : SECRET_WORDS = words_re SECRET_LIST.
Proof. reflexivity. Qed.

(** A character of a word of the lists *)
Definition plain (c : ascii) : bool := is_lower c || eqc c "_".
Definition chars : list ascii := map ascii_of_nat (seq 0 256).
Lemma in_chars c : c ∈ chars.
Proof.
  apply list_elem_of_fmap. exists (nat_of_ascii c). split; [by rewrite ascii_nat_embedding|].
  apply elem_of_seq. pose proof (nat_ascii_bounded c). lia.
Qed.
Lemma all_chars2 (P : ascii -> ascii -> bool) :
  forallb (fun a => forallb (P a) chars) chars = true -> forall a b, P a b = true.
Proof.
  intros HP a b. rewrite forallb_forall in HP.
  assert (forallb (P a) chars = true) as Ha by apply HP, list_elem_of_In, in_chars.
  rewrite forallb_forall in Ha. apply Ha, list_elem_of_In, in_chars.
Qed.
Lemma fold_case_plain c a : plain c = true -> fold_case true (eqc c) a = eqc (lower_char a) c.
Proof.
  intros Hc. assert (implb (plain c) (Bool.eqb (fold_case true (eqc c) a) (eqc (lower_char a) c)) = true) as Hall.
  { revert c a Hc. intros c a _. apply (all_chars2 (fun c a => implb (plain c) (Bool.eqb (fold_case true (eqc c) a) (eqc (lower_char a) c)))).
    vm_compute. reflexivity. }
  rewrite Hc in Hall. by apply Bool.eqb_prop.
Qed.
Lemma lower_plain_word a : plain (lower_char a) = true -> is_word a = true.
Proof.
  intros Ha. assert (implb (plain (lower_char a)) (is_word a) = true) as Hall.
  { apply (all_chars2 (fun a _ => implb (plain (lower_char a)) (is_word a))) with (b := a). vm_compute. reflexivity. }
  by rewrite Ha in Hall.
Qed.

(** ** What the expressions match *)

Lemma any_case_matches t b w s :
  sall plain t = true -> lower w = t -> matches (any_case t) (Pos b (w +:+ s)) (Pos (last_char b w) s).
Proof.
  revert b w. induction t as [|c t IH]; intros b w Ht Hw; destruct w as [|a w]; try discriminate Hw; [apply m_eps|].
  simpl in Ht. apply andb_true_iff in Ht as [Hc Ht]. injection Hw as Ha Hw. cbn [any_case]. rewrite app_cons.
  apply (m_cat _ _ _ (Pos (Some a) (w +:+ s))); [|by apply (IH (Some a) w)]. apply m_set. rewrite fold_case_plain by done.
  by apply bool_decide_eq_true.
Qed.
Lemma any_case_inv t x y :
  sall plain t = true -> matches (any_case t) x y ->
  exists w, lower w = t /\ after x = (w +:+ after y)%string /\ before y = last_char (before x) w.
Proof.
  revert x. induction t as [|c t IH]; intros x Ht Hm; cbn [any_case] in Hm.
  - inversion Hm; subst. by exists EmptyString.
  - simpl in Ht. apply andb_true_iff in Ht as [Hc Ht]. inversion Hm as [| |? ? ? z ? H1 H2| | | | | | | | |]; subst.
    inversion H1 as [|? b a s Ha| | | | | | | | | |]; subst. rewrite fold_case_plain in Ha by done.
    apply bool_decide_eq_true in Ha. destruct (IH _ Ht H2) as (w & Hw & Hs & Hb). simpl in *. exists (String a w).
    split_and!; [change (String (lower_char a) (lower w) = String c t); congruence|rewrite app_cons; congruence|exact Hb].
Qed.
Lemma one_of_words_matches w l x y :
  matches (one_of_words w l) x y <-> exists t, t ∈ w :: l /\ matches (any_case t) x y.
Proof.
  revert w. induction l as [|w' l IH]; intros w; cbn [one_of_words].
  - split; [intros Hm; exists w; split; [left|done]|]. by intros (t & ->%list_elem_of_singleton & Hm).
  - split.
    + intros Hm. inversion Hm as [| | |? ? ? ? H1|? ? ? ? H1| | | | | | |]; subst; [exists w; split; [left|done]|].
      apply IH in H1 as (t & Hin & Hm1). exists t. split; [by right|done].
    + intros (t & Hin & Hm1). apply elem_of_cons in Hin as [->|Hin]; [by apply m_alt_l|]. apply m_alt_r, IH. by exists t.
Qed.
Lemma words_re_matches l x y :
  matches (words_re l) x y <->
  (l = [] /\ y = x) \/ (exists t, t ∈ l /\ word_boundary x = true /\ word_boundary y = true /\ matches (any_case t) x y).
Proof.
  destruct l as [|w l]; cbn [words_re].
  - split; [inversion 1; subst; by left|]. intros [[_ ->]|(t & Hin & _)]; [apply m_eps|by apply not_elem_of_nil in Hin].
  - split.
    + intros Hm. right. inversion Hm as [| |? ? ? x1 ? H1 H2| | | | | | | | |]; subst. inversion H1; subst.
      inversion H2 as [| |? ? ? x2 ? H3 H4| | | | | | | | |]; subst. inversion H3 as [| | | | | | |? ? ? ? H5| | | |]; subst.
      inversion H4 as [| |? ? ? x3 ? H6 H7| | | | | | | | |]; subst. inversion H6; subst. inversion H7; subst.
      apply one_of_words_matches in H5 as (t & Hin & Ht). by exists t.
    + intros [[? _]|(t & Hin & Hx & Hy & Hm)]; [done|]. apply (m_cat _ _ _ x); [by apply m_word|].
      apply (m_cat _ _ _ y); [apply m_group, one_of_words_matches; by exists t|]. apply (m_cat _ _ _ y); [by apply m_word|apply m_eps].
Qed.

(** ** What the search finds *)

Lemma last_char_app b u v : last_char b (u +:+ v) = last_char (last_char b u) v.
Proof. revert b. induction u as [|c u IH]; intros b; [done|]. apply (IH (Some c)). Qed.
Lemma last_char_word b w : w <> EmptyString -> sall is_word w = true -> oword (last_char b w) = true.
Proof.
  revert b. induction w as [|c w IH]; intros b Hn Hw; [done|]. simpl in Hw. apply andb_true_iff in Hw as [Hc Hw]. simpl.
  destruct w as [|d w]; [exact Hc|]. by apply IH.
Qed.
Lemma head_word w s : w <> EmptyString -> sall is_word w = true -> oword (head (w +:+ s)) = true.
Proof. destruct w as [|c w]; [done|]. intros _ Hw. simpl in *. by apply andb_true_iff in Hw as [-> _]. Qed.
Lemma suffix_pos_split b s x : suffix_pos b s x -> exists a, s = (a +:+ after x)%string /\ before x = last_char b a.
Proof.
  induction 1 as [b s|b c s x _ (a & -> & Hb)]; [by exists EmptyString|]. exists (String c a). split; [by rewrite app_cons|exact Hb].
Qed.
Lemma suffix_pos_app b a s : suffix_pos b (a +:+ s) (Pos (last_char b a) s).
Proof. revert b. induction a as [|c a IH]; intros b; [apply sp_here|]. rewrite app_cons. apply sp_next, IH. Qed.
Lemma lower_sall t w : sall plain t = true -> lower w = t -> sall is_word w = true.
Proof.
  revert t. induction w as [|a w IH]; intros t Ht <-; [done|]. simpl in *. apply andb_true_iff in Ht as [Ha Ht].
  apply andb_true_iff. split; [by apply lower_plain_word|by eapply IH].
Qed.

(** A word is found exactly when it is there. *)
Definition word_list (l : list string) : Prop := l <> [] /\ Forall (fun t => t <> EmptyString /\ sall plain t = true) l.
Lemma words_found l s :
  word_list l -> found (re_search (words_re l) s) = true <-> exists w, word_of s w /\ lower w ∈ l.
Proof.
  intros [Hne Hl]. rewrite Forall_forall in Hl.
  assert (found (re_search (words_re l) s) = true <-> re_search (words_re l) s <> None) as ->.
  { by destruct (re_search (words_re l) s). }
  unfold re_search. rewrite search_from_spec. split.
  - intros (x & y & Hx & Hm). apply words_re_matches in Hm as [[? _]|(t & Hin & Hbx & Hby & Hm)]; [done|].
    destruct (Hl t Hin) as [Htn Ht]. destruct (any_case_inv _ _ _ Ht Hm) as (w & Hw & Hs & Hb).
    destruct (suffix_pos_split _ _ _ Hx) as (a & Ha & Hbef). exists w. split; [|by rewrite Hw].
    assert (w <> EmptyString) as Hwn by (intros ->; by subst t). assert (sall is_word w = true) as Hww by (by eapply lower_sall).
    exists a, (after y). rewrite <- Hs. split_and!; [exact Ha|exact Hwn|exact Hww| |].
    + rewrite <- Hbef. unfold word_boundary in Hbx. rewrite Hs, head_word in Hbx by done. by destruct (oword (before x)).
    + unfold word_boundary in Hby. rewrite Hb, last_char_word in Hby by done. by destruct (oword (head (after y))).
  - intros (w & (a & b & -> & Hwn & Hww & Ha & Hb) & Hin). destruct (Hl _ Hin) as [_ Ht].
    exists (Pos (last_char None a) (w +:+ b)), (Pos (last_char (last_char None a) w) b). split; [apply suffix_pos_app|].
    apply words_re_matches. right. exists (lower w). split; [exact Hin|]. unfold word_boundary. simpl.
    split_and!; [rewrite Ha, head_word by done; reflexivity|rewrite last_char_word, Hb by done; reflexivity|].
    by apply any_case_matches.
Qed.
Lemma WRITE_LIST_words : word_list WRITE_LIST.
Proof. split; [done|]. repeat constructor; done. Qed.
Lemma SECRET_LIST_words : word_list SECRET_LIST.
Proof. split; [done|]. repeat constructor; done. Qed.
Lemma write_words_found s : found (re_search WRITE_WORDS s) = true <-> exists w, word_of s w /\ lower w ∈ WRITE_LIST.
Proof. rewrite WRITE_WORDS_shape. apply words_found, WRITE_LIST_words. Qed.
Lemma secret_words_found s : names_secrets s = true <-> exists w, word_of s w /\ lower w ∈ SECRET_LIST.
Proof. unfold names_secrets. rewrite SECRET_WORDS_shape. apply words_found, SECRET_LIST_words. Qed.

(** ** The texts that are sent *)

Definition one_statement (s : string) : Prop := s <> EmptyString /\ contains ";" s = false.
Definition reads_first (s : string) : Prop := exists p, p ∈ READ_PREFIXES /\ startswith p (lower (dropwhile is_opening s)) = true.
Definition no_word_of (l : list string) (s : string) : Prop := forall w, word_of s w -> lower w ∉ l.
Definition reading (s : string) : Prop :=
  one_statement s /\ reads_first s /\ no_word_of WRITE_LIST s /\ no_word_of SECRET_LIST s.
Lemma clean_sql_ok sql s : _clean_sql sql = Ok s -> one_statement s.
Proof.
  unfold _clean_sql. cbv zeta. intros (u & He%raise_if_Ok & (u' & Hs%raise_if_Ok & [= <-])%bind_Ok)%bind_Ok.
  apply bool_decide_eq_false in He. by split.
Qed.
(** C21: A text is sent by [Db.query] exactly when what is left of it without blanks and one
    semicolon at its end is one statement that reads. *)
Theorem query_lets_reads_through sql s :
  query_text sql = Ok s <-> _clean_sql sql = Ok s /\ reading s.
Proof.
  unfold query_text. split.
  - intros (s' & Hc & (u & Hr%raise_if_Ok & (u' & Hn%raise_if_Ok & [= ->])%bind_Ok)%bind_Ok)%bind_Ok.
    split; [exact Hc|]. apply negb_false_iff in Hr. unfold _is_read_only in Hr. apply andb_true_iff in Hr as [Hp Hw].
    apply existsb_exists in Hp as (p & Hin & Hp). apply negb_true_iff in Hw. split; [by eapply clean_sql_ok|]. split.
    { exists p. split; [by apply list_elem_of_In|exact Hp]. }
    split; intros w Hws Hin'.
    + assert (found (re_search WRITE_WORDS s) = true) as Hf by (apply write_words_found; by exists w). congruence.
    + assert (names_secrets s = true) as Hf by (apply secret_words_found; by exists w). congruence.
  - intros (Hc & _ & (p & Hin & Hp) & Hw & Hn). rewrite Hc. cbn [mbind result_bind].
    assert (_is_read_only s = true) as ->.
    { unfold _is_read_only. apply andb_true_iff. split; [apply existsb_exists; exists p; split; [by apply list_elem_of_In|exact Hp]|].
      apply negb_true_iff, not_true_is_false. rewrite write_words_found. intros (w & Hws & Hl). by apply (Hw w). }
    assert (names_secrets s = false) as ->; [|done].
    apply not_true_is_false. rewrite secret_words_found. intros (w & Hws & Hl). by apply (Hn w).
Qed.
