(* ===== verification/PgFacts.v ===== *)
(** * Postgres admin agent: what is executed

    Every statement the agent sends to the database, and every switchover it asks for: of
    one message, and over all interleavings of the tasks of the process. *)

From stdpp Require Import base option list strings.
From Stdlib Require Import ZArith Lia Ascii.
From S2P Require Import Prelude PyStr PyFloat Json Regex StrFacts Effects AdminFormat AdminCore.
From S2P Require Import PgAgent PgBot PgSqlFacts.

Local Open Scope Z_scope.

Section facts.
Context {F : Type} `{PyFloat F}.
Abbreviation row := (odict (json F)).
Abbreviation prog := (@prog (@postgres_effect F)).
Abbreviation act_t := (@action (@postgres_effect F)).
Abbreviation event_t := (@event (@postgres_effect F)).
Abbreviation hist_t := (@hist (@postgres_effect F)).
Variable sg : settings.

(** ** Statements that need no confirmation *)

(** The statements that [Db] writes itself *)
Definition own_statements : list string :=
  [SET_TIMEOUT sg; "SELECT 1"; SELECT_VERSION; SELECT_DATABASE; SELECT_SIZE; SELECT_DATABASES; SELECT_CONNECTIONS; SELECT_NAMES]%string.
Ltac listed := unfold own_statements; repeat first [apply list_elem_of_here | apply list_elem_of_further].
Definition unconfirmed (sql : string) : Prop := sql ∈ own_statements \/ reading sql.
(** What is done for [sender] without a confirmation *)
Definition tame (sender : string) (a : act_t) : Prop :=
  match a with
  | Own (Execute _ sql) => unconfirmed sql
  | Own (HttpPost _ _ _ _) => False
  | Own (PutPending s _) => s = sender
  | Own (PopPending s) => s = sender
  | RoomSend _ _ => False
  | Atomic f => forall t m, mm_pending (f t m).2 = mm_pending m
  | _ => True
  end.
(** Nothing is said to the room. *)
Definition unsent (a : act_t) : Prop := match a with RoomSend _ _ => False | _ => True end.

Lemma only_pure {A B} (P : act_t -> Prop) (r : result A) (f : A -> prog B) :
  (forall a, r = Ok a -> only P (f a)) -> only P (x ← PRet r; f x).
Proof. intros Hf. destruct r as [a|e]; [by apply Hf|apply only_ret]. Qed.
Lemma to_thread_only {A} (P : act_t -> Prop) (p : prog A) : P (Own ThreadDone) -> only P p -> only P (to_thread p).
Proof. intros HP Hp. apply only_pbind; [exact Hp|]. intros r. apply only_bind; [by apply only_act|]. intros _. apply only_ret. Qed.

Section sender.
Variable sender : string.
Abbreviation quiet := (tame sender).
Lemma pg_tame a : quiet (Own a) -> only quiet (pg (F := F) a).
Proof. apply only_act. Qed.
Lemma own_tame sql c : sql ∈ own_statements -> only quiet (pg (F := F) (Execute c sql)).
Proof. intros Hin. apply only_act. by left. Qed.
#[local] Hint Extern 1 (only (tame _) (pg (Execute _ _))) => (apply own_tame; listed) : effects.
#[local] Hint Extern 2 (only (tame _) (pg _)) => (apply pg_tame; exact I) : effects.
#[local] Hint Extern 2 (only (tame _) now) => (apply only_act; by intros ? ?) : effects.
Ltac tame_auto :=
  repeat first [solve [auto with effects] | only_step | apply only_act; exact I | apply only_pbind; [|intros ?; cbv beta]
               | apply to_thread_only; [exact I|]]; try done.

Lemma read_secret_tame path : only quiet (_read_secret_file (F := F) path).
Proof. unfold _read_secret_file. cbv zeta. tame_auto. Qed.
#[local] Hint Resolve read_secret_tame : effects.
Lemma connect_tame : only quiet (_connect (F := F) sg).
Proof. unfold _connect. tame_auto. Qed.
#[local] Hint Resolve connect_tame : effects.
Lemma with_connection_only {A} P (f : conn -> prog A) :
  (forall a, quiet a -> P a) -> (forall c, only P (f c)) -> only P (with_connection sg f).
Proof.
  intros HP Hf. unfold with_connection. apply only_bind; [apply (only_mono _ _ _ HP), connect_tame|]. intros c.
  apply only_finally; [apply Hf|]. by apply only_act, HP.
Qed.
Lemma ping_tame : only quiet (ping (F := F) sg).
Proof. unfold ping. apply only_try; [|tame_auto]. apply with_connection_only; [done|]. intros c. tame_auto. Qed.
Lemma first_value_tame c sql : sql ∈ own_statements -> only quiet (first_value (F := F) c sql).
Proof. intros Hin. unfold first_value. apply only_bind; [by apply own_tame|]. intros _. tame_auto. Qed.
Lemma status_tame : only quiet (PgAgent.status (F := F) sg).
Proof.
  unfold PgAgent.status. apply with_connection_only; [done|]. intros c.
  repeat (apply only_bind; [apply first_value_tame; listed|intros ?]). apply only_ret.
Qed.
Lemma fetch_rows_tame c columns : only quiet (fetch_rows (F := F) sg c columns).
Proof. unfold fetch_rows. tame_auto. Qed.
Lemma query_tame sql : only quiet (query (F := F) sg sql).
Proof.
  unfold query. apply only_pure. intros s [_ Hs]%query_lets_reads_through. apply only_bind.
  - apply with_connection_only; [done|]. intros c. apply only_bind; [apply only_act; by right|]. intros cur. cbv zeta.
    apply only_bind; [apply fetch_rows_tame|]. intros rows. apply only_ret.
  - intros [columns rows]. apply only_ret.
Qed.
Lemma execute_only P sql :
  (forall a, quiet a -> P a) -> (forall c s, execute_text sql = Ok s -> P (Own (Execute c s))) -> only P (execute (F := F) sg sql).
Proof.
  intros HP Hx. unfold execute. apply only_pure. intros s Hs. apply only_bind.
  - apply with_connection_only; [exact HP|]. intros c. apply only_bind; [by apply only_act, Hx|]. intros cur. cbv zeta.
    apply only_bind; [apply (only_mono _ _ _ HP), fetch_rows_tame|]. intros rows. apply only_ret.
  - intros [[st columns] rows]. apply only_ret.
Qed.
Lemma metrics_query_tame promql : only quiet (metrics_query (F := F) sg promql).
Proof. unfold metrics_query. cbv zeta. tame_auto. Qed.
#[local] Hint Resolve ping_tame status_tame query_tame metrics_query_tame : effects.
Lemma summary_tame : only quiet (summary (F := F) sg).
Proof.
  unfold summary. generalize SUMMARY_QUERIES. intros qs. induction qs as [|[[label promql] u] qs IH]; cbn [summary_of]; tame_auto.
Qed.
Lemma cluster_tame : only quiet (cluster (F := F) sg).
Proof. unfold cluster. tame_auto. Qed.
Lemma stage_tame sql kind : only quiet (stage (F := F) sender sql kind).
Proof. unfold stage. tame_auto. Qed.
#[local] Hint Resolve summary_tame cluster_tame stage_tame : effects.

Lemma redact_tame text : only quiet (redact (F := F) sg text).
Proof.
  unfold redact. apply only_bind; [|intros secrets; apply only_ret]. generalize (SECRET_FILES sg). intros paths.
  induction paths as [|path paths IH]; cbn [file_secrets]; tame_auto.
Qed.

(** A statement is executed at once only when writes are not confirmed. *)
Section handling.
Variable P : act_t -> Prop.
Hypothesis tame_P : forall a, quiet a -> P a.
Hypothesis execute_P : sg_confirm_writes sg = false -> forall c s, P (Own (Execute c s)).
Lemma quiet_only {A} (p : prog A) : only quiet p -> only P p.
Proof using tame_P. apply only_mono, tame_P. Qed.
Lemma stage_execution_only sql : only P (stage_execution (F := F) sg sender sql).
Proof using tame_P execute_P.
  unfold stage_execution. cbv zeta. case_bool_decide; [apply only_ret|]. destruct (sg_confirm_writes sg).
  - apply quiet_only. tame_auto.
  - apply only_bind; [|intros r; apply only_ret]. apply execute_only; [exact tame_P|]. intros c s _. by apply execute_P.
Qed.
Lemma call_tool_only name raw : only P (_call_tool (F := F) sg sender name raw).
Proof using tame_P execute_P.
  unfold _call_tool, or_error, dispatch. cbv zeta. apply to_thread_only; [by apply tame_P|].
  apply only_try; [|intros e; apply only_ret]. apply only_bind; [apply only_ret|]. intros args.
  repeat (case_bool_decide; [first [apply quiet_only; solve [tame_auto] | apply only_bind; [apply only_ret|intros sql; apply stage_execution_only]]|]).
  apply only_ret.
Qed.
Lemma command_only body : only P (command (F := F) sg sender body).
Proof using tame_P execute_P.
  unfold command. cbv zeta.
  repeat match goal with
         | |- only P (if ?b then _ else _) => destruct b; [first [apply quiet_only; solve [tame_auto]
             | apply only_bind; [|intros ?; apply only_ret]; apply only_bind; [apply stage_execution_only|intros ?; apply only_ret]]|]
         end.
  apply only_ret.
Qed.
Lemma llm_only body : only P (llm_handle (F := F) sg sender body).
Proof using tame_P execute_P.
  unfold llm_handle. destruct (llm_enabled sg); [|apply only_ret]. apply llm_turns_only; [intros ms; by apply tame_P|apply only_ret|].
  apply call_tool_only.
Qed.
Lemma pg_handle_only body :
  (forall token, confirmation body = Some token -> only P (_confirm (F := F) sg sender token)) ->
  only P (_handle (F := F) sg sender body).
Proof using tame_P execute_P.
  intros Hc. unfold _handle. destruct (confirmation body) as [token|].
  { apply to_thread_only; [by apply tame_P|]. by apply Hc. }
  apply only_bind; [apply command_only|]. intros [reply|]; [apply only_ret|].
  apply only_pbind; [apply only_wait_for, llm_only|].
  intros [s|e]; [apply only_ret|]. destruct (is_timeout e); apply only_ret.
Qed.
End handling.
End sender.

(** ** What a confirmation does *)

Definition now_block : act_t := Atomic (fun now (m : memory (F := F)) => (now, m)).
Definition found_pending (sender : string) (p : pending_execution) : event_t :=
  Ev (Own (GetPending sender) : act_t) (Ok (Some p)).
(** [p] was found under [sender], its token is that of the message, it was not older than
    fifteen minutes, and it was removed. *)
Record confirmed (sender body : string) (h : hist_t) (p : pending_execution) : Prop := {
  cf_token : confirmation body = Some (pe_token p);
  cf_found : found_pending sender p ∈ h;
  cf_fresh : exists t, (Ev now_block (Ok t) : event_t) ∈ h /\ f_ltb EXPIRES (f_sub t (pe_created_at p)) = false;
  cf_removed : (Ev (Own (PopPending sender) : act_t) (Ok tt) : event_t) ∈ h;
}.
Lemma confirmed_later sender body p e h : confirmed sender body h p -> confirmed sender body (e :: h) p.
Proof.
  intros [? ? (t & Ht & Hf) ?]. split; [done|by right|exists t; split; [by right|done]|by right].
Qed.
Definition is_switchover (p : pending_execution (F := F)) : Prop := pe_kind p = "switchover"%string.
(** What the action [a] of [p] is *)
Definition acts_for (sender : string) (p : pending_execution) (a : act_t) : Prop :=
  match a with
  | Own (Execute _ sql) => unconfirmed sql \/ (~ is_switchover p /\ execute_text (pe_sql p) = Ok sql)
  | Own (HttpPost url body _ _) =>
      is_switchover p /\ url = (sg_patroni_url sg +:+ "/switchover")%string /\
      exists leader, body = dumps (switchover_payload leader (pe_sql p))
  | Own (PutPending s _) | Own (PopPending s) => s = sender
  | RoomSend _ _ => False
  | Atomic f => forall t m, mm_pending (f t m).2 = mm_pending m
  | _ => True
  end.
Definition authorised (sender body : string) (h : hist_t) (a : act_t) : Prop :=
  match a with
  | Own (Execute _ sql) =>
      unconfirmed sql \/
      exists p, confirmed sender body h p /\ ~ is_switchover p /\ execute_text (pe_sql p) = Ok sql
  | Own (HttpPost url text _ _) =>
      url = (sg_patroni_url sg +:+ "/switchover")%string /\
      exists p leader, confirmed sender body h p /\ is_switchover p /\ text = dumps (switchover_payload leader (pe_sql p))
  | Own (PutPending s _) => s = sender
  | Atomic f => forall t m, mm_pending (f t m).2 = mm_pending m
  | _ => True
  end.
Lemma tame_authorised sender body h a : tame sender a -> authorised sender body h a.
Proof. destruct a as [|[]| | | | | | | | | | |]; simpl; tauto. Qed.
Lemma acts_for_authorised sender body h p a : confirmed sender body h p -> acts_for sender p a -> authorised sender body h a.
Proof.
  intros Hc. destruct a as [|[]| | | | | | | | | | |]; simpl; try tauto.
  - intros [?|[? ?]]; [by left|right; by exists p].
  - intros (? & ? & leader & ?). split; [done|]. by exists p, leader.
Qed.
Lemma tame_acts_for sender p a : tame sender a -> acts_for sender p a.
Proof. destruct a as [|[]| | | | | | | | | | |]; simpl; tauto. Qed.

Lemma switchover_only sender p :
  is_switchover p -> only (acts_for sender p) (switchover (F := F) sg (pe_sql p)).
Proof.
  intros Hp. assert (forall A (q : prog A), only (tame sender) q -> only (acts_for sender p) q) as Ht.
  { intros A q. apply only_mono, tame_acts_for. }
  unfold switchover. destruct (negb (patroni_enabled sg)); [apply only_ret|].
  apply only_bind; [apply Ht, cluster_tame|]. intros j. apply only_bind; [apply only_ret|]. intros members.
  apply only_bind; [apply only_ret|]. intros leader. destruct (negb (truthy leader)); [apply only_ret|].
  destruct (_ && _); [apply only_ret|]. apply only_bind; [apply Ht, read_secret_tame|]. intros password. cbv zeta.
  apply only_bind; [|intros [text|[code text]]; apply only_ret]. apply only_act. simpl. split; [done|]. split; [done|]. by exists leader.
Qed.
Lemma apply_pending_only sender p : only (acts_for sender p) (apply_pending (F := F) sg p).
Proof.
  unfold apply_pending. case_bool_decide as Hk.
  - apply only_bind; [by apply switchover_only|]. intros outcome.
    apply only_bind; [apply (only_mono _ _ _ (tame_acts_for sender p)), cluster_tame|]. intros j.
    apply only_bind; [apply only_ret|]. intros text. apply only_ret.
  - apply only_bind; [apply (execute_only sender); [apply tame_acts_for|]|].
    + intros c s Hs. right. by split.
    + intros r. apply only_bind; [apply only_ret|]. intros text. apply only_ret.
Qed.
Lemma confirm_authorised sender body token h :
  confirmation body = Some token -> wp (authorised sender body) (_confirm (F := F) sg sender token) h (fun _ _ => True).
Proof.
  intros Hb. unfold _confirm. apply wp_bind. split; [done|]. intros [[p|]|e]; [|done..]. cbn [wp].
  case_bool_decide as Ht; [|done]. simpl negb. cbv iota. apply wp_bind. split; [done|]. intros [t|e]; [|done]. cbn [wp].
  apply wp_bind. split; [done|]. intros [[]|e]; [|done]. cbn [wp].
  change (F) in t. destruct (f_ltb EXPIRES (f_sub t (pe_created_at p))) eqn:Ef; [exact I|].
  set (h3 := Ev _ _ :: _). assert (confirmed sender body h3 p) as Hc.
  { subst token. split; [exact Hb|right; right; left|exists t; split; [right; left|exact Ef]|left]. }
  clearbody h3. eapply wp_mono; [| |exact (wp_both _ _ _ _ _ _ (apply_pending_only sender p h3)
    (wp_stays (fun h => confirmed sender body h p) (apply_pending sg p) h3 (fun e h => confirmed_later sender body p e h) Hc))].
  - intros h' a [Ha Hk]. by apply (acts_for_authorised _ _ _ p).
  - done.
Qed.
Lemma confirm_unsent sender token : only unsent (_confirm (F := F) sg sender token).
Proof.
  unfold _confirm. apply only_bind; [by apply only_act|]. intros [p|]; [|apply only_ret]. destruct (negb _); [apply only_ret|].
  apply only_bind; [by apply only_act|]. intros t. apply only_bind; [by apply only_act|]. intros _.
  destruct (f_ltb _ _); [apply only_ret|]. apply (only_mono (acts_for sender p)); [by intros []|]. apply apply_pending_only.
Qed.
Lemma process_authorised sender body event :
  sg_confirm_writes sg = true -> wp (authorised sender body) (process (F := F) sg sender body event) [] (fun _ _ => True).
Proof.
  intros Hw. apply process_message_guard with (P := tame sender); [done..| | |].
  - intros h a. apply tame_authorised.
  - intros h text. unfold _send. apply wp_bind. eapply wp_post.
    { eapply wp_mono; [intros h' a; apply tame_authorised|done|apply redact_tame]. }
    by intros h' [t|e] _.
  - intros evs _. destruct (confirmation body) as [token|] eqn:Eb.
    + unfold _handle. rewrite Eb. apply wp_pbind. eapply wp_post; [by apply confirm_authorised|]. intros h r _.
      apply wp_bind. split; [done|]. by intros [[]|e].
    + eapply wp_mono; [intros h' a; apply tame_authorised|done|]. apply (pg_handle_only sender (tame sender)); [done|congruence|].
      intros token. by rewrite Eb.
Qed.

(** ** Over all interleavings *)

Definition admitted (x : message) : Prop :=
  ms_room x = sg_matrix_room_id sg /\ ms_sender x <> sg_matrix_user_id sg /\
  (sg_matrix_admin_mxids sg = [] \/ ms_sender x ∈ sg_matrix_admin_mxids sg).
Lemma accepted_admitted x sender body : accepted sg x = Some (sender, body) -> sender = ms_sender x /\ admitted x.
Proof.
  unfold accepted, _on_message. case_bool_decide as Hr; [|done]. simpl. case_bool_decide as Hu; [done|].
  case_bool_decide as Ha; simpl.
  - destruct (sg_require_mention sg); [destruct (strip_mention _ _ _); [|done]|]; intros [= <- _]; (split; [done|]); by split_and!; auto.
  - case_bool_decide as Hin; [|done]. simpl.
    destruct (sg_require_mention sg); [destruct (strip_mention _ _ _); [|done]|]; intros [= <- _]; (split; [done|]); by split_and!; auto.
Qed.

Abbreviation log_t := (list (nat * event_t)).
Abbreviation sys_t := (@sys (@postgres_effect F) (memory (F := F)) message).
Definition postgres_reachable (m : memory (F := F)) : sys_t -> Prop :=
  reachable allowed (fun _ => True) (message_task sg) m.
Definition staged_as (sender : string) (p : pending_execution) : event_t := Ev (Own (PutPending sender p) : act_t) (Ok tt).
(** What is staged for a sender was staged by a task of that sender. *)
Definition staged_by (s : sys_t) (sender : string) (p : pending_execution) : Prop :=
  exists j t, sy_tasks s !! j = Some t /\ ms_sender (tk_job t) = sender /\ admitted (tk_job t) /\ (j, staged_as sender p) ∈ sy_log s.
Definition guard_of (x : message) (h : hist_t) (a : act_t) : Prop :=
  exists body, accepted sg x = Some (ms_sender x, body) /\ authorised (ms_sender x) body h a.
Lemma message_task_guard x : sg_confirm_writes sg = true -> wp (guard_of x) (message_task (F := F) sg x) [] (fun _ _ => True).
Proof.
  intros Hw. unfold message_task. destruct (accepted sg x) as [[sender body]|] eqn:Ea; [|done].
  destruct (accepted_admitted _ _ _ Ea) as [-> _]. eapply wp_mono; [| |by apply process_authorised]; [|done].
  intros h a Ha. by exists body.
Qed.
Definition found_of (e : event_t) : option (string * pending_execution) :=
  match e with Ev (Own (GetPending sender)) (Ok (Some p)) => Some (sender, p) | _ => None end.
(** The staged statements, and those that were found, were staged by their sender. *)
Record owned (s : sys_t) : Prop := {
  slots_owned : NoDup (dkeys (mm_pending (sy_mem s))) /\ forall sender p, dget sender (mm_pending (sy_mem s)) = Some p -> staged_by s sender p;
  found_owned : forall i e sender p, (i, e) ∈ sy_log s -> found_of e = Some (sender, p) -> staged_by s sender p;
}.
Lemma staged_by_spawn m ts l x sender p : staged_by (Sys m ts l) sender p -> staged_by (Sys m (ts ++ [x]) l) sender p.
Proof.
  intros (j & t & Hj & Hr). exists j, t. split; [|done]. by apply lookup_app_l_Some.
Qed.
Lemma staged_by_act m m' ts l i job rest rest' hs hs' e sender p :
  ts !! i = Some (Task job rest hs) -> staged_by (Sys m ts l) sender p ->
  staged_by (Sys m' (<[i := Task job rest' hs']> ts) (e :: l)) sender p.
Proof.
  intros Hi (j & t & Hj & Hs & Ha & Hl). simpl in *. destruct (decide (j = i)) as [->|Hne].
  - rewrite Hi in Hj. injection Hj as <-. exists i, (Task job rest' hs').
    split; [apply list_lookup_insert_eq; by eapply lookup_lt_Some|]. split; [done|]. split; [done|by right].
  - exists j, t. split; [simpl; by rewrite list_lookup_insert_ne|]. split; [done|]. split; [done|by right].
Qed.
Lemma task_guard m s i t a k :
  sg_confirm_writes sg = true -> postgres_reachable m s -> sy_tasks s !! i = Some t -> tk_rest t = POp a k ->
  guard_of (tk_job t) (tk_hist t) a.
Proof. intros Hw Hr Ht Ha. exact (reachable_guard _ _ _ _ _ i t a k _ _ Hr Ht Ha (message_task_guard _ Hw)). Qed.
(** An action that leaves the staged statements as they are, and finds none *)
Lemma owned_plain m m' ts l i job rest rest' hs hs' e :
  ts !! i = Some (Task job rest hs) -> owned (Sys m ts l) -> mm_pending m' = mm_pending m -> found_of e = None ->
  owned (Sys m' (<[i := Task job rest' hs']> ts) ((i, e) :: l)).
Proof.
  intros Hi [[Hd Hslots] Hfound] Hm He. simpl in *. split; simpl.
  - rewrite Hm. split; [done|]. intros sender p Hp. eapply staged_by_act; [exact Hi|by apply Hslots].
  - intros j e' sender p Hin Hf. eapply staged_by_act; [exact Hi|].
    apply elem_of_cons in Hin as [[= -> ->]|Hin]; [congruence|by eapply Hfound].
Qed.
Lemma postgres_owned m s :
  sg_confirm_writes sg = true -> mm_pending m = [] -> postgres_reachable m s -> owned s.
Proof.
  intros Hw Hm. apply reachable_invariant.
  { split; simpl; [rewrite Hm; split; [constructor|done]|]. intros i e sender p Hin. by apply not_elem_of_nil in Hin. }
  intros s1 s2 Hr IH Hs. destruct Hs as [m1 ts l x _|m1 m2 ts l i job a k hs r Hi Ha].
  { destruct IH as [[Hd Hslots] Hfound]. split; simpl; [split; [done|]|]; intros; apply staged_by_spawn; [by apply Hslots|by eapply Hfound]. }
  destruct (task_guard _ _ _ _ _ _ Hw Hr Hi eq_refl) as (body & Hacc & Hg). simpl in Hacc, Hg.
  destruct a as [B f|x| | | | | | | | | | |]; try (simpl in Ha; subst m2; by eapply owned_plain).
  { destruct Ha as (t & -> & ->). eapply owned_plain; [exact Hi|exact IH|apply Hg|done]. }
  destruct x; try (simpl in Ha; subst m2; by eapply owned_plain); destruct Ha as [-> ->].
  - destruct (dget sender (mm_pending m1)) as [p|] eqn:Ep; [|by eapply owned_plain].
    destruct IH as [[Hd Hslots] Hfound]. simpl in *. split; simpl; [split; [done|]|].
    + intros sender' p' Hp'. eapply staged_by_act; [exact Hi|by apply Hslots].
    + intros j e' sender' p' Hin Hf. eapply staged_by_act; [exact Hi|].
      apply elem_of_cons in Hin as [[= -> ->]|Hin]; [|by eapply Hfound]. injection Hf as <- <-. by apply Hslots.
  - simpl in Hg. subst sender. destruct (accepted_admitted _ _ _ Hacc) as [_ Hadm].
    destruct IH as [[Hd Hslots] Hfound]. simpl in *. split; simpl; [split; [by apply dset_NoDup|]|].
    + intros sender' p'. rewrite dget_dset. case_bool_decide as Hse; [subst sender'; intros [= <-]|].
      * exists i, (Task job (k (Ok tt)) (Ev (Own (PutPending (ms_sender job) p) : act_t) (Ok tt) :: hs)).
        split; [simpl; apply list_lookup_insert_eq; by eapply lookup_lt_Some|]. split; [done|]. split; [done|left].
      * intros Hp'. eapply staged_by_act; [exact Hi|by apply Hslots].
    + intros j e' sender' p' Hin Hf. eapply staged_by_act; [exact Hi|].
      apply elem_of_cons in Hin as [[= -> ->]|Hin]; [done|by eapply Hfound].
  - destruct IH as [[Hd Hslots] Hfound]. simpl in *. split; simpl; [split; [by apply dpop_NoDup|]|].
    + intros sender' p'. rewrite dget_dpop by done. case_bool_decide; [done|]. intros Hp'.
      eapply staged_by_act; [exact Hi|by apply Hslots].
    + intros j e' sender' p' Hin Hf. eapply staged_by_act; [exact Hi|].
      apply elem_of_cons in Hin as [[= -> ->]|Hin]; [done|by eapply Hfound].
Qed.

(** A pending statement that a task found was staged by its sender. *)
Lemma confirmed_was_staged m s i t body p :
  sg_confirm_writes sg = true -> mm_pending m = [] -> postgres_reachable m s -> sy_tasks s !! i = Some t ->
  confirmed (ms_sender (tk_job t)) body (tk_hist t) p -> staged_by s (ms_sender (tk_job t)) p.
Proof.
  intros Hw Hm Hr Ht Hc. destruct (proj1 (reachable_well_run _ _ _ _ _ Hr) i t Ht) as (_ & _ & Hh).
  apply (found_owned _ (postgres_owned _ _ Hw Hm Hr) i (found_pending (ms_sender (tk_job t)) p)); [|done].
  apply seen_by_elem. rewrite <- Hh. apply Hc.
Qed.

(** C7: Over all interleavings, when the setting that makes writes wait for a confirmation is
    on: a statement that is about to be sent to the database is one of the agent's own, or
    passes the program's test of words for a statement that reads, or it is the text of a
    statement that a task of the same admitted sender had staged; then the message of the
    task is the confirmation with its token, which came in time, and the statement was taken
    from the staged ones. The test of words is all that holds back the rest: SELECT INTO,
    which makes a table, passes it ([PgDemo.select_into_passes]). *)
Theorem executed_sql_was_confirmed m (s : sys_t) i t c sql k :
  sg_confirm_writes sg = true -> mm_pending m = [] -> postgres_reachable m s ->
  sy_tasks s !! i = Some t -> tk_rest t = POp (Own (Execute c sql) : act_t) k ->
  unconfirmed sql \/
  exists body p, accepted sg (tk_job t) = Some (ms_sender (tk_job t), body) /\ admitted (tk_job t) /\
    confirmed (ms_sender (tk_job t)) body (tk_hist t) p /\ staged_by s (ms_sender (tk_job t)) p /\
    ~ is_switchover p /\ execute_text (pe_sql p) = Ok sql.
Proof.
  intros Hw Hm Hr Ht Hk. destruct (task_guard _ _ _ _ _ _ Hw Hr Ht Hk) as (body & Hacc & [Hu|(p & Hc & Hn & Hx)]); [by left|right].
  exists body, p. split; [done|]. split; [by eapply accepted_admitted|]. split; [done|]. split; [|done]. by eapply confirmed_was_staged.
Qed.

(** The same of a switchover: the leader is asked to step down only for a switchover that
    was staged and confirmed, and for the candidate that was named there. *)
Theorem switchover_was_confirmed m (s : sys_t) i t url text headers timeout k :
  sg_confirm_writes sg = true -> mm_pending m = [] -> postgres_reachable m s ->
  sy_tasks s !! i = Some t -> tk_rest t = POp (Own (HttpPost url text headers timeout) : act_t) k ->
  url = (sg_patroni_url sg +:+ "/switchover")%string /\
  exists body p leader, accepted sg (tk_job t) = Some (ms_sender (tk_job t), body) /\ admitted (tk_job t) /\
    confirmed (ms_sender (tk_job t)) body (tk_hist t) p /\ staged_by s (ms_sender (tk_job t)) p /\
    is_switchover p /\ text = dumps (switchover_payload leader (pe_sql p)).
Proof.
  intros Hw Hm Hr Ht Hk. destruct (task_guard _ _ _ _ _ _ Hw Hr Ht Hk) as (body & Hacc & Hu & p & leader & Hc & Hn & Hx).
  split; [done|]. exists body, p, leader. split; [done|]. split; [by eapply accepted_admitted|]. split; [done|]. split; [|done].
  by eapply confirmed_was_staged.
Qed.

(** ** What the room is told *)

Definition read_file (path : string) (r : result string) : event_t := Ev (Own (ReadFile path) : act_t) r.
(** The files were read since [h], and what they hold is among the secrets. *)
Definition files_read (paths : list string) (h : hist_t) (secrets : list string) (h' : hist_t) : Prop :=
  exists evs, h' = evs ++ h /\ (forall path, path ∈ paths -> exists r, read_file path r ∈ evs) /\
    forall path text, read_file path (Ok text) ∈ evs -> non_empty (strip text) = true -> strip text ∈ secrets.
Definition file_of (e : event_t) : option (string * result string) :=
  match e with Ev (Own (ReadFile path)) r => Some (path, r) | _ => None end.
Lemma read_file_inj path r path' r' : read_file path r = read_file path' r' -> path = path' /\ r = r'.
Proof. intros Hx. apply (f_equal file_of) in Hx. by injection Hx. Qed.
Lemma files_read_cons path r paths h secrets secret h' :
  (forall text, r = Ok text -> non_empty (strip text) = true -> secret = [strip text]) ->
  files_read paths (read_file path r :: h) secrets h' -> files_read (path :: paths) h (secret ++ secrets) h'.
Proof.
  intros Hr (evs & -> & Hall & Hin). exists (evs ++ [read_file path r]). rewrite <- app_assoc. split; [done|]. split.
  - intros path' [->|Hp]%elem_of_cons; [exists r; apply elem_of_app; right; left|].
    destruct (Hall _ Hp) as [r' Hr']. exists r'. apply elem_of_app. by left.
  - intros path' text [He|He%list_elem_of_singleton]%elem_of_app Hn; apply elem_of_app; [right; by eapply Hin|left].
    apply read_file_inj in He as [-> <-]. rewrite (Hr text) by done. left.
Qed.
Lemma secret_file_read path h :
  wp (fun _ a => unsent a) (_read_secret_file (F := F) path) h (fun h' r => exists a, h' = read_file path a :: h /\
    forall text, a = Ok text -> non_empty (strip text) = true -> r = Ok (strip text)).
Proof.
  unfold _read_secret_file. apply wp_bind, wp_pbind. split; [exact I|]. intros [text|e]; cbn [wp].
  - cbv zeta. destruct (non_empty (strip text)) eqn:En; exists (Ok text); (split; [done|]); intros text' [= <-]; congruence.
  - destruct (is_os_error e); exists (Raise e); by split.
Qed.
Lemma file_secrets_read paths h :
  wpo (fun _ a => unsent a) (file_secrets (F := F) paths) h (fun h' secrets => files_read paths h secrets h').
Proof.
  revert h. induction paths as [|path paths IH]; intros h; cbn [file_secrets].
  { apply wpo_mret. exists []. split; [done|]. split; intros ?; [by intros ?%not_elem_of_nil|]. by intros ? ?%not_elem_of_nil. }
  assert (forall r secret, (forall text, r = Ok text -> non_empty (strip text) = true -> secret = [strip text]) ->
    wpo (fun _ a => unsent a) (rest ← file_secrets paths; mret (secret ++ rest)) (read_file path r :: h)
      (fun h' secrets => files_read (path :: paths) h secrets h')) as Hrest.
  { intros r secret Hs. apply wpo_bind. eapply wpo_post; [apply IH|]. intros h' rest Hf. apply wpo_mret. by eapply files_read_cons. }
  apply wpo_bind. apply wp_try, wp_bind. eapply wp_post; [apply secret_file_read|]. intros h1 [s|e] (a & -> & Ha).
  - apply (Hrest a [s]). intros text Ht Hn. specialize (Ha text Ht Hn). congruence.
  - destruct (is_exception e); [|done]. apply (Hrest a []). intros text Ht Hn. specialize (Ha text Ht Hn). discriminate.
Qed.
Definition hidden (text s : string) : Prop := concealable s = true -> contains s text = false.
Definition told (h : hist_t) (a : act_t) : Prop :=
  match a with
  | RoomSend room content =>
      room = sg_matrix_room_id sg /\
      exists secrets h' text, files_read (SECRET_FILES sg) h' secrets h /\ dget "body" content = Some text /\
        dget "formatted_body" content = Some (markdown_to_matrix_html text) /\
        Forall (hidden text) (fixed_secrets sg) /\ Forall (hidden text) secrets
  | _ => True
  end.
Lemma pg_unsent_told h a : unsent a -> told h a.
Proof. by destruct a. Qed.

(** Whatever a message of the agent says, the secrets of its settings, and what the secret
    files held when they were read just before, are not in it, unless "<redacted>" itself
    could make them up. *)
Theorem pg_room_hears_no_secret sender body event room content (h : hist_t) k :
  steps (process (F := F) sg sender body event) [] (POp (RoomSend room content : act_t) k) h -> told h (RoomSend room content).
Proof.
  intros Hs. assert (wp told (process (F := F) sg sender body event) [] (fun _ _ => True)) as Hw.
  { apply process_message_guard with (P := unsent); [done..| | |].
    - intros h' a. apply pg_unsent_told.
    - intros h' text. unfold _send, redact. apply wp_bind, wp_bind.
      eapply wp_mono; [intros h1 a; exact (pg_unsent_told h1 a)| |apply file_secrets_read].
      intros h1 [secrets|e] Hf; [|done]. cbn [wp mret prog_ret]. split; [|done]. split; [done|].
      exists secrets, h', (redact_all (fixed_secrets sg ++ secrets) text). split_and!; [exact Hf|done|done|..];
        apply Forall_forall; intros s Hin Hc; (apply redact_all_conceals; [apply elem_of_app|exact Hc]); auto.
    - intros evs _. eapply wp_mono; [apply pg_unsent_told|done|]. apply (pg_handle_only sender unsent); [|done|].
      + by intros [].
      + intros token _. apply confirm_unsent. }
  exact (wp_guard _ _ _ _ _ _ _ Hw Hs).
Qed.
End facts.

(** ** Postgres admin agent: the answer to a query

    What the room is shown of the rows that a query returned. *)

Section format.
Context {F : Type} `{PyFloat F}.
Variable sg : settings.

(** The lines of a table of these rows, of which [limit] are shown *)
Definition shown_row (r : list (cell (F := F))) : string := join " | " (map (fun v => _cell (_jsonable v)) r).
Definition more_line (limit : nat) : string := "... truncated at " +:+ str_of_Z (Z.of_nat limit) +:+ " rows".
Definition table (limit : nat) (columns : list string) (rows : list (list (cell (F := F)))) : list string :=
  ([join " | " columns; join " | " (map (fun _ => "---"%string) columns)] ++ map shown_row (take limit rows) ++
   (if (limit <? length rows)%nat then [more_line limit] else []))%list.

Lemma all_ok_map {A B C} (f : B -> result C) (g : A -> B) (h : A -> C) l :
  (forall a, f (g a) = Ok (h a)) -> all_ok f (map g l) = Ok (map h l).
Proof. intros Hf. induction l as [|a l IH]; simpl; [done|]. by rewrite Hf, IH. Qed.
Lemma map_json_str (l : list string) : map (json_str (F := F)) (map JStr l) = l.
Proof. induction l as [|s l IH]; simpl; [done|]. by rewrite IH. Qed.
Lemma slice_to_take {A} n (l : list A) : 0 <= n -> slice_to n l = take (Z.to_nat n) l.
Proof. intros Hn. unfold slice_to. by destruct (Z.ltb_spec n 0); [lia|]. Qed.
Lemma truthy_or_arr (d : json F) (l : list (json F)) : l <> [] -> truthy_or d (Some (JArr l)) = JArr l.
Proof. by destruct l. Qed.
Lemma truthy_or_empty (l : list (json F)) : py_list (truthy_or (JArr []) (Some (JArr l))) = Ok l.
Proof. by destruct l. Qed.
Lemma row_lines (rows : list (list (cell (F := F)))) :
  all_ok row_line (map (fun r => JArr (map _jsonable r)) rows) = Ok (map shown_row rows).
Proof. apply all_ok_map. intros r. unfold row_line, shown_row. simpl. by rewrite map_map. Qed.

(** A value is shown on one line, cut to 200 characters. *)
Lemma cell_bounded (j : json F) : (String.length (_cell j) <= CELL)%nat.
Proof.
  unfold _cell. generalize (smap (fun c => if eqc c LF then " "%char else c) (json_str j)), CELL. intros s n.
  revert s. induction n as [|n IH]; intros [|c s]; simpl; try lia. specialize (IH s). lia.
Qed.
Lemma cell_one_line (j : json F) : sall (fun c => negb (eqc c LF)) (_cell j) = true.
Proof.
  unfold _cell. apply sall_stake. generalize (json_str j). intros s. induction s as [|c s IH]; [done|].
  cbn [smap sall]. rewrite IH, andb_true_r. destruct (eqc c LF) eqn:E; [done|]. by rewrite E.
Qed.

(** The answer to a query that has columns is a fenced table of at most eighty lines: the
    names, a rule, one line for each of the first [row_limit] rows, and a last line exactly
    when there were more; each value is one line of at most 200 characters. *)
Theorem query_answer_is_a_table columns rows :
  0 <= sg_row_limit sg -> columns <> [] ->
  format_query_result (rows_result sg [] columns rows) =
    Ok (FENCE +:+ newline +:+ join newline (take LINES (table (Z.to_nat (sg_row_limit sg)) columns rows)) +:+ newline +:+ FENCE)%string /\
  (length (take LINES (table (Z.to_nat (sg_row_limit sg)) columns rows)) <= 80)%nat /\
  forall v : cell (F := F), (String.length (_cell (_jsonable v)) <= 200)%nat /\
    sall (fun c => negb (eqc c LF)) (_cell (_jsonable v)) = true.
Proof.
  intros Hn Hc. split; [|split; [rewrite length_take; unfold LINES; lia|intros v; split; [apply cell_bounded|apply cell_one_line]]].
  assert (map JStr columns <> ([] : list (json F))) as Hc' by (by destruct columns).
  set (limit := Z.to_nat (sg_row_limit sg)). set (r := rows_result sg [] columns rows).
  assert (dget "status" r = None /\ dget "columns" r = Some (JArr (map JStr columns)) /\
          dget "rows" r = Some (JArr (map (fun r => JArr (map _jsonable r)) (take limit rows))) /\
          dget "truncated" r = Some (JBool (sg_row_limit sg <? Z.of_nat (length rows)))) as (Es & Ec & Er & Et).
  { unfold r, rows_result, rows_json. rewrite slice_to_take by done. done. }
  unfold format_query_result. rewrite Es, Ec, Er, !truthy_or_empty. cbn [otruthy andb mbind result_bind].
  destruct (map JStr columns) as [|c0 cs] eqn:Ecols; [done|]. rewrite <- Ecols.
  unfold table_lines. rewrite row_lines, map_json_str, Et. cbn [mbind result_bind otruthy truthy]. unfold table.
  assert ((sg_row_limit sg <? Z.of_nat (length rows)) = (limit <? length rows)%nat) as ->.
  { unfold limit. destruct (Z.ltb_spec (sg_row_limit sg) (Z.of_nat (length rows))), (Nat.ltb_spec (Z.to_nat (sg_row_limit sg)) (length rows)); lia || done. }
  rewrite !map_map, length_map, length_take. destruct (Nat.ltb_spec limit (length rows)) as [Hl|Hl]; [|done].
  by rewrite Nat.min_l by lia.
Qed.
End format.
