(* ===== verification/PgDemo.v ===== *)
(** * Postgres admin agent: concrete runs

    One administrator and a database that answers every statement alike; a statement that is
    staged, confirmed and executed, and one that is executed twice. *)

From stdpp Require Import base option list strings.
From Stdlib Require Import ZArith Lia Ascii Floats.
From S2P Require Import Prelude PyStr StrFacts PyFloat Json Regex Effects AdminFormat AdminCore.
From S2P Require Import PgAgent PgBot PgSqlFacts PgFacts.

Local Open Scope Z_scope.
Abbreviation fl := spec_float.
Abbreviation act_t := (@action (@postgres_effect fl)).

Definition demo : settings :=
  {| sg_pg_dsn := "postgres://db"; sg_pg_password_file := "/secrets/pg"; sg_patroni_url := "http://patroni";
     sg_patroni_username := "patroni"; sg_patroni_password_file := "/secrets/rest"; sg_matrix_homeserver_url := "http://m";
     sg_matrix_user_id := "@bot:x"; sg_matrix_password := "matrix-pw"; sg_matrix_room_id := "!room:x";
     sg_matrix_admin_mxids := ["@ann:x"]; sg_llm_base_url := ""; sg_llm_api_key := ""; sg_llm_model := "";
     sg_prometheus_url := ""; sg_metrics_window_minutes := 60; sg_health_http_addr := "0.0.0.0:9100";
     sg_response_timeout_seconds := 60; sg_llm_timeout_seconds := 25; sg_matrix_ssl_verify := true;
     sg_statement_timeout_ms := 15000; sg_row_limit := 2; sg_confirm_writes := true; sg_announce_on_start := false;
     sg_require_mention := false; sg_mention_aliases := [] |}%string.
Definition blank : memory (F := fl) :=
  {| mm_started_at := f_of_Z 0; mm_matrix_logged_in := true; mm_room_joined := true; mm_last_error := EmptyString;
     mm_last_message_at := f_of_Z 0; mm_last_reply_at := f_of_Z 0; mm_pending := [] |}.

(** ** Answers *)

Definition cluster_text : string :=
  dumps (F := fl) (JObj [("members", JArr [JObj [("name", JStr "n1"); ("role", JStr "leader")]])])%string.
Definition demo_own (x : paction (F := fl)) (m : memory (F := fl)) : result (panswer x) * memory (F := fl) :=
  match x with
  | GetPending sender => (Ok (dget sender (mm_pending m)), m)
  | PutPending sender p => (Ok tt, set_pending (dset sender p (mm_pending m)) m)
  | PopPending sender => (Ok tt, set_pending (dpop sender (mm_pending m)) m)
  | ReadFile _ => (Ok "pw-1"%string, m)
  | ConnectDb _ _ => (Ok 1%nat, m)
  | Execute _ _ => (Ok {| cr_statusmessage := Some "DELETE 1"%string; cr_description := None |}, m)
  | FetchOne _ => (Ok (Some [JStr "pw-1 of the database"]), m)
  | FetchMany _ _ => (Ok [], m)
  | HttpGet _ _ => (Ok cluster_text, m)
  | HttpPost _ _ _ _ => (Ok (inl "done"%string), m)
  | LeaveConn _ | ThreadDone => (Ok tt, m)
  end.
Definition demo_answer (a : act_t) (m : memory (F := fl)) : result (answer a) * memory (F := fl) :=
  match a with
  | Atomic f => let '(b, m) := f (f_of_Z 100) m in (Ok b, m)
  | Own x => demo_own x m
  | MatrixLogin _ _ | MatrixJoin _ => (Ok MatrixDone, m)
  | Complete _ _ _ => (Ok {| cm_content := None; cm_tool_calls := [] |}, m)
  | TokenHex => (Ok "abc123"%string, m)
  | Sleep _ | MatrixSync _ | AddCallback | SyncForever _ | RoomSend _ _ | ReadMarkers _ _ | Typing _ _ => (Ok tt, m)
  end.
Lemma pg_answer_allowed (m : memory (F := fl)) a : allowed m a (demo_answer a m).1 (demo_answer a m).2.
Proof.
  destruct a as [B f|x| | | | | | | | | | |]; try done.
  - unfold allowed, demo_answer. exists (f_of_Z 100). by destruct (f (f_of_Z 100) m).
  - by destruct x.
Qed.

Definition DELETE : string := "delete from t".
Definition deletes (a : act_t) : bool := match a with Own (Execute _ sql) => bool_decide (sql = DELETE) | _ => false end.
Definition posts (a : act_t) : bool := match a with Own (HttpPost _ _ _ _) => true | _ => false end.
Definition sends (a : act_t) : bool := match a with RoomSend _ _ => true | _ => false end.
Definition pops (a : act_t) : bool := match a with Own (PopPending _) => true | _ => false end.
Definition never (a : act_t) : bool := false.

Definition said_by_ann (body : string) : message :=
  {| ms_room := "!room:x"; ms_sender := "@ann:x"; ms_body := body; ms_event := "$1" |}.
Abbreviation sys_t := (@sys (@postgres_effect fl) (memory (F := fl)) message).
Definition say (body : string) (s : sys_t) : sys_t := spawn (message_task (F := fl) demo) (said_by_ann body) s.
Definition until (stop : act_t -> bool) (i : nat) (s : sys_t) : sys_t := run_task 80 stop demo_answer i s.
Definition start : sys_t := Sys blank [] [].
Lemma say_reachable body s : postgres_reachable demo blank s -> postgres_reachable demo blank (say body s).
Proof. by apply spawn_reachable. Qed.
Lemma until_reachable stop i s : postgres_reachable demo blank s -> postgres_reachable demo blank (until stop i s).
Proof. apply run_task_reachable. intros m a _. apply pg_answer_allowed. Qed.
Lemma start_reachable : postgres_reachable demo blank start.
Proof. apply reach_start. Qed.
Ltac run_reachable := repeat first [apply until_reachable | apply say_reachable | apply start_reachable].

(** ** Witnesses *)

Definition staged := until never 0 (say "!pg exec delete from t;" start).
Definition at_delete := until deletes 1 (say "confirm abc123" staged).
Lemma at_delete_reachable : postgres_reachable demo blank at_delete.
Proof. unfold at_delete, staged. run_reachable. Qed.
Lemma executed_sql_was_confirmed_witness : exists t k,
  sg_confirm_writes demo = true /\ mm_pending blank = [] /\ postgres_reachable demo blank at_delete /\
  sy_tasks at_delete !! 1%nat = Some t /\ tk_rest t = POp (Own (Execute 1%nat DELETE) : act_t) k /\
  (unconfirmed demo DELETE \/
   exists body p, accepted demo (tk_job t) = Some (ms_sender (tk_job t), body) /\ admitted demo (tk_job t) /\
     confirmed (ms_sender (tk_job t)) body (tk_hist t) p /\ staged_by demo at_delete (ms_sender (tk_job t)) p /\
     ~ is_switchover p /\ execute_text (pe_sql p) = Ok DELETE).
Proof.
  destruct (next_of_performs 1 at_delete (Own (Execute 1%nat DELETE) : act_t)) as (t & k & Ht & Hk).
  { vm_compute. reflexivity. }
  exists t, k. split; [reflexivity|]. split; [reflexivity|]. split; [exact at_delete_reachable|]. split; [exact Ht|].
  split; [exact Hk|]. exact (executed_sql_was_confirmed demo blank at_delete 1 t 1%nat DELETE k eq_refl eq_refl at_delete_reachable Ht Hk).
Defined.

Definition at_switchover := until posts 1 (say "confirm abc123" (until never 0 (say "!pgha switchover n2" start))).
Lemma at_switchover_reachable : postgres_reachable demo blank at_switchover.
Proof. unfold at_switchover. run_reachable. Qed.
Definition switchover_url : string := "http://patroni/switchover".
Definition switchover_text : string := dumps (F := fl) (switchover_payload (JStr "n1") "n2").
Definition switchover_headers : odict string :=
  [("content-type", "application/json"); ("authorization", "Basic cGF0cm9uaTpwdy0x")]%string.
Lemma switchover_was_confirmed_witness : exists t k,
  sg_confirm_writes demo = true /\ mm_pending blank = [] /\ postgres_reachable demo blank at_switchover /\
  sy_tasks at_switchover !! 1%nat = Some t /\
  tk_rest t = POp (Own (HttpPost switchover_url switchover_text switchover_headers 30) : act_t) k /\
  (switchover_url = (sg_patroni_url demo +:+ "/switchover")%string /\
   exists body p (leader : json fl), accepted demo (tk_job t) = Some (ms_sender (tk_job t), body) /\ admitted demo (tk_job t) /\
     confirmed (ms_sender (tk_job t)) body (tk_hist t) p /\ staged_by demo at_switchover (ms_sender (tk_job t)) p /\
     is_switchover p /\ switchover_text = dumps (switchover_payload leader (pe_sql p))).
Proof.
  destruct (next_of_performs 1 at_switchover
    (Own (HttpPost switchover_url switchover_text switchover_headers 30) : act_t)) as (t & k & Ht & Hk).
  { vm_compute. reflexivity. }
  exists t, k. split; [reflexivity|]. split; [reflexivity|]. split; [exact at_switchover_reachable|]. split; [exact Ht|].
  split; [exact Hk|].
  exact (switchover_was_confirmed demo blank at_switchover 1 t switchover_url switchover_text switchover_headers 30 k
           eq_refl eq_refl at_switchover_reachable Ht Hk).
Defined.

Definition asking := process (F := fl) demo "@ann:x" "!pg status" "$1".
Definition at_send := reach sends demo_answer asking blank [].
Definition said : odict string := matrix_text_content
  "Postgres admin error: TypeError: object is not iterable".
Lemma pg_room_hears_no_secret_witness : exists content k,
  steps asking [] (POp (RoomSend "!room:x" content : act_t) k) at_send.2 /\ told demo at_send.2 (RoomSend "!room:x" content).
Proof.
  destruct (next_action at_send.1) as [[]|] eqn:En; try (vm_compute in En; discriminate En).
  destruct (reach_performs sends demo_answer asking blank [] _ En) as [k Hk].
  assert (room = "!room:x"%string) as -> by (vm_compute in En; congruence).
  exists content, k. split; [exact Hk|]. exact (pg_room_hears_no_secret demo "@ann:x" "!pg status" "$1" "!room:x" content _ k Hk).
Defined.

Definition some_rows : list (list (cell (F := fl))) := [[CInt 1; CStr "a"]; [CInt 2; CNull]; [CInt 3; CNull]]%string.
Example some_table : format_query_result (rows_result demo [] ["id"; "name"]%string some_rows) =
  Ok (FENCE +:+ newline +:+ join newline ["id | name"; "--- | ---"; "1 | a"; "2 | None"; "... truncated at 2 rows"] +:+ newline +:+ FENCE)%string.
Proof. vm_compute. reflexivity. Qed.
Lemma query_answer_is_a_table_witness : 0 <= sg_row_limit demo /\ ["id"; "name"]%string <> [] /\
  (format_query_result (rows_result demo [] ["id"; "name"]%string some_rows) =
     Ok (FENCE +:+ newline +:+ join newline (take LINES (table 2 ["id"; "name"]%string some_rows)) +:+ newline +:+ FENCE)%string /\
   (length (take LINES (table 2 ["id"; "name"]%string some_rows)) <= 80)%nat /\
   forall v : cell (F := fl), (String.length (_cell (_jsonable v)) <= 200)%nat /\
     sall (fun c => negb (eqc c LF)) (_cell (_jsonable v)) = true).
Proof.
  split; [done|]. split; [done|]. exact (query_answer_is_a_table demo ["id"; "name"]%string some_rows ltac:(done) ltac:(done)).
Defined.

(** ** What the code lets happen *)

(** Which tasks executed the statement, and how often it was staged *)
Definition executors (s : sys_t) : list nat :=
  rev (omap (fun e => if deletes (ev_action e.2) then Some e.1 else None) (sy_log s)).
Definition is_put (a : act_t) : bool := match a with Own (PutPending _ _) => true | _ => false end.
Definition stagings (s : sys_t) : nat := length (List.filter (fun e => is_put (ev_action e.2)) (sy_log s)).
Definition both_found : sys_t := until pops 2 (say "confirm abc123" (until pops 1 (say "confirm abc123" staged))).
Definition twice : sys_t := until never 2 (until never 1 both_found).
(** Two confirmations with one token, whose threads both look the statement up before one of
    them removes it, execute it twice. *)
Theorem confirmed_twice_runs_twice :
  exists s, postgres_reachable demo blank s /\ stagings s = 1%nat /\ executors s = [1; 2]%nat.
Proof.
  exists twice. split; [unfold twice, both_found, staged; run_reachable|]. split; vm_compute; reflexivity.
Qed.

(** A SELECT that creates a table passes for one that reads. *)
Example select_into_passes : query_text "select * into t2 from t" = Ok "select * into t2 from t"%string.
Proof. vm_compute. reflexivity. Qed.
Example select_from_do_is_refused : is_ok (query_text "select do from t") = false.
Proof. vm_compute. reflexivity. Qed.

(** When more rows are shown than fit in the eighty lines, nothing says that some are missing. *)
Definition numbers (n : nat) : list (list (cell (F := fl))) := map (fun i => [CInt (Z.of_nat i)]) (seq 0 n).
Example cut_without_a_word :
  length (table 100 ["n"]%string (numbers 90)) = 92%nat /\
  List.last (take LINES (table 100 ["n"]%string (numbers 90))) EmptyString = "77"%string.
Proof. vm_compute. done. Qed.

(** With no list of administrators everybody in the room is admitted. *)
Lemma empty_list_admits_everybody (sg : settings) sender body :
  sg_matrix_admin_mxids sg = [] -> sender <> sg_matrix_user_id sg -> sg_require_mention sg = false ->
  _on_message sg (sg_matrix_room_id sg) sender body = Some (sender, strip body).
Proof.
  intros Ha Hs Hr. unfold _on_message. rewrite bool_decide_true by done. rewrite bool_decide_false by done.
  rewrite (bool_decide_true _ Ha). by rewrite Hr.
Qed.
