(* ===== verification/PgHaCommand.v ===== *)
(** * PG-HA commands: envelope, sender and node consumer

    services/pg-ha-command-mcp: [protocol.py] (the envelope and its validation),
    [server.py] (the tools that draft, validate and send a command) and [agent.py] (the
    consumer on a node, with its table of the commands it has seen).

    The validation library has its own reader of JSON, and reads identifiers and times of
    many forms: these three readers, and how it prints the two, are parameters; the constraints on the fields are those the source
    states. A pattern is matched against the whole text, as that library does. The database,
    the services and the clock are actions. *)

From stdpp Require Import base option list strings.
From Stdlib Require Import ZArith Lia Ascii.
From S2P Require Import Prelude PyStr PyFloat PyTime Json Regex Effects OrchEnv AdminCore PgAgent.

Local Open Scope Z_scope.
Local Open Scope py_scope.

(** ** Base64, as [base64.b64decode] reads it

    Characters outside the alphabet are skipped, and nothing is read after the padding of a
    group. [quad] is how many characters of a group were read, [left] the bits not yet
    written. *)

Definition b64_value (c : ascii) : option Z :=
  let n := byte_of c in
  if is_upper c then Some (n - 65) else if is_lower c then Some (n - 71) else if is_digit c then Some (n + 4)
  else if eqc c "+" then Some 62 else if eqc c "/" then Some 63 else None.
Definition PADDING : exn := OtherError "Error" "Incorrect padding".
Definition ONE_MORE : exn :=
  OtherError "Error" "Invalid base64-encoded string: number of data characters cannot be 1 more than a multiple of 4".
Definition byte_char (n : Z) : ascii := ascii_of_N (Z.to_N n).
Fixpoint b64_go (quad left pads : Z) (s : string) : result string :=
  match s with
  | EmptyString => if quad =? 0 then Ok EmptyString else if quad =? 1 then Raise ONE_MORE else Raise PADDING
  | String c s =>
      if eqc c "=" then
        if (2 <=? quad) && (4 <=? quad + (pads + 1)) then Ok EmptyString
        else b64_go quad left (if 2 <=? quad then pads + 1 else pads) s
      else
        match b64_value c with
        | None => b64_go quad left pads s
        | Some v =>
            if quad =? 0 then b64_go 1 v 0 s
            else if quad =? 1 then
              String (byte_char (Z.lor (Z.shiftl left 2) (Z.shiftr v 4))) <$> b64_go 2 (Z.land v 15) 0 s
            else if quad =? 2 then
              String (byte_char (Z.lor (Z.shiftl left 4) (Z.shiftr v 2))) <$> b64_go 3 (Z.land v 3) 0 s
            else String (byte_char (Z.lor (Z.shiftl left 6) v)) <$> b64_go 0 0 0 s
        end
  end.
Definition b64decode (s : string) : result string := b64_go 0 0 0 s.
Example b64_skips : b64decode "TWFu-IG1hbnkgTQ==xx" = Ok "Man many M"%string.
Proof. vm_compute. reflexivity. Qed.

(** ** [protocol.py] *)

Definition COMMANDS : list string := ["patroni.status"; "patroni.explain"; "backup.status"; "patroni.switchover.plan"]%string.
Definition ADVISORY : list string := ["patroni.explain"; "patroni.switchover.plan"]%string.
Definition PROTOCOL : string := "attestmesh.pgha.command.v1".
(** [millis] is [int(time.time() * 1000)]; [a] and [b] are the 12 and 62 random bits. *)
Definition uuid7 (millis a b : Z) : Z :=
  let value := Z.shiftl (Z.land millis (Z.shiftl 1 48 - 1)) 80 in
  let value := Z.lor value (Z.shiftl 7 76) in
  let value := Z.lor value (Z.shiftl a 64) in
  let value := Z.lor value (Z.shiftl 2 62) in
  Z.lor value b.
(** [u.version]: only of the variant of RFC 4122 *)
Definition uuid_version (u : Z) : option Z :=
  if Z.testbit u 63 && negb (Z.testbit u 62) then Some (Z.land (Z.shiftr u 76) 15) else None.
(** A [datetime] with or without a zone *)
Record moment := { mo_time : instant; mo_aware : bool }.
(** [a <= b], [a - b]: not of one with and one without a zone *)
Definition same_kind (a b : moment) : result unit :=
  if Bool.eqb (mo_aware a) (mo_aware b) then Ok tt else Raise (TypeError "can't compare offset-naive and offset-aware datetimes").
Definition before (a b : moment) : result bool := same_kind a b;; Ok (mo_time a <=? mo_time b).

Section command.
Context {F : Type} `{PyFloat F}.
Abbreviation row := (odict (json F)).
Variable parse_json : string -> option (json F).
Variable parse_uuid : json F -> option Z.
Variable parse_datetime : json F -> option moment.
Variable print_uuid : Z -> string.
Variable print_datetime : moment -> string.

Record command := {
  cm_command_id : Z;
  cm_cluster : string;
  cm_target : string;
  cm_issued_at : moment;
  cm_expires_at : moment;
  cm_mode : string;
  cm_command : string;
  cm_arguments : row;
  cm_reason : string;
}.
Definition ValidationError (msg : string) : exn := OtherError "ValidationError" msg.
Definition FIELDS : list string :=
  ["protocol"; "command_id"; "cluster"; "target"; "issued_at"; "expires_at"; "mode"; "command"; "arguments"; "reason"]%string.
Definition CLUSTER_PATTERN : re := literal false "[a-z0-9-]+".
Definition TARGET_PATTERN : re := literal false "pg[1-9][0-9]*".
(** A text with at least one and at most [n] characters *)
Definition sized (n : nat) (s : string) : bool := (1 <=? String.length s)%nat && (String.length s <=? n)%nat.
Definition text_field (k : string) (ok : string -> bool) (o : option (json F)) : result string :=
  match o with
  | Some (JStr s) => if ok s then Ok s else Raise (ValidationError k)
  | Some _ => Raise (ValidationError k)
  | None => Raise (ValidationError (k +:+ ": Field required"))
  end.
Definition read_field {A} (k : string) (parse : json F -> option A) (j : json F) : result A :=
  match parse j with Some a => Ok a | None => Raise (ValidationError k) end.
Definition required (k : string) (d : row) : result (json F) :=
  match dget k d with Some j => Ok j | None => Raise (ValidationError (k +:+ ": Field required")) end.
Definition FIVE_MINUTES : Z := 5 * 60 * usec_per_second.
(** The validator that runs after the fields *)
Definition safe (c : command) : result command :=
  raise! ValidationError "command_id must be UUIDv7" when negb (bool_decide (uuid_version (cm_command_id c) = Some 7));
  raise! ValidationError "command is not allowlisted" when negb (bool_decide (cm_command c ∈ COMMANDS));
  raise! ValidationError "command is advisory-only"
    when bool_decide (cm_command c ∈ ADVISORY) && negb (bool_decide (cm_mode c = "explain"%string));
  same_kind (cm_expires_at c) (cm_issued_at c);;
  raise! ValidationError "validity window must be between 0 and 5 minutes"
    when (mo_time (cm_expires_at c) <=? mo_time (cm_issued_at c)) ||
         (FIVE_MINUTES <? mo_time (cm_expires_at c) - mo_time (cm_issued_at c));
  Ok c.
(** [Command.model_validate]; [fresh] is the identifier made when none is given. *)
Definition validate (fresh : Z) (j : json F) : result command :=
  match j with
  | JObj d =>
      raise! ValidationError "Extra inputs are not permitted" when existsb (fun k => negb (bool_decide (k ∈ FIELDS))) (dkeys d);
      text_field "protocol" (fun s => bool_decide (s = PROTOCOL)) (Some (default (JStr PROTOCOL) (dget "protocol" d)));;
      command_id ← match dget "command_id" d with None => Ok fresh | Some j => read_field "command_id" parse_uuid j end;
      cluster ← text_field "cluster" (fun s => sized 64 s && found (re_fullmatch CLUSTER_PATTERN s)) (dget "cluster" d);
      target ← text_field "target" (fun s => found (re_fullmatch TARGET_PATTERN s)) (dget "target" d);
      issued_at ← required "issued_at" d;
      issued_at ← read_field "issued_at" parse_datetime issued_at;
      expires_at ← required "expires_at" d;
      expires_at ← read_field "expires_at" parse_datetime expires_at;
      mode ← text_field "mode" (fun s => bool_decide (s ∈ ["explain"; "execute"]%string)) (Some (default (JStr "explain") (dget "mode" d)));
      name ← text_field "command" (fun _ => true) (dget "command" d);
      arguments ← match dget "arguments" d with
                  | None => Ok []
                  | Some (JObj a) => Ok a
                  | Some _ => Raise (ValidationError "arguments")
                  end;
      reason ← text_field "reason" (sized 500) (dget "reason" d);
      safe {| cm_command_id := command_id; cm_cluster := cluster; cm_target := target; cm_issued_at := issued_at;
              cm_expires_at := expires_at; cm_mode := mode; cm_command := name; cm_arguments := arguments; cm_reason := reason |}
  | _ => Raise (ValidationError "Input should be an object")
  end.
(** [model_dump(mode="json")] and [canonical()] *)
Definition model_dump (c : command) : row :=
  [("protocol", JStr PROTOCOL); ("command_id", JStr (print_uuid (cm_command_id c))); ("cluster", JStr (cm_cluster c));
   ("target", JStr (cm_target c)); ("issued_at", JStr (print_datetime (cm_issued_at c)));
   ("expires_at", JStr (print_datetime (cm_expires_at c))); ("mode", JStr (cm_mode c)); ("command", JStr (cm_command c));
   ("arguments", JObj (cm_arguments c)); ("reason", JStr (cm_reason c))]%string.
Definition canonical (c : command) : string := dumps_canonical (JObj (model_dump c)).

(** ** [server.py] *)

Inductive sresult := SRes (returncode : Z) (stdout stderr : string).
Definition list_command_types : row :=
  [("protocol", JStr PROTOCOL); ("commands", JArr (map JStr (ssort COMMANDS)))]%string.
(** [now] is the time, [fresh] the identifier made *)
Definition draft_command (CLUSTER : string) (fresh : Z) (now : instant) (target name reason mode : string) (arguments : row)
    : result row :=
  let at_ t := {| mo_time := t; mo_aware := true |} in
  raise! ValidationError "cluster" when negb (sized 64 CLUSTER && found (re_fullmatch CLUSTER_PATTERN CLUSTER));
  raise! ValidationError "target" when negb (found (re_fullmatch TARGET_PATTERN target));
  raise! ValidationError "mode" when negb (bool_decide (mode ∈ ["explain"; "execute"]%string));
  raise! ValidationError "reason" when negb (sized 500 reason);
  c ← safe {| cm_command_id := fresh; cm_cluster := CLUSTER; cm_target := target; cm_issued_at := at_ now;
              cm_expires_at := at_ (now + FIVE_MINUTES); cm_mode := mode; cm_command := name; cm_arguments := arguments;
              cm_reason := reason |};
  Ok (model_dump c).
Definition parse_command (fresh : Z) (text : string) : result command :=
  match parse_json text with
  | Some j => validate fresh j
  | None => Raise (ValidationError "Invalid JSON")
  end.
Definition validate_command (fresh : Z) (command_json : string) : result row :=
  c ← parse_command fresh command_json;
  Ok [("valid", JBool true); ("canonical_json", JStr (canonical c))]%string.
(** The request that [send_command] gives to the sidecar *)
Definition send_request (MEMBERS : row) (fresh : Z) (command_json : string) : result string :=
  c ← parse_command fresh command_json;
  let recipient := dget (cm_target c) MEMBERS in
  raise! ValueError ("no sealed member ID configured for " +:+ cm_target c) when negb (otruthy recipient);
  Ok (dumps (JObj [("recipientMemberId", default JNull recipient); ("payload", JStr (b64encode (canonical c)))]%string)).
(** What is made of its answer *)
Definition send_result (r : sresult) : result (json F) :=
  let '(SRes returncode stdout stderr) := r in
  raise! RuntimeError (or_help "sidecar send failed" (strip stderr)) when negb (returncode =? 0);
  json_loads stdout.

(** ** [agent.py] *)

Inductive haction :=
  | NowUtc
  | RandomId
  | InsertSeen (id : string) (at_ : instant)
  | GetCluster
  | ReadWalg
  | PostChat (body : string)
  | CreateResults
  | StoreResult (id : string) (text : string)
  | PrintLine (text : string).
Definition hanswer (a : haction) : Type :=
  match a with
  | NowUtc => instant
  | RandomId => Z
  | GetCluster | PostChat _ => string
  | ReadWalg => list string
  | InsertSeen _ _ | CreateResults | StoreResult _ _ | PrintLine _ => unit
  end.
#[local] Instance ha_effect : Effect := {| action := haction; answer := hanswer |}.
Abbreviation prog := (@prog ha_effect).
Abbreviation ask a := (@act ha_effect a).

(** The settings of a node; [print_now] is [isoformat] of the time in UTC. *)
Variables NODE CLUSTER OWNER_SENDER LLM_MODEL : string.
Variable print_now : instant -> string.

Definition TAIL : nat := 30.
(** [l[-n:]] *)
Definition last_n {A} (n : nat) (l : list A) : list A := drop (length l - n) l.
Definition local_status (c : command) : prog (json F) :=
  if startswith "patroni." (cm_command c) then
    text ← ask GetCluster;
    PRet (json_loads text)
  else
    lines ← ask ReadWalg;
    mret (JObj [("tail"%string, json_strs (last_n TAIL lines))]).
Definition prompt_of (status : json F) : string :=
  "You are a PostgreSQL 16 and Patroni 4 incident analyst. Interpret only the supplied " +:+
  "diagnostics. Never emit shell commands, SQL, credentials, URLs, or instructions to " +:+
  "bypass quorum. Explain evidence, uncertainty, and a safe operator plan." +:+ newline +:+ dumps status.
Definition chat_body (status : json F) : string :=
  dumps (JObj [("model", JStr LLM_MODEL); ("messages", JArr [user_message (prompt_of status)]); ("temperature", JInt 0)]%string).
(** [d[k]] and [l[0]] of any value *)
Definition subscript (k : string) (j : json F) : result (json F) :=
  match j with
  | JObj d => item k d
  | JArr _ => Raise (TypeError "list indices must be integers or slices, not str")
  | JStr _ => Raise (TypeError "string indices must be integers, not 'str'")
  | j => Raise (TypeError ("'" +:+ type_name j +:+ "' object is not subscriptable"))
  end.
Definition first_item (j : json F) : result (json F) :=
  match j with
  | JArr (x :: _) => Ok x
  | JArr [] => Raise (OtherError "IndexError" "list index out of range")
  | JStr (String c _) => Ok (JStr (String c EmptyString))
  | JStr EmptyString => Raise (OtherError "IndexError" "string index out of range")
  | JObj _ => Raise (KeyError "0")
  | j => Raise (TypeError ("'" +:+ type_name j +:+ "' object is not subscriptable"))
  end.
Definition content_of (j : json F) : result (json F) :=
  choices ← subscript "choices" j;
  choice ← first_item choices;
  message ← subscript "message" choice;
  subscript "content" message.
Definition explain (status : json F) : prog (json F) :=
  text ← ask (PostChat (chat_body status));
  j ← PRet (json_loads text);
  PRet (content_of j).
Definition is_interpreted (c : command) : bool :=
  bool_decide (cm_mode c = "explain"%string) || endswith "explain" (cm_command c) || endswith "plan" (cm_command c).
(** [not(issued_at <= now <= expires_at)] *)
Definition in_window (c : command) (now : instant) : result bool :=
  let now := {| mo_time := now; mo_aware := true |} in
  b ← before (cm_issued_at c) now;
  if b : bool then before now (cm_expires_at c) else Ok false.
Definition result_of (c : command) (now : instant) (status : json F) : row :=
  [("protocol", JStr "attestmesh.pgha.result.v1"); ("command_id", JStr (print_uuid (cm_command_id c))); ("node", JStr NODE);
   ("observed_at", JStr (print_now now)); ("status", status)]%string.
(** What follows the table of seen commands *)
Definition act_on (c : command) (now : instant) : prog unit :=
  status ← local_status c;
  out ← (if is_interpreted c
         then text ← explain status; mret (dset "interpretation" text (result_of c now status))
         else mret (result_of c now status));
  ask CreateResults;;
  ask (StoreResult (print_uuid (cm_command_id c)) (dumps (JObj out))).
(** [except sqlite3.IntegrityError: return] *)
Definition once (id : string) (now : instant) (p : prog unit) : prog unit :=
  pbind (ask (InsertSeen id now)) (fun r =>
    match r with
    | Raise e => if is_class "IntegrityError" e then mret tt else raise e
    | Ok _ => p
    end).
Definition bytes_field (k : string) (event : json F) : result string :=
  j ← subscript k event;
  match j with
  | JStr s => b64decode s
  | _ => Raise (TypeError "argument should be a bytes-like object or ASCII string")
  end.
Definition handle (event : json F) : prog unit :=
  sender ← PRet (bytes_field "senderMemberId" event);
  if negb (bool_decide (hex_of sender = OWNER_SENDER)) then mret tt
  else
    payload ← PRet (bytes_field "payload" event);
    fresh ← ask RandomId;
    c ← PRet (parse_command fresh payload);
    now ← ask NowUtc;
    if negb (bool_decide (cm_cluster c = CLUSTER)) || negb (bool_decide (cm_target c = NODE)) then mret tt
    else
      ok ← PRet (in_window c now);
      if negb ok then mret tt else once (print_uuid (cm_command_id c)) now (act_on c now).
(** A line of the stream of messages *)
Definition handle_line (line : string) : prog unit :=
  try_ (event ← PRet (json_loads line); handle event)
       (fun e => ask (PrintLine ("rejected: " +:+ exn_text e))).

(** ** The node

    Lines arrive while the process runs, a process may die at any action and another be
    started on the same database; a table is the list of its keys. *)

Definition allowed (seen : list string) (a : @action ha_effect) : result (answer a) -> list string -> Prop :=
  match a with
  | InsertSeen id _ => fun r seen' =>
      match r with
      | Ok _ => (id ∉ seen) /\ seen' = id :: seen
      | Raise e => seen' = seen \/ (is_class "IntegrityError" e = false /\ seen' = id :: seen)
      end
  | _ => fun _ seen' => seen' = seen
  end.
End command.
