(* ===== verification/PgHaFacts.v ===== *)
(** * PG-HA commands: theorems

    Base64 and identifiers; what a validated command looks like, and that a drafted one is
    valid; what a node does for a command, over all interleavings of lines and restarts. *)

From stdpp Require Import base option list strings.
From Stdlib Require Import ZArith Lia Ascii Floats.
From S2P Require Import Prelude PyStr PyFloat Json PyTime Regex Effects OrchEnv AdminCore PgAgent PgHaCommand.

Local Open Scope Z_scope.

(** ** Bits *)

Lemma lor_disjoint x k y : 0 <= k -> 0 <= y < 2 ^ k -> Z.lor (Z.shiftl x k) y = x * 2 ^ k + y.
Proof.
  intros Hk Hy. rewrite <- Z.shiftl_mul_pow2 by done. symmetry.
  assert (Z.land (Z.shiftl x k) y = 0) as Hl.
  { apply Z.bits_inj'. intros n Hn. rewrite Z.land_spec, Z.bits_0. destruct (Z.lt_ge_cases n k) as [Hlt|Hge].
    - by rewrite Z.shiftl_spec_low.
    - rewrite andb_comm, <- (Z.mod_small y (2 ^ k)), Z.mod_pow2_bits_high by lia. done. }
  rewrite Z.add_nocarry_lxor by done. by apply Z.lxor_lor.
Qed.

(** ** Base64 *)

Lemma b64_char_value n : 0 <= n < 64 -> b64_value (b64_char n) = Some n /\ eqc (b64_char n) "=" = false.
Proof.
  intros Hn.
  assert (forallb (fun n => bool_decide (b64_value (b64_char n) = Some n) && negb (eqc (b64_char n) "=")) (seqZ 0 64) = true)
    as Hall by (vm_compute; reflexivity).
  rewrite forallb_forall in Hall. specialize (Hall n). rewrite andb_true_iff, bool_decide_eq_true, negb_true_iff in Hall.
  apply Hall, list_elem_of_In, elem_of_seqZ. lia.
Qed.
Lemma byte_char_of c n : n = byte_of c -> byte_char n = c.
Proof. intros ->. unfold byte_char, byte_of. rewrite N2Z.id. apply ascii_N_embedding. Qed.
Lemma byte_of_bounds c : 0 <= byte_of c < 256.
Proof. unfold byte_of. pose proof (N_ascii_bounded c). unfold code. lia. Qed.
Section quad.
Variable n left pads : Z.
Variable s : string.
Hypothesis n_bounds : 0 <= n < 64.
Ltac digit := cbn [b64_go]; destruct (b64_char_value n n_bounds) as [-> ->]; reflexivity.
Lemma b64_first : b64_go 0 left pads (String (b64_char n) s) = b64_go 1 n 0 s.
Proof using n_bounds. digit. Qed.
Lemma b64_second :
  b64_go 1 left pads (String (b64_char n) s)
  = String (byte_char (Z.lor (Z.shiftl left 2) (Z.shiftr n 4))) <$> b64_go 2 (Z.land n 15) 0 s.
Proof using n_bounds. digit. Qed.
Lemma b64_third :
  b64_go 2 left pads (String (b64_char n) s)
  = String (byte_char (Z.lor (Z.shiftl left 4) (Z.shiftr n 2))) <$> b64_go 3 (Z.land n 3) 0 s.
Proof using n_bounds. digit. Qed.
Lemma b64_fourth :
  b64_go 3 left pads (String (b64_char n) s) = String (byte_char (Z.lor (Z.shiftl left 6) n)) <$> b64_go 0 0 0 s.
Proof using n_bounds. digit. Qed.
End quad.

(** The bits of a group, by arithmetic *)
Ltac powers :=
  change (2 ^ 2) with 4 in *; change (2 ^ 4) with 16 in *; change (2 ^ 6) with 64 in *;
  change (2 ^ 8) with 256 in *; change (2 ^ 10) with 1024 in *; change (2 ^ 12) with 4096 in *; change (2 ^ 18) with 262144 in *.
Ltac bits_to_arith :=
  repeat change 63 with (Z.ones 6); repeat change 15 with (Z.ones 4); repeat change 3 with (Z.ones 2);
  rewrite ?Z.land_ones, ?Z.shiftr_div_pow2 by lia;
  try (rewrite lor_disjoint by (rewrite ?Z.shiftl_mul_pow2 by lia; powers; Z.to_euclidean_division_equations; lia));
  rewrite ?Z.shiftl_mul_pow2 by lia; powers; Z.to_euclidean_division_equations; lia.

Lemma b64_one_pad left : b64_go 3 left 0 "=" = Ok ""%string.
Proof. reflexivity. Qed.
Lemma b64_two_pads left : b64_go 2 left 0 "==" = Ok ""%string.
Proof. reflexivity. Qed.
Lemma b64_byte n c s : n = byte_of c -> String (byte_char n) <$> (Ok s : result string) = Ok (String c s).
Proof. intros Hn. by rewrite (byte_char_of c n Hn). Qed.

Lemma b64_decode_encode s : b64decode (b64encode s) = Ok s.
Proof.
  unfold b64decode. revert s. fix IH 1. intros [|a [|b [|c s]]]; [done|..].
  - pose proof (byte_of_bounds a) as Ha. cbn [b64encode]. rewrite b64_first, b64_second, b64_two_pads by bits_to_arith.
    apply b64_byte. bits_to_arith.
  - pose proof (byte_of_bounds a) as Ha. pose proof (byte_of_bounds b) as Hb. cbn [b64encode].
    rewrite b64_first, b64_second, b64_third, b64_one_pad by bits_to_arith.
    rewrite (b64_byte _ b) by bits_to_arith. apply b64_byte. bits_to_arith.
  - pose proof (byte_of_bounds a) as Ha. pose proof (byte_of_bounds b) as Hb. pose proof (byte_of_bounds c) as Hc.
    cbn [b64encode]. rewrite b64_first, b64_second, b64_third, b64_fourth, IH by bits_to_arith.
    rewrite (b64_byte _ c), (b64_byte _ b) by bits_to_arith. apply b64_byte. bits_to_arith.
Qed.

(** ** Identifiers *)

Section uuid.
Variable millis a b : Z.
Hypothesis a_bits : 0 <= a < 2 ^ 12.
Hypothesis b_bits : 0 <= b < 2 ^ 62.
Lemma uuid7_sum :
  uuid7 millis a b = (((millis mod 2 ^ 48) * 2 ^ 4 + 7) * 2 ^ 12 + a) * 2 ^ 64 + (2 * 2 ^ 62 + b).
Proof using a_bits b_bits.
  unfold uuid7. cbv zeta. change (Z.shiftl 1 48 - 1) with (Z.ones 48). rewrite Z.land_ones by lia.
  set (m := millis mod 2 ^ 48). change (Z.shiftl 7 76) with (7 * 2 ^ 76).
  rewrite (lor_disjoint m 80) by lia.
  replace (m * 2 ^ 80 + 7 * 2 ^ 76) with (Z.shiftl (m * 2 ^ 4 + 7) 76) by (rewrite Z.shiftl_mul_pow2 by lia; lia).
  rewrite lor_disjoint by (rewrite ?Z.shiftl_mul_pow2; lia). rewrite (Z.shiftl_mul_pow2 a) by lia.
  replace ((m * 2 ^ 4 + 7) * 2 ^ 76 + a * 2 ^ 64) with (Z.shiftl ((m * 2 ^ 4 + 7) * 2 ^ 12 + a) 64)
    by (rewrite Z.shiftl_mul_pow2 by lia; lia).
  change (Z.shiftl 2 62) with (2 * 2 ^ 62). rewrite lor_disjoint by lia.
  replace (((m * 2 ^ 4 + 7) * 2 ^ 12 + a) * 2 ^ 64 + 2 * 2 ^ 62) with (Z.shiftl ((((m * 2 ^ 4 + 7) * 2 ^ 12 + a) * 4 + 2)) 62)
    by (rewrite Z.shiftl_mul_pow2 by lia; lia).
  rewrite lor_disjoint by lia. lia.
Qed.
Lemma uuid7_bounds : 0 <= uuid7 millis a b < 2 ^ 128.
Proof using a_bits b_bits. rewrite uuid7_sum. pose proof (Z.mod_pos_bound millis (2 ^ 48)). lia. Qed.
Lemma uuid7_time : Z.shiftr (uuid7 millis a b) 80 = millis mod 2 ^ 48.
Proof using a_bits b_bits.
  rewrite uuid7_sum, Z.shiftr_div_pow2 by lia. symmetry. apply Z.div_unique with ((7 * 2 ^ 12 + a) * 2 ^ 64 + (2 * 2 ^ 62 + b)); lia.
Qed.
Lemma uuid7_is_version_7 : uuid_version (uuid7 millis a b) = Some 7.
Proof using a_bits b_bits.
  unfold uuid_version. rewrite uuid7_sum. set (m := millis mod 2 ^ 48).
  set (u := _ + _). assert (Z.shiftr u 62 = (((m * 2 ^ 4 + 7) * 2 ^ 12 + a) * 4) + 2) as Hlow.
  { rewrite Z.shiftr_div_pow2 by lia. symmetry. apply Z.div_unique with b; lia. }
  assert (Z.testbit u 63 = true) as ->.
  { change 63 with (1 + 62). rewrite <- Z.shiftr_spec, Hlow by lia. apply Z.testbit_true; [lia|].
    replace (((m * 2 ^ 4 + 7) * 2 ^ 12 + a) * 4 + 2) with ((((m * 2 ^ 4 + 7) * 2 ^ 12 + a) * 2 + 1) * 2 ^ 1) by lia.
    rewrite Z.div_mul by lia. Z.to_euclidean_division_equations; lia. }
  assert (Z.testbit u 62 = false) as ->.
  { change 62 with (0 + 62). rewrite <- Z.shiftr_spec, Hlow by lia. rewrite Z.bit0_odd.
    replace (((m * 2 ^ 4 + 7) * 2 ^ 12 + a) * 4 + 2) with (0 + 2 * (((m * 2 ^ 4 + 7) * 2 ^ 12 + a) * 2 + 1)) by lia. by rewrite Z.odd_add_mul_2. }
  simpl. change 15 with (Z.ones 4). rewrite Z.land_ones, Z.shiftr_div_pow2 by lia. f_equal.
  rewrite <- (Z.div_unique u (2 ^ 76) (m * 2 ^ 4 + 7) (a * 2 ^ 64 + (2 * 2 ^ 62 + b))) by lia.
  Z.to_euclidean_division_equations; lia.
Qed.
End uuid.

(** ** Commands *)

Section facts.
Context {F : Type} `{PyFloat F}.
Abbreviation command := (@command F).
Variable parse_json : string -> option (json F).
Variable parse_uuid : json F -> option Z.
Variable parse_datetime : json F -> option moment.
Variable print_uuid : Z -> string.

(** What the class promises of a command *)
Record well_formed (c : command) : Prop := {
  wf_id : uuid_version (cm_command_id c) = Some 7;
  wf_listed : cm_command c ∈ COMMANDS;
  wf_advisory : cm_command c ∈ ADVISORY -> cm_mode c = "explain"%string;
  wf_mode : cm_mode c = "explain"%string \/ cm_mode c = "execute"%string;
  wf_aware : mo_aware (cm_issued_at c) = mo_aware (cm_expires_at c);
  wf_window : 0 < mo_time (cm_expires_at c) - mo_time (cm_issued_at c) <= FIVE_MINUTES;
  wf_cluster : sized 64 (cm_cluster c) = true /\ found (re_fullmatch CLUSTER_PATTERN (cm_cluster c)) = true;
  wf_target : found (re_fullmatch TARGET_PATTERN (cm_target c)) = true;
  wf_reason : sized 500 (cm_reason c) = true;
}.
(** What the validator after the fields checks *)
Definition sound (c : command) : Prop :=
  uuid_version (cm_command_id c) = Some 7 /\ cm_command c ∈ COMMANDS /\
  (cm_command c ∈ ADVISORY -> cm_mode c = "explain"%string) /\ mo_aware (cm_issued_at c) = mo_aware (cm_expires_at c) /\
  0 < mo_time (cm_expires_at c) - mo_time (cm_issued_at c) <= FIVE_MINUTES.
Lemma safe_Ok (c c' : command) : safe c = Ok c' <-> c' = c /\ sound c.
Proof.
  unfold safe, sound. split.
  - intros Hc. apply bind_Ok in Hc as (u1 & Hv%raise_if_Ok & Hc). apply bind_Ok in Hc as (u2 & Hl%raise_if_Ok & Hc).
    apply bind_Ok in Hc as (u3 & Ha%raise_if_Ok & Hc). apply bind_Ok in Hc as (u4 & He & Hc).
    apply bind_Ok in Hc as (u5 & Hw%raise_if_Ok & Hc). injection Hc as <-. split; [done|].
    apply negb_false_iff, bool_decide_eq_true in Hv. apply negb_false_iff, bool_decide_eq_true in Hl.
    apply orb_false_iff in Hw as [Hw1 Hw2]. unfold same_kind in He. destruct (Bool.eqb _ _) eqn:Ee; [|done].
    apply eqb_prop in Ee. split_and!; try done; try lia. intros Hin. rewrite bool_decide_true in Ha by done.
    by apply negb_false_iff, bool_decide_eq_true in Ha.
  - intros [-> (Hv & Hl & Ha & He & Hw)]. rewrite (bool_decide_true _ Hv), (bool_decide_true _ Hl). simpl.
    assert (bool_decide (cm_command c ∈ ADVISORY) && negb (bool_decide (cm_mode c = "explain"%string)) = false) as ->.
    { case_bool_decide as Hin; [|done]. by rewrite (bool_decide_true _ (Ha Hin)). }
    unfold same_kind. rewrite He, eqb_reflx. simpl.
    destruct (Z.leb_spec (mo_time (cm_expires_at c)) (mo_time (cm_issued_at c))); [lia|].
    by destruct (Z.ltb_spec FIVE_MINUTES (mo_time (cm_expires_at c) - mo_time (cm_issued_at c))); [lia|].
Qed.
Lemma text_field_Ok k ok (o : option (json F)) s : text_field k ok o = Ok s <-> o = Some (JStr s) /\ ok s = true.
Proof.
  split; [|intros [-> Hok]; simpl; by rewrite Hok].
  destruct o as [[]|]; simpl; try discriminate. destruct (ok s0) eqn:E; [|discriminate]. by intros [= <-].
Qed.

Lemma validate_well_formed fresh j c : validate parse_uuid parse_datetime fresh j = Ok c -> well_formed c.
Proof.
  destruct j as [| | | | | |d]; try done. unfold validate. intros Hc. apply bind_Ok in Hc as (u1 & _ & Hc).
  apply bind_Ok in Hc as (p & _ & Hc). apply bind_Ok in Hc as (id & _ & Hc).
  apply bind_Ok in Hc as (cl & [_ Hcl]%text_field_Ok & Hc). apply bind_Ok in Hc as (tg & [_ Htg]%text_field_Ok & Hc).
  apply bind_Ok in Hc as (j1 & _ & Hc). apply bind_Ok in Hc as (t1 & _ & Hc). apply bind_Ok in Hc as (j2 & _ & Hc).
  apply bind_Ok in Hc as (t2 & _ & Hc). apply bind_Ok in Hc as (mode & [_ Hm]%text_field_Ok & Hc).
  apply bind_Ok in Hc as (name & _ & Hc). apply bind_Ok in Hc as (args & _ & Hc).
  apply bind_Ok in Hc as (reason & [_ Hr]%text_field_Ok & Hc). apply safe_Ok in Hc as [-> (H1 & H2 & H3 & H4 & H5)].
  apply andb_true_iff in Hcl as [Hc1 Hc2]. apply bool_decide_eq_true in Hm.
  split; try done. cbn. rewrite !elem_of_cons, elem_of_nil in Hm. naive_solver.
Qed.

Section draft.
Variable print_datetime : moment -> string.
Ltac field_ok := apply bind_Ok; eexists; split; [first [by apply text_field_Ok | reflexivity]|].
(** C30: A drafted command is accepted as it is by the reader, with the same fields, whatever
    identifier would have been made for one that has none. *)
Lemma draft_is_valid CLUSTER id now target name reason mode arguments d fresh :
  draft_command print_uuid print_datetime CLUSTER id now target name reason mode arguments = Ok d ->
  parse_uuid (JStr (print_uuid id)) = Some id ->
  (forall t, t = now \/ t = now + FIVE_MINUTES ->
     parse_datetime (JStr (print_datetime {| mo_time := t; mo_aware := true |})) = Some {| mo_time := t; mo_aware := true |}) ->
  exists c, validate parse_uuid parse_datetime fresh (JObj d) = Ok c /\ model_dump print_uuid print_datetime c = d /\
    cm_command_id c = id /\ cm_target c = target /\ cm_command c = name /\ cm_mode c = mode.
Proof.
  intros Hd Hu Ht. unfold draft_command in Hd. cbv zeta in Hd.
  apply bind_Ok in Hd as (u1 & Hc%raise_if_Ok%negb_false_iff & Hd). apply bind_Ok in Hd as (u2 & Hg%raise_if_Ok%negb_false_iff & Hd).
  apply bind_Ok in Hd as (u3 & Hm%raise_if_Ok%negb_false_iff & Hd). apply bind_Ok in Hd as (u4 & Hr%raise_if_Ok%negb_false_iff & Hd).
  apply bind_Ok in Hd as (c & [-> Hs]%safe_Ok & Hd). injection Hd as <-. set (c := Build_command _ _ _ _ _ _ _ _ _) in *.
  exists c. split; [|done]. unfold validate.
  field_ok. field_ok. apply bind_Ok. exists id. split; [unfold read_field; simpl; by rewrite Hu|].
  field_ok. field_ok. field_ok. apply bind_Ok. exists {| mo_time := now; mo_aware := true |}.
  split; [unfold read_field; simpl; by rewrite (Ht now) by auto|]. field_ok.
  apply bind_Ok. exists {| mo_time := now + FIVE_MINUTES; mo_aware := true |}. split; [unfold read_field; simpl; by rewrite (Ht (now + FIVE_MINUTES)) by auto|].
  field_ok. field_ok. field_ok. field_ok. by apply safe_Ok.
Qed.
End draft.

(** ** What a node does *)

#[local] Existing Instance ha_effect.
Abbreviation prog := (@prog ha_effect).
Abbreviation hist_t := (@hist ha_effect).
Abbreviation act_t := (@action ha_effect).
Abbreviation event_t := (@event ha_effect).
Variables NODE CLUSTER OWNER_SENDER LLM_MODEL : string.
Variable print_now : instant -> string.
Abbreviation line_task :=
  (handle_line (F := F) parse_json parse_uuid parse_datetime print_uuid NODE CLUSTER OWNER_SENDER LLM_MODEL print_now).
Abbreviation parsed := (parse_command parse_json parse_uuid parse_datetime).

(** Actions on behalf of a command *)
Definition acting (a : act_t) : bool :=
  match a with GetCluster | ReadWalg | PostChat _ | CreateResults | StoreResult _ _ => true | _ => false end.
(** The commands that were entered in the table, newest first *)
Definition accepted_id (e : event_t) : option string :=
  match e with Ev (InsertSeen id _) (Ok _) => Some id | _ => None end.
Definition accepts (h : hist_t) : list string := omap accepted_id h.
(** [c] is what the line says; the owner sent it; it is for this node, and in its window at
    the time [now] that was read. *)
Record checked (line : string) (h : hist_t) (c : command) (now : instant) : Prop := {
  ck_line : exists (event : json F) sender payload fresh,
    json_loads line = Ok event /\ bytes_field "senderMemberId" event = Ok sender /\ hex_of sender = OWNER_SENDER /\
    bytes_field "payload" event = Ok payload /\ (Ev RandomId (Ok fresh) : event_t) ∈ h /\ parsed fresh payload = Ok c;
  ck_time : (Ev NowUtc (Ok now) : event_t) ∈ h;
  ck_cluster : cm_cluster c = CLUSTER;
  ck_target : cm_target c = NODE;
  ck_window : in_window c now = Ok true;
}.
Definition command_text (c : command) : string := print_uuid (cm_command_id c).
Record authorised (line : string) (h : hist_t) (c : command) (now : instant) : Prop := {
  au_checked : checked line h c now;
  au_entered : accepts h = [command_text c];
}.
Definition node_guard (line : string) (h : hist_t) (a : act_t) : Prop :=
  (acting a = true -> exists c now, authorised line h c now) /\
  (forall id text, a = StoreResult id text -> accepts h = [id]).
Lemma idle_guard line h a : acting a = false -> node_guard line h a.
Proof. intros Ha. split; [by rewrite Ha|]. by intros id text ->. Qed.

(** What a command may do *)
Definition does (c : command) (a : act_t) : Prop :=
  acting a = true /\ forall id text, a = StoreResult id text -> id = command_text c.
Lemma act_on_only c now : only (does c) (act_on print_uuid NODE LLM_MODEL print_now c now).
Proof.
  assert (forall a, acting a = true -> (forall id text, a <> StoreResult id text) -> only (does c) (act a)) as Hact.
  { intros a Ha Hn. apply only_act. split; [done|]. intros id text ->. by destruct (Hn id text). }
  unfold act_on. apply only_bind.
  { unfold local_status. destruct (startswith _ _); (apply only_bind; [by apply Hact|intros x; apply only_ret]). }
  intros status. apply only_bind.
  { destruct (is_interpreted c); [|apply only_ret]. apply only_bind; [|intros x; apply only_ret].
    unfold explain. apply only_bind; [by apply Hact|]. intros text. apply only_bind; [apply only_ret|]. intros j. apply only_ret. }
  intros out. apply only_bind; [by apply Hact|]. intros _. apply only_act. split; [done|]. by intros id text [= <- _].
Qed.
Lemma act_on_guarded line c now h :
  authorised line h c now -> wp (node_guard line) (act_on print_uuid NODE LLM_MODEL print_now c now) h (fun _ _ => True).
Proof.
  intros Hau. eapply wp_post; [apply (keeps_only (node_guard line) (fun h => authorised line h c now) (does c))|done]; [|..|exact Hau].
  - apply act_on_only.
  - intros h' a Ha [Hact Hid]. split; [by exists c, now|]. intros id text Hs. rewrite (Hid id text Hs). apply Ha.
  - intros h' a r [[(ev & sd & pl & fr & H1 & H2 & H3 & H4 & H5 & H6) Ht Hc Hg Hw] He] [Hact _]. split.
    + split; [|by right|done..]. exists ev, sd, pl, fr. split_and!; try done. by right.
    + unfold accepts. simpl. destruct a; try discriminate Hact; exact He.
Qed.
Lemma line_guarded line : wp (node_guard line) (line_task line) [] (fun _ _ => True).
Proof.
  unfold handle_line. apply wp_try. apply wp_post with (Q := fun _ _ => True).
  2: { intros h [u|e] _; [done|]. destruct (is_exception e); [|done]. split; [by apply idle_guard|done]. }
  apply wp_bind. cbn [wp]. destruct (json_loads line) as [event|e] eqn:El; [|done]. unfold handle.
  apply wp_bind. cbn [wp]. destruct (bytes_field "senderMemberId" event) as [sender|e] eqn:Es; [|done].
  case_bool_decide as Ho; simpl negb; cbv iota; [|done].
  apply wp_bind. cbn [wp]. destruct (bytes_field "payload" event) as [payload|e] eqn:Ep; [|done].
  apply wp_bind. split; [by apply idle_guard|]. intros [fresh|e]; [|done].
  apply wp_bind. cbn [wp]. destruct (parsed fresh payload) as [c|e] eqn:Ec; [|done].
  apply wp_bind. split; [by apply idle_guard|]. intros [now|e]; [|done].
  destruct (negb _ || negb _) eqn:Ect; [done|]. apply orb_false_iff in Ect as [Hc Hg].
  apply negb_false_iff, bool_decide_eq_true in Hc. apply negb_false_iff, bool_decide_eq_true in Hg.
  apply wp_bind. cbn [wp]. destruct (in_window c now) as [[|]|e] eqn:Ew; [|done..]. simpl negb. cbv iota.
  unfold once. apply wp_pbind. split; [by apply idle_guard|]. intros [[]|e]; cbn [wp]; [|by destruct (is_class "IntegrityError" e)].
  apply act_on_guarded. split; [|done]. split; try done.
  - exists event, sender, payload, fresh. split_and!; try done. right. right. left.
  - right. left.
Qed.

(** ** Over all lines, interleavings and restarts *)

Abbreviation sys_t := (@sys ha_effect (list string) string).
Definition node_reachable (seen : list string) : sys_t -> Prop := reachable allowed (fun _ => True) line_task seen.
(** Of each identifier in the table at most one task entered it. *)
Record entered_once (s : sys_t) : Prop := {
  eo_stored : forall i e id, (i, e) ∈ sy_log s -> accepted_id e = Some id -> id ∈ sy_mem s;
  eo_one : forall i j e e' id,
    (i, e) ∈ sy_log s -> (j, e') ∈ sy_log s -> accepted_id e = Some id -> accepted_id e' = Some id -> i = j;
}.
Lemma allowed_grows seen (a : act_t) r seen' : allowed seen a r seen' -> forall id, id ∈ seen -> id ∈ seen'.
Proof.
  destruct a; simpl; try (by intros ->). destruct r as [u|e].
  - intros [_ ->] id' Hid. by right.
  - intros [->|[_ ->]] id' Hid; [done|by right].
Qed.
Lemma allowed_enters seen (a : act_t) r seen' id :
  allowed seen a r seen' -> accepted_id (Ev a r) = Some id -> (id ∉ seen) /\ id ∈ seen'.
Proof.
  destruct a; try done. destruct r as [u|e]; [|done]. simpl. intros [Hn ->] [= <-]. split; [done|left].
Qed.
Lemma node_entered_once seen s : node_reachable seen s -> entered_once s.
Proof.
  apply reachable_invariant; [split; [by intros i e id ?%not_elem_of_nil|by intros i j e e' id ?%not_elem_of_nil]|].
  intros s1 s2 _ [Hst Hone] Hs. destruct Hs as [m ts l j|m m' ts l i j a k h r Hi Ha]; [by split|]. simpl in *. split; simpl.
  - intros i' e id [[= -> ->]|Hin]%elem_of_cons He; [by apply (allowed_enters _ _ _ _ _ Ha He)|].
    eapply allowed_grows; [exact Ha|]. by eapply Hst.
  - intros i1 i2 e1 e2 id [[= -> ->]|H1]%elem_of_cons [[= -> ->]|H2]%elem_of_cons E1 E2; [done|..|by eapply Hone].
    + destruct (allowed_enters _ _ _ _ _ Ha E1) as [Hn _]. destruct Hn. by eapply Hst.
    + destruct (allowed_enters _ _ _ _ _ Ha E2) as [Hn _]. destruct Hn. by eapply Hst.
Qed.

(** C8: Whatever lines arrive, and however often the node dies and starts again: an action on
    behalf of a command belongs to a command that the owner sent, that is well formed, for
    this node and in its window, and whose identifier this line alone entered in the table. *)
Theorem node_acts_once_per_command seen s i t a k :
  node_reachable seen s -> sy_tasks s !! i = Some t -> tk_rest t = POp a k -> acting a = true ->
  exists c now, checked (tk_job t) (tk_hist t) c now /\ well_formed c /\ accepts (tk_hist t) = [command_text c] /\
    forall j e, (j, e) ∈ sy_log s -> accepted_id e = Some (command_text c) -> j = i.
Proof.
  intros Hr Ht Ha Hact. destruct (proj1 (reachable_guard _ _ _ _ _ i t a k _ _ Hr Ht Ha (line_guarded _)) Hact) as (c & now & [Hc He]).
  exists c, now. split; [done|]. split; [|split; [done|]].
  - destruct Hc as [(event & sender & payload & fresh & _ & _ & _ & _ & _ & Hp) _ _ _ _]. unfold parse_command in Hp.
    destruct (parse_json payload) as [j|]; [|done]. by eapply validate_well_formed.
  - intros j e Hj Hid. assert (exists e', e' ∈ tk_hist t /\ accepted_id e' = Some (command_text c)) as (e' & Hin & He').
    { apply list_elem_of_omap. unfold accepts in He. rewrite He. left. }
    destruct (reachable_well_run _ _ _ _ _ Hr) as [Hwell _]. destruct (Hwell i t Ht) as (_ & _ & Hh). rewrite Hh in Hin.
    apply seen_by_elem in Hin. by apply (eo_one s (node_entered_once _ _ Hr) j i e e' (command_text c)).
Qed.
End facts.

(** ** PG-HA commands: concrete runs

    A node that receives a command with an identifier, once and again, and one without.
    Identifiers and times are written as decimal numbers. *)

Abbreviation fl := spec_float.
Abbreviation act_t := (@action ha_effect).
Abbreviation sys_t := (@sys ha_effect (list string) string).

(** ** Readers and answers *)

Definition read_json (s : string) : option (json fl) := match json_loads s with Ok j => Some j | Raise _ => None end.
Definition read_number (j : json fl) : option Z := match j with JStr s => parse_int s | _ => None end.
Definition read_moment (j : json fl) : option moment :=
  (fun t => {| mo_time := t; mo_aware := true |}) <$> read_number j.
Definition print_moment (m : moment) : string := str_of_Z (mo_time m).
Definition ID : Z := uuid7 1000 1 1.
Definition NOW : instant := 5000000.
(** Every identifier that is made is new: the clock has moved. *)
Definition demo_answer (a : act_t) (seen : list string) : result (answer a) * list string :=
  match a with
  | RandomId => (Ok (uuid7 (2000 + Z.of_nat (length seen)) 0 0), seen)
  | NowUtc => (Ok NOW, seen)
  | InsertSeen id _ =>
      if bool_decide (id ∈ seen) then (Raise (OtherError "IntegrityError" "UNIQUE constraint failed: seen.id"), seen)
      else (Ok tt, id :: seen)
  | GetCluster => (Ok "{}"%string, seen)
  | ReadWalg => (Ok ["wal"]%string, seen)
  | PostChat _ => (Raise (OtherError "URLError" "refused"), seen)
  | CreateResults | StoreResult _ _ | PrintLine _ => (Ok tt, seen)
  end.
Lemma demo_allowed seen a : allowed seen a (demo_answer a seen).1 (demo_answer a seen).2.
Proof.
  destruct a; try done. simpl. case_bool_decide as Hin; simpl; [by left|by split].
Qed.
Definition OWNER : string := "owner".
Definition drafted (name mode : string) : result (odict (json fl)) :=
  draft_command str_of_Z print_moment "c1" ID NOW "pg1" name "look" mode [].
Definition line_of (d : odict (json fl)) : string :=
  dumps (F := fl) (JObj [("senderMemberId", JStr (b64encode OWNER)); ("payload", JStr (b64encode (dumps (JObj d))))])%string.
Definition status_row : odict (json fl) := default [] (match drafted "backup.status" "execute" with Ok d => Some d | Raise _ => None end).
Definition status_line : string := line_of status_row.
(** The same without its identifier *)
Definition nameless_line : string := line_of (dpop "command_id" status_row).
Abbreviation task :=
  (handle_line (F := fl) read_json read_number read_moment str_of_Z "pg1" "c1" (hex_of OWNER) "model" str_of_Z).
Definition arrive (line : string) (s : sys_t) : sys_t := spawn task line s.
Definition until (stop : act_t -> bool) (i : nat) (s : sys_t) : sys_t := run_task 40 stop demo_answer i s.
Definition start : sys_t := Sys [] [] [].
Abbreviation demo_reachable := (node_reachable read_json read_number read_moment str_of_Z "pg1" "c1" (hex_of OWNER) "model" str_of_Z []).
Lemma arrive_reachable line s : demo_reachable s -> demo_reachable (arrive line s).
Proof. by apply spawn_reachable. Qed.
Lemma ha_until_reachable stop i s : demo_reachable s -> demo_reachable (until stop i s).
Proof. apply run_task_reachable. intros m a _. apply demo_allowed. Qed.
Lemma ha_start_reachable : demo_reachable start.
Proof. apply reach_start. Qed.
Ltac run_reachable := repeat first [apply ha_until_reachable | apply arrive_reachable | apply ha_start_reachable].
Definition stores (a : act_t) : bool := match a with StoreResult _ _ => true | _ => false end.
Definition never (a : act_t) : bool := false.
Definition results (s : sys_t) : list nat :=
  omap (fun e => if stores (ev_action e.2) then Some e.1 else None) (sy_log s).

(** ** Runs *)

(** A line that arrives twice *)
Definition twice (line : string) : sys_t := until never 1 (arrive line (until never 0 (arrive line start))).
Lemma twice_reachable line : demo_reachable (twice line).
Proof. unfold twice. run_reachable. Qed.
Example status_line_acts_once : results (twice status_line) = [0%nat].
Proof. vm_compute. reflexivity. Qed.

(** A command that names no identifier is given a new one at each delivery: the same line
    is acted on again. *)
Theorem nameless_command_acts_twice : exists s,
  demo_reachable s /\ map tk_job (sy_tasks s) = [nameless_line; nameless_line] /\ results s = [1%nat; 0%nat].
Proof. exists (twice nameless_line). split; [apply twice_reachable|]. split; vm_compute; reflexivity. Qed.

(** The identifier is entered before the command is done: one whose interpretation failed
    leaves no result, and its second delivery is refused. *)
Definition explain_line : string :=
  line_of (default [] (match drafted "patroni.explain" "explain" with Ok d => Some d | Raise _ => None end)).
Theorem failed_command_is_lost :
  demo_reachable (twice explain_line) /\ results (twice explain_line) = [] /\
  sy_mem (twice explain_line) = [str_of_Z ID] /\
  exists d, drafted "patroni.explain" "explain" = Ok d /\ explain_line = line_of d.
Proof.
  split; [apply twice_reachable|]. split; [vm_compute; reflexivity|]. split; [vm_compute; reflexivity|].
  eexists. split; [vm_compute; reflexivity|]. vm_compute. reflexivity.
Qed.

(** ** Witnesses *)

Definition at_result : sys_t := until stores 0 (arrive status_line start).
Lemma at_result_reachable : demo_reachable at_result.
Proof. unfold at_result. run_reachable. Qed.
Lemma node_acts_once_per_command_witness : exists t a k c now,
  demo_reachable at_result /\ sy_tasks at_result !! 0%nat = Some t /\ tk_rest t = POp a k /\ acting a = true /\
  well_formed (F := fl) c /\ in_window c now = Ok true.
Proof.
  assert (exists a, next_of 0 at_result = Some (Some a) /\ acting a = true) as (a & Ha & Hact)
    by (eexists; split; [vm_compute; reflexivity|reflexivity]).
  destruct (next_of_performs _ _ _ Ha) as (t & k & Ht & Hk).
  destruct (node_acts_once_per_command _ _ _ _ _ _ _ _ _ _ _ 0%nat t a k at_result_reachable Ht Hk Hact) as (c & now & Hc & Hw & _).
  exists t, a, k, c, now. split; [apply at_result_reachable|]. split; [done|]. split; [done|]. split; [done|]. split; [done|apply Hc].
Defined.
Lemma draft_is_valid_witness : exists c : command (F := fl),
  drafted "backup.status" "execute" = Ok status_row /\
  validate read_number read_moment 0 (JObj status_row) = Ok c /\ cm_command_id c = ID.
Proof.
  destruct (draft_is_valid read_number read_moment str_of_Z print_moment "c1" ID NOW "pg1" "backup.status" "look" "execute" [] status_row 0)
    as (c & Hc & _ & Hid & _); [vm_compute; reflexivity|vm_compute; reflexivity| |].
  - intros t [-> | ->]; vm_compute; reflexivity.
  - exists c. split; [vm_compute; reflexivity|]. by split.
Defined.
Lemma uuid7_is_version_7_witness : 0 <= 5 < 2 ^ 12 /\ uuid_version (uuid7 1752624000000 5 9) = Some 7.
Proof. split; [lia|]. apply uuid7_is_version_7; lia. Defined.
