(* ===== verification/PgBackup.v ===== *)
(** * Logical backups of the database cluster

    deploy/pg-ha/pgha-logical-backups.py: a worker beside every member of the cluster, which
    dumps the database when its member is the primary, stores the dump in up to three tiers,
    and deletes what is older than its tier allows.  The processes, the object store, the
    clock and the status file are actions; the name of the host is a parameter. *)

From stdpp Require Import base option list strings.
From Stdlib Require Import ZArith Lia Ascii.
From S2P Require Import Prelude PyStr PyTime Effects BudgetConfig.

Local Open Scope Z_scope.

(** ** Times as texts *)

Definition minute_of (t : instant) : Z := (t mod usec_per_hour) / (60 * usec_per_second).
Definition second_of (t : instant) : Z := (t mod (60 * usec_per_second)) / usec_per_second.
Definition microsecond_of (t : instant) : Z := t mod usec_per_second.
(** [t.isoformat()] in UTC *)
Definition isoformat (t : instant) : string :=
  let c := civil_of t in
  pad 4 (c_year c) +:+ "-" +:+ pad 2 (c_month c) +:+ "-" +:+ pad 2 (c_day c) +:+ "T" +:+ pad 2 (hour_of t) +:+ ":" +:+
  pad 2 (minute_of t) +:+ ":" +:+ pad 2 (second_of t) +:+
  (if microsecond_of t =? 0 then EmptyString else "." +:+ pad 6 (microsecond_of t)) +:+ "+00:00".
(** [t.strftime("%Y%m%dT%H%M%SZ")] *)
Definition stamp_of (t : instant) : string :=
  let c := civil_of t in
  pad 4 (c_year c) +:+ pad 2 (c_month c) +:+ pad 2 (c_day c) +:+ "T" +:+ pad 2 (hour_of t) +:+ pad 2 (minute_of t) +:+
  pad 2 (second_of t) +:+ "Z".
(** [t.replace(minute=0, second=0, microsecond=0)] *)
Definition whole_hour (t : instant) : instant := t / usec_per_hour * usec_per_hour.

(** ** Settings *)

Definition both_slashes : string -> string := strip_char "/".
Record place := { pl_bucket : string; pl_root : string }.
Definition place_of (R2_BUCKET backup_prefix : string) : place :=
  let spec := both_slashes R2_BUCKET in
  let '(bucket, bucket_root) := default (spec, EmptyString) (partition "/" spec) in
  {| pl_bucket := bucket;
     pl_root := join "/" (filter (fun x => negb (bool_decide (x = EmptyString))) [bucket_root; both_slashes backup_prefix]) |}.
Record worker := {
  wk_place : place;
  wk_status : string;
  wk_database : string;
  wk_interval : Z;
  wk_host : string;
}.
(** [os.environ["R2_BUCKET"]] raises; so do the keys of the store's client. *)
Definition read_worker (env : environ) (host : string) : result worker :=
  let need k := match env k with Some v => Ok v | None => Raise (KeyError k) end in
  bucket ← need "R2_BUCKET"%string;
  _ ← need "R2_ENDPOINT"%string;
  _ ← need "R2_ACCESS_KEY_ID"%string;
  _ ← need "R2_SECRET_ACCESS_KEY"%string;
  interval ← match parse_int (getenv env "BACKUP_DUMP_INTERVAL_SECONDS" "21600") with
             | Some z => Ok z
             | None => Raise (ValueError "invalid literal for int() with base 10")
             end;
  Ok {| wk_place := place_of bucket (getenv env "BACKUP_PREFIX" "pg-ha");
        wk_status := getenv env "WALG_STATUS_FILE" "/pgha-status/walg";
        wk_database := getenv env "PGDATABASE" "postgres";
        wk_interval := interval; wk_host := host |}.

(** ** The outside *)

Record object := { ob_key : string; ob_modified : instant }.
Inductive kaction :=
  | IsReady
  | Psql (sql : string)
  | Now
  | TempFile
  | PgDump (path database : string)
  | Upload (path bucket key tier : string)
  | NextPage (bucket prefix : string) (n : nat)
  | DeleteObjects (bucket : string) (keys : list string)
  | AppendLine (path line : string)
  | Sleep (seconds : Z).
Definition kanswer (a : kaction) : Type :=
  match a with
  | IsReady => Z  (** the return code *)
  | Psql _ | TempFile => string
  | Now => instant
  | NextPage _ _ _ => option (list object)
  | _ => unit
  end.
#[export] Instance backup_effect : Effect := {| action := kaction; answer := kanswer |}.
Abbreviation prog := (@Effects.prog backup_effect).
Abbreviation ask a := (@act backup_effect a).

Section worker.
Variable w : worker.
Abbreviation BUCKET := (pl_bucket (wk_place w)).
Abbreviation ROOT := (pl_root (wk_place w)).

Definition log (message : string) : prog unit :=
  t ← ask Now; ask (AppendLine (wk_status w) (isoformat t +:+ " logical: " +:+ message +:+ String LF EmptyString)).
Definition primary : prog bool :=
  out ← ask (Psql "select not pg_is_in_recovery()"); mret (bool_decide (strip out = "t"%string)).
Definition dump_key (tier stamp : string) : string :=
  ROOT +:+ "/dumps/" +:+ tier +:+ "/" +:+ stamp +:+ "-" +:+ wk_host w +:+ ".dump".
Definition upload_tier (path tier stamp : string) : prog string :=
  ask (Upload path BUCKET (dump_key tier stamp) tier);; mret (dump_key tier stamp).

(** [for i in range(0, len(old), 1000)] *)
Definition BATCH : nat := 1000.
Fixpoint batches (fuel : nat) (l : list string) : list (list string) :=
  match fuel, l with
  | S fuel, _ :: _ => take BATCH l :: batches fuel (drop BATCH l)
  | _, _ => []
  end.
Definition batches_of (l : list string) : list (list string) := batches (length l) l.
Definition old_keys (cutoff : instant) (objects : list object) : list string :=
  map ob_key (List.filter (fun o => ob_modified o <? cutoff) objects).
(** The pages from the [n]th on; the fuel bounds their number. *)
Fixpoint prune_from (pages n : nat) (prefix : string) (cutoff : instant) : prog unit :=
  match pages with
  | O => PHalt
  | S pages =>
      page ← ask (NextPage BUCKET prefix n);
      match page with
      | None => mret tt
      | Some objects =>
          each (batches_of (old_keys cutoff objects)) (fun keys => ask (DeleteObjects BUCKET keys));;
          prune_from pages (S n) prefix cutoff
      end
  end.
Definition prune (pages : nat) (prefix : string) (cutoff : instant) : prog unit := prune_from pages 0 prefix cutoff.

(** What is kept under each prefix, and for how long *)
Definition tiers : list (string * Z) :=
  [(ROOT +:+ "/dumps/six-hourly/", days 1); (ROOT +:+ "/dumps/daily/", days 7);
   (ROOT +:+ "/dumps/monthly/", days 366); (ROOT +:+ "/wal_", hours 12)].
Definition store (path : string) (now : instant) : prog (list string) :=
  let stamp := stamp_of now in
  k ← upload_tier path "six-hourly" stamp;
  if hour_of now =? 0 then
    d ← upload_tier path "daily" stamp;
    if c_day (civil_of now) =? 1 then m ← upload_tier path "monthly" stamp; mret [k; d; m]
    else mret [k; d]
  else mret [k].
Definition run (pages : nat) : prog bool :=
  t ← ask Now;
  let now := whole_hour t in
  p ← primary;
  if negb p then log "replica; skipped";; mret false
  else
    path ← ask TempFile;
    ask (PgDump path (wk_database w));;
    keys ← store path now;
    log ("uploaded " +:+ join "," keys);;
    each tiers (fun tier => prune pages tier.1 (now - tier.2));;
    mret true.

(** One turn of the loop; an error of [log] in the handler ends the worker. *)
Definition turn (pages : nat) : prog unit :=
  try_ (code ← ask IsReady;
        if code =? 0 then r ← run pages; ask (Sleep (if r : bool then wk_interval w else 60))
        else log "postgres not ready; retrying";; ask (Sleep 10))
       (fun e => log ("FAILED: " +:+ exn_name e +:+ ": " +:+ exn_msg e +:+ "; retrying");; ask (Sleep 60)).
Fixpoint work (turns pages : nat) : prog unit :=
  match turns with
  | O => PHalt
  | S turns => turn pages;; work turns pages
  end.
End worker.
(** The worker, for [turns] turns of its loop *)
Definition backups (env : environ) (host : string) (turns pages : nat) : prog unit :=
  w ← PRet (read_worker env host); work w turns pages.

(** ** Logical backups: theorems *)

Section facts.
Variable w : worker.
Abbreviation hist := (@Effects.hist backup_effect).
Abbreviation event := (@Effects.event backup_effect).
Abbreviation BUCKET := (pl_bucket (wk_place w)).

Lemma wpo_ask G (a : kaction) h (Q : hist -> kanswer a -> Prop) :
  G h a -> (forall r, Q (Ev (E := backup_effect) a (Ok r) :: h) r) -> wpo (E := backup_effect) G (ask a) h Q.
Proof. intros HG HQ. apply (wpo_act (E := backup_effect)); [done|exact HQ]. Qed.

(** *** What is deleted *)

Lemma batches_small fuel l : Forall (fun b => (length b <= BATCH)%nat /\ b ⊆ l) (batches fuel l).
Proof.
  revert l. induction fuel as [|fuel IH]; intros l; [constructor|]. destruct l as [|x l]; [constructor|].
  cbn [batches]. constructor.
  - split; [rewrite length_take; lia|]. apply sublist_subseteq, sublist_take.
  - eapply Forall_impl; [apply IH|]. intros b [Hl Hb]. split; [done|]. etrans; [exact Hb|]. apply sublist_subseteq, sublist_drop.
Qed.
Lemma batches_whole fuel l : (length l <= fuel)%nat -> concat (batches fuel l) = l.
Proof.
  revert l. induction fuel as [|fuel IH]; intros l Hl; [by destruct l; [|simpl in Hl; lia]|].
  destruct l as [|x l]; [done|]. cbn [batches concat]. rewrite IH; [apply take_drop|].
  rewrite length_drop. unfold BATCH. simpl in *. lia.
Qed.

(** What precedes the upload of a dump, newest first: the clock was read, the database said
    that it is the primary, and [pg_dump] wrote the file without an error. *)
Definition dumped (t : instant) (path : string) (h : hist) : Prop :=
  exists out h0, strip out = "t"%string /\
    h = Ev (E := backup_effect) (PgDump path (wk_database w)) (Ok tt) :: Ev (E := backup_effect) TempFile (Ok path) ::
        Ev (E := backup_effect) (Psql "select not pg_is_in_recovery()") (Ok out) :: Ev (E := backup_effect) Now (Ok t) :: h0.
(** A dump of this turn's hour was taken from the primary, and right then stored. *)
Definition stored (t : instant) (h : hist) : Prop :=
  exists path h1 h0, dumped t path h0 /\
    h = h1 ++ Ev (E := backup_effect) (Upload path BUCKET (dump_key w "six-hourly" (stamp_of (whole_hour t))) "six-hourly") (Ok tt) :: h0.
(** What [keys] must be to be deleted: old objects of one listed page of one tier *)
Definition swept (h : hist) (keys : list string) : Prop :=
  exists t prefix keep n objects,
    stored t h /\ (prefix, keep) ∈ tiers w /\ Ev (E := backup_effect) (NextPage BUCKET prefix n) (Ok (Some objects)) ∈ h /\
    (length keys <= 1000)%nat /\
    Forall (fun k => exists o, o ∈ objects /\ ob_key o = k /\ ob_modified o < whole_hour t - keep) keys.
Definition guarded (h : hist) (a : @action backup_effect) : Prop :=
  match a with DeleteObjects bucket keys => bucket = BUCKET /\ swept h keys | _ => True end.
Definition keeps_all (a : @action backup_effect) : Prop := match a with DeleteObjects _ _ => False | _ => True end.
Lemma keeps_guarded h a : keeps_all a -> guarded h a.
Proof. by destruct a. Qed.
Lemma stored_later t e h : stored t h -> stored t (e :: h).
Proof. intros (path & h1 & h0 & Hd & ->). by exists path, (e :: h1), h0. Qed.

Lemma old_keys_spec cutoff objects k :
  k ∈ old_keys cutoff objects -> exists o, o ∈ objects /\ ob_key o = k /\ ob_modified o < cutoff.
Proof.
  unfold old_keys. intros (o & -> & Ho)%list_elem_of_fmap. apply list_elem_of_In, filter_In in Ho as [Ho Hc].
  exists o. split; [by apply list_elem_of_In|]. split; [done|]. by apply Z.ltb_lt.
Qed.
Lemma batches_swept t tier n objects l h :
  stored t h -> tier ∈ tiers w -> Ev (E := backup_effect) (NextPage BUCKET tier.1 n) (Ok (Some objects)) ∈ h ->
  Forall (fun b => (length b <= BATCH)%nat /\ b ⊆ old_keys (whole_hour t - tier.2) objects) l ->
  wpo guarded (each l (fun keys => ask (DeleteObjects BUCKET keys))) h (fun h' _ => stored t h').
Proof.
  intros Hs Ht Hp Hb. revert h Hs Hp. induction Hb as [|b l [Hl Hin] _ IHl]; intros h Hs Hp; [by apply wpo_mret|].
  cbn [each]. apply wpo_bind, wpo_ask.
  - split; [done|]. exists t, tier.1, tier.2, n, objects. split; [done|]. split; [by destruct tier|]. split; [exact Hp|].
    split; [exact Hl|]. apply Forall_forall. intros k Hk. by apply old_keys_spec, Hin.
  - intros []. apply IHl; [by apply stored_later|by right].
Qed.
Lemma prune_swept pages n t tier h :
  stored t h -> tier ∈ tiers w ->
  wpo guarded (prune_from w pages n tier.1 (whole_hour t - tier.2)) h (fun h' _ => stored t h').
Proof.
  intros Hs Ht. revert n h Hs. induction pages as [|pages IH]; intros n h Hs; [done|]. cbn [prune_from].
  apply wpo_bind, wpo_ask; [done|]. intros page. apply stored_later with (e := Ev (E := backup_effect) (NextPage BUCKET tier.1 n) (Ok page)) in Hs.
  destruct page as [objects|]; [|by apply wpo_mret]. apply wpo_bind.
  eapply wpo_post; [apply (batches_swept t tier n objects); [exact Hs|done|left|apply batches_small]|].
  intros h1 [] Hs1. by apply IH.
Qed.
Lemma sweep_all pages t l h :
  stored t h -> l ⊆ tiers w ->
  wpo guarded (each l (fun tier => prune w pages tier.1 (whole_hour t - tier.2))) h (fun h' _ => stored t h').
Proof.
  revert h. induction l as [|tier l IH]; intros h Hs Hl; [by apply wpo_mret|]. cbn [each]. apply wpo_bind.
  eapply wpo_post; [apply prune_swept; [exact Hs|apply Hl; left]|]. intros h1 [] Hs1. apply IH; [done|].
  intros x Hx. apply Hl. by right.
Qed.
Lemma only_log message : only keeps_all (log w message).
Proof. unfold log. by only_auto. Qed.
Lemma log_keeps t message h (Q : hist -> unit -> Prop) :
  stored t h -> (forall h', stored t h' -> Q h' tt) -> wpo guarded (log w message) h Q.
Proof. intros Hs HQ. unfold log. apply wpo_bind, wpo_ask; [done|]. intros t'. apply wpo_ask; [done|]. intros []. by apply HQ, stored_later, stored_later. Qed.
Lemma store_stored path t h :
  dumped t path h -> wpo guarded (store w path (whole_hour t)) h (fun h' _ => stored t h').
Proof.
  intros Hn. unfold store, upload_tier. cbv zeta. apply wpo_bind, wpo_bind, wpo_ask; [done|]. intros []. apply wpo_mret.
  assert (stored t (Ev (E := backup_effect) (Upload path BUCKET (dump_key w "six-hourly" (stamp_of (whole_hour t))) "six-hourly") (Ok tt) :: h)) as Hs.
  { by exists path, [], h. }
  destruct (hour_of _ =? 0); [|by apply wpo_mret]. apply wpo_bind, wpo_bind, wpo_ask; [done|]. intros []. apply wpo_mret.
  destruct (c_day _ =? 1); [|apply wpo_mret; by apply stored_later]. apply wpo_bind, wpo_bind, wpo_ask; [done|].
  intros []. do 2 apply wpo_mret. by do 2 apply stored_later.
Qed.
Lemma run_guarded pages h : wp guarded (run w pages) h (fun _ _ => True).
Proof.
  unfold run. apply wp_bind. split; [done|]. intros [t|e]; [|done]. cbn [wp]. cbv zeta. apply wp_bind.
  eapply wp_post with (Q := fun h' r => r = Ok true -> exists out, strip out = "t"%string /\
    h' = Ev (E := backup_effect) (Psql "select not pg_is_in_recovery()") (Ok out) :: Ev (E := backup_effect) Now (Ok t) :: h).
  { unfold primary. apply wp_bind. split; [done|]. intros [out|e]; [|done]. cbn [wp]. intros [= Ho%bool_decide_eq_true]. by exists out. }
  intros h1 [[|]|e] Hn; [| |done]; cbn [negb].
  2: { apply (wp_only keeps_all); [apply only_bind; [apply only_log|intros []; apply only_ret]|apply keeps_guarded|done]. }
  apply wp_bind. split; [done|]. intros [path|e]; [|done]. cbn [wp]. apply wp_bind. split; [done|]. intros [[]|e]; [|done].
  destruct (Hn eq_refl) as (out & Ho & ->). cbn [wp]. apply wp_bind.
  eapply wp_post; [apply (store_stored path t); by exists out, h|]. intros h2 [keys|e] Hs; [|done].
  apply wp_bind. eapply wp_post; [apply (log_keeps t _ _ (fun h' _ => stored t h')); [exact Hs|done]|]. intros h3 [[]|e] Hs3; [|done].
  apply wp_bind. eapply wp_post; [by apply sweep_all|]. by intros h4 [[]|e].
Qed.
Lemma work_guarded turns pages h : wp guarded (work w turns pages) h (fun _ _ => True).
Proof.
  revert h. induction turns as [|turns IH]; intros h; [done|]. cbn [work]. apply wp_bind.
  eapply wp_post with (Q := fun _ _ => True); [|by intros h' [[]|e] _].
  unfold turn. apply wp_try. apply wp_bind. split; [done|]. intros [code|e].
  2: { cbn [wp]. destruct (is_exception e); [|done]. apply (wp_only keeps_all); [|apply keeps_guarded|done].
       apply only_bind; [apply only_log|]. by only_auto. }
  cbn [wp]. assert (forall h' e, wp guarded
    (log w ("FAILED: " +:+ exn_name e +:+ ": " +:+ exn_msg e +:+ "; retrying");; ask (Sleep 60)) h' (fun _ _ => True)) as Hfail.
  { intros h' e. apply (wp_only keeps_all); [|apply keeps_guarded|done]. apply only_bind; [apply only_log|]. by only_auto. }
  destruct (code =? 0).
  - apply wp_bind. eapply wp_post; [apply run_guarded|]. intros h1 [r|e] _.
    + split; [done|]. intros [u|e]; [done|]. cbn [wp]. destruct (is_exception e); [apply Hfail|done].
    + destruct (is_exception e); [apply Hfail|done].
  - eapply wp_post; [apply (wp_only keeps_all _ _ _ (fun _ _ => True)); [|apply keeps_guarded|done]|].
    + apply only_bind; [apply only_log|]. by only_auto.
    + intros h1 [u|e] _; [done|]. destruct (is_exception e); [apply Hfail|done].
Qed.
End facts.

(** C19: Over any number of turns, whatever the processes, the store and the clock answer: what
    the worker deletes are objects that the store listed under one of its tiers, older than
    the tier allows, at most a thousand at once; and before that, in the hour the age is
    measured from, the database said that it is the primary, its dump was written without an
    error, and the file was stored. *)
Theorem deletions_follow_a_dump env host w turns pages bucket keys k h :
  read_worker env host = Ok w ->
  steps (backups env host turns pages) [] (POp (E := backup_effect) (DeleteObjects bucket keys) k) h ->
  bucket = pl_bucket (wk_place w) /\ swept w h keys.
Proof.
  intros Hw Hs. unfold backups in Hs. rewrite Hw in Hs.
  exact (wp_guard _ _ _ _ _ _ _ (work_guarded w turns pages []) Hs).
Qed.

(** *** All that is old is deleted *)

Lemma exec_pbind {S A B} (handler : forall a : kaction, S -> result (kanswer a) * S) (p : prog A) (f : result A -> prog B) s h :
  exec (E := backup_effect) handler (pbind p f) s h =
  match exec (E := backup_effect) handler p s h with
  | (Some r, s, h) => exec (E := backup_effect) handler (f r) s h
  | (None, s, h) => (None, s, h)
  end.
Proof.
  revert s h. induction p as [r|a k IH|]; intros s h; cbn [pbind exec]; [done| |done].
  destruct (handler a s) as [r s']. apply IH.
Qed.
Section pruned.
Variable w : worker.
Variable pages : list (list object).
(** A store with these pages, which deletes what it is asked to *)
Definition shelf (a : kaction) (deleted : list string) : result (kanswer a) * list string :=
  match a with
  | IsReady => (Ok 0, deleted)
  | Psql _ | TempFile => (Ok EmptyString, deleted)
  | Now => (Ok 0, deleted)
  | NextPage _ _ n => (Ok (pages !! n), deleted)
  | DeleteObjects _ keys => (Ok tt, deleted ++ keys)
  | _ => (Ok tt, deleted)
  end.
Lemma shelved {B} l (p : prog B) deleted h :
  exists h', exec (E := backup_effect) shelf (each l (fun keys => ask (DeleteObjects (pl_bucket (wk_place w)) keys));; p) deleted h =
    exec (E := backup_effect) shelf p (deleted ++ concat l) h'.
Proof.
  revert deleted h. induction l as [|keys l IH]; intros deleted h; [exists h; by rewrite app_nil_r|].
  cbn [each concat]. edestruct (IH (deleted ++ keys)) as [h' Hh']. exists h'. rewrite app_assoc. rewrite <- Hh'. reflexivity.
Qed.
Lemma pruned_from fuel n prefix cutoff deleted h :
  (n <= length pages < n + fuel)%nat ->
  (exec (E := backup_effect) shelf (prune_from w fuel n prefix cutoff) deleted h).1 =
    (Some (Ok tt), deleted ++ concat (map (old_keys cutoff) (drop n pages))).
Proof.
  revert n deleted h. induction fuel as [|fuel IH]; intros n deleted h Hf.
  - exfalso. lia.
  - cbn [prune_from]. cbn [mbind prog_bind act pbind exec shelf]. destruct (pages !! n) as [objects|] eqn:En; cbn [exec].
    + edestruct (shelved (batches_of (old_keys cutoff objects)) (prune_from w fuel (S n) prefix cutoff)) as [h' Hh'].
      cbn [mbind prog_bind] in Hh'. rewrite Hh'. apply lookup_lt_Some in En as Hlt. rewrite IH by lia. unfold batches_of. rewrite batches_whole by done.
      rewrite (drop_S _ _ _ En). cbn [map concat]. by rewrite app_assoc.
    + rewrite drop_ge by (by apply lookup_ge_None). by rewrite app_nil_r.
Qed.
End pruned.
(** However many pages the store lists, the pruning of a tier ends, and it has deleted
    exactly the listed objects that are older than the tier allows. *)
Theorem pruning_is_exact w pages fuel prefix cutoff :
  (length pages < fuel)%nat ->
  (exec (E := backup_effect) (shelf pages) (prune w fuel prefix cutoff) [] []).1 =
    (Some (Ok tt), concat (map (old_keys cutoff) pages)).
Proof. intros Hf. unfold prune. rewrite pruned_from; [done|lia]. Qed.

(** *** The hour of the daily dump *)

(** A primary whose processes take no time: only the worker's sleeps move the clock. *)
Definition clockwork (a : kaction) (t : instant) : result (kanswer a) * instant :=
  match a with
  | IsReady => (Ok 0, t)
  | Psql _ => (Ok "t"%string, t)
  | TempFile => (Ok "/tmp/x.dump"%string, t)
  | Now => (Ok t, t)
  | NextPage _ _ _ => (Ok None, t)
  | Sleep n => (Ok tt, t + seconds n)
  | _ => (Ok tt, t)
  end.
Definition tier_of (e : @Effects.event backup_effect) : option string :=
  match ev_action e with Upload _ _ _ tier => Some tier | _ => None end.
Lemma hour_of_quotient t : hour_of t = (t / usec_per_hour) mod 24.
Proof.
  unfold hour_of. replace usec_per_day with (usec_per_hour * 24) by done. rewrite Z.rem_mul_r by done.
  rewrite Z.mul_comm, Z.div_add, Z.div_small by (done || by apply Z.mod_pos_bound). done.
Qed.
Lemma hour_of_whole t : hour_of (whole_hour t) = hour_of t.
Proof. rewrite !hour_of_quotient. unfold whole_hour. by rewrite Z.div_mul. Qed.
Definition six_hourly_only (e : @Effects.event backup_effect) : Prop :=
  match tier_of e with Some tier => tier = "six-hourly"%string | None => True end.
(** The program ends with [x] at the time [t'], and what it uploads is of the first tier. *)
Definition does {A} (p : prog A) (t : instant) (x : A) (t' : instant) : Prop :=
  forall h, exists evs, exec (E := backup_effect) clockwork p t h = (Some (Ok x), t', evs ++ h) /\ Forall six_hourly_only evs.
Lemma does_ret {A} (x : A) t : does (mret x) t x t.
Proof. intros h. by exists []. Qed.
Lemma does_ask (a : kaction) t r t' :
  clockwork a t = (Ok r, t') -> (forall p b k tier, a = Upload p b k tier -> tier = "six-hourly"%string) -> does (ask a) t r t'.
Proof.
  intros Ha Hu h. exists [Ev (E := backup_effect) a (Ok r)]. cbn [exec act]. rewrite Ha. split; [done|].
  constructor; [|constructor]. unfold six_hourly_only, tier_of. simpl. destruct a; try done. by eapply Hu.
Qed.
Lemma does_bind {A B} (p : prog A) (f : A -> prog B) t t1 t2 x y :
  does p t x t1 -> does (f x) t1 y t2 -> does (p ≫= f) t y t2.
Proof.
  intros Hp Hf h. destruct (Hp h) as (evs & He & Hs). destruct (Hf (evs ++ h)) as (evs' & He' & Hs'). exists (evs' ++ evs).
  split; [|by apply Forall_app_2]. unfold mbind, prog_bind. rewrite exec_pbind, He, He'. by rewrite app_assoc.
Qed.
Lemma does_try {A} (p : prog A) c t t' x : does p t x t' -> does (try_ p c) t x t'.
Proof.
  intros Hp h. destruct (Hp h) as (evs & He & Hs). exists evs. split; [|done]. unfold try_. rewrite exec_pbind, He. done.
Qed.
Ltac does_step :=
  cbv iota;
  match goal with
  | |- does (act ?a) _ _ _ => refine (does_ask a _ _ _ _ _); [reflexivity|try done]
  | |- does (mret _) _ _ _ => apply does_ret
  | |- does (_ ≫= _) _ _ _ => eapply does_bind
  end.
Section clock.
Variable w : worker.
Hypothesis Hinterval : wk_interval w = 21600.
Lemma does_log message t : does (log w message) t tt t.
Proof. unfold log. repeat does_step. Qed.
Lemma does_prunes pages l t t0 : does (each l (fun tier => prune w (S pages) tier.1 (t0 - tier.2))) t tt t.
Proof.
  induction l as [|tier l IH]; cbn [each]; [does_step|]. does_step; [|exact IH]. unfold prune. cbn [prune_from]. does_step; [does_step|]. does_step.
Qed.
Lemma six_hours_on t pages : hour_of t <> 0 -> does (turn w (S pages)) t tt (t + hours 6).
Proof.
  intros Ht. unfold turn. apply does_try. does_step; [does_step|]. change (0 =? 0) with true. cbn iota. does_step.
  - unfold run. does_step; [does_step|]. cbv zeta. does_step; [unfold primary; repeat does_step|].
    change (negb _) with false. cbn iota. does_step; [does_step|]. does_step; [does_step|]. does_step.
    { unfold store, upload_tier. rewrite hour_of_whole. rewrite (proj2 (Z.eqb_neq _ _) Ht). cbv zeta. repeat does_step. naive_solver. }
    does_step; [apply does_log|]. does_step; [apply does_prunes|]. does_step.
  - cbv iota. rewrite Hinterval. does_step.
Qed.
Lemma work_six_hourly turns pages t h :
  hour_of t mod 6 <> 0 -> Forall six_hourly_only h ->
  Forall six_hourly_only (exec (E := backup_effect) clockwork (work w turns (S pages)) t h).2.
Proof.
  revert t h. induction turns as [|turns IH]; intros t h Ht Hh; [done|]. cbn [work]. unfold mbind, prog_bind.
  rewrite exec_pbind. destruct (six_hours_on t pages ltac:(intros H0; by rewrite H0 in Ht) h) as (evs & -> & Hevs).
  apply IH; [|by apply Forall_app_2]. rewrite hour_of_quotient in *. unfold hours. rewrite Z.div_add by done.
  assert (forall z, (z mod 24) mod 6 = z mod 6) as Hm.
  { intros z. replace 24 with (6 * 4) by done. rewrite Z.rem_mul_r by done.
    by rewrite Z.mul_comm, Z.mod_add, Z.mod_mod by done. }
  rewrite Hm in *. by rewrite <- Z.add_mod_idemp_r, Z.add_0_r by done.
Qed.
End clock.
(** A worker with the default interval that starts in an hour that is no multiple of six
    stores no daily and no monthly dump, however long it runs, if dumps take no time. *)
Theorem odd_start_makes_no_daily_dump w turns pages t e :
  wk_interval w = 21600 -> hour_of t mod 6 <> 0 ->
  e ∈ (exec (E := backup_effect) clockwork (work w turns (S pages)) t []).2 -> six_hourly_only e.
Proof.
  intros Hw Ht He. pose proof (work_six_hourly w Hw turns pages t [] Ht ltac:(constructor)) as Hall.
  rewrite Forall_forall in Hall. by apply Hall.
Qed.

(** *** Concrete runs *)

Definition demo_env : environ := fun k =>
  dget k [("R2_BUCKET", "/backups/prod/"); ("R2_ENDPOINT", "e"); ("R2_ACCESS_KEY_ID", "i"); ("R2_SECRET_ACCESS_KEY", "s")]%string.
Definition demo_worker : worker :=
  {| wk_place := {| pl_bucket := "backups"; pl_root := "prod/pg-ha" |}; wk_status := "/pgha-status/walg";
     wk_database := "postgres"; wk_interval := 21600; wk_host := "pg1" |}.
Lemma demo_read : read_worker demo_env "pg1" = Ok demo_worker.
Proof. vm_compute. reflexivity. Qed.
(** 2026-07-14, at three and at midnight *)
Definition at_three : instant := 1783998000000000.
Definition at_midnight : instant := 1783987200000000.
(** A start at midnight stores a daily dump each day. *)
Example daily_at_midnight :
  length (omap tier_of (exec (E := backup_effect) clockwork (work demo_worker 8 1) at_midnight []).2) = 10%nat.
Proof. vm_compute. reflexivity. Qed.
Lemma odd_start_makes_no_daily_dump_witness :
  hour_of at_three = 3 /\ Forall six_hourly_only (exec (E := backup_effect) clockwork (work demo_worker 8 1) at_three []).2 /\
  length (omap tier_of (exec (E := backup_effect) clockwork (work demo_worker 8 1) at_three []).2) = 8%nat.
Proof.
  split; [vm_compute; reflexivity|]. split; [|vm_compute; reflexivity]. apply Forall_forall. intros e.
  apply (odd_start_makes_no_daily_dump demo_worker 8 0 at_three e); [reflexivity|vm_compute; discriminate].
Defined.
Definition demo_page : list object :=
  [{| ob_key := "old"; ob_modified := at_midnight - days 30 |}; {| ob_key := "new"; ob_modified := at_midnight |}].
Lemma pruning_is_exact_witness :
  (exec (E := backup_effect) (shelf [demo_page]) (prune demo_worker 2 "p" (at_midnight - days 7)) [] []).1 = (Some (Ok tt), ["old"%string]).
Proof. rewrite (pruning_is_exact demo_worker [demo_page] 2); [vm_compute; reflexivity|simpl; lia]. Defined.
(** A store with the old object on its first page, at midnight *)
Definition demo_store (a : kaction) (u : unit) : result (kanswer a) * unit :=
  match a with
  | Now => (Ok at_midnight, u)
  | NextPage _ _ n => (Ok ([demo_page] !! n), u)
  | a => ((clockwork a at_midnight).1, u)
  end.
Definition deletes (a : kaction) : bool := match a with DeleteObjects _ _ => true | _ => false end.
Definition at_delete := reach (E := backup_effect) deletes demo_store (backups demo_env "pg1" 1 2) tt [].
Lemma deletions_follow_a_dump_witness :
  next_action at_delete.1 = Some (DeleteObjects "backups" ["old"%string]) /\ swept demo_worker at_delete.2 ["old"%string].
Proof.
  assert (next_action at_delete.1 = Some (DeleteObjects "backups" ["old"%string])) as Ha by (vm_compute; reflexivity).
  destruct (reach_performs (E := backup_effect) deletes demo_store (backups demo_env "pg1" 1 2) tt [] _ Ha) as [k Hk].
  split; [exact Ha|]. exact (proj2 (deletions_follow_a_dump demo_env "pg1" demo_worker 1 2 _ _ k _ demo_read Hk)).
Defined.
