(* ===== verification/NodeBox.v ===== *)
(** * Node boxes: what the deployment helpers share

    deploy/*-node-box.py: scripts that run on the machine of the virtual machine monitor
    and register, create, roll and stop the confidential machines of the mesh.  They are
    copies of each other; this file holds the parts they have in common, and a [box] is what
    one of them fills in: the defaults of its settings, the names of the variables it seals
    and what it puts into the measured description of the application.

    The client of the monitor ([mcp_dstack], not in this repository), files, the clock and
    the output are actions; [print(json.dumps(x))] is one action with the value [x].  The
    environment is read when the script is loaded. *)

From stdpp Require Import base option list strings.
From Stdlib Require Import ZArith Lia Ascii.
From S2P Require Import Prelude PyStr PyFloat Json JsonParse Sha256 Effects BudgetConfig AdminCore.

Local Open Scope Z_scope.

(** Shell texts are written with a back quote for a double quote. *)
Definition shell (s : string) : string := smap (fun c => if eqc c "`" then "034"%char else c) s.
Definition docker_login : string :=
  shell ("if [ -n `$DSTACK_DOCKER_PASSWORD` ]; then " +:+
         "echo `$DSTACK_DOCKER_PASSWORD` | docker login `${DSTACK_DOCKER_REGISTRY:-ghcr.io}` " +:+
         "-u `$DSTACK_DOCKER_USERNAME` --password-stdin; fi")%string.

(** ** What a script fills in *)

Definition REGISTRY : string := "DSTACK_DOCKER_REGISTRY".
Record compose_flags := {
  cf_public : bool;
  cf_secure_time : bool;
  cf_no_instance_id : option string;  (** the default of [BOX_NO_INSTANCE_ID]; [None] where it is the constant [False] *)
  cf_pre_launch : string;
}.
Record box := {
  bx_script : string;
  bx_name_key : string;  (** the variable with the name that is measured *)
  bx_name : string;
  bx_compose : string;
  bx_vcpu : string;
  bx_mem : string;
  bx_disk : string;
  bx_gateway : string;
  bx_env_keys : list string;
  bx_defaults : odict string -> odict string;
  bx_flags : compose_flags;
}.

Definition ON : list string := ["1"; "true"; "yes"; "on"]%string.
(** [text.strip().lower() in {"1", "true", "yes", "on"}] *)
Definition is_on (text : string) : bool := bool_decide (lower (strip text) ∈ ON).
Definition int_of (text : string) : result Z :=
  match parse_int text with
  | Some z => Ok z
  | None => Raise (ValueError "invalid literal for int() with base 10")
  end.

(** [json.dumps(j, indent=n, ensure_ascii=False)] *)
Definition line_at (n level : nat) : string := String LF (String.concat EmptyString (repeat " "%string (n * level))).
Fixpoint dumps_indent {F} `{PyFloat F} (n level : nat) (j : json F) : string :=
  match j with
  | JArr [] => "[]"
  | JObj [] => "{}"
  | JArr l =>
      "[" +:+ line_at n (S level) +:+ join ("," +:+ line_at n (S level)) (map (dumps_indent n (S level)) l) +:+
      line_at n level +:+ "]"
  | JObj d =>
      "{" +:+ line_at n (S level) +:+
      join ("," +:+ line_at n (S level)) (map (fun kv => quote kv.1 +:+ ": " +:+ dumps_indent n (S level) kv.2) d) +:+
      line_at n level +:+ "}"
  | j => dumps j
  end%string.

Section box.
Context {F : Type} `{PyFloat F}.
Abbreviation row := (odict (json F)).

Inductive baction :=
  | SetRpc (url : string)
  | DeployApp (name docker_compose : string) (env : odict string) (gateway : bool) (ports : json F) (vcpu mem disk : Z)
  | Post (method : string) (params : row)
  | ReadText (path : string)
  | Vmm (method : string) (params : row)
  | VmmStatus
  | VmLogs (vm_id : string) (lines : Z)
  | DeployAppContract (compose_hash : string)
  | EncryptPubkey (app_id : string)
  | SealEnv (env : odict string) (pubkey : string)
  | ParsePort (port : json F)
  | Sleep (seconds : Z)
  | Print (j : json F)
  | PrintText (text : string)
  | MakeParent (path : string)
  | WriteJson (path : string) (j : json F)
  | Chmod600 (path : string)
  | Replace (path target : string).
Definition banswer (a : baction) : Type :=
  match a with
  | ReadText _ | VmLogs _ _ | DeployAppContract _ | EncryptPubkey _ | SealEnv _ _ => string
  | Vmm _ _ | VmmStatus | ParsePort _ | DeployApp _ _ _ _ _ _ _ _ => json F
  | Post _ _ => Z * string  (** the status and the text *)
  | _ => unit
  end.
#[export] Instance box_effect : Effect := {| action := baction; answer := banswer |}.
Abbreviation prog := (@prog box_effect).
Abbreviation ask a := (@act box_effect a).

(** The environment, the arguments after the script, and the constants of [mcp_dstack] *)
Variable env : environ.
Variables (RPC GATEWAY_RPC : string) (KMS_URLS : list string).

Record settings := {
  NAME : string;
  VM_NAME : string;
  COMPOSE_PATH : string;
  VCPU : Z;
  MEM : Z;
  DISK : Z;
  PORTS : json F;
  NET_MODE : string;
  GATEWAY_ENABLED : bool;
  NO_INSTANCE_ID : bool;
}.
Definition read_settings (b : box) : result settings :=
  let name := getenv env (bx_name_key b) (bx_name b) in
  vcpu ← int_of (getenv env "BOX_VCPU" (bx_vcpu b));
  mem ← int_of (getenv env "BOX_MEM" (bx_mem b));
  disk ← int_of (getenv env "BOX_DISK" (bx_disk b));
  ports ← json_loads (getenv env "BOX_PORTS" "[]");
  Ok {| NAME := name;
        VM_NAME := getenv env "BOX_NAME" name;
        COMPOSE_PATH := getenv env "BOX_COMPOSE" (bx_compose b);
        VCPU := vcpu; MEM := mem; DISK := disk; PORTS := ports;
        NET_MODE := or_help "bridge" (lower (strip (getenv env "BOX_NET_MODE" "bridge")));
        GATEWAY_ENABLED := is_on (getenv env "BOX_GATEWAY_ENABLED" (bx_gateway b));
        NO_INSTANCE_ID :=
          match cf_no_instance_id (bx_flags b) with
          | Some d => is_on (getenv env "BOX_NO_INSTANCE_ID" d)
          | None => false
          end |}.

(** The variables to seal: their values come under [E_] names. *)
Definition given_env (keys : list string) : odict string :=
  foldl (fun e key => dset key (getenv env ("E_" +:+ key) "") e) [] keys.
(** [env[key] = env.get(key) or text] *)
Definition or_default (key text : string) (e : odict string) : odict string :=
  dset key (or_help text (default EmptyString (dget key e))) e.
Definition build_env (b : box) : odict string :=
  bx_defaults b (or_default REGISTRY "ghcr.io" (given_env (bx_env_keys b))).

Definition allowed_envs (env_keys : list string) : list string := sorted_set (env_keys ++ ["APP_ID"%string]).
Definition app_compose (fl : compose_flags) (st : settings) (text : string) (env_keys : list string) : json F :=
  JObj [("manifest_version", JInt 2);
        ("name", JStr (NAME st));
        ("runner", JStr "docker-compose");
        ("docker_compose_file", JStr text);
        ("kms_enabled", JBool true);
        ("gateway_enabled", JBool (GATEWAY_ENABLED st));
        ("local_key_provider_enabled", JBool false);
        ("key_provider_id", JStr "");
        ("public_logs", JBool (cf_public fl));
        ("public_sysinfo", JBool (cf_public fl));
        ("allowed_envs", JArr (map JStr (allowed_envs env_keys)));
        ("no_instance_id", JBool (NO_INSTANCE_ID st));
        ("secure_time", JBool (cf_secure_time fl));
        ("pre_launch_script", JStr (cf_pre_launch fl))]%string.
Definition app_compose_and_hash (b : box) (st : settings) (env_keys : list string) : prog (string * string) :=
  text ← ask (ReadText (COMPOSE_PATH st));
  let rendered := dumps_indent 4 0 (app_compose (bx_flags b) st text env_keys) in
  mret (rendered, sha256_hex rendered).

Definition kms_urls (st : settings) : list string :=
  if bool_decide (NET_MODE st = "bridge"%string) then ["https://10.0.2.2:9101"%string] else KMS_URLS.
Definition gateway_urls (st : settings) : list string := if GATEWAY_ENABLED st then [GATEWAY_RPC] else [].
(** [[m._parse_port(port) for port in PORTS]] *)
Fixpoint parse_ports (l : list (json F)) : prog (list (json F)) :=
  match l with
  | [] => mret []
  | p :: l => q ← ask (ParsePort p); qs ← parse_ports l; mret (q :: qs)
  end.
Definition ports_of (st : settings) : prog (list (json F)) := l ← PRet (py_list (PORTS st)); parse_ports l.
Definition seal (app_id : string) (sealed : odict string) : prog string :=
  pubkey ← ask (EncryptPubkey app_id); ask (SealEnv sealed pubkey).

Definition create_vm_params (st : settings) (app_id compose_file : string) (sealed : odict string) (stopped : bool)
    : prog row :=
  ports ← ports_of st;
  encrypted ← seal app_id sealed;
  mret [("name", JStr (VM_NAME st));
        ("image", JStr "dstack-0.5.11");
        ("compose_file", JStr compose_file);
        ("vcpu", JInt (VCPU st));
        ("memory", JInt (MEM st));
        ("disk_size", JInt (DISK st));
        ("app_id", JStr app_id);
        ("user_config", JStr "");
        ("ports", JArr ports);
        ("hugepages", JBool false);
        ("pin_numa", JBool false);
        ("stopped", JBool stopped);
        ("no_tee", JBool false);
        ("kms_urls", json_strs (kms_urls st));
        ("networking", JObj [("mode", JStr (NET_MODE st))]);
        ("gateway_urls", json_strs (gateway_urls st));
        ("encrypted_env", JStr encrypted)]%string.
Definition upgrade_params (st : settings) (app_id vm_id compose_file : string) (sealed : odict string) : prog row :=
  encrypted ← seal app_id sealed;
  ports ← ports_of st;
  mret [("id", JStr vm_id);
        ("compose_file", JStr compose_file);
        ("encrypted_env", JStr encrypted);
        ("update_ports", JBool true);
        ("ports", JArr ports);
        ("update_kms_urls", JBool true);
        ("kms_urls", json_strs (kms_urls st));
        ("update_gateway_urls", JBool true);
        ("gateway_urls", json_strs (gateway_urls st))]%string.
Definition create_vm (st : settings) (app_id compose_file : string) (sealed : odict string) (stopped : bool) : prog (json F) :=
  params ← create_vm_params st app_id compose_file sealed stopped;
  ask (Vmm "CreateVm" params).

(** ** Reading what the monitor answers *)

Definition id_param (vm_id : string) : row := [("id"%string, JStr vm_id)].
(** [d.get(k)], [None] as JSON null *)
Definition field (k : string) (d : row) : json F := default JNull (dget k d).
(** [d.get(k) or {}] *)
Definition or_empty (k : string) (d : row) : json F := if truthy (field k d) then field k d else JObj [].
(** [str(d.get(k) or "").lower()] *)
Definition lower_text (k : string) (d : row) : string :=
  lower (if truthy (field k d) then json_str (field k d) else EmptyString).
(** [bool(d.get("found", True))] *)
Definition found_or_true (d : row) : bool := truthy (default (JBool true) (dget "found" d)).
Definition get_info (vm_id : string) : prog row :=
  response ← ask (Vmm "GetInfo" (id_param vm_id)); PRet (obj response).
(** [str((response.get("info") or {}).get("status") or "").lower()] *)
Definition status_of (response : row) : result string :=
  info ← obj (or_empty "info" response); Ok (lower_text "status" info).
Definition stop_or_exit (status : string) : bool := startswith "stop" status || startswith "exit" status.
Definition stopped_or_exit (status : string) : bool := bool_decide (status = "stopped"%string) || startswith "exit" status.

(** ** Waiting for a machine to stop

    Where [gone], a machine that is not found, and an error, count as stopped. *)

Definition poll (done : string -> bool) (gone : bool) (vm_id : string) : prog bool :=
  try_ (response ← get_info vm_id;
        if gone && negb (found_or_true response) then mret true
        else status ← PRet (status_of response); mret (done status))
       (fun _ => mret gone).
Fixpoint wait_stopped (once : prog bool) (n : nat) : prog bool :=
  match n with
  | O => mret false
  | S n => b ← once; if b : bool then mret true else ask (Sleep 2);; wait_stopped once n
  end.
Definition POLLS : nat := 40.

(** ** The modes *)

(** How a script rolls a machine: whether an error of the stop is ignored, which states
    count as stopped, whether a machine that is gone does, and whether [BOX_FRESH_DISK] is
    read. *)
Record rolling := {
  ro_ignore_stop : bool;
  ro_done : string -> bool;
  ro_gone : bool;
  ro_fresh : bool;
}.
Definition stop_first (r : rolling) (vm_id : string) : prog unit :=
  let stop := ask (Vmm "StopVm" (id_param vm_id));; mret tt in
  if ro_ignore_stop r then suppress stop else stop.
Definition wants_fresh (r : rolling) : bool := ro_fresh r && is_on (getenv env "BOX_FRESH_DISK" "").
Definition update (b : box) (r : rolling) (st : settings) (env_keys : list string) (app_id vm_id : string) : prog unit :=
  let e := build_env b in
  c ← app_compose_and_hash b st env_keys;
  let '(compose_file, compose_hash) := c in
  let sealed := dset "APP_ID"%string app_id e in
  stop_first r vm_id;;
  stopped ← wait_stopped (poll (ro_done r) (ro_gone r) vm_id) POLLS;
  if wants_fresh r then
    result ← create_vm st app_id compose_file sealed false;
    d ← PRet (obj result);
    ask (Print (JObj [("app_id", JStr app_id); ("compose_hash", JStr compose_hash); ("vm_id", field "id" d);
                      ("mode", JStr "createvm"); ("stopped", JBool stopped)]%string))
  else
    params ← upgrade_params st app_id vm_id compose_file sealed;
    upgrade ← ask (Vmm "UpgradeApp" params);
    start ← ask (Vmm "StartVm" (id_param vm_id));
    ask (Print (JObj [("app_id", JStr app_id); ("compose_hash", JStr compose_hash); ("vm_id", JStr vm_id);
                      ("mode", JStr "upgrade"); ("stopped", JBool stopped); ("upgrade", upgrade); ("start", start)]%string)).

Definition gateway_url (st : settings) (app_id : string) : json F :=
  if GATEWAY_ENABLED st then JStr ("https://" +:+ lower (sdrop 2 app_id) +:+ ".gateway.attestmesh.xyz") else JNull.
(** [stopped]: whether the machine is created without being started; [url]: the last field *)
Definition deploy (b : box) (st : settings) (stopped : bool) (url : string -> json F) : prog unit :=
  let e := build_env b in
  c ← app_compose_and_hash b st (dkeys e);
  let '(compose_file, compose_hash) := c in
  app_id ← ask (DeployAppContract compose_hash);
  result ← create_vm st app_id compose_file e stopped;
  d ← PRet (obj result);
  ask (Print (JObj [("app_id", JStr app_id); ("compose_hash", JStr compose_hash); ("vm_id", field "id" d);
                    ("gateway_url", url app_id)]%string)).
Definition hash (b : box) (st : settings) (env_keys : list string) : prog unit :=
  c ← app_compose_and_hash b st env_keys; ask (PrintText c.2).

Definition exit_usage {A} (text : string) : prog A := raise (SystemExit ("usage: " +:+ text)).
Definition stop_vm (b : box) (vm_id : string) : prog row :=
  if bool_decide (vm_id = EmptyString) then exit_usage (bx_script b +:+ " stop <vm_id>")
  else
    before ← get_info vm_id;
    let found := found_or_true before in
    let answer stopped := [("vm_id", JStr vm_id); ("found", JBool found); ("stopped", JBool stopped)]%string in
    if found then
      try_ (ask (Vmm "StopVm" (id_param vm_id));; mret (answer true))
           (fun exc => mret (answer false ++ [("error"%string, JStr (exn_msg exc))]))
    else mret (answer false).
Definition start_vm (b : box) (vm_id : string) : prog row :=
  if bool_decide (vm_id = EmptyString) then exit_usage (bx_script b +:+ " start <vm_id>")
  else
    before ← get_info vm_id;
    let found := found_or_true before in
    let answer started := [("vm_id", JStr vm_id); ("found", JBool found); ("started", JBool started)]%string in
    if found then
      status ← PRet (status_of before);
      if startswith "run" status then mret (answer true ++ [("already_running"%string, JBool true)])
      else result ← ask (Vmm "StartVm" (id_param vm_id)); mret (answer true ++ [("result"%string, result)])
    else mret (answer false).

(** ** The command line *)

Definition arg (argv : list string) (n : nat) : string := default EmptyString (argv !! n).
Definition mode_of (argv : list string) : string := default "hash"%string (argv !! 0%nat).
Definition with_ids (b : box) (argv : list string) (usage : string) (k : string -> string -> prog unit) : prog unit :=
  let app_id := arg argv 1 in
  let vm_id := arg argv 2 in
  if bool_decide (app_id = EmptyString) || bool_decide (vm_id = EmptyString)
  then exit_usage (bx_script b +:+ " " +:+ usage +:+ " <app_id> <vm_id>")
  else k app_id vm_id.
(** A script: its settings are read before its [main]. *)
Definition script (b : box) (main : settings -> prog unit) : prog unit := st ← PRet (read_settings b); main st.
End box.
