(* ===== verification/NodeScripts.v ===== *)
(** * Node boxes: the scripts

    What each deploy/*-node-box.py fills in, and its [main].  The scripts of one family
    differ in their settings and in how they wait: the nodes with one machine ([single_main]),
    the workloads whose machine is created without being started ([workload_main]) and the
    nodes of a cluster, whose registration and creation are two steps ([ha_main]).

    The homeserver's script is the oldest and has its own way ([matrix_main]).

    The measured shell programs of synclave and webhost are parameters: what is proved of
    the measured text holds whatever they are. *)

From stdpp Require Import base option list strings.
From Stdlib Require Import ZArith Lia Ascii.
From S2P Require Import Prelude PyStr PyFloat Json JsonParse Sha256 Effects BudgetConfig AdminCore NodeBox.

Local Open Scope Z_scope.

(** ** Settings, sealed names and measured flags *)

(** [build_env] of r2-host fills in four more variables. *)
Definition r2_host_defaults (e : odict string) : odict string :=
  let e := or_default "R2_REGION" "auto" e in
  let e := or_default "BACKEND_PROVIDER" "Cloudflare" e in
  let e := or_default "BACKEND_REGION" (default EmptyString (dget "R2_REGION" e)) e in
  or_default "BACKEND_FORCE_PATH_STYLE" "true" e.
(** The script of a workload also writes its environment to a file. *)
Definition workload_env : string :=
  docker_login +:+
  shell ("; rm -f /tmp/attestmesh-workload.env; " +:+
         "if [ -n `$APP_ENV_B64` ]; then printf %s `$APP_ENV_B64` | openssl enc -base64 -d -A > /tmp/attestmesh-workload.env; " +:+
         "else : > /tmp/attestmesh-workload.env; fi; chmod 0600 /tmp/attestmesh-workload.env")%string.

Definition ssh_env_keys : list string :=
  ["CHAIN_ID"; "RPC_URL"; "BUNDLER_URL"; "GAS_POLICY_ID"; "INDEXER_REGISTRY_ADDR"; "GATEWAY_DOMAIN";
   "SSH_AUTHORIZED_KEYS_B64"; "DSTACK_DOCKER_USERNAME"; "DSTACK_DOCKER_PASSWORD"; "DSTACK_DOCKER_REGISTRY"]%string.
Definition ssh_compose : compose_flags :=
  {| cf_public := true; cf_secure_time := false; cf_no_instance_id := None; cf_pre_launch := docker_login |}.
Definition ssh_box : box :=
  {| bx_script := "ssh-node-box.py"; bx_name_key := "BOX_NAME"; bx_name := "ssh-node";
     bx_compose := "/tmp/ssh-node.yaml";
     bx_vcpu := "2"; bx_mem := "2048"; bx_disk := "20"; bx_gateway := "true"; bx_env_keys := ssh_env_keys;
     bx_defaults := id; bx_flags := ssh_compose |}%string.

Definition hermes_env_keys : list string :=
  ["CHAIN_ID"; "RPC_URL"; "BUNDLER_URL"; "GAS_POLICY_ID"; "INDEXER_REGISTRY_ADDR"; "GATEWAY_DOMAIN"; "CLUSTER";
   "SSH_AUTHORIZED_KEYS_B64"; "AGENT_NAME"; "MODEL_PROVIDER_NAME"; "MODEL_BASE_URL"; "MODEL_NAME"; "MODEL_API_KEY";
   "MATRIX_HOMESERVER"; "MATRIX_USER_ID"; "MATRIX_ACCESS_TOKEN"; "MATRIX_ALLOWED_USERS"; "MATRIX_ENCRYPTION";
   "HINDSIGHT_API_URL"; "HINDSIGHT_API_KEY"; "HINDSIGHT_BANK_ID"; "HINDSIGHT_RETAIN_TAGS"; "EMAIL_ADDRESS";
   "EMAIL_PASSWORD"; "EMAIL_IMAP_HOST"; "EMAIL_SMTP_HOST"; "EMAIL_HOME_ADDRESS"; "GITHUB_TOKEN"; "GIT_USER_NAME";
   "GIT_USER_EMAIL"; "HERMES_SOUL_B64"; "WORKSPACE_GIT_URL"; "DSTACK_DOCKER_USERNAME"; "DSTACK_DOCKER_PASSWORD";
   "DSTACK_DOCKER_REGISTRY"]%string.
Definition hermes_compose : compose_flags :=
  {| cf_public := true; cf_secure_time := false; cf_no_instance_id := None; cf_pre_launch := docker_login |}.
Definition hermes_box : box :=
  {| bx_script := "hermes-node-box.py"; bx_name_key := "BOX_NAME"; bx_name := "hermes-node";
     bx_compose := "/tmp/hermes-node.yaml";
     bx_vcpu := "4"; bx_mem := "16384"; bx_disk := "60"; bx_gateway := "true"; bx_env_keys := hermes_env_keys;
     bx_defaults := id; bx_flags := hermes_compose |}%string.

Definition postgres_env_keys : list string :=
  ["CHAIN_ID"; "RPC_URL"; "BUNDLER_URL"; "GAS_POLICY_ID"; "INDEXER_REGISTRY_ADDR"; "GATEWAY_DOMAIN";
   "POSTGRES_PASSWORD"; "MATRIX_MESH_IP"; "MATRIX_USER_ID"; "MATRIX_PASSWORD"; "MATRIX_ROOM_ID";
   "MATRIX_ADMIN_MXIDS"; "LLM_BASE_URL"; "LLM_MODEL"; "LLM_API_KEY"; "DSTACK_DOCKER_USERNAME";
   "DSTACK_DOCKER_PASSWORD"; "DSTACK_DOCKER_REGISTRY"]%string.
Definition postgres_compose : compose_flags :=
  {| cf_public := true; cf_secure_time := false; cf_no_instance_id := None; cf_pre_launch := docker_login |}.
Definition postgres_box : box :=
  {| bx_script := "postgres-node-box.py"; bx_name_key := "BOX_NAME"; bx_name := "postgres-node";
     bx_compose := "/tmp/postgres-node.yaml";
     bx_vcpu := "2"; bx_mem := "4096"; bx_disk := "40"; bx_gateway := "false"; bx_env_keys := postgres_env_keys;
     bx_defaults := id; bx_flags := postgres_compose |}%string.

Definition runyard_env_keys : list string :=
  ["CHAIN_ID"; "RPC_URL"; "BUNDLER_URL"; "GAS_POLICY_ID"; "INDEXER_REGISTRY_ADDR"; "GATEWAY_DOMAIN";
   "RUNYARD_HUB_SESSION_SECRET"; "SECRETS_ENC_KEY"; "RUNYARD_HUB_BOOTSTRAP_TOKEN"; "RUNYARD_HUB_TOKEN"; "TS_AUTHKEY";
   "DSTACK_DOCKER_USERNAME"; "DSTACK_DOCKER_PASSWORD"; "DSTACK_DOCKER_REGISTRY"]%string.
Definition runyard_compose : compose_flags :=
  {| cf_public := true; cf_secure_time := false; cf_no_instance_id := Some "true"%string; cf_pre_launch := docker_login |}.
Definition runyard_box : box :=
  {| bx_script := "runyard-node-box.py"; bx_name_key := "BOX_NAME"; bx_name := "runyard-node";
     bx_compose := "/tmp/runyard-node.yaml";
     bx_vcpu := "16"; bx_mem := "65536"; bx_disk := "500"; bx_gateway := "true"; bx_env_keys := runyard_env_keys;
     bx_defaults := id; bx_flags := runyard_compose |}%string.

Definition telegram_sync_env_keys : list string :=
  ["CHAIN_ID"; "RPC_URL"; "BUNDLER_URL"; "GAS_POLICY_ID"; "INDEXER_REGISTRY_ADDR"; "GATEWAY_DOMAIN";
   "TELEGRAM_API_ID"; "TELEGRAM_API_HASH"; "TG_PHONE"; "TG_DB_PASSWORD"; "DATABASE_URL"; "XAI_API_KEY"; "XAI_MODEL";
   "XAI_BASE_URL"; "SEARCH_DB_PASSWORD"; "SEARCH_DATABASE_URL"; "MATRIX_USER_ID"; "MATRIX_PASSWORD";
   "MATRIX_ROOM_ID"; "MATRIX_ADMIN_MXIDS"; "LLM_BASE_URL"; "LLM_API_KEY"; "LLM_MODEL"; "DSTACK_DOCKER_USERNAME";
   "DSTACK_DOCKER_PASSWORD"; "DSTACK_DOCKER_REGISTRY"]%string.
Definition telegram_sync_compose : compose_flags :=
  {| cf_public := true; cf_secure_time := false; cf_no_instance_id := Some "true"%string; cf_pre_launch := docker_login |}.
Definition telegram_sync_box : box :=
  {| bx_script := "telegram-sync-node-box.py"; bx_name_key := "BOX_NAME"; bx_name := "telegram-sync-node";
     bx_compose := "/tmp/telegram-sync-node.yaml";
     bx_vcpu := "2"; bx_mem := "4096"; bx_disk := "40"; bx_gateway := "false"; bx_env_keys := telegram_sync_env_keys;
     bx_defaults := id; bx_flags := telegram_sync_compose |}%string.

Definition langfuse_env_keys : list string :=
  ["CHAIN_ID"; "RPC_URL"; "BUNDLER_URL"; "GAS_POLICY_ID"; "INDEXER_REGISTRY_ADDR"; "GATEWAY_DOMAIN"; "REDIS_HA_IP_1";
   "REDIS_HA_IP_2"; "REDIS_HA_IP_3"; "CH_HA_IP_1"; "CH_HA_IP_2"; "CH_HA_IP_3"; "FUGU_ROUTER_IP";
   "LANGFUSE_DB_PASSWORD"; "LANGFUSE_NEXTAUTH_SECRET"; "LANGFUSE_SALT"; "LANGFUSE_ENCRYPTION_KEY";
   "LANGFUSE_INIT_ORG_ID"; "LANGFUSE_INIT_PROJECT_ID"; "LANGFUSE_INIT_PROJECT_PUBLIC_KEY";
   "LANGFUSE_INIT_PROJECT_SECRET_KEY"; "LANGFUSE_INIT_USER_EMAIL"; "LANGFUSE_INIT_USER_PASSWORD"; "S3_ACCESS_KEY_ID";
   "S3_SECRET_ACCESS_KEY"; "S3_BUCKET"; "S3_REGION"; "TS_AUTHKEY"; "DSTACK_DOCKER_USERNAME";
   "DSTACK_DOCKER_PASSWORD"; "DSTACK_DOCKER_REGISTRY"]%string.
Definition langfuse_compose : compose_flags :=
  {| cf_public := true; cf_secure_time := false; cf_no_instance_id := Some "false"%string; cf_pre_launch := docker_login |}.
Definition langfuse_box : box :=
  {| bx_script := "langfuse-node-box.py"; bx_name_key := "BOX_NAME"; bx_name := "langfuse-node";
     bx_compose := "/tmp/langfuse-node.yaml";
     bx_vcpu := "2"; bx_mem := "4096"; bx_disk := "30"; bx_gateway := "true"; bx_env_keys := langfuse_env_keys;
     bx_defaults := id; bx_flags := langfuse_compose |}%string.

Definition hindsight_env_keys : list string :=
  ["CHAIN_ID"; "RPC_URL"; "BUNDLER_URL"; "GAS_POLICY_ID"; "INDEXER_REGISTRY_ADDR"; "GATEWAY_DOMAIN";
   "HINDSIGHT_API_LLM_BASE_URL"; "HINDSIGHT_API_LLM_MODEL"; "HINDSIGHT_API_LLM_API_KEY";
   "HINDSIGHT_API_LLM_REASONING_EFFORT"; "HINDSIGHT_API_LLM_EXTRA_BODY"; "HINDSIGHT_API_LLM_STRICT_SCHEMA";
   "HINDSIGHT_API_LLM_MAX_COMPLETION_TOKENS"; "HINDSIGHT_API_LLM_MAX_CONCURRENT"; "HINDSIGHT_ROUTER_MESH_IP";
   "HINDSIGHT_PROVIDER_BASE_URL"; "HINDSIGHT_PROVIDER_API_KEY"; "HINDSIGHT_PROXY_API_KEY";
   "HINDSIGHT_PROVIDER_EGRESS_ENABLED"; "HINDSIGHT_PROVIDER_TOTAL_LIMIT_USD"; "HINDSIGHT_PROVIDER_SAFETY_MARGIN_USD";
   "HINDSIGHT_BUDGET_PHASE"; "HINDSIGHT_BACKFILL_LIMIT_USD"; "HINDSIGHT_MONTHLY_LIMIT_USD"; "QWEN_MONTHLY_LIMIT_USD";
   "HINDSIGHT_PROXY_RPM_LIMIT"; "HINDSIGHT_PROXY_TPM_LIMIT"; "GPT_OSS_120B_INPUT_USD_PER_M";
   "GPT_OSS_120B_OUTPUT_USD_PER_M"; "QWEN_INPUT_USD_PER_M"; "QWEN_OUTPUT_USD_PER_M";
   "HINDSIGHT_INITIAL_PROVIDER_SPEND_USD"; "HINDSIGHT_BANK_CLEANUP_ENABLED"; "HINDSIGHT_RECONCILE_AMBIGUOUS_ENABLED";
   "HINDSIGHT_RESET_PROVIDER_AUTH_CIRCUIT_ENABLED"; "HINDSIGHT_PROVIDER_AUTH_RESET_TOKEN";
   "HINDSIGHT_API_TENANT_API_KEY"; "HINDSIGHT_CP_ACCESS_KEY"; "HINDSIGHT_PGHA_ENABLED"; "HINDSIGHT_DB_PASSWORD";
   "HINDSIGHT_PGHA_IP_1"; "HINDSIGHT_PGHA_IP_2"; "HINDSIGHT_PGHA_IP_3"; "HINDSIGHT_API_DATABASE_URL";
   "HINDSIGHT_API_MIGRATION_DATABASE_URL"; "DSTACK_DOCKER_USERNAME"; "DSTACK_DOCKER_PASSWORD";
   "DSTACK_DOCKER_REGISTRY"]%string.
Definition hindsight_compose : compose_flags :=
  {| cf_public := true; cf_secure_time := false; cf_no_instance_id := None; cf_pre_launch := docker_login |}.
Definition hindsight_box : box :=
  {| bx_script := "hindsight-node-box.py"; bx_name_key := "BOX_NAME"; bx_name := "hindsight-node";
     bx_compose := "/tmp/hindsight-node.yaml";
     bx_vcpu := "4"; bx_mem := "6144"; bx_disk := "40"; bx_gateway := "true"; bx_env_keys := hindsight_env_keys;
     bx_defaults := id; bx_flags := hindsight_compose |}%string.

Definition r2_host_env_keys : list string :=
  ["CHAIN_ID"; "RPC_URL"; "BUNDLER_URL"; "GAS_POLICY_ID"; "INDEXER_REGISTRY_ADDR"; "GATEWAY_DOMAIN"; "R2_ENDPOINT";
   "R2_BUCKET"; "R2_REGION"; "R2_ACCESS_KEY_ID"; "R2_SECRET_ACCESS_KEY"; "BACKEND_PROVIDER"; "BACKEND_ENDPOINT";
   "BACKEND_BUCKET"; "BACKEND_REGION"; "BACKEND_ACCESS_KEY_ID"; "BACKEND_SECRET_ACCESS_KEY";
   "BACKEND_FORCE_PATH_STYLE"; "S3GW_ACCESS_KEY_ID"; "S3GW_SECRET_ACCESS_KEY"; "DSTACK_DOCKER_USERNAME";
   "DSTACK_DOCKER_PASSWORD"; "DSTACK_DOCKER_REGISTRY"]%string.
Definition r2_host_compose : compose_flags :=
  {| cf_public := true; cf_secure_time := false; cf_no_instance_id := Some "true"%string; cf_pre_launch := docker_login |}.
Definition r2_host_box : box :=
  {| bx_script := "r2-host-node-box.py"; bx_name_key := "BOX_NAME"; bx_name := "r2-host-node";
     bx_compose := "/tmp/r2-host-node.yaml";
     bx_vcpu := "4"; bx_mem := "8192"; bx_disk := "100"; bx_gateway := "false"; bx_env_keys := r2_host_env_keys;
     bx_defaults := r2_host_defaults; bx_flags := r2_host_compose |}%string.

Definition synclave_env_keys : list string :=
  ["CHAIN_ID"; "RPC_URL"; "BUNDLER_URL"; "GAS_POLICY_ID"; "INDEXER_REGISTRY_ADDR"; "GATEWAY_DOMAIN";
   "POSTGRES_PASSWORD"; "TEE_DAEMON_TOKEN"; "SESSION_SECRET"; "DATABASE_URL"; "PRIVY_APP_ID"; "PRIVY_APP_SECRET";
   "GITHUB_CLIENT_ID"; "GITHUB_CLIENT_SECRET"; "GITHUB_OAUTH_CALLBACK_URL"; "DAEMON_URL"; "PUBLIC_BASE_URL";
   "APP_DOMAIN"; "INDEXER_URL"; "CLUSTER_NETWORKS"; "CLUSTER_ORCHESTRATOR_URL"; "CLUSTER_ORCHESTRATOR_TOKEN";
   "CORS_ORIGIN"; "CONSOLE_HOST"; "PLATFORM_ADMIN_EMAILS"; "TELEGRAM_BOT_TOKEN"; "TELEGRAM_WAITLIST_CHAT_ID";
   "TELEGRAM_FEEDBACK_CHAT_ID"; "STRIPE_SECRET_KEY"; "STRIPE_WEBHOOK_SECRET"; "STRIPE_ALLOW_TEST_MODE";
   "BILLING_LIVE_ENABLED"; "STRIPE_AUTOMATIC_TAX_ENABLED"; "STRIPE_MANAGED_PAYMENTS_ENABLED";
   "BILLING_METERING_ENABLED"; "BILLING_WORKER_INTERVAL_SEC"; "BILLING_CATALOG_RECONCILE_INTERVAL_SEC";
   "CLOUDFLARE_API_TOKEN"; "SYNCLAVE_CLOUDFLARE_API_TOKEN"; "CLOUDFLARE_ZONE_ID"; "CLOUDFLARE_ORIGIN_IP";
   "CLOUDFLARE_APP_CNAME_TARGET"; "CLOUDFLARE_SANDBOX_CNAME_TARGET"; "CLOUDFLARE_SAAS_API_TOKEN";
   "CLOUDFLARE_SAAS_ZONE_ID"; "CUSTOM_DOMAIN_CNAME_ZONE"; "CLOUDFLARE_KV_API_TOKEN"; "CLOUDFLARE_ACCOUNT_ID";
   "CLOUDFLARE_CUSTOM_DOMAIN_KV_NAMESPACE_ID"; "CUSTOM_DOMAIN_KV_PROPAGATION_SEC"; "ADMIN_API_KEY";
   "LABELS_WRITE_TOKENS"; "TLS_FULLCHAIN_B64"; "TLS_KEY_B64"; "SANDBOX_DAEMON_URL"; "SANDBOX_DAEMON_TOKEN";
   "SANDBOX_DEFAULT_IMAGE"; "SANDBOX_DEFAULT_PLAN"; "SANDBOX_APPS_DOMAIN"; "DSTACK_DOCKER_USERNAME";
   "DSTACK_DOCKER_PASSWORD"; "DSTACK_DOCKER_REGISTRY"]%string.
Definition synclave_compose (pre_launch : string) : compose_flags :=
  {| cf_public := false; cf_secure_time := true; cf_no_instance_id := None; cf_pre_launch := pre_launch |}.
Definition synclave_box (pre_launch : string) : box :=
  {| bx_script := "synclave-node-box.py"; bx_name_key := "BOX_NAME"; bx_name := "synclave-node";
     bx_compose := "/tmp/synclave-node.yaml";
     bx_vcpu := "4"; bx_mem := "8192"; bx_disk := "60"; bx_gateway := "true"; bx_env_keys := synclave_env_keys;
     bx_defaults := id; bx_flags := synclave_compose pre_launch |}%string.

Definition webhost_env_keys : list string :=
  ["CHAIN_ID"; "RPC_URL"; "BUNDLER_URL"; "GAS_POLICY_ID"; "INDEXER_REGISTRY_ADDR"; "GATEWAY_DOMAIN";
   "TEE_DAEMON_TOKEN"; "WEBHOST_MCP_TOKEN"; "GITHUB_ID"; "GITHUB_SECRET"; "NEXTAUTH_SECRET"; "NEXTAUTH_URL";
   "APP_DOMAIN"; "DIRECTORY_HOST"; "WEBHOST_ADMIN_HOST"; "ACME_EMAIL"; "CONSOLE_HOST"; "REDPILL_API_KEY";
   "REDPILL_BASE_URL"; "REDPILL_MODEL"; "VENICE_API_KEY"; "VENICE_BASE_URL"; "VENICE_MODEL"; "RUNYARD_HUB_URL";
   "RUNYARD_HUB_TOKEN"; "RUNYARD_PRIVACY_PREFLIGHT_CAPABILITY"; "RUNYARD_PRIVACY_AUDIT_CAPABILITY";
   "RUNYARD_EXECUTION_MODE"; "RUNYARD_RUNNER_LOCATION"; "RUNYARD_PRIVACY_AUDIT_LLM"; "RUNYARD_CALLBACK_SECRET";
   "RUNYARD_CALLBACK_URL"; "CLOUDFLARE_API_TOKEN"; "CLOUDFLARE_SYNCLAVE_API_TOKEN"; "CLOUDFLARE_TUNNEL_TOKEN";
   "BACKUP_STORAGE"; "BACKUP_S3_ENDPOINT"; "BACKUP_S3_BUCKET"; "BACKUP_S3_REGION"; "BACKUP_S3_ACCESS_KEY_ID";
   "BACKUP_S3_SECRET_ACCESS_KEY"; "BACKUP_PREFIX"; "BACKUP_APP_ID"; "BACKUP_INTERVAL_SECONDS";
   "DSTACK_DOCKER_USERNAME"; "DSTACK_DOCKER_PASSWORD"; "DSTACK_DOCKER_REGISTRY"]%string.
Definition webhost_compose (pre_launch : string) : compose_flags :=
  {| cf_public := true; cf_secure_time := false; cf_no_instance_id := None; cf_pre_launch := pre_launch |}.
Definition webhost_box (pre_launch : string) : box :=
  {| bx_script := "webhost-node-box.py"; bx_name_key := "BOX_NAME"; bx_name := "webhost-node";
     bx_compose := "/tmp/webhost-node.yaml";
     bx_vcpu := "4"; bx_mem := "8192"; bx_disk := "60"; bx_gateway := "true"; bx_env_keys := webhost_env_keys;
     bx_defaults := id; bx_flags := webhost_compose pre_launch |}%string.

Definition fugu_router_env_keys : list string :=
  ["CHAIN_ID"; "RPC_URL"; "BUNDLER_URL"; "GAS_POLICY_ID"; "INDEXER_REGISTRY_ADDR"; "GATEWAY_DOMAIN"; "CLUSTER";
   "REDIS_HA_IP_1"; "REDIS_HA_IP_2"; "REDIS_HA_IP_3"; "LANGFUSE_NODE_IP"; "SAKANA_API_BASE"; "SAKANA_SUB_1_KEY";
   "SAKANA_SUB_2_KEY"; "SAKANA_SUB_3_KEY"; "SAKANA_CIDRS"; "REDPILL_API_BASE"; "REDPILL_API_KEY"; "REDPILL_CIDRS";
   "XAI_API_BASE"; "XAI_API_KEY"; "XAI_CIDRS"; "FUGU_SUB_1_ENABLED"; "FUGU_SUB_2_ENABLED"; "FUGU_SUB_3_ENABLED";
   "FUGU_SUB_1_LABEL"; "FUGU_SUB_2_LABEL"; "FUGU_SUB_3_LABEL"; "FUGU_SUB_1_BILLING_PLAN"; "FUGU_SUB_2_BILLING_PLAN";
   "FUGU_SUB_3_BILLING_PLAN"; "FUGU_SUB_1_5H_RESET_ANCHOR"; "FUGU_SUB_2_5H_RESET_ANCHOR";
   "FUGU_SUB_3_5H_RESET_ANCHOR"; "FUGU_SUB_1_WEEKLY_RESET_ANCHOR"; "FUGU_SUB_2_WEEKLY_RESET_ANCHOR";
   "FUGU_SUB_3_WEEKLY_RESET_ANCHOR"; "FUGU_SUB_1_MONTHLY_RESET_ANCHOR"; "FUGU_SUB_2_MONTHLY_RESET_ANCHOR";
   "FUGU_SUB_3_MONTHLY_RESET_ANCHOR"; "FUGU_SUB_1_5H_ALLOWANCE_USAGE_UNITS"; "FUGU_SUB_2_5H_ALLOWANCE_USAGE_UNITS";
   "FUGU_SUB_3_5H_ALLOWANCE_USAGE_UNITS"; "FUGU_SUB_1_WEEKLY_ALLOWANCE_USAGE_UNITS";
   "FUGU_SUB_2_WEEKLY_ALLOWANCE_USAGE_UNITS"; "FUGU_SUB_3_WEEKLY_ALLOWANCE_USAGE_UNITS";
   "FUGU_SUB_1_MONTHLY_ALLOWANCE_USAGE_UNITS"; "FUGU_SUB_2_MONTHLY_ALLOWANCE_USAGE_UNITS";
   "FUGU_SUB_3_MONTHLY_ALLOWANCE_USAGE_UNITS"; "LITELLM_MASTER_KEY"; "LITELLM_SALT_KEY"; "LITELLM_DB_PASSWORD";
   "LANGFUSE_INIT_PROJECT_PUBLIC_KEY"; "LANGFUSE_INIT_PROJECT_SECRET_KEY"; "DSTACK_DOCKER_USERNAME";
   "DSTACK_DOCKER_PASSWORD"; "DSTACK_DOCKER_REGISTRY"]%string.
Definition fugu_router_compose : compose_flags :=
  {| cf_public := true; cf_secure_time := false; cf_no_instance_id := Some "false"%string; cf_pre_launch := docker_login |}.
Definition fugu_router_box : box :=
  {| bx_script := "fugu-router-node-box.py"; bx_name_key := "BOX_NAME"; bx_name := "fugu-router-node";
     bx_compose := "/tmp/fugu-router-node.yaml";
     bx_vcpu := "2"; bx_mem := "4096"; bx_disk := "30"; bx_gateway := "false"; bx_env_keys := fugu_router_env_keys;
     bx_defaults := id; bx_flags := fugu_router_compose |}%string.

Definition fugu_lb_env_keys : list string :=
  ["CHAIN_ID"; "RPC_URL"; "BUNDLER_URL"; "GAS_POLICY_ID"; "INDEXER_REGISTRY_ADDR"; "GATEWAY_DOMAIN";
   "FUGU_LB_ADMIN_KEY"; "FUGU_LB_UPSTREAM_KEY"; "FUGU_LB_INITIAL_BACKEND"; "DSTACK_DOCKER_USERNAME";
   "DSTACK_DOCKER_PASSWORD"; "DSTACK_DOCKER_REGISTRY"]%string.
Definition fugu_lb_compose : compose_flags :=
  {| cf_public := true; cf_secure_time := false; cf_no_instance_id := Some "false"%string; cf_pre_launch := docker_login |}.
Definition fugu_lb_box : box :=
  {| bx_script := "fugu-router-lb-node-box.py"; bx_name_key := "BOX_NAME"; bx_name := "fugu-router-lb-node";
     bx_compose := "/tmp/fugu-router-lb-node.yaml";
     bx_vcpu := "1"; bx_mem := "1024"; bx_disk := "10"; bx_gateway := "false"; bx_env_keys := fugu_lb_env_keys;
     bx_defaults := id; bx_flags := fugu_lb_compose |}%string.

Definition pg_ha_env_keys : list string :=
  ["CHAIN_ID"; "RPC_URL"; "BUNDLER_URL"; "GAS_POLICY_ID"; "INDEXER_REGISTRY_ADDR"; "CLUSTER"; "GATEWAY_DOMAIN";
   "GATEWAY_DOMAIN_OVERRIDES"; "PGHA_NODE_NAME"; "PGHA_PEERS"; "PGHA_BOOTSTRAP"; "PGHA_MESH_CIDR";
   "PGHA_ETCD_FORCE_REJOIN"; "PGHA_ETCD_FORCE_NEW_CLUSTER"; "PGHA_VERIFY_PASSWORD"; "PGHA_CLUSTER_NAME";
   "PGHA_SAFE_ADDRESS"; "PGHA_RECOVERY_CANDIDATE"; "PGHA_REINIT_NODE"; "PGHA_CRASH_RECOVERY_ONLY"; "BACKUP_ENABLED";
   "BACKUP_PREFIX"; "BACKUP_RESTORE"; "BACKUP_DUMP_INTERVAL_SECONDS"; "R2_ACCESS_KEY_ID"; "R2_SECRET_ACCESS_KEY";
   "R2_ENDPOINT"; "R2_BUCKET"; "R2_REGION"; "R2_UPSTREAM_ENDPOINT"; "R2_UPSTREAM_BUCKET"; "R2_UPSTREAM_REGION";
   "R2_UPSTREAM_ACCESS_KEY_ID"; "R2_UPSTREAM_SECRET_ACCESS_KEY"; "LLM_BASE_URL"; "LLM_MODEL"; "LLM_API_KEY";
   "DSTACK_DOCKER_USERNAME"; "DSTACK_DOCKER_PASSWORD"; "DSTACK_DOCKER_REGISTRY"]%string.
Definition pg_ha_compose : compose_flags :=
  {| cf_public := true; cf_secure_time := false; cf_no_instance_id := None; cf_pre_launch := docker_login |}.
Definition pg_ha_box : box :=
  {| bx_script := "pg-ha-node-box.py"; bx_name_key := "BOX_APP_NAME"; bx_name := "pg-ha-node";
     bx_compose := "/tmp/pg-ha-node.yaml";
     bx_vcpu := "2"; bx_mem := "4096"; bx_disk := "80"; bx_gateway := "true"; bx_env_keys := pg_ha_env_keys;
     bx_defaults := id; bx_flags := pg_ha_compose |}%string.

Definition db_ha_env_keys : list string :=
  ["CHAIN_ID"; "RPC_URL"; "BUNDLER_URL"; "GAS_POLICY_ID"; "INDEXER_REGISTRY_ADDR"; "GATEWAY_DOMAIN";
   "PGHA_NODE_NAME"; "PGHA_PEERS"; "PGHA_BOOTSTRAP"; "PGHA_MESH_CIDR"; "PGHA_VERIFY_PASSWORD"; "BACKUP_ENABLED";
   "BACKUP_PREFIX"; "BACKUP_RESTORE"; "R2_ACCESS_KEY_ID"; "R2_SECRET_ACCESS_KEY"; "R2_ENDPOINT"; "R2_BUCKET";
   "R2_REGION"; "REDISHA_NODE_NAME"; "REDIS_PEERS"; "REDISHA_BOOTSTRAP"; "REDISHA_VERIFY_PASSWORD"; "CHHA_NODE_NAME";
   "CH_PEERS"; "CHHA_BOOTSTRAP"; "CHHA_VERIFY_PASSWORD"; "MATRIX_MESH_IP"; "MATRIX_USER_ID"; "MATRIX_PASSWORD";
   "MATRIX_ROOM_ID"; "MATRIX_ADMIN_MXIDS"; "MATRIX_MENTION_ALIASES"; "LLM_BASE_URL"; "LLM_MODEL"; "LLM_API_KEY";
   "DSTACK_DOCKER_USERNAME"; "DSTACK_DOCKER_PASSWORD"; "DSTACK_DOCKER_REGISTRY"]%string.
Definition db_ha_compose : compose_flags :=
  {| cf_public := true; cf_secure_time := false; cf_no_instance_id := None; cf_pre_launch := docker_login |}.
Definition db_ha_box : box :=
  {| bx_script := "db-ha-node-box.py"; bx_name_key := "BOX_APP_NAME"; bx_name := "db-ha-node";
     bx_compose := "/tmp/db-ha-node.yaml";
     bx_vcpu := "16"; bx_mem := "32768"; bx_disk := "160"; bx_gateway := "true"; bx_env_keys := db_ha_env_keys;
     bx_defaults := id; bx_flags := db_ha_compose |}%string.

Definition redis_ha_env_keys : list string :=
  ["CHAIN_ID"; "RPC_URL"; "BUNDLER_URL"; "GAS_POLICY_ID"; "INDEXER_REGISTRY_ADDR"; "GATEWAY_DOMAIN";
   "REDISHA_NODE_NAME"; "REDIS_PEERS"; "REDISHA_BOOTSTRAP"; "REDISHA_MESH_CIDR"; "REDISHA_VERIFY_PASSWORD";
   "DSTACK_DOCKER_USERNAME"; "DSTACK_DOCKER_PASSWORD"; "DSTACK_DOCKER_REGISTRY"]%string.
Definition redis_ha_compose : compose_flags :=
  {| cf_public := true; cf_secure_time := false; cf_no_instance_id := Some "true"%string; cf_pre_launch := docker_login |}.
Definition redis_ha_box : box :=
  {| bx_script := "redis-ha-node-box.py"; bx_name_key := "BOX_APP_NAME"; bx_name := "redis-ha-node";
     bx_compose := "/tmp/redis-ha-node.yaml";
     bx_vcpu := "2"; bx_mem := "2048"; bx_disk := "20"; bx_gateway := "false"; bx_env_keys := redis_ha_env_keys;
     bx_defaults := id; bx_flags := redis_ha_compose |}%string.

Definition clickhouse_ha_env_keys : list string :=
  ["CHAIN_ID"; "RPC_URL"; "BUNDLER_URL"; "GAS_POLICY_ID"; "INDEXER_REGISTRY_ADDR"; "GATEWAY_DOMAIN";
   "CHHA_NODE_NAME"; "CH_PEERS"; "CHHA_BOOTSTRAP"; "CHHA_MESH_CIDR"; "CHHA_VERIFY_PASSWORD";
   "DSTACK_DOCKER_USERNAME"; "DSTACK_DOCKER_PASSWORD"; "DSTACK_DOCKER_REGISTRY"]%string.
Definition clickhouse_ha_compose : compose_flags :=
  {| cf_public := true; cf_secure_time := false; cf_no_instance_id := Some "true"%string; cf_pre_launch := docker_login |}.
Definition clickhouse_ha_box : box :=
  {| bx_script := "clickhouse-ha-node-box.py"; bx_name_key := "BOX_APP_NAME"; bx_name := "clickhouse-ha-node";
     bx_compose := "/tmp/clickhouse-ha-node.yaml";
     bx_vcpu := "2"; bx_mem := "4096"; bx_disk := "60"; bx_gateway := "false"; bx_env_keys := clickhouse_ha_env_keys;
     bx_defaults := id; bx_flags := clickhouse_ha_compose |}%string.

Definition generic_env_keys : list string :=
  ["CHAIN_ID"; "RPC_URL"; "BUNDLER_URL"; "GAS_POLICY_ID"; "INDEXER_REGISTRY_ADDR"; "GATEWAY_DOMAIN"; "CLUSTER";
   "MEMBER_IMPL"; "APP_ENV_B64"; "DSTACK_DOCKER_USERNAME"; "DSTACK_DOCKER_PASSWORD"; "DSTACK_DOCKER_REGISTRY"]%string.
Definition generic_compose : compose_flags :=
  {| cf_public := true; cf_secure_time := false; cf_no_instance_id := None; cf_pre_launch := workload_env |}.
Definition generic_box : box :=
  {| bx_script := "generic-node-box.py"; bx_name_key := "BOX_NAME"; bx_name := "generic-node";
     bx_compose := "/tmp/generic-node.yaml";
     bx_vcpu := "2"; bx_mem := "4096"; bx_disk := "40"; bx_gateway := "true"; bx_env_keys := generic_env_keys;
     bx_defaults := id; bx_flags := generic_compose |}%string.

Definition agent_session_env_keys : list string :=
  ["CHAIN_ID"; "RPC_URL"; "BUNDLER_URL"; "GAS_POLICY_ID"; "INDEXER_REGISTRY_ADDR"; "GATEWAY_DOMAIN"; "CLUSTER";
   "MEMBER_IMPL"; "APP_DB_PASSWORD"; "DATABASE_URL"; "HINDSIGHT_URL"; "HINDSIGHT_MESH_IP"; "HINDSIGHT_TOKEN";
   "HINDSIGHT_BANK"; "HINDSIGHT_SYNC_ENABLED"; "HINDSIGHT_OUTBOX_MAX_IN_FLIGHT"; "HINDSIGHT_OUTBOX_TICK_SECONDS";
   "HINDSIGHT_OUTBOX_RUN_LIMIT"; "RECALL_BACKEND"; "INGEST_TOKEN"; "EMBEDDING_URL"; "EMBEDDING_API_KEY";
   "EMBEDDING_MODEL"; "EMBEDDING_DIM"; "ALLOW_BASE_URL"; "DSTACK_DOCKER_USERNAME"; "DSTACK_DOCKER_PASSWORD";
   "DSTACK_DOCKER_REGISTRY"]%string.
Definition agent_session_compose : compose_flags :=
  {| cf_public := true; cf_secure_time := false; cf_no_instance_id := None; cf_pre_launch := docker_login |}.
Definition agent_session_box : box :=
  {| bx_script := "generic-node-box.py"; bx_name_key := "BOX_NAME"; bx_name := "generic-node";
     bx_compose := "/tmp/generic-node.yaml";
     bx_vcpu := "2"; bx_mem := "4096"; bx_disk := "40"; bx_gateway := "true"; bx_env_keys := agent_session_env_keys;
     bx_defaults := id; bx_flags := agent_session_compose |}%string.

Definition pocket_env_keys : list string :=
  ["CHAIN_ID"; "RPC_URL"; "BUNDLER_URL"; "GAS_POLICY_ID"; "INDEXER_REGISTRY_ADDR"; "GATEWAY_DOMAIN"; "CLUSTER";
   "MEMBER_IMPL"; "APP_DB_PASSWORD"; "DATABASE_URL"; "HINDSIGHT_URL"; "HINDSIGHT_MESH_IP"; "HINDSIGHT_TOKEN";
   "HINDSIGHT_BANK"; "HINDSIGHT_SYNC_ENABLED"; "HINDSIGHT_OUTBOX_MAX_IN_FLIGHT"; "HINDSIGHT_OUTBOX_TICK_SECONDS";
   "HINDSIGHT_OUTBOX_RUN_LIMIT"; "RECALL_BACKEND"; "EMBEDDING_URL"; "EMBEDDING_API_KEY"; "EMBEDDING_MODEL";
   "EMBEDDING_DIM"; "POCKET_API_KEY"; "POCKET_API_BASE"; "POCKET_API_CIDRS"; "MCP_AUTH_TOKEN";
   "DSTACK_DOCKER_USERNAME"; "DSTACK_DOCKER_PASSWORD"; "DSTACK_DOCKER_REGISTRY"]%string.
Definition pocket_compose : compose_flags :=
  {| cf_public := true; cf_secure_time := false; cf_no_instance_id := None; cf_pre_launch := docker_login |}.
Definition pocket_box : box :=
  {| bx_script := "pocket-mcp-node-box.py"; bx_name_key := "BOX_NAME"; bx_name := "pocket-mcp";
     bx_compose := "/tmp/pocket-mcp.yaml";
     bx_vcpu := "2"; bx_mem := "4096"; bx_disk := "40"; bx_gateway := "true"; bx_env_keys := pocket_env_keys;
     bx_defaults := id; bx_flags := pocket_compose |}%string.

Definition matrix_env_keys : list string :=
  ["RPC_URL"; "BUNDLER_URL"; "GAS_POLICY_ID"; "POSTGRES_PASSWORD"; "TS_AUTHKEY"; "DSTACK_DOCKER_USERNAME";
   "DSTACK_DOCKER_PASSWORD"; "BOT_USERNAME"; "BOT_PASSWORD"; "MATRIX_ADMIN_MXIDS"; "MATRIX_ADMIN_SENDERS";
   "INITIAL_ADMIN"; "INITIAL_ADMIN_PASSWORD"; "LLM_BASE_URL"; "LLM_MODEL"; "LLM_API_KEY"; "BACKUP_ENABLED";
   "BACKUP_PREFIX"; "BACKUP_RESTORE"; "BACKUP_RESTORE_TARGET_TIME"; "R2_ENDPOINT"; "R2_BUCKET"; "R2_REGION";
   "R2_ACCESS_KEY_ID"; "R2_SECRET_ACCESS_KEY"]%string.
Definition matrix_compose : compose_flags :=
  {| cf_public := true; cf_secure_time := false; cf_no_instance_id := None; cf_pre_launch := docker_login |}.
Definition matrix_box : box :=
  {| bx_script := "matrix-node-box.py"; bx_name_key := "BOX_NAME"; bx_name := "matrix-node";
     bx_compose := "/tmp/matrix-node.yaml"; bx_vcpu := "4"; bx_mem := "8192"; bx_disk := "60"; bx_gateway := "true";
     bx_env_keys := matrix_env_keys; bx_defaults := id; bx_flags := matrix_compose |}%string.
Definition OFF : list string := ["0"; "false"; "no"; "off"]%string.
Definition MATRIX_PORTS : string := shell "[`tcp:127.0.0.1:8080:80`,`tcp:127.0.0.1:9091:9090`]".

(** ** How they roll a machine *)

Definition single_roll : rolling :=
  {| ro_ignore_stop := true; ro_done := stop_or_exit; ro_gone := true; ro_fresh := true |}.
Definition hindsight_roll : rolling :=
  {| ro_ignore_stop := true; ro_done := stopped_or_exit; ro_gone := true; ro_fresh := true |}.
Definition workload_roll : rolling :=
  {| ro_ignore_stop := true; ro_done := stop_or_exit; ro_gone := true; ro_fresh := false |}.
Definition postgres_roll : rolling :=
  {| ro_ignore_stop := false; ro_done := stop_or_exit; ro_gone := false; ro_fresh := true |}.
Definition redis_ha_roll : rolling := postgres_roll.
Definition pg_ha_roll : rolling :=
  {| ro_ignore_stop := false; ro_done := stopped_or_exit; ro_gone := false; ro_fresh := true |}.

Section scripts.
Context {F : Type} `{PyFloat F}.
Abbreviation prog := (@Effects.prog (box_effect (F := F))).
Abbreviation ask a := (@act (box_effect (F := F)) a).
Variable env : environ.
Variables (RPC GATEWAY_RPC : string) (KMS_URLS : list string).
Abbreviation update := (update (F := F) env GATEWAY_RPC KMS_URLS).
Abbreviation deploy := (deploy (F := F) env GATEWAY_RPC KMS_URLS).
Abbreviation create_vm := (create_vm (F := F) GATEWAY_RPC KMS_URLS).
Abbreviation build_env := (build_env env).

(** ** Nodes with one machine *)

Definition single_main (b : box) (hash_keys : list string) (r : rolling) (argv : list string) (st : settings) : prog unit :=
  let mode := mode_of argv in
  if bool_decide (mode = "deploy"%string) then deploy b st false (gateway_url st)
  else if bool_decide (mode = "hash"%string) then hash b st hash_keys
  else if bool_decide (mode = "update"%string) then
    with_ids b argv "update" (update b r st (dkeys (build_env b)))
  else exit_usage (bx_script b +:+ " [deploy|hash|update <app_id> <vm_id>]").
(** With power controls *)
Definition powered_main (b : box) (url : settings -> string -> json F) (argv : list string) (st : settings) : prog unit :=
  let mode := mode_of argv in
  if bool_decide (mode = "deploy"%string) then deploy b st false (url st)
  else if bool_decide (mode = "hash"%string) then hash b st (bx_env_keys b)
  else if bool_decide (mode = "start"%string) then answer ← start_vm b (arg argv 1); ask (Print (JObj answer))
  else if bool_decide (mode = "stop"%string) then answer ← stop_vm b (arg argv 1); ask (Print (JObj answer))
  else if bool_decide (mode = "update"%string) then
    with_ids b argv "update" (update b single_roll st (dkeys (build_env b)))
  else exit_usage (bx_script b +:+ " [deploy|hash|start <vm_id>|stop <vm_id>|update <app_id> <vm_id>]").
Definition and_registry (keys : list string) : list string := keys ++ [REGISTRY].
Definition ssh_main (argv : list string) : prog unit :=
  script env ssh_box (single_main ssh_box (and_registry ssh_env_keys) single_roll argv).
Definition hermes_main (argv : list string) : prog unit :=
  script env hermes_box (single_main hermes_box hermes_env_keys single_roll argv).
Definition postgres_main (argv : list string) : prog unit :=
  script env postgres_box (single_main postgres_box (and_registry postgres_env_keys) postgres_roll argv).
Definition runyard_main (argv : list string) : prog unit :=
  script env runyard_box (single_main runyard_box (and_registry runyard_env_keys) single_roll argv).
Definition telegram_sync_main (argv : list string) : prog unit :=
  script env telegram_sync_box (single_main telegram_sync_box telegram_sync_env_keys single_roll argv).
Definition langfuse_main (argv : list string) : prog unit :=
  script env langfuse_box (single_main langfuse_box langfuse_env_keys single_roll argv).
Definition hindsight_main (argv : list string) : prog unit :=
  script env hindsight_box (single_main hindsight_box (and_registry hindsight_env_keys) hindsight_roll argv).
Definition r2_host_main (argv : list string) : prog unit :=
  script env r2_host_box (single_main r2_host_box (and_registry r2_host_env_keys) single_roll argv).
Definition synclave_main (pre_launch : string) (argv : list string) : prog unit :=
  script env (synclave_box pre_launch) (single_main (synclave_box pre_launch) (and_registry synclave_env_keys) single_roll argv).
Definition webhost_main (pre_launch : string) (argv : list string) : prog unit :=
  script env (webhost_box pre_launch) (single_main (webhost_box pre_launch) (and_registry webhost_env_keys) single_roll argv).
Definition fugu_router_main (argv : list string) : prog unit :=
  script env fugu_router_box (powered_main fugu_router_box gateway_url argv).
Definition fugu_lb_main (argv : list string) : prog unit :=
  script env fugu_lb_box (powered_main fugu_lb_box (fun _ _ => JNull) argv).

(** ** Workloads *)

Definition workload_main (b : box) (argv : list string) (st : settings) (others : prog unit) : prog unit :=
  let mode := mode_of argv in
  if bool_decide (mode = "deploy"%string) then deploy b st true (gateway_url st)
  else if bool_decide (mode = "hash"%string) then hash b st (and_registry (bx_env_keys b))
  else if bool_decide (mode = "stop"%string) then answer ← stop_vm b (arg argv 1); ask (Print (JObj answer))
  else if bool_decide (mode = "update"%string) then
    with_ids b argv "update" (update b workload_roll st (dkeys (build_env b)))
  else others.
Definition workload_usage (b : box) : prog unit :=
  exit_usage (bx_script b +:+ " [deploy|hash|stop <vm_id>|update <app_id> <vm_id>]").
Definition agent_session_main (argv : list string) : prog unit :=
  script env agent_session_box (fun st => workload_main agent_session_box argv st (workload_usage agent_session_box)).
Definition pocket_main (argv : list string) : prog unit :=
  script env pocket_box (fun st => workload_main pocket_box argv st (workload_usage pocket_box)).

(** ** Nodes of a cluster *)

Definition with_id (b : box) (mode operand : string) (argv : list string) (k : string -> prog unit) : prog unit :=
  let id := arg argv 1 in
  if bool_decide (id = EmptyString) then exit_usage (bx_script b +:+ " " +:+ mode +:+ " " +:+ operand) else k id.
Definition register (b : box) (st : settings) : prog unit :=
  c ← app_compose_and_hash b st (bx_env_keys b);
  app_id ← ask (DeployAppContract c.2);
  ask (Print (JObj [("app_id", JStr app_id); ("compose_hash", JStr c.2)]%string)).
Definition create (b : box) (st : settings) (app_id : string) : prog unit :=
  c ← app_compose_and_hash b st (bx_env_keys b);
  result ← create_vm st app_id c.1 (build_env b) false;
  d ← PRet (obj result);
  ask (Print (JObj [("app_id", JStr app_id); ("compose_hash", JStr c.2); ("vm_id", field "id" d)]%string)).
Definition power (mode vm_id : string) : prog unit :=
  result ← ask (Vmm (if bool_decide (mode = "stop"%string) then "StopVm" else "StartVm") (id_param vm_id));
  ask (Print (JObj [("vm_id", JStr vm_id); ("mode", JStr mode); ("result", result)]%string)).
Definition ha_main (b : box) (r : rolling) (argv : list string) (st : settings) (others : prog unit)
    : prog unit :=
  let mode := mode_of argv in
  if bool_decide (mode = "hash"%string) then hash b st (bx_env_keys b)
  else if bool_decide (mode = "register"%string) then register b st
  else if bool_decide (mode = "create"%string) then with_id b "create" "<app_id>" argv (create b st)
  else if bool_decide (mode = "stop"%string) || bool_decide (mode = "start"%string) then
    with_id b mode "<vm_id>" argv (power mode)
  else if bool_decide (mode = "update"%string) then
    with_ids b argv "update" (update b r st (bx_env_keys b))
  else others.
Definition HA_MODES : string := "[register|create <app_id>|hash|update <app_id> <vm_id>|stop <vm_id>|start <vm_id>]".
Definition ha_usage (b : box) : prog unit := exit_usage (bx_script b +:+ " " +:+ HA_MODES).
Definition db_ha_main (argv : list string) : prog unit :=
  script env db_ha_box (fun st => ha_main db_ha_box pg_ha_roll argv st (ha_usage db_ha_box)).
Definition redis_ha_main (argv : list string) : prog unit :=
  script env redis_ha_box (fun st => ha_main redis_ha_box redis_ha_roll argv st (ha_usage redis_ha_box)).
Definition clickhouse_ha_main (argv : list string) : prog unit :=
  script env clickhouse_ha_box (fun st => ha_main clickhouse_ha_box redis_ha_roll argv st (ha_usage clickhouse_ha_box)).

(** pg-ha also reads a machine, its log, and changes its size. *)
Definition DISK_MARKS : list string :=
  ["/var/volatile/dstack/persistent"; "Trying to resize filesystem"; "zpool online -e"]%string.
Definition disk_lines (serial : string) : list string :=
  map strip (filter (fun line => existsb (fun m => contains m line) DISK_MARKS) (splitlines serial)).
Definition last_six (l : list string) : list string := drop (length l - 6) l.
Definition info (vm_id : string) : prog unit :=
  response ← get_info vm_id;
  info ← PRet (obj (or_empty "info" response));
  config_j ← mret (or_empty "configuration" info);
  serial ← try_ (ask (VmLogs vm_id 1500)) (fun _ => mret EmptyString);
  config ← PRet (obj config_j);
  ask (Print (JObj [("vm_id", JStr vm_id); ("found", JBool (truthy (field "found" response)));
                    ("status", field "status" info); ("boot_progress", field "boot_progress" info);
                    ("boot_error", field "boot_error" info); ("vcpu", field "vcpu" config);
                    ("memory", field "memory" config); ("disk_size", field "disk_size" config);
                    ("image", field "image" config);
                    ("disk_boot_evidence", json_strs (last_six (disk_lines serial)))]%string)).
Definition logs (vm_id : string) : prog unit := text ← ask (VmLogs vm_id 30000); ask (PrintText text).
(** [{key: int(config.get(key) or 0) for key in ("vcpu", "memory", "disk_size")}] *)
Record sizes := { sz_vcpu : Z; sz_memory : Z; sz_disk : Z }.
Definition sizes_of (config : odict (json F)) : result sizes :=
  v ← int_or0 "vcpu" config; m ← int_or0 "memory" config; d ← int_or0 "disk_size" config;
  Ok {| sz_vcpu := v; sz_memory := m; sz_disk := d |}.
Definition sizes_eqb (a b : sizes) : bool :=
  (sz_vcpu a =? sz_vcpu b) && (sz_memory a =? sz_memory b) && (sz_disk a =? sz_disk b).
Definition sizes_row (s : sizes) : odict (json F) :=
  [("vcpu", JInt (sz_vcpu s)); ("memory", JInt (sz_memory s)); ("disk_size", JInt (sz_disk s))]%string.
Definition target_of (st : settings (F := F)) : sizes := {| sz_vcpu := VCPU st; sz_memory := MEM st; sz_disk := DISK st |}.
(** The first size that would shrink, with its two values *)
Definition shrunk (current target : sizes) : option (string * Z * Z) :=
  if sz_vcpu target <? sz_vcpu current then Some ("vcpu"%string, sz_vcpu current, sz_vcpu target)
  else if sz_memory target <? sz_memory current then Some ("memory"%string, sz_memory current, sz_memory target)
  else if sz_disk target <? sz_disk current then Some ("disk_size"%string, sz_disk current, sz_disk target)
  else None.
Definition resize (st : settings) (vm_id : string) : prog unit :=
  response ← get_info vm_id;
  if negb (truthy (field "found" response)) then raise (SystemExit ("VM not found: " +:+ vm_id))
  else
    info ← PRet (obj (or_empty "info" response));
    let status := lower_text "status" info in
    if negb (bool_decide (status ∈ ["stopped"; "exited"]%string)) then
      raise (SystemExit ("VM must be stopped before resize: " +:+ vm_id +:+ " is " +:+ or_help "unknown" status))
    else
      config ← PRet (obj (or_empty "configuration" info));
      current ← PRet (sizes_of config);
      let target := target_of st in
      match shrunk current target with
      | Some (key, had, wants) =>
          raise (SystemExit ("refusing to shrink " +:+ key +:+ ": current=" +:+ str_of_Z had +:+ " target=" +:+ str_of_Z wants))
      | None =>
        result ← ask (Vmm "ResizeVm" (id_param vm_id ++ sizes_row target));
        again ← get_info vm_id;
        info ← PRet (obj (or_empty "info" again));
        after ← PRet (obj (or_empty "configuration" info));
        readback ← PRet (sizes_of after);
        if negb (sizes_eqb readback target) then raise (SystemExit ("resize readback mismatch: target=" +:+ py_repr (JObj (sizes_row target)) +:+
                                " readback=" +:+ py_repr (JObj (sizes_row readback))))
        else ask (Print (JObj [("vm_id", JStr vm_id); ("before", JObj (sizes_row current));
                               ("target", JObj (sizes_row target)); ("result", result)]%string))
      end.
Definition pg_ha_usage : prog unit :=
  exit_usage "pg-ha-node-box.py [register|create <app_id>|hash|update <app_id> <vm_id>|resize <vm_id>|info <vm_id>|logs <vm_id>|stop <vm_id>|start <vm_id>]".
Definition pg_ha_main (argv : list string) : prog unit :=
  ask (SetRpc (getenv env "BOX_RPC" RPC));;
  script env pg_ha_box (fun st =>
    ha_main pg_ha_box pg_ha_roll argv st
      (let mode := mode_of argv in
       if bool_decide (mode = "info"%string) then with_id pg_ha_box "info" "<vm_id>" argv info
       else if bool_decide (mode = "logs"%string) then with_id pg_ha_box "logs" "<vm_id>" argv logs
       else if bool_decide (mode = "resize"%string) then with_id pg_ha_box "resize" "<vm_id>" argv (resize st)
       else pg_ha_usage)).

(** ** The homeserver

    matrix-node-box.py calls the monitor over HTTP, whose errors are answers with a status. *)

(** Its own defaults of the ports and of the networking, and a gateway that is on unless
    it is switched off *)
Definition matrix_settings : result settings :=
  let name := getenv env "BOX_NAME" (bx_name matrix_box) in
  vcpu ← int_of (getenv env "BOX_VCPU" (bx_vcpu matrix_box));
  mem ← int_of (getenv env "BOX_MEM" (bx_mem matrix_box));
  disk ← int_of (getenv env "BOX_DISK" (bx_disk matrix_box));
  ports ← json_loads (getenv env "BOX_PORTS" MATRIX_PORTS);
  Ok {| NAME := name; VM_NAME := name;
        COMPOSE_PATH := getenv env "BOX_COMPOSE" (bx_compose matrix_box);
        VCPU := vcpu; MEM := mem; DISK := disk; PORTS := ports;
        NET_MODE := or_help "user" (lower (strip (getenv env "BOX_NET_MODE" "user")));
        GATEWAY_ENABLED := negb (bool_decide (lower (strip (getenv env "BOX_GATEWAY_ENABLED" (bx_gateway matrix_box))) ∈ OFF));
        NO_INSTANCE_ID := false |}.
(** An empty registry stays empty here. *)
Definition matrix_env : odict string :=
  dset REGISTRY (getenv env "E_DSTACK_DOCKER_REGISTRY" "ghcr.io") (given_env env matrix_env_keys).
Definition deploy_matrix (st : settings) : prog unit :=
  text ← ask (ReadText (COMPOSE_PATH st));
  r ← ask (DeployApp (NAME st) text matrix_env (GATEWAY_ENABLED st) (PORTS st) (VCPU st) (MEM st) (DISK st));
  d ← PRet (obj r);
  app_id ← PRet (item "app_id" d);
  compose_hash ← PRet (item "compose_hash" d);
  vm_id ← PRet (item "vm_id" d);
  ask (Print (JObj [("app_id", app_id); ("compose_hash", compose_hash); ("vm_id", vm_id);
                    ("gateway_url", field "gateway_url" d)]%string)).
(** [(x or "").lower()] *)
Definition lower_of (j : json F) : result string :=
  match j with
  | JStr s => Ok (lower s)
  | j => if truthy j then Raise (OtherError "AttributeError" "object has no attribute 'lower'") else Ok EmptyString
  end.
Definition matrix_poll (vm_id : string) : prog bool :=
  try_ (r ← ask (Post "GetInfo" (id_param vm_id));
        j ← PRet (json_loads r.2);
        response ← PRet (obj j);
        info ← PRet (obj (or_empty "info" response));
        status ← PRet (lower_of (field "status" info));
        mret (negb (truthy (field "found" response)) || stop_or_exit status))
       (fun _ => mret false).
Definition head_text (text : string) : json F := JStr (stake 200 text).
Definition update_matrix (st : settings) (app_id vm_id : string) : prog unit :=
  let e := matrix_env in
  c ← app_compose_and_hash matrix_box st (dkeys e);
  let '(compose_file, compose_hash) := c in
  encrypted ← seal app_id (dset "APP_ID"%string app_id e);
  ports ← ports_of st;
  let fresh := is_on (getenv env "BOX_FRESH_DISK" "") in
  if non_empty vm_id && negb fresh then
    ask (Post "StopVm" (id_param vm_id));;
    stopped ← wait_stopped (matrix_poll vm_id) POLLS;
    r ← ask (Post "UpgradeApp"
               [("id", JStr vm_id); ("compose_file", JStr compose_file); ("encrypted_env", JStr encrypted);
                ("update_ports", JBool true); ("ports", JArr ports); ("update_kms_urls", JBool true);
                ("kms_urls", json_strs (kms_urls KMS_URLS st)); ("update_gateway_urls", JBool true);
                ("gateway_urls", json_strs (gateway_urls GATEWAY_RPC st))]%string);
    s ← ask (Post "StartVm" (id_param vm_id));
    ask (Print (JObj [("compose_hash", JStr compose_hash); ("vm_id", JStr vm_id); ("mode", JStr "upgrade");
                      ("stopped", JBool stopped); ("upgrade_status", JInt r.1); ("start_status", JInt s.1);
                      ("upgrade", head_text r.2)]%string))
  else
    (if non_empty vm_id then suppress (ask (Post "StopVm" (id_param vm_id));; mret tt) else mret tt);;
    r ← ask (Post "CreateVm"
               [("name", JStr (NAME st)); ("image", JStr "dstack-0.5.11"); ("compose_file", JStr compose_file);
                ("vcpu", JInt (VCPU st)); ("memory", JInt (MEM st)); ("disk_size", JInt (DISK st)); ("app_id", JStr app_id);
                ("user_config", JStr ""); ("ports", JArr ports); ("hugepages", JBool false); ("pin_numa", JBool false);
                ("stopped", JBool false); ("no_tee", JBool false); ("kms_urls", json_strs (kms_urls KMS_URLS st));
                ("networking", JObj [("mode", JStr (NET_MODE st))]); ("gateway_urls", json_strs (gateway_urls GATEWAY_RPC st));
                ("encrypted_env", JStr encrypted)]%string);
    vm ← try_ (d ← PRet (j ← json_loads r.2; obj j); mret (default (JStr EmptyString) (dget "id" d)))
              (fun _ => mret (JStr EmptyString));
    ask (Print (JObj [("compose_hash", JStr compose_hash); ("vm_id", vm); ("mode", JStr "createvm");
                      ("createvm_status", JInt r.1); ("createvm", head_text r.2)]%string)).
Definition matrix_main (argv : list string) : prog unit :=
  st ← PRet matrix_settings;
  let mode := mode_of argv in
  if bool_decide (mode = "deploy"%string) then deploy_matrix st
  else if bool_decide (mode = "hash"%string) then hash matrix_box st (and_registry matrix_env_keys)
  else if bool_decide (mode = "update"%string) then
    match argv !! 1%nat with
    | Some app_id => update_matrix st app_id (arg argv 2)
    | None => raise (OtherError "IndexError" "list index out of range")
    end
  else exit_usage "matrix-node-box.py [deploy|hash|update <app_id> [vm_id]]".
End scripts.
