(* ===== verification/NodeRecreate.v ===== *)
(** * Node boxes: replacing the machine of a workload

    deploy/generic-node-box.py: [recreate_vm] stops and removes a machine and creates
    another for the same application on a fresh disk.  A journal, written to a file of its
    own and put in place at once, says how far it came; a run that is interrupted is to be
    started again. *)

From stdpp Require Import base option list strings.
From Stdlib Require Import ZArith Lia Ascii.
From S2P Require Import Prelude PyStr PyFloat Json JsonParse Sha256 Effects BudgetConfig AdminCore NodeBox.
From S2P Require Import NodeScripts.

Local Open Scope Z_scope.

(** [OSError], the classes derived from it, and the error of the JSON reader *)
Definition UNREADABLE : list string :=
  ["OSError"; "FileNotFoundError"; "PermissionError"; "IsADirectoryError"; "NotADirectoryError"; "InterruptedError";
   "BlockingIOError"; "TimeoutError"; "JSONDecodeError"]%string.
(** [re.sub(r"[^A-Za-z0-9_.-]", "_", s)] of an ASCII text *)
Definition safe_char (c : ascii) : bool :=
  is_upper c || is_lower c || is_digit c || eqc c "_" || eqc c "." || eqc c "-".
Definition safe_name (s : string) : string := smap (fun c => if safe_char c then c else "_"%char) s.

Section recreate.
Context {F : Type} `{PyFloat F}.
Abbreviation row := (odict (json F)).
Abbreviation prog := (@Effects.prog (box_effect (F := F))).
Abbreviation ask a := (@act (box_effect (F := F)) a).
Variable env : environ.
Variables (GATEWAY_RPC : string) (KMS_URLS : list string).

(** The first text of some keys that is not blank *)
Fixpoint first_text (keys : list string) (d : row) : string :=
  match keys with
  | [] => EmptyString
  | k :: keys => or_help (first_text keys d) (match dget k d with Some (JStr s) => strip s | _ => EmptyString end)
  end.
(** [_replacement_id]: the shapes of the answer to [CreateVm] *)
Fixpoint replacement_id (j : json F) : string :=
  match j with
  | JStr s => strip s
  | JObj d =>
      let below key :=
        (fix find (d : row) : string :=
           match d with
           | [] => EmptyString
           | (k, value) :: d => if bool_decide (k = key) then replacement_id value else find d
           end) d in
      or_help (or_help (or_help (below "info") (below "vm")) (below "result")) (first_text ["id"; "vm_id"; "vmId"] d)
  | _ => EmptyString
  end%string.

Definition JOURNAL_DIR : string := getenv env "BOX_RECREATE_JOURNAL_DIR" "/srv/data/dstack/attestmesh-recreate".
Definition recreate_journal (name app_id old_vm_id ext : string) : string :=
  JOURNAL_DIR +:+ "/" +:+ safe_name (name +:+ "-" +:+ app_id +:+ "-" +:+ old_vm_id) +:+ ext.
(** A journal is written beside its place and moved there. *)
Record journal := { jn_path : string; jn_tmp : string }.
Definition journal_of (name app_id old_vm_id : string) : journal :=
  {| jn_path := recreate_journal name app_id old_vm_id ".json"; jn_tmp := recreate_journal name app_id old_vm_id ".tmp" |}.
Definition write_journal (jn : journal) (data : row) : prog unit :=
  ask (MakeParent (jn_path jn));;
  ask (WriteJson (jn_tmp jn) (jsort (JObj data)));;
  ask (Chmod600 (jn_tmp jn));;
  ask (Replace (jn_tmp jn) (jn_path jn)).
Definition read_journal (jn : journal) : prog row :=
  j ← pbind (text ← ask (ReadText (jn_path jn)); PRet (json_loads text)) (fun r =>
        match r with
        | Raise e => if bool_decide (exn_name e ∈ UNREADABLE) then mret (JObj []) else PRet (Raise e)
        | Ok j => mret j
        end);
  PRet (obj j).

Definition vm_found (vm_id : string) : prog bool :=
  if bool_decide (vm_id = EmptyString) then mret false
  else response ← get_info vm_id; mret (found_or_true response).
(** The wait before the removal *)
Fixpoint wait_down (vm_id : string) (n : nat) : prog unit :=
  match n with
  | O => mret tt
  | S n =>
      response ← get_info vm_id;
      status ← PRet (status_of response);
      if negb (found_or_true response) || stop_or_exit status then mret tt
      else ask (Sleep 2);; wait_down vm_id n
  end.
Definition remove_old (vm_id : string) : prog unit :=
  suppress (ask (Vmm "StopVm" (id_param vm_id));; mret tt);;
  wait_down vm_id POLLS;;
  try_ (ask (Vmm "RemoveVm" (id_param vm_id));; mret tt)
       (fun e => still ← vm_found vm_id; if still : bool then raise e else mret tt).
Definition removed_state (app_id old_vm_id : string) : row :=
  [("app_id", JStr app_id); ("old_vm_id", JStr old_vm_id); ("old_vm_removed", JBool true)]%string.
(** [str(state.get("replacement_vm_id") or "")] *)
Definition recorded_replacement (state : row) : string :=
  let v := field "replacement_vm_id" state in if truthy v then json_str v else EmptyString.
Definition remove_once (jn : journal) (app_id old_vm_id : string) (state : row) : prog row :=
  if truthy (field "old_vm_removed" state) then mret state
  else
    found ← vm_found old_vm_id;
    (if found : bool then remove_old old_vm_id else mret tt);;
    write_journal jn (removed_state app_id old_vm_id);;
    mret (removed_state app_id old_vm_id).
Definition create_replacement (st : settings (F := F)) (jn : journal) (app_id compose_file : string) (sealed : odict string)
    (state : row) : prog string :=
  result ← create_vm GATEWAY_RPC KMS_URLS st app_id compose_file sealed false;
  let replacement := replacement_id result in
  if bool_decide (replacement = EmptyString) then
    raise (RuntimeError ("CreateVm returned no replacement VM id: " +:+ py_repr result))
  else
    write_journal jn (dset "replacement_vm_id" (JStr replacement) state);;
    mret replacement.
Definition recreate_vm (st : settings (F := F)) (app_id old_vm_id compose_file : string) (sealed : odict string) : prog string :=
  let jn := journal_of (NAME st) app_id old_vm_id in
  state ← read_journal jn;
  let replacement := recorded_replacement state in
  kept ← vm_found replacement;
  if kept : bool then mret replacement
  else
    state ← remove_once jn app_id old_vm_id state;
    create_replacement st jn app_id compose_file sealed state.

Definition recreate (b : box) (st : settings (F := F)) (app_id vm_id : string) : prog unit :=
  let e := build_env env b in
  c ← app_compose_and_hash b st (dkeys e);
  replacement ← recreate_vm st app_id vm_id c.1 (dset "APP_ID"%string app_id e);
  ask (Print (JObj [("app_id", JStr app_id); ("compose_hash", JStr c.2); ("vm_id", JStr replacement);
                    ("mode", JStr "recreate")]%string)).
Definition generic_main (argv : list string) : prog unit :=
  let box_rpc := strip (getenv env "E_BOX_RPC" "") in
  (if bool_decide (box_rpc = EmptyString) then mret tt else ask (SetRpc box_rpc));;
  script env generic_box (fun st =>
    workload_main env GATEWAY_RPC KMS_URLS generic_box argv st
      (if bool_decide (mode_of argv = "recreate"%string) then
         with_ids generic_box argv "recreate" (recreate generic_box st)
       else exit_usage (bx_script generic_box +:+ " [deploy|hash|stop <vm_id>|update|recreate <app_id> <vm_id>]"))).
End recreate.
