(* ===== verification/NodeSandboxd.v ===== *)
(** * Node boxes: the sandbox daemon

    deploy/sandboxd-node-box.py: a script that replaces one machine by another of the same
    application and therefore reads back what the monitor did: a machine is upgraded only
    when the monitor says that it is exactly stopped, and a replacement is described and
    counted before either side is started.  The measured shell program is a parameter. *)

From stdpp Require Import base option list strings.
From Stdlib Require Import ZArith Lia Ascii.
From S2P Require Import Prelude PyStr PyFloat Json JsonParse Sha256 Effects BudgetConfig AdminCore NodeBox.
From S2P Require Import NodeScripts.

Local Open Scope Z_scope.

Definition sandboxd_env_keys : list string :=
  ["CHAIN_ID"; "RPC_URL"; "BUNDLER_URL"; "GAS_POLICY_ID"; "INDEXER_REGISTRY_ADDR"; "GATEWAY_DOMAIN"; "CLUSTER";
   "PEER_ENVELOPE_FALLBACK"; "SANDBOX_DAEMON_TOKEN"; "PUBLIC_BASE_URL"; "ONCHAIN_CLUSTER_DIAMOND"; "APP_DOMAIN";
   "CLOUDFLARE_API_TOKEN"; "CLOUDFLARE_SYNCLAVE_API_TOKEN"; "CLOUDFLARE_TUNNEL_TOKEN"; "DSTACK_DOCKER_USERNAME";
   "DSTACK_DOCKER_PASSWORD"; "DSTACK_DOCKER_REGISTRY"]%string.
Definition sandboxd_compose (pre_launch : string) : compose_flags :=
  {| cf_public := true; cf_secure_time := false; cf_no_instance_id := None; cf_pre_launch := pre_launch |}.
Definition sandboxd_box (pre_launch : string) : box :=
  {| bx_script := "sandboxd-node-box.py"; bx_name_key := "BOX_NAME"; bx_name := "sandboxd-node";
     bx_compose := "/tmp/sandboxd-node.yaml"; bx_vcpu := "12"; bx_mem := "24576"; bx_disk := "450"; bx_gateway := "true";
     bx_env_keys := sandboxd_env_keys; bx_defaults := id; bx_flags := sandboxd_compose pre_launch |}%string.
Definition STOPPED : list string := ["stopped"; "exited"]%string.
Definition is_stopped (status : string) : bool := bool_decide (status ∈ STOPPED).
Definition is_started (status : string) : bool := startswith "run" status || startswith "start" status.
Definition hex_char (c : ascii) : bool := is_digit c || (is_lower c && (code c <=? 102)%N).
Definition bare_id (app_id : string) : string := removeprefix "0x" (lower app_id).
Definition sandboxd_url (app_id : string) : string :=
  "https://" +:+ lower (sdrop 2 app_id) +:+ "-8080.gateway.attestmesh.xyz".
Definition refuse {E : Effect} {A} (text : string) : @prog E A := raise (SystemExit text).

Section sandboxd.
Context {F : Type} `{PyFloat F}.
Abbreviation row := (odict (json F)).
Abbreviation prog := (@Effects.prog (box_effect (F := F))).
Abbreviation ask a := (@act (box_effect (F := F)) a).
Variable env : environ.
Variables (GATEWAY_RPC : string) (KMS_URLS : list string).
Variable pre_launch : string.
Abbreviation bx := (sandboxd_box pre_launch).

(** [build_env(app_id)]; [build_env()] is [sandboxd_env ""]. *)
Definition sandboxd_env (app_id : string) : odict string :=
  let e := build_env env bx in
  if negb (bool_decide (app_id = EmptyString)) && negb (non_empty (default EmptyString (dget "PUBLIC_BASE_URL" e)))
  then dset "PUBLIC_BASE_URL"%string (sandboxd_url app_id) e else e.
Definition sealed_env (app_id : string) (e : odict string) : odict string := dset "APP_ID"%string app_id e.
Definition create_sandboxd (st : settings) (app_id compose_file : string) (e : odict string) : prog (json F) :=
  create_vm GATEWAY_RPC KMS_URLS st app_id compose_file (sealed_env app_id e) true.

(** ** Reading back *)

Definition compose_digest (config : row) : json F :=
  match dget "compose_file" config with
  | Some (JStr text) => if non_empty text then JStr (sha256_hex text) else JNull
  | _ => JNull
  end.
Definition describe_vm (vm_id : string) : prog row :=
  response ← get_info vm_id;
  info ← PRet (obj (or_empty "info" response));
  config ← PRet (obj (or_empty "configuration" info));
  mret [("vm_id", JStr vm_id); ("found", JBool (truthy (field "found" response)));
        ("status", field "status" info); ("boot_progress", field "boot_progress" info);
        ("boot_error", field "boot_error" info); ("vcpu", field "vcpu" config); ("memory", field "memory" config);
        ("disk_size", field "disk_size" config); ("app_id", field "app_id" config);
        ("compose_hash", compose_digest config)]%string.
Definition described_found (d : row) : bool := truthy (field "found" d).
(** [str(d.get("status") or "").lower()] *)
Definition described_status (d : row) : string := lower_text "status" d.

Fixpoint inventory_rows (wanted : string) (vms : list (json F)) : result (list (json F)) :=
  match vms with
  | [] => Ok []
  | vm :: vms =>
      d ← obj vm;
      let current := bare_id (let j := field "app_id" d in if truthy j then json_str j else EmptyString) in
      rest ← inventory_rows wanted vms;
      Ok (if bool_decide (current = wanted)
          then JObj [("vm_id", field "id" d); ("name", field "name" d); ("status", field "status" d);
                     ("app_id", JStr ("0x" +:+ current))]%string :: rest
          else rest)
  end.
Definition app_inventory (app_id : string) : prog row :=
  let wanted := bare_id app_id in
  if negb (String.length wanted =? 40)%nat || negb (sall hex_char wanted)
  then refuse ("invalid app id for inventory: " +:+ app_id)
  else
    response ← ask VmmStatus;
    d ← PRet (obj response);
    vms ← PRet (py_list (let j := field "vms" d in if truthy j then j else JArr []));
    rows ← PRet (inventory_rows wanted vms);
    mret [("app_id", JStr ("0x" +:+ wanted)); ("vms", JArr rows)]%string.

(** ** Power *)

Definition READBACKS : nat := 60.
Fixpoint await_stopped (vm_id : string) (result : json F) (n : nat) : prog row :=
  match n with
  | O => refuse ("timed out waiting for VM to stop: " +:+ vm_id)
  | S n =>
      current ← describe_vm vm_id;
      if is_stopped (described_status current)
      then mret [("vm_id", JStr vm_id); ("status", field "status" current); ("result", result)]%string
      else ask (Sleep 2);; await_stopped vm_id result n
  end.
(** An error of a request that another one has already done is reported, not raised. *)
Definition request (method : string) (already : string -> bool) (key error_key vm_id : string) : prog (json F) :=
  try_ (ask (Vmm method (id_param vm_id)))
       (fun e => raced ← describe_vm vm_id;
                 if already (described_status raced)
                 then mret (JObj [(key, JBool true); (error_key, JStr (exn_msg e))])
                 else raise e).
Definition stop_exact (vm_id : string) : prog row :=
  before ← describe_vm vm_id;
  if negb (described_found before) then refuse ("VM not found: " +:+ vm_id)
  else
    result ← (if is_stopped (described_status before) then mret (JObj [("already_stopped"%string, JBool true)])
              else request "StopVm" is_stopped "already_stopped" "stop_error" vm_id);
    await_stopped vm_id result READBACKS.
Definition start_exact (vm_id : string) : prog row :=
  before ← describe_vm vm_id;
  if negb (described_found before) then refuse ("VM not found: " +:+ vm_id)
  else
    result ← (if is_started (described_status before) then mret (JObj [("already_started"%string, JBool true)])
              else request "StartVm" is_started "already_started" "start_error" vm_id);
    mret [("vm_id", JStr vm_id); ("status_before", field "status" before); ("result", result)]%string.

(** ** The modes *)

Definition undersized (st : settings (F := F)) : list string :=
  (if VCPU st <? 12 then ["vcpu=" +:+ str_of_Z (VCPU st) +:+ " < 12"] else []) ++
  (if MEM st <? 24576 then ["memory=" +:+ str_of_Z (MEM st) +:+ " < 24576 MiB"] else []) ++
  (if DISK st <? 450 then ["disk=" +:+ str_of_Z (DISK st) +:+ " < 450 GiB"] else []).
Definition url_or_null (st : settings (F := F)) (app_id : string) : json F :=
  if GATEWAY_ENABLED st then JStr (sandboxd_url app_id) else JNull.
Definition created_row (st : settings (F := F)) (app_id compose_hash : string) (vm_id : json F) : json F :=
  JObj [("app_id", JStr app_id); ("compose_hash", JStr compose_hash); ("vm_id", vm_id);
        ("gateway_url", url_or_null st app_id)]%string.
Definition deploy_sandboxd (st : settings) : prog unit :=
  c ← app_compose_and_hash bx st (and_registry sandboxd_env_keys);
  app_id ← ask (DeployAppContract c.2);
  result ← create_sandboxd st app_id c.1 (sandboxd_env app_id);
  d ← PRet (obj result);
  ask (Print (created_row st app_id c.2 (field "id" d))).
Definition create_replacement_vm (st : settings) (app_id : string) : prog unit :=
  c ← app_compose_and_hash bx st sandboxd_env_keys;
  result ← create_sandboxd st app_id c.1 (sandboxd_env app_id);
  d ← PRet (obj result);
  if negb (truthy (field "id" d)) then refuse "CreateVm returned no replacement VM id"
  else ask (Print (created_row st app_id c.2 (field "id" d))).
Definition upgrade_sandboxd (st : settings) (starts : bool) (app_id vm_id : string) : prog unit :=
  let e := sandboxd_env app_id in
  c ← app_compose_and_hash bx st (dkeys e);
  (if starts then stop_exact vm_id;; mret tt
   else
     before ← describe_vm vm_id;
     if negb (described_found before) || negb (is_stopped (described_status before))
     then refuse "upgrade-stopped requires an exactly stopped replacement VM" else mret tt);;
  params ← upgrade_params GATEWAY_RPC KMS_URLS st app_id vm_id c.1 (sealed_env app_id e);
  upgrade ← ask (Vmm "UpgradeApp" params);
  if starts then
    start ← ask (Vmm "StartVm" (id_param vm_id));
    ask (Print (JObj [("app_id", JStr app_id); ("compose_hash", JStr c.2); ("vm_id", JStr vm_id);
                      ("upgrade", upgrade); ("start", start)]%string))
  else
    after ← describe_vm vm_id;
    if negb (is_stopped (described_status after)) || negb (py_eq (field "compose_hash" after) (JStr c.2))
    then refuse "UpgradeApp did not preserve stopped state and exact compose hash"
    else ask (Print (JObj [("app_id", JStr app_id); ("compose_hash", JStr c.2); ("vm_id", JStr vm_id);
                           ("status", field "status" after); ("upgrade", upgrade)]%string)).
Definition print_row (p : prog row) : prog unit := d ← p; ask (Print (JObj d)).
Definition SANDBOXD_MODES : string :=
  "[deploy|create-replacement <app_id>|hash|inventory-app <app_id>|describe <vm_id>|stop <vm_id>|" +:+
  "start <vm_id>|update <app_id> <vm_id>|upgrade-stopped <app_id> <vm_id>]".
Definition sandboxd_modes (argv : list string) (st : settings) : prog unit :=
  let mode := mode_of argv in
  match undersized st with
  | [] =>
      if bool_decide (mode = "deploy"%string) then deploy_sandboxd st
      else if bool_decide (mode = "create-replacement"%string) then with_id bx mode "<app_id>" argv (create_replacement_vm st)
      else if bool_decide (mode = "hash"%string) then hash bx st (and_registry sandboxd_env_keys)
      else if bool_decide (mode = "inventory-app"%string) then
        with_id bx mode "<app_id>" argv (fun app_id => print_row (app_inventory app_id))
      else if bool_decide (mode = "start"%string) then with_id bx mode "<vm_id>" argv (fun id => print_row (start_exact id))
      else if bool_decide (mode = "stop"%string) then with_id bx mode "<vm_id>" argv (fun id => print_row (stop_exact id))
      else if bool_decide (mode = "describe"%string) then with_id bx mode "<vm_id>" argv (fun id => print_row (describe_vm id))
      else if bool_decide (mode = "update"%string) then with_ids bx argv mode (upgrade_sandboxd st true)
      else if bool_decide (mode = "upgrade-stopped"%string) then with_ids bx argv mode (upgrade_sandboxd st false)
      else exit_usage (bx_script bx +:+ " " +:+ SANDBOXD_MODES)
  | reasons => refuse ("refusing undersized sandboxd VM: " +:+ join ", " reasons)
  end.
Definition sandboxd_main (argv : list string) : prog unit := script env bx (sandboxd_modes argv).
End sandboxd.
