(* ===== verification/NodeFacts.v ===== *)
(** * Node boxes: what is measured and what is sealed

    Over all runs of all scripts: the machine that is created or upgraded, the digest that
    is registered and the digest that the [hash] mode prints are of one text, and no variable
    is sealed that this text does not name. *)

From stdpp Require Import base option list sets strings.
From Stdlib Require Import ZArith Lia Ascii.
From S2P Require Import Prelude PyStr StrFacts PyFloat Json JsonParse Sha256 Effects BudgetConfig AdminCore.
From S2P Require Import NodeBox NodeScripts NodeRecreate NodeSandboxd.

Local Open Scope Z_scope.

Section facts.
Context {F : Type} `{PyFloat F}.
Abbreviation prog := (@Effects.prog (box_effect (F := F))).
Abbreviation baction := (baction (F := F)).
Abbreviation hist := (@Effects.hist (box_effect (F := F))).
Variable env : environ.
Variables (RPC GATEWAY_RPC : string) (KMS_URLS : list string).

(** ** The names *)

Lemma elem_given_env k keys : k ∈ dkeys (given_env env keys) <-> k ∈ keys.
Proof.
  unfold given_env. assert (forall e : odict string, k ∈ dkeys (foldl (fun e key => dset key (getenv env ("E_" +:+ key) "") e) e keys)
    <-> k ∈ keys \/ k ∈ dkeys e) as Hf.
  { induction keys as [|x keys IH]; intros e; simpl; [by rewrite elem_of_nil; naive_solver|].
    rewrite IH, dkeys_dset, elem_of_cons. naive_solver. }
  rewrite Hf. unfold dkeys. simpl. rewrite elem_of_nil. naive_solver.
Qed.
Lemma elem_or_default k x t (e : odict string) : k ∈ dkeys (or_default x t e) <-> k = x \/ k ∈ dkeys e.
Proof. apply dkeys_dset. Qed.
Lemma elem_allowed k keys : k ∈ allowed_envs keys <-> k ∈ keys \/ k = "APP_ID"%string.
Proof. unfold allowed_envs. by rewrite elem_of_sorted_set, elem_of_app, list_elem_of_singleton. Qed.
Lemma allowed_same keys keys' : (forall k, k ∈ keys <-> k ∈ keys') -> allowed_envs keys = allowed_envs keys'.
Proof. intros Hk. apply sorted_set_ext. intros k. rewrite !elem_of_app. by rewrite Hk. Qed.
Lemma elem_and_registry k keys : k ∈ and_registry keys <-> k ∈ keys \/ k = REGISTRY.
Proof. unfold and_registry. by rewrite elem_of_app, list_elem_of_singleton. Qed.

(** The variables of a script: those it lists and the registry. *)
Definition names (b : box) : list string := and_registry (bx_env_keys b).
(** Every box but one leaves the environment as it was given. *)
Definition ordinary (b : box) : Prop := bx_defaults b = id \/ b = r2_host_box.
Lemma build_env_names b k : ordinary b -> k ∈ dkeys (build_env env b) <-> k ∈ names b.
Proof.
  unfold build_env, names. intros [->| ->].
  - change (id ?e) with e. rewrite elem_or_default, elem_given_env, elem_and_registry. tauto.
  - assert (forall x, x ∈ ["R2_REGION"; "BACKEND_PROVIDER"; "BACKEND_REGION"; "BACKEND_FORCE_PATH_STYLE"]%string ->
      x ∈ r2_host_env_keys) as Hx by (apply Forall_forall; vm_compute; repeat constructor; by vm_compute).
    unfold r2_host_box, r2_host_defaults. cbn [bx_defaults bx_env_keys]. cbv zeta.
    rewrite !elem_or_default, elem_given_env, elem_and_registry. split; [|tauto].
    intros [->|[->|[->|[->|[->|Hk]]]]]; [left; apply Hx; set_solver..|by right|by left].
Qed.

(** ** One text *)

Definition measured (b : box) (st : settings) (text : string) : string :=
  dumps_indent 4 0 (app_compose (F := F) (bx_flags b) st text (names b)).
Definition installs (method : string) : bool := String.eqb method "CreateVm" || String.eqb method "UpgradeApp".
Definition sends (cf : string) (p : odict (json F)) : Prop := field "compose_file" p = JStr cf.
(** What an action must be when the file holds [text] *)
Definition fits (b : box) (st : settings (F := F)) (argv : list string) (text : string) (a : @action (box_effect (F := F))) : Prop :=
  match a with
  | Vmm m p | Post m p => if installs m then sends (measured b st text) p else True
  | DeployAppContract d => d = sha256_hex (measured b st text)
  | PrintText d => mode_of argv = "hash"%string -> d = sha256_hex (measured b st text)
  | SealEnv e _ => dkeys e ⊆ allowed_envs (names b)
  | DeployApp _ t e _ _ _ _ _ => t = text /\ dkeys e ⊆ allowed_envs (names b)
  | _ => True
  end.
(** Actions that need no text *)
Definition textless (argv : list string) (a : @action (box_effect (F := F))) : Prop :=
  match a with
  | Vmm m _ | Post m _ => installs m = false
  | DeployAppContract _ | SealEnv _ _ | DeployApp _ _ _ _ _ _ _ _ => False
  | PrintText _ => mode_of argv <> "hash"%string
  | _ => True
  end.
(** The compose file was not opened; the first time it was opened it held [text]. *)
Definition unread (st : settings (F := F)) (h : hist) : Prop :=
  forall r, @Ev (box_effect (F := F)) (ReadText (COMPOSE_PATH st)) r ∉ h.
Definition first_read (st : settings (F := F)) (h : hist) (text : string) : Prop :=
  exists later sooner, h = later ++ @Ev (box_effect (F := F)) (ReadText (COMPOSE_PATH st)) (Ok text) :: sooner /\ unread st sooner.
Definition of_one_text (b : box) (st : settings (F := F)) (argv : list string) (h : hist) (a : @action (box_effect (F := F))) : Prop :=
  textless argv a \/ exists text, first_read st h text /\ fits b st argv text a.

Lemma measured_keys b st text keys :
  (forall k, k ∈ keys <-> k ∈ names b) ->
  dumps_indent 4 0 (app_compose (F := F) (bx_flags b) st text keys) = measured b st text.
Proof. intros Hk. unfold measured, app_compose. by rewrite (allowed_same keys (names b)). Qed.
Lemma unread_nil st : unread st [].
Proof. intros r. apply not_elem_of_nil. Qed.
Lemma unread_cons st h (a : @action (box_effect (F := F))) r :
  match a with ReadText _ => False | _ => True end -> unread st h -> unread st (Ev a r :: h).
Proof. intros Ha Hh r' [Heq|Hin]%elem_of_cons; [by injection Heq as <-|by eapply Hh]. Qed.
Lemma first_read_now st h text :
  unread st h -> first_read st (@Ev (box_effect (F := F)) (ReadText (COMPOSE_PATH st)) (Ok text) :: h) text.
Proof. intros Hh. by exists [], h. Qed.
(** What follows the reading of the file does what its text asks for. *)
Lemma of_text_after {B} b st argv text (p : prog B) h :
  first_read st h text -> only (fits b st argv text) p -> wp (of_one_text b st argv) p h (fun _ _ => True).
Proof.
  intros Hh Hp. set (K := fun h : hist => first_read st h text).
  assert (keeps (fun h a => K h /\ fits b st argv text a) K p) as Hkeep.
  { eapply keeps_only; [exact Hp|by split|]. intros h' a r (l & s & -> & Hs) _. by exists (Ev a r :: l), s. }
  eapply wp_mono; [|done|by apply Hkeep]. intros h' a [Hh' Ha]. right. by exists text.
Qed.
Lemma of_text_read {B} b st argv (f : string -> prog B) h :
  unread st h -> (forall text, only (fits b st argv text) (f text)) ->
  wp (of_one_text b st argv) (text ← @act (box_effect (F := F)) (ReadText (COMPOSE_PATH st)); f text) h (fun _ _ => True).
Proof.
  intros Hh Hf. apply wp_bind. split; [by left|]. intros [text|e]; [|done].
  apply of_text_after with text; [by apply first_read_now|apply Hf].
Qed.
Lemma of_text_then {B} b st argv keys (f : string * string -> prog B) h :
  unread st h -> (forall k, k ∈ keys <-> k ∈ names b) ->
  (forall text, only (fits b st argv text) (f (measured b st text, sha256_hex (measured b st text)))) ->
  wp (of_one_text b st argv) (c ← app_compose_and_hash b st keys; f c) h (fun _ _ => True).
Proof.
  intros Hh Hk Hf. apply wp_bind. unfold app_compose_and_hash. apply wp_bind. split; [by left|].
  intros [text|e]; [|done]. cbv beta iota delta [wp mret prog_ret]. rewrite (measured_keys b st text keys Hk).
  apply of_text_after with text; [by apply first_read_now|apply Hf].
Qed.
Lemma of_text_only {A} b st argv (p : prog A) h :
  only (textless argv) p -> wp (of_one_text b st argv) p h (fun _ _ => True).
Proof. intros Hp. eapply wp_mono; [|done|apply Hp]. by left. Qed.

(** Parts whose actions are of a kind *)
Lemma ports_only (P : @action (box_effect (F := F)) -> Prop) st : (forall p, P (ParsePort p)) -> only P (ports_of st).
Proof.
  intros HP. unfold ports_of. apply only_bind; [apply only_ret|]. intros l.
  induction l as [|p l IH]; cbn [parse_ports]; [apply only_ret|]. by only_auto.
Qed.
Lemma wait_only (P : @action (box_effect (F := F)) -> Prop) once n :
  only P once -> P (Sleep 2) -> only P (wait_stopped once n).
Proof. intros Ho Hs. induction n as [|n IH]; cbn [wait_stopped]; [apply only_ret|]. by only_auto. Qed.

(** ** Parts that fit *)

Section parts.
Variables (b : box) (st : settings (F := F)) (argv : list string) (text : string).
Abbreviation fit := (fits b st argv text).
Lemma fit_ports : only fit (ports_of st).
Proof. by apply ports_only. Qed.
Lemma fit_seal app_id e : dkeys e ⊆ allowed_envs (names b) -> only fit (seal app_id e).
Proof. intros He. unfold seal. by only_auto. Qed.
Lemma fit_get_info vm_id : only fit (get_info vm_id).
Proof. unfold get_info. by only_auto. Qed.
Lemma fit_poll done_ gone vm_id : only fit (poll done_ gone vm_id).
Proof. unfold poll. only_auto. apply fit_get_info. Qed.
Lemma fit_wait once n : only fit once -> only fit (wait_stopped once n).
Proof. intros Ho. by apply wait_only. Qed.
Lemma fit_stop r vm_id : only fit (stop_first r vm_id).
Proof. unfold stop_first. by destruct (ro_ignore_stop r); only_auto. Qed.
Lemma create_params_text vm app_id cf e stopped :
  yields (create_vm_params GATEWAY_RPC KMS_URLS vm app_id cf e stopped) (sends cf).
Proof. unfold create_vm_params. apply yields_then. intros ports. apply yields_then. intros enc. by apply yields_mret. Qed.
Lemma upgrade_params_text app_id vm_id cf e :
  yields (upgrade_params GATEWAY_RPC KMS_URLS st app_id vm_id cf e) (sends cf).
Proof. unfold upgrade_params. apply yields_then. intros enc. apply yields_then. intros ports. by apply yields_mret. Qed.
Lemma fit_create app_id e stopped :
  dkeys e ⊆ allowed_envs (names b) -> only fit (create_vm GATEWAY_RPC KMS_URLS st app_id (measured b st text) e stopped).
Proof.
  intros He. unfold create_vm. eapply only_yields; [|apply create_params_text|by intros p Hp; apply only_act].
  unfold create_vm_params. apply only_bind; [apply fit_ports|]. intros ports.
  apply only_bind; [by apply fit_seal|]. intros enc. apply only_ret.
Qed.
Lemma fit_upgrade {B} app_id vm_id e (f : odict (json F) -> prog B) :
  dkeys e ⊆ allowed_envs (names b) -> (forall p, sends (measured b st text) p -> only fit (f p)) ->
  only fit (p ← upgrade_params GATEWAY_RPC KMS_URLS st app_id vm_id (measured b st text) e; f p).
Proof.
  intros He Hf. eapply only_yields; [|apply upgrade_params_text|exact Hf].
  unfold upgrade_params. apply only_bind; [by apply fit_seal|]. intros enc.
  apply only_bind; [apply fit_ports|]. intros ports. apply only_ret.
Qed.
Lemma allowed_with_id (e : odict string) app_id :
  (forall k, k ∈ dkeys e <-> k ∈ names b) -> dkeys (dset "APP_ID"%string app_id e) ⊆ allowed_envs (names b).
Proof. intros He k. rewrite dkeys_dset, elem_allowed, He. tauto. Qed.
Lemma allowed_plain (e : odict string) :
  (forall k, k ∈ dkeys e <-> k ∈ names b) -> dkeys e ⊆ allowed_envs (names b).
Proof. intros He k. rewrite elem_allowed, He. tauto. Qed.
End parts.

(** ** Modes that fit *)

Section modes.
Variables (b : box) (st : settings (F := F)) (argv : list string).
Abbreviation of_text := (of_one_text b st argv).
Variable h : hist.
Hypothesis Hfresh : unread st h.
Hypothesis Hnames : forall k, k ∈ dkeys (build_env env b) <-> k ∈ names b.

Lemma deploy_of_text stopped url : wp of_text (deploy env GATEWAY_RPC KMS_URLS b st stopped url) h (fun _ _ => True).
Proof.
  unfold deploy. apply of_text_then; [done|done|]. intros text. cbv beta iota. apply only_bind; [by apply only_act|].
  intros app_id. apply only_bind; [by apply fit_create, allowed_plain|]. intros r. by only_auto.
Qed.
Lemma update_of_text r keys app_id vm_id :
  (forall k, k ∈ keys <-> k ∈ names b) ->
  wp of_text (update env GATEWAY_RPC KMS_URLS b r st keys app_id vm_id) h (fun _ _ => True).
Proof.
  intros Hk. unfold update. apply of_text_then; [done|done|]. intros text. cbv beta iota.
  apply only_bind; [apply fit_stop|]. intros _. apply only_bind; [apply fit_wait, fit_poll|]. intros stopped.
  destruct (wants_fresh env r).
  - apply only_bind; [by apply fit_create, allowed_with_id|]. intros res. by only_auto.
  - apply fit_upgrade; [by apply allowed_with_id|]. intros p Hp. by only_auto.
Qed.
Lemma hash_of_text keys : (forall k, k ∈ keys <-> k ∈ names b) -> wp of_text (hash b st keys) h (fun _ _ => True).
Proof. intros Hk. unfold hash. apply of_text_then; [done|done|]. intros text. by apply only_act. Qed.
Lemma usage_of_text {A} text : wp of_text (exit_usage text : prog A) h (fun _ _ => True).
Proof. done. Qed.
Lemma get_info_textless vm_id : only (textless argv) (get_info vm_id).
Proof. unfold get_info. by only_auto. Qed.
Lemma with_ids_of_text usage k :
  (forall app_id vm_id, wp of_text (k app_id vm_id) h (fun _ _ => True)) ->
  wp of_text (with_ids b argv usage k) h (fun _ _ => True).
Proof. intros Hk. unfold with_ids. by destruct (_ || _). Qed.
Lemma power_row_of_text (p : prog (odict (json F))) :
  only (textless argv) p -> wp of_text (answer ← p; @act (box_effect (F := F)) (Print (JObj answer))) h (fun _ _ => True).
Proof. intros Hp. apply of_text_only. apply only_bind; [done|]. intros d. by apply only_act. Qed.
Lemma stop_vm_textless vm_id : only (textless argv) (stop_vm b vm_id).
Proof.
  unfold stop_vm. destruct (bool_decide _); [apply only_ret|]. apply only_bind; [apply get_info_textless|].
  intros before. cbv zeta. by destruct (found_or_true before); only_auto.
Qed.
Lemma start_vm_textless vm_id : only (textless argv) (start_vm b vm_id).
Proof.
  unfold start_vm. destruct (bool_decide _); [apply only_ret|]. apply only_bind; [apply get_info_textless|].
  intros before. cbv zeta. by destruct (found_or_true before); only_auto.
Qed.

Lemma single_main_of_text keys r :
  (forall k, k ∈ keys <-> k ∈ names b) ->
  wp of_text (single_main env GATEWAY_RPC KMS_URLS b keys r argv st) h (fun _ _ => True).
Proof.
  intros Hk. unfold single_main. destruct (bool_decide _); [apply deploy_of_text|].
  destruct (bool_decide _); [by apply hash_of_text|]. destruct (bool_decide _); [|apply usage_of_text].
  apply with_ids_of_text. intros. by apply update_of_text.
Qed.
Lemma powered_main_of_text url :
  (forall k, k ∈ bx_env_keys b <-> k ∈ names b) ->
  wp of_text (powered_main env GATEWAY_RPC KMS_URLS b url argv st) h (fun _ _ => True).
Proof.
  intros Hk. unfold powered_main. destruct (bool_decide _); [apply deploy_of_text|].
  destruct (bool_decide _); [by apply hash_of_text|].
  destruct (bool_decide _); [apply power_row_of_text, start_vm_textless|].
  destruct (bool_decide _); [apply power_row_of_text, stop_vm_textless|].
  destruct (bool_decide _); [|apply usage_of_text]. apply with_ids_of_text. intros. by apply update_of_text.
Qed.
Lemma workload_main_of_text others :
  wp of_text others h (fun _ _ => True) ->
  wp of_text (workload_main env GATEWAY_RPC KMS_URLS b argv st others) h (fun _ _ => True).
Proof.
  intros Ho. unfold workload_main. destruct (bool_decide _); [apply deploy_of_text|].
  destruct (bool_decide _); [by apply hash_of_text|].
  destruct (bool_decide _); [apply power_row_of_text, stop_vm_textless|].
  destruct (bool_decide _); [|done]. apply with_ids_of_text. intros. by apply update_of_text.
Qed.
Lemma with_id_of_text mode operand k :
  (forall id, wp of_text (k id) h (fun _ _ => True)) ->
  wp of_text (with_id b mode operand argv k) h (fun _ _ => True).
Proof. intros Hk. unfold with_id. by destruct (bool_decide _). Qed.
Lemma ha_main_of_text r others :
  (forall k, k ∈ bx_env_keys b <-> k ∈ names b) -> wp of_text others h (fun _ _ => True) ->
  wp of_text (ha_main env GATEWAY_RPC KMS_URLS b r argv st others) h (fun _ _ => True).
Proof.
  intros Hk Ho. unfold ha_main. destruct (bool_decide _); [by apply hash_of_text|].
  destruct (bool_decide _).
  { unfold register. apply of_text_then; [done|done|]. intros text. by only_auto. }
  destruct (bool_decide _).
  { apply with_id_of_text. intros id. unfold create. apply of_text_then; [done|done|]. intros text.
    apply only_bind; [by apply fit_create, allowed_plain|]. intros res. by only_auto. }
  destruct (_ || _).
  { apply with_id_of_text. intros id. apply of_text_only. unfold power. by destruct (bool_decide _); only_auto. }
  destruct (bool_decide _); [|done]. apply with_ids_of_text. intros. by apply update_of_text.
Qed.
End modes.

(** ** Replacing, the sandbox daemon and the homeserver *)

Lemma fit_vm_found b st argv text vm_id : only (fits b st argv text) (vm_found (F := F) vm_id).
Proof. unfold vm_found. destruct (bool_decide _); [apply only_ret|]. apply only_bind; [apply fit_get_info|]. by only_auto. Qed.
Lemma fit_write_journal b st argv text jn data : only (fits b st argv text) (write_journal (F := F) jn data).
Proof. unfold write_journal. by only_auto. Qed.
Lemma fit_read_journal b st argv text jn : only (fits b st argv text) (read_journal (F := F) jn).
Proof.
  unfold read_journal. apply only_bind; [|by only_auto]. apply only_pbind; [by only_auto|].
  intros [j|e]; [by only_auto|]. by destruct (bool_decide _); only_auto.
Qed.
Lemma fit_wait_down b st argv text vm_id n : only (fits b st argv text) (wait_down (F := F) vm_id n).
Proof.
  induction n as [|n IH]; cbn [wait_down]; [apply only_ret|]. apply only_bind; [apply fit_get_info|]. intros r.
  apply only_bind; [apply only_ret|]. intros status. destruct (_ || _); by only_auto.
Qed.
Lemma fit_remove_old b st argv text vm_id : only (fits b st argv text) (remove_old (F := F) vm_id).
Proof.
  unfold remove_old. apply only_bind; [by only_auto|]. intros _. apply only_bind; [apply fit_wait_down|]. intros _.
  apply only_try; [by only_auto|]. intros e. apply only_bind; [apply fit_vm_found|]. intros still. by only_auto.
Qed.
Lemma fit_recreate b st argv text app_id old e :
  dkeys e ⊆ allowed_envs (names b) ->
  only (fits b st argv text) (recreate_vm env GATEWAY_RPC KMS_URLS st app_id old (measured b st text) e).
Proof.
  intros He. unfold recreate_vm. cbv zeta. apply only_bind; [apply fit_read_journal|]. intros state.
  apply only_bind; [apply fit_vm_found|]. intros kept. destruct kept; [apply only_ret|].
  apply only_bind.
  - unfold remove_once. destruct (truthy _); [apply only_ret|]. apply only_bind; [apply fit_vm_found|]. intros found.
    apply only_bind; [destruct found; [apply fit_remove_old|apply only_ret]|]. intros _.
    apply only_bind; [apply fit_write_journal|]. by only_auto.
  - intros state'. unfold create_replacement. apply only_bind; [by apply fit_create|]. intros res. cbv zeta.
    destruct (bool_decide _); [apply only_ret|]. apply only_bind; [apply fit_write_journal|]. by only_auto.
Qed.
Lemma fit_describe b st argv text vm_id : only (fits b st argv text) (describe_vm (F := F) vm_id).
Proof.
  unfold describe_vm. apply only_bind; [apply fit_get_info|]. intros r.
  only_auto.
Qed.
Lemma fit_request b st argv text m already k k' vm_id :
  installs m = false -> only (fits b st argv text) (request (F := F) m already k k' vm_id).
Proof.
  intros Hm. unfold request. apply only_try; [apply only_act; simpl; by rewrite Hm|]. intros e.
  apply only_bind; [apply fit_describe|]. intros raced. by destruct (already _); only_auto.
Qed.
Lemma fit_await b st argv text vm_id r n : only (fits b st argv text) (await_stopped (F := F) vm_id r n).
Proof.
  induction n as [|n IH]; cbn [await_stopped]; [apply only_ret|]. apply only_bind; [apply fit_describe|]. intros c.
  by destruct (is_stopped _); only_auto.
Qed.
Lemma fit_stop_exact b st argv text vm_id : only (fits b st argv text) (stop_exact (F := F) vm_id).
Proof.
  unfold stop_exact. apply only_bind; [apply fit_describe|]. intros before. destruct (negb _); [apply only_ret|].
  apply only_bind; [|intros; apply fit_await]. by destruct (is_stopped _); [apply only_ret|apply fit_request].
Qed.
Lemma fit_start_exact b st argv text vm_id : only (fits b st argv text) (start_exact (F := F) vm_id).
Proof.
  unfold start_exact. apply only_bind; [apply fit_describe|]. intros before. destruct (negb _); [apply only_ret|].
  apply only_bind; [by destruct (is_started _); [apply only_ret|apply fit_request]|]. by only_auto.
Qed.
Lemma build_names b k : bx_defaults b = id -> k ∈ dkeys (build_env env b) <-> k ∈ names b.
Proof. intros. apply build_env_names. by left. Qed.
Lemma sandboxd_env_names pl app_id k : k ∈ dkeys (sandboxd_env env pl app_id) <-> k ∈ names (sandboxd_box pl).
Proof.
  unfold sandboxd_env. cbv zeta. destruct (_ && _); [|by apply build_names]. rewrite dkeys_dset, build_names by done.
  unfold names. rewrite elem_and_registry. split; [|tauto]. intros [->|Hk]; [|done].
  left. unfold sandboxd_box. cbn [bx_env_keys]. unfold sandboxd_env_keys. set_solver.
Qed.
Lemma registered b k : REGISTRY ∈ bx_env_keys b -> k ∈ bx_env_keys b <-> k ∈ names b.
Proof. intros Hr. unfold names. rewrite elem_and_registry. split; [tauto|]. by intros [Hk| ->]. Qed.
Lemma only_print b st argv text (p : prog (odict (json F))) :
  only (fits b st argv text) p -> only (fits b st argv text) (print_row p).
Proof. intros Hp. unfold print_row. apply only_bind; [done|]. intros d. by apply only_act. Qed.
Lemma textless_fits b st argv text a : textless argv a -> fits b st argv text a.
Proof. destruct a; simpl; try done. - by intros ->. - by intros ->. Qed.

Section sandboxd.
Variables (pl : string) (st : settings (F := F)) (argv : list string).
Variable h : hist.
Hypothesis Hfresh : unread st h.
Abbreviation b := (sandboxd_box pl).
Abbreviation quiet := (textless argv).
Lemma quiet_describe vm_id : only quiet (describe_vm vm_id).
Proof. unfold describe_vm. apply only_bind; [apply get_info_textless|]. intros r. only_auto. Qed.
Lemma quiet_request m already k k' vm_id : installs m = false -> only quiet (request m already k k' vm_id).
Proof.
  intros Hm. unfold request. apply only_try; [by apply only_act|]. intros e.
  apply only_bind; [apply quiet_describe|]. intros raced. by destruct (already _); only_auto.
Qed.
Lemma quiet_stop_exact vm_id : only quiet (stop_exact vm_id).
Proof.
  unfold stop_exact. apply only_bind; [apply quiet_describe|]. intros before. destruct (negb _); [apply only_ret|].
  apply only_bind; [by destruct (is_stopped _); [apply only_ret|apply quiet_request]|]. intros r.
  generalize READBACKS. intros n. induction n as [|n IH]; cbn [await_stopped]; [apply only_ret|].
  apply only_bind; [apply quiet_describe|]. intros c. by destruct (is_stopped _); only_auto.
Qed.
Lemma quiet_start_exact vm_id : only quiet (start_exact vm_id).
Proof.
  unfold start_exact. apply only_bind; [apply quiet_describe|]. intros before. destruct (negb _); [apply only_ret|].
  apply only_bind; [by destruct (is_started _); [apply only_ret|apply quiet_request]|]. intros r. by only_auto.
Qed.
Lemma quiet_inventory app_id : only quiet (app_inventory app_id).
Proof. unfold app_inventory. cbv zeta. destruct (_ || _); [apply only_ret|]. by only_auto. Qed.
Lemma upgrade_sandboxd_of_text starts app_id vm_id :
  wp (of_one_text b st argv) (upgrade_sandboxd env GATEWAY_RPC KMS_URLS pl st starts app_id vm_id) h (fun _ _ => True).
Proof.
  unfold upgrade_sandboxd. cbv zeta. apply of_text_then; [done|apply sandboxd_env_names|]. intros text. cbn [fst snd].
  apply only_bind.
  { destruct starts; [apply only_bind; [apply fit_stop_exact|]; by only_auto|].
    apply only_bind; [apply fit_describe|]. intros before. by destruct (_ || _); only_auto. }
  intros _. apply fit_upgrade; [by apply allowed_with_id, sandboxd_env_names|]. intros p Hp.
  apply only_bind; [by apply only_act|]. intros up. destruct starts; [by only_auto|].
  apply only_bind; [apply fit_describe|]. intros after_. by destruct (_ || _); only_auto.
Qed.
Lemma sandboxd_of_text :
  wp (of_one_text b st argv) (sandboxd_modes env GATEWAY_RPC KMS_URLS pl argv st) h (fun _ _ => True).
Proof.
  unfold sandboxd_modes. destruct (undersized st); [|done]. cbv zeta.
  assert (forall text app_id, only (fits b st argv text)
    (create_sandboxd GATEWAY_RPC KMS_URLS st app_id (measured b st text) (sandboxd_env env pl app_id))) as Hcreate.
  { intros text app_id. unfold create_sandboxd. by apply fit_create, allowed_with_id, sandboxd_env_names. }
  destruct (bool_decide _).
  { unfold deploy_sandboxd. apply of_text_then; [done|done|]. intros text. cbn [fst snd]. apply only_bind; [by apply only_act|].
    intros app_id. apply only_bind; [apply Hcreate|]. intros r. by only_auto. }
  destruct (bool_decide _).
  { apply with_id_of_text. intros app_id. unfold create_replacement_vm. apply of_text_then; [done| |].
    - intros k. apply (registered b). apply (bool_decide_unpack _). by vm_compute.
    - intros text. cbn [fst snd]. apply only_bind; [apply Hcreate|]. intros r. by only_auto. }
  destruct (bool_decide _); [by apply hash_of_text|].
  destruct (bool_decide _); [apply with_id_of_text; intros; apply power_row_of_text, quiet_inventory|].
  destruct (bool_decide _); [apply with_id_of_text; intros; apply power_row_of_text, quiet_start_exact|].
  destruct (bool_decide _); [apply with_id_of_text; intros; apply power_row_of_text, quiet_stop_exact|].
  destruct (bool_decide _); [apply with_id_of_text; intros; apply power_row_of_text, quiet_describe|].
  destruct (bool_decide _); [apply with_ids_of_text; intros; apply upgrade_sandboxd_of_text|].
  destruct (bool_decide _); [apply with_ids_of_text; intros; apply upgrade_sandboxd_of_text|]. done.
Qed.
End sandboxd.

Lemma matrix_env_names k : k ∈ dkeys (matrix_env env) <-> k ∈ names matrix_box.
Proof. unfold matrix_env, names. rewrite dkeys_dset, elem_given_env, elem_and_registry. tauto. Qed.
Lemma update_matrix_of_text st argv app_id vm_id h :
  unread st h -> wp (of_one_text matrix_box st argv) (update_matrix env GATEWAY_RPC KMS_URLS st app_id vm_id) h (fun _ _ => True).
Proof.
  intros Hh. unfold update_matrix. apply of_text_then; [done|apply matrix_env_names|]. intros text. cbv beta iota.
  apply only_bind; [by apply fit_seal, allowed_with_id, matrix_env_names|]. intros enc.
  apply only_bind; [apply fit_ports|]. intros ports. cbv zeta. destruct (_ && _).
  - apply only_bind; [by apply only_act|]. intros _. apply only_bind; [|intros stopped; by only_auto].
    apply fit_wait. unfold matrix_poll. apply only_try; by only_auto.
  - apply only_bind; [by destruct (non_empty vm_id); only_auto|]. intros _. by only_auto.
Qed.
Lemma matrix_of_text st argv h :
  unread st h -> matrix_settings (F := F) env = Ok st ->
  wp (of_one_text matrix_box st argv) (matrix_main env GATEWAY_RPC KMS_URLS argv) h (fun _ _ => True).
Proof.
  intros Hh Hst. unfold matrix_main. rewrite Hst. apply wp_bind. cbv beta iota delta [wp]. cbv zeta.
  destruct (bool_decide _).
  { unfold deploy_matrix. apply of_text_read; [done|]. intros text. apply only_bind; [apply only_act|intros r; by only_auto].
    split; [done|]. apply allowed_plain, matrix_env_names. }
  destruct (bool_decide _); [by apply hash_of_text|]. destruct (bool_decide _); [|done].
  destruct (argv !! 1%nat); [by apply update_matrix_of_text|done].
Qed.
Lemma quiet_info argv vm_id : only (textless argv) (info (F := F) vm_id).
Proof.
  unfold info. apply only_bind; [apply get_info_textless|]. intros r. apply only_bind; [apply only_ret|]. intros i.
  apply only_bind; [apply only_ret|]. intros c. apply only_bind; [by only_auto|]. intros serial. by only_auto.
Qed.
Lemma quiet_resize argv st vm_id : only (textless argv) (resize (F := F) st vm_id).
Proof.
  unfold resize. apply only_bind; [apply get_info_textless|]. intros r. destruct (negb _); [apply only_ret|].
  apply only_bind; [apply only_ret|]. intros i. cbv zeta. destruct (negb _); [apply only_ret|].
  apply only_bind; [apply only_ret|]. intros c. apply only_bind; [apply only_ret|]. intros cur.
  destruct (shrunk _ _) as [[[k x] y]|]; [apply only_ret|]. apply only_bind; [by apply only_act|]. intros res.
  apply only_bind; [apply get_info_textless|]. intros again. by only_auto.
Qed.

(** ** All scripts *)

Record node := Node {
  nd_box : box;
  nd_settings : result (settings (F := F));
  nd_main : list string -> prog unit;
}.
Definition plain (b : box) (main : list string -> prog unit) : node := Node b (read_settings env b) main.
(** The scripts; the arguments are the measured shell programs of three of them. *)
Definition nodes (synclave_pl webhost_pl sandboxd_pl : string) : list node :=
  [plain ssh_box (ssh_main env GATEWAY_RPC KMS_URLS);
   plain hermes_box (hermes_main env GATEWAY_RPC KMS_URLS);
   plain postgres_box (postgres_main env GATEWAY_RPC KMS_URLS);
   plain runyard_box (runyard_main env GATEWAY_RPC KMS_URLS);
   plain telegram_sync_box (telegram_sync_main env GATEWAY_RPC KMS_URLS);
   plain langfuse_box (langfuse_main env GATEWAY_RPC KMS_URLS);
   plain hindsight_box (hindsight_main env GATEWAY_RPC KMS_URLS);
   plain r2_host_box (r2_host_main env GATEWAY_RPC KMS_URLS);
   plain (synclave_box synclave_pl) (synclave_main env GATEWAY_RPC KMS_URLS synclave_pl);
   plain (webhost_box webhost_pl) (webhost_main env GATEWAY_RPC KMS_URLS webhost_pl);
   plain fugu_router_box (fugu_router_main env GATEWAY_RPC KMS_URLS);
   plain fugu_lb_box (fugu_lb_main env GATEWAY_RPC KMS_URLS);
   plain pg_ha_box (pg_ha_main env RPC GATEWAY_RPC KMS_URLS);
   plain db_ha_box (db_ha_main env GATEWAY_RPC KMS_URLS);
   plain redis_ha_box (redis_ha_main env GATEWAY_RPC KMS_URLS);
   plain clickhouse_ha_box (clickhouse_ha_main env GATEWAY_RPC KMS_URLS);
   plain agent_session_box (agent_session_main env GATEWAY_RPC KMS_URLS);
   plain pocket_box (pocket_main env GATEWAY_RPC KMS_URLS);
   plain generic_box (generic_main env GATEWAY_RPC KMS_URLS);
   plain (sandboxd_box sandboxd_pl) (sandboxd_main env GATEWAY_RPC KMS_URLS sandboxd_pl);
   Node matrix_box (matrix_settings env) (matrix_main env GATEWAY_RPC KMS_URLS)].

Lemma script_of_text b main argv st h :
  unread st h -> read_settings env b = Ok st -> (unread st h -> wp (of_one_text b st argv) (main st) h (fun _ _ => True)) ->
  wp (of_one_text b st argv) (script env b main) h (fun _ _ => True).
Proof. intros Hh Hst Hm. unfold script. rewrite Hst. apply wp_bind. cbv beta iota delta [wp]. by apply Hm. Qed.
Lemma listed b : bool_decide (REGISTRY ∈ bx_env_keys b) = true -> forall k, k ∈ bx_env_keys b <-> k ∈ names b.
Proof. intros Hb k. apply registered. by apply bool_decide_eq_true in Hb. Qed.
Lemma single_node b keys r argv st h :
  unread st h -> read_settings env b = Ok st -> ordinary b -> (forall k, k ∈ keys <-> k ∈ names b) ->
  wp (of_one_text b st argv) (script env b (single_main env GATEWAY_RPC KMS_URLS b keys r argv)) h (fun _ _ => True).
Proof.
  intros Hh Hst Ho Hk. apply script_of_text; [done|done|]. intros _. apply single_main_of_text; [done| |done].
  intros k. by apply build_env_names.
Qed.
Lemma ha_node b r argv st h :
  unread st h -> read_settings env b = Ok st -> bx_defaults b = id -> bool_decide (REGISTRY ∈ bx_env_keys b) = true ->
  wp (of_one_text b st argv)
     (script env b (fun st => ha_main env GATEWAY_RPC KMS_URLS b r argv st (ha_usage b))) h (fun _ _ => True).
Proof.
  intros Hh Hst Hd Hr. apply script_of_text; [done|done|]. intros _.
  apply ha_main_of_text; [done|intros k; by apply build_names|by apply listed|done].
Qed.
Lemma generic_node argv st h :
  unread st h -> read_settings env generic_box = Ok st ->
  wp (of_one_text generic_box st argv)
     (script env generic_box (fun st =>
        workload_main env GATEWAY_RPC KMS_URLS generic_box argv st
          (if bool_decide (mode_of argv = "recreate"%string)
           then with_ids generic_box argv "recreate" (recreate env GATEWAY_RPC KMS_URLS generic_box st)
           else exit_usage (bx_script generic_box +:+
                  " [deploy|hash|stop <vm_id>|update|recreate <app_id> <vm_id>]")))) h (fun _ _ => True).
Proof.
  intros Hh Hst. apply script_of_text; [done|done|]. intros _. apply workload_main_of_text; [done|intros k; by apply build_names|].
  destruct (bool_decide _); [|done]. apply with_ids_of_text. intros app_id old. unfold recreate. cbv zeta.
  apply of_text_then; [done|intros k; by apply build_names|]. intros text. cbn [fst snd].
  apply only_bind; [by apply fit_recreate, allowed_with_id; intros k; apply build_names|]. intros r. by only_auto.
Qed.
Lemma every_main_of_text p1 p2 p3 nd st argv h :
  nd ∈ nodes p1 p2 p3 -> nd_settings nd = Ok st -> unread st h ->
  wp (of_one_text (nd_box nd) st argv) (nd_main nd argv) h (fun _ _ => True).
Proof.
  unfold nodes. rewrite !elem_of_cons, elem_of_nil. intros Hnd Hst Hh.
  repeat destruct Hnd as [->|Hnd]; try done; cbn [plain nd_box nd_main nd_settings] in *.
  all: try (apply single_node; [done|exact Hst|first [by left|by right]|done]; fail).
  - apply single_node; [done|exact Hst|by left|by apply (listed hermes_box)].
  - apply single_node; [done|exact Hst|by left|by apply (listed telegram_sync_box)].
  - apply single_node; [done|exact Hst|by left|by apply (listed langfuse_box)].
  - apply script_of_text; [done|done|]. intros _. apply powered_main_of_text; [done|intros k; by apply build_names|by apply listed].
  - apply script_of_text; [done|done|]. intros _. apply powered_main_of_text; [done|intros k; by apply build_names|by apply listed].
  - apply wp_bind. split; [by left|]. intros [u|e]; [|done]. apply script_of_text; [by apply unread_cons|done|]. intros _.
    apply ha_main_of_text; [by apply unread_cons|intros k; by apply build_names|by apply listed|]. cbv zeta.
    destruct (bool_decide _); [apply with_id_of_text; intros; apply of_text_only, quiet_info|].
    destruct (bool_decide _) eqn:El; [apply with_id_of_text; intros; apply of_text_only|].
    { unfold logs. apply bool_decide_eq_true in El. apply only_bind; [by apply only_act|]. intros t.
      apply only_act. simpl. by rewrite El. }
    clear El. destruct (bool_decide _); [apply with_id_of_text; intros; apply of_text_only, quiet_resize|]. done.
  - by apply ha_node.
  - by apply ha_node.
  - by apply ha_node.
  - apply script_of_text; [done|done|]. intros _. by apply workload_main_of_text; [done|intros k; apply build_names|].
  - apply script_of_text; [done|done|]. intros _. by apply workload_main_of_text; [done|intros k; apply build_names|].
  - unfold generic_main. cbv zeta. apply wp_bind. destruct (bool_decide _).
    + cbv beta iota delta [wp mret prog_ret]. by apply generic_node.
    + split; [by left|]. intros [u|e]; [|done]. by apply generic_node; [apply unread_cons|].
  - apply script_of_text; [done|done|]. intros _. by apply sandboxd_of_text.
  - by apply matrix_of_text.
Qed.

(** C17: Over all runs of every script, one text counts: the content of the compose file at
    the first reading of the run. What is created, upgraded or registered, and what the
    [hash] mode prints, is what the settings, that text and the names of the script make,
    and every sealed variable is named in it; none of these actions comes before it is
    read, and a file that changes on a later reading changes none of them. *)
Theorem scripts_measure_one_text p1 p2 p3 nd st argv h a k :
  nd ∈ nodes p1 p2 p3 -> nd_settings nd = Ok st ->
  steps (nd_main nd argv) [] (POp a k) h ->
  of_one_text (nd_box nd) st argv h a.
Proof. intros Hnd Hst Hs. by apply (wp_guard _ _ _ _ _ _ _ (every_main_of_text p1 p2 p3 nd st argv [] Hnd Hst (unread_nil st)) Hs). Qed.
End facts.
