(* ===== verification/NodeRules.v ===== *)
(** * Node boxes: what a roll touches

    An update leaves every other machine alone and creates none; the size of a machine of
    the database is changed only while it is stopped and never to less; the sandbox daemon's
    machine is upgraded only after the monitor said that it is exactly stopped. *)

From stdpp Require Import base option list sets strings.
From Stdlib Require Import ZArith Lia Ascii.
From S2P Require Import Prelude PyStr StrFacts PyFloat Json JsonParse Sha256 Effects BudgetConfig AdminCore.
From S2P Require Import NodeBox NodeScripts NodeRecreate NodeSandboxd NodeFacts.

Local Open Scope Z_scope.

Section rules.
Context {F : Type} `{PyFloat F}.
Abbreviation prog := (@Effects.prog (box_effect (F := F))).
Abbreviation hist := (@Effects.hist (box_effect (F := F))).
Abbreviation act_of := (@action (box_effect (F := F))).
Variable env : environ.
Variables (RPC GATEWAY_RPC : string) (KMS_URLS : list string).

(** ** An update *)

Definition ROLL : list string := ["StopVm"; "GetInfo"; "UpgradeApp"; "StartVm"]%string.
(** A call about the machine [vm_id] that neither creates nor removes one *)
Definition on_machine (vm_id : string) (a : act_of) : Prop :=
  match a with
  | Vmm m p | Post m p => m ∈ ROLL /\ field "id" p = JStr vm_id
  | VmmStatus | DeployAppContract _ | DeployApp _ _ _ _ _ _ _ _ => False
  | _ => True
  end.
Ltac on_it := split; [unfold ROLL; set_solver|done].
Section update.
Variables (app_id vm_id : string).
Hypothesis Hkeep : is_on (getenv env "BOX_FRESH_DISK" "") = false.
Abbreviation mine := (on_machine vm_id).
Lemma get_info_on : only mine (get_info vm_id).
Proof. unfold get_info. only_auto. on_it. Qed.
Lemma ports_on st : only mine (ports_of st).
Proof. by apply ports_only. Qed.
Lemma wait_on once n : only mine once -> only mine (wait_stopped once n).
Proof. intros Ho. by apply wait_only. Qed.
Lemma upgrade_params_id st cf e :
  yields (upgrade_params GATEWAY_RPC KMS_URLS st app_id vm_id cf e) (fun p => @field F "id" p = JStr vm_id).
Proof. unfold upgrade_params. apply yields_then. intros enc. apply yields_then. intros ports. by apply yields_mret. Qed.
Lemma upgrade_on {B} st cf e (f : odict (json F) -> prog B) :
  (forall p, field "id" p = JStr vm_id -> only mine (f p)) ->
  only mine (p ← upgrade_params GATEWAY_RPC KMS_URLS st app_id vm_id cf e; f p).
Proof.
  intros Hf. eapply only_yields; [|apply upgrade_params_id|exact Hf]. unfold upgrade_params.
  apply only_bind; [unfold seal; by only_auto|]. intros enc. apply only_bind; [apply ports_on|]. intros ports. apply only_ret.
Qed.
Lemma compose_on {B} b st keys (f : string * string -> prog B) :
  (forall c, only mine (f c)) -> only mine (c ← app_compose_and_hash b st keys; f c).
Proof. intros Hf. apply only_bind; [unfold app_compose_and_hash; by only_auto|done]. Qed.
Lemma update_on b r st keys : only mine (update env GATEWAY_RPC KMS_URLS b r st keys app_id vm_id).
Proof.
  unfold update, wants_fresh. rewrite Hkeep, andb_false_r. cbv zeta. apply compose_on. intros [cf d].
  apply only_bind; [unfold stop_first; destruct (ro_ignore_stop r); only_auto; on_it|]. intros _.
  apply only_bind; [apply wait_on; unfold poll; only_auto; apply get_info_on|]. intros stopped.
  apply upgrade_on. intros p Hp. apply only_bind; [apply only_act; by split; [unfold ROLL; set_solver|]|]. intros up.
  apply only_bind; [apply only_act; on_it|]. intros start. by apply only_act.
Qed.

(** The scripts, asked to update *)
Abbreviation argv := ["update"%string; app_id; vm_id].
Lemma with_ids_on b usage k : only mine (k app_id vm_id) -> only mine (with_ids b argv usage k).
Proof. intros Hk. unfold with_ids. destruct (_ || _); [apply only_ret|done]. Qed.
Ltac update_mode :=
  change (mode_of argv) with "update"%string; cbv zeta;
  repeat rewrite bool_decide_false by done; cbn [orb]; try rewrite bool_decide_true by done.
Lemma script_on b main : (forall st, only mine (main st)) -> only mine (script env b main).
Proof. intros Hm. unfold script. apply only_bind; [apply only_ret|done]. Qed.
Lemma single_on b keys r st : only mine (single_main env GATEWAY_RPC KMS_URLS b keys r argv st).
Proof. unfold single_main. update_mode. apply with_ids_on, update_on. Qed.
Lemma powered_on b url st : only mine (powered_main env GATEWAY_RPC KMS_URLS b url argv st).
Proof. unfold powered_main. update_mode. apply with_ids_on, update_on. Qed.
Lemma workload_on b st others : only mine (workload_main env GATEWAY_RPC KMS_URLS b argv st others).
Proof. unfold workload_main. update_mode. apply with_ids_on, update_on. Qed.
Lemma ha_on b r st others : only mine (ha_main env GATEWAY_RPC KMS_URLS b r argv st others).
Proof. unfold ha_main. update_mode. apply with_ids_on, update_on. Qed.

Lemma describe_on : only mine (describe_vm vm_id).
Proof. unfold describe_vm. apply only_bind; [apply get_info_on|]. intros r. only_auto. Qed.
Lemma request_on m already k k' : m ∈ ROLL -> only mine (request m already k k' vm_id).
Proof.
  intros Hm. unfold request. apply only_try; [by apply only_act|]. intros e.
  apply only_bind; [apply describe_on|]. intros raced. by destruct (already _); only_auto.
Qed.
Lemma stop_exact_on : only mine (stop_exact vm_id).
Proof.
  unfold stop_exact. apply only_bind; [apply describe_on|]. intros before. destruct (negb _); [apply only_ret|].
  apply only_bind; [destruct (is_stopped _); [apply only_ret|apply request_on; unfold ROLL; set_solver]|]. intros r.
  generalize READBACKS. intros n. induction n as [|n IH]; cbn [await_stopped]; [apply only_ret|].
  apply only_bind; [apply describe_on|]. intros c. by destruct (is_stopped _); only_auto.
Qed.
Lemma upgrade_sandboxd_on pl st starts :
  only mine (upgrade_sandboxd env GATEWAY_RPC KMS_URLS pl st starts app_id vm_id).
Proof.
  unfold upgrade_sandboxd. cbv zeta. apply compose_on. intros [cf d]. cbn [fst snd].
  apply only_bind.
  { destruct starts; [apply only_bind; [apply stop_exact_on|]; by only_auto|].
    apply only_bind; [apply describe_on|]. intros before. by destruct (_ || _); only_auto. }
  intros _. apply upgrade_on. intros p Hp. apply only_bind; [apply only_act; by split; [unfold ROLL; set_solver|]|].
  intros up. destruct starts; [apply only_bind; [apply only_act; on_it|]; intros s; by apply only_act|].
  apply only_bind; [apply describe_on|]. intros after_. by destruct (_ || _); only_auto.
Qed.
Lemma sandboxd_on pl st : only mine (sandboxd_modes env GATEWAY_RPC KMS_URLS pl argv st).
Proof.
  unfold sandboxd_modes. destruct (undersized st); [|apply only_ret]. update_mode.
  apply with_ids_on, upgrade_sandboxd_on.
Qed.
Lemma matrix_on : vm_id <> EmptyString -> only mine (matrix_main env GATEWAY_RPC KMS_URLS argv).
Proof.
  intros Hid. unfold matrix_main. apply only_bind; [apply only_ret|]. intros st. update_mode. cbn [lookup list_lookup].
  change (arg argv 2) with vm_id. unfold update_matrix. cbv zeta. apply compose_on. intros [cf d].
  apply only_bind; [unfold seal; by only_auto|]. intros enc. apply only_bind; [apply ports_on|]. intros ports.
  rewrite Hkeep. assert (non_empty vm_id = true) as -> by (by destruct vm_id). cbn [andb negb].
  apply only_bind; [apply only_act; on_it|]. intros _. apply only_bind.
  { apply wait_on. unfold matrix_poll. apply only_try; only_auto. on_it. }
  intros stopped. apply only_bind; [apply only_act; on_it|]. intros r. apply only_bind; [apply only_act; on_it|].
  intros s. by apply only_act.
Qed.
Ltac by_family :=
  match goal with
  | |- only _ (single_main _ _ _ _ _ _ _ _) => apply single_on
  | |- only _ (powered_main _ _ _ _ _ _ _) => apply powered_on
  | |- only _ (ha_main _ _ _ _ _ _ _ _) => apply ha_on
  | |- only _ (workload_main _ _ _ _ _ _ _) => apply workload_on
  | |- only _ (sandboxd_modes _ _ _ _ _ _) => apply sandboxd_on
  end.
Lemma every_update_on p1 p2 p3 nd :
  vm_id <> EmptyString -> nd ∈ nodes env RPC GATEWAY_RPC KMS_URLS p1 p2 p3 -> only mine (nd_main nd argv).
Proof.
  intros Hid. unfold nodes. rewrite !elem_of_cons, elem_of_nil. intros Hnd.
  repeat destruct Hnd as [->|Hnd]; try done; cbn [plain nd_main].
  all: try (apply script_on; intros st; cbv beta; by_family).
  - unfold pg_ha_main. apply only_bind; [by apply only_act|]. intros _. apply script_on. intros st. apply ha_on.
  - unfold generic_main. cbv zeta. apply only_bind; [by destruct (bool_decide _); only_auto|]. intros _.
    apply script_on. intros st. apply workload_on.
  - by apply matrix_on.
Qed.
End update.

(** C24: Without a fresh disk, an update by any script calls the monitor only to stop, describe,
    upgrade and start the one machine it was given: none is created or removed. *)
Theorem update_keeps_the_machine p1 p2 p3 nd app_id vm_id a k h :
  is_on (getenv env "BOX_FRESH_DISK" "") = false -> vm_id <> EmptyString ->
  nd ∈ nodes env RPC GATEWAY_RPC KMS_URLS p1 p2 p3 ->
  steps (nd_main nd ["update"%string; app_id; vm_id]) [] (POp a k) h ->
  on_machine vm_id a.
Proof. intros Hk Hid Hnd. apply only_performs. by eapply every_update_on. Qed.

(** ** The size of a machine *)

(** What a change of size needs: an answer of the monitor about this machine that says that
    it is stopped and no larger than it is to be *)
Definition sized (st : settings (F := F)) (h : hist) (a : act_of) : Prop :=
  match a with
  | Vmm m p =>
      m = "ResizeVm"%string ->
      exists vm_id response info config current,
        @Ev (box_effect (F := F)) (Vmm "GetInfo" (id_param vm_id)) (Ok (JObj response)) ∈ h /\
        truthy (field "found" response) = true /\
        obj (or_empty "info" response) = Ok info /\ lower_text "status" info ∈ ["stopped"; "exited"]%string /\
        obj (or_empty "configuration" info) = Ok config /\ sizes_of config = Ok current /\
        p = id_param vm_id ++ sizes_row (target_of st) /\
        sz_vcpu current <= VCPU st /\ sz_memory current <= MEM st /\ sz_disk current <= DISK st
  | _ => True
  end.
Lemma shrunk_None current st :
  shrunk current (target_of (F := F) st) = None ->
  sz_vcpu current <= VCPU st /\ sz_memory current <= MEM st /\ sz_disk current <= DISK st.
Proof.
  unfold shrunk, target_of. simpl. destruct (Z.ltb_spec (VCPU st) (sz_vcpu current)); [done|].
  destruct (Z.ltb_spec (MEM st) (sz_memory current)); [done|]. by destruct (Z.ltb_spec (DISK st) (sz_disk current)).
Qed.
Lemma resize_sized st vm_id h : wp (sized st) (resize (F := F) st vm_id) h (fun _ _ => True).
Proof.
  unfold resize, get_info at 1. apply wp_bind, wp_bind. split; [done|]. intros [j|e]; [|done]. cbn [wp].
  destruct (obj j) as [response|e] eqn:Ej; [|done]. assert (j = JObj response) as -> by (destruct j; naive_solver).
  destruct (truthy (field "found" response)) eqn:Ef; [|done]. cbn [negb]. apply wp_bind. cbn [wp].
  destruct (obj (or_empty "info" response)) as [info|e] eqn:Ei; [|done]. cbv zeta.
  case_bool_decide as Es; [|done]. cbn [negb]. apply wp_bind. cbn [wp].
  destruct (obj (or_empty "configuration" info)) as [config|e] eqn:Ec; [|done]. apply wp_bind. cbn [wp].
  destruct (sizes_of config) as [current|e] eqn:Ez; [|done].
  destruct (shrunk current (target_of st)) as [[[k x] y]|] eqn:Ek; [done|]. apply shrunk_None in Ek.
  apply wp_bind. split.
  - intros _. exists vm_id, response, info, config, current. split; [left|]. naive_solver.
  - intros r. cbn [wp]. destruct r as [r|e]; [|done].
    apply (wp_only (fun a : act_of => match a with Vmm m _ => m <> "ResizeVm"%string | _ => True end)); [| |done].
    + apply only_bind; [unfold get_info; by only_auto|]. intros again. by only_auto.
    + intros h' a Ha. destruct a; try done. intros Hm. by destruct (Ha Hm).
Qed.
Lemma pg_ha_resize_sized st vm_id h :
  read_settings env pg_ha_box = Ok st ->
  wp (sized st) (pg_ha_main env RPC GATEWAY_RPC KMS_URLS ["resize"%string; vm_id]) h (fun _ _ => True).
Proof.
  intros Hst. unfold pg_ha_main. apply wp_bind. split; [done|]. intros r. cbn [wp]. destruct r as [u|e]; [|done].
  unfold script. rewrite Hst. apply wp_bind. cbn [wp]. unfold ha_main. change (mode_of _) with "resize"%string. cbv zeta.
  repeat rewrite bool_decide_false by done. cbn [orb]. rewrite bool_decide_true by done.
  unfold with_id. change (arg _ 1) with vm_id. destruct (bool_decide _); [done|]. apply resize_sized.
Qed.
(** C23: The size of a machine of the database is changed only when the monitor has answered that
    the machine is stopped, to the configured sizes, and none of the three gets smaller. *)
Theorem resize_never_shrinks st vm_id a k h :
  read_settings env pg_ha_box = Ok st ->
  steps (pg_ha_main env RPC GATEWAY_RPC KMS_URLS ["resize"%string; vm_id]) [] (POp a k) h ->
  sized st h a.
Proof. intros Hst Hs. by apply (wp_guard _ _ _ _ _ _ _ (pg_ha_resize_sized st vm_id [] Hst) Hs). Qed.

(** ** An upgrade of the sandbox daemon *)

Definition is_call (a : act_of) : bool := match a with Vmm _ _ | VmmStatus | Post _ _ => true | _ => false end.
(** The last call of the monitor *)
Definition last_call (h : hist) : option event := head (List.filter (fun e => is_call (ev_action e)) h).
(** It asked about this machine, and the answer was that it is exactly stopped. *)
Definition told_stopped (vm_id : string) (h : hist) : Prop :=
  exists response info,
    last_call h = Some (@Ev (box_effect (F := F)) (Vmm "GetInfo" (id_param vm_id)) (Ok (JObj response))) /\
    obj (or_empty "info" response) = Ok info /\ lower_text "status" info ∈ STOPPED.
Definition upgrade_is_safe (h : hist) (a : act_of) : Prop :=
  match a with
  | Vmm m p => m = "UpgradeApp"%string -> exists vm_id, field "id" p = JStr vm_id /\ told_stopped vm_id h
  | _ => True
  end.
Definition no_upgrade (a : act_of) : Prop := match a with Vmm m _ => m <> "UpgradeApp"%string | _ => True end.
Lemma no_upgrade_safe h a : no_upgrade a -> upgrade_is_safe h a.
Proof. destruct a; try done. simpl. intros Hm Hu. by destruct (Hm Hu). Qed.
Lemma describe_told vm_id h :
  wpo upgrade_is_safe (describe_vm vm_id) h
    (fun h' d => exists response info,
       last_call h' = Some (@Ev (box_effect (F := F)) (Vmm "GetInfo" (id_param vm_id)) (Ok (JObj response))) /\
       obj (or_empty "info" response) = Ok info /\ described_status d = lower_text "status" info).
Proof.
  unfold describe_vm, get_info. apply wpo_bind, wpo_bind.
  split; [done|]. intros r. cbn [wp]. destruct r as [j|e]; [|done]. apply (wpo_ret upgrade_is_safe). intros response Hj.
  assert (j = JObj response) as -> by (destruct j; naive_solver).
  apply wpo_bind, wpo_ret. intros info Hi. apply wpo_bind, wpo_ret. intros config _. apply wpo_mret.
  by exists response, info.
Qed.
Lemma stopped_told vm_id h :
  wpo upgrade_is_safe (stop_exact vm_id) h (fun h' _ => told_stopped vm_id h').
Proof.
  unfold stop_exact. apply wpo_bind. eapply wpo_post; [apply describe_told|]. intros h1 before _.
  destruct (negb _); [done|]. apply wpo_bind.
  apply (wpo_only no_upgrade); [|apply no_upgrade_safe|].
  { destruct (is_stopped _); [apply only_ret|]. unfold request. apply only_try; [by apply only_act|]. intros e.
    apply only_bind; [unfold describe_vm, get_info; by only_auto|]. intros raced. by destruct (is_stopped _); only_auto. }
  intros evs r _ _. generalize (evs ++ h1). generalize READBACKS. intros n. induction n as [|n IH]; intros h2; [done|].
  cbn [await_stopped]. apply wpo_bind. eapply wpo_post; [apply describe_told|].
  intros h3 d (response & info & Hl & Hi & Hd). destruct (is_stopped (described_status d)) eqn:Es.
  - apply wpo_mret. exists response, info. split; [done|]. split; [done|].
    rewrite <- Hd. by apply bool_decide_eq_true in Es.
  - apply wpo_bind. split; [done|]. intros r2. cbn [wp]. destruct r2; [apply IH|done].
Qed.
Lemma last_call_quiet evs h : Forall (fun e => is_call (ev_action e) = false) evs -> last_call (evs ++ h) = last_call h.
Proof.
  unfold last_call. intros Hf. induction Hf as [|e evs He _ IH]; [done|]. cbn [app List.filter]. by rewrite He.
Qed.
Lemma upgrade_sandboxd_safe pl st starts app_id vm_id h :
  wp upgrade_is_safe (upgrade_sandboxd env GATEWAY_RPC KMS_URLS pl st starts app_id vm_id) h (fun _ _ => True).
Proof.
  unfold upgrade_sandboxd. cbv zeta. apply wp_bind. eapply wp_post.
  { apply (wp_only no_upgrade _ _ _ (fun _ _ => True)); [unfold app_compose_and_hash; by only_auto|apply no_upgrade_safe|done]. }
  intros h1 [[cf d]|e] _; [|done]. cbn [fst snd]. apply wp_bind.
  assert (wpo upgrade_is_safe
    (if starts then stop_exact vm_id;; mret tt
     else before ← describe_vm vm_id;
          if negb (described_found before) || negb (is_stopped (described_status before))
          then refuse "upgrade-stopped requires an exactly stopped replacement VM" else mret tt) h1
    (fun h' _ => told_stopped vm_id h')) as Hstop.
  { destruct starts.
    - apply wpo_bind. eapply wpo_post; [apply stopped_told|]. intros h2 r Hr. by apply wpo_mret.
    - apply wpo_bind. eapply wpo_post; [apply describe_told|]. intros h2 b (response & info & Hl & Hi & Hd).
      destruct (negb (described_found b)); [done|]. destruct (is_stopped (described_status b)) eqn:Es; [|done].
      apply wpo_mret. exists response, info. split; [done|]. split; [done|]. rewrite <- Hd.
      by apply bool_decide_eq_true in Es. }
  eapply wp_post; [exact Hstop|]. intros h2 [u|e] Htold; [|done]. apply wp_bind.
  assert (wpo upgrade_is_safe (upgrade_params GATEWAY_RPC KMS_URLS st app_id vm_id cf (sealed_env app_id (sandboxd_env env pl app_id)))
    h2 (fun h' p => field "id" p = JStr vm_id /\ told_stopped vm_id h')) as Hparams.
  { eapply (wpo_only_yields (fun a => is_call a = false)); [|apply upgrade_params_id| |].
    - unfold upgrade_params. apply only_bind; [unfold seal; by only_auto|]. intros enc.
      apply only_bind; [by apply ports_only|]. intros ports. apply only_ret.
    - by intros h' [].
    - intros evs p He _ Hp. split; [done|]. unfold told_stopped. by rewrite last_call_quiet. }
  eapply wp_post; [exact Hparams|]. intros h3 [p|e] Hp; [|done]. destruct Hp as [Hp Ht].
  apply wp_bind. split; [by exists vm_id|]. intros r. cbn [wp]. destruct r as [up|e]; [|done].
  apply (wp_only no_upgrade); [|apply no_upgrade_safe|done].
  destruct starts; [by only_auto|]. apply only_bind; [unfold describe_vm, get_info; by only_auto|]. intros after_.
  by destruct (_ || _); only_auto.
Qed.
Lemma textless_no_upgrade argv a : textless argv a -> no_upgrade a.
Proof. destruct a; try done. simpl. by intros Hm ->. Qed.
Lemma create_no_upgrade st app_id cf e stopped :
  only no_upgrade (create_vm GATEWAY_RPC KMS_URLS st app_id cf e stopped).
Proof.
  unfold create_vm, create_vm_params. apply only_bind; [apply only_bind; [by apply ports_only|]|].
  - intros ports. apply only_bind; [unfold seal; by only_auto|]. intros enc. apply only_ret.
  - intros p. by apply only_act.
Qed.
Lemma compose_no_upgrade {B} b st keys (f : string * string -> prog B) :
  (forall c, only no_upgrade (f c)) -> only no_upgrade (c ← app_compose_and_hash b st keys; f c).
Proof. intros Hf. apply only_bind; [unfold app_compose_and_hash; by only_auto|done]. Qed.
Lemma print_no_upgrade argv p : only (textless argv) p -> only no_upgrade (print_row (F := F) p).
Proof.
  intros Hp. unfold print_row. apply only_bind; [eapply only_mono; [apply textless_no_upgrade|exact Hp]|].
  intros d. by apply only_act.
Qed.
Lemma sandboxd_modes_safe pl argv st h :
  wp upgrade_is_safe (sandboxd_modes env GATEWAY_RPC KMS_URLS pl argv st) h (fun _ _ => True).
Proof.
  assert (forall p : prog unit, only no_upgrade p -> wp upgrade_is_safe p h (fun _ _ => True)) as Hno
    by (intros p Hp; by apply (wp_only no_upgrade); [|apply no_upgrade_safe|]).
  assert (forall b m o (k : string -> prog unit), (forall id, only no_upgrade (k id)) -> only no_upgrade (with_id b m o argv k)) as Hid.
  { intros b m o k Hk. unfold with_id. destruct (bool_decide _); [apply only_ret|apply Hk]. }
  unfold sandboxd_modes. destruct (undersized st); [|done]. cbv zeta.
  destruct (bool_decide _).
  { apply Hno. unfold deploy_sandboxd. apply compose_no_upgrade. intros c. apply only_bind; [by apply only_act|]. intros a.
    apply only_bind; [apply create_no_upgrade|]. intros r. by only_auto. }
  destruct (bool_decide _).
  { apply Hno, Hid. intros a. unfold create_replacement_vm. apply compose_no_upgrade. intros c.
    apply only_bind; [apply create_no_upgrade|]. intros r. by only_auto. }
  destruct (bool_decide _); [apply Hno; unfold hash; apply compose_no_upgrade; intros c; by apply only_act|].
  destruct (bool_decide _); [apply Hno, Hid; intros a; apply (print_no_upgrade argv), quiet_inventory|].
  destruct (bool_decide _); [apply Hno, Hid; intros a; apply (print_no_upgrade argv), quiet_start_exact|].
  destruct (bool_decide _); [apply Hno, Hid; intros a; apply (print_no_upgrade argv), quiet_stop_exact|].
  destruct (bool_decide _); [apply Hno, Hid; intros a; apply (print_no_upgrade argv), quiet_describe|].
  destruct (bool_decide _); [unfold with_ids; destruct (_ || _); [done|apply upgrade_sandboxd_safe]|].
  destruct (bool_decide _); [unfold with_ids; destruct (_ || _); [done|apply upgrade_sandboxd_safe]|]. done.
Qed.
(** C9: Whatever it is asked, the sandbox daemon's script upgrades a machine only when the last
    thing the monitor said was that this very machine is exactly stopped. *)
Theorem upgraded_machine_is_stopped pl argv a k h :
  steps (sandboxd_main env GATEWAY_RPC KMS_URLS pl argv) [] (POp a k) h -> upgrade_is_safe h a.
Proof.
  apply wp_guard with (Q := fun _ _ => True). unfold sandboxd_main, script. apply wp_bind. cbn [wp].
  destruct (read_settings env (sandboxd_box pl)) as [st|e]; [apply sandboxd_modes_safe|done].
Qed.
End rules.
