(* ===== verification/NodeJournal.v ===== *)
(** * Node boxes: replacing a machine, over interrupted runs

    Runs of [recreate] for one application and one machine, started again after they were
    interrupted, or side by side: the machine is gone before another is created.  The monitor
    says that a machine is not found only when there is none, keeps a machine until it is
    removed, and uses no identifier again; a file holds what was last put in its place. *)

From stdpp Require Import base option list sets strings.
From Stdlib Require Import ZArith Lia Ascii.
From S2P Require Import Prelude PyStr StrFacts PyFloat Json JsonParse Sha256 Effects BudgetConfig AdminCore.
From S2P Require Import NodeBox NodeScripts NodeRecreate NodeFacts.

Local Open Scope Z_scope.

(** The machines there are, the journal and the file beside it *)
Record monitor := { mn_vms : list string; mn_file : option string; mn_tmp : option string }.
Definition with_vms (vms : list string) (m : monitor) : monitor :=
  {| mn_vms := vms; mn_file := mn_file m; mn_tmp := mn_tmp m |}.

Section journal.
Context {F : Type} `{PyFloat F}.
Abbreviation prog := (@Effects.prog (box_effect (F := F))).
Abbreviation hist := (@Effects.hist (box_effect (F := F))).
Abbreviation act_of := (@action (box_effect (F := F))).
Abbreviation event_of := (@event (box_effect (F := F))).
Variable env : environ.
Variables (GATEWAY_RPC : string) (KMS_URLS : list string).
Variables (app_id old : string) (st : settings (F := F)).
Abbreviation jn := (journal_of env (NAME st) app_id old).
Abbreviation recreate_again := (generic_main env GATEWAY_RPC KMS_URLS ["recreate"%string; app_id; old]).

(** ** The outside *)

Definition removed (p : odict (json F)) (vms : list string) : list string :=
  List.filter (fun v => negb (eq_str v (field "id" p))) vms.
Definition tell (m : monitor) (a : act_of) : result (answer a) -> monitor -> Prop :=
  match a with
  | Vmm method p => fun r m' =>
      if String.eqb method "GetInfo" then
        m' = m /\ forall response x, r = Ok (JObj response) -> field "id" p = JStr x ->
          found_or_true response = false -> x ∉ mn_vms m
      else if String.eqb method "RemoveVm" then
        m' = with_vms (removed p (mn_vms m)) m \/ (is_ok r = false /\ m' = m)
      else if String.eqb method "CreateVm" then
        m' = m \/ exists new, new <> old /\ (new ∉ mn_vms m) /\ m' = with_vms (new :: mn_vms m) m
      else m' = m
  | ReadText path => fun r m' =>
      m' = m /\ forall text, r = Ok text -> path = jn_path jn -> mn_file m = Some text
  | WriteJson path j => fun r m' =>
      if bool_decide (path = jn_tmp jn) then
        mn_vms m' = mn_vms m /\ mn_file m' = mn_file m /\ (is_ok r = true -> mn_tmp m' = Some (dumps j))
      else m' = m
  | Replace path target => fun r m' =>
      if bool_decide (path = jn_tmp jn /\ target = jn_path jn) then
        m' = {| mn_vms := mn_vms m; mn_file := mn_tmp m; mn_tmp := None |} \/ (is_ok r = false /\ m' = m)
      else m' = m
  | _ => fun _ m' => m' = m
  end.

(** ** What a run knows *)

(** An answer that says that the old machine is gone: a journal was there, the monitor did
    not find the machine, or removed it. *)
Definition says_gone (e : event_of) : Prop :=
  match e with
  | Ev (ReadText path) (Ok _) => path = jn_path jn
  | Ev (Vmm method p) (Ok j) =>
      field "id" p = JStr old /\
      (method = "RemoveVm"%string \/
       (method = "GetInfo"%string /\ exists response, j = JObj response /\ found_or_true response = false))
  | _ => False
  end.
Definition gone (h : hist) : Prop := happened says_gone h.
(** A machine is created and a journal is written only then. *)
Definition after_gone (h : hist) (a : act_of) : Prop :=
  match a with
  | Vmm method _ => method = "CreateVm"%string -> gone h
  | WriteJson _ _ => gone h
  | _ => True
  end.
Definition idle (a : act_of) : Prop :=
  match a with Vmm method _ => method <> "CreateVm"%string | WriteJson _ _ => False | _ => True end.
Lemma idle_after h a : idle a -> after_gone h a.
Proof. destruct a; try done. simpl. intros Hm Hc. by destruct (Hm Hc). Qed.
Lemma after_later h a : gone h -> after_gone h a.
Proof. intros Hg. destruct a; simpl; auto. Qed.
Lemma gone_keeps {A} (p : prog A) h Q : gone h -> (forall h r, gone h -> Q h r) -> wp after_gone p h Q.
Proof.
  intros Hg HQ. assert (keeps after_gone gone p) as Hk.
  { eapply (keeps_only _ _ (fun _ => True)).
    - intros h'. by apply (wp_stable (fun _ => True)).
    - intros h' a Hh _. by apply after_later.
    - intros h' a r Hh _. by apply happened_later. }
  eapply wp_post; [by apply Hk|]. intros h' r Hh. by apply HQ.
Qed.

Lemma journal_read h :
  wpo after_gone (read_journal jn) h
    (fun h' state => truthy (field "old_vm_removed" state) = true -> gone h').
Proof.
  unfold read_journal. apply wpo_bind. apply wp_pbind. apply wp_bind. split; [done|]. intros r. cbn [wp].
  destruct r as [text|e]; cbn [wp].
  - destruct (json_loads text) as [j|e]; [|by destruct (bool_decide _)]. apply wp_post with (Q := fun h' _ => gone h').
    + by left.
    + intros h' r' Hg. destruct r' as [j'|e]; [|done]. apply (wpo_ret after_gone). by intros state _ _.
  - destruct (bool_decide _); [|done]. cbn [wp]. apply (wpo_ret after_gone). by intros state [= <-].
Qed.
Lemma vm_found_idle vm_id : only idle (vm_found (F := F) vm_id).
Proof. unfold vm_found, get_info. destruct (bool_decide _); [apply only_ret|]. by only_auto. Qed.
Lemma idle_then {A} (p : prog A) h (Q : hist -> result A -> Prop) :
  only idle p -> (forall h r, Q h r) -> wp after_gone p h Q.
Proof. intros Hp HQ. apply (wp_only idle); [done|apply idle_after|]. intros evs r _ _. apply HQ. Qed.
Hypothesis Hold : old <> EmptyString.
Lemma old_found h : wpo after_gone (vm_found old) h (fun h' found => found = false -> gone h').
Proof.
  unfold vm_found, get_info. rewrite bool_decide_false by done. apply wpo_bind, wpo_bind. split; [done|]. intros r.
  cbn [wp]. destruct r as [j|e]; [|done]. apply (wpo_ret after_gone). intros response Hj.
  assert (j = JObj response) as -> by (destruct j; naive_solver). apply wpo_mret. intros Hf. left.
  split; [done|]. right. split; [done|]. by exists response.
Qed.
Lemma old_removed h : wpo after_gone (remove_old (F := F) old) h (fun h' _ => gone h').
Proof.
  unfold remove_old. apply wpo_bind. apply idle_then; [by only_auto|]. intros h1 [u|e]; [|done].
  apply wpo_bind. apply idle_then.
  { generalize POLLS. intros n. induction n as [|n IH]; cbn [wait_down]; [apply only_ret|].
    apply only_bind; [unfold get_info; by only_auto|]. intros r. apply only_bind; [apply only_ret|]. intros status.
    destruct (_ || _); [apply only_ret|]. by only_auto. }
  intros h2 [u2|e]; [|done]. unfold wpo. apply wp_try, wp_bind. split; [done|]. intros r. cbn [wp].
  destruct r as [j|e]; cbn [wp mret prog_ret].
  - left. split; [done|]. by left.
  - destruct (is_exception e); [|done]. apply wp_bind. eapply wp_post; [apply old_found|]. intros h3 [[|]|e'] Hf; [done| |done].
    by apply Hf.
Qed.
Lemma recreate_vm_waits cf sealed h :
  wp after_gone (recreate_vm env GATEWAY_RPC KMS_URLS st app_id old cf sealed) h (fun _ _ => True).
Proof.
  unfold recreate_vm. cbv zeta. apply wp_bind. eapply wp_post; [apply journal_read|]. intros h1 [state|e] Hs; [|done].
  apply wp_bind. eapply wp_post with (Q := fun h' _ => truthy (field "old_vm_removed" state) = true -> gone h').
  { apply (wp_only idle); [apply vm_found_idle|apply idle_after|]. intros evs r _ _ Ht. apply happened_app. by apply Hs. }
  intros h2 [kept|e] Hs2; [|done]. destruct kept; [done|]. apply wp_bind.
  assert (wpo after_gone (remove_once jn app_id old state) h2 (fun h' _ => gone h')) as Hr.
  { unfold remove_once. destruct (truthy _); [apply wpo_mret; by apply Hs2|]. apply wpo_bind.
    eapply wpo_post; [apply old_found|]. intros h3 found Hf. apply wpo_bind.
    assert (wpo after_gone (if found then remove_old old else mret tt) h3 (fun h' _ => gone h')) as Hg.
    { destruct found; [apply old_removed|]. apply wpo_mret. by apply Hf. }
    eapply wpo_post; [exact Hg|]. intros h4 [] Hg4. unfold wpo. apply gone_keeps; [done|]. intros h5 [r|e] Hg5; done. }
  eapply wp_post; [exact Hr|]. intros h3 [state'|e] Hg; [|done]. by apply gone_keeps.
Qed.
Lemma recreate_waits h :
  read_settings env generic_box = Ok st ->
  wp after_gone recreate_again h (fun _ _ => True).
Proof.
  intros Hst. unfold generic_main. cbv zeta. apply wp_bind. apply idle_then.
  { destruct (bool_decide _); [apply only_ret|by apply only_act]. }
  intros h1 [u|e]; [|done]. unfold script. rewrite Hst. apply wp_bind. cbn [wp]. unfold workload_main.
  change (mode_of _) with "recreate"%string. cbv zeta. repeat rewrite bool_decide_false by done.
  rewrite bool_decide_true by done. unfold with_ids. destruct (_ || _); [done|]. change (arg _ 1) with app_id.
  change (arg _ 2) with old. unfold recreate. cbv zeta. apply wp_bind. apply idle_then.
  { unfold app_compose_and_hash. by only_auto. }
  intros h2 [c|e]; [|done]. apply wp_bind. eapply wp_post; [apply recreate_vm_waits|]. intros h3 [r|e] _; [|done]. by split.
Qed.

(** ** All runs *)

Abbreviation sys_of := (@sys (box_effect (F := F)) monitor unit).
Definition recreations (vms : list string) : sys_of -> Prop :=
  reachable tell (fun _ => True) (fun _ => recreate_again) {| mn_vms := vms; mn_file := None; mn_tmp := None |}.
(** What the log or a journal says is so. *)
Record truthful (s : sys_of) : Prop := {
  tr_log : forall i e, (i, e) ∈ sy_log s -> says_gone e -> old ∉ mn_vms (sy_mem s);
  tr_files : is_Some (mn_file (sy_mem s)) \/ is_Some (mn_tmp (sy_mem s)) -> old ∉ mn_vms (sy_mem s);
}.
Lemma tell_keeps_gone m a r m' : tell m a r m' -> old ∉ mn_vms m -> old ∉ mn_vms m'.
Proof.
  intros Ht Hn. destruct a; simpl in Ht; try (by subst).
  - by destruct Ht as [-> _].
  - destruct (String.eqb method "GetInfo"); [by destruct Ht as [-> _]|]. destruct (String.eqb method "RemoveVm").
    { destruct Ht as [->|[_ ->]]; [|done]. simpl. unfold removed. intros Hin. apply list_elem_of_In, filter_In in Hin as [Hin _].
      by apply Hn, list_elem_of_In. }
    destruct (String.eqb method "CreateVm"); [|by subst]. destruct Ht as [->|(new & Hne & _ & ->)]; [done|]. simpl. set_solver.
  - case_bool_decide; [by destruct Ht as [-> _]|by subst].
  - case_bool_decide; [|by subst]. by destruct Ht as [->|[_ ->]].
Qed.
Lemma tell_says m a r m' :
  tell m a r m' -> says_gone (Ev a r) -> (is_Some (mn_file m) -> old ∉ mn_vms m) -> old ∉ mn_vms m'.
Proof.
  intros Ht Hs Hf. destruct a; try done; destruct r as [v|e]; try done; simpl in Ht, Hs.
  - destruct Ht as [-> Ht]. apply Hf. rewrite (Ht v); [done|done|exact Hs].
  - destruct Hs as [Hp [->|[-> (response & -> & Hr)]]]; simpl in Ht.
    + destruct Ht as [->|[? _]]; [|done]. simpl. unfold removed. intros Hin. apply list_elem_of_In, filter_In in Hin as [_ Hin].
      rewrite Hp in Hin. simpl in Hin. by rewrite bool_decide_true in Hin.
    + destruct Ht as [-> Ht]. by apply (Ht response).
Qed.
Lemma tell_files m a r m' :
  tell m a r m' -> is_Some (mn_file m') \/ is_Some (mn_tmp m') ->
  (is_Some (mn_file m) \/ is_Some (mn_tmp m)) \/ exists path j, a = WriteJson path j.
Proof.
  intros Ht Hf. destruct a; simpl in Ht; try (by subst; left).
  - left. by destruct Ht as [-> _].
  - left. destruct (String.eqb method "GetInfo"); [by destruct Ht as [-> _]|].
    destruct (String.eqb method "RemoveVm"); [by destruct Ht as [->|[_ ->]]|].
    destruct (String.eqb method "CreateVm"); [|by subst]. by destruct Ht as [->|(new & _ & _ & ->)].
  - right. by exists path, j.
  - left. case_bool_decide; [|by subst]. destruct Ht as [->|[_ ->]]; [|done]. simpl in Hf.
    destruct Hf as [Hf|Hf]; [by right|by destruct Hf].
Qed.
Hypothesis Hst : read_settings env generic_box = Ok st.
Lemma task_after_gone vms s i t a k :
  recreations vms s -> sy_tasks s !! i = Some t -> tk_rest t = POp a k -> after_gone (tk_hist t) a.
Proof. intros Hr Ht Ha. by apply (reachable_guard _ _ _ _ _ i t a k _ _ Hr Ht Ha (recreate_waits [] Hst)). Qed.
Lemma gone_logged vms s i t :
  recreations vms s -> truthful s -> sy_tasks s !! i = Some t -> gone (tk_hist t) -> old ∉ mn_vms (sy_mem s).
Proof.
  intros Hr Htr Ht Hg. destruct (proj1 (reachable_well_run _ _ _ _ _ Hr) i t Ht) as (_ & _ & Hh).
  unfold gone, happened in Hg. apply Exists_exists in Hg as (e & Hin & He). rewrite Hh in Hin.
  apply seen_by_elem in Hin. by apply (tr_log s Htr i e).
Qed.
Lemma recreations_truthful vms s : recreations vms s -> truthful s.
Proof.
  apply reachable_invariant.
  { split; [by intros i e ?%not_elem_of_nil|]. simpl. intros [Hf|Hf]; by destruct Hf. }
  intros s1 s2 Hr Htr Hs. pose proof (tr_log s1 Htr) as Hlog. pose proof (tr_files s1 Htr) as Hfiles.
  destruct Hs as [m ts l j|m m' ts l i j a k h r Hi Ha]; [by split|]. simpl in *. split; simpl.
  - intros i' e [[= -> ->]|Hin]%elem_of_cons He.
    + apply (tell_says _ _ _ _ Ha He). intros Hf. apply Hfiles. by left.
    + eapply tell_keeps_gone; [exact Ha|]. by eapply Hlog.
  - intros Hf. destruct (tell_files _ _ _ _ Ha Hf) as [Hf'|(path & jj & ->)].
    + eapply tell_keeps_gone; [exact Ha|]. by apply Hfiles.
    + eapply tell_keeps_gone; [exact Ha|].
      by apply (gone_logged vms _ i _ Hr Htr Hi), (task_after_gone vms _ i _ _ k Hr Hi).
Qed.
Definition creates (a : act_of) : bool := match a with Vmm method _ => String.eqb method "CreateVm" | _ => false end.
(** C5: However often a replacement is interrupted and started again, and whatever runs side by
    side: when a machine is about to be created, the one it replaces is gone. *)
Theorem replacement_waits_for_removal vms s i t a k :
  recreations vms s -> sy_tasks s !! i = Some t -> tk_rest t = POp a k -> creates a = true ->
  old ∉ mn_vms (sy_mem s).
Proof.
  intros Hr Ht Ha Hc. apply (gone_logged vms s i t Hr (recreations_truthful vms s Hr) Ht).
  pose proof (task_after_gone vms s i t _ k Hr Ht Ha) as Hg. destruct a; try discriminate Hc.
  apply Hg. by apply String.eqb_eq.
Qed.

(** A replacement that the journal names, and that the monitor finds, is given back: nothing
    else is asked, and nothing is created. *)
Theorem recorded_replacement_is_kept cf sealed text d response :
  json_loads text = Ok (JObj d) -> recorded_replacement d <> EmptyString -> found_or_true response = true ->
  exists k k',
    recreate_vm env GATEWAY_RPC KMS_URLS st app_id old cf sealed = POp (E := box_effect (F := F)) (ReadText (jn_path jn)) k /\
    k (Ok text) = POp (E := box_effect (F := F)) (Vmm "GetInfo" (id_param (recorded_replacement d))) k' /\
    k' (Ok (JObj response)) = PRet (Ok (recorded_replacement d)).
Proof.
  intros Hl Hd Hf. unfold recreate_vm, read_journal. cbv zeta. eexists _, _. split; [reflexivity|].
  cbn -[recorded_replacement found_or_true vm_found json_loads]. rewrite Hl.
  cbn -[recorded_replacement found_or_true vm_found]. unfold vm_found, get_info.
  rewrite bool_decide_false by done. split; [reflexivity|].
  cbn -[recorded_replacement found_or_true]. by rewrite Hf.
Qed.
End journal.
