(* ===== verification/NodeDemo.v ===== *)
(** * Node boxes: concrete runs

    The theorems about the scripts applied to one environment and one monitor, and two runs
    whose outcome the sources do not mean: a replacement interrupted just after its machine
    was created, and a fresh machine created while the old one could not be stopped. *)

From stdpp Require Import base option list sets strings.
From Stdlib Require Import ZArith Lia Ascii SpecFloat.
From S2P Require Import Prelude PyStr StrFacts PyFloat Json JsonParse Sha256 Effects BudgetConfig AdminCore.
From S2P Require Import NodeBox NodeScripts NodeRecreate NodeSandboxd NodeFacts NodeRules NodeJournal.

Local Open Scope Z_scope.

Abbreviation fl := spec_float.
Abbreviation act_t := (@action (box_effect (F := fl))).
Abbreviation sys_t := (@sys (box_effect (F := fl)) monitor unit).

(** ** The outside *)

Definition demo_env : environ := fun k => if bool_decide (k = "E_CLUSTER"%string) then Some "c1"%string else None.
Definition fresh_env : environ := fun k => if bool_decide (k = "BOX_FRESH_DISK"%string) then Some "1"%string else None.
Definition COMPOSE_TEXT : string := "services: {}".
Definition settings_of (b : box) : settings (F := fl) :=
  match read_settings demo_env b with
  | Ok st => st
  | Raise _ => {| NAME := ""; VM_NAME := ""; COMPOSE_PATH := ""; VCPU := 0; MEM := 0; DISK := 0; PORTS := JNull; NET_MODE := "";
                  GATEWAY_ENABLED := false; NO_INSTANCE_ID := false |}%string
  end.
Definition APP : string := "0xA1".
Definition OLD : string := "vm-old".
Definition status_answer (status : string) (config : odict (json fl)) : json fl :=
  JObj [("found", JBool true); ("info", JObj [("status", JStr status); ("configuration", JObj config)])]%string.
Definition CONFIG : odict (json fl) := [("vcpu", JInt 1); ("memory", JInt 1024); ("disk_size", JInt 80)]%string.
(** What the other actions answer *)
Definition plain_answer (a : baction (F := fl)) : result (banswer a) :=
  match a with
  | ReadText _ => Ok COMPOSE_TEXT
  | VmLogs _ _ | EncryptPubkey _ | SealEnv _ _ => Ok "x"%string
  | DeployAppContract _ => Ok APP
  | Vmm _ _ | VmmStatus | ParsePort _ | DeployApp _ _ _ _ _ _ _ _ => Ok (JObj [])
  | Post _ _ => Ok (200, "{}"%string)
  | _ => Ok tt
  end.
(** A monitor that always answers with the same status *)
Definition steady (status : string) (a : act_t) (u : unit) : result (answer a) * unit :=
  (match a as b return result (banswer b) with
   | Vmm method p => Ok (if String.eqb method "GetInfo" then status_answer status CONFIG else JObj [])
   | b => plain_answer b
   end, u).
Definition is_method (name : string) (a : act_t) : bool :=
  match a with Vmm method _ | Post method _ => String.eqb method name | _ => false end.
Abbreviation arrive name status p := (reach (is_method name) (steady status) p tt []).
Abbreviation ssh := (ssh_main (F := fl) demo_env "g" []).
Abbreviation demo_nodes := (nodes (F := fl) demo_env "r" "g" [] "true" "true" "true").

(** ** Witnesses: one run of one script *)

Definition ssh_argv : list string := ["update"; APP; OLD]%string.
Definition at_upgrade := arrive "UpgradeApp" "stopped" (ssh ssh_argv).
Definition upgrade_action : act_t := default VmmStatus (next_action at_upgrade.1).
Lemma at_upgrade_performs : exists k, steps (ssh ssh_argv) [] (POp upgrade_action k) at_upgrade.2.
Proof. apply (reach_performs (is_method "UpgradeApp") (steady "stopped")). by vm_compute. Qed.
Lemma ssh_listed : exists nd, nd ∈ demo_nodes /\ nd_main nd = ssh /\ nd_settings nd = Ok (settings_of ssh_box) /\ nd_box nd = ssh_box.
Proof. eexists. split; [left|]. split; [reflexivity|]. split; [vm_compute; reflexivity|reflexivity]. Qed.
Lemma scripts_measure_one_text_witness :
  is_method "UpgradeApp" upgrade_action = true /\
  of_one_text ssh_box (settings_of ssh_box) ssh_argv at_upgrade.2 upgrade_action.
Proof.
  destruct ssh_listed as (nd & Hin & Hmain & Hst & Hbox). destruct at_upgrade_performs as [k Hk].
  split; [vm_compute; reflexivity|]. rewrite <- Hmain in Hk.
  pose proof (scripts_measure_one_text demo_env "r" "g" [] _ _ _ nd _ ssh_argv _ _ k Hin Hst Hk) as Hw.
  by rewrite Hbox in Hw.
Defined.
Lemma update_keeps_the_machine_witness :
  is_method "UpgradeApp" upgrade_action = true /\ on_machine OLD upgrade_action.
Proof.
  destruct ssh_listed as (nd & Hin & Hmain & _ & _). destruct at_upgrade_performs as [k Hk].
  split; [vm_compute; reflexivity|]. rewrite <- Hmain in Hk.
  exact (update_keeps_the_machine demo_env "r" "g" [] _ _ _ nd APP OLD _ k _ eq_refl ltac:(discriminate) Hin Hk).
Defined.

Abbreviation pg_ha := (pg_ha_main (F := fl) demo_env "r" "g" []).
Definition at_resize := arrive "ResizeVm" "stopped" (pg_ha ["resize"; OLD]%string).
Definition resize_action : act_t := default VmmStatus (next_action at_resize.1).
Lemma resize_never_shrinks_witness :
  resize_action = Vmm "ResizeVm" (id_param OLD ++ sizes_row {| sz_vcpu := 2; sz_memory := 4096; sz_disk := 80 |}) /\
  sized (settings_of pg_ha_box) at_resize.2 resize_action.
Proof.
  split; [vm_compute; reflexivity|].
  destruct (reach_performs (is_method "ResizeVm") (steady "stopped") (pg_ha ["resize"; OLD]%string) tt [] resize_action) as [k Hk];
    [vm_compute; reflexivity|].
  eapply (resize_never_shrinks demo_env "r" "g" [] (settings_of pg_ha_box) OLD); [vm_compute; reflexivity|exact Hk].
Defined.

Abbreviation sandboxd := (sandboxd_main (F := fl) demo_env "g" [] "true").
Definition at_sandboxd := arrive "UpgradeApp" "exited" (sandboxd ["upgrade-stopped"; APP; OLD]%string).
Definition sandboxd_action : act_t := default VmmStatus (next_action at_sandboxd.1).
Lemma upgraded_machine_is_stopped_witness :
  is_method "UpgradeApp" sandboxd_action = true /\ upgrade_is_safe at_sandboxd.2 sandboxd_action.
Proof.
  split; [vm_compute; reflexivity|].
  destruct (reach_performs (is_method "UpgradeApp") (steady "exited") (sandboxd ["upgrade-stopped"; APP; OLD]%string) tt [] sandboxd_action)
    as [k Hk]; [vm_compute; reflexivity|].
  by apply (upgraded_machine_is_stopped demo_env "g" [] "true" ["upgrade-stopped"; APP; OLD]%string _ k).
Defined.

(** ** Runs of a replacement *)

Definition generic_settings : settings (F := fl) := Eval vm_compute in settings_of generic_box.
Definition demo_journal : journal := Eval vm_compute in journal_of demo_env (NAME generic_settings) APP OLD.
Lemma generic_read : read_settings demo_env generic_box = Ok generic_settings.
Proof. vm_compute. reflexivity. Qed.
Lemma journal_placed : journal_of demo_env (NAME generic_settings) APP OLD = demo_journal.
Proof. vm_compute. reflexivity. Qed.
Definition no_file : exn := OtherError "FileNotFoundError" "No such file or directory".
Definition new_id (m : monitor) : string := "vm-new-" +:+ str_of_Z (Z.of_nat (length (mn_vms m))).
(** A monitor that does what it is asked, and files that keep what is written *)
Definition called (method : string) (p : odict (json fl)) (m : monitor) : result (json fl) * monitor :=
  if String.eqb method "GetInfo" then
    (Ok (if existsb (fun v => eq_str v (field "id" p)) (mn_vms m) then status_answer "stopped" CONFIG
         else JObj [("found"%string, JBool false)]), m)
  else if String.eqb method "RemoveVm" then (Ok (JObj []), with_vms (removed p (mn_vms m)) m)
  else if String.eqb method "CreateVm" then
    if bool_decide (new_id m = OLD \/ new_id m ∈ mn_vms m) then (Raise no_file, m)
    else (Ok (JObj [("id"%string, JStr (new_id m))]), with_vms (new_id m :: mn_vms m) m)
  else (Ok (JObj []), m).
Definition demo_answer (a : act_t) (m : monitor) : result (answer a) * monitor :=
  match a as b return result (banswer b) * monitor with
  | Vmm method p => called method p m
  | ReadText path =>
      (if bool_decide (path = jn_path demo_journal)
       then match mn_file m with Some text => Ok text | None => Raise no_file end
       else Ok COMPOSE_TEXT, m)
  | WriteJson path j =>
      (Ok tt, if bool_decide (path = jn_tmp demo_journal)
              then {| mn_vms := mn_vms m; mn_file := mn_file m; mn_tmp := Some (dumps j) |} else m)
  | Replace path target =>
      (Ok tt, if bool_decide (path = jn_tmp demo_journal /\ target = jn_path demo_journal)
              then {| mn_vms := mn_vms m; mn_file := mn_tmp m; mn_tmp := None |} else m)
  | b => (plain_answer b, m)
  end.
Abbreviation demo_tell := (tell demo_env APP OLD generic_settings).
Lemma found_now p m response x :
  (called "GetInfo" p m).1 = Ok (JObj response) -> field "id" p = JStr x -> found_or_true response = false -> x ∉ mn_vms m.
Proof.
  intros Hr Hp Hf Hin. unfold called in Hr. simpl in Hr.
  assert (existsb (fun v => eq_str v (field "id" p)) (mn_vms m) = true) as He.
  { apply existsb_exists. exists x. split; [by apply list_elem_of_In|]. rewrite Hp. by apply bool_decide_true. }
  rewrite He in Hr. injection Hr as <-. discriminate Hf.
Qed.
Lemma demo_tells m a : demo_tell m a (demo_answer a m).1 (demo_answer a m).2.
Proof.
  destruct a; try done; unfold tell; rewrite ?journal_placed; simpl demo_answer.
  - split; [done|]. intros text Hr Hp. rewrite bool_decide_true in Hr by done. destruct (mn_file m); [|done]. by injection Hr as ->.
  - unfold called. destruct (String.eqb method "GetInfo") eqn:Eg.
    { apply String.eqb_eq in Eg as ->. split; [done|]. intros response x Hr Hp Hf. by apply (found_now params m response x). }
    destruct (String.eqb method "RemoveVm"); [by left|]. destruct (String.eqb method "CreateVm"); [|done].
    case_bool_decide as Hn; [by left|]. right. exists (new_id m). naive_solver.
  - simpl. by destruct (bool_decide _).
  - simpl. destruct (bool_decide _); [by left|done].
Qed.
Abbreviation demo_recreations := (recreations demo_env "g" [] APP OLD generic_settings).
Abbreviation again := (generic_main (F := fl) demo_env "g" [] ["recreate"; APP; OLD]%string).
Definition begin (s : sys_t) : sys_t := spawn (fun _ => again) tt s.
Definition until (stop : act_t -> bool) (i : nat) (s : sys_t) : sys_t := run_task 60 stop demo_answer i s.
Definition start (vms : list string) : sys_t := Sys {| mn_vms := vms; mn_file := None; mn_tmp := None |} [] [].
Lemma begin_recreates vms s : demo_recreations vms s -> demo_recreations vms (begin s).
Proof. by apply spawn_reachable. Qed.
Lemma until_recreates vms stop i s : demo_recreations vms s -> demo_recreations vms (until stop i s).
Proof. apply run_task_reachable. intros m a _. apply demo_tells. Qed.
Lemma start_recreates vms : demo_recreations vms (start vms).
Proof. apply reach_start. Qed.
Ltac recreates := repeat first [apply until_recreates | apply begin_recreates | apply start_recreates].
Definition never (a : act_t) : bool := false.
(** The journal that names the replacement is about to be written. *)
Definition names_replacement (a : act_t) : bool :=
  match a with WriteJson _ j => contains "replacement_vm_id" (dumps j) | _ => false end.

(** One run, and one more: the machine is replaced once. *)
Example replaced_once : mn_vms (sy_mem (until never 1 (begin (until never 0 (begin (start [OLD])))))) = ["vm-new-0"%string].
Proof. vm_compute. reflexivity. Qed.

(** A replacement that is interrupted when its machine is created and not yet named in the
    journal is not resumed: the next run creates another machine for the application. *)
Theorem interrupted_create_is_repeated : exists s,
  demo_recreations [OLD] s /\
  (exists path j, next_of 0 s = Some (Some (WriteJson path j))) /\
  (exists t, sy_tasks s !! 1%nat = Some t /\ tk_rest t = PRet (Ok tt)) /\
  mn_vms (sy_mem s) = ["vm-new-1"; "vm-new-0"]%string.
Proof.
  exists (until never 1 (begin (until names_replacement 0 (begin (start [OLD]))))). split; [recreates|].
  split; [eexists _, _; vm_compute; reflexivity|]. split; [|vm_compute; reflexivity].
  eexists. split; vm_compute; reflexivity.
Qed.

Definition at_create : sys_t := until (is_method "CreateVm") 0 (begin (start [OLD; "vm-other"%string])).
Lemma replacement_waits_for_removal_witness :
  (exists a, next_of 0 at_create = Some (Some a) /\ creates a = true) /\ OLD ∉ mn_vms (sy_mem at_create).
Proof.
  assert (exists a, next_of 0 at_create = Some (Some a) /\ creates a = true) as (a & Ha & Hc)
    by (eexists; split; [vm_compute; reflexivity|reflexivity]).
  destruct (next_of_performs _ _ _ Ha) as (t & k & Ht & Hk). split; [exact (ex_intro _ a (conj Ha Hc))|].
  refine (replacement_waits_for_removal demo_env "g" [] APP OLD generic_settings _ generic_read [OLD; "vm-other"%string] at_create
            0%nat t a k _ Ht Hk Hc); [discriminate|unfold at_create; recreates].
Defined.

Definition recorded : odict (json fl) := dset "replacement_vm_id" (JStr "vm-2"%string) (removed_state APP OLD).
Lemma recorded_replacement_is_kept_witness :
  exists k k',
    recreate_vm (F := fl) demo_env "g" [] generic_settings APP OLD "cf" [] = POp (E := box_effect (F := fl)) (ReadText (jn_path demo_journal)) k /\
    k (Ok (dumps (JObj recorded))) = POp (E := box_effect (F := fl)) (Vmm "GetInfo" (id_param "vm-2")) k' /\
    k' (Ok (status_answer "running" [])) = PRet (Ok "vm-2"%string).
Proof.
  rewrite <- journal_placed.
  exact (recorded_replacement_is_kept demo_env "g" [] APP OLD generic_settings "cf" [] (dumps (JObj recorded)) recorded
           [("found", JBool true); ("info", JObj [("status", JStr "running"); ("configuration", JObj [])])]%string
           ltac:(vm_compute; reflexivity) ltac:(vm_compute; discriminate) ltac:(vm_compute; reflexivity)).
Defined.

(** ** A machine that is not stopped *)

(** A monitor that refuses to stop the machine *)
Definition refusing (a : act_t) (u : unit) : result (answer a) * unit :=
  (match a as b return result (banswer b) with
   | Post method p => if String.eqb method "StopVm" then Raise (OtherError "ConnectTimeout" "timed out") else Ok (200, "{}"%string)
   | b => plain_answer b
   end, u).
(** The homeserver is given a fresh machine although the old one could not be stopped. *)
Theorem fresh_homeserver_beside_the_old : exists a k h,
  steps (matrix_main (F := fl) fresh_env "g" [] ["update"; APP; OLD]%string) [] (POp a k) h /\
  is_method "CreateVm" a = true /\
  exists e, Ev (E := box_effect (F := fl)) (Post "StopVm" (id_param OLD)) (Raise e) ∈ h.
Proof.
  destruct (reach_performs (is_method "CreateVm") refusing (matrix_main (F := fl) fresh_env "g" [] ["update"; APP; OLD]%string) tt []
    (default VmmStatus (next_action (reach (is_method "CreateVm") refusing
       (matrix_main (F := fl) fresh_env "g" [] ["update"; APP; OLD]%string) tt []).1))) as [k Hk]; [by vm_compute|].
  eexists _, k, _. split; [exact Hk|]. split; [by vm_compute|]. eexists. vm_compute. left.
Qed.
Lemma reach_steady {A} stop status (p : Effects.prog A) h e :
  e ∈ (reach stop (steady status) p tt h).2 -> e ∈ h \/ exists a, e = Ev a (steady status a tt).1.
Proof.
  revert h. induction p as [r|a k IH|]; intros h; cbn [reach]; [by left| |by left]. destruct (stop a); [by left|].
  destruct (steady status a tt) as [r []] eqn:Ea. intros [[->|Hin]%elem_of_cons|Hex]%IH; [|by left|by right].
  right. exists a. by rewrite Ea.
Qed.
Definition json_answer (e : @event (box_effect (F := fl))) : result (json fl) :=
  match ev_action e as b return result (banswer b) -> result (json fl) with
  | Vmm _ _ => fun r => r
  | _ => fun _ => Ok JNull
  end (ev_answer e).
(** A member of the database cluster is given a second machine while the monitor says that
    the first is running, after every reading. *)
Theorem fresh_member_beside_a_running_one : exists a k h,
  steps (pg_ha_main (F := fl) fresh_env "r" "g" [] ["update"; APP; OLD]%string) [] (POp a k) h /\
  is_method "CreateVm" a = true /\
  forall p r, Ev (E := box_effect (F := fl)) (Vmm "GetInfo" p) r ∈ h -> r = Ok (status_answer "running" CONFIG).
Proof.
  destruct (reach_performs (is_method "CreateVm") (steady "running") (pg_ha_main (F := fl) fresh_env "r" "g" [] ["update"; APP; OLD]%string) tt []
    (default VmmStatus (next_action (reach (is_method "CreateVm") (steady "running")
       (pg_ha_main (F := fl) fresh_env "r" "g" [] ["update"; APP; OLD]%string) tt []).1))) as [k Hk]; [by vm_compute|].
  eexists _, k, _. split; [exact Hk|]. split; [by vm_compute|]. intros p r [Hin|(a & Ha)]%reach_steady.
  - by apply elem_of_nil in Hin.
  - pose proof (f_equal ev_action Ha) as Hm. simpl in Hm. subst a.
    exact (f_equal json_answer Ha).
Qed.
