(* ===== verification/CanaryProxy.v ===== *)
(** * Hindsight canary: the metered proxy

    hindsight-canary/budget_proxy.py: the service of the canary asks its model through this
    proxy, which shares the ledger with the generators, serves one request at a time, and
    stops for good when it does not know whether a request was paid.

    What a handler does before it takes the lock concerns its own request only, and all that
    follows runs under the lock, so a process is the sequence of its requests in the order
    in which they took the lock. A page that is only read may see the middle of a request. *)

From stdpp Require Import base option list strings.
From Stdlib Require Import ZArith Lia Ascii SpecFloat Qcanon.
From S2P Require Import Prelude PyStr PyFloat Json JsonParse Effects Canary Eval CanaryText CanaryLedger.
From S2P Require Import CanarySpend CanaryQuestionFacts AdminCore.

Local Open Scope Z_scope.
Local Open Scope py_scope.

Definition ALLOWED_MODELS : list string := ["openai/gpt-oss-20b"; "openai/gpt-oss-120b"]%string.
Definition COMPLETION_LIMIT : Z := 8192.
Definition BODY_LIMIT : Z := 4000000.

Section proxy.
Context {F : Type} `{PyFloat F}.
Abbreviation row := (odict (json F)).
Abbreviation prog := (@prog (@canary_effect F)).
Variable env : odict string.
Variable timestamp_of : string -> option F.

(** ** [prepare_payload] *)

(** [except (TypeError, ValueError)] *)
Definition is_value_error (e : exn) : bool := match e with ValueError _ => true | _ => false end.
Definition is_type_error (e : exn) : bool := match e with TypeError _ => true | _ => false end.
Definition ceiling_of (maximum : json F) : result Z :=
  try_except (json_int maximum) (fun e =>
    if is_type_error e || is_value_error e then Raise (ValueError "completion-token ceiling must be an integer") else Raise e).
(** [json_schema.get("strict") is True] *)
Definition is_true (o : option (json F)) : bool := match o with Some (JBool true) => true | _ => false end.
Definition is_strict (payload : row) : bool :=
  match dget "response_format" payload with
  | Some (JObj response_format) =>
      match dget "json_schema" response_format with
      | Some (JObj json_schema) => is_true (dget "strict" json_schema)
      | _ => false
      end
  | _ => false
  end.
(** [x in (None, False)] *)
Definition null_or_false (o : option (json F)) : bool :=
  match o with None => true | Some j => py_eq j JNull || py_eq j (JBool false) end.
Definition maximum_of (payload : row) : json F :=
  default (default (JInt COMPLETION_LIMIT) (dget "max_tokens" payload)) (dget "max_completion_tokens" payload).
Definition messages_text (payload : row) : string :=
  dumps (if otruthy (dget "messages" payload) then get_or_null "messages" payload else JArr []).
Definition prepare_payload (value : json F) : result (row * Z * Z) :=
  match value with
  | JObj payload =>
      let model := str_or "model" payload in
      raise! ValueError ("model is outside the canary allowlist: " +:+ model) when negb (bool_decide (model ∈ ALLOWED_MODELS));
      raise! ValueError "streaming is disabled so usage can be metered" when otruthy (dget "stream" payload);
      max_completion_tokens ← ceiling_of (maximum_of payload);
      raise! ValueError "completion-token ceiling must be between 1 and 8192"
        when (max_completion_tokens <=? 0) || (COMPLETION_LIMIT <? max_completion_tokens);
      raise! ValueError "reasoning_effort must be low"
        when negb (is_str "low" (Some (default (JStr "low") (dget "reasoning_effort" payload))));
      raise! ValueError "include_reasoning must be false" when negb (null_or_false (dget "include_reasoning" payload));
      raise! ValueError "strict structured output is disabled for this canary" when is_strict payload;
      let payload := dset "max_completion_tokens" (JInt max_completion_tokens)
                       (dset "include_reasoning" (JBool false) (dset "reasoning_effort" (JStr "low") payload)) in
      let payload := dpop "max_tokens" payload in
      Ok (payload, Z.of_nat (String.length (messages_text payload)), max_completion_tokens)
  | _ => Raise (ValueError "request body must be a JSON object")
  end.

(** ** [ProxyState] *)

Record proxy := {
  px_ledger : ledger (F := F);
  px_state_path : string;
  px_value : row;
}.
Definition with_value (v : row) (s : proxy) : proxy :=
  {| px_ledger := px_ledger s; px_state_path := px_state_path s; px_value := v |}.
Definition with_ledger (l : ledger) (s : proxy) : proxy :=
  {| px_ledger := l; px_state_path := px_state_path s; px_value := px_value s |}.
Definition RESTARTED : string := "ambiguous request found after proxy restart".
Definition opened (reason : string) (v : row) : row := dset "reason" (JStr reason) (dset "circuit_open" (JBool true) v).
Definition save (s : proxy) : prog unit := ask (WriteJson (px_state_path s) (JObj (px_value s))).
Definition open_proxy (ledger_path state_path : string) : prog proxy :=
  l ← open_ledger env ledger_path;
  stored ← ask (ReadJson state_path);
  v ← PRet (match stored with Some j => obj j | None => Ok [("circuit_open", JBool false); ("in_flight", JNull)]%string end);
  let s := {| px_ledger := l; px_state_path := state_path; px_value := v |} in
  if otruthy (dget "in_flight" v) then
    let s := with_value (opened RESTARTED v) s in
    save s;; mret s
  else mret s.

(** ** Requests and replies *)

Record request := {
  rq_get : bool;
  rq_path : string;
  rq_authorization : option string;
  rq_content_length : option string;
  rq_body : string;
}.
(** [NoReply]: the handler ends with this exception, and the connection is closed. A reply
    of the provider is handed on as it came. *)
Inductive reply :=
  | SendJson (status : Z) (value : row)
  | Relay (status : Z) (content : option (json F))
  | NoReply (e : exn).
Definition error_json (message : string) : row := [("error", JObj [("message", JStr message)])]%string.
Definition no_slash (path : string) : string := rstrip_char "/" path.
Variable api_key : string.
Definition is_ascii (s : string) : bool := sall (fun c => (code c <? 128)%N) s.
Definition authorized (rq : request) : result bool :=
  let expected := "Bearer " +:+ api_key in
  let supplied := default EmptyString (rq_authorization rq) in
  raise! TypeError "comparing strings with non-ASCII characters is not supported" when negb (is_ascii expected && is_ascii supplied);
  Ok (bool_decide (expected = supplied)).
Definition do_GET (s : proxy) (rq : request) : reply :=
  if bool_decide (no_slash (rq_path rq) = "/health"%string) then
    SendJson 200
      [("status", JStr (if otruthy (dget "circuit_open" (px_value s)) then "circuit_open" else "healthy"));
       ("spent_usd", default (JInt 0) (dget "spent_usd" (lg_data (px_ledger s))))]%string
  else if bool_decide (no_slash (rq_path rq) = "/v1/models"%string) then
    match authorized rq with
    | Raise e => NoReply e
    | Ok false => SendJson 401 (error_json "invalid canary key")
    | Ok true =>
        SendJson 200
          [("object", JStr "list");
           ("data", JArr (map (fun model => JObj [("id", JStr model); ("object", JStr "model")]%string) (ssort ALLOWED_MODELS)))]%string
    end
  else SendJson 404 (error_json "not found").

(** ** The critical section *)

(** An exception that nothing catches ends the handler; what it changed stays. *)
Definition uncaught {A} (s : proxy) (p : prog A) (f : A -> prog (proxy * reply)) : prog (proxy * reply) :=
  pbind p (fun r => match r with Ok a => f a | Raise e => mret (s, NoReply e) end).
(** [except Exception as exc] around the request *)
Definition ambiguous (s : proxy) (e : exn) : prog (proxy * reply) :=
  if is_exception e then
    let reason := "ambiguous upstream failure: " +:+ exn_name e in
    let s := with_value (opened reason (px_value s)) s in
    uncaught s (save s) (fun _ => mret (s, SendJson 502 (error_json reason)))
  else mret (s, NoReply e).
Definition tried {A} (s : proxy) (p : prog A) (f : A -> prog (proxy * reply)) : prog (proxy * reply) :=
  pbind p (fun r => match r with Ok a => f a | Raise e => ambiguous s e end).
(** The ledger in memory after [record] failed: its amount is set before what may fail;
    the list of calls, which nothing reads again then, is left. *)
Definition charged (l : ledger (F := F)) (model : string) (usage : row) (r : reservation (F := F)) : ledger (F := F) :=
  match
    (input_tokens ← tokens_or (rs_input_tokens r) (reported "prompt_tokens" "input_tokens" usage);
     output_tokens ← tokens_or (rs_output_tokens r) (reported "completion_tokens" "output_tokens" usage);
     p ← prices env model;
     cost ← token_cost p input_tokens output_tokens;
     spent ← float_field "spent_usd" (lg_data l);
     Ok (f_add spent cost))
  with
  | Ok spent => with_data l (dset "spent_usd" (JFloat spent) (lg_data l))
  | Raise _ => l
  end.
Definition reservation_json (r : reservation (F := F)) : json F :=
  JObj [("input_tokens", JInt (rs_input_tokens r)); ("output_tokens", JInt (rs_output_tokens r));
        ("cost_usd", JFloat (rs_cost_usd r))]%string.
Definition landed (s : proxy) : proxy := with_value (dset "in_flight" JNull (px_value s)) s.
(** A reply below 400: it is charged, then nothing is in flight. *)
Definition charge (s : proxy) (model hash : string) (r : reservation) (started_at : string) (status : Z) (content : option (json F))
    : prog (proxy * reply) :=
  tried s (PRet (body ← json_content content; d ← obj body;
                 if otruthy (dget "usage" d) then obj (get_or_null "usage" d) else Ok [])) (fun usage =>
  pbind (CanaryLedger.record env (px_ledger s) model usage ("hindsight:" +:+ stake 16 hash) r started_at) (fun out =>
    match out with
    | Ok l =>
        let s := landed (with_ledger l s) in
        tried s (save s) (fun _ => mret (s, Relay status content))
    | Raise e => ambiguous (with_ledger (charged (px_ledger s) model usage r) s) e
    end)).
Definition settle (s : proxy) (model hash : string) (r : reservation) (started_at : string) (response : Z * option (json F))
    : prog (proxy * reply) :=
  let '(status, content) := response in
  if (status =? 401) || (status =? 402) then
    let s := with_value (opened ("Redpill returned " +:+ str_of_Z status) (px_value s)) s in
    tried s (save s) (fun _ => mret (s, Relay status content))
  else if status <? 400 then charge s model hash r started_at status content
  else
    let s := landed s in
    tried s (save s) (fun _ => mret (s, Relay status content)).
(** [except RuntimeError as exc] around the reservation *)
Definition refuse (s : proxy) (e : exn) : prog (proxy * reply) :=
  match e with
  | RuntimeError msg =>
      let s := with_value (opened msg (px_value s)) s in
      uncaught s (save s) (fun _ => mret (s, SendJson 402 (error_json msg)))
  | e => mret (s, NoReply e)
  end.
Definition in_flight_json (hash model started_at : string) (r : reservation) : json F :=
  JObj [("request_hash", JStr hash); ("model", JStr model); ("started_at", JStr started_at);
        ("reservation", reservation_json r)]%string.
Definition completions_url : string := provider_url env +:+ "/chat/completions".
Definition forward (fuel : nat) (s : proxy) (payload : row) (prompt_bytes max_tokens : Z) : prog (proxy * reply) :=
  uncaught s (PRet (str_at "model" payload)) (fun model =>
  let hash := stable_key (JObj payload) in
  if otruthy (dget "circuit_open" (px_value s)) then
    mret (s, SendJson 402 (error_json (let reason := str_or "reason" (px_value s) in
                                       if bool_decide (reason = EmptyString) then "circuit open" else reason)))
  else
    pbind (r ← PRet (CanaryLedger.reserve env (px_ledger s) model prompt_bytes max_tokens);
           wait_for_rate_capacity timestamp_of fuel (px_ledger s) r;;
           mret r) (fun out =>
      match out with
      | Raise e => refuse s e
      | Ok r =>
          uncaught s (ask NowIso) (fun started_at =>
          let s := with_value (dset "in_flight" (in_flight_json hash model started_at r) (px_value s)) s in
          uncaught s (save s) (fun _ =>
          tried s (ask (Request "POST" completions_url [] (Some (JObj payload)))) (settle s model hash r started_at)))
      end)).

(** ** A process *)

(** [except (ValueError, json.JSONDecodeError)] *)
Definition is_bad_request (e : exn) : bool := is_value_error e || is_class "JSONDecodeError" e.
Definition body_of (rq : request) : result (row * Z * Z) :=
  length ← match parse_int (default "0" (rq_content_length rq))%string with
           | Some n => Ok n
           | None => Raise (ValueError "invalid literal for int() with base 10")
           end;
  raise! ValueError "request body length is outside the canary limit" when (length <=? 0) || (BODY_LIMIT <? length);
  j ← json_loads (stake (Z.to_nat length) (rq_body rq));
  prepare_payload j.
Definition do_POST (fuel : nat) (s : proxy) (rq : request) : prog (proxy * reply) :=
  if negb (bool_decide (no_slash (rq_path rq) = "/v1/chat/completions"%string)) then mret (s, SendJson 404 (error_json "not found"))
  else
    match authorized rq with
    | Raise e => mret (s, NoReply e)
    | Ok false => mret (s, SendJson 401 (error_json "invalid canary key"))
    | Ok true =>
        match body_of rq with
        | Raise e => mret (s, if is_bad_request e then SendJson 400 (error_json (exn_msg e)) else NoReply e)
        | Ok (payload, prompt_bytes, max_tokens) => forward fuel s payload prompt_bytes max_tokens
        end
    end.
Fixpoint serve (fuel : nat) (s : proxy) (rqs : list request) : prog (proxy * list reply) :=
  match rqs with
  | [] => mret (s, [])
  | rq :: rqs =>
      '(s, r) ← (if rq_get rq then mret (s, do_GET s rq) else do_POST fuel s rq);
      '(s, rs) ← serve fuel s rqs;
      mret (s, r :: rs)
  end.
End proxy.
(** [main]: [CANARY_REDPILL_API_KEY] is read when the server is made. *)
Definition proxy_main {F} `{PyFloat F} (env : odict string) (timestamp_of : string -> option F) (fuel : nat)
    (ledger_path state_path : string) (rqs : list request) : @Effects.prog (@canary_effect F) (list (reply (F := F))) :=
  s ← open_proxy env ledger_path state_path;
  api_key ← PRet (match dget "CANARY_REDPILL_API_KEY" env with Some k => Ok (strip k) | None => Raise (KeyError "CANARY_REDPILL_API_KEY") end);
  '(_, rs) ← serve env timestamp_of api_key fuel s rqs;
  mret rs.

(** ** Hindsight canary: theorems about the metered proxy

    What every paid request was allowed by, over all requests, answers and failures of one
    process; and that a process which finds the request of a killed one pays nothing. *)

(** ** Histories of a run *)

Section histories.
Context {E : Effect}.
Lemma steps_history {A} (p p' : Effects.prog A) h h' : steps p h p' h' -> exists evs, h' = evs ++ h.
Proof.
  induction 1 as [p h|a k r h p' h' Hs (evs & ->)]; [by exists []|]. exists (evs ++ [Ev a r]). by rewrite <- app_assoc.
Qed.
(** What a history contains was performed when the history was what is below it. *)
Lemma steps_performed {A} (p p' : Effects.prog A) h evs a r evs0 :
  steps p h p' (evs ++ Ev a r :: evs0 ++ h) -> exists k, steps p h (POp a k) (evs0 ++ h).
Proof.
  remember (evs ++ Ev a r :: evs0 ++ h) as h' eqn:Eh. intros Hs. revert evs0 Eh.
  induction Hs as [p h|b k s h p' h' Hs IH]; intros evs0 Eh.
  - apply (f_equal length) in Eh. rewrite length_app in Eh. simpl in Eh. rewrite length_app in Eh. lia.
  - destruct evs0 as [|e evs0 _] using rev_ind.
    + destruct (steps_history _ _ _ _ Hs) as (evs1 & ->).
      apply (app_inj_2 evs1 evs (Ev b s :: h) (Ev a r :: h)) in Eh as [_ Eh]; [|done].
      assert (exists k', POp b k = POp a k') as (k' & ->) by (injection Eh as -> _; by exists k). exists k'. apply steps_refl.
    + rewrite <- app_assoc in Eh. simpl in Eh. destruct (steps_history _ _ _ _ Hs) as (evs1 & Eh1).
      assert (e = Ev b s) as ->.
      { rewrite Eh1 in Eh. replace (evs ++ Ev a r :: evs0 ++ e :: h) with ((evs ++ Ev a r :: evs0) ++ e :: h) in Eh
          by (by rewrite <- app_assoc). apply app_inj_2 in Eh as [_ Eh]; [by injection Eh|done]. }
      destruct (IH evs0 Eh) as (k' & Hk). exists k'. rewrite <- app_assoc. simpl. by eapply steps_op.
Qed.
End histories.

Section facts.
Context {F : Type} `{ExactFloat F}.
Abbreviation row := (odict (json F)).
Abbreviation prog := (@prog (@canary_effect F)).
Abbreviation hist := (@Effects.hist (@canary_effect F)).
Abbreviation event := (@Effects.event (@canary_effect F)).
Abbreviation cact := (@action (@canary_effect F)).
Abbreviation proxy := (@proxy F).
Variable env : odict string.
Variable timestamp_of : string -> option F.
Variables ledger_path state_path : string.
Hypothesis paths_differ : ledger_path <> state_path.

(** ** What the state file says *)

Definition is_open (v : row) : bool := otruthy (dget "circuit_open" v).
Definition in_doubt (v : row) : bool := otruthy (dget "in_flight" v).
(** What an action wrote to the state file, or found in it *)
Definition state_written (a : cact) : option row :=
  match a with WriteJson p (JObj v) => if bool_decide (p = state_path) then Some v else None | _ => None end.
Definition state_found (e : event) : option row :=
  match e with
  | Ev (ReadJson p) (Ok (Some (JObj v))) => if bool_decide (p = state_path) then Some v else None
  | _ => None
  end.
(** The event opened the circuit, or found it open or a request in flight. *)
Definition opens (e : event) : bool :=
  match state_written (ev_action e) with
  | Some v => is_open v
  | None => match state_found e with Some v => is_open v || in_doubt v | None => false end
  end.
Definition closed (h : hist) : Prop := Forall (fun e => opens e = false) h.
(** No action was answered with an exception that [except Exception] lets through. *)
Definition civil (h : hist) : Prop :=
  Forall (fun e : event => match ev_answer e with Raise x => is_exception x = true | Ok _ => True end) h.

(** ** What a paid request was allowed by *)

(** The request is what [prepare_payload] made of some body, and asks for at most [tokens]
    tokens of an answer. These tokens and the bytes of its messages are covered. *)
Definition affordable (h : hist) (body : json F) : Prop :=
  exists j payload model tokens spent,
    prepare_payload j = Ok (payload, Z.of_nat (String.length (messages_text payload)), tokens) /\ body = JObj payload /\
    dget "max_completion_tokens" payload = Some (JInt tokens) /\ 1 <= tokens <= 8192 /\
    str_at "model" payload = Ok model /\ (model = "openai/gpt-oss-20b" \/ model = "openai/gpt-oss-120b")%string /\
    ledger_spent ledger_path h = Some spent /\
    covered env spent (Z.of_nat (String.length (messages_text payload))) tokens.
(** The state file was just written, and says that this request is in flight. *)
Definition announced (h : hist) (body : json F) : Prop :=
  exists v h' model started r,
    h = Ev (WriteJson state_path (JObj v) : cact) (Ok tt) :: h' /\ in_doubt v = true /\
    dget "in_flight" v = Some (in_flight_json (stable_key body) model started r).
Definition allowed (h : hist) (body : json F) : Prop := closed h /\ announced h body /\ affordable h body.
Definition proxy_guard (h : hist) (a : cact) : Prop :=
  civil h -> match paid a with Some body => allowed h body | None => True end.
Lemma unpaid_guard h (a : cact) : paid a = None -> proxy_guard h a.
Proof. unfold proxy_guard. by intros ->. Qed.

Record sane (s : proxy) (h : hist) : Prop := {
  sn_path : px_state_path s = state_path;
  sn_ledger : is_open (px_value s) = false -> tracks ledger_path (px_ledger s) h;
  sn_closed : is_open (px_value s) = false -> closed h;
}.
Definition still (h : hist) (r : result (proxy * reply (F := F))) : Prop :=
  match r with Ok (s, _) => civil h -> sane s h | Raise _ => True end.

(** An event that touches neither file *)
Definition apart (e : event) : Prop := opens e = false /\ forall h, ledger_spent ledger_path (e :: h) = ledger_spent ledger_path h.
Lemma quiet_apart (a : cact) r : quiet a -> apart (Ev a r).
Proof.
  intros Hq. split; [|intros h; by apply quiet_spent]. destruct Hq as [_ Hq]. unfold opens. by destruct a.
Qed.
Lemma request_apart m url params body r : apart (Ev (Request m url params body : cact) r).
Proof. by split. Qed.
Lemma sane_cons s e h : apart e -> sane s h -> sane s (e :: h).
Proof.
  intros [Ho He] [Hp Hl Hc]. split; [done|..].
  - intros Hv. eapply tracks_quiet; [apply He|by apply Hl].
  - intros Hv. constructor; [done|by apply Hc].
Qed.
Lemma sane_app s evs h : Forall apart evs -> sane s h -> sane s (evs ++ h).
Proof. induction 1 as [|e evs He _ IH]; [done|]. intros Hs. by apply sane_cons, IH. Qed.
Lemma state_write_spent v r h : ledger_spent ledger_path (Ev (WriteJson state_path (JObj v) : cact) r :: h) = ledger_spent ledger_path h.
Proof. cbn [ledger_spent]. by rewrite bool_decide_eq_false_2 by congruence. Qed.
(** The state is written: what follows is as sane as before, with what was written. *)
Lemma sane_saved s r h :
  sane s h -> sane s (Ev (WriteJson (px_state_path s) (JObj (px_value s)) : cact) r :: h).
Proof.
  intros [Hp Hl Hc]. rewrite Hp. split; [done|..].
  - intros Hv. eapply tracks_quiet; [by apply state_write_spent|by apply Hl].
  - intros Hv. constructor; [|by apply Hc]. unfold opens. simpl. by rewrite bool_decide_true.
Qed.
Lemma sane_value s v h : (is_open v = false -> is_open (px_value s) = false) -> sane s h -> sane (with_value v s) h.
Proof. intros Hv [Hp Hl Hc]. split; [done|..]; simpl; auto. Qed.
Lemma is_open_opened reason v : is_open (opened reason v) = true.
Proof. unfold is_open, opened. rewrite dget_dset_ne by done. by rewrite dget_dset_eq. Qed.
Lemma is_open_flight j v : is_open (dset "in_flight" j v) = is_open v.
Proof. unfold is_open. by rewrite dget_dset_ne. Qed.
Lemma sane_opened s l reason h : px_state_path s = state_path -> sane (with_value (opened reason (px_value s)) (with_ledger l s)) h.
Proof. intros Hp. split; [done|..]; simpl; by rewrite is_open_opened. Qed.

Definition civilb (h : hist) : bool :=
  forallb (fun e : event => match ev_answer e with Raise x => is_exception x | Ok _ => true end) h.
Lemma civilb_civil h : civilb h = true -> civil h.
Proof. intros Hh. apply Forall_forall. intros e He%list_elem_of_In. unfold civilb in Hh. rewrite forallb_forall in Hh. by destruct (ev_answer e) eqn:Ee; [|specialize (Hh e He); rewrite Ee in Hh]. Qed.
Lemma civil_tail e h : civil (e :: h) -> civil h.
Proof. by intros [_ Hh]%Forall_cons. Qed.
Lemma civil_head (a : cact) e h : civil (Ev a (Raise e) :: h) -> is_exception e = true.
Proof. by intros [He _]%Forall_cons. Qed.

(** ** What is raised on the way is an [Exception] *)

Lemma json_int_exception (j : json F) e : json_int j = Raise e -> is_exception e = true.
Proof.
  destruct j as [|b|z|f|s|l|d]; simpl; try (by intros [= <-]); try discriminate.
  - destruct (ftrunc_Ok f) as [z ->]. discriminate.
  - destruct (parse_int s); [discriminate|]. by intros [= <-].
Qed.
Lemma json_float_exception (j : json F) e : json_float j = Raise e -> is_exception e = true.
Proof.
  destruct j as [|b|z|f|s|l|d]; simpl; try (by intros [= <-]); try discriminate.
  - rewrite fint_Ok. discriminate.
  - rewrite fint_Ok. discriminate.
  - destruct (parse_number s); [discriminate|]. by intros [= <-].
Qed.
Lemma tokens_exception d (o : option (json F)) e : tokens_or d o = Raise e -> is_exception e = true.
Proof. destruct o; simpl; [apply json_int_exception|discriminate]. Qed.
Lemma item_exception k (d : row) e : item k d = Raise e -> is_exception e = true.
Proof. unfold item. destruct (dget k d); [discriminate|]. by intros [= <-]. Qed.
Lemma wp_pure {A B} G (r : result A) (f : A -> prog B) h (Q : hist -> result B -> Prop) :
  (forall a, r = Ok a -> wp G (f a) h Q) -> (forall e, r = Raise e -> Q h (Raise e)) -> wp G (x ← PRet r; f x) h Q.
Proof. intros Ha He. apply wp_bind. cbn [wp]. destruct r; eauto. Qed.

(** ** The critical section *)

Definition recorded (h : hist) (o : result (ledger (F := F))) : Prop :=
  match o with Ok l => tracks ledger_path l h /\ closed h | Raise e => civil h -> is_exception e = true end.
Lemma record_recorded l model usage purpose r started h p :
  tracks ledger_path l h -> closed h -> prices env model = Ok p ->
  wp proxy_guard (CanaryLedger.record env l model usage purpose r started) h recorded.
Proof.
  intros [Hp Hs Hl] Hc Hpr. unfold CanaryLedger.record.
  apply wp_pure; [intros i _|by intros e He%tokens_exception _]. apply wp_pure; [intros o _|by intros e He%tokens_exception _].
  apply wp_pure; [intros p' _|by rewrite Hpr]. apply wp_pure; [intros cost _|].
  2: { intros e. unfold token_cost. rewrite !fint_Ok. discriminate. }
  apply wp_pure; [intros spent _|].
  2: { intros e [He|(j & _ & He)]%bind_Raise; intros _; [by eapply item_exception|by eapply json_float_exception]. }
  apply wp_pure; [intros calls _|].
  2: { intros e [He|(j & _ & He)]%bind_Raise; intros _; [by eapply item_exception|]. by destruct j; try discriminate He; injection He as <-. }
  apply wp_bind. split; [by apply unpaid_guard|]. intros [now|e]; cbn [wp]; [|exact (civil_head _ _ _)].
  apply wp_pure; [intros u _|]. 2: { intros e. unfold raise_if. destruct (f_ltb _ _); [|discriminate]. by intros [= <-] _. }
  apply wp_bind. split; [by apply unpaid_guard|]. intros [u'|e]; cbn [wp]; [|exact (civil_head _ _ _)]. split.
  - split; [done| |done]. cbn [ledger_spent lg_data with_data]. by rewrite Hp, bool_decide_eq_true_2 by done.
  - constructor; [|constructor; [done|done]]. unfold opens. simpl. rewrite bool_decide_eq_false_2 by congruence. done.
Qed.

Section calls.
Variable G : hist -> cact -> Prop.
Lemma wp_uncaught {A} s (p : prog A) f h :
  wp G p h (fun h r => match r with Ok a => wp G (f a) h still | Raise e => civil h -> sane s h end) ->
  wp G (uncaught s p f) h still.
Proof. intros Hp. apply wp_pbind. eapply wp_post; [exact Hp|]. by intros h' [a|e]. Qed.
Lemma wp_tried {A} s (p : prog A) f h :
  wp G p h (fun h r => match r with Ok a => wp G (f a) h still | Raise e => wp G (ambiguous s e) h still end) ->
  wp G (tried s p f) h still.
Proof. intros Hp. apply wp_pbind. eapply wp_post; [exact Hp|]. by intros h' [a|e]. Qed.
End calls.
Lemma wp_reply s h r : sane s h -> wp proxy_guard (mret (s, r) : prog _) h still.
Proof. by intros Hs _. Qed.
(** The state is saved; then what follows, whether or not it was written. *)
Lemma wp_proxy_save s h (Q : hist -> result unit -> Prop) :
  sane s h -> (forall r, sane s (Ev (WriteJson (px_state_path s) (JObj (px_value s)) : cact) r :: h) ->
               Q (Ev (WriteJson (px_state_path s) (JObj (px_value s)) : cact) r :: h) r) ->
  wp proxy_guard (save s) h Q.
Proof. intros Hs HQ. split; [by apply unpaid_guard|]. intros r. by apply HQ, sane_saved. Qed.
Lemma ambiguous_sane s l e h :
  px_state_path s = state_path -> (civil h -> is_exception e = true \/ sane (with_ledger l s) h) ->
  wp proxy_guard (ambiguous (with_ledger l s) e) h still.
Proof.
  intros Hp He. unfold ambiguous. destruct (is_exception e) eqn:Ex.
  - apply wp_uncaught, wp_proxy_save; [by apply (sane_opened s l)|]. intros [u|e'] Hs; [|done]. by apply wp_reply.
  - intros Hc. destruct (He Hc) as [|Hs]; [done|exact Hs].
Qed.

Lemma ambiguous_still s e h : sane s h -> wp proxy_guard (ambiguous s e) h still.
Proof.
  intros Hs. replace s with (with_ledger (px_ledger s) s) by (by destruct s). apply ambiguous_sane; [apply Hs|]. intros _. right. by destruct s.
Qed.
(** [self.save()] inside the [try], then a reply *)
Lemma saved_reply s rp h : sane s h -> wp proxy_guard (tried s (save s) (fun _ => mret (s, rp))) h still.
Proof.
  intros Hs. apply wp_tried, wp_proxy_save; [done|]. intros [u|e] Hs'; [by apply wp_reply|by apply ambiguous_still].
Qed.
Lemma sane_landed s h : sane s h -> sane (landed s) h.
Proof. apply sane_value. by rewrite is_open_flight. Qed.
Lemma sane_ledger s l h : px_state_path s = state_path -> tracks ledger_path l h -> closed h -> sane (with_ledger l s) h.
Proof. intros Hp Hl Hc. by split. Qed.
Lemma charge_sane s model hash r started status content p h :
  sane s h -> is_open (px_value s) = false -> prices env model = Ok p ->
  wp proxy_guard (charge env s model hash r started status content) h still.
Proof.
  intros Hs Ho Hp. unfold charge. apply wp_tried. cbn [wp]. destruct (_ ≫= _) as [usage|e]; [|by apply ambiguous_still].
  apply wp_pbind. eapply wp_post; [by apply (record_recorded _ _ _ _ _ _ _ p); [apply Hs|apply Hs|]|]. intros h' [l|e] Hr.
  - apply saved_reply, sane_landed. destruct Hr as [Hl Hc]. apply sane_ledger; [apply Hs|done|done].
  - apply ambiguous_sane; [apply Hs|]. intros Hc. left. by apply Hr.
Qed.
Lemma settle_sane s model hash r started response p h :
  sane s h -> is_open (px_value s) = false -> prices env model = Ok p ->
  wp proxy_guard (settle env s model hash r started response) h still.
Proof.
  intros Hs Ho Hp. unfold settle. destruct response as [status content]. destruct (_ || _).
  { apply saved_reply. replace s with (with_ledger (px_ledger s) s) at 2 by (by destruct s). apply sane_opened, Hs. }
  destruct (status <? 400); [by eapply charge_sane|]. by apply saved_reply, sane_landed.
Qed.
Lemma refuse_sane s e h : sane s h -> wp proxy_guard (refuse s e) h still.
Proof.
  intros Hs. destruct e; try (by apply wp_reply). cbn [refuse]. apply wp_uncaught, wp_proxy_save.
  - replace s with (with_ledger (px_ledger s) s) at 2 by (by destruct s). apply sane_opened, Hs.
  - intros [u|e'] Hs'; [by apply wp_reply|done].
Qed.
Lemma prepared_request j payload bytes tokens model :
  prepare_payload j = Ok (payload, bytes, tokens) -> str_at "model" payload = Ok model ->
  bytes = Z.of_nat (String.length (messages_text payload)) /\ dget "max_completion_tokens" payload = Some (JInt tokens) /\
  1 <= tokens <= 8192 /\ (model = "openai/gpt-oss-20b" \/ model = "openai/gpt-oss-120b")%string.
Proof.
  unfold prepare_payload. destruct j as [| | | | | |d]; try done.
  intros (u1 & Hm%raise_if_Ok & (u2 & _ & (m & _ & (u4 & Ht%raise_if_Ok & (u5 & _ & (u6 & _ & (u7 & _ & Hr)%bind_Ok)%bind_Ok)%bind_Ok)%bind_Ok)%bind_Ok)%bind_Ok)%bind_Ok.
  injection Hr as <- <- <-. unfold str_at, item. rewrite dget_dpop_ne, !dget_dset_ne by done. intros Hs.
  split; [done|]. split; [by rewrite dget_dpop_ne, dget_dset_eq by done|].
  apply orb_false_iff in Ht as [H1%Z.leb_gt H2%Z.ltb_ge]. unfold COMPLETION_LIMIT in *. split; [lia|].
  apply negb_false_iff, bool_decide_eq_true in Hm. unfold str_or in Hm.
  destruct (dget "model" d) as [v|]; [|done]. injection Hs as <-. unfold ALLOWED_MODELS in Hm.
  rewrite !elem_of_cons, elem_of_nil in Hm. by destruct (truthy v); naive_solver.
Qed.
Lemma reserve_affordable l model bytes tokens r j payload h :
  tracks ledger_path l h -> prepare_payload j = Ok (payload, bytes, tokens) -> str_at "model" payload = Ok model ->
  CanaryLedger.reserve env l model bytes tokens = Ok r -> affordable h (JObj payload) /\ exists p, prices env model = Ok p.
Proof.
  intros Hl Hj Hm Hr. destruct (reserve_covers _ _ _ _ _ _ _ _ Hl Hr) as (_ & spent & Hs & Hc).
  destruct (prepared_request _ _ _ _ _ Hj Hm) as (-> & Ht & Hb & Ha). split; [by exists j, payload, model, tokens, spent|].
  unfold CanaryLedger.reserve in Hr. apply bind_Ok in Hr as (p & Hp & _). by exists p.
Qed.
Lemma affordable_spent h h' body : ledger_spent ledger_path h' = ledger_spent ledger_path h -> affordable h body -> affordable h' body.
Proof. unfold affordable. by intros ->. Qed.

Lemma forward_sane fuel s j payload bytes tokens h :
  sane s h -> prepare_payload j = Ok (payload, bytes, tokens) ->
  wp proxy_guard (forward env timestamp_of fuel s payload bytes tokens) h still.
Proof.
  intros Hs Hj. unfold forward. apply wp_uncaught. cbn [wp]. destruct (str_at "model" payload) as [model|e] eqn:Em; [|done].
  cbv zeta. destruct (otruthy (dget "circuit_open" (px_value s))) eqn:Eo; [by apply wp_reply|].
  apply wp_pbind, wp_bind. cbn [wp]. destruct (CanaryLedger.reserve _ _ _ _ _) as [r|e] eqn:Er; [|by apply refuse_sane].
  destruct (reserve_affordable _ _ _ _ _ _ _ h (sn_ledger s h Hs Eo) Hj Em Er) as [Haf [p Hp]].
  apply wp_bind. eapply wp_only; [apply (wait_quiet timestamp_of fuel (px_ledger s) r)|by intros h' a [Ha _]; apply unpaid_guard|].
  intros evs out He _. assert (Forall apart evs) as Hev by (eapply Forall_impl; [exact He|]; intros [a r'] Ha; by apply quiet_apart).
  apply (sane_app _ _ _ Hev) in Hs. apply (affordable_spent _ (evs ++ h)) in Haf; [|by apply quiet_spent_app].
  destruct out as [[]|e]; [|by apply refuse_sane]. cbn [wp]. apply wp_uncaught. split; [by apply unpaid_guard|].
  intros started. set (h1 := Ev _ started :: _). assert (apart (Ev (NowIso : cact) started)) as Hn by (by apply quiet_apart).
  apply (sane_cons _ _ _ Hn) in Hs. apply (affordable_spent _ h1) in Haf; [|apply Hn]. fold h1 in Hs.
  destruct started as [started|e]; cbn [wp]; [|by intros _]. set (s1 := with_value _ s).
  assert (sane s1 h1) as Hs1 by (apply sane_value; [by rewrite is_open_flight|done]).
  assert (is_open (px_value s1) = false) as Ho1 by (unfold s1; simpl; by rewrite is_open_flight).
  apply wp_uncaught, wp_proxy_save; [done|]. intros [[]|e] Hs2; [|done]. rewrite (sn_path s1 h1 Hs1) in Hs2 |- *.
  set (h2 := Ev _ _ :: h1) in *. apply wp_tried. split.
  - intros _. unfold paid. rewrite bool_decide_true by done. split; [by apply (sn_closed s1 h2 Hs2)|]. split.
    + exists (px_value s1), h1, model, started, r. split; [done|]. unfold in_doubt, s1. simpl. rewrite dget_dset_eq. done.
    + eapply affordable_spent; [|exact Haf]. by apply state_write_spent.
  - intros response. assert (sane s1 (Ev (Request "POST" (completions_url env) [] (Some (JObj payload)) : cact) response :: h2)) as Hs3
      by (apply sane_cons; [by apply request_apart|done]).
    destruct response as [response|e]; [by eapply settle_sane|by apply ambiguous_still].
Qed.
Lemma do_POST_sane api_key fuel s rq h : sane s h -> wp proxy_guard (do_POST env timestamp_of api_key fuel s rq) h still.
Proof.
  intros Hs. unfold do_POST. destruct (negb _); [by apply wp_reply|]. destruct (authorized _ _) as [[|]|]; [|by apply wp_reply..].
  destruct (body_of rq) as [[[payload bytes] tokens]|e] eqn:Eb; [|by apply wp_reply]. unfold body_of in Eb.
  apply bind_Ok in Eb as (n & _ & (u & _ & (j & _ & Hj)%bind_Ok)%bind_Ok). by eapply forward_sane.
Qed.
Lemma serve_sane api_key fuel rqs : forall s h, (civil h -> sane s h) ->
  wp proxy_guard (serve env timestamp_of api_key fuel s rqs) h (fun _ _ => True).
Proof.
  induction rqs as [|rq rqs IH]; intros s h Hs; cbn [serve]; [done|]. apply wp_bind.
  assert (wp proxy_guard (if rq_get rq then mret (s, do_GET api_key s rq) else do_POST env timestamp_of api_key fuel s rq) h still) as Hrq.
  { destruct (rq_get rq); [intros Hc; by apply Hs|].
    eapply wp_mono; [| |apply (wp_given civil proxy_guard _ h still); [apply civil_tail|]].
    - intros h' a Ha Hc. by apply Ha.
    - intros h' [[s' r]|e] Hr; [|done]. intros Hc. by apply Hr.
    - intros Hc. by apply do_POST_sane, Hs. }
  eapply wp_post; [exact Hrq|]. intros h' [[s' r]|e] Hr; [|done]. apply wp_bind.
  eapply wp_post; [by apply IH|]. by intros h'' [[s'' rs]|e'] _.
Qed.

(** *** The start *)

(** Reads of other files *)
Definition outside (a : cact) : Prop := paid a = None /\ state_written a = None /\ a <> ReadJson state_path.
Lemma outside_closed evs : Forall (fun e : event => outside (ev_action e)) evs -> closed evs.
Proof.
  intros He. eapply Forall_impl; [exact He|]. intros [a r] (_ & Hw & Hr). cbn [ev_action] in *. unfold opens. cbn [ev_action]. rewrite Hw.
  destruct a; try done. simpl. destruct r as [[[]|]|]; try done. by rewrite bool_decide_false by congruence.
Qed.
Lemma open_ledger_outside : only outside (open_ledger env ledger_path).
Proof.
  assert (forall (a : cact), quiet a -> outside a) as Hq.
  { intros a [Hp Hr]. split; [done|]. by destruct a. }
  unfold open_ledger. apply only_bind; [apply (only_mono _ _ _ Hq), key_preflight_quiet|]. intros g.
  apply only_bind; [apply only_act; split; [done|]; split; [done|]; congruence|]. intros stored. unfold check. only_auto.
Qed.
Lemma open_proxy_sane : wpo proxy_guard (open_proxy env ledger_path state_path) [] (fun h s => sane s h).
Proof.
  unfold open_proxy. apply wpo_bind. eapply wpo_only; [apply open_ledger_outside|by intros h a [Ha _]; apply unpaid_guard|].
  intros evs l He Hr. pose proof (wp_runs _ _ _ _ _ _ (open_ledger_tracks env ledger_path []) Hr) as Hl. simpl in Hl.
  rewrite app_nil_r in *. apply outside_closed in He.
  apply wpo_bind. apply (wpo_act proxy_guard (ReadJson state_path : cact)); [by apply unpaid_guard|]. intros stored.
  set (h1 := Ev _ _ :: evs). assert (tracks ledger_path l h1) as Hl1.
  { eapply tracks_quiet; [|exact Hl]. unfold h1. cbn [ledger_spent]. by rewrite bool_decide_eq_false_2 by congruence. }
  apply wpo_bind, wpo_ret. intros v Hv. destruct (otruthy (dget "in_flight" v)) eqn:Ed.
  - apply wpo_bind. split; [by apply unpaid_guard|]. intros [u|e]; [|done].
    apply wpo_mret. split; [done|..]; simpl; by rewrite is_open_opened.
  - apply wpo_mret. split; [done|by intros _|]. intros Ho. constructor; [|done]. simpl in Ho. unfold opens. simpl.
    rewrite bool_decide_true by done. destruct stored as [[]|]; try done. simpl in Hv. injection Hv as ->.
    unfold in_doubt. by rewrite Ho, Ed.
Qed.
Lemma proxy_main_guarded fuel rqs :
  wp proxy_guard (proxy_main env timestamp_of fuel ledger_path state_path rqs) [] (fun _ _ => True).
Proof.
  unfold proxy_main. apply wp_bind. eapply wp_post; [apply open_proxy_sane|]. intros h [s|e] Hs; [|done].
  apply wp_bind. cbn [wp]. destruct (dget "CANARY_REDPILL_API_KEY" env) as [k|]; [|done].
  apply wp_bind. eapply wp_post; [by apply serve_sane|]. by intros h' [[s' rs]|e] _.
Qed.
Abbreviation run := (proxy_main env timestamp_of).


(** What the state file holds after a history: what was written last *)
Definition last_written (h : hist) : option row := head (omap (fun e : event => state_written (ev_action e)) h).
(** A process that is killed at any moment between the sending of a paid request and the
    next writing of the state leaves a state file that says so, and a process that starts
    from this file pays for nothing. *)
Theorem interrupted_request_stops_the_proxy fuel rqs p h evs h0 body url params r :
  steps (run fuel ledger_path state_path rqs) [] p h ->
  h = evs ++ Ev (Request "POST" url params (Some body) : cact) r :: h0 -> civil h ->
  Forall (fun e : event => state_written (ev_action e) = None) evs ->
  exists v, last_written h = Some v /\
    forall rqs' h' body' url' params' k, civil h' -> (Ev (ReadJson state_path : cact) (Ok (Some (JObj v))) : event) ∈ h' ->
      ~ steps (run fuel ledger_path state_path rqs') [] (POp (Request "POST" url' params' (Some body') : cact) k) h'.
Proof.
  intros Hs -> Hc Hev. rewrite <- (app_nil_r h0) in Hs. destruct (steps_performed _ _ _ _ _ _ _ Hs) as (k0 & Hk).
  rewrite app_nil_r in Hk. apply Forall_app in Hc as [_ Hc]. apply civil_tail in Hc.
  pose proof (wp_guard _ _ _ _ _ _ _ (proxy_main_guarded fuel rqs) Hk Hc) as Hg. unfold paid in Hg.
  rewrite bool_decide_eq_true_2 in Hg by done. destruct Hg as [_ [(v & h1 & model & started & r0 & -> & Hd & _) _]].
  exists v. split.
  - unfold last_written. rewrite omap_app. replace (omap _ evs) with (@nil row).
    + simpl. by rewrite bool_decide_true.
    + clear -Hev. induction Hev as [|e evs He _ IH]; [done|]. simpl. by rewrite He.
  - intros rqs' h' body' url' params' k Hc' Hin Hs'. pose proof (wp_guard _ _ _ _ _ _ _ (proxy_main_guarded fuel rqs') Hs' Hc') as Hg'. unfold paid in Hg'.
    rewrite bool_decide_eq_true_2 in Hg' by done. destruct Hg' as [Hcl _]. unfold closed in Hcl. rewrite Forall_forall in Hcl.
    specialize (Hcl _ Hin). unfold opens in Hcl. simpl in Hcl. rewrite bool_decide_true in Hcl by done.
    by rewrite Hd, orb_true_r in Hcl.
Qed.

(** ** What is counted *)

(** Any number of answers may be asked for: the bytes and the tokens that are reserved are
    those of one. *)
Theorem extra_answers_are_not_reserved d n payload bytes tokens :
  prepare_payload (JObj d) = Ok (payload, bytes, tokens) ->
  exists payload', prepare_payload (JObj (dset "n" (JInt n) d)) = Ok (payload', bytes, tokens) /\ dget "n" payload' = Some (JInt n).
Proof.
  unfold prepare_payload, is_strict, maximum_of, messages_text, str_or, get_or_null.
  rewrite !(dget_dset_ne "n") by done.
  intros Hp. apply bind_Ok in Hp as (u1 & H1 & Hp). apply bind_Ok in Hp as (u2 & H2 & Hp). apply bind_Ok in Hp as (m & H3 & Hp).
  apply bind_Ok in Hp as (u4 & H4 & Hp). apply bind_Ok in Hp as (u5 & H5 & Hp). apply bind_Ok in Hp as (u6 & H6 & Hp).
  apply bind_Ok in Hp as (u7 & H7 & Hp). rewrite H1, H2. cbn [mbind result_bind]. rewrite H3. cbn [mbind result_bind].
  rewrite H4, H5, H6. cbn [mbind result_bind]. rewrite H7. cbn [mbind result_bind].
  rewrite !dget_dpop_ne, !dget_dset_ne in * by done. injection Hp as <- <- <-. eexists. split; [reflexivity|].
  by rewrite dget_dpop_ne, !dget_dset_ne, dget_dset_eq by done.
Qed.
End facts.

(** ** Hindsight canary: concrete runs of the metered proxy

    A proxy that serves one request; one that is killed while a request is in flight, and
    the one that is started after it. *)

Abbreviation act_t := (@action (@canary_effect F)).
Abbreviation files := (odict (json F)).

(** ** Files and a provider *)

Definition answer_from (a : caction F) (w : files) : result (canswer a) * files :=
  match a as a return result (canswer a) * files with
  | ReadText _ => (Ok None, w)
  | ReadRows _ => (Ok None, w)
  | ReadJson path => (Ok (dget path w), w)
  | WriteJson path j => (Ok tt, dset path j w)
  | WriteRows _ _ | AppendRow _ _ | Wait _ => (Ok tt, w)
  | Request _ _ _ _ => (Ok (200, Some (demo_reply 50)), w)
  | Search _ _ _ _ => (Ok [], w)
  | NowIso | Nonce => (Ok "2026-01-01T00:00:00+00:00"%string, w)
  | NowStamp => (Ok (f_of_Z 0), w)
  end.
Definition asked : odict (json F) :=
  [("model", JStr "openai/gpt-oss-20b"); ("messages", JArr [JObj [("role", JStr "user"); ("content", JStr "hello")]]);
   ("max_tokens", JInt 100)]%string.
Definition body_text : string := dumps (JObj asked).
Definition ask_of (body : string) : request :=
  {| rq_get := false; rq_path := "/v1/chat/completions"; rq_authorization := Some "Bearer canary-key"%string;
     rq_content_length := Some (str_of_Z (Z.of_nat (String.length body))); rq_body := body |}.
Definition demo_proxy (rqs : list request) : @Effects.prog (@canary_effect F) (list (reply (F := F))) :=
  proxy_main demo_env no_stamp 3 "ledger" "state" rqs.
Definition status_of (r : reply (F := F)) : Z := match r with SendJson s _ => s | Relay s _ => s | NoReply _ => 0 end.
Definition statuses (r : option (result (list reply))) : list Z := match r with Some (Ok l) => map status_of l | _ => [] end.

Example request_is_served :
  statuses (exec (E := canary_effect) answer_from (demo_proxy [ask_of body_text; ask_of "{}"]) [] []).1.1 = [200; 400].
Proof. vm_compute. reflexivity. Qed.

(** ** Killed while a request is in flight *)

Definition at_paid := reach (E := canary_effect) is_paid answer_from (demo_proxy [ask_of body_text]) [] [].
Definition paid_parts (a : option act_t) : string * odict string * json F :=
  match a with Some (Request _ url params (Some body)) => (url, params, body) | _ => (EmptyString, [], JNull) end.
Definition sent : string * odict string * json F := paid_parts (next_action at_paid.1).
Definition paid_action : act_t := Request "POST" sent.1.1 sent.1.2 (Some sent.2).
Lemma next_is_paid : next_action at_paid.1 = Some paid_action.
Proof. vm_compute. reflexivity. Qed.
Lemma paid_performs : exists k, steps (demo_proxy [ask_of body_text]) [] (POp paid_action k) at_paid.2.
Proof. apply reach_performs, next_is_paid. Qed.
Lemma at_paid_civil : civil at_paid.2.
Proof. apply civilb_civil. vm_compute. reflexivity. Qed.
Lemma different_files : "ledger"%string <> "state"%string.
Proof. done. Qed.

(** The request was sent and its connection broke, and then the process died. *)
Definition killed : @hist (@canary_effect F) := Ev paid_action (Raise (OtherError "ReadError" "")) :: at_paid.2.
Lemma killed_civil : civil killed.
Proof. apply civilb_civil. vm_compute. reflexivity. Qed.
Lemma interrupted_request_stops_the_proxy_witness : exists v, last_written "state" killed = Some v.
Proof.
  destruct paid_performs as [k Hk].
  destruct (interrupted_request_stops_the_proxy demo_env no_stamp "ledger" "state" different_files 3 [ask_of body_text] _ killed [] at_paid.2
    sent.2 sent.1.1 sent.1.2 _ (steps_act _ _ _ _ _ _ Hk) eq_refl killed_civil (Forall_nil_2 _)) as (v & Hv & _).
  by exists v.
Defined.
(** The next process answers 402. *)
Example next_proxy_refuses :
  exists v, last_written "state" killed = Some v /\
    statuses (exec (E := canary_effect) answer_from (demo_proxy [ask_of body_text]) [("state"%string, JObj v)] []).1.1 = [402].
Proof. eexists. split; [vm_compute; reflexivity|]. vm_compute. reflexivity. Qed.

(** ** Many answers *)

Lemma extra_answers_are_not_reserved_witness : exists payload payload' bytes,
  prepare_payload (JObj asked) = Ok (payload, bytes, 100) /\
  prepare_payload (JObj (dset "n" (JInt 1000) asked)) = Ok (payload', bytes, 100) /\ dget "n" payload' = Some (JInt 1000).
Proof.
  assert (exists payload bytes, prepare_payload (JObj asked) = Ok (payload, bytes, 100)) as (payload & bytes & Hp).
  { eexists _, _. vm_compute. reflexivity. }
  destruct (extra_answers_are_not_reserved asked 1000 payload bytes 100 Hp) as (payload' & Hp' & Hn).
  by exists payload, payload', bytes.
Defined.
