(* ===== verification/FuguFallback.v ===== *)
(** * Fugu router: the answer after a content-policy block

    fugu_session_router.py: what is said about a block, the request to the fallback model,
    the rewriting of its answer, and the report when there is none; the credentials of the
    operator's pages and the headers that are passed on.

    How the web framework completes the headers of an answer it is given is a parameter. *)

From stdpp Require Import base option list strings gmap.
From Stdlib Require Import ZArith Lia Ascii Floats.
From S2P Require Import Prelude PyStr PyFloat Json PyTime FuguCredit FuguPolicy FuguRouter AdminCore.

Local Open Scope Z_scope.
Local Open Scope py_scope.

(** ** Headers *)

(** The headers of a request are found without regard to case. *)
Definition header (name : string) (headers : odict string) : option string := dget name (lower_keys headers).
Definition _bearer (headers : odict string) : string :=
  let auth := default EmptyString (header "authorization" headers) in
  if startswith "bearer " (lower auth) then strip (match partition " " auth with Some (_, rest) => rest | None => EmptyString end)
  else EmptyString.
Definition _headers_for_upstream (headers : odict string) : odict string :=
  List.filter (fun kv => negb (bool_decide (lower kv.1 ∈ ["host"; "content-length"; "accept-encoding"]%string))) headers.
Definition passed_on (headers : odict string) : odict string :=
  List.filter (fun kv => negb (bool_decide
    (lower kv.1 ∈ ["content-length"; "content-encoding"; "transfer-encoding"; "connection"]%string))) headers.
(** [{k: v for k, v in d.items() if v}] *)
Definition set_only (d : odict string) : odict string := List.filter (fun kv => non_empty kv.2) d.

Section fallback.
Context {F : Type} `{PyFloat F}.
Abbreviation row := (odict (json F)).
(** [Response(content, headers=given)]: the headers of the answer *)
Variable complete : odict string -> string -> odict string.

Record answered := {
  an_status : Z;
  an_content : string;
  an_headers : odict string;
}.
Definition make_answer (status : Z) (content : string) (given : odict string) : answered :=
  {| an_status := status; an_content := content; an_headers := complete given content |}.
(** [JSONResponse]: compact JSON *)
Definition json_answer (status : Z) (value : row) (given : odict string) : answered :=
  make_answer status (dumps_with "," ":" (JObj value)) given.
Definition _require_admin (MASTER_KEY : string) (headers : odict string) : option answered :=
  if non_empty MASTER_KEY && negb (bool_decide (_bearer headers = MASTER_KEY)) then
    Some (json_answer 401 [("error", JObj [("message", JStr "unauthorized")])]%string [])
  else None.
(** An answer that is not streamed, as [_forward_once] returns it *)
Definition forwarded (status : Z) (content : string) (upstream_headers extra : odict string) : answered :=
  make_answer status content (dupdate (passed_on upstream_headers) (set_only extra)).

(** ** What is said about the block *)

Definition _load_json (text : string) : json F := match json_loads text with Ok j => j | Raise _ => JNull end.
Definition set_some (k : string) (j : json F) (d : row) : row := match j with JNull => d | j => dset k j d end.
Definition non_blank (text : string) : bool := non_empty (strip text).
Definition _error_summary (status_code : Z) (text : string) : row :=
  let summary := [("status_code", JInt status_code)]%string in
  let summary :=
    match _load_json text with
    | JObj d =>
        match pget "error" d with
        | JObj e => foldl (fun s k => set_some k (pget k e) s) summary ["message"; "type"; "code"; "param"]%string
        | JNull => match pget "message" d with JNull => summary | m => dset "message" (JStr (json_str m)) summary end
        | e => dset "message" (JStr (json_str e)) summary
        end
    | _ => summary
    end in
  let summary :=
    if dmem "message" summary then summary
    else dset "message" (JStr (if non_blank text then stake 1000 (strip text) else "HTTP " +:+ str_of_Z status_code)) summary in
  if non_blank text then dset "raw_body" (JStr (stake 2000 (strip text))) summary else summary.
Definition _content_policy_detail (requested_model account_id upstream_model : string) (status : Z) (text : string) : row :=
  dset "account_id" (JStr account_id) (dset "upstream_model" (JStr upstream_model)
    (dset "requested_model" (JStr requested_model) (_error_summary status text))).
(** [d.get(k) or default] of a detail, as text *)
Definition text_or (k d : string) (detail : row) : string := if truthy (pget k detail) then json_str (pget k detail) else d.
Definition status_text (detail : row) : string := json_str (default (JStr "unknown") (dget "status_code" detail)).
Definition _fallback_notice (detail : row) (fallback_model : string) : string :=
  let requested := text_or "requested_model" "fugu" detail in
  let upstream := text_or "upstream_model" requested detail in
  let account := text_or "account_id" EmptyString detail in
  let account_part := if bool_decide (account = EmptyString) then EmptyString else " on " +:+ account in
  let message := rstrip_char "." (strip (text_or "message" "content policy block" detail)) in
  "Notice: Fugu returned HTTP " +:+ status_text detail +:+ " for `" +:+ requested +:+ "` via `" +:+ upstream +:+ "`" +:+ account_part
  +:+ ": " +:+ message +:+ ". Retrying with fallback model `" +:+ fallback_model +:+ "`; the answer below is from `"
  +:+ fallback_model +:+ "`.".
Definition blank_line : string := String LF (String LF EmptyString).
(** [now] in whole seconds *)
Definition _notice_chunk (now : Z) (notice fallback_model : string) : row :=
  [("id", JStr ("fugu-fallback-notice-" +:+ str_of_Z now)); ("object", JStr "chat.completion.chunk"); ("created", JInt now);
   ("model", JStr fallback_model);
   ("choices", JArr [JObj [("index", JInt 0);
                           ("delta", JObj [("role", JStr "assistant"); ("content", JStr (notice +:+ blank_line))]);
                           ("finish_reason", JNull)]])]%string.
Definition _fallback_headers (detail : row) (fallback_model : string) : odict string :=
  [("x-fugu-fallback", "content-policy"); ("x-fugu-fallback-model", fallback_model);
   ("x-fugu-original-status", json_str (default (JStr EmptyString) (dget "status_code" detail)));
   ("x-fugu-original-model", text_or "upstream_model" EmptyString detail);
   ("x-fugu-original-account", text_or "account_id" EmptyString detail)]%string.
Definition _with_headers (r : answered) (headers : odict string) : answered :=
  {| an_status := an_status r; an_content := an_content r; an_headers := dupdate (an_headers r) (set_only headers) |}.

(** ** The rewritten answer *)

Definition mark (detail : row) (fallback_model : string) (injected : bool) : row :=
  [("reason", JStr "content-policy"); ("fallback_model", JStr fallback_model); ("original", JObj detail);
   ("visible_notice_injected", JBool injected)]%string.
(** The content of a message with the notice before it, if it can carry one *)
Definition noted (notice : string) (message : row) : option (json F) :=
  if truthy (pget "tool_calls" message) then None
  else
    match pget "content" message with
    | JStr content => Some (JStr (if bool_decide (content = EmptyString) then notice else notice +:+ blank_line +:+ content))
    | JNull => Some (JStr notice)
    | JArr parts => Some (JArr (JObj [("type", JStr "text"); ("text", JStr (notice +:+ blank_line))]%string :: parts))
    | _ => None
    end.
(** The choices with the notice in the first one, and whether it is there *)
Definition noted_choices (notice : string) (obj : row) : row * bool :=
  match pget "choices" obj with
  | JArr (JObj choice :: choices) =>
      match pget "message" choice with
      | JObj message =>
          match noted notice message with
          | Some content =>
              (dset "choices" (JArr (JObj (dset "message" (JObj (dset "content" content message)) choice) :: choices)) obj, true)
          | None => (obj, false)
          end
      | _ => (obj, false)
      end
  | _ => (obj, false)
  end.
Definition annotated (body : row) (detail : row) (fallback_model notice : string) (obj : row) : row :=
  let '(obj, injected) := if _visible_notice_allowed body then noted_choices notice obj else (obj, false) in
  dset "metadata" (JObj (dset "fugu_content_policy_fallback" (JObj (mark detail fallback_model injected))
                           (dict_or_empty (pget "metadata" obj)))) obj.
Definition _annotate_fallback_response (r : answered) (body detail : row) (fallback_model notice : string) : answered :=
  let headers := dupdate (an_headers r) (_fallback_headers detail fallback_model) in
  match _load_json (an_content r) with
  | JObj obj => json_answer (an_status r) (annotated body detail fallback_model notice obj) headers
  | _ => make_answer (an_status r) (an_content r) headers
  end.
(** [int(detail.get("status_code") or 451)] *)
Definition failure_status (detail : row) : result Z :=
  json_int (if truthy (pget "status_code" detail) then pget "status_code" detail else JInt 451).
Definition _content_policy_failure_response (requested_model : string) (detail : row) (fallback_model : string)
    (fallback_answer : option answered) : result answered :=
  let status := json_str (pget "status_code" detail) in
  let error := [("message", JStr ("Fugu returned HTTP " +:+ status +:+ " for " +:+ requested_model +:+ ": " +:+ json_str (pget "message" detail)));
                ("type", JStr "fugu_content_policy_block"); ("code", JStr "fugu_content_policy_block"); ("fugu", JObj detail)]%string in
  let error := if bool_decide (fallback_model = EmptyString) then error else dset "fallback_model" (JStr fallback_model) error in
  let error :=
    match fallback_answer with
    | None => error
    | Some f =>
        dset "message" (JStr ("Fugu returned HTTP " +:+ status +:+ " for " +:+ requested_model +:+ "; fallback model " +:+ fallback_model
                              +:+ " also failed with HTTP " +:+ str_of_Z (an_status f) +:+ "."))
          (dset "fallback" (JObj (_error_summary (an_status f) (an_content f))) error)
    end in
  code ← failure_status detail;
  Ok (json_answer code [("error", JObj error)]%string (set_only (_fallback_headers detail fallback_model))).

(** ** The whole fallback

    [FuguRouter._content_policy_fallback] decides whether the fallback model is asked, and
    with what; [upstream] is its answer, which is streamed or comes as a whole and is then
    recorded in the ledger, whose failure is only printed, or the error of the request. *)

Record upstream_answer := { ua_status : Z; ua_content : string; ua_headers : odict string }.
(** A stream is passed on with its headers, after the notice when there is one, and is
    recorded at its end ([FuguPolicy._stream_response_obj]). *)
Inductive outcome :=
  | Whole (a : answered)
  | Streamed (status : Z) (first : option row) (headers : odict string).
Definition as_response (u : upstream_answer) (streamed : bool) (headers : odict string) : FuguRouter.response F :=
  {| rs_status := ua_status u; rs_text := ua_content u;
     rs_json := match json_loads (ua_content u) with Ok j => Some j | Raise _ => None end;
     rs_streaming := streamed; rs_headers := headers |}.
(** [now] is the time in seconds, [clock] when the request to the fallback model began and
    ended, [missing] the identifier of a call that carries none. *)
Definition fallback_outcome (enabled : bool) (fallback_model : string) (x : exchange F) (k : string * string) (r : FuguRouter.response F)
    (now : Z) (clock : instant * instant) (missing : string) (upstream : row -> result upstream_answer) (d : db F)
    : result (outcome * db F) :=
  let detail := _content_policy_detail (ex_model x) k.1 k.2 (rs_status r) (rs_text r) in
  plan ← FuguRouter._content_policy_fallback enabled fallback_model x k r;
  match plan with
  | NoFallback =>
      a ← _content_policy_failure_response (ex_model x) detail fallback_model None;
      Ok (Whole a, d)
  | Retry routed meta notice_first =>
      u ← upstream routed;
      let notice := _fallback_notice detail fallback_model in
      let extra := _fallback_headers detail fallback_model in
      let streamed := is_stream routed && (ua_status u <? 400) in
      let given := dupdate (passed_on (ua_headers u)) (set_only extra) in
      let f := make_answer (ua_status u) (ua_content u) given in
      let headers := if streamed then given else an_headers f in
      let d := match _record_proxy_ledger (ex_headers x) (ex_path x) (ex_model x) fallback_model meta
                       (as_response u streamed headers) clock.1 clock.2 missing d with
               | Ok d' => d'
               | Raise _ => d
               end in
      if streamed then
        let first := if notice_first then Some (_notice_chunk now notice fallback_model) else None in
        Ok (Streamed (ua_status u) first (dupdate given (set_only extra)), d)
      else if an_status f <? 400 then Ok (Whole (_annotate_fallback_response f (ex_body x) detail fallback_model notice), d)
      else
        a ← _content_policy_failure_response (ex_model x) detail fallback_model (Some f);
        Ok (Whole a, d)
  end.
End fallback.

(** ** Fugu router: theorems about the content-policy fallback

    What the rewritten answer keeps, what the caller of a blocked request is told, and the
    length that the rewritten answer declares. *)

(** ** Dictionaries *)

Section dicts.
Context {V : Type}.
Lemma dget_dupdate_other k (d d2 : odict V) : k ∉ dkeys d2 -> dget k (dupdate d d2) = dget k d.
Proof.
  unfold dupdate. revert d. induction d2 as [|[k' v] d2 IH]; intros d Hk; [done|]. simpl in *.
  rewrite not_elem_of_cons in Hk. destruct Hk as [Hne Hk]. rewrite IH by done. by rewrite dget_dset_ne.
Qed.
Lemma dget_filter_out p (k : string) (d : odict V) : (forall v, p (k, v) = false) -> dget k (List.filter p d) = None.
Proof.
  intros Hp. induction d as [|[k' v] d IH]; [done|]. simpl. destruct (p (k', v)) eqn:E; [|done]. simpl.
  case_bool_decide as Hk; [|done]. subst. by rewrite Hp in E.
Qed.
Lemma dkeys_filter p (d : odict V) k : k ∈ dkeys (List.filter p d) -> k ∈ dkeys d.
Proof.
  induction d as [|[k' v] d IH]; [done|]. simpl. destruct (p (k', v)); simpl; rewrite !elem_of_cons; naive_solver.
Qed.
End dicts.

Section facts.
Context {F : Type} `{PyFloat F}.
Abbreviation row := (odict (json F)).

(** ** The rewritten answer *)

(** The content shows the notice, and what was there is still there. *)
Definition shows (notice : string) (before after : json F) : Prop :=
  match before with
  | JStr s => after = JStr (if bool_decide (s = EmptyString) then notice else notice +:+ blank_line +:+ s)
  | JNull => after = JStr notice
  | JArr parts => after = JArr (JObj [("type", JStr "text"); ("text", JStr (notice +:+ blank_line))]%string :: parts)
  | _ => False
  end.
(** The first choice of [out] is the one of [obj], with the notice in its message. *)
Definition noted_in (notice : string) (obj out : row) : Prop :=
  exists choice choices message content,
    dget "choices" obj = Some (JArr (JObj choice :: choices)) /\ dget "message" choice = Some (JObj message) /\
    truthy (pget "tool_calls" message) = false /\ shows notice (pget "content" message) content /\
    dget "choices" out = Some (JArr (JObj (dset "message" (JObj (dset "content" content message)) choice) :: choices)).
Lemma noted_shows notice (message : row) content :
  noted notice message = Some content -> truthy (pget "tool_calls" message) = false /\ shows notice (pget "content" message) content.
Proof.
  unfold noted. destruct (truthy _); [discriminate|]. destruct (pget "content" message); try discriminate; intros [= <-]; done.
Qed.
Lemma pget_Some k (d : row) j : pget k d = j -> j <> JNull -> dget k d = Some j.
Proof. unfold pget. destruct (dget k d); simpl; congruence. Qed.
Lemma noted_choices_spec notice (obj out : row) injected :
  noted_choices notice obj = (out, injected) ->
  (forall k, k <> "choices"%string -> dget k out = dget k obj) /\ (if injected then noted_in notice obj out else out = obj).
Proof.
  unfold noted_choices. destruct (pget "choices" obj) as [| | | | |[|[| | | | | |choice] choices]|] eqn:Ec; try (by intros [= <- <-]).
  destruct (pget "message" choice) as [| | | | | |message] eqn:Em; try (by intros [= <- <-]).
  destruct (noted notice message) as [content|] eqn:En; intros [= <- <-]; [|done].
  split; [intros k Hk; by rewrite dget_dset_ne|]. apply noted_shows in En as [Ht Hs].
  exists choice, choices, message, content. split; [by apply pget_Some|]. split; [by apply pget_Some|]. split; [done|]. split; [done|].
  by rewrite dget_dset_eq.
Qed.

(** The answer of the fallback model is given back with a record of the block in its
    metadata; nothing else changes except the first message, which shows the notice exactly
    when the record says so, and never when the caller asked for JSON or for tools. *)
Theorem annotated_answer_keeps_the_rest (body detail : row) fallback_model notice (obj : row) :
  let out := annotated body detail fallback_model notice obj in
  exists injected metadata,
    (forall k, k <> "metadata"%string -> k <> "choices"%string -> dget k out = dget k obj) /\
    dget "metadata" out = Some (JObj metadata) /\
    dget "fugu_content_policy_fallback" metadata = Some (JObj (mark detail fallback_model injected)) /\
    (forall k, k <> "fugu_content_policy_fallback"%string -> dget k metadata = dget k (dict_or_empty (pget "metadata" obj))) /\
    (if injected then _visible_notice_allowed body = true /\ noted_in notice obj out
     else dget "choices" out = dget "choices" obj).
Proof.
  cbv zeta. unfold annotated.
  destruct (if _visible_notice_allowed body then noted_choices notice obj else (obj, false)) as [out injected] eqn:E.
  assert ((forall k, k <> "choices"%string -> dget k out = dget k obj) /\
          (if injected then _visible_notice_allowed body = true /\ noted_in notice obj out else out = obj)) as [Hk Hi].
  { destruct (_visible_notice_allowed body); [|by injection E as <- <-]. apply noted_choices_spec in E as [Hk Hi].
    split; [done|]. by destruct injected. }
  exists injected. eexists. split; [intros k H1 H2; rewrite dget_dset_ne by done; by apply Hk|].
  split; [by rewrite dget_dset_eq|]. split; [by rewrite dget_dset_eq|]. split.
  - intros k Hne. rewrite dget_dset_ne by done. unfold pget. by rewrite Hk.
  - destruct injected; [|by rewrite dget_dset_ne, Hi]. destruct Hi as [Hv (choice & choices & message & content & H1 & H2 & H3 & H4 & H5)].
    split; [done|]. exists choice, choices, message, content. split_and!; try done. by rewrite dget_dset_ne.
Qed.

(** ** What the caller is told *)

Definition outcome_status (o : outcome (F := F)) : Z := match o with Whole a => an_status a | Streamed status _ _ => status end.
Lemma foldl_set_some (ks : list string) (e d : row) k : k ∉ ks -> dget k (foldl (fun s k => set_some k (pget k e) s) d ks) = dget k d.
Proof.
  revert d. induction ks as [|k' ks IH]; intros d Hk; [done|]. rewrite not_elem_of_cons in Hk. destruct Hk as [Hne Hk].
  cbn [foldl]. rewrite IH by done. unfold set_some. by destruct (pget k' e); rewrite ?dget_dset_ne.
Qed.
Lemma summary_status status text : dget "status_code" (_error_summary (F := F) status text) = Some (JInt status).
Proof.
  unfold _error_summary. cbv zeta. set (s := match _load_json text with JObj _ => _ | _ => _ end).
  assert (dget "status_code" s = Some (JInt status)) as Hs.
  { unfold s. destruct (_load_json text) as [| | | | | |d]; try done. destruct (pget "error" d) as [| | | | | |e]; rewrite ?dget_dset_ne by done; try done.
    - destruct (pget "message" d); rewrite ?dget_dset_ne by done; done.
    - rewrite foldl_set_some; [done|]. rewrite !not_elem_of_cons. split_and!; try done. by intros ?%not_elem_of_nil. }
  clearbody s. destruct (dmem "message" s); destruct (non_blank text); rewrite ?dget_dset_ne by done; exact Hs.
Qed.
Lemma detail_status requested account upstream status text :
  pget "status_code" (_content_policy_detail (F := F) requested account upstream status text) = JInt status.
Proof. unfold pget, _content_policy_detail. rewrite !dget_dset_ne by done. by rewrite summary_status. Qed.
Lemma failure_answer_status complete requested detail fallback_model f status :
  pget "status_code" detail = JInt status -> status <> 0 ->
  exists a, _content_policy_failure_response complete requested detail fallback_model f = Ok a /\ an_status a = status.
Proof.
  intros Hd Hs. unfold _content_policy_failure_response, failure_status. rewrite Hd.
  assert (truthy (JInt status : json F) = true) as -> by (simpl; by apply negb_true_iff, Z.eqb_neq). by eexists.
Qed.

Lemma annotated_status complete (r : answered) (body detail : row) fallback_model notice :
  an_status (_annotate_fallback_response complete r body detail fallback_model notice) = an_status r.
Proof. unfold _annotate_fallback_response. by destruct (_load_json _). Qed.

(** The status that the caller gets; the framework answers 500 when the handler raises. *)
Definition caller_status (r : result (outcome (F := F) * db F)) : Z :=
  match r with Ok (o, _) => outcome_status o | Raise _ => 500 end.
(** C31: After a block the caller gets the status of the fallback model's answer, below 400,
    when that model is asked and gives one; the status of the block when it is not asked or
    answers with an error; and 500 when the request to it raises, or when the metadata or the
    stream options of the body cannot be copied into that request. *)
Theorem fallback_answers_or_reports complete enabled fallback_model (x : exchange F) k r now clock missing upstream d :
  400 <= rs_status r ->
  caller_status (fallback_outcome complete enabled fallback_model x k r now clock missing upstream d) =
  match FuguRouter._content_policy_fallback enabled fallback_model x k r with
  | Raise _ => 500
  | Ok NoFallback => rs_status r
  | Ok (Retry routed _ _) =>
      match upstream routed with
      | Raise _ => 500
      | Ok u => if ua_status u <? 400 then ua_status u else rs_status r
      end
  end.
Proof.
  intros Hr. unfold fallback_outcome. cbv zeta. set (detail := _content_policy_detail _ _ _ _ _).
  assert (forall f, exists a, _content_policy_failure_response complete (ex_model x) detail fallback_model f = Ok a /\ an_status a = rs_status r) as Hf.
  { intros f. apply failure_answer_status; [apply detail_status|lia]. }
  destruct (FuguRouter._content_policy_fallback enabled fallback_model x k r) as [[|routed meta first]|e]; [| |done];
    cbn [mbind result_bind].
  - destruct (Hf None) as (a & -> & Ha). exact Ha.
  - destruct (upstream routed) as [u|e]; [|done]. cbn [mbind result_bind make_answer an_status].
    destruct (ua_status u <? 400) eqn:Hs.
    + destruct (is_stream routed); [reflexivity|]. cbn [andb]. apply annotated_status.
    + rewrite andb_false_r. match goal with |- context [Some ?f] => destruct (Hf (Some f)) as (a & -> & Ha) end. exact Ha.
Qed.

(** ** The length *)

Section length_header.
Variable complete : odict string -> string -> odict string.
(** The framework sets the length of the content, unless it is given one. *)
Definition sets_length : Prop := forall given content, dget "content-length" given = None ->
  dget "content-length" (complete given content) = Some (str_of_Z (Z.of_nat (String.length content))).
Definition keeps_length : Prop := forall given content n, dget "content-length" given = Some n ->
  dget "content-length" (complete given content) = Some n.
Lemma fallback_header_names (detail : row) fallback_model : "content-length"%string ∉ dkeys (_fallback_headers detail fallback_model).
Proof. unfold _fallback_headers. simpl. rewrite !not_elem_of_cons. split_and!; try done. by intros ?%not_elem_of_nil. Qed.

(** The rewritten answer is sent with the length of the answer before it was rewritten. *)
Theorem rewritten_answer_declares_the_old_length (u : upstream_answer) body detail fallback_model notice :
  sets_length -> keeps_length ->
  dget "content-length" (an_headers (_annotate_fallback_response complete
    (forwarded complete (ua_status u) (ua_content u) (ua_headers u) (_fallback_headers detail fallback_model)) body detail fallback_model notice))
  = Some (str_of_Z (Z.of_nat (String.length (ua_content u)))).
Proof.
  intros Hset Hkept. set (f := forwarded _ _ _ _ _).
  assert (dget "content-length" (an_headers f) = Some (str_of_Z (Z.of_nat (String.length (ua_content u))))) as Hf.
  { apply Hset. rewrite dget_dupdate_other.
    - apply dget_filter_out. intros v. reflexivity.
    - intros Hin%dkeys_filter. by apply fallback_header_names in Hin. }
  assert (dget "content-length" (dupdate (an_headers f) (_fallback_headers detail fallback_model)) =
          Some (str_of_Z (Z.of_nat (String.length (ua_content u))))) as Hg.
  { rewrite dget_dupdate_other; [done|apply fallback_header_names]. }
  unfold _annotate_fallback_response. cbv zeta. destruct (_load_json (an_content f)); by apply Hkept.
Qed.
End length_header.
End facts.

(** ** Fugu router: a blocked request

    A chat request that is blocked for its content, and the answer of the fallback model. *)

Abbreviation fl := spec_float.

(** A framework that adds the length where none is given *)
Definition add_length (given : odict string) (content : string) : odict string :=
  if dmem "content-length" given then given else given ++ [("content-length", str_of_Z (Z.of_nat (String.length content)))]%string.
Lemma dget_app {V} k (d d2 : odict V) : dget k d = None -> dget k (d ++ d2) = dget k d2.
Proof. induction d as [|[k' v] d IH]; [done|]. simpl. case_bool_decide; [done|]. exact IH. Qed.
Lemma add_length_sets : sets_length add_length.
Proof. intros given content Hn. unfold add_length, dmem. rewrite Hn. by rewrite dget_app. Qed.
Lemma add_length_keeps : keeps_length add_length.
Proof. intros given content n Hn. unfold add_length, dmem. by rewrite Hn. Qed.

Definition question : odict (json fl) :=
  [("model", JStr "fugu"); ("messages", JArr [JObj [("role", JStr "user"); ("content", JStr "hi")]])]%string.
Definition blocked : FuguRouter.response fl :=
  {| rs_status := 451; rs_text := "blocked"; rs_json := None; rs_streaming := false; rs_headers := [] |}.
Definition demo_request : exchange fl :=
  {| ex_path := "v1/chat/completions"; ex_headers := []; ex_body := question; ex_session := "s"; ex_model := "fugu";
     ex_clock := fun _ => (0, 0, 0); ex_missing := fun _ => EmptyString; ex_upstream := fun _ _ => Ok blocked |}.
Definition glm_answer : upstream_answer :=
  {| ua_status := 200; ua_content := dumps (F := fl) (JObj [("choices", JArr [JObj [("message", JObj [("content", JStr "hello")])]])])%string;
     ua_headers := [("content-type", "application/json")]%string |}.
Definition no_rows : db fl :=
  {| db_accounts := ∅; db_deployments := ∅; db_windows := ∅; db_cooldowns := ∅; db_assignments := ∅; db_decisions := []; db_ledger := [] |}.
Definition demo_outcome : result (outcome (F := fl) * db fl) :=
  fallback_outcome add_length true "glm-5.2" demo_request ("sub1", "fugu-sub-1")%string blocked 0 (0, 1) "call" (fun _ => Ok glm_answer) no_rows.

Lemma fallback_answers_or_reports_witness : caller_status demo_outcome = 200.
Proof.
  unfold demo_outcome. rewrite (fallback_answers_or_reports add_length true "glm-5.2" demo_request ("sub1", "fugu-sub-1")%string blocked
    0 (0, 1) "call" (fun _ => Ok glm_answer) no_rows); [vm_compute; reflexivity|vm_compute; discriminate].
Defined.
(** The fallback model cannot be reached. *)
Example unreachable_fallback_is_a_server_error :
  caller_status (fallback_outcome add_length true "glm-5.2" demo_request ("sub1", "fugu-sub-1")%string blocked 0 (0, 1) "call"
    (fun _ => Raise (OtherError "ConnectError" "")) no_rows) = 500.
Proof. vm_compute. reflexivity. Qed.
Definition demo_detail : odict (json fl) := _content_policy_detail "fugu" "sub1" "fugu-sub-1" 451 "blocked".
Definition demo_rewritten : answered :=
  _annotate_fallback_response add_length
    (forwarded add_length 200 (ua_content glm_answer) (ua_headers glm_answer) (_fallback_headers demo_detail "glm-5.2"))
    question demo_detail "glm-5.2" (_fallback_notice demo_detail "glm-5.2").
(** The rewritten answer is longer than it declares. *)
Lemma rewritten_answer_declares_the_old_length_witness : exists n,
  dget "content-length" (an_headers demo_rewritten) = Some (str_of_Z n) /\ n < Z.of_nat (String.length (an_content demo_rewritten)).
Proof.
  exists (Z.of_nat (String.length (ua_content glm_answer))).
  split; [exact (rewritten_answer_declares_the_old_length add_length glm_answer question demo_detail "glm-5.2" _ add_length_sets add_length_keeps)|].
  vm_compute. reflexivity.
Defined.
Example blocked_request_is_answered : is_ok demo_outcome = true /\
  match demo_outcome with Ok (Whole a, d) => an_status a = 200 /\ length (db_ledger d) = 1%nat | _ => False end.
Proof. vm_compute. done. Qed.
(** A caller that wants JSON gets no notice. *)
Example json_callers_get_no_notice :
  annotated (F := fl) [("response_format", JObj [("type", JStr "json_object")])] demo_detail "glm-5.2" "notice"
    [("choices", JArr [JObj [("message", JObj [("content", JStr "{}")])]])]%string
  = [("choices", JArr [JObj [("message", JObj [("content", JStr "{}")])]]);
     ("metadata", JObj [("fugu_content_policy_fallback", JObj (mark demo_detail "glm-5.2" false))])]%string.
Proof. vm_compute. reflexivity. Qed.
