(* ===== verification/FuguDashboard.v ===== *)
(** * Fugu router: the dashboard, and database retries

    fugu_session_router.py: the models the dashboard offers, the filter that a chosen model
    becomes in the queries of the summary, the names of direct routes, the summary itself,
    and how the connection and the read-only handlers are tried again. *)

From stdpp Require Import base option list strings pretty gmap.
From Stdlib Require Import ZArith Lia Ascii SpecFloat.
From S2P Require Import Prelude PyStr PyFloat Json PyTime Regex JsonParse Decimal FuguCredit FuguLedger FuguPolicy.
From S2P Require Import FuguNames FuguRouter FuguDemo AdminCore FuguFallback.

Local Open Scope Z_scope.
Local Open Scope py_scope.

(** ** Models *)

Record offered := { of_id : string; of_label : string; of_kind : string }.
(** [names] are the models of the query: those of the rows, each once. *)
Fixpoint observed_models (seen names : list string) : list offered :=
  match names with
  | [] => []
  | name :: names =>
      let model := _normalize_public_model name in
      if bool_decide (model ∈ seen) then observed_models seen names
      else {| of_id := model; of_label := model; of_kind := "observed" |} :: observed_models (model :: seen) names
  end.
Definition public_offers : list offered :=
  {| of_id := "all"; of_label := "All models"; of_kind := "all" |} ::
  map (fun m => {| of_id := pm_id m; of_label := pm_label m; of_kind := pm_kind m |}) PUBLIC_MODELS.
Definition _dashboard_models (names : list string) : list offered :=
  public_offers ++ observed_models (map of_id public_offers) names.

Definition _direct_route_name (requested_model upstream_model : string) : string :=
  let requested := _normalize_public_model requested_model in
  let upstream := _normalize_public_model (if bool_decide (upstream_model = EmptyString) then requested else upstream_model) in
  if bool_decide (requested ∈ MODEL_PUBLIC_NAMES) && negb (bool_decide (upstream = requested))
  then "Fallback: " +:+ _model_label upstream +:+ " for " +:+ _model_label requested
  else "Direct: " +:+ _model_label upstream.

(** The names that a model goes by besides its own *)
Definition other_names : odict (list string) :=
  [("glm-5.2", ["z-ai/glm-5.2"; "openai/z-ai/glm-5.2"]);
   ("qwen/qwen3-embedding-8b", ["openai/qwen/qwen3-embedding-8b"]);
   ("openai/gpt-oss-120b", ["openai/openai/gpt-oss-120b"]);
   ("grok-4.5", ["xai/grok-4.5"]);
   ("grok-4.3", ["xai/grok-4.3"]);
   ("grok-imagine-image-quality", ["xai/grok-imagine-image-quality"]);
   ("grok-imagine-image", ["xai/grok-imagine-image"])]%string.
Definition subscription_names (normalized : string) (ACCOUNT_COUNT : Z) : list string :=
  if bool_decide (normalized ∈ MODEL_PUBLIC_NAMES)
  then map (fun i => (normalized +:+ "-sub-" +:+ str_of_Z i)%string) (seqZ 1 ACCOUNT_COUNT) else [].
(** A set; [sorted] only matters to the text of the query. *)
Definition _model_filter_values (ACCOUNT_COUNT : Z) (model_filter : string) : list string :=
  if bool_decide (model_filter = EmptyString) then []
  else
    let normalized := _normalize_public_model model_filter in
    model_filter :: normalized :: subscription_names normalized ACCOUNT_COUNT ++ default [] (dget normalized other_names).

(** ** The filter of the ledger *)

Section rows.
Context {F : Type}.
(** [NULLIF(column, '')] *)
Definition column_text (c : string) (r : odict (cell F)) : option string :=
  match cell_of c r with
  | CText (JStr s) => if bool_decide (s = EmptyString) then None else Some s
  | _ => None
  end.
Definition first_some {A} (a b : option A) : option A := match a with Some _ => a | None => b end.
Definition row_model (r : odict (cell F)) : option string :=
  first_some (column_text "upstream_model" r)
    (first_some (column_text "model_group" r) (first_some (column_text "model" r) (column_text "requested_model" r))).
(** [_ledger_model_filter_sql] with the parameters of [_model_filter_params] *)
Definition passes_filter (ACCOUNT_COUNT : Z) (model_filter : option string) (r : odict (cell F)) : bool :=
  match model_filter with
  | None => true
  | Some f => match row_model r with Some m => bool_decide (m ∈ _model_filter_values ACCOUNT_COUNT f) | None => false end
  end.
(** [None if model == "all" else model] *)
Definition chosen_filter (model : string) : option string := if bool_decide (model = "all"%string) then None else Some model.
End rows.

(** ** The summary *)

(** Python's [sorted] by a strict order: equal elements keep their order. *)
Fixpoint insert_sorted {A} (lt : A -> A -> bool) (x : A) (l : list A) : list A :=
  match l with [] => [x] | y :: l => if lt y x then y :: insert_sorted lt x l else x :: y :: l end.
Definition sorted_with {A} (lt : A -> A -> bool) (l : list A) : list A := foldr (insert_sorted lt) [] l.
(** [GROUP BY], the groups in the order of their keys *)
Definition grouped {A K} `{EqDecision K} (lt : K -> K -> bool) (key : A -> K) (l : list A) : list (K * list A) :=
  map (fun k => (k, List.filter (fun x => bool_decide (key x = k)) l)) (sorted_with lt (remove_dups (map key l))).
(** The order of a text column: [NULL] comes last. *)
Definition text_ltb (a b : option string) : bool :=
  match a, b with Some a, Some b => String.ltb a b | Some _, None => true | None, _ => false end.
Fixpoint texts_ltb (a b : list (option string)) : bool :=
  match a, b with
  | x :: a, y :: b => text_ltb x y || (bool_decide (x = y) && texts_ltb a b)
  | _, _ => false
  end.
Definition USAGE_KEYS : list string :=
  ["usage_units"; "input_tokens"; "output_tokens"; "cached_input_tokens"; "orchestration_input_tokens";
   "orchestration_output_tokens"; "total_tokens"; "estimated_cost_usd"; "litellm_spend"]%string.
Definition usage_sums : Type := odict fdec.
Definition _usage_totals : usage_sums := map (fun k => (k, (0, 0))) USAGE_KEYS.
Definition units_of (k : string) (u : usage_sums) : fdec := default (0, 0) (dget k u).
(** [x or 0], and [totals[key] += x or 0] for every key *)
Definition or_0 (x : fdec) : fdec := if x.1 =? 0 then (0, 0) else x.
Definition add_usage (used totals : usage_sums) : usage_sums := map (fun kv => (kv.1, dadd kv.2 (or_0 (units_of kv.1 used)))) totals.
Definition has_usage (used : usage_sums) : bool :=
  existsb (fun k => negb ((units_of k used).1 =? 0)) ["usage_units"; "total_tokens"; "estimated_cost_usd"; "litellm_spend"]%string.
(** Of an account without usage nothing is shown when another model is chosen. *)
Definition unused_is_hidden (model_filter : option string) : bool :=
  match model_filter with Some f => negb (bool_decide (f ∈ MODEL_PUBLIC_NAMES)) | None => false end.
Definition WINDOW_NAMES : list string := ["5h"; "week"; "month"; "30d"]%string.
Definition window_named (w : string) : string := if bool_decide (w ∈ WINDOW_NAMES) then w else "5h".
(** [date_trunc], for a database whose time zone is UTC *)
Definition bucket_of (window : string) (t : instant) : instant :=
  if bool_decide (window = "5h"%string) then t / usec_per_hour * usec_per_hour else day_start t.

Record shown_route := {
  rt_id : string;
  rt_name : string;
  rt_kind : string;
  rt_used : usage_sums;
  rt_start : instant;
  rt_allowance : option dec;
  rt_ratio : option dec;
}.
Record progress := { pg_totals : usage_sums; pg_start : instant; pg_routes : list shown_route }.
Record point := { pt_bucket : instant; pt_route : string; pt_units : fdec }.

Section summary.
Context {F : Type} `{PyFloat F}.
Variable ACCOUNT_COUNT : Z.
Variable complete : odict string -> string -> odict string.
Abbreviation row := (odict (cell F)).

(** *** The rows of a query, and their sums *)

Definition raw_text (c : string) (r : row) : option string :=
  match cell_of c r with CText (JStr s) => Some s | _ => None end.
Definition number_of (c : string) (r : row) : fdec :=
  match cell_of c r with CInt z => (z, 0) | CNum (DFin m e) => (m, e) | _ => (0, 0) end.
Definition sum_of (c : string) (l : list row) : fdec := foldr (fun r acc => nadd (number_of c r) acc) (0, 0) l.
Definition sums (l : list row) : usage_sums := map (fun c => (c, sum_of c l)) USAGE_KEYS.
Definition succeeded (r : row) : bool := is_text "success" (cell_of "status" r).
Definition since (start : instant) (r : row) : bool :=
  match cell_of "start_time" r with CTime t => start <=? t | _ => false end.
Definition no_account (r : row) : bool := match cell_of "account_id" r with CNull => true | _ => false end.
Definition selected (model_filter : option string) (start : instant) (r : row) : bool :=
  succeeded r && since start r && passes_filter ACCOUNT_COUNT model_filter r.
Definition account_rows (d : db F) (model_filter : option string) (id : string) (start : instant) : list row :=
  List.filter (fun r => is_text id (cell_of "account_id" r) && selected model_filter start r) (dvalues (db_ledger d)).
Definition direct_rows (d : db F) (model_filter : option string) (start : instant) : list row :=
  List.filter (fun r => no_account r && selected model_filter start r) (dvalues (db_ledger d)).
Definition MODEL_COLUMNS : list string := ["requested_model"; "upstream_model"; "model_group"; "model"]%string.
Definition model_key (r : row) : list (option string) := map (fun c => raw_text c r) MODEL_COLUMNS.
Definition direct_groups (d : db F) (model_filter : option string) (start : instant) : list (list (option string) * list row) :=
  grouped texts_ltb model_key (direct_rows d model_filter start).

(** *** The routes *)

(** [ORDER BY priority]; the order of equals, which the statement leaves open, is that of
    the identifiers. *)
Definition account_ltb (a b : string * account) : bool :=
  (ac_priority a.2 <? ac_priority b.2) || ((ac_priority a.2 =? ac_priority b.2) && String.ltb a.1 b.1).
Definition enabled_accounts (d : db F) : list (string * account) :=
  sorted_with account_ltb (List.filter (fun kv => ac_enabled kv.2) (map_to_list (db_accounts d))).
Definition account_window (d : db F) (id window : string) (global_start now : instant) : instant * option dec :=
  if bool_decide (window = "30d"%string) then (global_start, None)
  else match db_windows d !! (id, window) with
       | Some w => (_window_start (wi_anchor w) (wi_interval w) now, wi_allowance w)
       | None => (now, None)
       end.
(** One turn of the loop over the accounts; [account_kind] has its default. *)
Definition account_step (d : db F) (model_filter : option string) (window : string) (global_start now : instant)
    (kv : string * account) (p : progress) : result progress :=
  let '(start, allowance) := account_window d kv.1 window global_start now in
  let used := sums (account_rows d model_filter kv.1 start) in
  let totals := add_usage used (pg_totals p) in
  let min_start := Z.min (pg_start p) start in
  if unused_is_hidden model_filter && negb (has_usage used) then
    Ok {| pg_totals := totals; pg_start := min_start; pg_routes := pg_routes p |}
  else
    ratio ← match allowance with
            | Some a => if dtruthy a then q ← ddiv (DF (units_of "usage_units" used)) a; Ok (Some q) else Ok None
            | None => Ok None
            end;
    Ok {| pg_totals := totals; pg_start := min_start;
          pg_routes := pg_routes p ++
            [{| rt_id := kv.1; rt_name := ac_display_name kv.2; rt_kind := "subscription"; rt_used := used;
                rt_start := start; rt_allowance := allowance; rt_ratio := ratio |}] |}.
Fixpoint account_steps (d : db F) (model_filter : option string) (window : string) (global_start now : instant)
    (l : list (string * account)) (p : progress) : result progress :=
  match l with
  | [] => Ok p
  | kv :: l => p ← account_step d model_filter window global_start now kv p; account_steps d model_filter window global_start now l p
  end.
(** [a or b or c]: the first text that is not empty *)
Definition or_texts (l : list (option string)) : string :=
  default EmptyString (hd_error (List.filter non_empty (omap id l))).
(** The route of a row without account, of its requested, upstream, group and own model *)
Definition direct_upstream (key : list (option string)) : string :=
  match key with requested :: rest => or_texts (rest ++ [requested]) | [] => EmptyString end.
Definition direct_requested (key : list (option string)) : string := default EmptyString (mjoin (hd_error key)).
Definition direct_step (global_start : instant) (p : progress) (g : list (option string) * list row) : progress :=
  let route_id := _direct_route_id (direct_requested g.1) (direct_upstream g.1) in
  let used := sums g.2 in
  {| pg_totals := add_usage used (pg_totals p); pg_start := pg_start p;
     pg_routes := pg_routes p ++
       [{| rt_id := route_id; rt_name := _direct_route_name (direct_requested g.1) (direct_upstream g.1);
           rt_kind := if startswith "fallback:" route_id then "fallback" else "direct"; rt_used := used;
           rt_start := global_start; rt_allowance := None; rt_ratio := None |}] |}.

(** *** The chart, and the last calls *)

Fixpoint add_point (bucket : instant) (id : string) (units : fdec) (l : list point) : list point :=
  match l with
  | [] => [{| pt_bucket := bucket; pt_route := id; pt_units := dadd (0, 0) units |}]
  | p :: l =>
      if (pt_bucket p =? bucket) && bool_decide (pt_route p = id)
      then {| pt_bucket := bucket; pt_route := id; pt_units := dadd (pt_units p) units |} :: l
      else p :: add_point bucket id units l
  end.
Definition point_key (window : string) (r : row) : instant * list (option string) :=
  (match cell_of "start_time" r with CTime t => bucket_of window t | _ => 0 end, raw_text "account_id" r :: model_key r).
Definition point_ltb (a b : instant * list (option string)) : bool := (a.1 <? b.1) || ((a.1 =? b.1) && texts_ltb a.2 b.2).
Definition route_of_key (key : list (option string)) : string :=
  match key with
  | Some id :: models => if non_empty id then id else _direct_route_id (direct_requested models) (direct_upstream models)
  | _ :: models => _direct_route_id (direct_requested models) (direct_upstream models)
  | [] => EmptyString
  end.
Definition series (d : db F) (model_filter : option string) (window : string) (min_start : instant) : list point :=
  foldl (fun l g => add_point g.1.1 (route_of_key g.1.2) (or_0 (sum_of "usage_units" g.2)) l) []
    (grouped point_ltb (point_key window) (List.filter (selected model_filter min_start) (dvalues (db_ledger d)))).
(** [ORDER BY start_time DESC NULLS LAST, created_at DESC]: rows are created in the order of
    the table. *)
Definition later (a b : row) : bool :=
  match cell_of "start_time" a, cell_of "start_time" b with
  | CTime a, CTime b => b <? a
  | CTime _, _ => true
  | _, _ => false
  end.
Definition recent_route (r : row) : string :=
  let account := default EmptyString (raw_text "account_id" r) in
  if non_empty account then account
  else _direct_route_id (default EmptyString (raw_text "requested_model" r))
         (or_texts [raw_text "upstream_model" r; raw_text "model_group" r; raw_text "requested_model" r]).
Definition recent (d : db F) (model_filter : option string) : list (string * row) :=
  map (fun r => (recent_route r, r))
    (take 50 (sorted_with later (rev (List.filter (passes_filter ACCOUNT_COUNT model_filter) (dvalues (db_ledger d)))))).

(** *** The page *)

Record page := {
  pa_window : string;
  pa_model : string;
  pa_models : list offered;
  pa_totals : usage_sums;
  pa_accounts : list shown_route;
  pa_series : list point;
  pa_recent : list (string * row);
  pa_snapshots : list row;
}.
(** The models of the rows, each once, in their order *)
Definition ledger_models (d : db F) : list string := sorted_with String.ltb (remove_dups (omap row_model (dvalues (db_ledger d)))).
(** [snapshots]: the rows of a table that the router only reads, the newest first *)
Definition summary (MASTER_KEY : string) (headers : odict string) (window model : string) (snapshots : list row)
    (now : instant) (d : db F) : result (answered + page) :=
  match _require_admin complete MASTER_KEY headers with
  | Some denied => Ok (inl denied)
  | None =>
      let window := window_named window in
      let model_filter := chosen_filter model in
      let global_start := _dashboard_window_start window now in
      p ← account_steps d model_filter window global_start now (enabled_accounts d)
            {| pg_totals := _usage_totals; pg_start := global_start; pg_routes := [] |};
      let p := foldl (direct_step global_start) p (direct_groups d model_filter global_start) in
      Ok (inr {| pa_window := window; pa_model := model; pa_models := _dashboard_models (ledger_models d);
                 pa_totals := pg_totals p; pa_accounts := pg_routes p;
                 pa_series := series d model_filter window (pg_start p);
                 pa_recent := recent d model_filter; pa_snapshots := take 20 snapshots |})
  end.
End summary.

(** ** Trying again *)

(** [except psycopg.OperationalError] *)
Definition is_operational (e : exn) : bool :=
  match e with OtherError c _ => bool_decide (c = "OperationalError"%string) | _ => false end.
(** The loop of [_conn] and of [_retry_read_operation] from attempt [i], with [more]
    allowed: the result, and the exponents of two of the waits. *)
Fixpoint retry_from {A} (more i : nat) (attempt : nat -> result A) : result A * list nat :=
  match more with
  | O => (Raise (RuntimeError "unreachable"), [])
  | S more =>
      match attempt i with
      | Raise e =>
          if is_operational e && negb (more =? 0)%nat then
            let '(r, waits) := retry_from more (S i) attempt in (r, i :: waits)
          else (Raise e, [])
      | Ok a => (Ok a, [])
      end
  end.
Definition retried {A} (attempts : nat) (attempt : nat -> result A) : result A * list nat := retry_from attempts 0 attempt.

(** ** Fugu router: theorems about the dashboard's models and the retries *)

(** ** The filter of a model *)

(** A name of a numbered subscription, whatever its number *)
Definition numbered (m : string) : bool := found (re_match ultra_re m) || found (re_match fugu_re m).
Lemma dget_aliases m v : dget m public_aliases = Some v -> (m, v) ∈ public_aliases.
Proof. apply dget_Some_elem. Qed.
Lemma normalize_plain m : m <> EmptyString -> numbered m = false -> _normalize_public_model m = default m (dget m public_aliases).
Proof.
  intros Hm Hn. unfold numbered in Hn. apply orb_false_iff in Hn as [Hu Hf]. unfold _normalize_public_model.
  rewrite bool_decide_false by done. by rewrite Hu, Hf.
Qed.
Lemma alias_targets : Forall (fun kv => _normalize_public_model kv.2 = kv.2 /\ _normalize_public_model kv.1 = kv.2 /\
  kv.1 ∈ default [] (dget kv.2 other_names)) public_aliases.
Proof. repeat constructor. Qed.
Lemma other_name_targets : Forall (fun kv => Forall (fun name => _normalize_public_model name = kv.1) kv.2) other_names.
Proof. repeat constructor. Qed.
Lemma normalize_numbered m : m <> EmptyString -> numbered m = true -> _normalize_public_model m ∈ MODEL_PUBLIC_NAMES.
Proof.
  intros Hm Hn. unfold numbered in Hn. unfold _normalize_public_model. rewrite bool_decide_false by done.
  destruct (found (re_match ultra_re m)); [by left|]. simpl in Hn. rewrite Hn. right. left.
Qed.
Lemma normalize_idempotent m : _normalize_public_model (_normalize_public_model m) = _normalize_public_model m.
Proof.
  destruct (decide (m = EmptyString)) as [->|Hm]; [reflexivity|]. destruct (numbered m) eqn:En.
  - pose proof (normalize_numbered m Hm En) as Hin. unfold MODEL_PUBLIC_NAMES in Hin.
    rewrite !elem_of_cons, elem_of_nil in Hin. destruct Hin as [->|[->|[]]]; reflexivity.
  - rewrite (normalize_plain m) by done. destruct (dget m public_aliases) as [v|] eqn:Ev; simpl.
    + apply dget_aliases in Ev. pose proof alias_targets as Ht. rewrite Forall_forall in Ht. apply (Ht _ Ev).
    + rewrite normalize_plain by done. by rewrite Ev.
Qed.

(** ** Numbers *)

Lemma pretty_digits x : forall s, sall is_digit (pretty_N_go x s) = sall is_digit s.
Proof.
  induction x as [x IH] using (well_founded_induction N.lt_wf_0). intros s. destruct (decide (0 < x)%N) as [Hx|Hx].
  - rewrite pretty_N_go_step by done. rewrite IH by (apply N.div_lt; lia). simpl.
    assert (x `mod` 10 < 10)%N as Hm by (apply N.mod_lt; lia). by destruct (digit_char _ Hm) as [-> _].
  - assert (x = 0%N) as -> by lia. by rewrite pretty_N_go_0.
Qed.
Lemma positive_text i : 1 <= i -> exists c t, str_of_Z i = String c t /\ is_digit c = true /\ sall is_digit t = true.
Proof.
  intros Hi. destruct i as [|p|p]; [lia| |lia]. unfold str_of_Z.
  change (pretty (Z.pos p)) with (pretty (N.pos p)). rewrite pretty_N_pos by lia.
  destruct (pretty_head (N.pos p) ltac:(lia) EmptyString) as (c & t & Ht & Hc & _).
  exists c, t. split; [done|]. split; [done|]. pose proof (pretty_digits (N.pos p) EmptyString) as Hd. rewrite Ht in Hd.
  simpl in Hd. by apply andb_true_iff in Hd as [_ Hd].
Qed.
Lemma subscription_name_normal m i : m ∈ MODEL_PUBLIC_NAMES -> 1 <= i ->
  _normalize_public_model (m +:+ "-sub-" +:+ str_of_Z i) = m.
Proof. intros Hm Hi. destruct (positive_text i Hi) as (c & t & -> & Hc & Ht). by apply normalize_sub. Qed.

(** Choosing a model in the dashboard selects the rows that it shows under this model: a
    name passes the filter of [f] only if it is shown as [f] is, and every name shown like
    that passes, but for the numbered subscriptions beyond the configured count. *)
Theorem filter_selects_the_shown_model n f m :
  f <> EmptyString -> m <> EmptyString ->
  (m ∈ _model_filter_values n f -> _normalize_public_model m = _normalize_public_model f) /\
  (_normalize_public_model m = _normalize_public_model f -> numbered m = false -> m ∈ _model_filter_values n f) /\
  (forall i, 1 <= i <= n -> m = (_normalize_public_model f +:+ "-sub-" +:+ str_of_Z i)%string ->
     _normalize_public_model f ∈ MODEL_PUBLIC_NAMES -> m ∈ _model_filter_values n f).
Proof.
  intros Hf Hm. unfold _model_filter_values, subscription_names. rewrite bool_decide_false by done. cbv zeta. split_and!.
  - intros Hin. apply elem_of_cons in Hin as [->|Hin]; [done|].
    apply elem_of_cons in Hin as [->|Hin]; [apply normalize_idempotent|].
    apply elem_of_app in Hin as [Hin|Hin].
    + case_bool_decide as Hp; [|by apply not_elem_of_nil in Hin].
      apply list_elem_of_fmap in Hin as (i & -> & Hi%elem_of_seqZ). apply subscription_name_normal; [done|lia].
    + destruct (dget _ other_names) as [l|] eqn:El; [|by apply not_elem_of_nil in Hin].
      apply dget_Some_elem in El. pose proof other_name_targets as Ht. rewrite Forall_forall in Ht. specialize (Ht _ El).
      rewrite Forall_forall in Ht. by apply Ht.
  - intros He Hn. rewrite normalize_plain in He by done. destruct (dget m public_aliases) as [v|] eqn:Ev; simpl in He.
    + apply dget_aliases in Ev. pose proof alias_targets as Ht. rewrite Forall_forall in Ht. destruct (Ht _ Ev) as (_ & _ & Ho).
      simpl in Ho. subst v. right. right. apply elem_of_app. by right.
    + rewrite He. right. left.
  - intros i Hi -> Hp. right. right. apply elem_of_app. left. rewrite bool_decide_true by done.
    apply list_elem_of_fmap. exists i. split; [done|]. apply elem_of_seqZ. lia.
Qed.
Lemma filter_selects_the_shown_model_witness :
  _normalize_public_model "xai/grok-4.5" = _normalize_public_model "grok-4.5" /\ "fugu-sub-2"%string ∈ _model_filter_values 3 "fugu".
Proof.
  destruct (filter_selects_the_shown_model 3 "grok-4.5" "xai/grok-4.5") as (H1 & _ & _); [done|done|].
  destruct (filter_selects_the_shown_model 3 "fugu" "fugu-sub-2") as (_ & _ & H3); [done|done|].
  split; [apply H1; right; right; left|]. apply (H3 2); [lia|reflexivity|right; left].
Defined.
(** A subscription that is no longer configured is shown as its model and not selected by it. *)
Example former_subscription_is_not_selected :
  _normalize_public_model "fugu-sub-4" = "fugu"%string /\ bool_decide ("fugu-sub-4"%string ∈ _model_filter_values 3 "fugu") = false.
Proof. vm_compute. done. Qed.

(** ** The summary: theorems *)

Section summary_facts.
Context {F : Type} `{PyFloat F}.
Variable ACCOUNT_COUNT : Z.
Variable complete : odict string -> string -> odict string.
Abbreviation row := (odict (cell F)).
Abbreviation account_rows := (account_rows ACCOUNT_COUNT).
Abbreviation direct_rows := (direct_rows ACCOUNT_COUNT).
Abbreviation direct_groups := (direct_groups ACCOUNT_COUNT).
Abbreviation account_step := (account_step ACCOUNT_COUNT).
Abbreviation account_steps := (account_steps ACCOUNT_COUNT).
Abbreviation selected := (selected ACCOUNT_COUNT).
Implicit Types (d : db F) (r : row) (l : list row) (mf : option string) (kv : string * account).

(** *** What is counted *)

Lemma insert_sorted_perm {A} (lt : A -> A -> bool) x (xs : list A) : insert_sorted lt x xs ≡ₚ x :: xs.
Proof. induction xs as [|y xs IH]; [done|]. cbn [insert_sorted]. destruct (lt y x); [|done]. rewrite IH. apply perm_swap. Qed.
Lemma sorted_with_perm {A} (lt : A -> A -> bool) (xs : list A) : sorted_with lt xs ≡ₚ xs.
Proof. unfold sorted_with. induction xs as [|x xs IH]; [done|]. cbn [foldr]. by rewrite insert_sorted_perm, IH. Qed.
Lemma grouped_whole {A K} `{EqDecision K} (lt : K -> K -> bool) (key : A -> K) (xs : list A) :
  concat (map snd (grouped lt key xs)) ≡ₚ xs.
Proof.
  unfold grouped. rewrite map_map. cbn [snd]. apply partition_by_key.
  - rewrite sorted_with_perm. apply NoDup_remove_dups.
  - intros x Hx. rewrite sorted_with_perm. apply elem_of_remove_dups, list_elem_of_fmap. by exists x.
Qed.
Lemma enabled_elem d kv : kv ∈ enabled_accounts d <-> db_accounts d !! kv.1 = Some kv.2 /\ ac_enabled kv.2 = true.
Proof.
  unfold enabled_accounts. rewrite sorted_with_perm, !list_elem_of_In, filter_In, <- list_elem_of_In.
  destruct kv as [id a]. by rewrite elem_of_map_to_list.
Qed.
Lemma enabled_NoDup d : NoDup (enabled_accounts d).
Proof. unfold enabled_accounts. rewrite sorted_with_perm. apply NoDup_ListNoDup, List.NoDup_filter, NoDup_ListNoDup, NoDup_map_to_list. Qed.

(** The rows that are counted for an account: of its own, from the start of its window *)
Definition of_window d mf (window : string) (global_start now : instant) kv r : bool :=
  is_text kv.1 (cell_of "account_id" r) && selected mf (account_window d kv.1 window global_start now).1 r.
(** The calls of the summary *)
Definition counted_here d mf (window : string) (global_start now : instant) r : bool :=
  existsb (fun kv => of_window d mf window global_start now kv r) (enabled_accounts d) ||
  (no_account r && selected mf global_start r).
Definition count_groups (groups : list (list row)) (totals : usage_sums) : usage_sums :=
  foldl (fun totals l => add_usage (sums l) totals) totals groups.
Definition window_rows d mf (window : string) (global_start now : instant) kv : list row :=
  account_rows d mf kv.1 (account_window d kv.1 window global_start now).1.

Lemma account_step_spec d mf window global_start now kv p p' :
  account_step d mf window global_start now kv p = Ok p' ->
  pg_totals p' = add_usage (sums (window_rows d mf window global_start now kv)) (pg_totals p) /\
  exists more, pg_routes p' = pg_routes p ++ more.
Proof.
  unfold account_step, FuguDashboard.account_step, window_rows.
  destruct (account_window d kv.1 window global_start now) as [start allowance]. cbn [fst]. cbv zeta.
  destruct (unused_is_hidden mf && _).
  - intros [= <-]. split; [done|]. exists []. by rewrite app_nil_r.
  - intros (ratio & _ & [= <-])%bind_Ok. split; [done|]. by eexists.
Qed.
Lemma account_steps_spec d mf window global_start now kvs p p' :
  account_steps d mf window global_start now kvs p = Ok p' ->
  pg_totals p' = count_groups (map (window_rows d mf window global_start now) kvs) (pg_totals p) /\
  exists more, pg_routes p' = pg_routes p ++ more.
Proof.
  revert p. induction kvs as [|kv kvs IH]; intros p.
  - intros [= <-]. split; [done|]. exists []. by rewrite app_nil_r.
  - cbn [FuguDashboard.account_steps]. intros (p1 & H1 & H2)%bind_Ok. apply account_step_spec in H1 as [Ht1 [m1 Hr1]].
    apply IH in H2 as [Ht2 [m2 Hr2]]. split; [by rewrite Ht2, Ht1|]. exists (m1 ++ m2). by rewrite Hr2, Hr1, app_assoc.
Qed.
Lemma direct_steps_spec global_start (gs : list (list (option string) * list row)) p :
  pg_totals (foldl (direct_step global_start) p gs) = count_groups (map snd gs) (pg_totals p) /\
  exists more, pg_routes (foldl (direct_step global_start) p gs) = pg_routes p ++ more.
Proof.
  revert p. induction gs as [|g gs IH]; intros p; cbn [foldl map]; [split; [done|exists []; by rewrite app_nil_r]|].
  destruct (IH (direct_step global_start p g)) as [Ht [more Hr]]. split; [by rewrite Ht|].
  eexists. rewrite Hr. cbn [direct_step pg_routes]. by rewrite <- app_assoc.
Qed.
Lemma summary_page_spec key headers window model snapshots now d pg :
  summary ACCOUNT_COUNT complete key headers window model snapshots now d = Ok (inr pg) ->
  let w := window_named window in
  let global_start := _dashboard_window_start w now in
  exists p more, account_steps d (chosen_filter model) w global_start now (enabled_accounts d)
      {| pg_totals := _usage_totals; pg_start := global_start; pg_routes := [] |} = Ok p /\
    pa_totals pg = count_groups (map snd (direct_groups d (chosen_filter model) global_start)) (pg_totals p) /\
    pa_accounts pg = pg_routes p ++ more.
Proof.
  unfold summary. destruct (_require_admin complete key headers); [done|]. cbv zeta. intros (p & Hp & [= <-])%bind_Ok.
  destruct (direct_steps_spec (_dashboard_window_start (window_named window) now)
    (direct_groups d (chosen_filter model) (_dashboard_window_start (window_named window) now)) p) as [Ht [more Hr]].
  exists p, more. split; [exact Hp|]. by split.
Qed.
Lemma rows_are_cut d mf window global_start now :
  concat (map (window_rows d mf window global_start now) (enabled_accounts d)) ++ direct_rows d mf global_start ≡ₚ
  List.filter (counted_here d mf window global_start now) (dvalues (db_ledger d)).
Proof.
  unfold window_rows, FuguDashboard.account_rows, counted_here, FuguDashboard.direct_rows.
  rewrite (disjoint_filters (of_window d mf window global_start now)).
  - apply filter_or_disjoint. intros r (kv & _ & Hkv)%existsb_exists Hn. unfold of_window, no_account in *.
    apply andb_true_iff in Hkv as [Hkv _]. by destruct (cell_of "account_id" r).
  - apply enabled_NoDup.
  - intros r kv kv' [Ha _]%enabled_elem [Ha' _]%enabled_elem [Hk _]%andb_true_iff [Hk' _]%andb_true_iff.
    unfold is_text in *. destruct (cell_of "account_id" r) as [|[]| | | |]; try done.
    apply bool_decide_eq_true in Hk, Hk'. destruct kv, kv'. simpl in *. by simplify_eq.
Qed.

(** The totals of the summary count every call once: they are the sums over a list of groups of
    rows, added one group after the other, and these groups together are the successful calls
    of the chosen model that have no account, since the start of the page's window, or an
    account that is enabled, since the start of the account's window. *)
Theorem totals_count_every_call_once key headers window model snapshots now d pg :
  summary ACCOUNT_COUNT complete key headers window model snapshots now d = Ok (inr pg) ->
  let w := window_named window in
  exists groups, pa_totals pg = count_groups groups _usage_totals /\
    concat groups ≡ₚ List.filter (counted_here d (chosen_filter model) w (_dashboard_window_start w now) now) (dvalues (db_ledger d)).
Proof.
  intros (p & more & Hp & Ht & _)%summary_page_spec. cbv zeta. apply account_steps_spec in Hp as [Hp _].
  eexists (_ ++ _). unfold count_groups in *. rewrite Ht, Hp. rewrite <- foldl_app. split; [reflexivity|].
  rewrite concat_app. etrans; [|apply rows_are_cut]. apply Permutation_app_head, grouped_whole.
Qed.

(** *** What is shown is what decides *)

(** A row that the router wrote for a subscription *)
Definition of_subscription r : Prop :=
  exists m i, m ∈ MODEL_PUBLIC_NAMES /\ 1 <= i <= ACCOUNT_COUNT /\ cell_of "requested_model" r = CText (JStr m) /\
    cell_of "upstream_model" r = CText (JStr (m +:+ "-sub-" +:+ str_of_Z i)) /\ forall z, cell_of "usage_units" r <> CInt z.
Lemma subscription_filter f r :
  f ∈ MODEL_PUBLIC_NAMES -> of_subscription r ->
  passes_filter ACCOUNT_COUNT (Some f) r = is_text f (cell_of "requested_model" r) /\ number_of "usage_units" r = row_units r.
Proof.
  intros Hf (m & i & Hm & Hi & Hreq & Hup & Hu). split.
  2: { unfold number_of, row_units. by destruct (cell_of "usage_units" r) as [| | |z| |]; [..|destruct (Hu z)| |]. }
  set (u := (m +:+ "-sub-" +:+ str_of_Z i)%string) in *. assert (u <> EmptyString) as Hue by (subst u; by destruct m).
  assert (f <> EmptyString /\ _normalize_public_model f = f) as [Hfe Hnf].
  { unfold MODEL_PUBLIC_NAMES in Hf. rewrite !elem_of_cons, elem_of_nil in Hf. by destruct Hf as [->|[->|[]]]. }
  assert (_normalize_public_model u = m) as Hnu by (apply subscription_name_normal; [done|lia]).
  destruct (filter_selects_the_shown_model ACCOUNT_COUNT f u Hfe Hue) as (H1 & _ & H3).
  unfold passes_filter, row_model, column_text, is_text. rewrite Hup, Hreq. rewrite bool_decide_false by done. cbn [first_some].
  apply bool_decide_ext. split; [intros Hin%H1; congruence|]. intros ->. apply (H3 i); [done|by rewrite Hnf|by rewrite Hnf].
Qed.
(** C32: The score by which the router orders an account for one of its windows is what the page
    shows for it when the same model and window are chosen: the ratio, or the units used
    where no allowance is set. So it is for an enabled account with this window and a public
    model, as long as every ledger row of the account is of a subscription: a public model
    was asked for, and the upstream name is this model with "-sub-" and a number from 1 to
    ACCOUNT_COUNT. Rows of other calls the page and the router may count differently. *)
Theorem page_shows_the_routing_score key headers window model snapshots now d pg kv w :
  summary ACCOUNT_COUNT complete key headers window model snapshots now d = Ok (inr pg) ->
  model ∈ MODEL_PUBLIC_NAMES -> window ∈ ["5h"; "week"; "month"]%string ->
  db_accounts d !! kv.1 = Some kv.2 -> ac_enabled kv.2 = true -> db_windows d !! (kv.1, window) = Some w ->
  Forall (fun r => is_text kv.1 (cell_of "account_id" r) = true -> of_subscription r) (dvalues (db_ledger d)) ->
  exists rt, rt ∈ pa_accounts pg /\ rt_id rt = kv.1 /\
    units_of "usage_units" (rt_used rt) = used_units d kv.1 model (rt_start rt) /\
    window_score d now model kv.1 window = Ok (default (DF (units_of "usage_units" (rt_used rt))) (rt_ratio rt)).
Proof.
  intros (p & more & Hp & _ & Hpg)%summary_page_spec Hm Hw Ha He Hwi Hrows.
  assert (kv ∈ enabled_accounts d) as Hin by by apply enabled_elem.
  assert (window_named window = window /\ window <> "30d"%string) as [Hwn H30].
  { rewrite !elem_of_cons, elem_of_nil in Hw. by destruct Hw as [->|[->|[->|[]]]]. }
  assert (chosen_filter model = Some model /\ unused_is_hidden (Some model) = false) as [Hf Hh].
  { unfold MODEL_PUBLIC_NAMES in Hm. rewrite !elem_of_cons, elem_of_nil in Hm. by destruct Hm as [->|[->|[]]]. }
  rewrite Hwn, Hf in Hp. revert Hp Hin. generalize (enabled_accounts d). intros kvs.
  match goal with |- account_steps _ _ _ _ _ _ ?q = _ -> _ => generalize q end.
  induction kvs as [|kv0 kvs IH]; intros p0 Hp Hin; [by apply not_elem_of_nil in Hin|].
  cbn [FuguDashboard.account_steps] in Hp. apply bind_Ok in Hp as (p1 & H1 & H2).
  apply elem_of_cons in Hin as [->|Hin]; [|by apply (IH p1)]. apply account_steps_spec in H2 as [_ [m2 Hr2]].
  unfold FuguDashboard.account_step, account_window in H1. rewrite bool_decide_false, Hwi in H1 by done. cbv zeta in H1.
  rewrite Hh in H1. cbn [andb] in H1. apply bind_Ok in H1 as (ratio & Hratio & [= <-]).
  eexists. split; [rewrite Hpg, Hr2; apply elem_of_app; left; apply elem_of_app; left; apply elem_of_app; right; left|].
  cbn [rt_id rt_used rt_start rt_ratio]. split; [done|].
  assert (units_of "usage_units" (sums (account_rows d (Some model) kv0.1 (_window_start (wi_anchor w) (wi_interval w) now))) =
    used_units d kv0.1 model (_window_start (wi_anchor w) (wi_interval w) now)) as Hu.
  { change (sum_of "usage_units" (account_rows d (Some model) kv0.1 (_window_start (wi_anchor w) (wi_interval w) now)) =
      used_units d kv0.1 model (_window_start (wi_anchor w) (wi_interval w) now)).
    unfold used_units, FuguDashboard.account_rows, sum_of. clear -Hrows Hm. induction Hrows as [|r rows Hr _ IH]; [done|].
    cbn [List.filter]. unfold counted at 1. destruct (is_text kv0.1 (cell_of "account_id" r)); [|exact IH].
    destruct (subscription_filter model r Hm (Hr eq_refl)) as [Hpf Hnu]. unfold FuguDashboard.selected at 1. rewrite Hpf.
    cbn [andb]. unfold succeeded, since.
    rewrite (andb_comm (is_text "success" _ && _) (is_text model _)), andb_assoc.
    destruct (_ && _ && _); [|exact IH]. cbn [foldr]. by rewrite Hnu, IH. }
  split; [exact Hu|]. unfold window_score. rewrite Hwi, <- Hu. destruct (wi_allowance w) as [a|]; [|by injection Hratio as <-].
  destruct (dtruthy a); [|by injection Hratio as <-]. apply bind_Ok in Hratio as (q & Hq & [= <-]). exact Hq.
Qed.
End summary_facts.

(** *** Two subscriptions, one of them withdrawn *)

Definition demo_call (id upstream : string) (units : Z) (t : instant) : odict (cell spec_float) :=
  [("start_time", CTime t); ("status", CText (JStr "success")); ("requested_model", CText (JStr "fugu"));
   ("upstream_model", CText (JStr upstream)); ("model", CText (JStr upstream)); ("account_id", CText (JStr id));
   ("total_tokens", CInt units); ("usage_units", CNum (DFin units 0))]%string.
Definition withdrawn (a : account) : account := {|
  ac_display_name := ac_display_name a; ac_billing_plan := ac_billing_plan a; ac_enabled := false;
  ac_priority := ac_priority a |}.
Definition used_installation : db spec_float :=
  with_ledger [("r1", demo_call "sub1" "fugu-sub-1" 120 noon); ("r2", demo_call "sub2" "fugu-sub-2" 80 noon)]%string
    (with_accounts (alter withdrawn "sub2"%string (db_accounts installation)) installation).
Definition demo_page : result (answered + page) :=
  summary 3 (fun h _ => h) "" [] "5h" "fugu" [] (noon + hours 1) used_installation.
Lemma page_is_shown : exists pg, demo_page = Ok (inr pg).
Proof.
  destruct demo_page as [[a|pg]|e] eqn:E; [|by exists pg|]; exfalso.
  - assert (match demo_page with Ok (inl _) => true | _ => false end = false) as Hn by (vm_compute; reflexivity). by rewrite E in Hn.
  - assert (match demo_page with Raise _ => true | _ => false end = false) as Hn by (vm_compute; reflexivity). by rewrite E in Hn.
Qed.
Lemma totals_count_every_call_once_witness :
  exists (pg : page (F := spec_float)) groups, pa_totals pg = count_groups (F := spec_float) groups _usage_totals /\ length (concat groups) = 1%nat.
Proof.
  destruct page_is_shown as [pg Hpg]. unfold demo_page in Hpg.
  destruct (totals_count_every_call_once 3 (fun h _ => h) "" [] "5h" "fugu" [] (noon + hours 1) used_installation pg Hpg)
    as (groups & Ht & Hp).
  exists pg, groups. split; [exact Ht|]. rewrite Hp. vm_compute. reflexivity.
Defined.
Lemma page_shows_the_routing_score_witness :
  exists (pg : page (F := spec_float)) rt, rt ∈ pa_accounts pg /\ rt_id rt = "sub1"%string /\
    Ok (DFin 24 (-2)) = Ok (default (DF (units_of "usage_units" (rt_used rt))) (rt_ratio rt)).
Proof.
  destruct page_is_shown as [pg Hpg]. unfold demo_page in Hpg.
  destruct (db_accounts used_installation !! "sub1"%string) as [a|] eqn:Ea; [|exfalso; vm_compute in Ea; discriminate Ea].
  destruct (db_windows used_installation !! ("sub1", "5h")%string) as [w|] eqn:Ew; [|exfalso; vm_compute in Ew; discriminate Ew].
  destruct (page_shows_the_routing_score 3 (fun h _ => h) "" [] "5h" "fugu" [] (noon + hours 1) used_installation pg
    ("sub1"%string, a) w Hpg) as (rt & Hin & Hid & _ & Hs).
  - by right; left.
  - by left.
  - exact Ea.
  - assert (a = default a (db_accounts used_installation !! "sub1"%string)) as -> by (by rewrite Ea). vm_compute. reflexivity.
  - exact Ew.
  - repeat constructor; intros _; [exists "fugu"%string, 1|exists "fugu"%string, 2]; (split; [right; left|]);
      (split; [lia|]); split_and!; done.
  - exists pg, rt. split; [exact Hin|]. split; [exact Hid|]. rewrite <- Hs. vm_compute. reflexivity.
Defined.
(** The chart shows the usage of an account that the routes and the totals leave out. *)
Example chart_shows_a_withdrawn_account :
  match demo_page with
  | Ok (inr pg) => units_of "usage_units" (pa_totals pg) = (120, 0) /\
      map (fun p => (pt_route p, pt_units p)) (pa_series pg) = [("sub1", (120, 0)); ("sub2", (80, 0))]%string
  | _ => False
  end.
Proof. vm_compute. split; reflexivity. Qed.

(** ** Retries *)

Lemma retry_from_spec {A} (attempt : nat -> result A) more i :
  (0 < more)%nat ->
  exists j, (i <= j < i + more)%nat /\ retry_from more i attempt = (attempt j, seq i (j - i)) /\
    (forall k, (i <= k < j)%nat -> exists e, attempt k = Raise e /\ is_operational e = true) /\
    (forall e, attempt j = Raise e -> is_operational e = true -> j = (i + more - 1)%nat).
Proof.
  revert i. induction more as [|more IH]; intros i Hm; [lia|]. cbn [retry_from].
  assert (forall k, (i <= k < i)%nat -> exists e, attempt k = Raise e /\ is_operational e = true) as Hnone by lia.
  destruct (attempt i) as [a|e] eqn:Ea.
  - exists i. rewrite Nat.sub_diag. split; [lia|]. split; [by rewrite Ea|]. split; [done|]. rewrite Ea. discriminate.
  - destruct (is_operational e && negb (more =? 0)%nat) eqn:Er.
    + apply andb_true_iff in Er as [Eo Em]. apply negb_true_iff, Nat.eqb_neq in Em.
      destruct (IH (S i)) as (j & Hj & -> & Hk & Hl); [lia|]. exists j. split; [lia|]. split.
      * replace (j - i)%nat with (S (j - S i)) by lia. done.
      * split; [|intros e' He' Ho'; rewrite (Hl e' He' Ho'); lia]. intros k Hk'. destruct (decide (k = i)) as [->|Hne]; [by exists e|].
        apply Hk. lia.
    + exists i. rewrite Nat.sub_diag. split; [lia|]. split; [by rewrite Ea|]. split; [done|]. rewrite Ea. intros e' [= <-] Ho.
      rewrite Ho in Er. simpl in Er. apply negb_false_iff, Nat.eqb_eq in Er. lia.
Qed.
(** A handler that is tried at most [n] times gives the result of the first attempt that
    the database did not interrupt, or else of the last; between two attempts it waits, each
    time twice as long. *)
Theorem retries_end_at_the_first_answer {A} n (attempt : nat -> result A) :
  (0 < n)%nat ->
  exists j, (j < n)%nat /\ retried n attempt = (attempt j, seq 0 j) /\
    (forall k, (k < j)%nat -> exists e, attempt k = Raise e /\ is_operational e = true) /\
    (forall e, attempt j = Raise e -> is_operational e = true -> j = (n - 1)%nat).
Proof.
  intros Hn. destruct (retry_from_spec attempt n 0 Hn) as (j & Hj & Hr & Hk & Hl). exists j. rewrite Nat.sub_0_r in Hr.
  split; [lia|]. split; [exact Hr|]. split; [intros k Hk'; apply Hk; lia|]. exact Hl.
Qed.
Lemma retries_end_at_the_first_answer_witness : exists j, (j < 2)%nat /\
  retried 2 (fun i => if (i =? 0)%nat then Raise (OtherError "OperationalError" "") else Ok i) = (Ok j, seq 0 j).
Proof.
  destruct (retries_end_at_the_first_answer 2
    (fun i => if (i =? 0)%nat then Raise (OtherError "OperationalError" "") else Ok i)) as (j & Hj & Hr & _ & Hl); [lia|].
  destruct j as [|j]; [specialize (Hl _ eq_refl eq_refl); discriminate Hl|]. exists (S j). split; [exact Hj|exact Hr].
Defined.
